(* ===== verification/_CoqProject ===== *)
-Q . S2P
Prelude.v
Hoare.v
Stream.v
BigNum.v
UInt256.v
Crypto.v
Key.v
RingSig.v
Transaction.v
ChainParams.v
Script.v
SigCheck.v
Interp.v
Js.v
Regex.v
Classie.v
TableIndex.v
EmojiTables.v
Emoji.v
EmojiTheory.v
Md5.v
Md5Theory.v
Num.v
Png.v
PngTheory.v
Identicon.v
IdenticonTheory.v
Jdenticon.v
JdenticonTheory.v
Value.v
FooTable.v
FooPlugins.v
FooTheory.v
FooTimer.v
FooInputs.v
FooFields.v
FooSetup.v
FooMarks.v
ScrollUtils.v
ScrollState.v
IScroll.v
ScrollTheory.v
ScrollPages.v
ScrollRest.v
