(* ===== verification/Prelude.v ===== *)
(** * Alias wallet: a verification library

    The wallet is a node in C++ (src/src/*.cpp, *.h) with a user interface whose pages are
    scripts (src/src/qt/res/assets/plugins).  This library models the scripts that are kept in
    readable form - all of them - and, of the node, the code under the protocol: wire format,
    numbers, keys, scripts, stealth payments and ring signatures.  A definition is translated
    from the source and keeps its name; the theorems are about these definitions, and most of
    the definitions can be run on examples with [vm_compute].

    ** How the parts fit together

    The scripts do not call each other but for two pairs: identicon draws on images of pnglib,
    and the plugins of footable work on its tables and answer its events.  The parts of the
    node are layers: Stream under Transaction under Script and SigCheck under Interp; Crypto
    under Key under RingSig.

    ** What stands under all parts

    - Prelude: machine words, [res] (return, throw, undefined behaviour), the state and
      exception monad [SE] with its notations, tactics, lemmas on lists and integers.
    - Hoare: rules for properties that code in [SE] keeps, gives and establishes.
    - Js, Regex, Num, Value: the language of the scripts.  Strings are lists of UTF-16 code units;
      regular expressions are backtracking matchers as the standard defines them; numbers are
      a class [Num] with the IEEE doubles ([F64], exact) and the rationals as instances, so that
      the code runs on doubles and is reasoned about without rounding; where the code only uses
      small integers they are [Z].
    - TableIndex: checking large tables of texts in linear time.

    ** The scripts

    - emojione (plugins/emojione/emojione.js): EmojiTables has its three tables entry by entry,
      Emoji the functions ([toShort], [shortnameToUnicode], [unicodeToImage], ...), EmojiTheory
      the theorems: the canonical short name, the round trip, [convert] as UTF-16, what
      replacement leaves alone.
    - md5 (plugins/md5/md5.js): Md5 has the object with both kinds of block memory and RFC 1321 as
      [Reference]; Md5Theory shows that any sequence of updates computes the reference digest,
      that [update] ends, and what the padding is.
    - pnglib, identicon (plugins/pnglib/pnglib.js, plugins/identicon/identicon.js): Png, Identicon;
      PngTheory has a reader of PNG files after the PNG, zlib and deflate formats, and shows
      that it reads back what [getDump] writes; IdenticonTheory that every pixel of the file
      is the one of its cell.
    - jdenticon (plugins/jdenticon/jdenticon-1.3.2.js): Jdenticon, written over a class of
      renderers as the code is; JdenticonTheory: symmetry under quarter turns, the agreement
      of canvas and SVG, well-formed colors and paths, the errors.
    - classie (plugins/classie/classie.js): Classie, the functions by patterns on the words of a
      text, and [classList] as an interface with the laws of the DOM standard; how each toggles.
    - footable (plugins/footable/footable.js, .sort.js, .filter.js, .paginate.js): FooTable (columns,
      breakpoints, details, drawing), FooPlugins (the plugins and the composition of their
      handlers), FooTheory (a table with a navigation and no open detail shows its page and
      what matches the filter, whatever is done; sorting; the division into pages; details are complete), FooTimer (timeouts and the
      field of the filter), FooInputs and FooFields (fields that move between cells and
      details, and that none is lost), FooSetup (options, plugins, version, instances),
      FooMarks (marks on cells).
    - iscroll (plugins/iscroll/iscroll.js): ScrollUtils (the object utils), ScrollState (the fields of a
      scroller, its indicators and the page), IScroll (all methods; [happen] is one event, timeout,
      frame or call), ScrollTheory (momentum; a scroller that does not bounce stays in its bounds, by an
      invariant that every method keeps, under the conditions the theorem names), ScrollPages (snapping to pages is safe; turning
      pages), ScrollRest (transitions come to rest; runs of the code on doubles).

    ** The node

    - Stream (serialize.h): [CDataStream] refines a queue of bytes; compact sizes, variable-length
      integers, the interface [Serializable] with its laws; announced sizes wrap at 2^32.
    - BigNum (bignum.h), UInt256 (uint256.h): conversions, compact targets, arithmetic modulo 2^n.
    - Crypto (hash.h, hash.cpp, OpenSSL as interfaces [Hashes] and [EC]), Key (key.h, key.cpp,
      eckey.cpp): hashing, keys, hierarchical derivation; the derivation commutes with dropping the
      secret half.
    - RingSig (stealth.cpp, ringsig.cpp): both ring signatures verify, the two ends of a stealth
      payment agree, amounts are split without loss where an [int] can count the largest outputs.
    - Transaction (core.h, main.h): the wire format and its round trip.
    - ChainParams (chainparams.cpp): the numbers of the networks.
    - Script, SigCheck, Interp (script.h, script.cpp): encodings and standard forms; signature encodings, the
      hash that is signed, the cache, lock times; the interpreter.

    ** Interfaces and hypotheses

    Code that is not in the repository is a parameter: OpenSSL ([Hashes], [EC], [ECDSA],
    [OpenSSL_BN]), window.btoa, [classList], the method of Array.prototype.sort (the class
    [ArraySort] states what the standard guarantees), upper and lower case, sine, square root
    and power, the listeners of the page.  Each has a concrete instance in a witness.  jQuery is
    written out on the elements a script works on.  Theorems on geometry (jdenticon, iscroll)
    are about rational numbers, that is about the code without rounding; the same definitions
    run on doubles.

    ** Fuel and bounds

    [scrollTo_fuel] has depth 3: a scroll calls itself only at the end of an animation that is over at
    once, to go back inside the bounds, where the next one ends; [handle] has depth 3: the
    listeners of the scroller raise events inside events at most twice.  [loop_fuel] is the number of turns of the
    loops over pages and is shown to be enough (ScrollPages.enough_fuel).  The loops of md5, base64,
    the paging and the digits of numbers recurse on lists or have a fuel that theorems show to
    be enough.  Numbers of [Z] in the scripts are exact below 2^53; the theorems on md5 and png
    state the sizes from which the code is wrong.

    ** Not modelled

    The minified libraries (jQuery, bootstrap, spectre.min.js, shajs, modernizr and the like),
    whose sources are not in the repository; module systems and start code of the scripts;
    debug output; the row of column groups of footable; the fields of the click event that iscroll makes.  Of the node:
    blocks, chain selection and proof of stake (main.cpp, kernel.cpp), memory pool and mining,
    the wallet and its databases, peers and network threads, secure messages, RPC and the Qt
    widgets: code around databases, threads, sockets and global state.

    ** What could follow

    Of the node: the kernel of the proof of stake, the bloom filter and the address manager; of
    the scripts: rounding in the theorems on iscroll, and the lifetime of listeners. *)

From Stdlib Require Import ZArith Lia List String Bool.
Import ListNotations.
#[local] Open Scope Z_scope.

(** ** Machine words *)

(** The value a [w]-bit unsigned object holds after being assigned [z]. *)
Definition wrapu (w z : Z) : Z := z mod 2 ^ w.

(** The value a [w]-bit two's complement object holds after being assigned [z]. *)
Definition wraps (w z : Z) : Z :=
  (z + 2 ^ (w - 1)) mod 2 ^ w - 2 ^ (w - 1).

Abbreviation u8 := (wrapu 8).
Abbreviation u16 := (wrapu 16).
Abbreviation u32 := (wrapu 32).
Abbreviation u64 := (wrapu 64).
Abbreviation i32 := (wraps 32).
Abbreviation i64 := (wraps 64).

(** A [w]-bit unsigned value. *)
Definition in_u (w z : Z) : Prop := 0 <= z < 2 ^ w.
Definition in_s (w z : Z) : Prop := - 2 ^ (w - 1) <= z < 2 ^ (w - 1).

Abbreviation byte_ok := (in_u 8).
Definition bytes_ok (l : list Z) : Prop := Forall byte_ok l.

(** ** Outcomes of code that throws *)

(** [Throw] is a C++ exception; [Undef] is undefined behaviour (an access out
    of the bounds of an object), which the theorems show unreachable. *)
Inductive res (A : Type) : Type :=
| Ret (a : A)
| Throw (what : string)
| Undef.
Arguments Ret {A} a.
Arguments Throw {A} what.
Arguments Undef {A}.

Declare Scope res_scope.
Delimit Scope res_scope with res.

Definition res_bind {A B} (r : res A) (k : A -> res B) : res B :=
  match r with
  | Ret a => k a
  | Throw e => Throw e
  | Undef => Undef
  end.

Notation "'let*' x := c 'in' k" := (res_bind c (fun x => k))
  (at level 10, x pattern, c at level 200, k at level 200) : res_scope.

Lemma res_bind_inv {A B} (r : res A) (k : A -> res B) b :
  res_bind r k = Ret b -> exists a, r = Ret a /\ k a = Ret b.
Proof. destruct r; cbn; intros E; try discriminate. eauto. Qed.

(** Code that updates an object of type [S] and may throw: the object is left
    as it was when the exception was raised. *)
Definition SE (S A : Type) : Type := S -> res A * S.

Definition se_ret {S A} (a : A) : SE S A := fun s => (Ret a, s).
Definition se_throw {S A} (e : string) : SE S A := fun s => (Throw e, s).
Definition se_bind {S A B} (c : SE S A) (k : A -> SE S B) : SE S B :=
  fun s => match c s with
           | (Ret a, s') => k a s'
           | (Throw e, s') => (Throw e, s')
           | (Undef, s') => (Undef, s')
           end.

Declare Scope se_scope.
Delimit Scope se_scope with se.
Notation "'let!' x := c 'in' k" := (se_bind c (fun x => k))
  (at level 10, x pattern, c at level 200, k at level 200) : se_scope.
Notation "c ;! k" := (se_bind c (fun _ => k))
  (at level 100, k at level 200, right associativity) : se_scope.

Lemma se_bind_ret {S A B} (c : SE S A) (k : A -> SE S B) s a s' :
  c s = (Ret a, s') -> se_bind c k s = k a s'.
Proof. intros E. unfold se_bind. now rewrite E. Qed.

Lemma se_bind_throw {S A B} (c : SE S A) (k : A -> SE S B) s e s' :
  c s = (Throw e, s') -> se_bind c k s = (Throw e, s').
Proof. intros E. unfold se_bind. now rewrite E. Qed.

Lemma se_bind_inv {S A B} (c : SE S A) (k : A -> SE S B) s b s' :
  se_bind c k s = (Ret b, s') -> exists a s1, c s = (Ret a, s1) /\ k a s1 = (Ret b, s').
Proof.
  unfold se_bind. destruct (c s) as [[a| |] s1]; intros E; try discriminate. eauto.
Qed.

(** Length as an integer: what [size()] returns. *)
Definition zlen {A} (l : list A) : Z := Z.of_nat (List.length l).
Arguments zlen : simpl never.

(** ** Automation *)

Create HintDb words.
Create Rewrite HintDb words.
Create Rewrite HintDb lists.

(** Splits every conjunction and existential among the hypotheses. *)
Ltac split_hyps :=
  repeat match goal with
         | H : _ /\ _ |- _ => destruct H
         | H : exists _, _ |- _ => destruct H
         end.

(** Takes the steps of a computation that returned apart. *)
Ltac inv_bind H :=
  let a := fresh "a" in let E := fresh "E" in
  apply res_bind_inv in H; destruct H as (a & E & H); cbn beta in H.

(** Splits the conjunctions of the goal that are syntactically there. *)
Ltac splits := repeat match goal with |- _ /\ _ => split end.

(** Turns boolean comparisons of [Z] among hypotheses and goal into
    propositions. *)
Ltac zbool :=
  repeat match goal with
         | H : (_ <? _) = true |- _ => apply Z.ltb_lt in H
         | H : (_ <? _) = false |- _ => apply Z.ltb_ge in H
         | H : (_ <=? _) = true |- _ => apply Z.leb_le in H
         | H : (_ <=? _) = false |- _ => apply Z.leb_gt in H
         | H : (_ =? _) = true |- _ => apply Z.eqb_eq in H
         | H : (_ =? _) = false |- _ => apply Z.eqb_neq in H
         | H : andb _ _ = true |- _ => apply andb_true_iff in H; destruct H
         | H : orb _ _ = false |- _ => apply orb_false_iff in H; destruct H
         | H : negb _ = true |- _ => apply negb_true_iff in H
         | H : negb _ = false |- _ => apply negb_false_iff in H
         end.

(** Case analysis on the first [if] of the goal, its condition turned into
    a proposition. *)
Ltac zcase :=
  match goal with
  | |- context [if ?b then _ else _] =>
      let E := fresh "E" in destruct b eqn:E; zbool
  end.

(** Case analysis on the first [if] or [match] of a hypothesis. *)
Ltac hcase H :=
  match type of H with
  | context [match ?b with _ => _ end] =>
      let E := fresh "E" in destruct b eqn:E; zbool; try discriminate H
  end.

(** ** Words *)

Lemma wrapu_range w z : 0 <= w -> in_u w (wrapu w z).
Proof. intros. unfold in_u, wrapu. apply Z.mod_pos_bound. now apply Z.pow_pos_nonneg. Qed.

Lemma wrapu_id w z : in_u w z -> wrapu w z = z.
Proof. intros. unfold wrapu. now apply Z.mod_small. Qed.

Lemma wraps_id w z : 0 < w -> in_s w z -> wraps w z = z.
Proof.
  intros Hw [H1 H2]. unfold wraps.
  assert (2 ^ w = 2 * 2 ^ (w - 1)) as E
      by (rewrite <- Z.pow_succ_r by lia; f_equal; lia).
  rewrite Z.mod_small by lia. lia.
Qed.

Lemma wraps_range w z : 0 < w -> in_s w (wraps w z).
Proof.
  intros Hw. unfold wraps, in_s.
  assert (2 ^ w = 2 * 2 ^ (w - 1)) as E
      by (rewrite <- Z.pow_succ_r by lia; f_equal; lia).
  assert (0 < 2 ^ (w - 1)) by (apply Z.pow_pos_nonneg; lia).
  pose proof (Z.mod_pos_bound (z + 2 ^ (w - 1)) (2 ^ w)). lia.
Qed.

Lemma wrapu_wrapu w z : wrapu w (wrapu w z) = wrapu w z.
Proof. unfold wrapu. now rewrite Z.mod_mod_divide by apply Z.divide_refl. Qed.

Lemma wrapu_add_l w a b : wrapu w (wrapu w a + b) = wrapu w (a + b).
Proof. apply Zplus_mod_idemp_l. Qed.

Lemma wrapu_add_r w a b : wrapu w (a + wrapu w b) = wrapu w (a + b).
Proof. apply Zplus_mod_idemp_r. Qed.

(** A signed value through the unsigned type of its width. *)
Lemma wraps_wrapu w z : 0 < w -> in_s w z -> wraps w (wrapu w z) = z.
Proof.
  intros Hw Hz. rewrite <- (wraps_id w z Hw Hz) at 2. unfold wraps, wrapu.
  now rewrite Z.add_mod_idemp_l by (apply Z.pow_nonzero; lia).
Qed.

#[export] Hint Resolve wrapu_range wraps_range : words.
#[export] Hint Rewrite wrapu_wrapu wrapu_add_l wrapu_add_r : words.

(** ** Lists indexed by integers *)

Lemma zlen_nonneg {A} (l : list A) : 0 <= zlen l.
Proof. unfold zlen. lia. Qed.

Lemma zlen_nil {A} : zlen (@nil A) = 0.
Proof. reflexivity. Qed.

Lemma zlen_cons {A} (x : A) l : zlen (x :: l) = 1 + zlen l.
Proof. unfold zlen. cbn [List.length]. lia. Qed.

Lemma zlen_app {A} (a b : list A) : zlen (a ++ b) = zlen a + zlen b.
Proof. unfold zlen. rewrite length_app. lia. Qed.

Lemma zlen_to_nat {A} (l : list A) : Z.to_nat (zlen l) = List.length l.
Proof. unfold zlen. apply Nat2Z.id. Qed.

Lemma zlen_firstn {A} n (l : list A) :
  0 <= n <= zlen l -> zlen (firstn (Z.to_nat n) l) = n.
Proof. unfold zlen. intros. rewrite length_firstn. lia. Qed.

Lemma zlen_skipn {A} n (l : list A) :
  0 <= n <= zlen l -> zlen (skipn (Z.to_nat n) l) = zlen l - n.
Proof. unfold zlen. intros. rewrite length_skipn. lia. Qed.

Lemma firstn_app_exact {A} (a b : list A) : firstn (Z.to_nat (zlen a)) (a ++ b) = a.
Proof. rewrite zlen_to_nat, firstn_app, Nat.sub_diag, firstn_all. cbn. apply app_nil_r. Qed.

Lemma skipn_app_exact {A} (a b : list A) : skipn (Z.to_nat (zlen a)) (a ++ b) = b.
Proof. rewrite zlen_to_nat, skipn_app, Nat.sub_diag, skipn_all. reflexivity. Qed.

Lemma zlen_rev {A} (l : list A) : zlen (rev l) = zlen l.
Proof. unfold zlen. now rewrite length_rev. Qed.

Lemma zlen_repeat {A} (x : A) n : zlen (repeat x n) = Z.of_nat n.
Proof. unfold zlen. now rewrite repeat_length. Qed.

#[export] Hint Rewrite @zlen_nil @zlen_cons @zlen_app @zlen_rev @zlen_repeat : lists.

Lemma Forall_firstn_n {A} (P : A -> Prop) n l : Forall P l -> Forall P (firstn n l).
Proof. intros H. rewrite <- (firstn_skipn n l) in H. now apply Forall_app in H. Qed.

Lemma Forall_skipn_n {A} (P : A -> Prop) n l : Forall P l -> Forall P (skipn n l).
Proof. intros H. rewrite <- (firstn_skipn n l) in H. now apply Forall_app in H. Qed.

Lemma nth_byte l i : bytes_ok l -> byte_ok (nth i l 0).
Proof.
  intros H. destruct (nth_in_or_default i l 0) as [I | ->]; [|easy].
  unfold bytes_ok in H. rewrite Forall_forall in H. auto.
Qed.

Lemma bytes_app a b : bytes_ok (a ++ b) <-> bytes_ok a /\ bytes_ok b.
Proof. apply Forall_app. Qed.

(** ** Little-endian and big-endian byte strings *)

(** The [n] low bytes of [z], least significant first: the memory image of an
    unsigned integer object on the little-endian targets of the node. *)
Fixpoint le_bytes (n : nat) (z : Z) : list Z :=
  match n with
  | O => []
  | S n => z mod 256 :: le_bytes n (z / 256)
  end.

Fixpoint le_val (l : list Z) : Z :=
  match l with
  | [] => 0
  | b :: l => b + 256 * le_val l
  end.

Definition be_val (l : list Z) : Z := le_val (rev l).

Lemma length_le_bytes n z : List.length (le_bytes n z) = n.
Proof. revert z. induction n; intros; cbn; auto. Qed.

Lemma le_bytes_ok n z : bytes_ok (le_bytes n z).
Proof.
  revert z. induction n; intros; cbn; constructor.
  - unfold in_u. change (2 ^ 8) with 256. apply Z.mod_pos_bound. lia.
  - apply IHn.
Qed.

Lemma le_val_bytes n z : le_val (le_bytes n z) = z mod 2 ^ (8 * Z.of_nat n).
Proof.
  revert z. induction n; intros.
  - cbn. now rewrite Z.mod_1_r.
  - cbn [le_bytes le_val]. rewrite IHn.
    replace (8 * Z.of_nat (S n)) with (8 + 8 * Z.of_nat n) by lia.
    rewrite Z.pow_add_r by lia. change (2 ^ 8) with 256.
    rewrite Z.rem_mul_r; lia.
Qed.

Lemma le_val_range l : bytes_ok l -> 0 <= le_val l < 2 ^ (8 * Z.of_nat (List.length l)).
Proof.
  induction 1 as [|b l Hb Hl IH]; cbn [le_val List.length].
  - cbn. lia.
  - unfold in_u in Hb. change (2 ^ 8) with 256 in Hb.
    replace (8 * Z.of_nat (S (List.length l))) with (8 + 8 * Z.of_nat (List.length l)) by lia.
    rewrite Z.pow_add_r by lia. change (2 ^ 8) with 256. lia.
Qed.

Lemma le_bytes_val l : bytes_ok l -> le_bytes (List.length l) (le_val l) = l.
Proof.
  induction 1 as [|b l Hb Hl IH]; cbn [le_val List.length le_bytes]; [easy|].
  unfold in_u in Hb. change (2 ^ 8) with 256 in Hb.
  rewrite (Z.mul_comm 256), Z.mod_add, Z.div_add by lia.
  rewrite Z.mod_small, Z.div_small by lia. rewrite Z.add_0_l, IH. easy.
Qed.

Lemma le_val_app a b : le_val (a ++ b) = le_val a + 2 ^ (8 * Z.of_nat (List.length a)) * le_val b.
Proof.
  induction a as [|x a IH]; cbn [app le_val List.length].
  - rewrite Z.pow_0_r. lia.
  - rewrite IH.
    replace (8 * Z.of_nat (S (List.length a))) with (8 + 8 * Z.of_nat (List.length a)) by lia.
    rewrite Z.pow_add_r by lia. change (2 ^ 8) with 256. lia.
Qed.

Lemma zlen_le_bytes n z : zlen (le_bytes n z) = Z.of_nat n.
Proof. unfold zlen. now rewrite length_le_bytes. Qed.

#[export] Hint Resolve le_bytes_ok : words.
#[export] Hint Rewrite length_le_bytes zlen_le_bytes : lists.

Lemma le_bytes_S n z :
  le_bytes (S n) z = le_bytes n z ++ [(z / 2 ^ (8 * Z.of_nat n)) mod 256].
Proof.
  revert z. induction n; intros z.
  - cbn. now rewrite Z.div_1_r.
  - cbn [le_bytes app] in *. f_equal. rewrite IHn. f_equal. f_equal. f_equal.
    rewrite Z.div_div by (try lia; now apply Z.pow_pos_nonneg; lia).
    f_equal. change 256 with (2 ^ 8). rewrite <- Z.pow_add_r by lia. f_equal. lia.
Qed.

Lemma be_val_cons b l : be_val (b :: l) = b * 2 ^ (8 * zlen l) + be_val l.
Proof. unfold be_val, zlen. cbn [rev]. rewrite le_val_app, length_rev. cbn. lia. Qed.

Lemma be_val_range l : bytes_ok l -> 0 <= be_val l < 2 ^ (8 * zlen l).
Proof.
  intros H. unfold be_val, zlen. rewrite <- length_rev. apply le_val_range.
  now apply Forall_rev.
Qed.

Lemma be_val_app a b : be_val (a ++ b) = be_val a * 2 ^ (8 * zlen b) + be_val b.
Proof. unfold be_val, zlen. rewrite rev_app_distr, le_val_app, length_rev. lia. Qed.

(** ** Bit operations as arithmetic *)

Lemma lor_shiftl_add a k d :
  0 <= k -> 0 <= d < 2 ^ k -> Z.lor (Z.shiftl a k) d = a * 2 ^ k + d.
Proof.
  intros Hk Hd. rewrite Z.shiftl_mul_pow2 by lia.
  assert (Z.land (a * 2 ^ k) d = 0) as D.
  { apply Z.bits_inj'. intros i Hi. rewrite Z.land_spec, Z.bits_0.
    destruct (Z.lt_ge_cases i k); [now rewrite Z.mul_pow2_bits_low by lia|].
    rewrite <- (Z.mod_small d (2 ^ k)), Z.mod_pow2_bits_high by lia. apply andb_false_r. }
  now rewrite <- Z.lxor_lor, <- Z.add_nocarry_lxor by easy.
Qed.

Lemma land_low w z : 0 <= w -> Z.land z (2 ^ w - 1) = z mod 2 ^ w.
Proof. intros. now rewrite <- Z.land_ones, Z.ones_equiv, Z.sub_1_r by easy. Qed.

Lemma land255 z : Z.land z 255 = z mod 256.
Proof. exact (land_low 8 z ltac:(lia)). Qed.

Lemma land1 z : Z.land z 1 = z mod 2.
Proof. exact (land_low 1 z ltac:(lia)). Qed.

(** A bit of a value below the next power of two. *)
Lemma land_top_bit w z :
  0 <= w -> 0 <= z < 2 ^ (w + 1) -> Z.land z (2 ^ w) = if 2 ^ w <=? z then 2 ^ w else 0.
Proof.
  intros Hw Hz. assert (2 ^ (w + 1) = 2 * 2 ^ w) as E by (rewrite Z.pow_add_r; lia).
  apply Z.bits_inj'. intros i Hi.
  rewrite Z.land_spec, Z.pow2_bits_eqb by lia.
  assert (Z.testbit z w = (2 ^ w <=? z)) as T.
  { rewrite Z.testbit_eqb by lia.
    destruct (2 ^ w <=? z) eqn:L; zbool.
    - replace (z / 2 ^ w) with 1; [easy|].
      apply (Z.div_unique_pos _ _ _ (z - 2 ^ w)); lia.
    - now rewrite Z.div_small by lia. }
  destruct (Z.eqb_spec w i) as [<-|N].
  - rewrite T. destruct (_ <=? _); [now rewrite Z.pow2_bits_true|now rewrite Z.bits_0].
  - rewrite andb_false_r. destruct (_ <=? _); [|now rewrite Z.bits_0].
    rewrite Z.pow2_bits_eqb by lia. symmetry. now apply Z.eqb_neq.
Qed.

Lemma land127 n : Z.land n 127 = n mod 128.
Proof. exact (land_low 7 n ltac:(lia)). Qed.

Lemma lor128 d : 0 <= d < 128 -> Z.lor d 128 = d + 128.
Proof.
  intros. rewrite Z.lor_comm. change 128 with (Z.shiftl 1 7) at 1.
  rewrite lor_shiftl_add by (change (2 ^ 7) with 128; lia). change (2 ^ 7) with 128. lia.
Qed.

Lemma land128 c : byte_ok c -> Z.land c 128 = if 128 <=? c then 128 else 0.
Proof. unfold in_u. intros. apply (land_top_bit 7 c); [lia|exact H]. Qed.

(** ** Replacing a part of a list *)

(** Replaces what stands at [i]. *)
Definition splice {A} (i : nat) (new l : list A) : list A :=
  firstn i l ++ new ++ skipn (i + List.length new) l.

Lemma splice_app {A} (a new b c : list A) : List.length b = List.length new ->
  splice (List.length a) new (a ++ b ++ c) = a ++ new ++ c.
Proof.
  intros H. unfold splice. rewrite firstn_app, Nat.sub_diag, firstn_all, firstn_O, app_nil_r.
  rewrite <- H, <- length_app, (app_assoc a b c), skipn_app, Nat.sub_diag, skipn_all. reflexivity.
Qed.

Lemma splice_at {A} k (new a b c : list A) : List.length a = k -> List.length b = List.length new ->
  splice k new (a ++ b ++ c) = a ++ new ++ c.
Proof. intros <-. apply splice_app. Qed.

Lemma length_splice {A} i (new l : list A) : (i + List.length new <= List.length l)%nat ->
  List.length (splice i new l) = List.length l.
Proof. intros H. unfold splice. rewrite !length_app, length_firstn, length_skipn. lia. Qed.
