(* ===== verification/Hoare.v ===== *)
(** * Invariants of code that changes a state

    Code of [SE] keeps a property of the state when the property holds after it whenever it
    held before, whether the code returns or throws.  The rules follow the code; the database
    [keeps] collects them with the lemmas on the parts of a component. *)

From Stdlib Require Import String ZArith List Bool.
From S2P Require Import Prelude.
Import ListNotations.
#[local] Open Scope se_scope.

Create HintDb keeps.

Section Hoare.

Context {S : Type}.

(** What holds after code that returned, and after code that threw. *)
Definition outcome {T} (Q : T -> S -> Prop) (E : S -> Prop) (r : res T * S) : Prop :=
  match r with
  | (Ret a, s) => Q a s
  | (_, s) => E s
  end.

Definition triple {T} (P : S -> Prop) (c : SE S T) (Q : T -> S -> Prop) (E : S -> Prop) : Prop :=
  forall s, P s -> outcome Q E (c s).

Definition keeps {T} (I : S -> Prop) (c : SE S T) : Prop := forall s, I s -> I (snd (c s)).

(** Code that returns values with a property. *)
Definition gives {T} (I : S -> Prop) (c : SE S T) (V : T -> Prop) : Prop := triple I c (fun a s => I s /\ V a) I.

Lemma triple_bind {T U} P (c : SE S T) (k : T -> SE S U) Q R E :
  triple P c Q E -> (forall a, triple (Q a) (k a) R E) -> triple P (let! a := c in k a) R E.
Proof.
  intros Hc Hk s H. specialize (Hc s H). unfold se_bind. destruct (c s) as [[a| |] s']; cbn in Hc; [apply (Hk a), Hc|exact Hc..].
Qed.

Lemma keeps_ret {T} I (a : T) : keeps I (se_ret a).
Proof. intros s H. exact H. Qed.

Lemma keeps_throw {T} I e : keeps I (@se_throw S T e).
Proof. intros s H. exact H. Qed.

Lemma keeps_undef {T} I : keeps I (fun s => (@Undef T, s)).
Proof. intros s H. exact H. Qed.

Lemma keeps_bind {T U} I (c : SE S T) (k : T -> SE S U) :
  keeps I c -> (forall a, keeps I (k a)) -> keeps I (let! a := c in k a).
Proof.
  intros Hc Hk s H. specialize (Hc s H). unfold se_bind. destruct (c s) as [[a| |] s']; cbn in *; [apply (Hk a), Hc|exact Hc..].
Qed.

Lemma keeps_if {T} I (b : bool) (c d : SE S T) : keeps I c -> keeps I d -> keeps I (if b then c else d).
Proof. destruct b; auto. Qed.

Lemma keeps_modify (I : S -> Prop) (f : S -> S) : (forall s, I s -> I (f s)) -> keeps I (fun s => (Ret tt, f s)).
Proof. intros H s Hs. apply H, Hs. Qed.

Lemma gives_keeps {T} I (c : SE S T) V : gives I c V -> keeps I c.
Proof. intros H s Hs. specialize (H s Hs). destruct (c s) as [[a| |] s']; cbn in *; [apply H|exact H..]. Qed.

Lemma gives_bind {T U} I (c : SE S T) V (k : T -> SE S U) :
  gives I c V -> (forall a, V a -> keeps I (k a)) -> keeps I (let! a := c in k a).
Proof.
  intros Hc Hk s H. specialize (Hc s H). unfold se_bind. destruct (c s) as [[a| |] s']; cbn in *; [apply (Hk a); apply Hc|exact Hc..].
Qed.

Lemma gives_ret {T} (I : S -> Prop) (a : T) (V : T -> Prop) : V a -> gives I (se_ret a) V.
Proof. intros Ha s H. split; assumption. Qed.

Lemma gives_throw {T} (I : S -> Prop) e (V : T -> Prop) : gives I (se_throw e) V.
Proof. intros s H. exact H. Qed.

Lemma gives_after {T U} I (c : SE S T) (k : T -> SE S U) (V : U -> Prop) :
  keeps I c -> (forall a, gives I (k a) V) -> gives I (let! a := c in k a) V.
Proof.
  intros Hc Hk s H. specialize (Hc s H). unfold se_bind. destruct (c s) as [[a| |] s']; cbn in *; [apply (Hk a), Hc|exact Hc..].
Qed.

Lemma gives_seq {T U} I (c : SE S T) W (k : T -> SE S U) (V : U -> Prop) :
  gives I c W -> (forall a, W a -> gives I (k a) V) -> gives I (let! a := c in k a) V.
Proof.
  intros Hc Hk s H. specialize (Hc s H). unfold se_bind. destruct (c s) as [[a| |] s']; cbn in *; [apply (Hk a); apply Hc|exact Hc..].
Qed.

Lemma gives_if {T} I (b : bool) (c d : SE S T) V : (b = true -> gives I c V) -> (b = false -> gives I d V) -> gives I (if b then c else d) V.
Proof. destruct b; auto. Qed.

End Hoare.

#[export] Hint Resolve keeps_ret keeps_throw keeps_undef keeps_if : keeps.

(** Code that returns from every state. *)
Definition returns {S T} (c : SE S T) : Prop := forall s, exists a s', c s = (Ret a, s').

Lemma returns_ret {S T} (a : T) : returns (@se_ret S T a).
Proof. intros s. exists a, s. reflexivity. Qed.

Lemma returns_bind {S T U} (c : SE S T) (k : T -> SE S U) : returns c -> (forall a, returns (k a)) -> returns (let! a := c in k a).
Proof. intros Hc Hk s. destruct (Hc s) as (a & s' & E). unfold se_bind. rewrite E. apply Hk. Qed.

(** Code that establishes a property for the code after it. *)
Lemma establish {S T U} (I : S -> Prop) (c : SE S T) (k : T -> SE S U) s :
  I (snd (c s)) -> (forall a, keeps I (k a)) -> I (snd ((let! a := c in k a) s)).
Proof. intros Hc Hk. unfold se_bind. destruct (c s) as [[a| |] s']; cbn in *; [apply (Hk a), Hc|exact Hc..]. Qed.
