(* ===== verification/Stream.v ===== *)
(** * Streams and wire formats (src/src/serialize.h)

    Module [DataStream] is [CDataStream]: a byte vector with a read position.
    Its abstract contract is a queue of the remaining bytes.  Module [Wire] is
    the (de)serialisers of integers, compact sizes, variable-length integers,
    strings and vectors that run on it, behind the interface [Serializable]
    with its law [SerLaws]. *)

From Stdlib Require Import ZArith Lia List String Bool.
From S2P Require Import Prelude.
Import ListNotations.
#[local] Open Scope Z_scope.
#[local] Open Scope se_scope.

Module DataStream.

Record CDataStream := mkStream {
  vch : list Z;
  nReadPos : Z;
  state : Z;
  exceptmask : Z
}.

(** libstdc++'s [std::ios::badbit] and [failbit]. *)
Definition badbit : Z := 1.
Definition failbit : Z := 4.

Definition Init (v : list Z) : CDataStream :=
  mkStream v 0 0 (Z.lor badbit failbit).

Definition set_buf (v : list Z) (p : Z) (s : CDataStream) : CDataStream :=
  mkStream v p (state s) (exceptmask s).

(** [clear()] *)
Definition clear (s : CDataStream) : CDataStream := set_buf [] 0 s.

(** [size()]: the bytes not yet read. *)
Definition size (s : CDataStream) : Z := zlen (vch s) - nReadPos s.

Definition empty (s : CDataStream) : bool := zlen (vch s) =? nReadPos s.

Definition setstate (bits : Z) (psz : string) : SE CDataStream unit := fun s =>
  let s' := mkStream (vch s) (nReadPos s) (Z.lor (state s) bits) (exceptmask s) in
  if Z.land (state s') (exceptmask s) =? 0 then (Ret tt, s') else (Throw psz, s').

(** [memcpy] of [n] bytes from position [p] of the buffer. *)
Definition memcpy (v : list Z) (p n : Z) : res (list Z) :=
  if (0 <=? p) && (0 <=? n) && (p + n <=? zlen v)
  then Ret (firstn (Z.to_nat n) (skipn (Z.to_nat p) v))
  else Undef.

Definition get : SE CDataStream CDataStream := fun s => (Ret s, s).
Definition put (s : CDataStream) : SE CDataStream unit := fun _ => (Ret tt, s).
Definition lift {A} (r : res A) : SE CDataStream A := fun s => (r, s).

(** [read(pch, nSize)], returning what it leaves in [pch]. *)
Definition read (nSize : Z) : SE CDataStream (list Z) :=
  let! s := get in
  if nSize =? 0 then put (clear s) ;! se_ret []
  else
    let nReadPosNext := u32 (nReadPos s + nSize) in
    if zlen (vch s) <=? nReadPosNext then
      let! n := (if zlen (vch s) <? nReadPosNext
                 then setstate failbit "CDataStream::read() : end of data" ;!
                      se_ret (zlen (vch s) - nReadPos s)
                 else se_ret nSize) in
      let! d := lift (memcpy (vch s) (nReadPos s) n) in
      let! s1 := get in
      put (clear s1) ;!
      se_ret (d ++ repeat 0 (Z.to_nat (nSize - n)))
    else
      let! d := lift (memcpy (vch s) (nReadPos s) nSize) in
      put (set_buf (vch s) nReadPosNext s) ;!
      se_ret d.

(** [ignore(nSize)] *)
Definition ignore (nSize : Z) : SE CDataStream unit :=
  let! s := get in
  if nSize <? 0 then lift Undef
  else
    let nReadPosNext := u32 (nReadPos s + nSize) in
    if zlen (vch s) <=? nReadPosNext then
      (if zlen (vch s) <? nReadPosNext
       then setstate failbit "CDataStream::ignore() : end of data" else se_ret tt) ;!
      let! s1 := get in put (clear s1)
    else put (set_buf (vch s) nReadPosNext s).

(** [write(pch, nSize)] *)
Definition write (d : list Z) : SE CDataStream unit :=
  let! s := get in put (set_buf (vch s ++ d) (nReadPos s) s).

(** [Compact()] *)
Definition Compact (s : CDataStream) : CDataStream :=
  set_buf (skipn (Z.to_nat (nReadPos s)) (vch s)) 0 s.

(** [Rewind(n)] *)
Definition Rewind (n : Z) (s : CDataStream) : bool * CDataStream :=
  if nReadPos s <? n then (false, s)
  else (true, set_buf (vch s) (u32 (nReadPos s - n)) s).

(** [insert(begin(), first, last)]: the room before the read position is
    reused when there is enough of it. *)
Definition insert_front (d : list Z) (s : CDataStream) : CDataStream :=
  if zlen d <=? nReadPos s then
    let p := nReadPos s - zlen d in
    set_buf (firstn (Z.to_nat p) (vch s) ++ d ++ skipn (Z.to_nat (nReadPos s)) (vch s)) p s
  else
    set_buf (firstn (Z.to_nat (nReadPos s)) (vch s) ++ d ++
             skipn (Z.to_nat (nReadPos s)) (vch s)) (nReadPos s) s.

(** [erase(begin(), begin() + n)]: [n] bytes dropped from the front. *)
Definition erase_front (n : Z) (s : CDataStream) : CDataStream :=
  if nReadPos s + n =? zlen (vch s) then clear s
  else set_buf (vch s) (nReadPos s + n) s.

(** ** The contract: a queue of remaining bytes *)

(** The position is inside the buffer and the buffer is below 4 GiB, so that
    the 32-bit [nReadPosNext] does not wrap. *)
Definition stream_ok (s : CDataStream) : Prop :=
  0 <= nReadPos s <= zlen (vch s) /\ zlen (vch s) < 2 ^ 31 /\
  Z.land failbit (exceptmask s) <> 0.

Definition remaining (s : CDataStream) : list Z :=
  skipn (Z.to_nat (nReadPos s)) (vch s).

Lemma Init_ok v : zlen v < 2 ^ 31 -> stream_ok (Init v).
Proof. intros. pose proof (zlen_nonneg v). repeat split; cbn; lia. Qed.

Lemma remaining_Init v : remaining (Init v) = v.
Proof. reflexivity. Qed.

Lemma clear_ok s : stream_ok s -> stream_ok (clear s).
Proof. unfold stream_ok, clear. cbn. change (@zlen Z []) with 0. lia. Qed.

Lemma remaining_clear s : remaining (clear s) = [].
Proof. reflexivity. Qed.

Lemma size_remaining s : stream_ok s -> size s = zlen (remaining s).
Proof. intros (H & _). unfold size, remaining. rewrite zlen_skipn; lia. Qed.

Lemma memcpy_ok v p n :
  0 <= p -> 0 <= n -> p + n <= zlen v ->
  memcpy v p n = Ret (firstn (Z.to_nat n) (skipn (Z.to_nat p) v)).
Proof.
  intros. unfold memcpy. destruct (_ && _) eqn:E; [easy|].
  exfalso. apply not_true_iff_false in E. apply E.
  rewrite !andb_true_iff, !Z.leb_le. lia.
Qed.

Lemma skipn_skipn_Z {A} a b (l : list A) :
  0 <= a -> 0 <= b -> skipn (Z.to_nat b) (skipn (Z.to_nat a) l) = skipn (Z.to_nat (a + b)) l.
Proof. intros. rewrite skipn_skipn. f_equal. lia. Qed.

Lemma nonzero_lor_mask st bits mask : Z.land bits mask <> 0 -> Z.land (Z.lor st bits) mask <> 0.
Proof.
  intros H E. apply H. apply Z.bits_inj'. intros i Hi.
  assert (Z.testbit (Z.land (Z.lor st bits) mask) i = false) as F by now rewrite E, Z.bits_0.
  rewrite Z.land_spec, Z.lor_spec in F. rewrite Z.land_spec, Z.bits_0.
  destruct (Z.testbit st i), (Z.testbit bits i), (Z.testbit mask i); cbn in *; congruence.
Qed.

(** A read of [n > 0] bytes takes them off the front of the queue. *)
Lemma read_queue s d rest :
  stream_ok s -> remaining s = d ++ rest -> d <> [] ->
  exists s', read (zlen d) s = (Ret d, s') /\ stream_ok s' /\ remaining s' = rest /\
             exceptmask s' = exceptmask s.
Proof.
  intros Hok Hrem Hd. pose proof Hok as (Hp & Hl & Hm).
  assert (0 < zlen d) as Hd0
      by (destruct d; [easy|]; rewrite zlen_cons; pose proof (zlen_nonneg d); lia).
  pose proof (size_remaining s Hok) as Hsz. rewrite Hrem, zlen_app in Hsz.
  unfold size in Hsz. pose proof (zlen_nonneg rest).
  unfold read, get, put, lift, se_ret, se_bind.
  rewrite (proj2 (Z.eqb_neq _ _)) by lia.
  rewrite wrapu_id by (unfold in_u; lia).
  assert (memcpy (vch s) (nReadPos s) (zlen d) = Ret d) as Hcpy.
  { rewrite memcpy_ok by lia. fold (remaining s). rewrite Hrem, firstn_app_exact. easy. }
  destruct (_ <=? _) eqn:E; zbool.
  - rewrite (proj2 (Z.ltb_ge _ _)) by lia. rewrite Hcpy, Z.sub_diag, app_nil_r.
    eexists. split; [easy|]. split; [now apply clear_ok|].
    assert (zlen rest = 0) as R by lia.
    destruct rest; [easy|]. rewrite zlen_cons in R. pose proof (zlen_nonneg rest). lia.
  - rewrite Hcpy. eexists. split; [easy|]. repeat split; cbn; try lia; try easy.
    unfold remaining. cbn. rewrite <- skipn_skipn_Z by lia. fold (remaining s).
    now rewrite Hrem, skipn_app_exact.
Qed.

(** A read past the end throws, and leaves the buffer as it was. *)
Lemma read_short s n :
  stream_ok s -> zlen (remaining s) < n -> n < 2 ^ 31 ->
  exists s', read n s = (Throw "CDataStream::read() : end of data", s') /\
             remaining s' = remaining s.
Proof.
  intros Hok Hn Hb. pose proof Hok as (Hp & Hl & Hm).
  rewrite <- size_remaining in Hn by easy. unfold size in Hn.
  unfold read, get, put, lift, setstate, se_ret, se_bind.
  rewrite (proj2 (Z.eqb_neq _ _)) by lia.
  rewrite wrapu_id by (unfold in_u; lia).
  rewrite (proj2 (Z.leb_le _ _)) by lia. rewrite (proj2 (Z.ltb_lt _ _)) by lia.
  cbn [state exceptmask]. rewrite (proj2 (Z.eqb_neq _ _)) by now apply nonzero_lor_mask.
  eexists. split; [easy|]. easy.
Qed.

Lemma write_spec s d :
  write d s = (Ret tt, set_buf (vch s ++ d) (nReadPos s) s).
Proof. reflexivity. Qed.

Lemma write_queue s d :
  stream_ok s -> remaining (set_buf (vch s ++ d) (nReadPos s) s) = remaining s ++ d.
Proof.
  intros (H & _). unfold remaining. cbn. unfold zlen in H. rewrite skipn_app.
  replace (Z.to_nat (nReadPos s) - List.length (vch s))%nat with 0%nat by lia. easy.
Qed.

Lemma Compact_queue s : remaining (Compact s) = remaining s.
Proof. reflexivity. Qed.

Lemma insert_front_queue s d :
  stream_ok s -> zlen d <= nReadPos s -> remaining (insert_front d s) = d ++ remaining s.
Proof.
  intros (H & _) Hd. pose proof (zlen_nonneg d).
  unfold insert_front. rewrite (proj2 (Z.leb_le _ _)) by lia.
  unfold remaining. cbn [nReadPos vch set_buf].
  rewrite <- (zlen_firstn (nReadPos s - zlen d) (vch s)) at 1 by lia.
  now rewrite skipn_app_exact.
Qed.

(** Undoing a read with [Rewind] brings the bytes back. *)
Lemma Rewind_read s d rest :
  stream_ok s -> remaining s = d ++ rest -> d <> [] -> rest <> [] ->
  exists s1, read (zlen d) s = (Ret d, s1) /\ Rewind (zlen d) s1 = (true, s).
Proof.
  intros Hok Hrem Hd Hr. pose proof Hok as (Hp & Hl & Hm).
  assert (0 < zlen d) as Hd0
      by (destruct d; [easy|]; rewrite zlen_cons; pose proof (zlen_nonneg d); lia).
  assert (0 < zlen rest) as Hr0
      by (destruct rest; [easy|]; rewrite zlen_cons; pose proof (zlen_nonneg rest); lia).
  pose proof (size_remaining s Hok) as Hsz. rewrite Hrem, zlen_app in Hsz. unfold size in Hsz.
  exists (set_buf (vch s) (nReadPos s + zlen d) s). split.
  - unfold read, get, put, lift, se_ret, se_bind.
    rewrite (proj2 (Z.eqb_neq _ _)) by lia. rewrite wrapu_id by (unfold in_u; lia).
    rewrite (proj2 (Z.leb_gt _ _)) by lia. rewrite memcpy_ok by lia.
    fold (remaining s). now rewrite Hrem, firstn_app_exact.
  - unfold Rewind. cbn. rewrite (proj2 (Z.ltb_ge _ _)) by lia.
    rewrite Z.add_simpl_r, wrapu_id by (unfold in_u; lia). now destruct s.
Qed.

(** ** Programs of stream operations *)

Inductive op := OWrite (d : list Z) | ORead (n : Z) | OIgnore (n : Z) | OCompact.

Definition exec (o : op) : SE CDataStream (list Z) :=
  match o with
  | OWrite d => write d ;! se_ret []
  | ORead n => read n
  | OIgnore n => ignore n ;! se_ret []
  | OCompact => let! s := get in put (Compact s) ;! se_ret []
  end.

(** The contract: operations on a queue; [None] is the exception. *)
Definition queue_exec (o : op) (q : list Z) : option (list Z) * list Z :=
  match o with
  | OWrite d => (Some [], q ++ d)
  | ORead n => if zlen q <? n then (None, q)
               else (Some (firstn (Z.to_nat n) q), skipn (Z.to_nat n) q)
  | OIgnore n => if zlen q <? n then (None, q) else (Some [], skipn (Z.to_nat n) q)
  | OCompact => (Some [], q)
  end.

(** Transfers are of at least one byte. *)
Definition op_ok (o : op) : Prop :=
  match o with ORead n | OIgnore n => 0 < n < 2 ^ 31 | _ => True end.

Definition op_bytes (o : op) : Z := match o with OWrite d => zlen d | _ => 0 end.

Fixpoint run (p : list op) (s : CDataStream) : list (option (list Z)) * CDataStream :=
  match p with
  | [] => ([], s)
  | o :: p =>
      let '(r, s) := exec o s in
      let '(rs, s) := run p s in
      (match r with Ret d => Some d | _ => None end :: rs, s)
  end.

Fixpoint queue_run (p : list op) (q : list Z) : list (option (list Z)) * list Z :=
  match p with
  | [] => ([], q)
  | o :: p =>
      let '(r, q) := queue_exec o q in
      let '(rs, q) := queue_run p q in (r :: rs, q)
  end.

Lemma ignore_queue s n :
  stream_ok s -> 0 < n -> n < 2 ^ 31 ->
  if zlen (remaining s) <? n
  then exists s', ignore n s = (Throw "CDataStream::ignore() : end of data", s') /\
         remaining s' = remaining s /\ vch s' = vch s /\ stream_ok s'
  else exists s', ignore n s = (Ret tt, s') /\ stream_ok s' /\
         remaining s' = skipn (Z.to_nat n) (remaining s) /\ zlen (vch s') <= zlen (vch s).
Proof.
  intros Hok H0 Hn. pose proof Hok as (Hp & Hl & Hm).
  pose proof (size_remaining s Hok) as Hsz. unfold size in Hsz. rewrite <- Hsz.
  unfold ignore, get, put, lift, setstate, se_ret, se_bind.
  rewrite (proj2 (Z.ltb_ge n 0)) by lia. rewrite wrapu_id by (unfold in_u; lia).
  destruct (_ <? n) eqn:E; zbool.
  - rewrite (proj2 (Z.leb_le _ _)), (proj2 (Z.ltb_lt _ _)) by lia.
    cbn [state exceptmask]. rewrite (proj2 (Z.eqb_neq _ _)) by now apply nonzero_lor_mask.
    eexists. splits; try reflexivity. unfold stream_ok. cbn. auto.
  - destruct (zlen (vch s) <=? _) eqn:F; zbool.
    + rewrite (proj2 (Z.ltb_ge _ _)) by lia. eexists. splits; try reflexivity.
      * now apply clear_ok.
      * rewrite remaining_clear. symmetry. apply skipn_all2. unfold zlen in *. lia.
      * cbn. change (@zlen Z []) with 0. apply zlen_nonneg.
    + eexists. splits; try reflexivity; try (cbn; lia).
      * unfold stream_ok. cbn. splits; auto; lia.
      * unfold remaining. cbn. now rewrite skipn_skipn_Z by lia.
Qed.

(** A bigger read buffer never appears: reads only shrink the vector. *)
Lemma read_queue_n s n :
  stream_ok s -> 0 < n < 2 ^ 31 ->
  if zlen (remaining s) <? n
  then exists e s', read n s = (Throw e, s') /\
         remaining s' = remaining s /\ vch s' = vch s /\ stream_ok s'
  else exists s', read n s = (Ret (firstn (Z.to_nat n) (remaining s)), s') /\ stream_ok s' /\
         remaining s' = skipn (Z.to_nat n) (remaining s) /\ zlen (vch s') <= zlen (vch s).
Proof.
  intros Hok Hn. pose proof Hok as (Hp & Hl & Hm).
  pose proof (size_remaining s Hok) as Hsz. unfold size in Hsz. rewrite <- Hsz.
  unfold read, get, put, lift, setstate, se_ret, se_bind.
  rewrite (proj2 (Z.eqb_neq n 0)) by lia. rewrite wrapu_id by (unfold in_u; lia).
  destruct (_ <? n) eqn:E; zbool.
  - rewrite (proj2 (Z.leb_le _ _)), (proj2 (Z.ltb_lt _ _)) by lia.
    cbn [state exceptmask]. rewrite (proj2 (Z.eqb_neq _ _)) by now apply nonzero_lor_mask.
    do 2 eexists. splits; try reflexivity. unfold stream_ok. cbn. auto.
  - assert (memcpy (vch s) (nReadPos s) n = Ret (firstn (Z.to_nat n) (remaining s))) as Hc
        by (apply memcpy_ok; lia).
    destruct (zlen (vch s) <=? _) eqn:F; zbool.
    + rewrite (proj2 (Z.ltb_ge _ _)) by lia. rewrite Hc, Z.sub_diag, app_nil_r.
      eexists. splits; try reflexivity.
      * now apply clear_ok.
      * rewrite remaining_clear. symmetry. apply skipn_all2. unfold zlen in *. lia.
      * cbn. change (@zlen Z []) with 0. apply zlen_nonneg.
    + rewrite Hc. eexists. splits; try reflexivity; try (cbn; lia).
      * unfold stream_ok. cbn. splits; auto; lia.
      * unfold remaining. cbn. now rewrite skipn_skipn_Z by lia.
Qed.

Lemma exec_queue o s :
  stream_ok s -> op_ok o -> zlen (vch s) + op_bytes o < 2 ^ 31 ->
  exists r s', exec o s = (r, s') /\
    queue_exec o (remaining s) = (match r with Ret d => Some d | _ => None end, remaining s') /\
    stream_ok s' /\ zlen (vch s') <= zlen (vch s) + op_bytes o.
Proof.
  intros Hok Ho Hb. pose proof Hok as (Hp & Hl & Hm). destruct o as [d|n|n|]; cbn [op_ok op_bytes] in *.
  - exists (Ret []), (set_buf (vch s ++ d) (nReadPos s) s). cbn [exec queue_exec].
    rewrite write_queue by easy. splits; try reflexivity.
    + unfold stream_ok. cbn. rewrite zlen_app. pose proof (zlen_nonneg d). splits; auto; lia.
    + cbn. rewrite zlen_app. lia.
  - pose proof (read_queue_n s n Hok Ho) as R. cbn [exec queue_exec]. destruct (_ <? n).
    + destruct R as (e & s' & E & R1 & R2 & R3). rewrite E. do 2 eexists. splits; try reflexivity;
        [now rewrite R1|easy|rewrite R2; lia].
    + destruct R as (s' & E & R1 & R2 & R3). rewrite E. do 2 eexists. splits; try reflexivity;
        [now rewrite R2|easy|lia].
  - pose proof (ignore_queue s n Hok ltac:(lia) ltac:(lia)) as R. cbn [exec queue_exec].
    unfold se_bind, se_ret. destruct (_ <? n).
    + destruct R as (s' & E & R1 & R2 & R3). rewrite E. do 2 eexists. splits; try reflexivity;
        [now rewrite R1|easy|rewrite R2; lia].
    + destruct R as (s' & E & R1 & R2 & R3). rewrite E. do 2 eexists. splits; try reflexivity;
        [now rewrite R2|easy|lia].
  - cbn [exec queue_exec]. exists (Ret []), (Compact s). splits; try reflexivity.
    + unfold stream_ok, Compact. cbn. rewrite zlen_skipn by lia. splits; auto; lia.
    + unfold Compact. cbn. rewrite zlen_skipn by lia. lia.
Qed.

(** C10: [CDataStream] implements a byte queue: any program of writes, reads, skips and
    compactions (transfers of at least one byte, less than 2 GiB written in all) returns
    what a queue of bytes returns, operation by operation, exceptions included, and leaves
    the queue's bytes. *)
Theorem stream_refines_queue p s :
  stream_ok s -> Forall op_ok p ->
  zlen (vch s) + fold_right (fun o n => op_bytes o + n) 0 p < 2 ^ 31 ->
  let '(rs, s') := run p s in
  let '(rs', q) := queue_run p (remaining s) in
  rs = rs' /\ remaining s' = q /\ stream_ok s'.
Proof.
  intros Hok Hp. revert s Hok. induction Hp as [|o p Ho Hp IH]; intros s Hok Hb; [now cbn|].
  cbn [fold_right run queue_run] in *.
  assert (0 <= fold_right (fun o n => op_bytes o + n) 0 p) as F0.
  { clear. induction p as [|[] p IH]; cbn; try lia. pose proof (zlen_nonneg d). lia. }
  destruct (exec_queue o s Hok Ho ltac:(lia)) as (r & s1 & -> & -> & Hok1 & Hl).
  specialize (IH s1 Hok1 ltac:(lia)).
  destruct (run p s1) as [rs s2], (queue_run p (remaining s1)) as [rs' q]. destruct IH as (-> & -> & H).
  now split.
Qed.

Definition demo_program : list op := [OWrite [1; 2; 3; 4]; ORead 2; OIgnore 1; ORead 3; OCompact; ORead 1].

Lemma stream_refines_queue_witness :
  fst (run demo_program (Init [])) = [Some []; Some [1; 2]; Some []; None; Some []; Some [4]] /\
  (let '(rs, s') := run demo_program (Init []) in
   let '(rs', q) := queue_run demo_program (remaining (Init [])) in
   rs = rs' /\ remaining s' = q /\ stream_ok s').
Proof.
  split; [vm_compute; reflexivity|].
  apply (stream_refines_queue demo_program (Init [])).
  - apply Init_ok. reflexivity.
  - repeat constructor.
  - reflexivity.
Defined.

(** A zero-length [read] is not neutral: it empties the stream, dropping every byte not
    yet read, where the queue contract (and the comment "nothing to read") promises to leave
    them. *)
Theorem read_zero_discards s : read 0 s = (Ret [], clear s) /\ remaining (snd (read 0 s)) = [].
Proof. split; reflexivity. Qed.

End DataStream.

Module Wire.
Import DataStream.

Definition MAX_SIZE : Z := 33554432.

(** [WRITEDATA]/[READDATA] of an [n]-byte unsigned integer. *)
Definition WRITEDATA (n : nat) (z : Z) : SE CDataStream unit := write (le_bytes n z).
Definition READDATA (n : nat) : SE CDataStream Z :=
  let! d := read (Z.of_nat n) in se_ret (le_val d).

(** ** Compact sizes *)

Definition GetSizeOfCompactSize (nSize : Z) : Z :=
  if nSize <? 253 then 1
  else if nSize <=? 65535 then 1 + 2
  else if nSize <=? 4294967295 then 1 + 4
  else 1 + 8.

Definition WriteCompactSize (nSize : Z) : SE CDataStream unit :=
  if nSize <? 253 then WRITEDATA 1 (u8 nSize)
  else if nSize <=? 65535 then WRITEDATA 1 253 ;! WRITEDATA 2 (u16 nSize)
  else if nSize <=? 4294967295 then WRITEDATA 1 254 ;! WRITEDATA 4 (u32 nSize)
  else WRITEDATA 1 255 ;! WRITEDATA 8 (u64 nSize).

Definition ReadCompactSize : SE CDataStream Z :=
  let! chSize := READDATA 1 in
  let! nSizeRet :=
    (if chSize <? 253 then se_ret chSize
     else if chSize =? 253 then
       let! n := READDATA 2 in
       if n <? 253 then se_throw "non-canonical ReadCompactSize()" else se_ret n
     else if chSize =? 254 then
       let! n := READDATA 4 in
       if n <? 65536 then se_throw "non-canonical ReadCompactSize()" else se_ret n
     else
       let! n := READDATA 8 in
       if n <? 4294967296 then se_throw "non-canonical ReadCompactSize()" else se_ret n) in
  if MAX_SIZE <? nSizeRet then se_throw "ReadCompactSize() : size too large"
  else se_ret nSizeRet.

(** ** Variable-length integers of a [w]-bit unsigned type *)

(** The loop of [WriteVarInt], with the room left in [tmp] as fuel: writing
    past the end of the array is undefined behaviour. *)
Fixpoint WriteVarInt_loop (room : nat) (len : Z) (n : Z) : res (list Z) :=
  match room with
  | O => Undef
  | S room =>
      let b := Z.lor (Z.land n 127) (if len =? 0 then 0 else 128) in
      if n <=? 127 then Ret [b]
      else
        match WriteVarInt_loop room (len + 1) (Z.shiftr n 7 - 1) with
        | Ret l => Ret (b :: l)
        | r => r
        end
  end.

(** [sizeof(tmp)]: [(sizeof(n)*8+6)/7]. *)
Definition varint_room (w : Z) : nat := Z.to_nat ((w + 6) / 7).

Fixpoint write_each (l : list Z) : SE CDataStream unit :=
  match l with
  | [] => se_ret tt
  | b :: l => write [b] ;! write_each l
  end.

Definition WriteVarInt (w n : Z) : SE CDataStream unit :=
  let! tmp := lift (WriteVarInt_loop (varint_room w) 0 n) in
  write_each (rev tmp).

Fixpoint GetSizeOfVarInt_loop (fuel : nat) (nRet n : Z) : option Z :=
  match fuel with
  | O => None
  | S fuel =>
      if n <=? 127 then Some (nRet + 1)
      else GetSizeOfVarInt_loop fuel (nRet + 1) (Z.shiftr n 7 - 1)
  end.

Definition GetSizeOfVarInt (w n : Z) : option Z :=
  GetSizeOfVarInt_loop (varint_room w) 0 n.

(** One round consumes a byte or throws, so the bytes left bound the rounds. *)
Fixpoint ReadVarInt_loop (fuel : nat) (w n : Z) : SE CDataStream Z :=
  match fuel with
  | O => lift Undef
  | S fuel =>
      let! chData := READDATA 1 in
      let n := wrapu w (Z.lor (Z.shiftl n 7) (Z.land chData 127)) in
      if Z.land chData 128 =? 0 then se_ret n
      else ReadVarInt_loop fuel w (wrapu w (n + 1))
  end.

Definition ReadVarInt (w : Z) : SE CDataStream Z :=
  let! s := get in ReadVarInt_loop (S (List.length (vch s))) w 0.

(** ** The interface of a serialisable type *)

(** [IMPLEMENT_SERIALIZE] and the overloads of [Serialize], [Unserialize] and
    [GetSerializeSize]; [sizeofT] is the size of the object in memory. *)
Class Serializable (A : Type) := {
  Serialize : A -> SE CDataStream unit;
  Unserialize : SE CDataStream A;
  GetSerializeSize : A -> Z;
  sizeofT : Z
}.

(** [nSerSize += ...] of every [READWRITE]: an [unsigned int], which wraps. *)
Definition ser_size (sizes : list Z) : Z := fold_left (fun nSerSize n => u32 (nSerSize + n)) sizes 0.

(** What a serialisable type promises for the values [V]: writing appends a
    fixed encoding, the announced size is its length reduced to an [unsigned
    int], and reading takes it back off the front of the queue. *)
Class SerLaws (A : Type) `{Serializable A} (V : A -> Prop) := {
  encode : A -> list Z;
  Serialize_append : forall a s, V a ->
    Serialize a s = (Ret tt, set_buf (vch s ++ encode a) (nReadPos s) s);
  Unserialize_take : forall a s rest, V a -> stream_ok s ->
    remaining s = encode a ++ rest ->
    exists s', Unserialize s = (Ret a, s') /\ stream_ok s' /\ remaining s' = rest;
  GetSerializeSize_encode : forall a, V a -> GetSerializeSize a = u32 (zlen (encode a))
}.

(** ** Strings and vectors *)

(** [Unserialize_impl] of a vector of a fundamental type of one byte: blocks
    of at most 5000000 bytes. *)
Fixpoint Unserialize_blocks (fuel : nat) (nSize i : Z) (v : list Z) : SE CDataStream (list Z) :=
  match fuel with
  | O => lift Undef
  | S fuel =>
      if i <? nSize then
        let blk := Z.min (nSize - i) (1 + 4999999 / 1) in
        let! d := read blk in
        Unserialize_blocks fuel nSize (i + blk) (v ++ d)
      else se_ret v
  end.

Definition Serialize_bytes (v : list Z) : SE CDataStream unit :=
  WriteCompactSize (zlen v) ;!
  (if zlen v =? 0 then se_ret tt else write v).

Definition Unserialize_bytes : SE CDataStream (list Z) :=
  let! nSize := ReadCompactSize in
  Unserialize_blocks (S (Z.to_nat (u32 nSize))) (u32 nSize) 0 [].

Section Vector.
Context {T : Type} `{Serializable T}.

Definition GetSerializeSize_vector (v : list T) : Z :=
  fold_left (fun n x => u32 (n + GetSerializeSize x)) v (u32 (GetSizeOfCompactSize (zlen v))).

Fixpoint Serialize_each (v : list T) : SE CDataStream unit :=
  match v with
  | [] => se_ret tt
  | x :: v => Serialize x ;! Serialize_each v
  end.

Definition Serialize_vector (v : list T) : SE CDataStream unit :=
  WriteCompactSize (zlen v) ;! Serialize_each v.

(** [for (; i < nMid; i++) Unserialize(is, v[i])] *)
Fixpoint Unserialize_each (n : nat) (v : list T) : SE CDataStream (list T) :=
  match n with
  | O => se_ret v
  | S n => let! x := Unserialize in Unserialize_each n (v ++ [x])
  end.

Fixpoint Unserialize_mid (fuel : nat) (nSize nMid : Z) (v : list T) : SE CDataStream (list T) :=
  match fuel with
  | O => lift Undef
  | S fuel =>
      if nMid <? nSize then
        let nMid' := u32 (nMid + 5000000 / sizeofT) in
        let nMid' := if nSize <? nMid' then nSize else nMid' in
        let! v := Unserialize_each (Z.to_nat (nMid' - zlen v)) v in
        Unserialize_mid fuel nSize nMid' v
      else se_ret v
  end.

Definition Unserialize_vector : SE CDataStream (list T) :=
  let! nSize := ReadCompactSize in
  Unserialize_mid (S (Z.to_nat (u32 nSize))) (u32 nSize) 0 [].
End Vector.

Example compact_516 : fst ((WriteCompactSize 516 ;! ReadCompactSize) (Init [])) = Ret 516.
Proof. reflexivity. Qed.
Example varint_16511 :
  vch (snd (WriteVarInt 64 16511 (Init []))) = [255; 127] /\
  fst (ReadVarInt 64 (Init [128; 255; 127])) = Ret 32895.
Proof. split; reflexivity. Qed.

(** ** Laws of the integers *)

Lemma READDATA_take n z s rest :
  (0 < n)%nat -> in_u (8 * Z.of_nat n) z -> stream_ok s ->
  remaining s = le_bytes n z ++ rest ->
  exists s', READDATA n s = (Ret z, s') /\ stream_ok s' /\ remaining s' = rest.
Proof.
  intros Hn Hz Hok Hrem.
  destruct (read_queue s (le_bytes n z) rest) as (s' & E & H1 & H2 & _); auto.
  { destruct n; [lia|easy]. }
  rewrite zlen_le_bytes in E.
  exists s'. split; [|easy]. unfold READDATA, se_bind. rewrite E. cbn.
  unfold se_ret. rewrite le_val_bytes. now rewrite Z.mod_small.
Qed.

Lemma remaining_bytes_ok s : bytes_ok (vch s) -> bytes_ok (remaining s).
Proof.
  unfold bytes_ok. intros H. rewrite <- (firstn_skipn (Z.to_nat (nReadPos s))) in H.
  now apply Forall_app in H.
Qed.

(** What was read was there. *)
Lemma READDATA_inv n z s s' :
  (0 < n)%nat -> Z.of_nat n < 2 ^ 31 -> stream_ok s -> bytes_ok (remaining s) ->
  READDATA n s = (Ret z, s') ->
  in_u (8 * Z.of_nat n) z /\ remaining s = le_bytes n z ++ remaining s' /\
  stream_ok s' /\ bytes_ok (remaining s').
Proof.
  intros Hn Hnb Hok Hb E.
  destruct (Z.lt_ge_cases (zlen (remaining s)) (Z.of_nat n)) as [L|L].
  { destruct (read_short s (Z.of_nat n)) as (s1 & E1 & _); auto.
    unfold READDATA, se_bind in E. rewrite E1 in E. discriminate. }
  set (d := firstn n (remaining s)). set (r := skipn n (remaining s)).
  assert (List.length d = n) as Ld by (unfold d, zlen in *; rewrite length_firstn; lia).
  assert (remaining s = d ++ r) as Hs by (symmetry; apply firstn_skipn).
  destruct (read_queue s d r) as (s1 & E1 & H1 & H2 & _); auto.
  { destruct d; [cbn in Ld; lia|easy]. }
  unfold zlen in E1. rewrite Ld in E1.
  unfold READDATA, se_bind in E. rewrite E1 in E. cbn in E. injection E as <- <-.
  rewrite Hs in Hb. apply Forall_app in Hb as [Hd Hr].
  pose proof (le_val_range d Hd) as R. rewrite Ld in R.
  split; [exact R|]. split; [|now rewrite H2].
  rewrite Hs, H2. f_equal. clearbody d r. subst n. symmetry. now apply le_bytes_val.
Qed.

(** ** Laws of compact sizes *)

Definition compact_bytes (n : Z) : list Z :=
  if n <? 253 then [n]
  else if n <=? 65535 then 253 :: le_bytes 2 n
  else if n <=? 4294967295 then 254 :: le_bytes 4 n
  else 255 :: le_bytes 8 n.

Lemma write_app a b s :
  (write a ;! write b) s = (Ret tt, set_buf (vch s ++ a ++ b) (nReadPos s) s).
Proof. unfold write, get, put, se_bind. cbn. unfold set_buf. cbn. now rewrite app_assoc. Qed.

Lemma WriteCompactSize_append n s :
  in_u 64 n ->
  WriteCompactSize n s = (Ret tt, set_buf (vch s ++ compact_bytes n) (nReadPos s) s).
Proof.
  intros [H0 H1]. unfold WriteCompactSize, compact_bytes, WRITEDATA.
  repeat zcase; rewrite ?write_app, ?wrapu_id by (unfold in_u; lia); try easy.
  unfold write, get, put, se_bind. cbn. now rewrite Z.mod_small by lia.
Qed.

Lemma GetSizeOfCompactSize_bytes n : GetSizeOfCompactSize n = zlen (compact_bytes n).
Proof. unfold GetSizeOfCompactSize, compact_bytes. now repeat zcase. Qed.

Lemma ReadCompactSize_take n s rest :
  0 <= n <= MAX_SIZE -> stream_ok s -> remaining s = compact_bytes n ++ rest ->
  exists s', ReadCompactSize s = (Ret n, s') /\ stream_ok s' /\ remaining s' = rest.
Proof.
  unfold MAX_SIZE. intros Hn Hok Hrem.
  assert (exists c k, compact_bytes n = le_bytes 1 c ++ k /\ in_u 8 c /\
            ((n < 253 /\ c = n /\ k = []) \/ (253 <= n <= 65535 /\ c = 253 /\ k = le_bytes 2 n)
             \/ (65535 < n /\ c = 254 /\ k = le_bytes 4 n))) as (c & k & Ec & Hc & Hk).
  { unfold compact_bytes, in_u. change (2 ^ 8) with 256.
    repeat zcase.
    - exists n, []. cbn. rewrite Z.mod_small by lia. repeat split; try lia. left; auto.
    - exists 253, (le_bytes 2 n). repeat split; try lia. right; left; auto with zarith.
    - exists 254, (le_bytes 4 n). repeat split; try lia. right; right; auto with zarith.
    - lia. }
  rewrite Ec, <- app_assoc in Hrem.
  destruct (READDATA_take 1 c s (k ++ rest)) as (s1 & E1 & H1 & R1); auto.
  unfold ReadCompactSize. erewrite se_bind_ret by exact E1.
  destruct Hk as [(L & -> & ->)|[(L & -> & ->)|(L & -> & ->)]].
  - rewrite (proj2 (Z.ltb_lt _ _)) by lia. exists s1. unfold se_bind, se_ret.
    unfold MAX_SIZE. rewrite (proj2 (Z.ltb_ge _ _)) by lia. easy.
  - destruct (READDATA_take 2 n s1 rest) as (s2 & E2 & H2 & R2); auto; [unfold in_u; cbn; lia|].
    exists s2. cbn -[READDATA se_bind]. erewrite se_bind_ret;
      [|erewrite se_bind_ret by exact E2; rewrite (proj2 (Z.ltb_ge _ _)) by lia; reflexivity].
    unfold MAX_SIZE. rewrite (proj2 (Z.ltb_ge _ _)) by lia. easy.
  - destruct (READDATA_take 4 n s1 rest) as (s2 & E2 & H2 & R2); auto; [unfold in_u; cbn; lia|].
    exists s2. cbn -[READDATA se_bind]. erewrite se_bind_ret;
      [|erewrite se_bind_ret by exact E2; rewrite (proj2 (Z.ltb_ge _ _)) by lia; reflexivity].
    unfold MAX_SIZE. rewrite (proj2 (Z.ltb_ge _ _)) by lia. easy.
Qed.


(** The reads of [ReadCompactSize] with their range checks, inverted. *)
Lemma guarded_read_inv n lo msg s v s' :
  (0 < n)%nat -> Z.of_nat n < 2 ^ 31 -> stream_ok s -> bytes_ok (remaining s) ->
  (let! x := READDATA n in if x <? lo then se_throw msg else se_ret x) s = (Ret v, s') ->
  lo <= v /\ in_u (8 * Z.of_nat n) v /\ remaining s = le_bytes n v ++ remaining s' /\
  stream_ok s' /\ bytes_ok (remaining s').
Proof.
  intros Hn Hb Hok Hbo E. apply se_bind_inv in E as (x & s1 & R & E).
  apply READDATA_inv in R as (Hr & Hs & Hk & Hb1); auto.
  destruct (x <? lo) eqn:L; [discriminate|]. injection E as <- <-. zbool. auto.
Qed.

Lemma ReadCompactSize_inv n s s' :
  stream_ok s -> bytes_ok (remaining s) -> ReadCompactSize s = (Ret n, s') ->
  0 <= n <= MAX_SIZE /\ remaining s = compact_bytes n ++ remaining s' /\
  stream_ok s' /\ bytes_ok (remaining s').
Proof.
  intros Hok Hb E. apply se_bind_inv in E as (c & s1 & R & E).
  apply READDATA_inv in R as (Hc & Hs & Hok1 & Hb1); auto; try lia.
  unfold in_u in Hc. change (2 ^ (8 * Z.of_nat 1)) with 256 in Hc.
  apply se_bind_inv in E as (v & s2 & V & E).
  destruct (MAX_SIZE <? v) eqn:M; [discriminate|]. injection E as <- <-. zbool.
  rewrite Hs. unfold compact_bytes.
  destruct (c <? 253) eqn:C; zbool.
  { injection V as <- <-. rewrite (proj2 (Z.ltb_lt _ _)) by lia. cbn.
    rewrite Z.mod_small by lia. splits; auto; lia. }
  destruct (c =? 253) eqn:C3; [|destruct (c =? 254) eqn:C4]; zbool;
    apply guarded_read_inv in V as (L & U & Hs1 & Hok2 & Hb2); auto; try lia;
    unfold in_u in U; cbn [Z.of_nat Pos.of_succ_nat Pos.succ Z.mul Pos.mul Pos.add] in U;
    unfold MAX_SIZE in *.
  - change (2 ^ 16) with 65536 in U. rewrite (proj2 (Z.ltb_ge _ _)) by lia.
    rewrite (proj2 (Z.leb_le _ _)) by lia. rewrite Hs1. subst c. splits; auto; lia.
  - rewrite (proj2 (Z.ltb_ge _ _)) by lia. rewrite (proj2 (Z.leb_gt v 65535)) by lia.
    rewrite (proj2 (Z.leb_le _ _)) by lia. rewrite Hs1. subst c. splits; auto; lia.
  - lia.
Qed.

(** ** Laws of variable-length integers *)

Lemma shiftr7_bound n k :
  127 < n -> n < 2 ^ (7 * Z.of_nat (S k)) ->
  0 <= Z.shiftr n 7 - 1 < 2 ^ (7 * Z.of_nat k) /\ (0 < k)%nat.
Proof.
  intros H1 H2. rewrite Z.shiftr_div_pow2 by lia. change (2 ^ 7) with 128.
  replace (7 * Z.of_nat (S k)) with (7 + 7 * Z.of_nat k) in H2 by lia.
  rewrite Z.pow_add_r in H2 by lia. change (2 ^ 7) with 128 in H2.
  assert (n / 128 < 2 ^ (7 * Z.of_nat k)) by (apply Z.div_lt_upper_bound; lia).
  assert (1 <= n / 128) by (apply Z.div_le_lower_bound; lia).
  split; [lia|]. destruct k; [cbn in H; lia|lia].
Qed.

(** The byte written at a level, read back. *)
Lemma varint_digit n len :
  let b := Z.lor (Z.land n 127) (if len =? 0 then 0 else 128) in
  byte_ok b /\ Z.land b 127 = n mod 128 /\ Z.land b 128 = (if len =? 0 then 0 else 128).
Proof.
  cbv zeta. rewrite land127. pose proof (Z.mod_pos_bound n 128 ltac:(lia)) as B.
  assert (Z.land (n mod 128) 128 = 0) as L128.
  { rewrite land128 by (unfold in_u; lia). now rewrite (proj2 (Z.leb_gt _ _)) by lia. }
  unfold in_u. change (2 ^ 8) with 256. destruct (len =? 0).
  - rewrite Z.lor_0_r, land127, Z.mod_mod, L128 by lia. lia.
  - rewrite (Z.land_lor_distr_l _ _ 128), L128.
    change (Z.lor 0 (Z.land 128 128)) with 128. rewrite lor128 by lia.
    rewrite land127. replace (n mod 128 + 128) with (n mod 128 + 1 * 128) by lia.
    rewrite Z.mod_add, Z.mod_mod by lia. splits; lia.
Qed.

Lemma WriteVarInt_loop_total room len n :
  0 <= n < 2 ^ (7 * Z.of_nat room) -> (0 < room)%nat ->
  exists l, WriteVarInt_loop room len n = Ret l /\ l <> [] /\ bytes_ok l /\
            (List.length l <= room)%nat.
Proof.
  revert len n. induction room as [|room IH]; intros len n Hn Hr; [lia|].
  cbn [WriteVarInt_loop]. pose proof (varint_digit n len) as (Hb & _).
  destruct (n <=? 127) eqn:E; zbool.
  - eexists. splits; [easy|easy|now constructor|cbn; lia].
  - destruct (shiftr7_bound n room) as [Hs Hk]; try lia.
    destruct (IH (len + 1) (Z.shiftr n 7 - 1)) as (l & -> & _ & Hl & Ln); auto.
    eexists. splits; [easy|easy|now constructor|cbn; lia].
Qed.

Lemma write_each_append l s :
  write_each l s = (Ret tt, set_buf (vch s ++ l) (nReadPos s) s).
Proof.
  revert s. induction l as [|b l IH]; intros s.
  - cbn. rewrite app_nil_r. now destruct s.
  - cbn [write_each]. unfold se_bind. rewrite write_spec, IH. cbn.
    unfold set_buf. cbn. now rewrite <- app_assoc.
Qed.

(** One round of the reading loop on a byte that was written. *)
Lemma ReadVarInt_round fuel w acc b s rest :
  byte_ok b -> stream_ok s -> remaining s = b :: rest ->
  exists s', stream_ok s' /\ remaining s' = rest /\
    ReadVarInt_loop (S fuel) w acc s =
    (let n := wrapu w (Z.lor (Z.shiftl acc 7) (Z.land b 127)) in
     if Z.land b 128 =? 0 then (Ret n, s') else ReadVarInt_loop fuel w (wrapu w (n + 1)) s').
Proof.
  intros Hb Hok Hrem.
  destruct (READDATA_take 1 b s rest) as (s' & E & H & R); auto.
  { cbn. unfold in_u in Hb. now rewrite Z.mod_small. }
  exists s'. split; [easy|split; [easy|]]. cbn [ReadVarInt_loop].
  erewrite se_bind_ret by exact E. cbv zeta. now destruct (_ =? 0).
Qed.

Lemma shift_in acc d : 0 <= d < 128 -> Z.lor (Z.shiftl acc 7) d = acc * 128 + d.
Proof. intros. now apply lor_shiftl_add. Qed.

Lemma ReadVarInt_high room : forall len n l w fuel s rest,
  0 < len -> 0 <= n -> n + 1 < 2 ^ w -> WriteVarInt_loop room len n = Ret l ->
  stream_ok s -> remaining s = rev l ++ rest ->
  exists s', stream_ok s' /\ remaining s' = rest /\
    ReadVarInt_loop (List.length l + fuel) w 0 s = ReadVarInt_loop fuel w (n + 1) s'.
Proof.
  induction room as [|room IH]; intros len n l w fuel s rest Hlen H0 Hw E Hok Hrem;
    [discriminate|]. cbn [WriteVarInt_loop] in E.
  pose proof (varint_digit n len) as (Hb & Hd & Hf).
  rewrite (proj2 (Z.eqb_neq len 0)) in * by lia.
  pose proof (Z.mod_pos_bound n 128 ltac:(lia)) as B.
  destruct (n <=? 127) eqn:L; zbool.
  - injection E as <-. destruct (ReadVarInt_round fuel w 0 _ s rest Hb Hok Hrem)
      as (s' & H1 & H2 & H3).
    exists s'. split; [easy|split; [easy|]]. cbn [List.length Nat.add]. rewrite H3, Hd, Hf.
    rewrite shift_in, Z.mod_small by lia. cbn [Z.eqb]. cbv zeta.
    now rewrite (wrapu_id w (0 * 128 + n)), wrapu_id by (unfold in_u; lia).
  - destruct (WriteVarInt_loop room (len + 1) _) as [l'| |] eqn:E'; try discriminate.
    injection E as <-. cbn [rev] in Hrem. rewrite <- app_assoc in Hrem.
    assert (1 <= Z.shiftr n 7 < 2 ^ w) as Hs.
    { rewrite Z.shiftr_div_pow2 by lia. change (2 ^ 7) with 128. split.
      - apply Z.div_le_lower_bound; lia.
      - apply Z.div_lt_upper_bound; lia. }
    destruct (IH (len + 1) (Z.shiftr n 7 - 1) l' w (S fuel) s _ ltac:(lia) ltac:(lia) ltac:(lia)
                E' Hok Hrem) as (s1 & Hok1 & Hrem1 & E1).
    destruct (ReadVarInt_round fuel w (Z.shiftr n 7) _ s1 rest Hb Hok1 Hrem1)
      as (s' & H1 & H2 & H3).
    exists s'. split; [easy|split; [easy|]].
    replace (List.length (_ :: l') + fuel)%nat with (List.length l' + S fuel)%nat by (cbn; lia).
    rewrite E1. replace (Z.shiftr n 7 - 1 + 1) with (Z.shiftr n 7) by lia.
    rewrite H3, Hd, Hf. cbn [Z.eqb]. rewrite shift_in by easy.
    rewrite Z.shiftr_div_pow2 by lia. change (2 ^ 7) with 128.
    replace (n / 128 * 128 + n mod 128) with n by (pose proof (Z.div_mod n 128); lia).
    cbv zeta. now rewrite (wrapu_id w n), wrapu_id by (unfold in_u; lia).
Qed.


Lemma varint_room_bound w n :
  0 < w -> 0 <= n < 2 ^ w -> n < 2 ^ (7 * Z.of_nat (varint_room w)) /\ (0 < varint_room w)%nat.
Proof.
  intros Hw Hn. unfold varint_room.
  pose proof (Z.div_mod (w + 6) 7 ltac:(lia)). pose proof (Z.mod_pos_bound (w + 6) 7 ltac:(lia)).
  assert (2 ^ w <= 2 ^ (7 * Z.of_nat (Z.to_nat ((w + 6) / 7)))) by (apply Z.pow_le_mono_r; lia).
  split; lia.
Qed.

Lemma remaining_length s l rest :
  remaining s = l ++ rest -> (List.length l <= List.length (vch s))%nat.
Proof.
  intros E. apply (f_equal (@List.length Z)) in E. unfold remaining in E.
  rewrite length_skipn, length_app in E. lia.
Qed.

(** What the writing loop left in [tmp], read back by the reading loop. *)
Lemma ReadVarInt_take w n l s rest :
  0 < w -> 0 <= n < 2 ^ w -> WriteVarInt_loop (varint_room w) 0 n = Ret l ->
  stream_ok s -> remaining s = rev l ++ rest ->
  exists s', ReadVarInt w s = (Ret n, s') /\ stream_ok s' /\ remaining s' = rest.
Proof.
  intros Hw Hn E Hok Hrem.
  pose proof (remaining_length _ _ _ Hrem) as Hlen. rewrite length_rev in Hlen.
  unfold ReadVarInt, get, se_bind.
  destruct (varint_room w) as [|room]; [discriminate|]. cbn [WriteVarInt_loop] in E.
  pose proof (varint_digit n 0) as (Hb & Hd & Hf). change (0 =? 0) with true in *. cbv iota in *.
  pose proof (Z.mod_pos_bound n 128 ltac:(lia)) as B.
  destruct (n <=? 127) eqn:L; zbool.
  - injection E as <-. destruct (ReadVarInt_round (List.length (vch s)) w 0 _ s rest Hb Hok Hrem)
      as (s' & H1 & H2 & H3).
    exists s'. rewrite H3, Hd, Hf, shift_in, Z.mod_small by lia. cbv zeta.
    cbn [Z.eqb]. now rewrite wrapu_id by (unfold in_u; lia).
  - destruct (WriteVarInt_loop room (0 + 1) _) as [l'| |] eqn:E'; try discriminate.
    injection E as <-. cbn [rev] in Hrem. rewrite <- app_assoc in Hrem. cbn [List.length] in Hlen.
    assert (1 <= Z.shiftr n 7 <= n) as Hs.
    { rewrite Z.shiftr_div_pow2 by lia. change (2 ^ 7) with 128. split.
      - apply Z.div_le_lower_bound; lia.
      - apply Z.div_le_upper_bound; lia. }
    destruct (ReadVarInt_high room (0 + 1) (Z.shiftr n 7 - 1) l' w
                (S (List.length (vch s) - List.length l')) s _
                ltac:(lia) ltac:(lia) ltac:(lia) E' Hok Hrem) as (s1 & Hok1 & Hrem1 & E1).
    destruct (ReadVarInt_round (List.length (vch s) - List.length l') w (Z.shiftr n 7) _ s1 rest
                Hb Hok1 Hrem1) as (s' & H1 & H2 & H3).
    exists s'. replace (S (List.length (vch s))) with
      (List.length l' + S (List.length (vch s) - List.length l'))%nat by lia.
    rewrite E1. replace (Z.shiftr n 7 - 1 + 1) with (Z.shiftr n 7) by lia.
    rewrite H3, Hd, Hf, shift_in by easy. cbv zeta.
    rewrite Z.shiftr_div_pow2 by lia. change (2 ^ 7) with 128.
    replace (n / 128 * 128 + n mod 128) with n by (pose proof (Z.div_mod n 128); lia).
    cbn [Z.eqb]. now rewrite wrapu_id by (unfold in_u; lia).
Qed.

Lemma GetSizeOfVarInt_loop_spec room : forall len n l k,
  WriteVarInt_loop room len n = Ret l ->
  GetSizeOfVarInt_loop room k n = Some (k + zlen l).
Proof.
  induction room as [|room IH]; intros len n l k E; [discriminate|].
  cbn [WriteVarInt_loop GetSizeOfVarInt_loop] in *.
  destruct (n <=? 127); [now injection E as <-|].
  destruct (WriteVarInt_loop room _ _) as [l'| |] eqn:E'; try discriminate.
  injection E as <-. rewrite (IH _ _ _ _ E'), zlen_cons. f_equal. lia.
Qed.

(** ** Laws of byte vectors and strings *)

Lemma Unserialize_blocks_take fuel : forall nSize v d s rest,
  zlen v + zlen d = nSize -> (Z.to_nat (zlen d) < fuel)%nat ->
  stream_ok s -> remaining s = d ++ rest ->
  exists s', Unserialize_blocks fuel nSize (zlen v) v s = (Ret (v ++ d), s') /\
             stream_ok s' /\ remaining s' = rest.
Proof.
  induction fuel as [|fuel IH]; intros nSize v d s rest Hn Hf Hok Hrem; [lia|].
  cbn [Unserialize_blocks]. pose proof (zlen_nonneg d). change (4999999 / 1) with 4999999.
  destruct (zlen v <? nSize) eqn:L; zbool.
  - set (blk := Z.min (nSize - zlen v) (1 + 4999999)).
    assert (0 < blk <= zlen d) as Hblk by lia.
    set (d1 := firstn (Z.to_nat blk) d). set (d2 := skipn (Z.to_nat blk) d).
    assert (zlen d1 = blk) as L1 by (apply zlen_firstn; lia).
    assert (zlen d2 = zlen d - blk) as L2 by (apply zlen_skipn; lia).
    assert (d = d1 ++ d2) as Hd by (symmetry; apply firstn_skipn).
    rewrite Hd in Hrem. rewrite <- app_assoc in Hrem.
    destruct (read_queue s d1 (d2 ++ rest)) as (s1 & E1 & H1 & H2 & _); auto.
    { intros ->. rewrite zlen_nil in L1. lia. }
    rewrite L1 in E1. erewrite se_bind_ret by exact E1.
    rewrite <- L1. rewrite <- zlen_app.
    destruct (IH nSize (v ++ d1) d2 s1 rest) as (s' & E & Hs); auto.
    { rewrite zlen_app. lia. }
    { lia. }
    exists s'. rewrite E, Hd. now rewrite <- app_assoc.
  - assert (d = []) as ->.
    { destruct d; [easy|]. rewrite zlen_cons in *. pose proof (zlen_nonneg d). lia. }
    exists s. now rewrite app_nil_r.
Qed.

Definition bytes_encode (v : list Z) : list Z := compact_bytes (zlen v) ++ v.

Lemma Serialize_bytes_append v s :
  zlen v <= MAX_SIZE ->
  Serialize_bytes v s = (Ret tt, set_buf (vch s ++ bytes_encode v) (nReadPos s) s).
Proof.
  unfold MAX_SIZE. intros Hv. pose proof (zlen_nonneg v). unfold Serialize_bytes.
  erewrite se_bind_ret by (apply WriteCompactSize_append; unfold in_u; lia).
  unfold bytes_encode. destruct (zlen v =? 0) eqn:E; zbool.
  - destruct v; [|rewrite zlen_cons in E; pose proof (zlen_nonneg v); lia].
    now rewrite app_nil_r.
  - rewrite write_spec. cbn. unfold set_buf. cbn. now rewrite app_assoc.
Qed.

Lemma Unserialize_bytes_take v s rest :
  zlen v <= MAX_SIZE -> stream_ok s -> remaining s = bytes_encode v ++ rest ->
  exists s', Unserialize_bytes s = (Ret v, s') /\ stream_ok s' /\ remaining s' = rest.
Proof.
  intros Hv Hok Hrem. pose proof (zlen_nonneg v).
  unfold bytes_encode in Hrem. rewrite <- app_assoc in Hrem.
  destruct (ReadCompactSize_take (zlen v) s (v ++ rest)) as (s1 & E1 & H1 & R1); auto.
  unfold Unserialize_bytes. erewrite se_bind_ret by exact E1.
  unfold MAX_SIZE in Hv. rewrite wrapu_id by (unfold in_u; lia).
  destruct (Unserialize_blocks_take (S (Z.to_nat (zlen v))) (zlen v) [] v s1 rest)
    as (s' & E & Hs); auto.
  exists s'. rewrite zlen_nil in E. now rewrite E.
Qed.

#[export] Instance Serializable_bytes : Serializable (list Z) := {
  Serialize := Serialize_bytes;
  Unserialize := Unserialize_bytes;
  GetSerializeSize v := u32 (GetSizeOfCompactSize (zlen v) + zlen v);
  sizeofT := 24
}.

#[export] Instance SerLaws_bytes : SerLaws (list Z) (fun v => zlen v <= MAX_SIZE).
Proof.
  refine {| encode := bytes_encode; Serialize_append := Serialize_bytes_append;
            Unserialize_take := Unserialize_bytes_take |}.
  intros v _. cbn. unfold bytes_encode. now rewrite zlen_app, GetSizeOfCompactSize_bytes.
Defined.

(** ** Laws of vectors of any serialisable type *)

Section VectorLaws.
Context {T : Type} `{HS : Serializable T} {V : T -> Prop} `{HL : !SerLaws T V}.
Hypothesis sizeofT_range : 1 <= sizeofT <= 5000000.

Definition vector_encode (v : list T) : list Z :=
  compact_bytes (zlen v) ++ flat_map encode v.

Lemma Serialize_each_append v s :
  Forall V v ->
  Serialize_each v s = (Ret tt, set_buf (vch s ++ flat_map encode v) (nReadPos s) s).
Proof.
  intros Hv. revert s. induction Hv as [|x v Hx Hv IH]; intros s.
  - cbn. rewrite app_nil_r. now destruct s.
  - cbn [Serialize_each flat_map]. erewrite se_bind_ret by now apply Serialize_append.
    rewrite IH. unfold set_buf. cbn. now rewrite <- app_assoc.
Qed.

Lemma Unserialize_each_take u : forall v s rest,
  Forall V u -> stream_ok s -> remaining s = flat_map encode u ++ rest ->
  exists s', Unserialize_each (List.length u) v s = (Ret (v ++ u), s') /\
             stream_ok s' /\ remaining s' = rest.
Proof.
  induction u as [|x u IH]; intros v s rest Hu Hok Hrem; cbn [List.length Unserialize_each].
  - exists s. now rewrite app_nil_r.
  - inversion_clear Hu. cbn [flat_map] in Hrem. rewrite <- app_assoc in Hrem.
    destruct (Unserialize_take x s _ H Hok Hrem) as (s1 & E1 & H1 & R1).
    erewrite se_bind_ret by exact E1.
    destruct (IH (v ++ [x]) s1 rest H0 H1 R1) as (s' & E & Hs).
    exists s'. rewrite E, <- app_assoc. easy.
Qed.

Lemma Unserialize_mid_take fuel : forall nSize v u s rest,
  zlen v + zlen u = nSize -> nSize <= MAX_SIZE -> (Z.to_nat (zlen u) < fuel)%nat ->
  Forall V u -> stream_ok s -> remaining s = flat_map encode u ++ rest ->
  exists s', Unserialize_mid fuel nSize (zlen v) v s = (Ret (v ++ u), s') /\
             stream_ok s' /\ remaining s' = rest.
Proof.
  unfold MAX_SIZE.
  induction fuel as [|fuel IH]; intros nSize v u s rest Hn Hm Hf Hu Hok Hrem; [lia|].
  cbn [Unserialize_mid]. pose proof (zlen_nonneg u). pose proof (zlen_nonneg v).
  destruct (zlen v <? nSize) eqn:L; zbool.
  - assert (1 <= 5000000 / sizeofT <= 5000000) as Hq.
    { split; [apply Z.div_le_lower_bound; lia|apply Z.div_le_upper_bound; nia]. }
    rewrite wrapu_id by (unfold in_u; lia). cbv zeta.
    set (m := if _ <? _ then _ else _).
    assert (zlen v < m <= nSize) as Hmid by (unfold m; destruct (_ <? _) eqn:M; zbool; lia).
    clearbody m. set (k := m - zlen v).
    set (u1 := firstn (Z.to_nat k) u). set (u2 := skipn (Z.to_nat k) u).
    assert (zlen u1 = k) as L1 by (apply zlen_firstn; lia).
    assert (zlen u2 = zlen u - k) as L2 by (apply zlen_skipn; lia).
    assert (u = u1 ++ u2) as Eu by (symmetry; apply firstn_skipn).
    clearbody u1 u2. subst u. apply Forall_app in Hu as [Hu1 Hu2].
    rewrite flat_map_app, <- app_assoc in Hrem.
    destruct (Unserialize_each_take u1 v s _ Hu1 Hok Hrem) as (s1 & E1 & H1 & R1).
    rewrite <- L1, zlen_to_nat. erewrite se_bind_ret by exact E1.
    replace m with (zlen (v ++ u1)) by (rewrite zlen_app; lia).
    destruct (IH nSize (v ++ u1) u2 s1 rest) as (s' & E & Hs); auto;
      [rewrite zlen_app in *; lia|rewrite zlen_app in *; lia|].
    exists s'. now rewrite E, <- app_assoc.
  - assert (u = []) as ->.
    { destruct u; [easy|]. rewrite zlen_cons in *. pose proof (zlen_nonneg u). lia. }
    exists s. now rewrite app_nil_r.
Qed.

Lemma GetSerializeSize_fold v : forall n, Forall V v ->
  fold_left (fun n x => u32 (n + GetSerializeSize x)) v (u32 n) = u32 (n + zlen (flat_map encode v)).
Proof.
  induction v as [|x v IH]; intros n Hv; cbn [fold_left flat_map].
  - now rewrite zlen_nil, Z.add_0_r.
  - inversion_clear Hv. rewrite GetSerializeSize_encode by easy. autorewrite with words.
    rewrite IH, zlen_app by easy. f_equal. lia.
Qed.

Definition vector_ok (v : list T) : Prop := zlen v <= MAX_SIZE /\ Forall V v.

#[export] Instance Serializable_vector : Serializable (list T) := {
  Serialize := Serialize_vector;
  Unserialize := Unserialize_vector;
  GetSerializeSize := GetSerializeSize_vector;
  sizeofT := 24
}.

#[export] Instance SerLaws_vector : SerLaws (list T) vector_ok.
Proof.
  refine {| encode := vector_encode |}.
  - intros v s (Hm & Hv). cbn. unfold Serialize_vector, MAX_SIZE in *.
    pose proof (zlen_nonneg v).
    erewrite se_bind_ret by (apply WriteCompactSize_append; unfold in_u; lia).
    rewrite Serialize_each_append by easy. unfold set_buf, vector_encode. cbn.
    now rewrite app_assoc.
  - intros v s rest (Hm & Hv) Hok Hrem. cbn. unfold Unserialize_vector.
    pose proof (zlen_nonneg v). unfold vector_encode in Hrem. rewrite <- app_assoc in Hrem.
    destruct (ReadCompactSize_take (zlen v) s _ ltac:(lia) Hok Hrem) as (s1 & E1 & H1 & R1).
    erewrite se_bind_ret by exact E1.
    rewrite wrapu_id by (unfold in_u, MAX_SIZE in *; lia).
    destruct (Unserialize_mid_take (S (Z.to_nat (zlen v))) (zlen v) [] v s1 rest)
      as (s' & E & Hs); auto.
    exists s'. rewrite zlen_nil in E. now rewrite E.
  - intros v (Hm & Hv). cbn. unfold GetSerializeSize_vector, vector_encode.
    rewrite zlen_app, GetSizeOfCompactSize_bytes. now apply GetSerializeSize_fold.
Defined.
End VectorLaws.

(** What a chain of [READWRITE]s counts when each size is a wrapped length. *)
Lemma ser_size_words sizes lengths : Forall2 (fun n k => n = u32 k) sizes lengths ->
  ser_size sizes = u32 (fold_right Z.add 0 lengths).
Proof.
  intros F. unfold ser_size. change 0 with (u32 0) at 1.
  assert (forall n, fold_left (fun nSerSize k => u32 (nSerSize + k)) sizes (u32 n) = u32 (n + fold_right Z.add 0 lengths)) as H.
  { induction F as [|? k ? l -> F IH]; intros n; cbn [fold_left fold_right]; [now rewrite Z.add_0_r|].
    autorewrite with words. rewrite IH. f_equal. lia. }
  exact (H 0).
Qed.

(** Splits one read off an [Unserialize] whose bytes are at the front. *)
Ltac take L :=
  let s := fresh "s" in let E := fresh "E" in let H := fresh "H" in let R := fresh "R" in
  edestruct L as (s & E & H & R); [..|erewrite se_bind_ret by exact E]; eauto.

(** Chains writes: each appends its bytes. *)
Ltac append :=
  unfold WRITEDATA; repeat (erewrite se_bind_ret by first [apply write_spec | now apply Serialize_append]);
  rewrite ?write_spec; cbn [vch nReadPos set_buf state exceptmask];
  unfold set_buf; cbn [vch nReadPos state exceptmask]; rewrite <- ?app_assoc.

(** [ReadCompactSize] accepts exactly the canonical encodings of the sizes up to
    [MAX_SIZE]: it returns [n] and leaves [rest] if and only if the stream held what
    [WriteCompactSize] writes for [n], followed by [rest]. *)
Theorem CompactSize_canonical s n rest :
  stream_ok s -> bytes_ok (remaining s) ->
  ((exists s', ReadCompactSize s = (Ret n, s') /\ remaining s' = rest) <->
   (0 <= n <= MAX_SIZE /\ remaining s = vch (snd (WriteCompactSize n (Init []))) ++ rest)).
Proof.
  intros Hok Hb. split.
  - intros (s' & E & <-). apply ReadCompactSize_inv in E as (Hn & E & _); auto.
    split; [easy|]. unfold MAX_SIZE in Hn.
    now rewrite WriteCompactSize_append by (unfold in_u; lia).
  - intros (Hn & E). pose proof Hn as Hn'. unfold MAX_SIZE in Hn'.
    rewrite WriteCompactSize_append in E by (unfold in_u; lia). cbn in E.
    destruct (ReadCompactSize_take n s rest Hn Hok E) as (s' & ? & _ & ?). eauto.
Qed.

Lemma CompactSize_canonical_witness :
  (exists s', ReadCompactSize (Init [253; 4; 2; 7]) = (Ret 516, s') /\ remaining s' = [7]) <->
  (0 <= 516 <= MAX_SIZE /\
   remaining (Init [253; 4; 2; 7]) = vch (snd (WriteCompactSize 516 (Init []))) ++ [7]).
Proof.
  apply CompactSize_canonical.
  - apply Init_ok. reflexivity.
  - repeat constructor; discriminate.
Defined.

(** Variable-length integers of any unsigned type: [WriteVarInt] never leaves its
    fixed-size array, writes the number of bytes [GetSizeOfVarInt] announces, and
    [ReadVarInt] takes exactly these bytes off any stream and returns the number. *)
Theorem VarInt_roundtrip w n :
  0 < w -> in_u w n ->
  exists bytes,
    (forall s, WriteVarInt w n s = (Ret tt, set_buf (vch s ++ bytes) (nReadPos s) s)) /\
    GetSizeOfVarInt w n = Some (zlen bytes) /\
    (forall s rest, stream_ok s -> remaining s = bytes ++ rest ->
       exists s', ReadVarInt w s = (Ret n, s') /\ stream_ok s' /\ remaining s' = rest).
Proof.
  intros Hw Hn. destruct (varint_room_bound w n Hw Hn) as [Hb Hr].
  destruct (WriteVarInt_loop_total (varint_room w) 0 n) as (l & E & _); [unfold in_u in Hn; lia|easy|].
  exists (rev l). splits.
  - intros s. unfold WriteVarInt, lift, se_bind. rewrite E. apply write_each_append.
  - unfold GetSizeOfVarInt. rewrite (GetSizeOfVarInt_loop_spec _ _ _ _ 0 E).
    unfold zlen. now rewrite length_rev.
  - intros s rest. now apply ReadVarInt_take.
Qed.

Lemma VarInt_roundtrip_witness :
  0 < 32 /\ exists bytes,
    (forall s, WriteVarInt 32 4294967295 s = (Ret tt, set_buf (vch s ++ bytes) (nReadPos s) s)) /\
    GetSizeOfVarInt 32 4294967295 = Some (zlen bytes) /\
    (forall s rest, stream_ok s -> remaining s = bytes ++ rest ->
       exists s', ReadVarInt 32 s = (Ret 4294967295, s') /\ stream_ok s' /\ remaining s' = rest).
Proof. split; [lia|]. apply (VarInt_roundtrip 32 4294967295); unfold in_u; lia. Defined.

(** A vector of any type that keeps the serialisation laws keeps them itself: what
    [operator<<] writes for it has the announced size (modulo 2^32), and [operator>>] takes it off the
    front of any stream, rebuilding the vector. *)
Theorem vector_roundtrip (T : Type) (ST : Serializable T) (V : T -> Prop) (LT : SerLaws T V) v :
  1 <= sizeofT <= 5000000 -> vector_ok (V := V) v ->
  exists bytes,
    (forall s, Serialize_vector v s = (Ret tt, set_buf (vch s ++ bytes) (nReadPos s) s)) /\
    GetSerializeSize_vector v = u32 (zlen bytes) /\
    (forall s rest, stream_ok s -> remaining s = bytes ++ rest ->
       exists s', Unserialize_vector s = (Ret v, s') /\ stream_ok s' /\ remaining s' = rest).
Proof.
  intros Hs Hv. pose (L := SerLaws_vector (V := V) Hs).
  exists (encode (SerLaws := L) v). splits.
  - intros s. now apply (Serialize_append (SerLaws := L)).
  - now apply (GetSerializeSize_encode (SerLaws := L)).
  - intros s rest. now apply (Unserialize_take (SerLaws := L)).
Qed.

Lemma vector_roundtrip_witness :
  let v := [[1; 2; 3]; []; [255]] in
  exists bytes,
    (forall s, Serialize_vector v s = (Ret tt, set_buf (vch s ++ bytes) (nReadPos s) s)) /\
    GetSerializeSize_vector v = u32 (zlen bytes) /\
    (forall s rest, stream_ok s -> remaining s = bytes ++ rest ->
       exists s', Unserialize_vector s = (Ret v, s') /\ stream_ok s' /\ remaining s' = rest).
Proof.
  apply (vector_roundtrip (list Z) _ _ SerLaws_bytes).
  - cbn. lia.
  - unfold vector_ok, MAX_SIZE. splits; [reflexivity || (vm_compute; discriminate)|].
    repeat constructor; vm_compute; discriminate.
Defined.

End Wire.
