(* ===== verification/BigNum.v ===== *)
(** * Big numbers (src/src/bignum.h)

    [CBigNum] wraps OpenSSL's BIGNUM, an integer of arbitrary size: its value
    is a [Z].  The conversions to and from OpenSSL's MPI format are the
    library's ([OpenSSL_BN], with its documented format as [OpenSSL_BN_laws]);
    the code's own work, modelled here, is the byte shuffling around them. *)

From Stdlib Require Import ZArith Lia List String Bool.
From S2P Require Import Prelude.
Import ListNotations.
#[local] Open Scope Z_scope.

(** The 4-byte big-endian length in front of an MPI. *)
Definition be4 (n : Z) : list Z := rev (le_bytes 4 n).

(** The value of an MPI payload: big-endian, its top bit the sign. *)
Definition mpi_value (p : list Z) : Z :=
  match p with
  | [] => 0
  | b :: t => if b <? 128 then be_val (b :: t) else - be_val (b - 128 :: t)
  end.

(** No byte of the payload can be left out. *)
Definition mpi_minimal (p : list Z) : Prop :=
  match p with
  | [] => True
  | b :: t => b mod 128 <> 0 \/ exists c t', t = c :: t' /\ 128 <= c
  end.

(** The sizes OpenSSL represents: the bit count is an [int]. *)
Definition bn_fits (z : Z) : Prop := Z.log2 (Z.abs z) < 2 ^ 31.

(** The part of OpenSSL the wrapper calls. *)
Class OpenSSL_BN := {
  BN_mpi2bn : list Z -> Z;
  BN_bn2mpi : Z -> list Z
}.

(** BN_mpi2bn(3) and BN_bn2mpi(3): "a format that consists of the number's
    length in bytes represented as a 4-byte big-endian number, and the number
    itself in big-endian format, where the most significant bit signals a
    negative number (the representation of numbers with the MSB set is
    prefixed with null byte)". *)
Class OpenSSL_BN_laws `{OpenSSL_BN} := {
  mpi2bn_format : forall p, bytes_ok p -> zlen p < 2 ^ 31 ->
    BN_mpi2bn (be4 (zlen p) ++ p) = mpi_value p;
  bn2mpi_format : forall z, bn_fits z ->
    exists p, BN_bn2mpi z = be4 (zlen p) ++ p /\ zlen p < 2 ^ 31 /\
              bytes_ok p /\ mpi_value p = z /\ mpi_minimal p
}.

Module CBigNum.
Section CBigNum.
Context `{OpenSSL_BN}.

(** The loop body shared by [setint64], [setuint64] and [setuint256]: byte [c]
    is appended to the payload [p], leading zeros skipped and a sign byte put
    in front of a first byte whose top bit is taken. *)
Definition put_byte (fNegative : bool) (st : bool * list Z) (c : Z) : bool * list Z :=
  let '(fLeadingZeroes, p) := st in
  if fLeadingZeroes then
    if c =? 0 then (true, p)
    else
      let '(p, c) :=
        if negb (Z.land c 128 =? 0) then (p ++ [if fNegative then 128 else 0], c)
        else if fNegative then (p, Z.lor c 128) else (p, c) in
      (false, p ++ [c])
  else (false, p ++ [c]).

(** [for (int i = 0; i < 8; i++) { c = (n >> 56) & 0xff; n <<= 8; ... }] *)
Fixpoint mpi_loop64 (i : nat) (fNegative : bool) (st : bool * list Z) (n : Z) : list Z :=
  match i with
  | O => snd st
  | S i =>
      let c := Z.land (Z.shiftr n 56) 255 in
      mpi_loop64 i fNegative (put_byte fNegative st c) (u64 (Z.shiftl n 8))
  end.

(** The length stored in front, and the conversion. *)
Definition from_payload (p : list Z) : Z :=
  let nSize := u32 (zlen p) in
  BN_mpi2bn ([Z.land (Z.shiftr nSize 24) 255; Z.land (Z.shiftr nSize 16) 255;
              Z.land (Z.shiftr nSize 8) 255; Z.land nSize 255] ++ p).

Definition setint64 (sn : Z) : Z :=
  let '(n, fNegative) :=
    if sn <? 0 then (u64 (u64 (- (sn + 1)) + 1), true) else (u64 sn, false) in
  from_payload (mpi_loop64 8 fNegative (true, []) n).

Definition setuint64 (n : Z) : Z :=
  from_payload (mpi_loop64 8 false (true, []) n).

(** [setuint256] walks the 32 bytes of the object from the last one down. *)
Definition setuint256 (n : list Z) : Z :=
  from_payload (snd (fold_left (put_byte false) (rev n) (true, []))).

(** [setvch]: a little-endian sign-magnitude vector, reversed behind its length. *)
Definition setvch (vch : list Z) : Z := from_payload (rev vch).

Definition getvch (bn : Z) : list Z :=
  let m := BN_bn2mpi bn in
  let nSize := u32 (zlen m) in
  if nSize <=? 4 then [] else rev (skipn 4 m).

(** Clearing the sign: [if (vch.size() > 4) vch[4] &= 0x7f]. *)
Definition clear_sign (m : list Z) : list Z :=
  match skipn 4 m with
  | b :: t => firstn 4 m ++ Z.land b 127 :: t
  | [] => m
  end.

(** The copy loop of [getuint64] and [getuint256]: bytes from the last down to
    index 4 fill an object of [k] bytes from its first. *)
Definition low_bytes (k : nat) (m : list Z) : list Z :=
  let d := firstn k (rev (skipn 4 m)) in
  d ++ repeat 0 (k - List.length d).

Definition getuint64 (bn : Z) : Z :=
  let m := BN_bn2mpi bn in
  let nSize := u32 (zlen m) in
  if nSize <? 4 then 0 else le_val (low_bytes 8 (clear_sign m)).

(** [getuint256] returns the 32 bytes of the object. *)
Definition getuint256 (bn : Z) : list Z :=
  let m := BN_bn2mpi bn in
  let nSize := u32 (zlen m) in
  if nSize <? 4 then repeat 0 32 else low_bytes 32 (clear_sign m).

Definition SetCompact (nCompact : Z) : Z :=
  let nSize := Z.shiftr nCompact 24 in
  let vch := [0; 0; 0; u8 nSize] ++ repeat 0 (Z.to_nat nSize) in
  let set i b (v : list Z) := firstn i v ++ b :: skipn (S i) v in
  let vch := if 1 <=? nSize then set 4%nat (Z.land (Z.shiftr nCompact 16) 255) vch else vch in
  let vch := if 2 <=? nSize then set 5%nat (Z.land (Z.shiftr nCompact 8) 255) vch else vch in
  let vch := if 3 <=? nSize then set 6%nat (Z.land (Z.shiftr nCompact 0) 255) vch else vch in
  BN_mpi2bn vch.

Definition GetCompact (bn : Z) : Z :=
  let vch := BN_bn2mpi bn in
  let nSize := u32 (u32 (zlen vch) - 4) in
  let nCompact := u32 (Z.shiftl nSize 24) in
  let nCompact := if 1 <=? nSize then Z.lor nCompact (Z.shiftl (nth 4 vch 0) 16) else nCompact in
  let nCompact := if 2 <=? nSize then Z.lor nCompact (Z.shiftl (nth 5 vch 0) 8) else nCompact in
  if 3 <=? nSize then Z.lor nCompact (Z.shiftl (nth 6 vch 0) 0) else nCompact.

(** [CBigNum(int)]: a non-negative [int] goes through [BN_set_word]. *)
Definition of_int (n : Z) : Z := if 0 <=? n then n else setint64 n.

(** [getint]: saturates at the limits of [int]. *)
Definition getint (bn : Z) : Z :=
  let n := Z.min (Z.abs bn) (2 ^ 64 - 1) in
  if 0 <=? bn then (if 2147483647 <? n then 2147483647 else n)
  else (if 2147483647 <? n then -2147483648 else - n).

End CBigNum.

(** ** The MPI payload *)

Section Payload.
Context `{HB : OpenSSL_BN} `{HL : !OpenSSL_BN_laws}.

Lemma length_header n : 0 <= n < 2 ^ 32 ->
  [Z.land (Z.shiftr n 24) 255; Z.land (Z.shiftr n 16) 255;
   Z.land (Z.shiftr n 8) 255; Z.land n 255] = be4 n.
Proof.
  intros Hn. unfold be4. cbn [le_bytes rev app].
  rewrite !land255, !Z.shiftr_div_pow2 by lia.
  now rewrite !Z.div_div by lia.
Qed.

Lemma from_payload_value p : bytes_ok p -> zlen p < 2 ^ 31 -> from_payload p = mpi_value p.
Proof.
  intros Hp Hl. pose proof (zlen_nonneg p). unfold from_payload.
  rewrite wrapu_id by (unfold in_u; lia). rewrite length_header by lia.
  now apply mpi2bn_format.
Qed.

(** [put_byte] after the leading zeros just copies. *)
Lemma put_byte_copy neg l p : fold_left (put_byte neg) l (false, p) = (false, p ++ l).
Proof.
  revert p. induction l as [|c l IH]; intros p; cbn [fold_left put_byte].
  - now rewrite app_nil_r.
  - now rewrite IH, <- app_assoc.
Qed.

Lemma land128_zero c : byte_ok c -> (Z.land c 128 =? 0) = (c <? 128).
Proof.
  intros Hc. rewrite land128, Z.ltb_antisym by easy. now destruct (128 <=? c).
Qed.

(** The payload has the value of the bytes, with the sign asked for. *)
Lemma put_byte_value neg l :
  bytes_ok l ->
  let p := snd (fold_left (put_byte neg) l (true, [])) in
  bytes_ok p /\ zlen p <= zlen l + 1 /\
  mpi_value p = if neg then - be_val l else be_val l.
Proof.
  induction 1 as [|c l Hc Hl IH]; cbn [fold_left put_byte].
  - split; [constructor|]. split; [cbn; unfold zlen; cbn; lia|now destruct neg].
  - pose proof Hc as Hc'. unfold in_u in Hc'. change (2 ^ 8) with 256 in Hc'.
    rewrite be_val_cons. destruct (c =? 0) eqn:E; zbool.
    + subst c. destruct IH as (H1 & H2 & H3). rewrite zlen_cons. splits; auto; try lia.
    + rewrite land128_zero by easy. rewrite zlen_cons.
      destruct (c <? 128) eqn:L; zbool; cbn [negb]; [destruct neg|];
        rewrite put_byte_copy; cbn [snd app]; rewrite ?zlen_cons.
      * rewrite lor128 by lia. splits; [constructor; auto; unfold in_u; lia|lia|].
        cbn [mpi_value]. rewrite (proj2 (Z.ltb_ge _ _)) by lia.
        rewrite Z.add_simpl_r. now rewrite be_val_cons.
      * splits; [now constructor|lia|]. cbn [mpi_value].
        rewrite (proj2 (Z.ltb_lt _ _)) by lia. now rewrite be_val_cons.
      * pose proof (be_val_range l Hl). splits; [|lia|].
        { constructor; [destruct neg; unfold in_u; lia|now constructor]. }
        cbn [mpi_value]. destruct neg; cbn [Z.ltb Z.compare Pos.compare Pos.compare_cont Z.sub].
        -- change (128 - 128) with 0. rewrite be_val_cons, be_val_cons. lia.
        -- rewrite be_val_cons, be_val_cons. lia.
Qed.


Lemma mpi_loop64_bytes k : forall neg st m,
  (k <= 8)%nat ->
  mpi_loop64 k neg st (u64 (m * 2 ^ (64 - 8 * Z.of_nat k))) =
  snd (fold_left (put_byte neg) (rev (le_bytes k m)) st).
Proof.
  induction k as [|k IH]; intros neg st m Hk; [easy|].
  rewrite le_bytes_S, rev_app_distr. cbn [rev app fold_left mpi_loop64].
  set (e := 8 * Z.of_nat k). assert (0 <= e <= 56) as He by lia.
  assert (2 ^ 64 = 2 ^ (64 - 8 * Z.of_nat (S k)) * 2 ^ (e + 8)) as E64
      by (rewrite <- Z.pow_add_r by lia; f_equal; lia).
  assert (0 < 2 ^ (64 - 8 * Z.of_nat (S k))) by (apply Z.pow_pos_nonneg; lia).
  assert (0 < 2 ^ e) by (apply Z.pow_pos_nonneg; lia).
  assert (2 ^ 56 = 2 ^ (64 - 8 * Z.of_nat (S k)) * 2 ^ e) as E56
      by (rewrite <- Z.pow_add_r by lia; f_equal; lia).
  assert (Z.land (Z.shiftr (u64 (m * 2 ^ (64 - 8 * Z.of_nat (S k)))) 56) 255 = (m / 2 ^ e) mod 256) as ->.
  { rewrite land255, Z.shiftr_div_pow2 by lia. unfold wrapu.
    rewrite E64, (Z.mul_comm m), Z.mul_mod_distr_l, E56 by lia.
    rewrite Z.div_mul_cancel_l by lia. rewrite Z.pow_add_r, Z.mul_comm by lia.
    change (2 ^ 8) with 256. rewrite (Z.mul_comm 256), Z.rem_mul_r by lia.
    rewrite Z.mul_comm, Z.div_add by lia. rewrite (Z.div_small (m mod 2 ^ e)) by (apply Z.mod_pos_bound; lia).
    rewrite Z.add_0_l. apply Z.mod_mod. lia. }
  rewrite <- IH by lia. f_equal. unfold wrapu. rewrite Z.shiftl_mul_pow2 by lia.
  rewrite Z.mul_mod_idemp_l by lia. f_equal. rewrite <- Z.mul_assoc, <- Z.pow_add_r by lia.
  f_equal. f_equal. lia.
Qed.

Lemma mpi_loop64_value neg n :
  in_u 64 n -> from_payload (mpi_loop64 8 neg (true, []) n) = if neg then - n else n.
Proof.
  intros Hn. rewrite <- (wrapu_id 64 n) at 1 by easy.
  replace n with (n * 2 ^ (64 - 8 * Z.of_nat 8)) at 1 by (cbn; lia).
  rewrite mpi_loop64_bytes by lia.
  destruct (put_byte_value neg (rev (le_bytes 8 n))) as (H1 & H2 & H3);
    [apply Forall_rev, le_bytes_ok|].
  unfold zlen in H2 at 2. rewrite length_rev, length_le_bytes in H2.
  rewrite from_payload_value, H3 by (auto; lia).
  unfold be_val. rewrite rev_involutive, le_val_bytes, Z.mod_small by exact Hn. easy.
Qed.

Lemma setuint64_value n : in_u 64 n -> setuint64 n = n.
Proof. intros. unfold setuint64. now rewrite mpi_loop64_value. Qed.

(** The detour through [-(sn + 1)] keeps the most negative value exact. *)
Lemma setint64_value sn : in_s 64 sn -> setint64 sn = sn.
Proof.
  unfold in_s. change (2 ^ (64 - 1)) with 9223372036854775808. intros Hn.
  unfold setint64. destruct (sn <? 0) eqn:E; zbool.
  - rewrite (wrapu_id 64 (- (sn + 1))) by (unfold in_u; lia).
    rewrite (wrapu_id 64 (- (sn + 1) + 1)) by (unfold in_u; lia).
    rewrite mpi_loop64_value by (unfold in_u; lia). lia.
  - rewrite wrapu_id, mpi_loop64_value by (unfold in_u; lia). easy.
Qed.

Lemma setuint256_value n :
  bytes_ok n -> List.length n = 32%nat -> setuint256 n = le_val n.
Proof.
  intros Hn Hl. unfold setuint256.
  destruct (put_byte_value false (rev n)) as (H1 & H2 & H3); [now apply Forall_rev|].
  unfold zlen in H2 at 2. rewrite length_rev, Hl in H2.
  rewrite from_payload_value, H3 by (auto; lia). unfold be_val. now rewrite rev_involutive.
Qed.

Lemma setvch_value v : bytes_ok v -> zlen v < 2 ^ 31 -> setvch v = mpi_value (rev v).
Proof.
  intros. unfold setvch. apply from_payload_value; [now apply Forall_rev|].
  unfold zlen in *. now rewrite length_rev.
Qed.

(** What [BN_bn2mpi] returns, as the wrapper takes it apart. *)
Lemma bn2mpi_parts z :
  bn_fits z ->
  exists p, BN_bn2mpi z = be4 (zlen p) ++ p /\ bytes_ok p /\ mpi_value p = z /\ mpi_minimal p /\ zlen p < 2 ^ 31 /\ u32 (zlen (BN_bn2mpi z)) = zlen p + 4 /\ skipn 4 (BN_bn2mpi z) = p.
Proof.
  intros Hz. destruct (bn2mpi_format z Hz) as (p & E & L & Hp & Hv & Hm).
  exists p. rewrite E. splits; auto. pose proof (zlen_nonneg p).
  rewrite zlen_app. replace (zlen (be4 (zlen p))) with 4 by reflexivity.
  rewrite wrapu_id by (unfold in_u; lia). lia.
Qed.

Lemma getvch_value z : bn_fits z ->
  exists p, getvch z = rev p /\ bytes_ok p /\ mpi_value p = z /\ mpi_minimal p /\ zlen p < 2 ^ 31.
Proof.
  intros Hz. destruct (bn2mpi_parts z Hz) as (p & E & Hp & Hv & Hm & L & Hn & Hs).
  exists p. unfold getvch. rewrite Hn, Hs. splits; auto.
  destruct (zlen p + 4 <=? 4) eqn:N; zbool; [|easy].
  destruct p; [easy|]. rewrite zlen_cons in N. pose proof (zlen_nonneg p). lia.
Qed.

Lemma setvch_getvch z : bn_fits z -> setvch (getvch z) = z.
Proof.
  intros Hz. destruct (getvch_value z Hz) as (p & -> & Hp & Hv & _ & L).
  rewrite setvch_value, rev_involutive; auto; [now apply Forall_rev|].
  unfold zlen in *. now rewrite length_rev.
Qed.

(** Dropping the sign bit leaves the magnitude. *)
Lemma magnitude p : bytes_ok p ->
  be_val (match p with [] => [] | b :: t => Z.land b 127 :: t end) = Z.abs (mpi_value p).
Proof.
  destruct 1 as [|b t Hb Ht]; [easy|]. unfold in_u in Hb. change (2 ^ 8) with 256 in Hb.
  rewrite land127. cbn [mpi_value]. pose proof (be_val_range t Ht).
  assert (0 <= 2 ^ (8 * zlen t)) by (apply Z.pow_nonneg; lia).
  destruct (b <? 128) eqn:E; zbool; rewrite !be_val_cons.
  - rewrite Z.mod_small by lia. nia.
  - replace (b mod 128) with (b - 128); [nia|].
    apply (Z.mod_unique_pos b 128 1); lia.
Qed.

Lemma low_bytes_value k m : bytes_ok (skipn 4 m) ->
  le_val (low_bytes k m) = be_val (skipn 4 m) mod 2 ^ (8 * Z.of_nat k) /\
  List.length (low_bytes k m) = k /\ bytes_ok (low_bytes k m).
Proof.
  intros Hm. unfold low_bytes, be_val. apply Forall_rev in Hm.
  set (l := rev (skipn 4 m)) in *. clearbody l. clear m.
  assert (bytes_ok (firstn k l)) as Hf.
  { rewrite <- (firstn_skipn k l) in Hm. now apply Forall_app in Hm. }
  assert (forall n, bytes_ok (repeat 0 n) /\ le_val (repeat 0 n) = 0) as Hz.
  { induction n as [|n [I1 I2]]; cbn [repeat le_val]; [split; [constructor|easy]|].
    split; [constructor; [unfold in_u; lia|easy]|lia]. }
  splits.
  - rewrite le_val_app, (proj2 (Hz _)), Z.mul_0_r, Z.add_0_r.
    rewrite <- (firstn_skipn k l) at 2. rewrite le_val_app, length_firstn.
    destruct (Nat.le_gt_cases k (List.length l)) as [L|L].
    + rewrite Nat.min_l by lia. rewrite Z.mul_comm, Z.mod_add by (apply Z.pow_nonzero; lia).
      symmetry. apply Z.mod_small. pose proof (le_val_range _ Hf) as R.
      rewrite length_firstn, Nat.min_l in R by lia. exact R.
    + rewrite skipn_all2 by lia. cbn [le_val]. rewrite Z.mul_0_r, Z.add_0_r.
      symmetry. apply Z.mod_small. pose proof (le_val_range _ Hf) as R.
      rewrite length_firstn, Nat.min_r in R by lia. split; [lia|].
      eapply Z.lt_le_trans; [apply R|]. apply Z.pow_le_mono_r; lia.
  - rewrite length_app, repeat_length, length_firstn. lia.
  - apply Forall_app. split; [easy|apply Hz].
Qed.

Lemma clear_sign_parts z : bn_fits z ->
  bytes_ok (skipn 4 (clear_sign (BN_bn2mpi z))) /\
  be_val (skipn 4 (clear_sign (BN_bn2mpi z))) = Z.abs z /\
  (u32 (zlen (BN_bn2mpi z)) <? 4) = false.
Proof.
  intros Hz. destruct (bn2mpi_parts z Hz) as (p & E & Hp & Hv & Hm & L & Hn & Hs).
  pose proof (magnitude p Hp) as M. rewrite Hv in M. pose proof (zlen_nonneg p).
  unfold clear_sign. rewrite Hs, Hn, E, (proj2 (Z.ltb_ge _ _)) by lia.
  destruct p as [|b t]; cbn -[Z.land be_val]; [splits; auto|].
  inversion_clear Hp. splits; auto. constructor; auto.
  rewrite land127. pose proof (Z.mod_pos_bound b 128). unfold in_u. lia.
Qed.

Lemma getuint64_value z : bn_fits z -> getuint64 z = Z.abs z mod 2 ^ 64.
Proof.
  intros Hz. destruct (clear_sign_parts z Hz) as (H1 & H2 & H3).
  unfold getuint64. rewrite H3. now rewrite (proj1 (low_bytes_value 8 _ H1)), H2.
Qed.

Lemma getuint256_value z : bn_fits z ->
  le_val (getuint256 z) = Z.abs z mod 2 ^ 256 /\ List.length (getuint256 z) = 32%nat /\
  bytes_ok (getuint256 z).
Proof.
  intros Hz. destruct (clear_sign_parts z Hz) as (H1 & H2 & H3).
  unfold getuint256. rewrite H3. destruct (low_bytes_value 32 _ H1) as (E & L & B).
  now rewrite E, H2.
Qed.

(** ** Uniqueness of the minimal payload *)

Lemma mpi_minimal_bounds b t :
  bytes_ok (b :: t) -> mpi_minimal (b :: t) ->
  2 ^ (8 * zlen t) <= 2 * Z.abs (mpi_value (b :: t)) < 2 ^ (8 * zlen t + 8).
Proof.
  intros Hp Hm. rewrite <- magnitude by easy. inversion_clear Hp as [|? ? Hb Ht].
  rewrite land127, be_val_cons. pose proof (be_val_range t Ht) as R.
  rewrite Z.pow_add_r by (pose proof (zlen_nonneg t); lia). change (2 ^ 8) with 256.
  pose proof (Z.mod_pos_bound b 128 ltac:(lia)) as B. split; [|nia].
  destruct Hm as [Hm|(c & t' & -> & Hc)]; [nia|].
  inversion_clear Ht as [|? ? Hc' Ht']. rewrite zlen_cons, be_val_cons.
  replace (8 * (1 + zlen t')) with (8 + 8 * zlen t') by lia.
  rewrite Z.pow_add_r by (pose proof (zlen_nonneg t'); lia). change (2 ^ 8) with 256.
  pose proof (be_val_range t' Ht'). assert (0 < 2 ^ (8 * zlen t')) by lia. nia.
Qed.

(** The number of bytes of a number in MPI format. *)
Definition mpi_length (z : Z) : Z := if z =? 0 then 0 else (Z.log2 (Z.abs z) + 1) / 8 + 1.

Lemma mpi_minimal_length p : bytes_ok p -> mpi_minimal p -> zlen p = mpi_length (mpi_value p).
Proof.
  destruct p as [|b t]; intros Hp Hm; [easy|].
  pose proof (mpi_minimal_bounds b t Hp Hm) as [L U]. set (v := mpi_value (b :: t)) in *.
  clearbody v. pose proof (zlen_nonneg t) as N. rewrite zlen_cons. unfold mpi_length.
  assert (0 < 2 ^ (8 * zlen t)) by (apply Z.pow_pos_nonneg; lia).
  rewrite (proj2 (Z.eqb_neq v 0)) by lia.
  assert (8 * zlen t <= Z.log2 (Z.abs v) + 1 < 8 * zlen t + 8) as [L' U'].
  { replace (Z.log2 (Z.abs v) + 1) with (Z.log2 (2 * Z.abs v)) by (rewrite Z.log2_double by lia; lia).
    split; [apply Z.log2_le_pow2; lia|apply Z.log2_lt_pow2; lia]. }
  assert ((Z.log2 (Z.abs v) + 1) / 8 = zlen t) as ->; [|lia].
  symmetry. apply (Z.div_unique_pos _ _ _ (Z.log2 (Z.abs v) + 1 - 8 * zlen t)); lia.
Qed.

Lemma be_val_inj p q : bytes_ok p -> bytes_ok q -> zlen p = zlen q -> be_val p = be_val q -> p = q.
Proof.
  intros Hp Hq L E.
  apply Forall_rev in Hp, Hq. rewrite <- (rev_involutive p), <- (rev_involutive q). f_equal.
  unfold zlen in L. assert (List.length p = List.length q) as L' by lia.
  rewrite <- (le_bytes_val _ Hp), <- (le_bytes_val _ Hq), !length_rev, L'.
  now replace (le_val (rev p)) with (le_val (rev q)) by now unfold be_val in E.
Qed.

Lemma mpi_value_sign b t : bytes_ok (b :: t) -> mpi_minimal (b :: t) ->
  (0 <= mpi_value (b :: t) <-> b < 128).
Proof.
  intros Hp Hm. pose proof (mpi_minimal_bounds b t Hp Hm) as [L U].
  inversion_clear Hp as [|? ? Hb Ht]. unfold in_u in Hb. change (2 ^ 8) with 256 in Hb.
  pose proof (be_val_range t Ht) as R.
  pose proof (zlen_nonneg t). assert (0 < 2 ^ (8 * zlen t)) by (apply Z.pow_pos_nonneg; lia).
  cbn [mpi_value] in *. destruct (b <? 128) eqn:E; zbool; rewrite be_val_cons in *; split; intros; nia.
Qed.

Lemma mpi_minimal_inj p q :
  bytes_ok p -> bytes_ok q -> mpi_minimal p -> mpi_minimal q -> mpi_value p = mpi_value q -> p = q.
Proof.
  intros Hp Hq Mp Mq E.
  assert (zlen p = zlen q) as L by (rewrite !mpi_minimal_length by easy; now rewrite E).
  destruct p as [|b t], q as [|c u]; try easy;
    try (rewrite ?zlen_cons, ?zlen_nil in L; pose proof (zlen_nonneg t); pose proof (zlen_nonneg u); lia).
  pose proof (mpi_value_sign b t Hp Mp) as S1. pose proof (mpi_value_sign c u Hq Mq) as S2.
  rewrite E in S1. apply be_val_inj; auto.
  rewrite !zlen_cons in L. assert (zlen t = zlen u) as L' by lia.
  cbn [mpi_value] in E. rewrite !be_val_cons, L' in *.
  destruct (b <? 128) eqn:B, (c <? 128) eqn:C; zbool; lia.
Qed.

(** Every vector that wastes no byte is its number's encoding. *)
Lemma getvch_setvch v :
  bytes_ok v -> zlen v < 2 ^ 28 -> mpi_minimal (rev v) -> bn_fits (setvch v) ->
  getvch (setvch v) = v.
Proof.
  intros Hv Hl Hm Hf. destruct (getvch_value (setvch v) Hf) as (p & -> & Hp & E & Mp & _).
  rewrite setvch_value in E by (auto; lia).
  rewrite (mpi_minimal_inj p (rev v)); auto; [apply rev_involutive|now apply Forall_rev].
Qed.

Lemma getvch_length z : bn_fits z -> zlen (getvch z) = mpi_length z.
Proof.
  intros Hz. destruct (getvch_value z Hz) as (p & -> & Hp & <- & Hm & _).
  rewrite <- mpi_minimal_length by easy. unfold zlen. now rewrite length_rev.
Qed.

(** ** Compact targets *)

(** The three most significant bytes, zeros standing for missing ones. *)
Definition top3 (p : list Z) : Z := be_val (firstn 3 (p ++ [0; 0; 0])).

Lemma top3_range p : bytes_ok p -> 0 <= top3 p < 2 ^ 24.
Proof.
  intros Hp. unfold top3.
  assert (bytes_ok (firstn 3 (p ++ [0; 0; 0]))) as Hf.
  { assert (bytes_ok (p ++ [0; 0; 0])) as Ha.
    { apply Forall_app. split; [easy|]. repeat constructor; lia. }
    rewrite <- (firstn_skipn 3 (p ++ _)) in Ha. now apply Forall_app in Ha. }
  pose proof (be_val_range _ Hf) as R.
  replace (zlen (firstn 3 (p ++ [0; 0; 0]))) with 3 in R; [exact R|].
  unfold zlen. rewrite length_firstn, length_app. cbn [List.length]. lia.
Qed.

Ltac be3 :=
  repeat rewrite zlen_cons; change (@zlen Z []) with 0; change (be_val []) with 0;
  change (8 * (1 + (1 + 0))) with 16; change (8 * (1 + 0)) with 8; change (8 * 0) with 0;
  change (2 ^ 16) with 65536; change (2 ^ 24) with 16777216; change (2 ^ 8) with 256;
  change (2 ^ 0) with 1; lia.

Lemma GetCompact_payload z p :
  BN_bn2mpi z = be4 (zlen p) ++ p -> bytes_ok p -> zlen p < 256 ->
  GetCompact z = zlen p * 2 ^ 24 + top3 p.
Proof.
  intros E Hp Hl. pose proof (zlen_nonneg p) as N. unfold GetCompact. rewrite E, zlen_app.
  replace (zlen (be4 (zlen p))) with 4 by reflexivity.
  rewrite (wrapu_id 32 (4 + zlen p)) by (unfold in_u; lia).
  replace (4 + zlen p - 4) with (zlen p) by lia. rewrite (wrapu_id 32 (zlen p)) by (unfold in_u; lia).
  rewrite Z.shiftl_mul_pow2, (wrapu_id 32 (zlen p * 2 ^ 24)) by (unfold in_u; lia).
  rewrite <- Z.shiftl_mul_pow2 by lia. unfold top3.
  assert (forall a b, 0 <= b < 256 ->
            Z.lor (Z.shiftl a 24) (Z.shiftl b 16) = Z.shiftl (a * 256 + b) 16) as L1.
  { intros a b Hb. replace (a * 256 + b) with (Z.lor (Z.shiftl a 8) b) by (apply lor_shiftl_add; lia).
    now rewrite Z.shiftl_lor, Z.shiftl_shiftl by lia. }
  assert (forall a b, 0 <= b < 256 ->
            Z.lor (Z.shiftl a 16) (Z.shiftl b 8) = Z.shiftl (a * 256 + b) 8) as L2.
  { intros a b Hb. replace (a * 256 + b) with (Z.lor (Z.shiftl a 8) b) by (apply lor_shiftl_add; lia).
    now rewrite Z.shiftl_lor, Z.shiftl_shiftl by lia. }
  pose proof Hp as Hp'. unfold bytes_ok, in_u in Hp'. change (2 ^ 8) with 256 in Hp'.
  destruct p as [|a [|b [|c p]]]; rewrite ?zlen_cons, ?zlen_nil in *;
    repeat match goal with
           | H : Forall _ (_ :: _) |- _ => inversion_clear H
           end; cbn [app firstn nth be4 rev le_bytes];
    try pose proof (zlen_nonneg p) as N'.
  - reflexivity.
  - change (1 <=? 1 + 0) with true. change (2 <=? 1 + 0) with false.
    change (3 <=? 1 + 0) with false. cbv iota.
    rewrite L1 by lia. rewrite !be_val_cons, !Z.shiftl_mul_pow2 by lia.
    be3.
  - change (1 <=? 1 + (1 + 0)) with true. change (2 <=? 1 + (1 + 0)) with true.
    change (3 <=? 1 + (1 + 0)) with false. cbv iota.
    rewrite L1, L2 by lia. rewrite !be_val_cons, !Z.shiftl_mul_pow2 by lia.
    be3.
  - rewrite !(proj2 (Z.leb_le _ _)) by lia.
    rewrite L1, L2, Z.shiftl_0_r, lor_shiftl_add by (change (2 ^ 8) with 256; lia).
    rewrite !be_val_cons, !Z.shiftl_mul_pow2 by lia. be3.
Qed.

(** The payload a compact value stands for. *)
Definition compact_payload (n w : Z) : list Z :=
  firstn (Z.to_nat n) [Z.land (Z.shiftr w 16) 255; Z.land (Z.shiftr w 8) 255; Z.land w 255] ++
  repeat 0 (Z.to_nat (n - 3)).

Lemma SetCompact_payload n w :
  0 <= n < 256 -> 0 <= w < 2 ^ 24 ->
  SetCompact (n * 2 ^ 24 + w) = mpi_value (compact_payload n w).
Proof.
  intros Hn Hw. unfold SetCompact.
  replace (Z.shiftr (n * 2 ^ 24 + w) 24) with n
    by (rewrite Z.shiftr_div_pow2, Z.div_add_l, Z.div_small by lia; lia).
  assert (forall k, 0 <= k <= 16 -> Z.land (Z.shiftr (n * 2 ^ 24 + w) k) 255
                                = Z.land (Z.shiftr w k) 255) as B.
  { intros k Hk. rewrite !land255, !Z.shiftr_div_pow2 by lia.
    replace (n * 2 ^ 24) with (n * 2 ^ (16 - k) * 256 * 2 ^ k).
    - rewrite Z.div_add_l by (apply Z.pow_nonzero; lia).
      rewrite Z.add_comm. now rewrite Z.mod_add by lia.
    - change 256 with (2 ^ 8). rewrite <- !Z.mul_assoc, <- !Z.pow_add_r by lia. do 2 f_equal. lia. }
  rewrite !B, Z.shiftr_0_r by lia.
  rewrite (wrapu_id 8 n) by (unfold in_u; lia).
  set (w2 := Z.land (Z.shiftr w 16) 255). set (w1 := Z.land (Z.shiftr w 8) 255).
  set (w0 := Z.land w 255).
  transitivity (BN_mpi2bn (be4 (zlen (compact_payload n w)) ++ compact_payload n w)).
  2:{ apply mpi2bn_format.
      - unfold compact_payload. apply Forall_app. split.
        + assert (bytes_ok [w2; w1; w0]) as H3.
          { unfold w2, w1, w0. rewrite !land255.
            repeat constructor; apply Z.mod_pos_bound; lia. }
          rewrite <- (firstn_skipn (Z.to_nat n)) in H3. now apply Forall_app in H3.
        + apply Forall_forall. intros x Hx. apply repeat_spec in Hx as ->. unfold in_u. lia.
      - unfold compact_payload, zlen. rewrite length_app, length_firstn, repeat_length.
        cbn [List.length]. lia. }
  f_equal.
  assert (zlen (compact_payload n w) = n) as L.
  { unfold compact_payload, zlen. rewrite length_app, length_firstn, repeat_length.
    cbn [List.length]. lia. }
  rewrite L. replace (be4 n) with [0; 0; 0; n].
  2:{ unfold be4. cbn [le_bytes rev app].
      now rewrite (Z.mod_small n 256), (Z.div_small n 256) by lia. }
  unfold compact_payload. fold w2 w1 w0.
  destruct (Z.lt_ge_cases n 3) as [C|C].
  - assert (n = 0 \/ n = 1 \/ n = 2) as [-> | [-> | ->]] by lia; reflexivity.
  - rewrite !(proj2 (Z.leb_le _ _)) by lia.
    replace (Z.to_nat n) with (3 + Z.to_nat (n - 3))%nat by lia.
    cbn [repeat app firstn skipn Nat.add]. now rewrite firstn_nil.
Qed.

Lemma top3_bytes p :
  bytes_ok p -> compact_payload (zlen p) (top3 p) = firstn 3 p ++ repeat 0 (Z.to_nat (zlen p - 3)).
Proof.
  intros Hp. unfold compact_payload, top3. rewrite zlen_to_nat. f_equal.
  rewrite !land255, !Z.shiftr_div_pow2 by lia.
  unfold bytes_ok, in_u in Hp. change (2 ^ 8) with 256 in Hp.
  change (2 ^ 16) with (256 * 256). change (2 ^ 8) with 256. rewrite <- Z.div_div by lia.
  assert (forall a b c, 0 <= a < 256 -> 0 <= b < 256 -> 0 <= c < 256 ->
    [(be_val [a; b; c] / 256 / 256) mod 256; (be_val [a; b; c] / 256) mod 256;
     be_val [a; b; c] mod 256] = [a; b; c]) as E.
  { intros a b c Ha Hb Hc. unfold be_val. cbn [rev app le_val].
    rewrite Z.mul_0_r, Z.add_0_r. rewrite (Z.mul_comm 256), Z.div_add, Z.mod_add by lia.
    rewrite (Z.div_small c) by lia. rewrite Z.add_0_l, (Z.mul_comm 256), Z.div_add, Z.mod_add by lia.
    rewrite (Z.div_small b), !Z.mod_small by lia. now rewrite Z.add_0_l. }
  assert (exists a b c, firstn 3 (p ++ [0; 0; 0]) = [a; b; c] /\ 0 <= a < 256 /\ 0 <= b < 256 /\
            0 <= c < 256 /\ firstn (List.length p) [a; b; c] = firstn 3 p)
    as (a & b & c & -> & Ha & Hb & Hc & <-).
  { destruct p as [|a [|b [|c p]]];
      repeat match goal with
             | H : Forall _ (_ :: _) |- _ => inversion_clear H
             end; do 3 eexists; cbn [app firstn List.length]; rewrite ?firstn_nil;
      (split; [reflexivity|]); splits; auto; lia. }
  f_equal. now apply E.
Qed.

Lemma be_val_zeros n : be_val (repeat 0 n) = 0.
Proof.
  induction n; [easy|]. cbn [repeat]. rewrite be_val_cons, IHn. lia.
Qed.

(** Cutting a payload after three bytes rounds the magnitude down. *)
Lemma mpi_value_cut p :
  bytes_ok p -> mpi_minimal p ->
  let u := 2 ^ (8 * Z.max 0 (zlen p - 3)) in
  mpi_value (firstn 3 p ++ repeat 0 (Z.to_nat (zlen p - 3))) =
  Z.sgn (mpi_value p) * (Z.abs (mpi_value p) / u * u).
Proof.
  intros Hp Hm u.
  destruct (Z.le_gt_cases (zlen p) 3) as [L|L].
  { unfold u. rewrite Z.max_l, firstn_all2 by (unfold zlen in *; lia).
    replace (Z.to_nat (zlen p - 3)) with 0%nat by lia. rewrite app_nil_r.
    rewrite Z.pow_0_r, Z.div_1_r. lia. }
  rewrite <- (firstn_skipn 3 p) at 3 4.
  assert (zlen (skipn 3 p) = zlen p - 3) as Ls by (apply (zlen_skipn 3); lia).
  assert (u = 2 ^ (8 * zlen (skipn 3 p))) as Hu by (unfold u; f_equal; lia). clearbody u. subst u.
  assert (zlen (repeat 0 (Z.to_nat (zlen p - 3))) = zlen (skipn 3 p)) as Lr
      by (unfold zlen at 1; rewrite repeat_length; lia).
  assert (bytes_ok (firstn 3 p) /\ bytes_ok (skipn 3 p)) as [Hf Hs].
  { apply Forall_app. now rewrite firstn_skipn. }
  destruct p as [|b [|c [|d p]]]; try (unfold zlen in L; cbn in L; lia).
  cbn [firstn skipn] in *. set (r := repeat 0 _) in *.
  assert (be_val r = 0) as Hr by apply be_val_zeros.
  pose proof (be_val_range p Hs) as R. assert (0 < 2 ^ (8 * zlen p)) by lia.
  change ([b; c; d] ++ r) with (b :: [c; d] ++ r). change ([b; c; d] ++ p) with (b :: [c; d] ++ p).
  pose proof (mpi_minimal_bounds b (c :: d :: p) Hp Hm) as [Lm _].
  assert (0 < 2 ^ (8 * zlen (c :: d :: p)))
    by (apply Z.pow_pos_nonneg; [lia|]; pose proof (zlen_nonneg (c :: d :: p)); lia).
  pose proof (mpi_value_sign b (c :: d :: p) Hp Hm) as Sg.
  change (c :: d :: p) with ([c; d] ++ p) in *. cbn [mpi_value] in *.
  inversion_clear Hf as [|? ? Hb Hcd]. unfold in_u in Hb. change (2 ^ 8) with 256 in Hb.
  pose proof (be_val_range _ Hcd) as Rcd. rewrite (zlen_app [c; d]) in *.
  destruct (b <? 128) eqn:E; zbool;
    rewrite !app_comm_cons in *; rewrite !be_val_app, Lr, Hr in *; rewrite be_val_cons in *.
  - set (w := b * _ + _) in *. assert (0 <= w) by (unfold w; nia).
    rewrite Z.sgn_pos by lia. rewrite Z.abs_eq by nia.
    rewrite Z.div_add_l, Z.div_small by lia. lia.
  - set (w := (b - 128) * _ + _) in *. assert (0 <= w) by (unfold w; nia).
    rewrite Z.sgn_neg by lia. rewrite Z.abs_opp, Z.abs_eq by nia.
    rewrite Z.div_add_l, Z.div_small by lia. lia.
Qed.

Lemma SetCompact_GetCompact z :
  bn_fits z -> mpi_length z < 256 ->
  let u := 2 ^ (8 * Z.max 0 (mpi_length z - 3)) in
  SetCompact (GetCompact z) = Z.sgn z * (Z.abs z / u * u).
Proof.
  intros Hz Hl. destruct (bn2mpi_parts z Hz) as (p & E & Hp & Hv & Hm & _).
  pose proof (mpi_minimal_length p Hp Hm) as L. rewrite Hv in L. rewrite <- L in *.
  rewrite (GetCompact_payload z p E Hp Hl).
  rewrite SetCompact_payload by (auto using top3_range; pose proof (zlen_nonneg p); lia).
  rewrite top3_bytes by easy. rewrite mpi_value_cut by easy. now rewrite Hv.
Qed.

End Payload.
End CBigNum.

(** An implementation of the documented format, for concrete runs. *)
Module Reference.

(** Big-endian bytes of [z >= 0], with room for the sign bit. *)
Definition payload (z : Z) : list Z :=
  if z =? 0 then []
  else
    let n := Z.to_nat (CBigNum.mpi_length z) in
    match rev (le_bytes n (Z.abs z)) with
    | [] => []
    | b :: t => (if z <? 0 then b + 128 else b) :: t
    end.

#[export] Instance openssl : OpenSSL_BN := {
  BN_mpi2bn m := mpi_value (skipn 4 m);
  BN_bn2mpi z := be4 (zlen (payload z)) ++ payload z
}.

Example compact_difficulty_1 :
  CBigNum.SetCompact 486604799 = 65535 * 2 ^ 208 /\
  CBigNum.GetCompact (65535 * 2 ^ 208) = 486604799 /\
  CBigNum.setint64 (-9223372036854775808) = -9223372036854775808 /\
  CBigNum.getvch (-255) = [255; 128].
Proof. repeat split; vm_compute; reflexivity. Qed.

Lemma payload_spec z : CBigNum.mpi_length z < 2 ^ 31 ->
  zlen (payload z) < 2 ^ 31 /\ bytes_ok (payload z) /\ mpi_value (payload z) = z /\
  mpi_minimal (payload z).
Proof.
  intros Hl. unfold payload. destruct (z =? 0) eqn:E; zbool.
  { subst z. splits; [reflexivity|constructor|easy|easy]. }
  unfold CBigNum.mpi_length in *. rewrite (proj2 (Z.eqb_neq z 0)) in * by easy.
  pose proof (Z.log2_nonneg (Z.abs z)) as N. set (q := (Z.log2 (Z.abs z) + 1) / 8) in *.
  assert (8 * q <= Z.log2 (Z.abs z) + 1 < 8 * q + 8) as Q.
  { pose proof (Z.div_mod (Z.log2 (Z.abs z) + 1) 8 ltac:(lia)).
    pose proof (Z.mod_pos_bound (Z.log2 (Z.abs z) + 1) 8 ltac:(lia)). unfold q. lia. }
  assert (0 <= q) by (unfold q; apply Z.div_pos; lia).
  replace (Z.to_nat (q + 1)) with (S (Z.to_nat q)) by lia.
  rewrite le_bytes_S, rev_app_distr. cbn [rev app].
  pose proof (le_bytes_ok (Z.to_nat q) (Z.abs z)) as Hb.
  assert (zlen (rev (le_bytes (Z.to_nat q) (Z.abs z))) = q) as Lt
      by (unfold zlen; rewrite length_rev, length_le_bytes; lia).
  assert (be_val (rev (le_bytes (Z.to_nat q) (Z.abs z))) = Z.abs z mod 2 ^ (8 * q)) as Vt.
  { unfold be_val. rewrite rev_involutive, le_val_bytes. do 2 f_equal. lia. }
  apply Forall_rev in Hb. set (t := rev (le_bytes _ _)) in *. clearbody t.
  replace (8 * Z.of_nat (Z.to_nat q)) with (8 * q) by lia.
  destruct (Z.log2_spec (Z.abs z) ltac:(lia)) as [L1 L2].
  assert (Z.abs z < 2 ^ (8 * q + 7)) as U
      by (eapply Z.lt_le_trans; [apply L2|]; apply Z.pow_le_mono_r; lia).
  assert (0 < 2 ^ (8 * q)) by (apply Z.pow_pos_nonneg; lia).
  rewrite Z.pow_add_r in U by lia. change (2 ^ 7) with 128 in U.
  assert (0 <= Z.abs z / 2 ^ (8 * q) < 128) as D
      by (split; [apply Z.div_pos; lia|apply Z.div_lt_upper_bound; lia]).
  rewrite (Z.mod_small _ 256) by lia.
  pose proof (Z.div_mod (Z.abs z) (2 ^ (8 * q)) ltac:(lia)) as DM.
  set (b := Z.abs z / 2 ^ (8 * q)) in *.
  splits.
  - rewrite zlen_cons. lia.
  - constructor; [|easy]. unfold in_u. destruct (z <? 0); lia.
  - cbn [mpi_value]. destruct (z <? 0) eqn:S; zbool.
    + rewrite (proj2 (Z.ltb_ge _ _)), be_val_cons, Lt, Vt by lia. lia.
    + rewrite (proj2 (Z.ltb_lt _ _)), be_val_cons, Lt, Vt by lia. lia.
  - cbn [mpi_minimal]. destruct (Z.eq_dec b 0) as [B0|B0].
    + right. assert (0 < q) as Q0.
      { destruct (Z.eq_dec q 0) as [->|]; [|lia]. unfold b in B0. cbn in B0.
        rewrite Z.div_1_r in B0. lia. }
      destruct t as [|c t']; [rewrite zlen_nil in Lt; lia|]. exists c, t'. split; [easy|].
      inversion_clear Hb as [|? ? Hc Ht]. pose proof (be_val_range t' Ht) as R.
      rewrite be_val_cons in Vt. rewrite zlen_cons in Lt.
      assert (2 ^ (8 * q) = 2 ^ (8 * zlen t') * 256) as P
          by (change 256 with (2 ^ 8); rewrite <- Z.pow_add_r by (pose proof (zlen_nonneg t'); lia);
              f_equal; lia).
      assert (2 ^ (8 * q - 1) <= Z.abs z) as Lo
          by (eapply Z.le_trans; [|apply L1]; apply Z.pow_le_mono_r; lia).
      assert (2 ^ (8 * q) = 2 ^ (8 * q - 1) * 2) as P2
          by (rewrite <- (Z.pow_add_r 2 _ 1) by lia; f_equal; lia).
      nia.
    + left. destruct (z <? 0).
      * replace (b + 128) with (b + 1 * 128) by lia. rewrite Z.mod_add, Z.mod_small by lia. lia.
      * rewrite Z.mod_small by lia. lia.
Qed.

#[export] Instance openssl_laws : OpenSSL_BN_laws.
Proof.
  constructor.
  - intros p Hp Hl. easy.
  - intros z Hz. exists (payload z). destruct (payload_spec z) as (H1 & H2 & H3 & H4); [|easy].
    unfold bn_fits in Hz. unfold CBigNum.mpi_length. destruct (z =? 0); [easy|].
    pose proof (Z.log2_nonneg (Z.abs z)).
    assert ((Z.log2 (Z.abs z) + 1) / 8 < 2 ^ 31 - 1); [|lia].
    apply Z.div_lt_upper_bound; lia.
Qed.

End Reference.

Module BigNumClaims.
Import CBigNum.
Section Claims.
Context `{HB : OpenSSL_BN} `{HL : !OpenSSL_BN_laws}.

(** The integer constructors of [CBigNum] are exact on their whole range, the most
    negative 64-bit value and the full 256-bit range included, and [getuint64] and
    [getuint256] return the magnitude modulo the width. *)
Theorem integer_conversions_exact :
  (forall n, in_s 64 n -> setint64 n = n) /\
  (forall n, in_u 64 n -> setuint64 n = n) /\
  (forall n, bytes_ok n -> List.length n = 32%nat ->
     setuint256 n = le_val n /\ getuint256 (setuint256 n) = n) /\
  (forall z, bn_fits z -> getuint64 z = Z.abs z mod 2 ^ 64 /\
     le_val (getuint256 z) = Z.abs z mod 2 ^ 256).
Proof.
  splits; auto using setint64_value, setuint64_value.
  - intros n Hn L. rewrite setuint256_value by easy. split; [easy|].
    pose proof (le_val_range n Hn) as R. rewrite L in R.
    destruct (getuint256_value (le_val n)) as (V & L' & B).
    { unfold bn_fits. rewrite Z.abs_eq by lia.
      destruct (Z.eq_dec (le_val n) 0) as [->|]; [easy|].
      assert (Z.log2 (le_val n) < 256) by (apply Z.log2_lt_pow2; lia). lia. }
    rewrite Z.abs_eq, Z.mod_small in V by lia.
    pose proof (le_bytes_val _ B) as E1. pose proof (le_bytes_val _ Hn) as E2.
    rewrite L' in E1. rewrite L in E2. congruence.
  - intros z Hz. split; [now apply getuint64_value|]. now apply getuint256_value.
Qed.

(** A number encoded as a vector decodes to itself, in the shortest length that holds
    it with a sign bit, and every vector that wastes no byte is the encoding of its
    number. *)
Theorem vch_roundtrip :
  (forall z, bn_fits z -> setvch (getvch z) = z /\ zlen (getvch z) = mpi_length z) /\
  (forall v, bytes_ok v -> zlen v < 2 ^ 28 -> mpi_minimal (rev v) -> bn_fits (setvch v) ->
     getvch (setvch v) = v).
Proof.
  split; [|exact getvch_setvch]. intros z Hz. auto using setvch_getvch, getvch_length.
Qed.

(** Packing a target into the 32-bit compact form and unpacking it rounds its magnitude
    down to three significant bytes and keeps its sign: the result is the largest multiple
    of the unit [256^(size-3)] not above it, exact below four bytes. *)
Theorem compact_rounds_down z :
  bn_fits z -> mpi_length z < 256 ->
  let u := 2 ^ (8 * Z.max 0 (mpi_length z - 3)) in
  SetCompact (GetCompact z) = Z.sgn z * (Z.abs z / u * u) /\
  Z.abs z - u < Z.abs (SetCompact (GetCompact z)) <= Z.abs z.
Proof.
  intros Hz Hl u. pose proof (SetCompact_GetCompact z Hz Hl) as E. cbv zeta in E. fold u in E.
  split; [easy|]. rewrite E.
  assert (0 < u) by (apply Z.pow_pos_nonneg; lia).
  pose proof (Z.div_mod (Z.abs z) u ltac:(lia)). pose proof (Z.mod_pos_bound (Z.abs z) u ltac:(lia)).
  assert (0 <= Z.abs z / u) by (apply Z.div_pos; lia).
  rewrite Z.abs_mul, (Z.abs_eq (Z.abs z / u * u)) by nia.
  destruct (Z.lt_total z 0) as [L|[->|L]].
  - rewrite Z.sgn_neg by lia. change (Z.abs (-1)) with 1. lia.
  - cbn [Z.sgn Z.abs]. lia.
  - rewrite Z.sgn_pos by lia. change (Z.abs 1) with 1. lia.
Qed.
End Claims.

Lemma integer_conversions_exact_witness :
  @setint64 Reference.openssl (-9223372036854775808) = -9223372036854775808.
Proof.
  refine (proj1 (@integer_conversions_exact Reference.openssl Reference.openssl_laws) _ _).
  unfold in_s. lia.
Defined.

Lemma vch_roundtrip_witness :
  @setvch Reference.openssl (@getvch Reference.openssl (-128)) = -128 /\
  zlen (@getvch Reference.openssl (-128)) = mpi_length (-128).
Proof.
  refine (proj1 (@vch_roundtrip Reference.openssl Reference.openssl_laws) _ _).
  reflexivity.
Defined.

Lemma compact_rounds_down_witness :
  let z := 305419896 in
  let u := 2 ^ (8 * Z.max 0 (mpi_length z - 3)) in
  @SetCompact Reference.openssl (@GetCompact Reference.openssl z) = Z.sgn z * (Z.abs z / u * u) /\
  Z.abs z - u < Z.abs (@SetCompact Reference.openssl (@GetCompact Reference.openssl z)) <= Z.abs z.
Proof.
  refine (@compact_rounds_down Reference.openssl Reference.openssl_laws 305419896 _ _); reflexivity.
Defined.

End BigNumClaims.
