(* ===== verification/UInt256.v ===== *)
(** * Fixed-width integers (src/src/uint256.h)

    [base_uint<BITS>]: an array of [WIDTH = BITS/32] limbs of 32 bits, least
    significant first, with the operators block targets and trust scores are
    computed with.  [val] is the abstraction: the operators refine arithmetic
    modulo [2^BITS]. *)

From Stdlib Require Import ZArith Lia List String Bool.
From S2P Require Import Prelude.
Import ListNotations.
#[local] Open Scope Z_scope.

Module BaseUint.

Abbreviation base_uint := (list Z).

(** [pn[i] = x]; the loops below stay inside the array. *)
Definition upd (l : base_uint) (i : nat) (x : Z) : base_uint :=
  firstn i l ++ match skipn i l with [] => [] | _ :: t => x :: t end.

(** ** Operators *)

Definition is_zero (a : base_uint) : bool := forallb (fun x => x =? 0) a.

Definition bnot (a : base_uint) : base_uint := map (fun x => u32 (Z.lnot x)) a.

(** [operator++]: [while (++pn[i] == 0 && i < WIDTH-1) i++]. *)
Fixpoint inc (a : base_uint) : base_uint :=
  match a with
  | [] => []
  | x :: t =>
      let x' := u32 (x + 1) in
      if (x' =? 0) && negb (match t with [] => true | _ => false end)
      then x' :: inc t else x' :: t
  end.

(** [operator--]: [while (--pn[i] == -1 && i < WIDTH-1) i++], the [-1]
    converted to [uint32_t]. *)
Fixpoint dec (a : base_uint) : base_uint :=
  match a with
  | [] => []
  | x :: t =>
      let x' := u32 (x - 1) in
      if (x' =? 4294967295) && negb (match t with [] => true | _ => false end)
      then x' :: dec t else x' :: t
  end.

(** Unary [operator-]. *)
Definition neg (a : base_uint) : base_uint := inc (bnot a).

(** [operator=(uint64_t)] on an object of [W] limbs. *)
Definition of_u64 (W : nat) (b : Z) : base_uint :=
  u32 b :: u32 (Z.shiftr b 32) :: repeat 0 (W - 2).

Definition bxor (a b : base_uint) : base_uint := map (fun '(x, y) => Z.lxor x y) (combine a b).
Definition band (a b : base_uint) : base_uint := map (fun '(x, y) => Z.land x y) (combine a b).
Definition bor (a b : base_uint) : base_uint := map (fun '(x, y) => Z.lor x y) (combine a b).

(** [operator+=] *)
Fixpoint add_loop (carry : Z) (a b : base_uint) : base_uint :=
  match a, b with
  | x :: a, y :: b =>
      let n := u64 (carry + x + y) in
      Z.land n 4294967295 :: add_loop (Z.shiftr n 32) a b
  | _, _ => []
  end.

Definition add (a b : base_uint) : base_uint := add_loop 0 a b.
Definition sub (a b : base_uint) : base_uint := add a (neg b).
Definition add64 (a : base_uint) (b64 : Z) : base_uint := add a (of_u64 (List.length a) b64).
Definition sub64 (a : base_uint) (b64 : Z) : base_uint := add a (neg (of_u64 (List.length a) b64)).

(** One round of the loop of [operator<<=]. *)
Definition shl_step (W k : nat) (s : Z) (a p : base_uint) (i : nat) : base_uint :=
  let p := if (i + k + 1 <? W)%nat && negb (s =? 0)
           then upd p (i + k + 1) (Z.lor (nth (i + k + 1) p 0) (Z.shiftr (nth i a 0) (32 - s)))
           else p in
  if (i + k <? W)%nat
  then upd p (i + k) (Z.lor (nth (i + k) p 0) (u32 (Z.shiftl (nth i a 0) s)))
  else p.

Definition shl (a : base_uint) (shift : Z) : base_uint :=
  let W := List.length a in
  let k := Z.to_nat (shift / 32) in
  let s := shift mod 32 in
  fold_left (shl_step W k s a) (seq 0 W) (repeat 0 W).

(** One round of the loop of [operator>>=]. *)
Definition shr_step (k : nat) (s : Z) (a p : base_uint) (i : nat) : base_uint :=
  let p := if (k + 1 <=? i)%nat && negb (s =? 0)
           then upd p (i - k - 1) (Z.lor (nth (i - k - 1) p 0) (u32 (Z.shiftl (nth i a 0) (32 - s))))
           else p in
  if (k <=? i)%nat
  then upd p (i - k) (Z.lor (nth (i - k) p 0) (Z.shiftr (nth i a 0) s))
  else p.

Definition shr (a : base_uint) (shift : Z) : base_uint :=
  let W := List.length a in
  let k := Z.to_nat (shift / 32) in
  let s := shift mod 32 in
  fold_left (shr_step k s a) (seq 0 W) (repeat 0 W).

(** The comparison loops run from the last limb down: on reversed lists. *)
Fixpoint cmp_loop (lt gt eq : bool) (a b : list Z) : bool :=
  match a, b with
  | x :: a, y :: b => if x <? y then lt else if y <? x then gt else cmp_loop lt gt eq a b
  | _, _ => eq
  end.

Definition ltb (a b : base_uint) : bool := cmp_loop true false false (rev a) (rev b).
Definition leb (a b : base_uint) : bool := cmp_loop true false true (rev a) (rev b).
Definition gtb (a b : base_uint) : bool := cmp_loop false true false (rev a) (rev b).
Definition geb (a b : base_uint) : bool := cmp_loop false true true (rev a) (rev b).

Fixpoint eqb (a b : base_uint) : bool :=
  match a, b with
  | x :: a, y :: b => if negb (x =? y) then false else eqb a b
  | _, _ => true
  end.

(** [operator==(const base_uint&, uint64_t)] *)
Definition eqb64 (a : base_uint) (b : Z) : bool :=
  if negb (nth 0 a 0 =? u32 b) then false
  else if negb (nth 1 a 0 =? u32 (Z.shiftr b 32)) then false
  else forallb (fun x => x =? 0) (skipn 2 a).

Definition Get64 (a : base_uint) (n : nat) : Z :=
  Z.lor (nth (2 * n) a 0) (u64 (Z.shiftl (nth (2 * n + 1) a 0) 32)).

(** ** Hexadecimal *)

(** The memory image of the array. *)
Definition image (a : base_uint) : list Z := flat_map (le_bytes 4) a.

Fixpoint of_image (W : nat) (l : list Z) : base_uint :=
  match W with
  | O => []
  | S W => le_val (firstn 4 l) :: of_image W (skipn 4 l)
  end.

(** The characters of [sprintf("%02x")]. *)
Definition hexchar (d : Z) : Z := if d <? 10 then 48 + d else 87 + d.

Definition GetHex (a : base_uint) : list Z :=
  flat_map (fun b => [hexchar (b / 16); hexchar (b mod 16)]) (rev (image a)).

Definition isspace (c : Z) : bool := (c =? 32) || ((9 <=? c) && (c <=? 13)).

(** The table [phexdigit]. *)
Definition phexdigit (c : Z) : Z :=
  if (48 <=? c) && (c <=? 57) then c - 48
  else if (65 <=? c) && (c <=? 70) then c - 55
  else if (97 <=? c) && (c <=? 102) then c - 87
  else 0.

Fixpoint skip_spaces (s : list Z) : list Z :=
  match s with
  | c :: t => if isspace c then skip_spaces t else s
  | [] => []
  end.

(** [psz[0] == '0' && tolower(psz[1]) == 'x'] *)
Definition skip_0x (s : list Z) : list Z :=
  match s with
  | 48 :: c :: t => if (c =? 120) || (c =? 88) then t else s
  | _ => s
  end.

(** The digits the scan [while (phexdigit[*psz] || *psz == '0') psz++] passes. *)
Fixpoint hex_run (s : list Z) : list Z :=
  match s with
  | c :: t => if negb (phexdigit c =? 0) || (c =? 48) then c :: hex_run t else []
  | [] => []
  end.

(** The loop back from the last digit: two digits a byte, [room] bytes. *)
Fixpoint hex_bytes (room : nat) (ds : list Z) : list Z :=
  match room, ds with
  | S room, d :: e :: ds => Z.lor (phexdigit d) (u8 (Z.shiftl (phexdigit e) 4)) :: hex_bytes room ds
  | S _, [d] => [phexdigit d]
  | _, _ => []
  end.

Definition SetHex (W : nat) (s : list Z) : base_uint :=
  let ds := rev (hex_run (skip_0x (skip_spaces s))) in
  let bs := hex_bytes (W * 4) ds in
  of_image W (bs ++ repeat 0 (W * 4 - List.length bs)).

(** ** The value of an array *)

Definition limbs_ok (a : base_uint) : Prop := Forall (in_u 32) a.

Fixpoint val (a : base_uint) : Z :=
  match a with
  | [] => 0
  | x :: t => x + 2 ^ 32 * val t
  end.

Definition bits (a : base_uint) : Z := 32 * zlen a.

Lemma bits_cons x a : bits (x :: a) = 32 + bits a.
Proof. unfold bits. rewrite zlen_cons. lia. Qed.

Lemma bits_nonneg a : 0 <= bits a.
Proof. unfold bits. pose proof (zlen_nonneg a). lia. Qed.

Lemma pow_bits_nil : 2 ^ bits [] = 1.
Proof. reflexivity. Qed.

Lemma pow_bits_cons x a : 2 ^ bits (x :: a) = 2 ^ 32 * 2 ^ bits a.
Proof. rewrite bits_cons. apply Z.pow_add_r; [lia|apply bits_nonneg]. Qed.

Lemma pow_bits_pos a : 0 < 2 ^ bits a.
Proof. apply Z.pow_pos_nonneg; [lia|apply bits_nonneg]. Qed.

Lemma val_range a : limbs_ok a -> 0 <= val a < 2 ^ bits a.
Proof.
  induction 1 as [|x a Hx Ha IH]; [rewrite pow_bits_nil; cbn; lia|].
  unfold in_u in Hx. cbn [val]. rewrite pow_bits_cons. lia.
Qed.

Lemma val_inj a b : limbs_ok a -> limbs_ok b -> List.length a = List.length b ->
  val a = val b -> a = b.
Proof.
  intros Ha. revert b. induction Ha as [|x a Hx Ha IH]; intros [|y b] Hb L E; try easy.
  inversion_clear Hb. cbn [val List.length] in *. unfold in_u in *.
  assert (x = y /\ val a = val b) as [-> V] by lia.
  f_equal. apply IH; auto.
Qed.

(** ** Arithmetic refines arithmetic modulo [2^bits] *)

Lemma land_u32 n : Z.land n 4294967295 = n mod 2 ^ 32.
Proof. exact (land_low 32 n ltac:(lia)). Qed.

Lemma add_loop_val a : forall b c,
  limbs_ok a -> limbs_ok b -> List.length a = List.length b -> 0 <= c <= 1 ->
  limbs_ok (add_loop c a b) /\ List.length (add_loop c a b) = List.length a /\
  val (add_loop c a b) = (val a + val b + c) mod 2 ^ bits a.
Proof.
  induction a as [|x a IH]; intros [|y b] c Ha Hb L Hc; try easy.
  { rewrite pow_bits_nil, Z.mod_1_r. repeat split. constructor. }
  inversion_clear Ha as [|? ? Hx Ha']. inversion_clear Hb as [|? ? Hy Hb'].
  unfold in_u in Hx, Hy. cbn [add_loop List.length] in *.
  rewrite (wrapu_id 64) by (unfold in_u; lia).
  rewrite land_u32, Z.shiftr_div_pow2 by lia. set (n := c + x + y).
  assert (0 <= n / 2 ^ 32 < 2) as Hq
      by (split; [apply Z.div_pos; lia|apply Z.div_lt_upper_bound; lia]).
  destruct (IH b (n / 2 ^ 32)) as (H1 & H2 & H3); auto; [lia|].
  splits.
  - constructor; [unfold in_u; apply Z.mod_pos_bound; lia|easy].
  - lia.
  - cbn [val]. rewrite H3, pow_bits_cons.
    rewrite Z.rem_mul_r by (pose proof (pow_bits_pos a); lia).
    replace (x + 2 ^ 32 * val a + (y + 2 ^ 32 * val b) + c)
      with (n + (val a + val b) * 2 ^ 32) by (unfold n; lia).
    rewrite Z.mod_add, Z.div_add by lia. do 3 f_equal. lia.
Qed.

Lemma bnot_val a : limbs_ok a ->
  limbs_ok (bnot a) /\ val (bnot a) = 2 ^ bits a - 1 - val a.
Proof.
  induction 1 as [|x a Hx Ha [IH1 IH2]]; [split; [constructor|easy]|].
  unfold in_u in Hx. cbn [bnot map val]. fold (bnot a).
  assert (u32 (Z.lnot x) = 2 ^ 32 - 1 - x) as ->.
  { unfold wrapu, Z.lnot. symmetry. apply (Z.mod_unique_pos _ _ (-1)); lia. }
  split; [constructor; [unfold in_u; lia|easy]|]. rewrite IH2, pow_bits_cons. lia.
Qed.

Lemma inc_val a : limbs_ok a ->
  limbs_ok (inc a) /\ List.length (inc a) = List.length a /\ val (inc a) = (val a + 1) mod 2 ^ bits a.
Proof.
  induction 1 as [|x a Hx Ha (IH1 & IH2 & IH3)]; [rewrite pow_bits_nil, Z.mod_1_r; repeat split; constructor|].
  unfold in_u in Hx. cbn [inc]. rewrite pow_bits_cons.
  pose proof (val_range a Ha) as R. pose proof (pow_bits_pos a).
  assert (u32 (x + 1) = if x =? 2 ^ 32 - 1 then 0 else x + 1) as ->.
  { unfold wrapu. destruct (x =? 2 ^ 32 - 1) eqn:E; zbool.
    - subst x. reflexivity.
    - now apply Z.mod_small; lia. }
  destruct (x =? 2 ^ 32 - 1) eqn:E; zbool; cbn [andb Z.eqb]; [destruct a as [|y a']|].
  - cbn. subst x. repeat split. constructor; [unfold in_u; lia|constructor].
  - cbn [negb]. set (a := y :: a') in *. splits.
    + constructor; [unfold in_u; lia|easy].
    + cbn [List.length]. lia.
    + cbn [val]. rewrite IH3. subst x.
      replace (2 ^ 32 - 1 + 2 ^ 32 * val a + 1) with (2 ^ 32 * (val a + 1)) by lia.
      rewrite Z.mul_mod_distr_l by lia. lia.
  - rewrite (proj2 (Z.eqb_neq _ _)) by lia. cbn [andb]. splits.
    + constructor; [unfold in_u; lia|easy].
    + easy.
    + cbn [val]. rewrite Z.mod_small by nia. lia.
Qed.

Lemma dec_val a : limbs_ok a ->
  limbs_ok (dec a) /\ List.length (dec a) = List.length a /\ val (dec a) = (val a - 1) mod 2 ^ bits a.
Proof.
  induction 1 as [|x a Hx Ha (IH1 & IH2 & IH3)]; [rewrite pow_bits_nil, Z.mod_1_r; repeat split; constructor|].
  unfold in_u in Hx. cbn [dec]. rewrite pow_bits_cons.
  pose proof (val_range a Ha) as R. pose proof (pow_bits_pos a).
  assert (u32 (x - 1) = if x =? 0 then 2 ^ 32 - 1 else x - 1) as ->.
  { unfold wrapu. destruct (x =? 0) eqn:E; zbool.
    - subst x. reflexivity.
    - now apply Z.mod_small; lia. }
  destruct (x =? 0) eqn:E; zbool; [destruct a as [|y a']|].
  - cbn. subst x. repeat split. constructor; [unfold in_u; lia|constructor].
  - change (2 ^ 32 - 1 =? 4294967295) with true. cbn [negb andb]. set (a := y :: a') in *. splits.
    + constructor; [unfold in_u; lia|easy].
    + cbn [List.length]. lia.
    + cbn [val]. rewrite IH3. subst x.
      replace (0 + 2 ^ 32 * val a - 1) with (2 ^ 32 - 1 + 2 ^ 32 * (val a - 1)) by lia.
      rewrite (Z.rem_mul_r _ (2 ^ 32)) by lia.
      rewrite (Z.mul_comm (2 ^ 32) (val a - 1)), Z.mod_add, Z.div_add by lia. easy.
  - rewrite (proj2 (Z.eqb_neq _ _)) by lia. cbn [andb]. splits.
    + constructor; [unfold in_u; lia|easy].
    + easy.
    + cbn [val]. rewrite Z.mod_small by nia. lia.
Qed.

Lemma length_bnot a : List.length (bnot a) = List.length a.
Proof. apply length_map. Qed.

Lemma bits_length a b : List.length a = List.length b -> bits a = bits b.
Proof. unfold bits, zlen. intros ->. easy. Qed.

Lemma neg_val a : limbs_ok a ->
  limbs_ok (neg a) /\ List.length (neg a) = List.length a /\ val (neg a) = (- val a) mod 2 ^ bits a.
Proof.
  intros Ha. destruct (bnot_val a Ha) as [H1 H2]. destruct (inc_val _ H1) as (H3 & H4 & H5).
  unfold neg. splits; auto; [now rewrite H4, length_bnot|].
  rewrite H5, H2, (bits_length (bnot a) a) by apply length_bnot.
  replace (2 ^ bits a - 1 - val a + 1) with (- val a + 1 * 2 ^ bits a) by lia.
  apply Z.mod_add. pose proof (pow_bits_pos a). lia.
Qed.

Lemma add_val a b : limbs_ok a -> limbs_ok b -> List.length a = List.length b ->
  limbs_ok (add a b) /\ List.length (add a b) = List.length a /\
  val (add a b) = (val a + val b) mod 2 ^ bits a.
Proof.
  intros. destruct (add_loop_val a b 0) as (H2 & H3 & H4); auto; [lia|].
  unfold add. rewrite H4, Z.add_0_r. auto.
Qed.

Lemma sub_val a b : limbs_ok a -> limbs_ok b -> List.length a = List.length b ->
  limbs_ok (sub a b) /\ List.length (sub a b) = List.length a /\
  val (sub a b) = (val a - val b) mod 2 ^ bits a.
Proof.
  intros Ha Hb L. destruct (neg_val b Hb) as (H1 & H2 & H3).
  destruct (add_val a (neg b)) as (H4 & H5 & H6); auto; [congruence|].
  unfold sub. splits; auto. rewrite H6, H3, (bits_length b a) by easy.
  pose proof (pow_bits_pos a). rewrite Z.add_mod_idemp_r by lia. f_equal.
Qed.

Lemma of_u64_val W b : (2 <= W)%nat -> in_u 64 b ->
  limbs_ok (of_u64 W b) /\ List.length (of_u64 W b) = W /\ val (of_u64 W b) = b.
Proof.
  unfold in_u. intros HW Hb. unfold of_u64.
  assert (forall n, limbs_ok (repeat 0 n) /\ val (repeat 0 n) = 0) as Z0.
  { induction n as [|n [I1 I2]]; cbn [repeat val]; [split; [constructor|easy]|].
    split; [constructor; [unfold in_u; lia|easy]|lia]. }
  rewrite Z.shiftr_div_pow2 by lia.
  assert (b / 2 ^ 32 < 2 ^ 32) by (apply Z.div_lt_upper_bound; lia).
  assert (0 <= b / 2 ^ 32) by (apply Z.div_pos; lia).
  rewrite (wrapu_id 32 (b / 2 ^ 32)) by (unfold in_u; lia). splits.
  - constructor; [apply wrapu_range; lia|]. constructor; [unfold in_u; lia|apply Z0].
  - cbn. rewrite repeat_length. lia.
  - cbn [val]. rewrite (proj2 (Z0 _)). unfold wrapu. pose proof (Z.div_mod b (2 ^ 32)). lia.
Qed.

(** ** Comparisons *)

Lemma val_app a b : val (a ++ b) = val a + 2 ^ bits a * val b.
Proof.
  induction a as [|x a IH]; cbn [app val]; [rewrite pow_bits_nil; lia|]. rewrite IH, pow_bits_cons. lia.
Qed.

Lemma cmp_loop_val lt gt eq a : forall b,
  limbs_ok a -> limbs_ok b -> List.length a = List.length b ->
  cmp_loop lt gt eq a b =
  match val (rev a) ?= val (rev b) with Lt => lt | Gt => gt | Eq => eq end.
Proof.
  induction a as [|x a IH]; intros [|y b] Ha Hb L; try easy.
  inversion_clear Ha as [|? ? Hx Ha']. inversion_clear Hb as [|? ? Hy Hb'].
  cbn [cmp_loop rev List.length] in *. rewrite !val_app. cbn [val]. rewrite !Z.mul_0_r, !Z.add_0_r.
  rewrite (bits_length (rev b) (rev a)) by (rewrite !length_rev; lia).
  pose proof (val_range (rev a) (Forall_rev Ha')) as Ra.
  pose proof (val_range (rev b) (Forall_rev Hb')) as Rb.
  rewrite (bits_length (rev b) (rev a)) in Rb by (rewrite !length_rev; lia).
  destruct (x <? y) eqn:E1; zbool.
  - rewrite (proj2 (Z.compare_lt_iff _ _)); [easy|nia].
  - destruct (y <? x) eqn:E2; zbool.
    + rewrite (proj2 (Z.compare_gt_iff _ _)); [easy|nia].
    + assert (x = y) as -> by lia. rewrite IH by auto.
      rewrite !(Z.add_comm _ (_ * y)), Z.add_compare_mono_l. easy.
Qed.

Lemma cmp_val lt gt eq a b :
  limbs_ok a -> limbs_ok b -> List.length a = List.length b ->
  cmp_loop lt gt eq (rev a) (rev b) =
  match val a ?= val b with Lt => lt | Gt => gt | Eq => eq end.
Proof.
  intros. rewrite cmp_loop_val, !rev_involutive; auto using Forall_rev.
  - now apply Forall_rev.
  - now apply Forall_rev.
  - now rewrite !length_rev.
Qed.

Lemma ltb_val a b : limbs_ok a -> limbs_ok b -> List.length a = List.length b ->
  ltb a b = (val a <? val b).
Proof. intros. unfold ltb. now rewrite cmp_val. Qed.

Lemma leb_val a b : limbs_ok a -> limbs_ok b -> List.length a = List.length b ->
  leb a b = (val a <=? val b).
Proof. intros. unfold leb. rewrite cmp_val by easy. unfold Z.leb. now destruct (_ ?= _). Qed.

Lemma gtb_val a b : limbs_ok a -> limbs_ok b -> List.length a = List.length b ->
  gtb a b = (val b <? val a).
Proof.
  intros. unfold gtb. rewrite cmp_val by easy. unfold Z.ltb. rewrite Z.compare_antisym.
  now destruct (_ ?= _).
Qed.

Lemma geb_val a b : limbs_ok a -> limbs_ok b -> List.length a = List.length b ->
  geb a b = (val b <=? val a).
Proof.
  intros. unfold geb. rewrite cmp_val by easy. unfold Z.leb. rewrite Z.compare_antisym.
  now destruct (_ ?= _).
Qed.

Lemma eqb_val a : forall b, limbs_ok a -> limbs_ok b -> List.length a = List.length b ->
  eqb a b = (val a =? val b).
Proof.
  induction a as [|x a IH]; intros [|y b] Ha Hb L; try easy.
  inversion_clear Ha as [|? ? Hx Ha']. inversion_clear Hb as [|? ? Hy Hb'].
  cbn [eqb val List.length] in *. unfold in_u in *.
  destruct (x =? y) eqn:E; zbool; cbn [negb].
  - subst y. rewrite IH by auto. destruct (val a =? val b) eqn:E2; zbool; symmetry.
    + apply Z.eqb_eq. lia.
    + apply Z.eqb_neq. lia.
  - symmetry. apply Z.eqb_neq. lia.
Qed.

(** ** Shifts *)

Lemma length_upd l i x : List.length (upd l i x) = List.length l.
Proof.
  unfold upd. rewrite length_app, length_firstn. pose proof (length_skipn i l) as L.
  destruct (skipn i l); cbn [List.length] in *; lia.
Qed.

Lemma nth_upd l i x j : (i < List.length l)%nat ->
  nth j (upd l i x) 0 = if (j =? i)%nat then x else nth j l 0.
Proof.
  intros Hi. unfold upd. pose proof (length_skipn i l) as L.
  assert (List.length (firstn i l) = i) as F by (rewrite length_firstn; lia).
  destruct (skipn i l) as [|y t] eqn:S; cbn [List.length] in L; [lia|].
  assert (nth j l 0 = nth j (firstn i l ++ y :: t) 0) as -> by (rewrite <- S, firstn_skipn; easy).
  destruct (Nat.eqb_spec j i) as [->|N].
  - rewrite app_nth2, F, Nat.sub_diag by lia. easy.
  - destruct (Nat.lt_ge_cases j i).
    + now rewrite !app_nth1 by lia.
    + rewrite !app_nth2, F by lia. destruct (j - i)%nat eqn:D; [lia|easy].
Qed.

Lemma nth_repeat0 n j : nth j (repeat 0 n) 0 = 0.
Proof. revert j. induction n; intros [|j]; cbn; auto. Qed.

Lemma limb_high x r : in_u 32 x -> 32 <= r -> Z.testbit x r = false.
Proof.
  intros Hx Hr. rewrite <- (Z.mod_small x (2 ^ 32)) by exact Hx.
  apply Z.mod_pow2_bits_high. lia.
Qed.

(** Bit [m] of the value is bit [m mod 32] of limb [m / 32]. *)
Lemma val_testbit a : limbs_ok a -> forall j r, 0 <= r < 32 ->
  Z.testbit (val a) (32 * Z.of_nat j + r) = Z.testbit (nth j a 0) r.
Proof.
  induction 1 as [|x a Hx Ha IH]; intros j r Hr.
  { cbn [val]. destruct j; now rewrite !Z.bits_0. }
  cbn [val]. rewrite Z.add_comm, Z.mul_comm.
  assert (Z.land (val a * 2 ^ 32) x = 0) as D.
  { apply Z.bits_inj'. intros i Hi. rewrite Z.land_spec, Z.bits_0.
    destruct (Z.lt_ge_cases i 32); [now rewrite Z.mul_pow2_bits_low by lia|].
    rewrite (limb_high x i) by easy. apply andb_false_r. }
  rewrite Z.add_nocarry_lxor, Z.lxor_lor, Z.lor_spec by easy.
  destruct j as [|j]; cbn [nth].
  - rewrite Z.mul_pow2_bits_low by lia. cbn [orb]. f_equal; lia.
  - rewrite (limb_high x) by (auto; lia). rewrite orb_false_r, Z.mul_pow2_bits by lia.
    rewrite <- IH by easy. f_equal. lia.
Qed.

Lemma nth_limbs_ok a j : limbs_ok a -> in_u 32 (nth j a 0).
Proof.
  intros Ha. destruct (nth_in_or_default j a 0) as [I| ->]; [|unfold in_u; lia].
  now apply (proj1 (Forall_forall _ _) Ha).
Qed.

(** An array is determined by its bits. *)
Lemma val_bits_eq a z : limbs_ok a -> 0 <= z < 2 ^ bits a ->
  (forall j r, (j < List.length a)%nat -> 0 <= r < 32 ->
     Z.testbit (nth j a 0) r = Z.testbit z (32 * Z.of_nat j + r)) -> val a = z.
Proof.
  intros Ha Hz H. apply Z.bits_inj'. intros m Hm.
  destruct (Z.lt_ge_cases m (bits a)) as [L|L].
  - pose proof (Z.div_mod m 32 ltac:(lia)) as DM. pose proof (Z.mod_pos_bound m 32 ltac:(lia)).
    assert (0 <= m / 32) by (apply Z.div_pos; lia).
    replace m with (32 * Z.of_nat (Z.to_nat (m / 32)) + m mod 32) by lia.
    rewrite val_testbit by easy. apply H; auto. unfold bits, zlen in L. lia.
  - pose proof (val_range a Ha) as R.
    rewrite <- (Z.mod_small z (2 ^ bits a)), <- (Z.mod_small (val a) (2 ^ bits a)) by easy.
    now rewrite !Z.mod_pow2_bits_high by (pose proof (bits_nonneg a); lia).
Qed.

Lemma shl_fold W k s a m : (m <= W)%nat ->
  let p := fold_left (shl_step W k s a) (seq 0 m) (repeat 0 W) in
  List.length p = W /\
  forall j, (j < W)%nat -> nth j p 0 =
    Z.lor (if (k <=? j)%nat && (j <? k + m)%nat then u32 (Z.shiftl (nth (j - k) a 0) s) else 0)
          (if negb (s =? 0) && (k + 1 <=? j)%nat && (j <? k + 1 + m)%nat
           then Z.shiftr (nth (j - k - 1) a 0) (32 - s) else 0).
Proof.
  induction m as [|m IH]; intros Hm p.
  - unfold p. cbn [seq fold_left]. split; [apply repeat_length|]. intros j Hj.
    rewrite nth_repeat0.
    destruct (Nat.leb_spec k j), (Nat.ltb_spec j (k + 0)), (Nat.leb_spec (k + 1) j),
      (Nat.ltb_spec j (k + 1 + 0)), (s =? 0); try lia; reflexivity.
  - destruct IH as [L N]; [lia|]. unfold p. rewrite seq_S, fold_left_app. cbn [fold_left Nat.add].
    clear p. set (q := fold_left (shl_step W k s a) (seq 0 m) (repeat 0 W)) in *.
    clearbody q. unfold shl_step. cbv zeta.
    set (q1 := if (m + k + 1 <? W)%nat && negb (s =? 0)
               then upd q (m + k + 1) (Z.lor (nth (m + k + 1) q 0) (Z.shiftr (nth m a 0) (32 - s)))
               else q).
    assert (List.length q1 = W /\ forall j, (j < W)%nat -> nth j q1 0 =
      if negb (s =? 0) && (j =? m + k + 1)%nat
      then Z.lor (nth j q 0) (Z.shiftr (nth m a 0) (32 - s)) else nth j q 0) as [L1 N1].
    { unfold q1. destruct (Nat.ltb_spec (m + k + 1) W), (negb (s =? 0)); cbn [andb];
        rewrite ?length_upd; (split; [easy|]); intros j Hj; try easy.
      - rewrite nth_upd by lia. now destruct (Nat.eqb_spec j (m + k + 1)) as [->|].
      - destruct (Nat.eqb_spec j (m + k + 1)); [lia|easy]. }
    clearbody q1.
    split; [destruct (_ <? _)%nat; now rewrite ?length_upd|]. intros j Hj.
    assert (nth j (if (m + k <? W)%nat then upd q1 (m + k)
        (Z.lor (nth (m + k) q1 0) (u32 (Z.shiftl (nth m a 0) s))) else q1) 0 =
      if (j =? m + k)%nat then Z.lor (nth j q1 0) (u32 (Z.shiftl (nth m a 0) s)) else nth j q1 0) as ->.
    { destruct (Nat.ltb_spec (m + k) W).
      - rewrite nth_upd by lia. now destruct (Nat.eqb_spec j (m + k)) as [->|].
      - destruct (Nat.eqb_spec j (m + k)); [lia|easy]. }
    rewrite N1, N by lia.
    destruct (Nat.eqb_spec j (m + k)) as [->|J1].
    + rewrite !(proj2 (Nat.leb_le _ _)), (proj2 (Nat.ltb_ge (m + k) (k + m))),
        (proj2 (Nat.ltb_lt (m + k) (k + S m))), (proj2 (Nat.eqb_neq (m + k) (m + k + 1))) by lia.
      replace (m + k - k)%nat with m by lia. rewrite andb_false_r. cbn [andb].
      rewrite Z.lor_0_l, Z.lor_comm. f_equal.
      destruct (Nat.ltb_spec (m + k) (k + 1 + m)), (Nat.ltb_spec (m + k) (k + 1 + S m)); try lia; easy.
    + destruct (Nat.eqb_spec j (m + k + 1)) as [->|J2].
      * rewrite (proj2 (Nat.leb_le (k + 1) _)), (proj2 (Nat.ltb_ge (m + k + 1) (k + m))),
          (proj2 (Nat.ltb_ge (m + k + 1) (k + S m))), (proj2 (Nat.ltb_ge (m + k + 1) (k + 1 + m))),
          (proj2 (Nat.ltb_lt (m + k + 1) (k + 1 + S m))) by lia.
        replace (m + k + 1 - k - 1)%nat with m by lia.
        rewrite !andb_false_r, !andb_true_r. destruct (negb (s =? 0)); easy.
      * rewrite andb_false_r. f_equal.
        -- destruct (Nat.leb_spec k j), (Nat.ltb_spec j (k + m)), (Nat.ltb_spec j (k + S m)); try lia; easy.
        -- destruct (s =? 0), (Nat.leb_spec (k + 1) j), (Nat.ltb_spec j (k + 1 + m)),
             (Nat.ltb_spec j (k + 1 + S m)); try lia; easy.
Qed.

Lemma lor_in_u w a b : 0 <= w -> in_u w a -> in_u w b -> in_u w (Z.lor a b).
Proof.
  unfold in_u. intros Hw Ha Hb. assert (0 <= Z.lor a b) by (apply Z.lor_nonneg; lia).
  split; [easy|]. destruct (Z.eq_dec (Z.lor a b) 0) as [->|N]; [lia|].
  apply Z.log2_lt_pow2; [lia|]. rewrite Z.log2_lor by lia.
  assert (0 < w) by (destruct (Z.eq_dec w 0) as [->|]; [|lia]; exfalso; apply N;
    replace a with 0 by lia; replace b with 0 by lia; easy).
  assert (forall c, 0 <= c < 2 ^ w -> Z.log2 c < w).
  { intros c Hc. destruct (Z.eq_dec c 0) as [->|]; [cbn; lia|]. apply Z.log2_lt_pow2; lia. }
  apply Z.max_lub_lt; auto.
Qed.

Lemma shiftr_in_u w x n : 0 <= n -> in_u w x -> in_u w (Z.shiftr x n).
Proof.
  unfold in_u. intros Hn Hx. rewrite Z.shiftr_div_pow2 by lia.
  assert (0 < 2 ^ n) by (apply Z.pow_pos_nonneg; lia).
  split; [apply Z.div_pos; lia|]. apply Z.le_lt_trans with x; [|lia].
  apply Z.div_le_upper_bound; nia.
Qed.

Lemma limbs_ok_nth p : (forall j, (j < List.length p)%nat -> in_u 32 (nth j p 0)) -> limbs_ok p.
Proof.
  intros H. apply Forall_forall. intros x Hx.
  destruct (In_nth _ _ 0 Hx) as (j & Hj & <-). now apply H.
Qed.

Lemma shl_val a shift : limbs_ok a -> 0 <= shift ->
  limbs_ok (shl a shift) /\ List.length (shl a shift) = List.length a /\
  val (shl a shift) = (val a * 2 ^ shift) mod 2 ^ bits a.
Proof.
  intros Ha Hs. unfold shl.
  pose proof (Z.div_mod shift 32 ltac:(lia)) as DM. pose proof (Z.mod_pos_bound shift 32 ltac:(lia)) as MB.
  assert (0 <= shift / 32) by (apply Z.div_pos; lia).
  set (s := shift mod 32) in *. set (k := Z.to_nat (shift / 32)).
  destruct (shl_fold (List.length a) k s a (List.length a)) as [L N]; [lia|].
  set (p := fold_left _ _ _) in *. clearbody p.
  assert (limbs_ok p) as Hp.
  { apply limbs_ok_nth. intros j Hj. rewrite N by lia. apply lor_in_u; [lia| |].
    - destruct (_ && _); [apply wrapu_range; lia|unfold in_u; lia].
    - destruct (_ && _); [|unfold in_u; lia]. apply shiftr_in_u; [lia|]. now apply nth_limbs_ok. }
  splits; auto. rewrite <- (bits_length p a L).
  apply val_bits_eq; [easy|apply Z.mod_pos_bound, pow_bits_pos|].
  intros j r Hj Hr. rewrite L in Hj. rewrite N by easy.
  rewrite Z.mod_pow2_bits_low by (unfold bits, zlen; lia).
  rewrite Z.lor_spec, Z.mul_pow2_bits by lia.
  rewrite (proj2 (Nat.ltb_lt j (k + _))), (proj2 (Nat.ltb_lt j (k + 1 + _))), !andb_true_r by lia.
  assert (forall x, 0 <= r -> Z.testbit (u32 (Z.shiftl x s)) r = Z.testbit x (r - s)) as T1.
  { intros x _. unfold wrapu. rewrite Z.mod_pow2_bits_low, Z.shiftl_spec by lia. easy. }
  destruct (Z.lt_ge_cases r s) as [C|C].
  - (* the bit comes from the limb below *)
    rewrite (proj2 (Z.eqb_neq s 0)) by lia. cbn [negb andb].
    assert (Z.testbit (if (k <=? j)%nat then u32 (Z.shiftl (nth (j - k) a 0) s) else 0) r = false) as ->.
    { destruct (k <=? j)%nat; [|apply Z.bits_0]. rewrite T1 by lia. now apply Z.testbit_neg_r; lia. }
    cbn [orb]. destruct (Nat.leb_spec (k + 1) j) as [K|K].
    + rewrite Z.shiftr_spec by lia. rewrite <- val_testbit by (auto; lia). f_equal. lia.
    + rewrite Z.bits_0. symmetry. apply Z.testbit_neg_r. lia.
  - assert (Z.testbit (if negb (s =? 0) && (k + 1 <=? j)%nat
        then Z.shiftr (nth (j - k - 1) a 0) (32 - s) else 0) r = false) as ->.
    { destruct (_ && _); [|apply Z.bits_0]. rewrite Z.shiftr_spec by lia.
      apply limb_high; [now apply nth_limbs_ok|lia]. }
    rewrite orb_false_r. destruct (Nat.leb_spec k j) as [K|K].
    + rewrite T1 by lia. rewrite <- val_testbit by (auto; lia). f_equal. lia.
    + rewrite Z.bits_0. symmetry. apply Z.testbit_neg_r. lia.
Qed.

Lemma shr_fold W k s a m : (m <= W)%nat ->
  let p := fold_left (shr_step k s a) (seq 0 m) (repeat 0 W) in
  List.length p = W /\
  forall j, (j < W)%nat -> nth j p 0 =
    Z.lor (if (j + k <? m)%nat then Z.shiftr (nth (j + k) a 0) s else 0)
          (if negb (s =? 0) && (j + k + 1 <? m)%nat
           then u32 (Z.shiftl (nth (j + k + 1) a 0) (32 - s)) else 0).
Proof.
  induction m as [|m IH]; intros Hm p.
  - unfold p. cbn [seq fold_left]. split; [apply repeat_length|]. intros j Hj.
    rewrite nth_repeat0, !(proj2 (Nat.ltb_ge _ _)), andb_false_r by lia. easy.
  - destruct IH as [L N]; [lia|]. unfold p. rewrite seq_S, fold_left_app. cbn [fold_left Nat.add].
    clear p. set (q := fold_left (shr_step k s a) (seq 0 m) (repeat 0 W)) in *.
    clearbody q. unfold shr_step. cbv zeta.
    set (q1 := if (k + 1 <=? m)%nat && negb (s =? 0)
               then upd q (m - k - 1) (Z.lor (nth (m - k - 1) q 0) (u32 (Z.shiftl (nth m a 0) (32 - s))))
               else q).
    assert (List.length q1 = W /\ forall j, (j < W)%nat -> nth j q1 0 =
      if negb (s =? 0) && (j + k + 1 =? m)%nat
      then Z.lor (nth j q 0) (u32 (Z.shiftl (nth m a 0) (32 - s))) else nth j q 0) as [L1 N1].
    { unfold q1. destruct (Nat.leb_spec (k + 1) m), (negb (s =? 0)); cbn [andb];
        rewrite ?length_upd; (split; [easy|]); intros j Hj; try easy.
      - rewrite nth_upd by lia.
        destruct (Nat.eqb_spec j (m - k - 1)), (Nat.eqb_spec (j + k + 1) m); try lia; now subst.
      - destruct (Nat.eqb_spec (j + k + 1) m); [lia|easy]. }
    clearbody q1.
    split; [destruct (_ <=? _)%nat; now rewrite ?length_upd|]. intros j Hj.
    assert (nth j (if (k <=? m)%nat then upd q1 (m - k)
        (Z.lor (nth (m - k) q1 0) (Z.shiftr (nth m a 0) s)) else q1) 0 =
      if (j + k =? m)%nat then Z.lor (nth j q1 0) (Z.shiftr (nth m a 0) s) else nth j q1 0) as ->.
    { destruct (Nat.leb_spec k m).
      - rewrite nth_upd by lia.
        destruct (Nat.eqb_spec j (m - k)), (Nat.eqb_spec (j + k) m); try lia; now subst.
      - destruct (Nat.eqb_spec (j + k) m); [lia|easy]. }
    rewrite N1, N by lia.
    destruct (Nat.eqb_spec (j + k) m) as [<-|J1].
    + rewrite (proj2 (Nat.eqb_neq (j + k + 1) _)), (proj2 (Nat.ltb_ge (j + k) (j + k))),
        (proj2 (Nat.ltb_lt (j + k) (S _))), !(proj2 (Nat.ltb_ge (j + k + 1) _)) by lia.
      rewrite !andb_false_r, !Z.lor_0_l, Z.lor_0_r. easy.
    + destruct (Nat.eqb_spec (j + k + 1) m) as [<-|J2].
      * rewrite (proj2 (Nat.ltb_ge (j + k + 1) (j + k + 1))), (proj2 (Nat.ltb_lt (j + k + 1) (S _))),
          (proj2 (Nat.ltb_lt (j + k) (j + k + 1))), (proj2 (Nat.ltb_lt (j + k) (S _))) by lia.
        rewrite !andb_false_r, !andb_true_r, Z.lor_0_r. destruct (negb (s =? 0)); [easy|].
        now rewrite Z.lor_0_r.
      * rewrite andb_false_r. f_equal.
        -- destruct (Nat.ltb_spec (j + k) m), (Nat.ltb_spec (j + k) (S m)); try lia; easy.
        -- destruct (s =? 0), (Nat.ltb_spec (j + k + 1) m), (Nat.ltb_spec (j + k + 1) (S m)); try lia; easy.
Qed.

Lemma shr_val a shift : limbs_ok a -> 0 <= shift ->
  limbs_ok (shr a shift) /\ List.length (shr a shift) = List.length a /\
  val (shr a shift) = val a / 2 ^ shift.
Proof.
  intros Ha Hs. unfold shr.
  pose proof (Z.div_mod shift 32 ltac:(lia)) as DM. pose proof (Z.mod_pos_bound shift 32 ltac:(lia)) as MB.
  assert (0 <= shift / 32) by (apply Z.div_pos; lia).
  set (s := shift mod 32) in *. set (k := Z.to_nat (shift / 32)).
  destruct (shr_fold (List.length a) k s a (List.length a)) as [L N]; [lia|].
  set (p := fold_left _ _ _) in *. clearbody p.
  assert (limbs_ok p) as Hp.
  { apply limbs_ok_nth. intros j Hj. rewrite N by lia. apply lor_in_u; [lia| |].
    - destruct (_ <? _)%nat; [|unfold in_u; lia]. apply shiftr_in_u; [lia|]. now apply nth_limbs_ok.
    - destruct (_ && _); [apply wrapu_range; lia|unfold in_u; lia]. }
  pose proof (val_range a Ha) as R.
  splits; auto. rewrite <- Z.shiftr_div_pow2 by lia.
  apply val_bits_eq; [easy|rewrite (bits_length p a L)|].
  { pose proof (shiftr_in_u (bits a) (val a) shift Hs R). easy. }
  intros j r Hj Hr. rewrite L in Hj. rewrite N by easy.
  rewrite Z.lor_spec, Z.shiftr_spec by lia.
  assert (forall i, Z.testbit (if (i <? List.length a)%nat then Z.shiftr (nth i a 0) s else 0) r =
                    Z.testbit (nth i a 0) (r + s)) as T1.
  { intros i. destruct (Nat.ltb_spec i (List.length a)); [now rewrite Z.shiftr_spec by lia|].
    rewrite nth_overflow by lia. now rewrite !Z.bits_0. }
  assert (forall i, Z.testbit (if (i <? List.length a)%nat
      then u32 (Z.shiftl (nth i a 0) (32 - s)) else 0) r = Z.testbit (nth i a 0) (r - (32 - s))) as T2.
  { intros i. destruct (Nat.ltb_spec i (List.length a)).
    - unfold wrapu. now rewrite Z.mod_pow2_bits_low, Z.shiftl_spec by lia.
    - rewrite nth_overflow by lia. now rewrite !Z.bits_0. }
  rewrite T1. destruct (Z.lt_ge_cases (r + s) 32) as [C|C].
  - assert (Z.testbit (if negb (s =? 0) && (j + k + 1 <? List.length a)%nat
        then u32 (Z.shiftl (nth (j + k + 1) a 0) (32 - s)) else 0) r = false) as ->.
    { destruct (s =? 0); cbn [negb andb]; [apply Z.bits_0|]. rewrite T2. apply Z.testbit_neg_r. lia. }
    rewrite orb_false_r. rewrite <- val_testbit by (auto; lia). f_equal. lia.
  - rewrite (limb_high _ (r + s)) by (auto using nth_limbs_ok; lia).
    rewrite (proj2 (Z.eqb_neq s 0)) by lia. cbn [negb andb orb]. rewrite T2.
    rewrite <- val_testbit by (auto; lia). f_equal. lia.
Qed.

(** ** Memory image and hexadecimal *)

Lemma image_val a : limbs_ok a ->
  le_val (image a) = val a /\ bytes_ok (image a) /\ List.length (image a) = (4 * List.length a)%nat.
Proof.
  induction 1 as [|x a Hx Ha (IH1 & IH2 & IH3)]; [repeat split; constructor|].
  cbn [image flat_map val]. fold (image a). splits.
  - rewrite le_val_app, le_val_bytes, length_le_bytes, IH1.
    rewrite Z.mod_small by exact Hx. reflexivity.
  - apply Forall_app. split; [apply le_bytes_ok|easy].
  - rewrite length_app, length_le_bytes. cbn [List.length]. lia.
Qed.

Lemma of_image_image a : limbs_ok a -> of_image (List.length a) (image a) = a.
Proof.
  induction 1 as [|x a Hx Ha IH]; [easy|].
  cbn [List.length of_image image flat_map]. fold (image a).
  assert (firstn 4 (le_bytes 4 x ++ image a) = le_bytes 4 x) as -> by reflexivity.
  assert (skipn 4 (le_bytes 4 x ++ image a) = image a) as -> by reflexivity.
  rewrite IH, le_val_bytes, Z.mod_small by exact Hx. easy.
Qed.

Lemma hexchar_digit d : 0 <= d < 16 ->
  phexdigit (hexchar d) = d /\ isspace (hexchar d) = false /\
  (negb (phexdigit (hexchar d) =? 0) || (hexchar d =? 48)) = true /\
  ((hexchar d =? 120) || (hexchar d =? 88)) = false.
Proof.
  intros H. assert (In d (map Z.of_nat (seq 0 16))) as I.
  { apply in_map_iff. exists (Z.to_nat d). split; [lia|]. apply in_seq. lia. }
  cbn in I. repeat (destruct I as [<-|I]; [repeat split|]). destruct I.
Qed.

Definition hexpair (b : Z) : list Z := [hexchar (b / 16); hexchar (b mod 16)].

Lemma byte_nibbles b : byte_ok b -> 0 <= b / 16 < 16 /\ 0 <= b mod 16 < 16 /\ b = 16 * (b / 16) + b mod 16.
Proof.
  unfold in_u. change (2 ^ 8) with 256. intros Hb.
  split; [split; [apply Z.div_pos; lia|apply Z.div_lt_upper_bound; lia]|].
  split; [apply Z.mod_pos_bound; lia|apply Z.div_mod; lia].
Qed.

Lemma hex_run_pairs l : bytes_ok l -> hex_run (flat_map hexpair l) = flat_map hexpair l.
Proof.
  induction 1 as [|b l Hb Hl IH]; [easy|].
  destruct (byte_nibbles b Hb) as (H1 & H2 & _).
  cbn [flat_map hexpair app hex_run].
  rewrite (proj1 (proj2 (proj2 (hexchar_digit _ H1)))), (proj1 (proj2 (proj2 (hexchar_digit _ H2)))).
  now rewrite IH.
Qed.

Lemma hex_bytes_pairs l room : bytes_ok l -> (List.length l <= room)%nat ->
  hex_bytes room (rev (flat_map hexpair (rev l))) = l.
Proof.
  intros Hl. revert room. induction Hl as [|b l Hb Hl IH]; intros room Hr; [now destruct room|].
  destruct room as [|room]; [cbn in Hr; lia|]. cbn [rev List.length] in *.
  rewrite flat_map_app, rev_app_distr. cbn [flat_map hexpair app rev hex_bytes].
  destruct (byte_nibbles b Hb) as (H1 & H2 & E).
  rewrite (proj1 (hexchar_digit _ H1)), (proj1 (hexchar_digit _ H2)), IH by lia. f_equal.
  rewrite wrapu_id by (unfold in_u; rewrite Z.shiftl_mul_pow2 by lia; lia).
  rewrite Z.lor_comm, lor_shiftl_add by (change (2 ^ 4) with 16; lia). change (2 ^ 4) with 16. lia.
Qed.

(** A string of digit pairs is not eaten by the skips in front of the scan. *)
Lemma skips_pairs l : bytes_ok l ->
  skip_0x (skip_spaces (flat_map hexpair l)) = flat_map hexpair l.
Proof.
  destruct 1 as [|b l Hb Hl]; [easy|]. destruct (byte_nibbles b Hb) as (H1 & H2 & _).
  cbn [flat_map hexpair app skip_spaces].
  rewrite (proj1 (proj2 (hexchar_digit _ H1))).
  unfold skip_0x. rewrite (proj2 (proj2 (proj2 (hexchar_digit _ H2)))).
  set (c := hexchar (b / 16)). clearbody c.
  destruct c as [|p|p]; try easy. repeat (destruct p as [p|p|]; try easy).
Qed.

Lemma SetHex_GetHex a : limbs_ok a -> SetHex (List.length a) (GetHex a) = a.
Proof.
  intros Ha. destruct (image_val a Ha) as (_ & Hb & L). unfold SetHex, GetHex.
  change (flat_map _ (rev (image a))) with (flat_map hexpair (rev (image a))).
  assert (bytes_ok (rev (image a))) as Hr by now apply Forall_rev.
  rewrite skips_pairs, hex_run_pairs by easy.
  rewrite hex_bytes_pairs by (auto; lia). rewrite L.
  replace (List.length a * 4 - 4 * List.length a)%nat with 0%nat by lia.
  rewrite app_nil_r. now apply of_image_image.
Qed.

Example hex_uint160 :
  SetHex 5 (map (fun c => Z.of_N (Ascii.N_of_ascii c)) (list_ascii_of_string " 0xfF01")) =
  [65281; 0; 0; 0; 0].
Proof. reflexivity. Qed.
Example shl_256 : shl [1; 0; 2147483648; 0; 0; 0; 0; 0] 33 = [0; 2; 0; 0; 1; 0; 0; 0].
Proof. reflexivity. Qed.

(** The limb operators are arithmetic modulo [2^BITS]: addition, subtraction,
    negation, complement, increment, decrement, both shifts and all comparisons, on arrays
    of any equal width, keep 32-bit limbs and the width, and have the value of the
    integer operation. *)
Theorem base_uint_refines_modular a b shift :
  limbs_ok a -> limbs_ok b -> List.length a = List.length b -> 0 <= shift ->
  let M := 2 ^ bits a in
  let ok r v := limbs_ok r /\ List.length r = List.length a /\ val r = v in
  ok (add a b) ((val a + val b) mod M) /\ ok (sub a b) ((val a - val b) mod M) /\
  ok (neg a) ((- val a) mod M) /\ ok (inc a) ((val a + 1) mod M) /\
  ok (dec a) ((val a - 1) mod M) /\ ok (bnot a) (M - 1 - val a) /\
  ok (shl a shift) ((val a * 2 ^ shift) mod M) /\ ok (shr a shift) (val a / 2 ^ shift) /\
  ltb a b = (val a <? val b) /\ leb a b = (val a <=? val b) /\
  gtb a b = (val b <? val a) /\ geb a b = (val b <=? val a) /\ eqb a b = (val a =? val b).
Proof.
  intros Ha Hb L Hs M ok. unfold ok, M.
  pose proof (bnot_val a Ha) as [N1 N2]. pose proof (length_bnot a).
  splits; auto using ltb_val, leb_val, gtb_val, geb_val, eqb_val;
    first [apply sub_val | apply add_val | apply neg_val | apply inc_val | apply dec_val
          | apply shl_val | apply shr_val]; auto.
Qed.

Lemma base_uint_refines_modular_witness :
  let a := [4294967295; 4294967295; 0; 5] in
  let b := [1; 0; 4294967295; 7] in
  let M := 2 ^ bits a in
  let ok r v := limbs_ok r /\ List.length r = List.length a /\ val r = v in
  ok (add a b) ((val a + val b) mod M) /\ ok (sub a b) ((val a - val b) mod M) /\
  ok (neg a) ((- val a) mod M) /\ ok (inc a) ((val a + 1) mod M) /\
  ok (dec a) ((val a - 1) mod M) /\ ok (bnot a) (M - 1 - val a) /\
  ok (shl a 37) ((val a * 2 ^ 37) mod M) /\ ok (shr a 37) (val a / 2 ^ 37) /\
  ltb a b = (val a <? val b) /\ leb a b = (val a <=? val b) /\
  gtb a b = (val b <? val a) /\ geb a b = (val b <=? val a) /\ eqb a b = (val a =? val b).
Proof.
  apply (base_uint_refines_modular [4294967295; 4294967295; 0; 5] [1; 0; 4294967295; 7] 37);
    [| |reflexivity|lia]; repeat constructor; discriminate.
Defined.

(** Printing a number in hexadecimal and parsing it back gives the number, for every
    width. *)
Theorem hex_roundtrip a : limbs_ok a -> SetHex (List.length a) (GetHex a) = a.
Proof. apply SetHex_GetHex. Qed.

Lemma hex_roundtrip_witness :
  SetHex 3 (GetHex [3735928559; 0; 15]) = [3735928559; 0; 15].
Proof. apply (hex_roundtrip [3735928559; 0; 15]). repeat constructor; discriminate. Defined.

End BaseUint.
