(* ===== verification/Crypto.v ===== *)
(** * Hashes and the elliptic curve (src/src/hash.h, src/src/hash.cpp)

    The code of the node that sits on OpenSSL's SHA-2, RIPEMD-160 and secp256k1:
    the double hash, [Hash160], MurmurHash3, the HMAC over streaming SHA-512 and
    the base-58 checksum.  The OpenSSL calls are the interfaces [Hashes] and
    [EC]; their laws are what OpenSSL documents, and [Toy] shows that they can
    hold together. *)

From Stdlib Require Import ZArith Lia List String Bool Eqdep_dec.
From S2P Require Import Prelude.
Import ListNotations.
#[local] Open Scope Z_scope.

(** ** Interfaces to OpenSSL *)

Class Hashes := {
  SHA256 : list Z -> list Z;
  RIPEMD160 : list Z -> list Z;
  SHA512 : list Z -> list Z
}.

Class Hashes_laws (h : Hashes) : Prop := {
  SHA256_size : forall m, zlen (SHA256 m) = 32;
  SHA256_bytes : forall m, bytes_ok (SHA256 m);
  RIPEMD160_size : forall m, zlen (RIPEMD160 m) = 20;
  RIPEMD160_bytes : forall m, bytes_ok (RIPEMD160 m);
  SHA512_size : forall m, zlen (SHA512 m) = 64;
  SHA512_bytes : forall m, bytes_ok (SHA512 m)
}.

(** The group order of secp256k1, what [EC_GROUP_get_order] returns. *)
Definition secp256k1_order : Z :=
  115792089237316195423570985008687907852837564279074904382605163141518161494337.

(** [EC_POINT] and its operations: [pmul k P] is [EC_POINT_mul(NULL, P, k)],
    [gmul k] is [EC_POINT_mul(k, NULL, NULL)], [point2oct] and [oct2point] the
    octet forms, [decompress] is [EC_POINT_set_compressed_coordinates_GFp]. *)
Class EC := {
  point : Type;
  padd : point -> point -> point;
  pmul : Z -> point -> point;
  gmul : Z -> point;
  is_infinity : point -> bool;
  point2oct : bool -> point -> list Z;
  oct2point : list Z -> option point;
  decompress : Z -> bool -> option point
}.

Class EC_laws (ec : EC) : Prop := {
  padd_comm : forall P Q, padd P Q = padd Q P;
  padd_assoc : forall P Q R, padd P (padd Q R) = padd (padd P Q) R;
  pmul_one : forall P, pmul 1 P = P;
  pmul_add : forall a b P, pmul (a + b) P = padd (pmul a P) (pmul b P);
  pmul_mul : forall a b P, pmul a (pmul b P) = pmul (a * b) P;
  pmul_order : forall a P, pmul (a mod secp256k1_order) P = pmul a P;
  pmul_zero : forall P, is_infinity (pmul 0 P) = true;
  gmul_pmul : forall a b, pmul a (gmul b) = gmul (a * b);
  gmul_add : forall a b, gmul (a + b) = padd (gmul a) (gmul b);
  gmul_order : forall a, gmul (a mod secp256k1_order) = gmul a;
  gmul_infinity : forall a, is_infinity (gmul a) = (a mod secp256k1_order =? 0);
  oct2point_point2oct : forall c P, is_infinity P = false -> oct2point (point2oct c P) = Some P;
  point2oct_compressed : forall P, is_infinity P = false ->
    zlen (point2oct true P) = 33 /\ (hd 0 (point2oct true P) = 2 \/ hd 0 (point2oct true P) = 3);
  point2oct_uncompressed : forall P, is_infinity P = false ->
    zlen (point2oct false P) = 65 /\ hd 0 (point2oct false P) = 4;
  point2oct_infinity : forall c P, is_infinity P = true -> point2oct c P = [0];
  point2oct_bytes : forall c P, bytes_ok (point2oct c P);
  oct2point_uncompressed : forall d P, hd 0 d = 4 -> bytes_ok d -> oct2point d = Some P ->
    is_infinity P = false /\ point2oct false P = d /\
    point2oct true P = (2 + nth 64 d 0 mod 2) :: firstn 32 (tl d)
}.

(** ** hash.h *)

Section HashFunctions.
Context {h : Hashes}.

(** [Hash(pbegin, pend)]; [CHashWriter] computes it of all that was written. *)
Definition Hash (m : list Z) : list Z := SHA256 (SHA256 m).
Definition Hash160 (m : list Z) : list Z := RIPEMD160 (SHA256 m).

(** [CHashWriter]: the context is the bytes fed to it so far. *)
Record CHashWriter := mkHashWriter { ctx : list Z }.
Definition HashWriter_Init : CHashWriter := mkHashWriter [].
Definition HashWriter_write (w : CHashWriter) (pch : list Z) : CHashWriter :=
  mkHashWriter (ctx w ++ pch).
Definition HashWriter_GetHash (w : CHashWriter) : list Z :=
  let hash1 := SHA256 (ctx w) in
  let hash2 := SHA256 hash1 in
  hash2.

Lemma Hash_size {hl : Hashes_laws h} m : zlen (Hash m) = 32.
Proof. apply SHA256_size. Qed.
Lemma Hash_bytes {hl : Hashes_laws h} m : bytes_ok (Hash m).
Proof. apply SHA256_bytes. Qed.
Lemma Hash160_size {hl : Hashes_laws h} m : zlen (Hash160 m) = 20.
Proof. apply RIPEMD160_size. Qed.
Lemma Hash160_bytes {hl : Hashes_laws h} m : bytes_ok (Hash160 m).
Proof. apply RIPEMD160_bytes. Qed.

End HashFunctions.
#[export] Hint Resolve Hash_size Hash_bytes Hash160_size Hash160_bytes : words.
#[export] Hint Resolve SHA256_bytes SHA512_bytes RIPEMD160_bytes point2oct_bytes : words.

(** ** hash.cpp: MurmurHash3 *)

Module Murmur.

Definition ROTL32 (x r : Z) : Z := Z.lor (u32 (Z.shiftl x r)) (Z.shiftr x (32 - r)).

Definition c1 : Z := 0xcc9e2d51.
Definition c2 : Z := 0x1b873593.

(** The mixing of one 32-bit word of the data. *)
Definition mix_k (k1 : Z) : Z :=
  let k1 := u32 (k1 * c1) in
  let k1 := ROTL32 k1 15 in
  u32 (k1 * c2).

(** One round of the body. *)
Definition block_round (h1 k1 : Z) : Z :=
  let h1 := Z.lxor h1 (mix_k k1) in
  let h1 := ROTL32 h1 13 in
  u32 (h1 * 5 + 0xe6546b64).

(** The loop over the [nblocks] words, in increasing address order. *)
Fixpoint body (nblocks : nat) (data : list Z) (h1 : Z) : Z :=
  match nblocks with
  | O => h1
  | S n => body n (skipn 4 data) (block_round h1 (le_val (firstn 4 data)))
  end.

(** The [switch] on the number of trailing bytes: cases 3 and 2 fall through. *)
Definition tail_mix (tail : list Z) (h1 : Z) : Z :=
  match tail with
  | [] => h1
  | t0 :: rest =>
      let k1 := 0 in
      let k1 := match rest with [_; t2] => Z.lxor k1 (Z.shiftl t2 16) | _ => k1 end in
      let k1 := match rest with t1 :: _ => Z.lxor k1 (Z.shiftl t1 8) | [] => k1 end in
      let k1 := Z.lxor k1 t0 in
      Z.lxor h1 (mix_k k1)
  end.

Definition finalization (len h1 : Z) : Z :=
  let h1 := Z.lxor h1 (u32 len) in
  let h1 := Z.lxor h1 (Z.shiftr h1 16) in
  let h1 := u32 (h1 * 0x85ebca6b) in
  let h1 := Z.lxor h1 (Z.shiftr h1 13) in
  let h1 := u32 (h1 * 0xc2b2ae35) in
  Z.lxor h1 (Z.shiftr h1 16).

Definition MurmurHash3 (nHashSeed : Z) (vDataToHash : list Z) : Z :=
  let nblocks := Nat.div (List.length vDataToHash) 4 in
  let h1 := body nblocks vDataToHash nHashSeed in
  let tail := skipn (4 * nblocks) vDataToHash in
  finalization (zlen vDataToHash) (tail_mix tail h1).

(** The vectors of src/src/test/hash_tests.cpp. *)
Example murmurhash3_tests :
  map (fun '(seed, d) => MurmurHash3 seed d)
    [(0, []); (0xFBA4C795, []); (0xffffffff, []); (0, [0]); (0xFBA4C795, [0]); (0, [255]);
     (0, [0; 0x11]); (0, [0; 0x11; 0x22]); (0, [0; 0x11; 0x22; 0x33]);
     (0, [0; 0x11; 0x22; 0x33; 0x44]); (0, [0; 0x11; 0x22; 0x33; 0x44; 0x55]);
     (0, [0; 0x11; 0x22; 0x33; 0x44; 0x55; 0x66]);
     (0, [0; 0x11; 0x22; 0x33; 0x44; 0x55; 0x66; 0x77]);
     (0, [0; 0x11; 0x22; 0x33; 0x44; 0x55; 0x66; 0x77; 0x88])] =
  [0; 0x6a396f08; 0x81f16f39; 0x514e28b7; 0xea3f0b17; 0xfd6cf10d; 0x16c6b7ab; 0x8eb51c3d;
   0xb4471bf8; 0xe2301fa8; 0xfc2e4a15; 0xb074502c; 0x8034d2a0; 0xb4698def].
Proof. vm_compute. reflexivity. Qed.

Lemma lxor_u32 a b : in_u 32 a -> in_u 32 b -> in_u 32 (Z.lxor a b).
Proof.
  unfold in_u. intros Ha Hb. split; [apply Z.lxor_nonneg; lia|].
  destruct (Z.eq_dec (Z.lxor a b) 0) as [-> | N]; [easy|].
  assert (0 <= Z.lxor a b) by (apply Z.lxor_nonneg; lia).
  apply Z.log2_lt_pow2; [lia|].
  eapply Z.le_lt_trans; [apply Z.log2_lxor; lia|].
  apply Z.max_lub_lt; (destruct (Z.eq_dec a 0), (Z.eq_dec b 0); subst; try easy;
    apply Z.log2_lt_pow2; lia).
Qed.

Lemma MurmurHash3_word seed d : in_u 32 seed -> in_u 32 (MurmurHash3 seed d).
Proof.
  intros Hs. unfold MurmurHash3, finalization.
  assert (forall x k, in_u 32 x -> 0 <= k -> in_u 32 (Z.lxor x (Z.shiftr x k))) as X.
  { intros x k Hx Hk. apply lxor_u32; [easy|]. unfold in_u in *.
    rewrite Z.shiftr_div_pow2 by easy.
    pose proof (Z.pow_pos_nonneg 2 k ltac:(lia) Hk).
    split; [apply Z.div_pos; lia|]. apply Z.div_lt_upper_bound; nia. }
  apply X; [|lia]. apply wrapu_range. lia.
Qed.

End Murmur.

(** ** hash.cpp: HMAC-SHA512 and checksums *)

Module HMAC.
Section HMAC.
Context {h : Hashes}.

(** The two SHA-512 contexts, each the bytes it was fed. *)
Record HMAC_SHA512_CTX := mkCtx { ctxInner : list Z; ctxOuter : list Z }.

Definition xor_all (c : Z) (key : list Z) : list Z := map (fun b => Z.lxor b c) key.

Definition HMAC_SHA512_Init (pkey : list Z) : HMAC_SHA512_CTX :=
  let key :=
    if zlen pkey <=? 128 then pkey ++ repeat 0 (128 - List.length pkey)
    else SHA512 pkey ++ repeat 0 64 in
  let key := xor_all 0x5c key in
  let ctxOuter := [] ++ key in
  let key := xor_all (Z.lxor 0x5c 0x36) key in
  let ctxInner := [] ++ key in
  mkCtx ctxInner ctxOuter.

Definition HMAC_SHA512_Update (pctx : HMAC_SHA512_CTX) (pdata : list Z) : HMAC_SHA512_CTX :=
  mkCtx (ctxInner pctx ++ pdata) (ctxOuter pctx).

Definition HMAC_SHA512_Final (pctx : HMAC_SHA512_CTX) : list Z :=
  let buf := SHA512 (ctxInner pctx) in
  SHA512 (ctxOuter pctx ++ buf).

(** HMAC as RFC 2104 defines it. *)
Definition hmac_rfc2104 (key m : list Z) : list Z :=
  let k := if zlen key <=? 128 then key else SHA512 key in
  let k0 := k ++ repeat 0 (128 - List.length k) in
  SHA512 (xor_all 0x5c k0 ++ SHA512 (xor_all 0x36 k0 ++ m)).

Lemma xor_all_twice a b key : xor_all b (xor_all a key) = xor_all (Z.lxor a b) key.
Proof.
  unfold xor_all. rewrite map_map. apply map_ext. intros x. now rewrite Z.lxor_assoc.
Qed.

Lemma HMAC_updates k ms :
  HMAC_SHA512_Final (fold_left HMAC_SHA512_Update ms k) =
  SHA512 (ctxOuter k ++ SHA512 (ctxInner k ++ List.concat ms)).
Proof.
  revert k. induction ms as [|m ms IH]; intros k; cbn [fold_left List.concat].
  - now rewrite app_nil_r.
  - rewrite IH. cbn [ctxOuter ctxInner HMAC_SHA512_Update]. now rewrite <- app_assoc.
Qed.

(** HMAC-SHA512 fed piece by piece, with the key block turned from the outer to the inner
    pad by one more exclusive or, computes the HMAC of RFC 2104 of the concatenated pieces,
    for keys shorter and longer than a block. *)
Theorem HMAC_streaming {hl : Hashes_laws h} key ms :
  HMAC_SHA512_Final (fold_left HMAC_SHA512_Update ms (HMAC_SHA512_Init key)) =
  hmac_rfc2104 key (List.concat ms).
Proof.
  rewrite HMAC_updates. unfold HMAC_SHA512_Init, hmac_rfc2104.
  cbn [ctxInner ctxOuter app]. rewrite xor_all_twice.
  change (Z.lxor 0x5c (Z.lxor 0x5c 0x36)) with 0x36.
  destruct (zlen key <=? 128) eqn:E; [reflexivity|].
  assert (List.length (SHA512 key) = 64%nat) as ->; [|reflexivity].
  pose proof (SHA512_size key) as L. unfold zlen in L. lia.
Qed.

(** The first four bytes of the double hash, as a little-endian integer. *)
Definition BitcoinChecksum (p : list Z) : Z :=
  match p with
  | [] => 0
  | _ =>
      let hash1 := SHA256 p in
      let hash2 := SHA256 hash1 in
      le_val (firstn 4 hash2)
  end.

Definition AppendChecksum (data : list Z) : list Z := data ++ le_bytes 4 (BitcoinChecksum data).

Definition VerifyChecksum (data : list Z) : bool :=
  if zlen data <? 4 then false
  else
    let checksum := le_val (skipn (List.length data - 4) data) in
    BitcoinChecksum (firstn (List.length data - 4) data) =? checksum.

Lemma BitcoinChecksum_word {hl : Hashes_laws h} p : in_u 32 (BitcoinChecksum p).
Proof.
  unfold BitcoinChecksum. destruct p as [|b p]; [easy|].
  assert (bytes_ok (firstn 4 (SHA256 (SHA256 (b :: p))))) as B
      by (apply Forall_firstn_n, SHA256_bytes).
  apply le_val_range in B. rewrite length_firstn in B.
  pose proof (SHA256_size (SHA256 (b :: p))) as L. unfold zlen in L.
  rewrite Nat.min_l in B by lia. exact B.
Qed.

Lemma VerifyChecksum_split data sum :
  zlen sum = 4 -> VerifyChecksum (data ++ sum) = (BitcoinChecksum data =? le_val sum).
Proof.
  intros H. unfold VerifyChecksum. rewrite zlen_app.
  pose proof (zlen_nonneg data). zcase; [lia|].
  unfold zlen in H. rewrite length_app.
  replace (List.length data + List.length sum - 4)%nat with (List.length data) by lia.
  rewrite firstn_app, skipn_app, Nat.sub_diag, firstn_all, skipn_all. cbn. now rewrite app_nil_r.
Qed.

(** [AppendChecksum] is accepted by [VerifyChecksum], and what [VerifyChecksum] accepts of
    four bytes or more is exactly what [AppendChecksum] makes of the bytes before the last four. *)
Theorem checksum_exact {hl : Hashes_laws h} d sum : zlen sum = 4 -> bytes_ok sum ->
  VerifyChecksum (AppendChecksum d) = true /\
  (VerifyChecksum (d ++ sum) = true <-> d ++ sum = AppendChecksum d).
Proof.
  intros Hl Hb. unfold AppendChecksum.
  pose proof (BitcoinChecksum_word d) as W. unfold in_u in W.
  rewrite !VerifyChecksum_split by (auto; apply zlen_le_bytes).
  rewrite le_val_bytes, Z.mod_small, Z.eqb_refl by exact W.
  split; [easy|]. rewrite Z.eqb_eq. split.
  - intros ->. f_equal. replace 4%nat with (List.length sum) by (unfold zlen in Hl; lia).
    symmetry. now apply le_bytes_val.
  - intros E. apply app_inv_head in E. subst sum.
    now rewrite le_val_bytes, Z.mod_small by exact W.
Qed.

End HMAC.
End HMAC.

(** ** An instance of the interfaces *)

Module Toy.

(** A digest of [n] bytes from the MurmurHash3 of the message. *)
Definition digest (n : nat) (m : list Z) : list Z :=
  le_bytes n (Murmur.MurmurHash3 17 m + 4294967296 * Murmur.MurmurHash3 29 m + 1).

#[export] Instance hashes : Hashes :=
  {| SHA256 := digest 32; RIPEMD160 := digest 20; SHA512 := digest 64 |}.

#[export] Instance hashes_laws : Hashes_laws hashes.
Proof.
  split; intros m; cbn [SHA256 RIPEMD160 SHA512 hashes]; unfold digest;
    auto using le_bytes_ok; now rewrite zlen_le_bytes.
Qed.

(** The group of the exponents of the generator. *)
Definition reduced (z : Z) : bool := (0 <=? z) && (z <? secp256k1_order).
Record zp := mkZp { zv : Z; zp_ok : reduced zv = true }.

Lemma zp_eq (a b : zp) : zv a = zv b -> a = b.
Proof.
  destruct a as [a Ha], b as [b Hb]. cbn. intros ->. f_equal. apply UIP_dec, bool_dec.
Qed.

Lemma reduced_mod z : reduced (z mod secp256k1_order) = true.
Proof.
  unfold reduced. pose proof (Z.mod_pos_bound z secp256k1_order eq_refl).
  apply andb_true_iff. split; [apply Z.leb_le | apply Z.ltb_lt]; lia.
Qed.
Definition mod_n (z : Z) : zp := mkZp (z mod secp256k1_order) (reduced_mod z).

Definition enc (c : bool) (P : zp) : list Z :=
  if zv P =? 0 then [0]
  else if c then 2 :: rev (le_bytes 32 (zv P))
  else 4 :: rev (le_bytes 32 (zv P)) ++ repeat 0 32.

Definition dec (l : list Z) : option zp :=
  match l with
  | 2 :: r => if zlen r =? 32 then Some (mod_n (be_val r)) else None
  | 4 :: r =>
      let x := be_val (firstn 32 r) in
      if (zlen r =? 64) && forallb (fun b => b =? 0) (skipn 32 r) && (0 <? x) && reduced x
      then Some (mod_n x) else None
  | _ => None
  end.

#[export] Instance ec : EC := {|
  point := zp;
  padd P Q := mod_n (zv P + zv Q);
  pmul k P := mod_n (k * zv P);
  gmul k := mod_n k;
  is_infinity P := zv P =? 0;
  point2oct := enc;
  oct2point := dec;
  decompress x _ := if x mod 2 =? 0 then Some (mod_n x) else None
|}.

Lemma zv_small P : zv P mod secp256k1_order = zv P.
Proof.
  destruct P as [z Hz]. cbn. unfold reduced in Hz. zbool. apply Z.mod_small. lia.
Qed.

Lemma be_val_rev_le z : 0 <= z < secp256k1_order -> be_val (rev (le_bytes 32 z)) = z.
Proof.
  intros H. unfold be_val. rewrite rev_involutive, le_val_bytes. apply Z.mod_small.
  assert (secp256k1_order < 2 ^ (8 * Z.of_nat 32)) by reflexivity. lia.
Qed.

Lemma zv_range P : 0 <= zv P < secp256k1_order.
Proof. destruct P as [z Hz]. cbn. unfold reduced in Hz. zbool. lia. Qed.

Lemma length_rev_le z : zlen (rev (le_bytes 32 z)) = 32.
Proof. unfold zlen. now rewrite length_rev, length_le_bytes. Qed.

Lemma split_enc P : firstn 32 (rev (le_bytes 32 (zv P)) ++ repeat 0 32) = rev (le_bytes 32 (zv P)) /\
  skipn 32 (rev (le_bytes 32 (zv P)) ++ repeat 0 32) = repeat 0 32.
Proof.
  pose proof (length_rev_le (zv P)) as L.
  pose proof (firstn_app_exact (rev (le_bytes 32 (zv P))) (repeat 0 32)) as F.
  pose proof (skipn_app_exact (rev (le_bytes 32 (zv P))) (repeat 0 32)) as S.
  rewrite L in F, S. split; [exact F | exact S].
Qed.

Lemma dec_enc c P : (zv P =? 0) = false -> dec (enc c P) = Some P.
Proof.
  intros E. unfold enc. rewrite E. pose proof (zv_range P) as R. zbool.
  assert (mod_n (zv P) = P) as M by (apply zp_eq; apply zv_small).
  destruct c; cbn [dec].
  - now rewrite length_rev_le, be_val_rev_le, M by easy.
  - destruct (split_enc P) as [-> ->]. rewrite zlen_app, length_rev_le, be_val_rev_le by easy.
    cbn [forallb repeat Z.eqb andb]. change (32 + zlen (repeat 0 32) =? 64) with true.
    unfold reduced. rewrite (proj2 (Z.ltb_lt 0 _)), (proj2 (Z.leb_le 0 _)), (proj2 (Z.ltb_lt _ _)) by lia.
    cbn. now rewrite M.
Qed.

Lemma zeros_repeat l : forallb (fun b => b =? 0) l = true -> l = repeat 0 (List.length l).
Proof.
  induction l as [|b l IH]; [easy|]. cbn. intros H. zbool. subst. f_equal. auto.
Qed.

Lemma dec_uncompressed d P : hd 0 d = 4 -> bytes_ok d -> dec d = Some P ->
  (zv P =? 0) = false /\ enc false P = d /\ enc true P = (2 + nth 64 d 0 mod 2) :: firstn 32 (tl d).
Proof.
  destruct d as [|b r]; [discriminate|]. cbn [hd tl]. intros -> Hb. inversion Hb as [|? ? _ Hr]; subst.
  cbn [dec]. intros H.
  destruct ((zlen r =? 64) && _ && _ && _) eqn:E; [|discriminate].
  assert (P = mod_n (be_val (firstn 32 r))) as -> by congruence. clear H. zbool.
  unfold reduced in *. zbool. set (x := be_val (firstn 32 r)) in *.
  assert (zv (mod_n x) = x) as V by (apply Z.mod_small; lia).
  unfold enc. rewrite V, (proj2 (Z.eqb_neq x 0)) by lia.
  assert (rev (le_bytes 32 x) = firstn 32 r) as B.
  { unfold x, be_val. assert (List.length (rev (firstn 32 r)) = 32%nat) as L
        by (rewrite length_rev, length_firstn; unfold zlen in *; lia).
    pose proof (le_bytes_val (rev (firstn 32 r))
      ltac:(apply Forall_rev, Forall_firstn_n; exact Hr)) as E1.
    rewrite L in E1. rewrite E1. apply rev_involutive. }
  assert (skipn 32 r = repeat 0 32) as Z0.
  { rewrite (zeros_repeat (skipn 32 r)) by easy. f_equal. rewrite length_skipn. unfold zlen in *. lia. }
  rewrite B. splits; auto.
  - rewrite <- Z0. now rewrite firstn_skipn.
  - assert (nth 63 r 0 = 0) as N.
    { rewrite <- (firstn_skipn 32 r), app_nth2; rewrite length_firstn; unfold zlen in *; [|lia].
      rewrite Z0, Nat.min_l by lia. reflexivity. }
    cbn [nth]. rewrite N. reflexivity.
Qed.

#[export] Instance ec_laws : EC_laws ec.
Proof.
  assert (secp256k1_order <> 0) as N by easy.
  split; cbn [point padd pmul gmul is_infinity point2oct oct2point ec];
    try (intros; apply zp_eq; cbn [zv mod_n];
         rewrite ?Zplus_mod_idemp_l, ?Zplus_mod_idemp_r, ?Zmult_mod_idemp_l, ?Zmult_mod_idemp_r;
         rewrite ?Z.mod_mod by easy; try (f_equal; ring); fail).
  - intros P. apply zp_eq. cbn [zv mod_n]. rewrite Z.mul_1_l. apply zv_small.
  - reflexivity.
  - reflexivity.
  - apply dec_enc.
  - intros P E. unfold enc. rewrite E. rewrite zlen_cons, length_rev_le. cbn. auto.
  - intros P E. unfold enc. rewrite E. rewrite zlen_cons, zlen_app, length_rev_le. auto.
  - intros c P E. unfold enc. now rewrite E.
  - intros c P. unfold enc. destruct (zv P =? 0); [now repeat constructor|].
    assert (bytes_ok (rev (le_bytes 32 (zv P)))) by apply Forall_rev, le_bytes_ok.
    destruct c; constructor; try easy. apply bytes_app. split; [easy|]. now repeat constructor.
  - apply dec_uncompressed.
Qed.

End Toy.

#[local] Existing Instances Toy.hashes Toy.hashes_laws.

(** [HMAC_streaming] at the instance, fed in three pieces with a long key. *)
Lemma HMAC_streaming_witness :
  HMAC.HMAC_SHA512_Final
    (fold_left HMAC.HMAC_SHA512_Update [[1]; [2; 3]; []] (HMAC.HMAC_SHA512_Init (repeat 7 200))) =
  HMAC.hmac_rfc2104 (repeat 7 200) [1; 2; 3].
Proof. exact (HMAC.HMAC_streaming (hl := Toy.hashes_laws) (repeat 7 200) [[1]; [2; 3]; []]). Defined.

Lemma checksum_exact_witness :
  HMAC.VerifyChecksum (HMAC.AppendChecksum [1; 2; 3]) = true /\
  (HMAC.VerifyChecksum ([1; 2; 3] ++ [9; 9; 9; 9]) = true <->
   [1; 2; 3] ++ [9; 9; 9; 9] = HMAC.AppendChecksum [1; 2; 3]).
Proof.
  apply (HMAC.checksum_exact (hl := Toy.hashes_laws) [1; 2; 3] [9; 9; 9; 9]).
  - reflexivity.
  - now repeat constructor.
Defined.
