(* ===== verification/Key.v ===== *)
(** * Keys and hierarchical derivation (src/src/key.h, src/src/key.cpp, src/src/eckey.cpp)

    [CPubKey] and [CKey] over the curve interface of [Crypto], their range
    checks and wire formats, and the BIP32 derivation of [CExtKey] and
    [CExtPubKey] with their 74-byte encodings. *)

From Stdlib Require Import ZArith Lia List String Bool.
From S2P Require Import Prelude Stream Crypto.
Import ListNotations.
#[local] Open Scope Z_scope.
#[local] Open Scope se_scope.
#[local] Open Scope res_scope.

(** ** Big-endian comparisons *)

Module KeyRange.

(** The leading bytes of the longer number: any that is not zero decides. *)
Fixpoint skip_zeros (extra : nat) (c : list Z) : option (list Z) :=
  match extra, c with
  | S extra, b :: c => if b =? 0 then skip_zeros extra c else None
  | _, _ => Some c
  end.

Fixpoint compare_same (c1 c2 : list Z) : Z :=
  match c1, c2 with
  | x :: c1, y :: c2 =>
      if y <? x then 1 else if x <? y then -1 else compare_same c1 c2
  | _, _ => 0
  end.

Definition CompareBigEndian (c1 c2 : list Z) : Z :=
  match skip_zeros (List.length c1 - List.length c2) c1 with
  | None => 1
  | Some c1 =>
      match skip_zeros (List.length c2 - List.length c1) c2 with
      | None => -1
      | Some c2 => compare_same c1 c2
      end
  end.

Definition vchMaxModOrder : list Z :=
  [0xFF;0xFF;0xFF;0xFF;0xFF;0xFF;0xFF;0xFF; 0xFF;0xFF;0xFF;0xFF;0xFF;0xFF;0xFF;0xFE;
   0xBA;0xAE;0xDC;0xE6;0xAF;0x48;0xA0;0x3B; 0xBF;0xD2;0x5E;0x8C;0xD0;0x36;0x41;0x40].

Definition vchMaxModHalfOrder : list Z :=
  [0x7F;0xFF;0xFF;0xFF;0xFF;0xFF;0xFF;0xFF; 0xFF;0xFF;0xFF;0xFF;0xFF;0xFF;0xFF;0xFF;
   0x5D;0x57;0x6E;0x73;0x57;0xA4;0x50;0x1D; 0xDF;0xE9;0x2F;0x46;0x68;0x1B;0x20;0xA0].

Definition CheckSignatureElement (vch : list Z) (half : bool) : bool :=
  (0 <? CompareBigEndian vch []) &&
  (CompareBigEndian vch (if half then vchMaxModHalfOrder else vchMaxModOrder) <=? 0).

(** The comparison loop of [CKey::Check], against its own copy of the maximum. *)
Fixpoint check_loop (vch vchMax : list Z) : bool :=
  match vch, vchMax with
  | b :: vch, m :: vchMax => if b <? m then true else if m <? b then false else check_loop vch vchMax
  | _, _ => true
  end.

Definition Check (vch : list Z) : bool :=
  let fIsZero := forallb (fun b => b =? 0) vch in
  if fIsZero then false else check_loop vch vchMaxModOrder.

Lemma be_val_nil : be_val [] = 0.
Proof. reflexivity. Qed.

Lemma be_val_zero_head b l : b = 0 -> be_val (b :: l) = be_val l.
Proof. intros ->. rewrite be_val_cons. lia. Qed.

Lemma skip_zeros_spec extra c : bytes_ok c -> (extra <= List.length c)%nat ->
  match skip_zeros extra c with
  | Some c' => bytes_ok c' /\ be_val c' = be_val c /\ List.length c' = (List.length c - extra)%nat
  | None => 2 ^ (8 * Z.of_nat (List.length c - extra)) <= be_val c
  end.
Proof.
  revert c. induction extra as [|e IH]; intros c Hc Hl; cbn [skip_zeros].
  - destruct c; splits; auto; cbn; lia.
  - destruct c as [|b c]; [cbn in Hl; lia|]. inversion Hc as [|? ? Hb Hc']; subst.
    cbn [List.length] in *. unfold in_u in Hb. destruct (b =? 0) eqn:E; zbool.
    + specialize (IH c Hc' ltac:(lia)). rewrite (be_val_zero_head b c) by easy.
      replace (S (List.length c) - S e)%nat with (List.length c - e)%nat by lia. exact IH.
    + rewrite be_val_cons. pose proof (be_val_range c Hc'). unfold zlen in *.
      assert (2 ^ (8 * Z.of_nat (S (List.length c) - S e)) <= 2 ^ (8 * Z.of_nat (List.length c)))
        by (apply Z.pow_le_mono_r; lia). nia.
Qed.

Lemma compare_same_spec a : forall b, bytes_ok a -> bytes_ok b -> List.length a = List.length b ->
  compare_same a b =
  match be_val a ?= be_val b with Lt => -1 | Eq => 0 | Gt => 1 end.
Proof.
  induction a as [|x a IH]; intros [|y b] Ha Hb L; try discriminate; [easy|].
  inversion Ha; inversion Hb; subst. cbn [compare_same List.length] in *.
  injection L as L. rewrite !be_val_cons.
  pose proof (be_val_range a ltac:(easy)). pose proof (be_val_range b ltac:(easy)).
  unfold zlen in *. rewrite <- L in *.
  destruct (y <? x) eqn:E1; [|destruct (x <? y) eqn:E2]; zbool.
  - rewrite (proj2 (Z.compare_gt_iff _ _)); [easy|nia].
  - rewrite (proj2 (Z.compare_lt_iff _ _)); [easy|nia].
  - assert (x = y) as -> by lia. rewrite IH by easy.
    destruct (Z.compare_spec (be_val a) (be_val b)) as [E|E|E].
    + now rewrite E, Z.compare_refl.
    + now rewrite (proj2 (Z.compare_lt_iff _ _)) by lia.
    + now rewrite (proj2 (Z.compare_gt_iff _ _)) by lia.
Qed.

Lemma CompareBigEndian_spec a b : bytes_ok a -> bytes_ok b ->
  CompareBigEndian a b = match be_val a ?= be_val b with Lt => -1 | Eq => 0 | Gt => 1 end.
Proof.
  intros Ha Hb. unfold CompareBigEndian.
  pose proof (skip_zeros_spec (List.length a - List.length b) a Ha ltac:(lia)) as Sa.
  pose proof (be_val_range a Ha). pose proof (be_val_range b Hb). unfold zlen in *.
  destruct (skip_zeros _ a) as [a'|].
  - destruct Sa as (Ha' & Va & La).
    pose proof (skip_zeros_spec (List.length b - List.length a') b Hb ltac:(lia)) as Sb.
    pose proof (be_val_range a' Ha'). unfold zlen in *.
    destruct (skip_zeros _ b) as [b'|].
    + destruct Sb as (Hb' & Vb & Lb). rewrite compare_same_spec by (auto; lia). now rewrite Va, Vb.
    + assert (2 ^ (8 * Z.of_nat (List.length a')) <=
              2 ^ (8 * Z.of_nat (List.length b - (List.length b - List.length a'))))
        by (apply Z.pow_le_mono_r; lia).
      now rewrite (proj2 (Z.compare_lt_iff _ _)) by lia.
  - assert (2 ^ (8 * Z.of_nat (List.length b)) <=
            2 ^ (8 * Z.of_nat (List.length a - (List.length a - List.length b)))) as P
      by (destruct (Nat.le_gt_cases (List.length a) (List.length b));
          [replace (List.length a - List.length b)%nat with 0%nat in * by lia;
           pose proof (Z.pow_le_mono_r 2 (8 * Z.of_nat (List.length a)) (8 * Z.of_nat (List.length a - 0)));
           lia
          | apply Z.pow_le_mono_r; lia]).
    now rewrite (proj2 (Z.compare_gt_iff _ _)) by lia.
Qed.

Lemma check_loop_spec a : forall b, bytes_ok a -> bytes_ok b -> List.length a = List.length b ->
  check_loop a b = (be_val a <=? be_val b).
Proof.
  induction a as [|x a IH]; intros [|y b] Ha Hb L; try discriminate; [easy|].
  inversion Ha; inversion Hb; subst. cbn [check_loop List.length] in *. injection L as L.
  rewrite !be_val_cons.
  pose proof (be_val_range a ltac:(easy)). pose proof (be_val_range b ltac:(easy)).
  unfold zlen in *. rewrite <- L in *.
  destruct (x <? y) eqn:E1; [|destruct (y <? x) eqn:E2]; zbool.
  - symmetry. apply Z.leb_le. nia.
  - symmetry. apply Z.leb_gt. nia.
  - assert (x = y) as -> by lia. rewrite IH by easy. apply eq_true_iff_eq.
    rewrite !Z.leb_le. lia.
Qed.

Lemma all_zero_val l : bytes_ok l -> forallb (fun b => b =? 0) l = (be_val l =? 0).
Proof.
  induction 1 as [|b l Hb Hl IH]; [easy|]. cbn [forallb]. rewrite IH, be_val_cons.
  pose proof (be_val_range l Hl). unfold in_u in Hb. apply eq_true_iff_eq.
  rewrite andb_true_iff, !Z.eqb_eq. split; [intros [-> ->]; lia|]. intros E. nia.
Qed.

Lemma max_bytes : bytes_ok vchMaxModOrder /\ bytes_ok vchMaxModHalfOrder /\
  be_val vchMaxModOrder = secp256k1_order - 1 /\ be_val vchMaxModHalfOrder = secp256k1_order / 2.
Proof. splits; try reflexivity; now repeat constructor. Qed.

Lemma Check_spec v : bytes_ok v -> zlen v = 32 ->
  Check v = (0 <? be_val v) && (be_val v <? secp256k1_order).
Proof.
  intros Hv L. destruct max_bytes as (M & _ & V & _). unfold Check.
  rewrite all_zero_val, check_loop_spec, V by (auto; unfold zlen in L; cbn; lia).
  pose proof (be_val_range v Hv). apply eq_true_iff_eq.
  destruct (be_val v =? 0) eqn:E; zbool; rewrite andb_true_iff, !Z.ltb_lt, ?Z.leb_le; lia.
Qed.

Lemma CheckSignatureElement_spec w half : bytes_ok w ->
  (CheckSignatureElement w half = true <->
   1 <= be_val w <= (if half then secp256k1_order / 2 else secp256k1_order - 1)).
Proof.
  intros Hw. unfold CheckSignatureElement. destruct max_bytes as (M1 & M2 & V1 & V2).
  assert (exists m, bytes_ok m /\ (if half then vchMaxModHalfOrder else vchMaxModOrder) = m /\
            be_val m = (if half then secp256k1_order / 2 else secp256k1_order - 1))
    as (m & Hm & -> & <-) by (destruct half; eauto).
  rewrite !CompareBigEndian_spec, be_val_nil by (auto; constructor).
  rewrite andb_true_iff.
  destruct (Z.compare_spec (be_val w) 0), (Z.compare_spec (be_val w) (be_val m));
    rewrite Z.ltb_lt, Z.leb_le; lia.
Qed.

(** A byte string is accepted as a secret key exactly when its big-endian value lies between 1
    and the group order minus 1, and as a signature element (of any length) exactly when its
    value lies between 1 and the order minus 1, or half the order when low values are asked for;
    [CompareBigEndian] orders numbers of different lengths by value. *)
Theorem key_ranges v w half : bytes_ok v -> bytes_ok w ->
  (zlen v = 32 -> (Check v = true <-> 1 <= be_val v <= secp256k1_order - 1)) /\
  (CheckSignatureElement w half = true <->
   1 <= be_val w <= (if half then secp256k1_order / 2 else secp256k1_order - 1)) /\
  CompareBigEndian v w = match be_val v ?= be_val w with Lt => -1 | Eq => 0 | Gt => 1 end.
Proof.
  intros Hv Hw. splits.
  - intros L. rewrite Check_spec by easy. rewrite andb_true_iff, !Z.ltb_lt. lia.
  - now apply CheckSignatureElement_spec.
  - now apply CompareBigEndian_spec.
Qed.

Lemma key_ranges_witness :
  (zlen (repeat 1 32) = 32 -> (Check (repeat 1 32) = true <->
     1 <= be_val (repeat 1 32) <= secp256k1_order - 1)) /\
  (CheckSignatureElement [0; 0; 7] true = true <-> 1 <= be_val [0; 0; 7] <= secp256k1_order / 2) /\
  CompareBigEndian (repeat 1 32) [0; 0; 7] =
    match be_val (repeat 1 32) ?= be_val [0; 0; 7] with Lt => -1 | Eq => 0 | Gt => 1 end.
Proof. apply (key_ranges (repeat 1 32) [0; 0; 7] true); now repeat constructor. Defined.

End KeyRange.

(** ** CPubKey *)

Module PubKey.
Import DataStream Wire.

(** The 65-byte array of the object. *)
Record CPubKey := mkPubKey { vch : list Z }.

Definition GetLen (chHeader : Z) : Z :=
  if (chHeader =? 2) || (chHeader =? 3) then 33
  else if (chHeader =? 4) || (chHeader =? 6) || (chHeader =? 7) then 65
  else 0.

(** The constructor only sets the header byte; nothing reads the others. *)
Definition fresh : CPubKey := mkPubKey (255 :: repeat 0 64).
Definition Invalidate (p : CPubKey) : CPubKey := mkPubKey (255 :: tl (vch p)).

(** [Set(pbegin, pend)] *)
Definition Set_ (p : CPubKey) (data : list Z) : CPubKey :=
  let len := match data with [] => 0 | b :: _ => GetLen b end in
  if negb (len =? 0) && (len =? zlen data)
  then mkPubKey (data ++ skipn (List.length data) (vch p))
  else Invalidate p.

(** [CPubKey(begin, end)] and [CPubKey(vector)] *)
Definition of_bytes (data : list Z) : CPubKey := Set_ fresh data.

(** [CPubKey(p, len)]: no check of the header. *)
Definition of_raw (p : list Z) : CPubKey :=
  if zlen p <=? 65 then mkPubKey (p ++ skipn (List.length p) (vch fresh)) else fresh.

Definition size (p : CPubKey) : Z := GetLen (nth 0 (vch p) 0).

(** [begin()] to [end()] *)
Definition bytes (p : CPubKey) : list Z := firstn (Z.to_nat (size p)) (vch p).

Definition IsValid (p : CPubKey) : bool := 0 <? size p.
Definition IsCompressed (p : CPubKey) : bool := size p =? 33.

(** [memcmp] as a sign. *)
Definition memcmp (a b : list Z) : Z := KeyRange.compare_same a b.

(** [operator==] and [operator<] *)
Definition eqb (a b : CPubKey) : bool :=
  (nth 0 (vch a) 0 =? nth 0 (vch b) 0) &&
  (memcmp (bytes a) (firstn (Z.to_nat (size a)) (vch b)) =? 0).
Definition ltb (a b : CPubKey) : bool :=
  (nth 0 (vch a) 0 <? nth 0 (vch b) 0) ||
  ((nth 0 (vch a) 0 =? nth 0 (vch b) 0) &&
   (memcmp (bytes a) (firstn (Z.to_nat (size a)) (vch b)) <? 0)).

Definition GetSerializeSize (p : CPubKey) : Z := size p + 1.

Definition Serialize (p : CPubKey) : SE CDataStream unit :=
  let len := size p in
  (WriteCompactSize len ;! write (firstn (Z.to_nat len) (vch p)))%se.

(** [while (len--) s.read(&dummy, 1);] *)
Fixpoint skip_bytes (len : nat) : SE CDataStream unit :=
  match len with
  | O => se_ret tt
  | S len => (read 1 ;! skip_bytes len)%se
  end.

Definition Unserialize (p : CPubKey) : SE CDataStream CPubKey :=
  (let! n := ReadCompactSize in
   let len := u32 n in
   if len <=? 65 then
     let! d := read len in se_ret (mkPubKey (d ++ skipn (List.length d) (vch p)))
   else skip_bytes (Z.to_nat len) ;! se_ret (Invalidate p))%se.

Section Hashed.
Context {h : Hashes}.
Definition GetID (p : CPubKey) : list Z := Hash160 (bytes p).
Definition GetHash (p : CPubKey) : list Z := Hash (bytes p).
End Hashed.

(** The encodings [Set] takes. *)
Definition enc_ok (d : list Z) : Prop := zlen d = GetLen (hd 0 d) /\ zlen d <> 0.
Definition array_ok (p : CPubKey) : Prop := zlen (vch p) = 65.

Lemma GetLen_range b : GetLen b = 0 \/ GetLen b = 33 \/ GetLen b = 65.
Proof. unfold GetLen. repeat zcase; auto. Qed.

Lemma enc_ok_length d : enc_ok d -> zlen d = 33 \/ zlen d = 65.
Proof. intros [-> N]. destruct (GetLen_range (hd 0 d)) as [E | [E | E]]; lia. Qed.

Lemma Set_valid p d : enc_ok d -> Set_ p d = mkPubKey (d ++ skipn (List.length d) (vch p)).
Proof.
  intros [E N]. unfold Set_. destruct d as [|b d]; [easy|]. cbn [hd] in E. rewrite <- E.
  rewrite (proj2 (Z.eqb_neq _ _)), Z.eqb_refl by easy. reflexivity.
Qed.

Lemma enc_bytes_app d t : enc_ok d -> bytes (mkPubKey (d ++ t)) = d.
Proof.
  intros [E N]. unfold bytes, size. cbn [vch].
  assert (nth 0 (d ++ t) 0 = hd 0 d) as -> by (destruct d; [easy|reflexivity]).
  rewrite <- E. apply firstn_app_exact.
Qed.

Lemma bytes_Set p d : enc_ok d -> bytes (Set_ p d) = d.
Proof. intros H. rewrite Set_valid by easy. now apply enc_bytes_app. Qed.

Lemma size_Set p d : enc_ok d -> size (Set_ p d) = zlen d.
Proof.
  intros H. rewrite Set_valid by easy. destruct H as [-> N].
  unfold size. cbn [vch]. destruct d; [easy|reflexivity].
Qed.

Lemma Set_array p d : array_ok p -> array_ok (Set_ p d).
Proof.
  unfold array_ok. intros H.
  assert (zlen (vch (Invalidate p)) = 65) as I.
  { cbn [vch Invalidate]. destruct (vch p); [easy|]. now rewrite zlen_cons in *. }
  unfold Set_. destruct (negb _ && _) eqn:E; [|exact I]. zbool.
  cbn [vch]. rewrite zlen_app. unfold zlen in *. rewrite length_skipn.
  assert (List.length d = 33%nat \/ List.length d = 65%nat) as [L | L]; [|lia..].
  destruct d as [|b d]; [easy|]. destruct (GetLen_range b) as [G | [G | G]]; lia.
Qed.

(** Equality of valid keys is equality of their encodings. *)
Lemma memcmp_eq a b : List.length a = List.length b -> bytes_ok a -> bytes_ok b ->
  memcmp a b = 0 <-> a = b.
Proof.
  intros L Ha Hb. unfold memcmp. rewrite KeyRange.compare_same_spec by easy.
  destruct (Z.compare_spec (be_val a) (be_val b)) as [E|E|E]; split; try easy; intros X;
    try (subst; lia).
  assert (forall l, bytes_ok l -> rev (le_bytes (List.length l) (be_val l)) = l) as R.
  { intros l Hl. unfold be_val. rewrite <- length_rev, le_bytes_val by now apply Forall_rev.
    apply rev_involutive. }
  now rewrite <- (R a), <- (R b), L, E.
Qed.

Lemma memcmp_refl a : memcmp a a = 0.
Proof. induction a; [easy|]. unfold memcmp in *. cbn. now rewrite Z.ltb_irrefl. Qed.

Lemma eqb_Set p q d : enc_ok d -> bytes_ok d -> eqb (Set_ p d) (Set_ q d) = true.
Proof.
  intros H Hb. unfold eqb. rewrite bytes_Set, size_Set by easy.
  rewrite !Set_valid by easy. cbn [vch]. rewrite firstn_app_exact.
  assert (forall t, nth 0 (d ++ t) 0 = hd 0 d) as N by (intros t; destruct d; [now destruct H|easy]).
  rewrite !N, Z.eqb_refl. cbn [andb]. apply Z.eqb_eq. now apply memcmp_eq.
Qed.

(** ** The wire format *)

#[export] Instance Serializable_CPubKey : Serializable CPubKey := {
  Wire.Serialize := Serialize;
  Wire.Unserialize := Unserialize fresh;
  Wire.GetSerializeSize := GetSerializeSize;
  sizeofT := 65
}.

Definition pubkey_ok (p : CPubKey) : Prop :=
  exists d, enc_ok d /\ p = mkPubKey (d ++ skipn (List.length d) (vch fresh)).

#[export] Instance SerLaws_CPubKey : SerLaws CPubKey pubkey_ok.
Proof.
  refine {| encode p := compact_bytes (size p) ++ bytes p |}.
  - intros p s (d & H & ->). cbn [Wire.Serialize Serializable_CPubKey]. unfold Serialize.
    assert (in_u 64 (size (mkPubKey (d ++ skipn (List.length d) (vch fresh))))) as W
        by (unfold size, in_u; destruct (GetLen_range (nth 0 (vch (mkPubKey
              (d ++ skipn (List.length d) (vch fresh)))) 0)) as [-> | [-> | ->]]; easy).
    erewrite se_bind_ret by exact (WriteCompactSize_append _ _ W).
    rewrite write_spec. cbn. now rewrite <- app_assoc.
  - intros p s rest (d & H & ->) Hok Hrem. cbn [Wire.Unserialize Serializable_CPubKey].
    rewrite enc_bytes_app, <- app_assoc in Hrem by easy.
    assert (size (mkPubKey (d ++ skipn (List.length d) (vch fresh))) = zlen d) as Sz
        by (rewrite <- Set_valid by easy; now apply size_Set).
    rewrite Sz in Hrem. unfold Unserialize.
    pose proof (enc_ok_length d H) as L.
    destruct (ReadCompactSize_take (zlen d) s (d ++ rest)) as (s1 & E1 & K1 & R1);
      [unfold MAX_SIZE; lia|easy..|].
    erewrite se_bind_ret by exact E1. rewrite wrapu_id by (unfold in_u; lia).
    rewrite (proj2 (Z.leb_le _ _)) by lia.
    destruct (read_queue s1 d rest) as (s2 & E2 & K2 & R2 & _); auto; [destruct H; now destruct d|].
    erewrite se_bind_ret by exact E2. exists s2. splits; auto.
  - intros p (d & H & ->). cbn [Wire.GetSerializeSize Serializable_CPubKey]. unfold GetSerializeSize.
    rewrite enc_bytes_app by easy.
    assert (size (mkPubKey (d ++ skipn (List.length d) (vch fresh))) = zlen d) as ->
        by (rewrite <- Set_valid by easy; now apply size_Set).
    rewrite zlen_app. destruct (enc_ok_length d H) as [-> | ->]; reflexivity.
Defined.

(** The encoding of an invalid key is the single byte 0 and reading it back succeeds, but
    the zero-length read it makes empties the stream: whatever followed the key is lost. *)
Theorem invalid_key_discards_stream p s rest :
  size p = 0 -> stream_ok s -> remaining s = 0 :: rest ->
  fst (Serialize p (Init [])) = Ret tt /\ remaining (snd (Serialize p (Init []))) = [0] /\
  exists s', Unserialize p s = (Ret p, s') /\ remaining s' = [].
Proof.
  intros Hz Hok Hrem. splits.
  1,2: unfold Serialize; rewrite Hz; reflexivity.
  destruct (ReadCompactSize_take 0 s rest) as (s1 & E & _); [easy|easy|exact Hrem|].
  unfold Unserialize. erewrite se_bind_ret by exact E. cbn [Z.leb].
  change (u32 0) with 0. cbn [Z.leb Z.compare].
  erewrite se_bind_ret by reflexivity. eexists. destruct p. split; reflexivity.
Qed.

Lemma invalid_key_discards_stream_witness :
  size fresh = 0 /\
  (fst (Serialize fresh (Init [])) = Ret tt /\ remaining (snd (Serialize fresh (Init []))) = [0] /\
   exists s', Unserialize fresh (Init [0; 7; 8]) = (Ret fresh, s') /\ remaining s' = []).
Proof.
  split; [reflexivity|].
  apply (invalid_key_discards_stream fresh (Init [0; 7; 8]) [7; 8]); [reflexivity| |reflexivity].
  now apply Init_ok.
Defined.

End PubKey.

(** ** CKey and the OpenSSL key object *)

Module Keys.
Import DataStream Wire PubKey KeyRange.

Record CKey := mkKey { fValid : bool; fCompressed : bool; secret : list Z }.

Definition Key_Init : CKey := mkKey false true (repeat 0 32).
Definition Key_Clear (k : CKey) : CKey := mkKey false true (repeat 0 32).

(** [Set(p, fCompressedIn)] and [Set(pbegin, pend, fCompressedIn)] *)
Definition Key_Set_ptr (k : CKey) (p : list Z) (fCompressedIn : bool) : CKey :=
  if Check p then mkKey true fCompressedIn p else mkKey false (fCompressed k) (secret k).
Definition Key_Set (k : CKey) (data : list Z) (fCompressedIn : bool) : CKey :=
  if negb (zlen data =? 32) then mkKey false (fCompressed k) (secret k)
  else if Check data then mkKey true fCompressedIn data
  else mkKey false (fCompressed k) (secret k).

Definition Key_size (k : CKey) : Z := if fValid k then 32 else 0.
Definition Key_eqb (a b : CKey) : bool :=
  Bool.eqb (fCompressed a) (fCompressed b) && (Key_size a =? Key_size b) &&
  (memcmp (firstn (Z.to_nat (Key_size a)) (secret a))
          (firstn (Z.to_nat (Key_size a)) (secret b)) =? 0).

(** [MakeNewKey]: draws 32 bytes until they pass [Check]; the draws are given. *)
Fixpoint MakeNewKey (rand : list (list Z)) (fCompressedIn : bool) : option CKey :=
  match rand with
  | [] => None
  | vch :: rand => if Check vch then Some (mkKey true fCompressedIn vch)
                   else MakeNewKey rand fCompressedIn
  end.

Definition Key_Serialize (k : CKey) : SE CDataStream unit :=
  (write (secret k) ;! write [if fValid k then 1 else 0])%se.
Definition Key_Unserialize (k : CKey) : SE CDataStream CKey :=
  (let! v := read 32 in let! f := read 1 in
   se_ret (mkKey (negb (nth 0 f 0 =? 0)) true v))%se.

(** The order as [EC_GROUP_get_order] gives it. *)
Definition bnOrder : Z := secp256k1_order.

(** [BN_bn2bin] at the end of 32 zeroed bytes. *)
Definition bin32 (x : Z) : list Z := rev (le_bytes 32 x).

(** [TweakSecret(out, in, tweak)]: its result and the bytes it leaves. *)
Definition TweakSecret (vchSecretIn vchTweak : list Z) : bool * list Z :=
  let ret := true in
  let bnTweak := be_val vchTweak in
  let ret := if bnOrder <=? bnTweak then false else ret in
  let bnSecret := be_val vchSecretIn in
  let bnSecret := bnSecret + bnTweak in
  let bnSecret := bnSecret mod bnOrder in
  let ret := if bnSecret =? 0 then false else ret in
  (ret, bin32 bnSecret).

Section Curve.
Context {h : Hashes} {ec : EC}.

(** [CECKey::TweakPublic(tweak)] on the public point of the object. *)
Definition TweakPublic (P : point) (vchTweak : list Z) : bool * point :=
  let ret := true in
  let bnTweak := be_val vchTweak in
  let ret := if bnOrder <=? bnTweak then false else ret in
  let bnOne := 1 in
  let P := padd (gmul bnTweak) (pmul bnOne P) in
  let ret := if is_infinity P then false else ret in
  (ret, P).

(** [CECKey::GetPubKey(pubkey, fCompressed)] and [CECKey::SetPubKey(pubkey)] *)
Definition ECKey_GetPubKey (P : point) (pubkey : CPubKey) (fCompressed : bool) : CPubKey :=
  Set_ pubkey (point2oct fCompressed P).
Definition ECKey_SetPubKey (pubkey : CPubKey) : option point := oct2point (bytes pubkey).

(** [CKey::GetPubKey(fForceCompressed)] and [CKey::GetPubKey()] *)
Definition GetPubKey_form (k : CKey) (c : bool) : res CPubKey :=
  if negb (fValid k) then Throw "assert"
  else Ret (ECKey_GetPubKey (gmul (be_val (secret k))) fresh c).
Definition GetPubKey (k : CKey) : res CPubKey := GetPubKey_form k (fCompressed k).

Definition IsFullyValid (p : CPubKey) : bool :=
  if negb (IsValid p) then false
  else match ECKey_SetPubKey p with None => false | Some _ => true end.

(** [CPubKey::Decompress()]: the result and the key it leaves. *)
Definition Decompress (p : CPubKey) : bool * CPubKey :=
  if negb (IsValid p) then (false, p)
  else match ECKey_SetPubKey p with
       | None => (false, p)
       | Some P => (true, ECKey_GetPubKey P p false)
       end.

(** [BIP32Hash]: HMAC-SHA512 of header, data and the index, big-endian. *)
Definition BIP32Hash (chainCode : list Z) (nChild header : Z) (data : list Z) : list Z :=
  let num := [Z.land (Z.shiftr nChild 24) 255; Z.land (Z.shiftr nChild 16) 255;
              Z.land (Z.shiftr nChild 8) 255; Z.land (Z.shiftr nChild 0) 255] in
  let ctx := HMAC.HMAC_SHA512_Init chainCode in
  let ctx := HMAC.HMAC_SHA512_Update ctx [header] in
  let ctx := HMAC.HMAC_SHA512_Update ctx data in
  let ctx := HMAC.HMAC_SHA512_Update ctx num in
  HMAC.HMAC_SHA512_Final ctx.

(** [CKey::Derive]: the result, the child key and the child's chain code. *)
Definition Key_Derive (k : CKey) (nChild : Z) (cc : list Z) : res (bool * CKey * list Z) :=
  if negb (fValid k) then Throw "assert"
  else if negb (fCompressed k) then Throw "assert"
  else
    let* out :=
      if Z.shiftr nChild 31 =? 0 then
        let* pubkey := GetPubKey k in
        if negb (PubKey.size pubkey =? 33) then Throw "assert"
        else Ret (BIP32Hash cc nChild (nth 0 (vch pubkey) 0) (firstn 32 (skipn 1 (vch pubkey))))
      else Ret (BIP32Hash cc nChild 0 (secret k)) in
    let ccChild := skipn 32 out in
    let '(ret, v) := TweakSecret (secret k) (firstn 32 out) in
    Ret (ret, mkKey ret true v, ccChild).

(** [CPubKey::Derive], into an existing [pubkeyChild].  A key the curve rejects
    leaves the OpenSSL object without a point, which [TweakPublic] then uses. *)
Definition PubKey_Derive (p : CPubKey) (pubkeyChild : CPubKey) (nChild : Z) (cc : list Z)
    : res (bool * CPubKey * list Z) :=
  if negb (IsValid p) then Throw "assert"
  else if negb (Z.shiftr nChild 31 =? 0) then Throw "assert"
  else if negb (PubKey.size p =? 33) then Throw "assert"
  else
    let out := BIP32Hash cc nChild (nth 0 (vch p) 0) (firstn 32 (skipn 1 (vch p))) in
    let ccChild := skipn 32 out in
    match ECKey_SetPubKey p with
    | None => Undef
    | Some P =>
        let '(ret, P) := TweakPublic P (firstn 32 out) in
        Ret (ret, ECKey_GetPubKey P pubkeyChild true, ccChild)
    end.

(** ** Extended keys *)

Record CExtKey := mkExtKey {
  x_nDepth : Z; x_vchFingerprint : list Z; x_nChild : Z; x_vchChainCode : list Z; x_key : CKey }.
Record CExtPubKey := mkExtPubKey {
  p_nDepth : Z; p_vchFingerprint : list Z; p_nChild : Z; p_vchChainCode : list Z;
  p_pubkey : CPubKey }.

Definition ExtKey_Derive (x : CExtKey) (nChild : Z) : res (bool * CExtKey) :=
  let* pubkey := GetPubKey (x_key x) in
  let id := GetID pubkey in
  let* d := Key_Derive (x_key x) nChild (x_vchChainCode x) in
  let '(ret, k, cc) := d in
  Ret (ret, mkExtKey (u8 (x_nDepth x + 1)) (firstn 4 id) nChild cc k).

Definition ExtPubKey_Derive (x out : CExtPubKey) (nChild : Z) : res (bool * CExtPubKey) :=
  let id := GetID (p_pubkey x) in
  let* d := PubKey_Derive (p_pubkey x) (p_pubkey out) nChild (p_vchChainCode x) in
  let '(ret, k, cc) := d in
  Ret (ret, mkExtPubKey (u8 (p_nDepth x + 1)) (firstn 4 id) nChild cc k).

Definition ExtKey_Neutered (x : CExtKey) : res CExtPubKey :=
  let* pubkey := GetPubKey_form (x_key x) true in
  Ret (mkExtPubKey (x_nDepth x) (firstn 4 (x_vchFingerprint x)) (x_nChild x)
         (firstn 32 (x_vchChainCode x)) pubkey).

Definition hashkey : list Z := [66; 105; 116; 99; 111; 105; 110; 32; 115; 101; 101; 100].

Definition ExtKey_SetMaster (x : CExtKey) (seed : list Z) : CExtKey :=
  let ctx := HMAC.HMAC_SHA512_Init hashkey in
  let ctx := HMAC.HMAC_SHA512_Update ctx seed in
  let out := HMAC.HMAC_SHA512_Final ctx in
  mkExtKey 0 (repeat 0 4) 0 (skipn 32 out) (Key_Set (x_key x) (firstn 32 out) true).

Definition ExtKey_SetKeyCode (x : CExtKey) (pkey pcode : list Z) : CExtKey :=
  mkExtKey 0 (repeat 0 4) 0 pcode (Key_Set_ptr (x_key x) pkey true).

End Curve.

(** [CExtPubKey::operator==] *)
Definition ExtPubKey_eqb (a b : CExtPubKey) : bool :=
  (p_nDepth a =? p_nDepth b) &&
  (memcmp (p_vchFingerprint a) (p_vchFingerprint b) =? 0) &&
  (p_nChild a =? p_nChild b) &&
  (memcmp (p_vchChainCode a) (p_vchChainCode b) =? 0) && PubKey.eqb (p_pubkey a) (p_pubkey b).

(** The first 41 bytes of an encoding. *)
Definition enc_head (nDepth : Z) (fp : list Z) (nChild : Z) (cc : list Z) : list Z :=
  [u8 nDepth] ++ fp ++
  [Z.land (Z.shiftr nChild 24) 255; Z.land (Z.shiftr nChild 16) 255;
   Z.land (Z.shiftr nChild 8) 255; Z.land (Z.shiftr nChild 0) 255] ++ cc.

(** [(code[5] << 24) | (code[6] << 16) | (code[7] << 8) | code[8]] *)
Definition dec_child (code : list Z) : Z :=
  let b i := nth i code 0 in
  u32 (Z.lor (Z.lor (Z.lor (i32 (Z.shiftl (b 5%nat) 24)) (Z.shiftl (b 6%nat) 16))
                    (Z.shiftl (b 7%nat) 8)) (b 8%nat)).

Definition sub (code : list Z) (from n : nat) : list Z := firstn n (skipn from code).

Definition ExtKey_Encode (x : CExtKey) : res (list Z) :=
  let code := enc_head (x_nDepth x) (x_vchFingerprint x) (x_nChild x) (x_vchChainCode x) in
  if negb (Key_size (x_key x) =? 32) then Throw "assert"
  else Ret (code ++ [0] ++ firstn 32 (secret (x_key x))).

Definition ExtKey_Decode (x : CExtKey) (code : list Z) : CExtKey :=
  mkExtKey (nth 0 code 0) (sub code 1 4) (dec_child code) (sub code 9 32)
    (Key_Set (x_key x) (sub code 42 32) true).

Definition ExtPubKey_Encode (x : CExtPubKey) : res (list Z) :=
  let code := enc_head (p_nDepth x) (p_vchFingerprint x) (p_nChild x) (p_vchChainCode x) in
  if negb (PubKey.size (p_pubkey x) =? 33) then Throw "assert"
  else Ret (code ++ firstn 33 (vch (p_pubkey x))).

Definition ExtPubKey_Decode (x : CExtPubKey) (code : list Z) : CExtPubKey :=
  mkExtPubKey (nth 0 code 0) (sub code 1 4) (dec_child code) (sub code 9 32)
    (Set_ (p_pubkey x) (sub code 41 33)).

(** ** Derivation commutes with taking the public part *)

(** A compressed key whose bytes passed [Check]. *)
Definition key_ok (k : CKey) : Prop :=
  fValid k = true /\ fCompressed k = true /\ Check (secret k) = true /\
  zlen (secret k) = 32 /\ bytes_ok (secret k).

Lemma key_ok_range k : key_ok k -> 0 < be_val (secret k) < bnOrder.
Proof.
  intros (_ & _ & C & L & B). rewrite Check_spec in C by easy. zbool. unfold bnOrder. lia.
Qed.

Lemma bin32_ok x : 0 <= x < bnOrder -> bytes_ok (bin32 x) /\ zlen (bin32 x) = 32 /\ be_val (bin32 x) = x.
Proof.
  intros H. unfold bin32. splits.
  - apply Forall_rev, le_bytes_ok.
  - rewrite zlen_rev. apply zlen_le_bytes.
  - unfold be_val. rewrite rev_involutive, le_val_bytes. apply Z.mod_small.
    assert (bnOrder < 2 ^ (8 * Z.of_nat 32)) by reflexivity. lia.
Qed.

Lemma mod_order_range x : 0 <= x mod bnOrder < bnOrder.
Proof. now apply Z.mod_pos_bound. Qed.

Lemma TweakSecret_spec s t b v : TweakSecret s t = (b, v) ->
  b = (be_val t <? bnOrder) && negb ((be_val s + be_val t) mod bnOrder =? 0) /\
  bytes_ok v /\ zlen v = 32 /\ be_val v = (be_val s + be_val t) mod bnOrder.
Proof.
  unfold TweakSecret. intros [= <- <-]. split; [|apply bin32_ok, mod_order_range].
  rewrite Z.ltb_antisym. destruct (bnOrder <=? be_val t), (_ =? 0); reflexivity.
Qed.

Section Commute.
Context {h : Hashes} {hl : Hashes_laws h} {ec : EC} {el : EC_laws ec}.

Lemma BIP32Hash_out cc n hd data :
  zlen (BIP32Hash cc n hd data) = 64 /\ bytes_ok (BIP32Hash cc n hd data).
Proof. split; [apply SHA512_size | apply SHA512_bytes]. Qed.

Lemma compressed_enc P : is_infinity P = false -> enc_ok (point2oct true P) /\
  zlen (point2oct true P) = 33.
Proof.
  intros H. destruct (point2oct_compressed P H) as [L [E | E]]; unfold enc_ok; rewrite L, E; easy.
Qed.

Lemma gmul_finite s : s mod bnOrder <> 0 -> is_infinity (gmul s) = false.
Proof. intros H. rewrite gmul_infinity. now apply Z.eqb_neq. Qed.

Lemma key_point_finite k : key_ok k -> is_infinity (gmul (be_val (secret k))) = false.
Proof.
  intros H. apply gmul_finite. pose proof (key_ok_range k H). rewrite Z.mod_small by lia. lia.
Qed.

Lemma TweakPublic_gmul s t :
  TweakPublic (gmul s) t =
  ((be_val t <? bnOrder) && negb ((s + be_val t) mod bnOrder =? 0), gmul (s + be_val t)).
Proof.
  unfold TweakPublic. rewrite pmul_one, <- gmul_add, gmul_infinity, (Z.add_comm _ s).
  f_equal. rewrite Z.ltb_antisym.
  change secp256k1_order with bnOrder. destruct (bnOrder <=? be_val t), (_ =? 0); reflexivity.
Qed.

(** The two [Derive]s of the key of a secret, side by side. *)
Lemma Derive_pair k n cc child : key_ok k -> 0 <= n < 2 ^ 31 ->
  exists p b v cc',
    GetPubKey k = Ret p /\ GetPubKey_form k true = Ret p /\
    Key_Derive k n cc = Ret (b, mkKey b true v, cc') /\
    PubKey_Derive p child n cc = Ret (b, Set_ child (point2oct true (gmul (be_val v))), cc') /\
    zlen cc' = 32 /\ bytes_ok cc' /\
    bytes_ok v /\ zlen v = 32 /\ be_val v < bnOrder /\ (b = true -> 0 < be_val v).
Proof.
  intros Hk Hn. pose proof (key_point_finite k Hk) as F.
  destruct (compressed_enc _ F) as [Enc L33]. pose proof Hk as (V & C & _).
  set (d := point2oct true (gmul (be_val (secret k)))) in *.
  set (out := BIP32Hash cc n (nth 0 (vch (Set_ fresh d)) 0) (firstn 32 (skipn 1 (vch (Set_ fresh d))))).
  destruct (BIP32Hash_out cc n (nth 0 (vch (Set_ fresh d)) 0)
              (firstn 32 (skipn 1 (vch (Set_ fresh d))))) as [Lo Bo]. fold out in Lo, Bo.
  destruct (TweakSecret (secret k) (firstn 32 out)) as [b v] eqn:T.
  pose proof (TweakSecret_spec _ _ _ _ T) as (Eb & Bv & Lv & Vv).
  assert (GetPubKey_form k true = Ret (Set_ fresh d)) as G
      by (unfold GetPubKey_form; now rewrite V).
  assert (GetPubKey k = Ret (Set_ fresh d)) as G' by (unfold GetPubKey; now rewrite C).
  assert ((Z.shiftr n 31 =? 0) = true) as S31
      by (rewrite Z.shiftr_div_pow2, Z.div_small by lia; reflexivity).
  exists (Set_ fresh d), b, v, (skipn 32 out). splits; auto.
  - unfold Key_Derive. rewrite V, C, S31, G'. cbn [negb res_bind].
    rewrite size_Set by easy. rewrite L33. cbn [Z.eqb negb Pos.eqb res_bind]. fold out. now rewrite T.
  - unfold PubKey_Derive, IsValid. rewrite size_Set by easy. rewrite L33, S31. fold out.
    cbn [negb Z.ltb Z.compare Z.eqb Pos.eqb]. unfold ECKey_SetPubKey. rewrite bytes_Set by easy.
    unfold d at 1. rewrite oct2point_point2oct by easy. rewrite TweakPublic_gmul, <- Eb.
    unfold ECKey_GetPubKey. rewrite Vv. change bnOrder with secp256k1_order.
    now rewrite gmul_order.
  - change 32%nat with (Z.to_nat 32). rewrite zlen_skipn by lia. lia.
  - now apply Forall_skipn_n.
  - rewrite Vv. apply mod_order_range.
  - intros ->. symmetry in Eb. zbool. rewrite Vv in *. pose proof (mod_order_range (be_val (secret k) + be_val (firstn 32 out))). lia.
Qed.

(** C7: for every index below 2^31, deriving a child of the public half gives the public half of
    the derived child: the two derivations succeed together, agree on depth, fingerprint, index,
    chain code and key ([operator==] of the code), and a derived secret is again in range. *)
Theorem derive_neutered_commute x n out :
  key_ok (x_key x) -> 0 <= n < 2 ^ 31 -> zlen (x_vchChainCode x) = 32 ->
  exists b x' p p',
    ExtKey_Derive x n = Ret (b, x') /\ ExtKey_Neutered x = Ret p /\
    ExtPubKey_Derive p out n = Ret (b, p') /\
    (b = true -> key_ok (x_key x') /\
     exists q, ExtKey_Neutered x' = Ret q /\ ExtPubKey_eqb p' q = true).
Proof.
  intros Hk Hn Hcc.
  destruct (Derive_pair (x_key x) n (x_vchChainCode x) (p_pubkey out) Hk Hn)
    as (p & b & v & cc' & G & Gf & KD & PD & Lc & Bc & Bv & Lv & Rv & Pv).
  unfold ExtKey_Derive, ExtKey_Neutered, ExtPubKey_Derive. rewrite G, Gf. cbn [res_bind].
  rewrite KD. cbn [res_bind p_pubkey p_vchChainCode p_nDepth].
  rewrite (firstn_all2 (x_vchChainCode x)) by (unfold zlen in Hcc; lia).
  do 4 eexists. splits; [reflexivity|reflexivity| |].
  { cbn [p_pubkey p_vchChainCode]. rewrite PD. reflexivity. }
  intros ->. specialize (Pv eq_refl).
  assert (key_ok (mkKey true true v)) as K.
  { unfold key_ok. cbn [fValid fCompressed secret]. splits; auto. rewrite Check_spec by easy.
    apply andb_true_iff. split; apply Z.ltb_lt; [exact Pv|exact Rv]. }
  cbn [x_key]. split; [exact K|].
  eexists. split; [reflexivity|]. unfold ExtPubKey_eqb.
  cbn [p_nDepth p_vchFingerprint p_nChild p_vchChainCode p_pubkey x_nDepth x_vchFingerprint x_nChild
       x_vchChainCode]. rewrite !Z.eqb_refl.
  rewrite (firstn_all2 cc') by (unfold zlen in Lc; lia). rewrite firstn_firstn. cbn [Nat.min].
  rewrite !memcmp_refl. cbn [andb Z.eqb].
  apply eqb_Set; [apply (compressed_enc _ (key_point_finite _ K)) | apply point2oct_bytes].
Qed.

End Commute.

(** ** The 74-byte encodings *)

Lemma u32_lor x y : u32 (Z.lor x y) = Z.lor (u32 x) (u32 y).
Proof. unfold wrapu. rewrite <- !Z.land_ones by easy. apply Z.land_lor_distr_l. Qed.

Lemma u32_i32 x : u32 (i32 x) = u32 x.
Proof.
  unfold wrapu, wraps. rewrite <- Zminus_mod_idemp_l, Z.mod_mod, Zminus_mod_idemp_l by easy.
  f_equal. lia.
Qed.

(** The four bytes of an index, most significant first, give it back. *)
Lemma dec_child_enc pre n post : in_u 32 n -> List.length pre = 5%nat ->
  dec_child (pre ++ [Z.land (Z.shiftr n 24) 255; Z.land (Z.shiftr n 16) 255;
                     Z.land (Z.shiftr n 8) 255; Z.land (Z.shiftr n 0) 255] ++ post) = n.
Proof.
  intros Hn Hp. unfold dec_child.
  assert (forall i l, nth (5 + i) (pre ++ l) 0 = nth i l 0) as N5
      by (intros i l; rewrite app_nth2 by lia; f_equal; lia).
  rewrite (N5 0%nat), (N5 1%nat), (N5 2%nat), (N5 3%nat). cbn [nth app].
  rewrite !land255, !Z.shiftr_div_pow2, Z.pow_0_r, Z.div_1_r by lia. unfold in_u in Hn.
  rewrite !u32_lor, u32_i32.
  set (b3 := (n / 2 ^ 24) mod 256). set (b2 := (n / 2 ^ 16) mod 256).
  set (b1 := (n / 2 ^ 8) mod 256). set (b0 := n mod 256).
  assert (n = ((b3 * 256 + b2) * 256 + b1) * 256 + b0 /\ 0 <= b3 < 256 /\ 0 <= b2 < 256 /\
          0 <= b1 < 256 /\ 0 <= b0 < 256) as (E & H3 & H2 & H1 & H0).
  { unfold b0, b1, b2, b3. clear - Hn. change (2 ^ 24) with 16777216 in *.
    change (2 ^ 16) with 65536. change (2 ^ 8) with 256. change (2 ^ 32) with 4294967296 in Hn.
    splits; try (apply Z.mod_pos_bound; lia). Z.to_euclidean_division_equations. lia. }
  clearbody b0 b1 b2 b3. rewrite !Z.shiftl_mul_pow2 by lia.
  change (2 ^ 24) with 16777216. change (2 ^ 16) with 65536. change (2 ^ 8) with 256.
  rewrite !wrapu_id by (unfold in_u; change (2 ^ 32) with 4294967296; lia).
  replace (b3 * 16777216) with (Z.shiftl (b3 * 256) 16) by (rewrite Z.shiftl_mul_pow2 by lia; lia).
  assert (forall a k d, 0 <= k -> 0 <= d < 2 ^ k -> Z.lor (Z.shiftl a k) d = a * 2 ^ k + d)
    as LS by (intros; now apply lor_shiftl_add).
  replace (Z.lor (Z.shiftl (b3 * 256) 16) (b2 * 65536)) with (Z.shiftl ((b3 * 256 + b2) * 256) 8).
  2:{ replace (b2 * 65536) with (Z.shiftl b2 16) by now rewrite Z.shiftl_mul_pow2.
      rewrite <- Z.shiftl_lor. replace (b3 * 256) with (Z.shiftl b3 8) at 2
        by now rewrite Z.shiftl_mul_pow2.
      rewrite LS by lia. rewrite !Z.shiftl_mul_pow2 by lia. lia. }
  replace (Z.lor (Z.shiftl ((b3 * 256 + b2) * 256) 8) (b1 * 256))
    with (Z.shiftl ((b3 * 256 + b2) * 256 + b1) 8).
  2:{ replace (b1 * 256) with (Z.shiftl b1 8) by now rewrite Z.shiftl_mul_pow2.
      rewrite <- Z.shiftl_lor. replace ((b3 * 256 + b2) * 256) with (Z.shiftl (b3 * 256 + b2) 8) at 2
        by now rewrite Z.shiftl_mul_pow2.
      rewrite LS by lia. reflexivity. }
  rewrite LS by lia. lia.
Qed.

Lemma sub_app (a b c : list Z) : sub (a ++ b ++ c) (List.length a) (List.length b) = b.
Proof.
  unfold sub. rewrite skipn_app, skipn_all, Nat.sub_diag. cbn [app skipn].
  rewrite firstn_app, Nat.sub_diag, firstn_all. apply app_nil_r.
Qed.

(** The fields a decoder finds in a code that starts with [enc_head]. *)
Lemma enc_head_fields d fp n cc key :
  in_u 8 d -> List.length fp = 4%nat -> in_u 32 n -> List.length cc = 32%nat ->
  let code := enc_head d fp n cc ++ key in
  nth 0 code 0 = d /\ sub code 1 4 = fp /\ dec_child code = n /\ sub code 9 32 = cc /\
  skipn 41 code = key.
Proof.
  intros Hd Hf Hn Hc code. unfold code, enc_head. clear code.
  set (num := [Z.land (Z.shiftr n 24) 255; _; _; _]).
  rewrite <- !app_assoc. splits.
  - cbn. now apply wrapu_id.
  - rewrite <- Hf. exact (sub_app [u8 d] fp (num ++ cc ++ key)).
  - rewrite (app_assoc [u8 d] fp). apply dec_child_enc; [easy|]. rewrite length_app, Hf. easy.
  - transitivity (sub (([u8 d] ++ fp ++ num) ++ cc ++ key) (List.length ([u8 d] ++ fp ++ num))
                    (List.length cc)); [|apply sub_app].
    rewrite !length_app, Hf, Hc, <- !app_assoc. reflexivity.
  - rewrite !app_assoc, skipn_app, skipn_all2 by (rewrite !length_app, Hf, Hc; cbn; lia).
    rewrite !length_app, Hf, Hc. reflexivity.
Qed.

Definition ext_head_ok (d : Z) (fp : list Z) (n : Z) (cc : list Z) : Prop :=
  in_u 8 d /\ List.length fp = 4%nat /\ in_u 32 n /\ List.length cc = 32%nat.

(** Decoding the 74-byte encoding of an extended private key with a valid secret, or of an
    extended public key with a compressed public key, into any object gives the encoded fields
    back, the index included although its top byte is shifted into the sign bit of an [int]. *)
Theorem extkey_codes_roundtrip x y p q :
  ext_head_ok (x_nDepth x) (x_vchFingerprint x) (x_nChild x) (x_vchChainCode x) ->
  key_ok (x_key x) ->
  ext_head_ok (p_nDepth p) (p_vchFingerprint p) (p_nChild p) (p_vchChainCode p) ->
  (exists d, enc_ok d /\ zlen d = 33 /\ p_pubkey p = Set_ (p_pubkey q) d) ->
  (exists code, ExtKey_Encode x = Ret code /\ zlen code = 74 /\ ExtKey_Decode y code = x) /\
  (exists code, ExtPubKey_Encode p = Ret code /\ zlen code = 74 /\ ExtPubKey_Decode q code = p).
Proof.
  destruct x as [d fp n cc [fv fc s]], p as [d' fp' n' cc' pk].
  cbn [x_nDepth x_vchFingerprint x_nChild x_vchChainCode x_key p_nDepth p_vchFingerprint p_nChild
       p_vchChainCode p_pubkey].
  intros (Hd & Hf & Hn & Hc) (V & C & K & L & B) (Hd' & Hf' & Hn' & Hc') (pb & He & L33 & ->).
  cbn [fValid fCompressed secret] in *. subst fv fc. split.
  - unfold ExtKey_Encode, Key_size. cbn [x_key fValid Z.eqb Pos.eqb negb secret x_nDepth
      x_vchFingerprint x_nChild x_vchChainCode].
    rewrite firstn_all2 by (unfold zlen in L; lia).
    eexists. split; [reflexivity|]. split.
    { unfold zlen in *. unfold enc_head. rewrite !length_app, Hf, Hc. cbn [List.length]. lia. }
    unfold ExtKey_Decode.
    destruct (enc_head_fields d fp n cc ([0] ++ s) Hd Hf Hn Hc) as (-> & -> & -> & -> & E).
    f_equal. unfold Key_Set.
    assert (sub (enc_head d fp n cc ++ [0] ++ s) 42 32 = s) as ->.
    { unfold sub. change 42%nat with (1 + 41)%nat. rewrite <- skipn_skipn, E. cbn [skipn app].
      apply firstn_all2. unfold zlen in L. lia. }
    rewrite L, K. reflexivity.
  - unfold ExtPubKey_Encode. cbn [p_pubkey p_nDepth p_vchFingerprint p_nChild p_vchChainCode].
    rewrite size_Set, L33 by easy. cbn [Z.eqb Pos.eqb negb].
    assert (firstn 33 (vch (Set_ (p_pubkey q) pb)) = pb) as ->.
    { rewrite Set_valid by easy. cbn [vch]. change 33%nat with (Z.to_nat 33). rewrite <- L33.
      apply firstn_app_exact. }
    eexists. split; [reflexivity|]. split.
    { unfold zlen in *. unfold enc_head. rewrite !length_app, Hf', Hc'. cbn [List.length]. lia. }
    unfold ExtPubKey_Decode.
    destruct (enc_head_fields d' fp' n' cc' pb Hd' Hf' Hn' Hc') as (-> & -> & -> & -> & E).
    unfold sub. rewrite E. rewrite firstn_all2 by (unfold zlen in L33; lia). reflexivity.
Qed.

Definition demo_key : CKey := mkKey true true (repeat 1 32).
Definition demo_ext : CExtKey := mkExtKey 3 [1; 2; 3; 4] 2147483649 (repeat 9 32) demo_key.
Definition demo_pub : CExtPubKey :=
  mkExtPubKey 3 [1; 2; 3; 4] 4294967295 (repeat 9 32) (Set_ fresh (2 :: repeat 5 32)).

Lemma demo_key_ok : key_ok demo_key.
Proof. unfold key_ok. splits; try reflexivity. now repeat constructor. Qed.

Lemma demo_head_ok n : in_u 32 n -> ext_head_ok 3 [1; 2; 3; 4] n (repeat 9 32).
Proof. intros H. unfold ext_head_ok. now splits. Qed.

Lemma extkey_codes_roundtrip_witness :
  (exists code, ExtKey_Encode demo_ext = Ret code /\ zlen code = 74 /\
     ExtKey_Decode demo_ext code = demo_ext) /\
  (exists code, ExtPubKey_Encode demo_pub = Ret code /\ zlen code = 74 /\
     ExtPubKey_Decode (mkExtPubKey 0 [] 0 [] fresh) code = demo_pub).
Proof.
  refine (extkey_codes_roundtrip demo_ext demo_ext demo_pub (mkExtPubKey 0 [] 0 [] fresh) _ _ _ _).
  - apply demo_head_ok. easy.
  - apply demo_key_ok.
  - apply demo_head_ok. easy.
  - exists (2 :: repeat 5 32). splits; reflexivity || easy.
Defined.

Lemma derive_neutered_commute_witness :
  exists b x' p p',
    @ExtKey_Derive Toy.hashes Toy.ec demo_ext 5 = Ret (b, x') /\
    @ExtKey_Neutered Toy.ec demo_ext = Ret p /\
    @ExtPubKey_Derive Toy.hashes Toy.ec p demo_pub 5 = Ret (b, p') /\
    (b = true -> key_ok (x_key x') /\
     exists q, @ExtKey_Neutered Toy.ec x' = Ret q /\ ExtPubKey_eqb p' q = true).
Proof.
  refine (@derive_neutered_commute Toy.hashes Toy.hashes_laws Toy.ec Toy.ec_laws demo_ext 5 demo_pub
            demo_key_ok _ _); [easy|reflexivity].
Defined.

End Keys.
