(* ===== verification/RingSig.v ===== *)
(** * Stealth addresses and ring signatures (src/src/stealth.cpp, src/src/ringsig.cpp)

    The two protocols that carry the anonymity of the chain, over the curve and
    hash interfaces of [Crypto]: the shared secret of a stealth payment, key
    images, and both ring signatures.  Randomness is the list of the 32-byte
    draws [RAND_bytes] makes; an empty list is a failing generator.  [Throw] is
    a non-zero return value; allocation failures are not modelled. *)

From Stdlib Require Import ZArith Lia List String Bool.
From S2P Require Import Prelude Crypto Key.
Import ListNotations.
#[local] Open Scope Z_scope.
#[local] Open Scope res_scope.
#[local] Existing Instances Toy.hashes Toy.hashes_laws Toy.ec Toy.ec_laws | 100.

(** ** Numbers and points as bytes *)

Module Points.
Import Keys.

Definition EC_SECRET_SIZE : Z := 32.
Definition EC_COMPRESSED_SIZE : Z := 33.

(** The bytes a number read from [d] is written with: no leading zeros. *)
Fixpoint strip_zeros (d : list Z) : list Z :=
  match d with
  | b :: ((_ :: _) as r) => if b =? 0 then strip_zeros r else d
  | _ => d
  end.

Section Points.
Context {ec : EC}.

(** [EC_POINT_bn2point(BN_bin2bn(d))] *)
Definition bn2point (d : list Z) : option point := oct2point (strip_zeros d).

(** [EC_POINT_point2bn] then [BN_bn2bin], when that gives 33 bytes. *)
Definition point2bin (P : point) : option (list Z) :=
  let d := strip_zeros (point2oct true P) in
  if zlen d =? EC_COMPRESSED_SIZE then Some d else None.

(** [EC_POINT_point2oct] of 33 bytes. *)
Definition point2oct33 (P : point) : option (list Z) :=
  let d := point2oct true P in
  if zlen d =? EC_COMPRESSED_SIZE then Some d else None.

End Points.

(** A failing call: the function logs and returns [rv]. *)
Definition check {A} (o : option A) (what : string) : res A :=
  match o with Some a => Ret a | None => Throw what end.

Section Laws.
Context {ec : EC} {el : EC_laws ec}.

Lemma strip_compressed P : is_infinity P = false ->
  strip_zeros (point2oct true P) = point2oct true P.
Proof.
  intros H. destruct (point2oct_compressed P H) as [L [E | E]];
    destruct (point2oct true P) as [|b [|c r]]; cbn in *; subst; easy.
Qed.

Lemma bn2point_enc P : is_infinity P = false -> bn2point (point2oct true P) = Some P.
Proof. intros H. unfold bn2point. rewrite strip_compressed by easy. now apply oct2point_point2oct. Qed.

Lemma point2oct33_enc P : point2oct33 P = if is_infinity P then None else Some (point2oct true P).
Proof.
  unfold point2oct33. destruct (is_infinity P) eqn:E.
  - now rewrite point2oct_infinity.
  - destruct (point2oct_compressed P E) as [-> _]. reflexivity.
Qed.

Lemma point2bin_enc P : point2bin P = if is_infinity P then None else Some (point2oct true P).
Proof.
  unfold point2bin. destruct (is_infinity P) eqn:E.
  - now rewrite point2oct_infinity.
  - rewrite strip_compressed by easy. destruct (point2oct_compressed P E) as [-> _]. reflexivity.
Qed.
End Laws.

End Points.

(** ** Stealth addresses *)

Module Stealth.
Import Keys Points.

Definition MIN_SECRET : Z := 16000.
Definition MAX_SECRET : Z := 0xFFFFFFFFFFFFFFFFFFFFFFFFFFFFFFFEBAAEDCE6AF48A03BBFD25E8CD0364140.

(** The loop of [GenerateRandomSecret]: the drawn bytes are compared as a
    [uint256], that is, least significant byte first. *)
Fixpoint random_loop (tries : nat) (rand : list (list Z)) : res (list Z * list (list Z)) :=
  match tries with
  | O => Throw "Failed to generate a valid key."
  | S tries =>
      match rand with
      | [] => Throw "RAND_bytes"
      | test :: rand =>
          if (MIN_SECRET <? le_val test) && (le_val test <? MAX_SECRET) then Ret (test, rand)
          else random_loop tries rand
      end
  end.
Definition GenerateRandomSecret (rand : list (list Z)) := random_loop 32 rand.

Section Stealth.
Context {h : Hashes} {ec : EC}.

Definition SecretToPublicKey (secret : list Z) : res (list Z) :=
  let bnIn := be_val secret in
  let pub := gmul bnIn in
  check (point2bin pub) "bnOut incorrect length".

(** [StealthSecret(secret, pubkey, pkSpend)]: the shared secret and the key paid to. *)
Definition StealthSecret (secret pubkey pkSpend : list Z) : res (list Z * list Z) :=
  let bnEphem := be_val secret in
  let* Q := check (bn2point pubkey) "Q EC_POINT_bn2point failed." in
  let Q := pmul bnEphem Q in
  let* vchOutQ := check (point2bin Q) "bnOutQ incorrect length." in
  let sharedSOut := SHA256 vchOutQ in
  let bnc := be_val sharedSOut in
  let C := gmul bnc in
  let* R := check (bn2point pkSpend) "R EC_POINT_bn2point failed." in
  let C := gmul bnc in
  let Rout := padd R C in
  let* pkOut := check (point2bin Rout) "pkOut incorrect length." in
  Ret (sharedSOut, pkOut).

(** The second half of [StealthSecretSpend] and all of [StealthSharedToSecretSpend]. *)
Definition StealthSharedToSecretSpend (sharedS spendSecret : list Z) : res (list Z) :=
  let bnc := be_val sharedS in
  let bnSpend := be_val spendSecret in
  let bnSpend := (bnSpend + bnc) mod bnOrder in
  if bnSpend =? 0 then Throw "bnSpend is zero."
  else Ret (bin32 bnSpend).

Definition StealthSecretSpend (scanSecret ephemPubkey spendSecret : list Z) : res (list Z) :=
  let bnScanSecret := be_val scanSecret in
  let* P := check (bn2point ephemPubkey) "P EC_POINT_bn2point failed." in
  let P := pmul bnScanSecret P in
  let* vchOutP := check (point2bin P) "bnOutP incorrect length." in
  let hash1 := SHA256 vchOutP in
  let bnc := be_val hash1 in
  let bnSpend := be_val spendSecret in
  let bnSpend := (bnSpend + bnc) mod bnOrder in
  if bnSpend =? 0 then Throw "bnSpend is zero."
  else Ret (bin32 bnSpend).

Definition StealthSharedToPublicKey (pkSpend sharedS : list Z) : res (list Z) :=
  let bnc := be_val sharedS in
  let C := gmul bnc in
  let* R := check (bn2point pkSpend) "R EC_POINT_bn2point failed." in
  let C := gmul bnc in
  let Rout := padd R C in
  check (point2bin Rout) "pkOut incorrect length.".

End Stealth.

Section Properties.
Context {h : Hashes} {ec : EC} {el : EC_laws ec}.

Lemma SecretToPublicKey_value s :
  SecretToPublicKey s =
  if be_val s mod bnOrder =? 0 then Throw "bnOut incorrect length"
  else Ret (point2oct true (gmul (be_val s))).
Proof.
  unfold SecretToPublicKey. rewrite point2bin_enc, gmul_infinity.
  change secp256k1_order with bnOrder. now destruct (_ =? 0).
Qed.

Lemma SecretToPublicKey_inv s pk : SecretToPublicKey s = Ret pk ->
  is_infinity (gmul (be_val s)) = false /\ pk = point2oct true (gmul (be_val s)).
Proof.
  rewrite SecretToPublicKey_value, gmul_infinity. change secp256k1_order with bnOrder.
  destruct (_ =? 0); [discriminate|]. now intros [= <-].
Qed.

(** C6: the two ends of a stealth payment agree.  When the sender with the ephemeral secret e pays
    to the scan and spend keys of the receiver, the receiver with the scan secret d computes the
    same shared secret from the ephemeral public key; the key paid to is the one
    [StealthSharedToPublicKey] gives a wallet without secrets, and, unless the sum of the secrets
    is zero, the secret [StealthSecretSpend] derives is the secret of exactly that key, both from
    the scan secret and from the shared secret alone. *)
Theorem stealth_agreement e d f P Q R shared pkOut :
  SecretToPublicKey e = Ret P -> SecretToPublicKey d = Ret Q -> SecretToPublicKey f = Ret R ->
  StealthSecret e Q R = Ret (shared, pkOut) ->
  (exists pk', StealthSecret d P R = Ret (shared, pk')) /\
  StealthSharedToPublicKey R shared = Ret pkOut /\
  exists secretOut,
    StealthSecretSpend d P f = Ret secretOut /\
    StealthSharedToSecretSpend shared f = Ret secretOut /\
    SecretToPublicKey secretOut = Ret pkOut.
Proof.
  intros HP HQ HR HS.
  apply SecretToPublicKey_inv in HP as (FP & ->). apply SecretToPublicKey_inv in HQ as (FQ & ->).
  apply SecretToPublicKey_inv in HR as (FR & ->).
  unfold StealthSecret in *. rewrite !bn2point_enc in HS by easy. cbn [check res_bind] in HS.
  rewrite gmul_pmul, point2bin_enc in HS.
  destruct (is_infinity (gmul (be_val e * be_val d))) eqn:FS; [discriminate|].
  cbn [check res_bind] in HS. rewrite <- gmul_add, point2bin_enc in HS.
  set (c := be_val (SHA256 (point2oct true (gmul (be_val e * be_val d))))) in *.
  destruct (is_infinity (gmul (be_val f + c))) eqn:FO; [discriminate|].
  cbn [check res_bind] in HS. injection HS as <- <-.
  assert (((be_val f + c) mod bnOrder =? 0) = false) as NZ
      by (rewrite gmul_infinity in FO; exact FO).
  rewrite !bn2point_enc by easy. cbn [check res_bind].
  rewrite gmul_pmul, (Z.mul_comm (be_val d)), point2bin_enc, FS. cbn [check res_bind].
  fold c. rewrite <- gmul_add, point2bin_enc, FO. cbn [check res_bind]. splits.
  - now eexists.
  - unfold StealthSharedToPublicKey. rewrite bn2point_enc by easy. cbn [check res_bind].
    fold c. now rewrite <- gmul_add, point2bin_enc, FO.
  - exists (bin32 ((be_val f + c) mod bnOrder)).
    unfold StealthSecretSpend, StealthSharedToSecretSpend. rewrite bn2point_enc by easy.
    cbn [check res_bind]. rewrite gmul_pmul, (Z.mul_comm (be_val d)), point2bin_enc, FS.
    cbn [check res_bind]. fold c. rewrite NZ. splits; try reflexivity.
    destruct (bin32_ok _ (mod_order_range (be_val f + c))) as (_ & _ & V).
    rewrite SecretToPublicKey_value, V, Z.mod_mod, NZ by easy.
    change bnOrder with secp256k1_order. now rewrite gmul_order.
Qed.

End Properties.

(** [GenerateRandomSecret] compares the draw least significant byte first, but every user reads
    it most significant byte first: a draw it accepts can be a number above the group order,
    which [CKey::Check] refuses. *)
Theorem random_secret_byte_order :
  GenerateRandomSecret [repeat 255 31 ++ [0]] = Ret (repeat 255 31 ++ [0], []) /\
  KeyRange.Check (repeat 255 31 ++ [0]) = false /\
  bnOrder < be_val (repeat 255 31 ++ [0]).
Proof. splits; vm_compute; reflexivity. Qed.

Lemma stealth_agreement_witness :
  (exists pk', @StealthSecret Toy.hashes Toy.ec (bin32 12) (2 :: bin32 5) (2 :: bin32 77) =
     Ret (SHA256 (2 :: bin32 60), pk')) /\
  StealthSharedToPublicKey (2 :: bin32 77) (SHA256 (2 :: bin32 60)) =
    Ret (2 :: bin32 ((77 + be_val (SHA256 (2 :: bin32 60))) mod bnOrder)) /\
  exists secretOut,
    StealthSecretSpend (bin32 12) (2 :: bin32 5) (bin32 77) = Ret secretOut /\
    StealthSharedToSecretSpend (SHA256 (2 :: bin32 60)) (bin32 77) = Ret secretOut /\
    SecretToPublicKey secretOut =
      Ret (2 :: bin32 ((77 + be_val (SHA256 (2 :: bin32 60))) mod bnOrder)).
Proof.
  refine (@stealth_agreement Toy.hashes Toy.ec Toy.ec_laws (bin32 5) (bin32 12) (bin32 77)
            (2 :: bin32 5) (2 :: bin32 12) (2 :: bin32 77) _ _ _ _ _ _); vm_compute; reflexivity.
Defined.

End Stealth.

(** ** Amounts *)

Module Amounts.

(** The loop that splits what is left below [maxAnonOutput], digit by digit;
    [nTest] is the weight of the digit.  Twenty rounds pass every weight below
    2^63. *)
Fixpoint split_digits (fuel : nat) (nValue nTest : Z) (vOut : list Z) : option (list Z) :=
  match fuel with
  | O => None
  | S fuel =>
      if nTest <=? nValue then
        let i := i32 (Z.rem (Z.quot nValue nTest) 10) in
        let vOut :=
          match i with
          | 0 => vOut
          | 2 => vOut ++ [1 * nTest] ++ [1 * nTest]
          | 6 => vOut ++ [5 * nTest] ++ [1 * nTest]
          | 7 => vOut ++ [3 * nTest] ++ [4 * nTest]
          | 8 => vOut ++ [5 * nTest] ++ [3 * nTest]
          | 9 => vOut ++ [5 * nTest] ++ [4 * nTest]
          | _ => vOut ++ [i * nTest]
          end in
        split_digits fuel nValue (i64 (nTest * 10)) vOut
      else Some vOut
  end.

(** The first loop: as many outputs of the largest size as fit. *)
Fixpoint max_outputs (n : nat) (maxAnonOutput : Z) (vOut : list Z) : list Z :=
  match n with
  | O => vOut
  | S n => max_outputs n maxAnonOutput (vOut ++ [1 * maxAnonOutput])
  end.

Definition splitAmount (nValue maxAnonOutput : Z) (vOut : list Z) : option (list Z) :=
  let numOfMaxAnonOutputs := i32 (Z.quot nValue maxAnonOutput) in
  let vOut := max_outputs (Z.to_nat numOfMaxAnonOutputs) maxAnonOutput vOut in
  let nValue := Z.rem nValue maxAnonOutput in
  split_digits 20 nValue 1 vOut.

Definition sum (l : list Z) : Z := fold_right Z.add 0 l.

(** The denominations of the anonymous outputs. *)
Definition denomination (o : Z) : Prop :=
  exists d k, In d [1; 3; 4; 5] /\ 0 <= k /\ o = d * 10 ^ k.

Example split_987 : splitAmount 2987 1000 [] = Some [1000; 1000; 3; 4; 50; 30; 500; 400].
Proof. reflexivity. Qed.

Lemma sum_app a b : sum (a ++ b) = sum a + sum b.
Proof. unfold sum. induction a; cbn [app fold_right]; lia. Qed.

Lemma max_outputs_spec n m v : max_outputs n m v = v ++ repeat m n.
Proof.
  revert v. induction n; intros v; cbn [max_outputs repeat]; [now rewrite app_nil_r|].
  rewrite IHn, <- app_assoc, Z.mul_1_l. reflexivity.
Qed.

Lemma sum_repeat m n : sum (repeat m n) = Z.of_nat n * m.
Proof. induction n; cbn [repeat sum fold_right]; [easy|]. unfold sum in IHn. rewrite IHn. lia. Qed.

(** The outputs of one digit. *)
Definition digit_outs (i t : Z) : list Z :=
  match i with
  | 0 => []
  | 2 => [1 * t; 1 * t] | 6 => [5 * t; 1 * t] | 7 => [3 * t; 4 * t]
  | 8 => [5 * t; 3 * t] | 9 => [5 * t; 4 * t]
  | _ => [i * t]
  end.

Lemma digit_outs_spec i k : 0 <= i <= 9 -> 0 <= k ->
  sum (digit_outs i (10 ^ k)) = i * 10 ^ k /\ Forall denomination (digit_outs i (10 ^ k)) /\
  zlen (digit_outs i (10 ^ k)) <= 2.
Proof.
  intros Hi Hk.
  assert (forall d, In d [1; 3; 4; 5] -> denomination (d * 10 ^ k)) as D
      by (intros d Hd; exists d, k; auto).
  set (t := 10 ^ k) in *.
  assert (i = 0 \/ i = 1 \/ i = 2 \/ i = 3 \/ i = 4 \/ i = 5 \/ i = 6 \/ i = 7 \/ i = 8 \/ i = 9)
    as C by lia.
  clearbody t. unfold sum.
  repeat destruct C as [-> | C]; [..|subst i]; cbn [digit_outs fold_right];
    (split; [lia|]); (split; [|unfold zlen; cbn; lia]);
    repeat (constructor; [apply D; cbn; tauto|]); constructor.
Qed.

(** One digit less: what the digits from [k] on stand for. *)
Lemma split_digits_spec fuel v k out :
  0 <= v < 10 ^ 18 -> 0 <= k -> k <= 18 -> (Z.to_nat (18 - k) < fuel)%nat ->
  exists ds, split_digits fuel v (10 ^ k) out = Some (out ++ ds) /\
    sum ds = v - v mod 10 ^ k /\ Forall denomination ds /\ zlen ds <= 2 * (18 - k).
Proof.
  revert k out. induction fuel as [|fuel IH]; intros k out Hv Hk Hk' Hf; [lia|].
  cbn [split_digits]. assert (0 < 10 ^ k) as P by (apply Z.pow_pos_nonneg; lia).
  destruct (10 ^ k <=? v) eqn:E; zbool.
  - assert (k < 18) as Hk18.
    { destruct (Z.eq_dec k 18) as [-> |]; lia. }
    rewrite Z.quot_div_nonneg, Z.rem_mod_nonneg by (try apply Z.div_pos; lia).
    set (i := (v / 10 ^ k) mod 10). assert (0 <= i <= 9) as Hi
        by (pose proof (Z.mod_pos_bound (v / 10 ^ k) 10); unfold i; lia).
    rewrite (wraps_id 32 i) by (unfold in_s; lia).
    assert (10 ^ k * 10 = 10 ^ (k + 1)) as P1 by (rewrite Z.pow_add_r by lia; lia).
    assert (10 ^ (k + 1) <= 10 ^ 18) by (apply Z.pow_le_mono_r; lia).
    rewrite wraps_id, P1 by (unfold in_s; change (2 ^ (64 - 1)) with 9223372036854775808;
      change (10 ^ 18) with 1000000000000000000 in *; lia).
    match goal with |- context [split_digits fuel v _ ?o] =>
      assert (o = out ++ digit_outs i (10 ^ k)) as -> end.
    { clearbody i.
      assert (i = 0 \/ i = 1 \/ i = 2 \/ i = 3 \/ i = 4 \/ i = 5 \/ i = 6 \/ i = 7 \/ i = 8 \/ i = 9)
        as C by lia.
      repeat destruct C as [-> | C]; [..|subst i]; cbn [digit_outs]; rewrite ?app_nil_r; easy. }
    destruct (IH (k + 1) (out ++ digit_outs i (10 ^ k)) Hv) as (ds & -> & Sd & Fd & Ld); try lia.
    destruct (digit_outs_spec i k Hi Hk) as (Sg & Fg & Lg).
    exists (digit_outs i (10 ^ k) ++ ds). rewrite app_assoc. splits; auto.
    + rewrite sum_app, Sg, Sd, <- P1.
      rewrite (Z.rem_mul_r v (10 ^ k) 10) by lia. fold i. lia.
    + now apply Forall_app.
    + rewrite zlen_app. lia.
  - exists []. rewrite app_nil_r, Z.mod_small by lia. splits; auto.
    + change (sum []) with 0. lia.
    + rewrite zlen_nil. lia.
Qed.

Lemma denomination_pos o : denomination o -> 0 < o.
Proof.
  intros (d & k & Hd & Hk & ->). pose proof (Z.pow_pos_nonneg 10 k ltac:(lia) Hk).
  cbn in Hd. intuition subst; lia.
Qed.

Lemma sum_bounds l : Forall denomination l -> Forall (fun o => 0 < o <= sum l) l.
Proof.
  induction 1 as [|o l Ho Hl IH]; [constructor|]. apply denomination_pos in Ho.
  assert (0 <= sum l).
  { clear -Hl. induction Hl as [|o l Ho Hl IH]; cbn; [lia|]. apply denomination_pos in Ho.
    unfold sum in *. lia. }
  cbn [sum fold_right]. fold (sum l). constructor; [lia|].
  eapply Forall_impl; [|exact IH]. cbn. lia.
Qed.

(** A quotient as an [int]: it is not above the quotient, and it is the quotient below 2^31. *)
Lemma narrowed q : 0 <= q -> Z.max 0 (i32 q) <= q /\ (q < 2 ^ 31 -> Z.max 0 (i32 q) = q).
Proof.
  intros Hq. split; [|intros H; rewrite wraps_id by (unfold in_s; lia); lia].
  unfold wraps. pose proof (Z.mod_le (q + 2 ^ (32 - 1)) (2 ^ 32)). lia.
Qed.

(** C8: [splitAmount] terminates and, as far as an [int] can count the largest outputs, conserves value.  Let the amount be
    non-negative and the largest output positive and at most 10^18, so that no power of ten overflows.  The outputs it appends
    are each positive and at most the largest output, and either that or 1, 3, 4 or 5 times a power of ten; at most 36 come
    on top of the largest ones.  They sum to exactly the amount when the quotient of the amount and the largest output is
    below 2^31, as it is for every 64-bit amount and the default [nMaxAnonOutput]; otherwise the quotient is narrowed to an
    [int], and the sum is what remains of the amount plus the largest output as often as that [int] says. *)
Theorem splitAmount_conserves nValue maxAnonOutput vOut :
  0 <= nValue -> 0 < maxAnonOutput <= 10 ^ 18 ->
  exists outs, splitAmount nValue maxAnonOutput vOut = Some (vOut ++ outs) /\
    (nValue / maxAnonOutput < 2 ^ 31 -> sum outs = nValue) /\
    sum outs = Z.max 0 (i32 (nValue / maxAnonOutput)) * maxAnonOutput + nValue mod maxAnonOutput /\
    Forall (fun o => 0 < o <= maxAnonOutput /\ (o = maxAnonOutput \/ denomination o)) outs /\
    zlen outs <= nValue / maxAnonOutput + 36.
Proof.
  intros Hn Hm. unfold splitAmount.
  assert (0 <= nValue / maxAnonOutput) as Q0 by (apply Z.div_pos; lia).
  rewrite Z.quot_div_nonneg, Z.rem_mod_nonneg by lia.
  pose proof (narrowed (nValue / maxAnonOutput) Q0) as [Nl Nw]. set (count := i32 (nValue / maxAnonOutput)) in *.
  rewrite max_outputs_spec.
  pose proof (Z.mod_pos_bound nValue maxAnonOutput ltac:(lia)) as Rg.
  destruct (split_digits_spec 20 (nValue mod maxAnonOutput) 0
              (vOut ++ repeat maxAnonOutput (Z.to_nat count)))
    as (ds & E & Sd & Fd & Ld); try lia.
  rewrite Z.pow_0_r in *. rewrite Z.mod_1_r, Z.sub_0_r in Sd.
  exists (repeat maxAnonOutput (Z.to_nat count) ++ ds). rewrite app_assoc.
  assert (sum (repeat maxAnonOutput (Z.to_nat count) ++ ds) = Z.max 0 count * maxAnonOutput + nValue mod maxAnonOutput) as S
    by (rewrite sum_app, sum_repeat, Sd; lia).
  splits; auto.
  - intros Hq. rewrite S, Nw by exact Hq. pose proof (Z.div_mod nValue maxAnonOutput). lia.
  - apply Forall_app. split.
    + apply Forall_forall. intros o Ho. apply repeat_spec in Ho. lia.
    + pose proof (sum_bounds ds Fd) as B. rewrite Sd in B. rewrite Forall_forall in *.
      intros o Ho. specialize (B o Ho). cbn in B. split; [lia|]. right. auto.
  - rewrite zlen_app, zlen_repeat. lia.
Qed.

Lemma splitAmount_conserves_witness :
  exists outs, splitAmount 2987 1000 [5] = Some ([5] ++ outs) /\ sum outs = 2987 /\
    Forall (fun o => 0 < o <= 1000 /\ (o = 1000 \/ denomination o)) outs /\
    zlen outs <= 2987 / 1000 + 36.
Proof.
  destruct (splitAmount_conserves 2987 1000 [5]) as (outs & H1 & H2 & _ & H3); [lia|lia|].
  exists outs. split; [exact H1|]. split; [apply H2; reflexivity|exact H3].
Defined.

(** Where the quotient is no [int], the largest outputs are lost. *)
Example narrowing_loses : splitAmount (2 ^ 31 * 1000 + 7) 1000 [] = Some [3; 4].
Proof. vm_compute. reflexivity. Qed.

End Amounts.

(** ** Ring signatures *)

Module Ring.
Import Keys Points Stealth.

Section Ring.
Context {h : Hashes} {ec : EC}.

(** [Params().IsProtocolV3(nBestHeight)] of the node that runs the code. *)
Variable protocolV3 : bool.

(** The [while] of [hashToEC]: a hundred abscissas are tried. *)
Fixpoint find_point (tries : nat) (bnTmp : Z) : option point :=
  match tries with
  | O => None
  | S tries =>
      match decompress bnTmp false with
      | Some P => Some P
      | None => find_point tries (bnTmp + 1)
      end
  end.

Definition hashToEC (p : list Z) (fNew : bool) : res point :=
  let bnTmp := be_val (Hash p) in
  if fNew || protocolV3
  then check (find_point 100 bnTmp) "Failed to find a valid point for public key."
  else Ret (gmul bnTmp).

Definition generateKeyImage (publicKey secret : list Z) : res (list Z) :=
  if negb (zlen publicKey =? EC_COMPRESSED_SIZE) then Throw "Invalid publicKey."
  else
    let* hG := hashToEC publicKey true in
    let bnSec := be_val secret in
    let hG := pmul bnSec hG in
    check (point2bin hG) "point -> keyImage failed.".

(** [getOldKeyImage]: the return value, and the image when it was written.  The
    failures after the size check are logged, but the value returned is 0. *)
Definition getOldKeyImage (publicKey : PubKey.CPubKey) : Z * option (list Z) :=
  if negb (PubKey.size publicKey =? EC_COMPRESSED_SIZE) then (1, None)
  else
    let bnTmp := be_val (PubKey.GetHash publicKey) in
    match oct2point (firstn 33 (PubKey.vch publicKey)) with
    | None => (0, None)
    | Some ptPk =>
        let ptPk := pmul bnTmp ptPk in
        (0, point2bin ptPk)
    end.

(** *** The first scheme: one challenge split over the ring *)

(** What one ring member adds to the commitment. *)
Definition commit (w : CHashWriter) (L R : point) : res CHashWriter :=
  let* dL := check (point2oct33 L) "extract ptL and ptR failed." in
  let* dR := check (point2oct33 R) "extract ptL and ptR failed." in
  Ret (HashWriter_write w (dL ++ dR)).

(** L = c P + r G and R = c I + r Hp(P), as both sides compute them. *)
Definition member_points (Ki : point) (pk : list Z) (bnC bnR : Z) : res (point * point) :=
  let* ptPk := check (bn2point pk) "extract ptPk failed." in
  let ptT1 := pmul bnC ptPk in
  let ptT2 := gmul bnR in
  let ptL := padd ptT1 ptT2 in
  let* ptT3 := hashToEC pk false in
  let ptT1 := pmul bnC Ki in
  let ptT2 := pmul bnR ptT3 in
  let ptR := padd ptT1 ptT2 in
  Ret (ptL, ptR).

(** The state of the signing loop: the draws left, the commitment, the sum of
    the challenges and the signature so far. *)
Record signing := mkSigning {
  rand : list (list Z); ss : CHashWriter; bnSum : Z; sigc : list (list Z); sigr : list (list Z) }.

(** The round of the signer's own key, whose two slots stay zero for now. *)
Definition own_round (pk : list Z) (bnKS : Z) (st : signing) : res signing :=
  let ptL := gmul bnKS in
  let* ptT1 := hashToEC pk false in
  let ptR := pmul bnKS ptT1 in
  let* w := commit (ss st) ptL ptR in
  Ret (mkSigning (rand st) w (bnSum st) (sigc st ++ [repeat 0 32]) (sigr st ++ [repeat 0 32])).

Definition decoy_round (Ki : point) (pk : list Z) (st : signing) : res signing :=
  let* d1 := GenerateRandomSecret (rand st) in
  let '(scData1, rnd) := d1 in
  let* d2 := GenerateRandomSecret rnd in
  let '(scData2, rnd) := d2 in
  let bnK1 := be_val scData1 in
  let bnK2 := be_val scData2 in
  let* LR := member_points Ki pk bnK1 bnK2 in
  let '(ptL, ptR) := LR in
  let sum := (bnSum st + bnK1) mod bnOrder in
  let* w := commit (ss st) ptL ptR in
  Ret (mkSigning rnd w sum (sigc st ++ [scData1]) (sigr st ++ [scData2])).

(** The [for] over the ring, from index [i]. *)
Fixpoint sign_loop (Ki : point) (bnKS : Z) (own i : nat) (pks : list (list Z)) (st : signing)
    : res signing :=
  match pks with
  | [] => Ret st
  | pk :: pks =>
      let* st := if Nat.eqb i own then own_round pk bnKS st else decoy_round Ki pk st in
      sign_loop Ki bnKS own (S i) pks st
  end.

(** [generateRingSignature]: the ring is the list of its encoded keys, [own] the
    place of the signer in it. *)
Definition generateRingSignature (keyImage txnHash : list Z) (own : nat) (secret : list Z)
    (pPubkeys : list (list Z)) (rnd : list (list Z)) : res (list (list Z) * list (list Z)) :=
  let ssCommitHash := HashWriter_write HashWriter_Init txnHash in
  let* d := GenerateRandomSecret rnd in
  let '(scData1, rnd) := d in
  let bnKS := be_val scData1 in
  let* ptKi := check (oct2point (firstn 33 keyImage)) "extract ptKi failed." in
  let* st := sign_loop ptKi bnKS own 0 pPubkeys (mkSigning rnd ssCommitHash 0 [] []) in
  let bnH := be_val (HashWriter_GetHash (ss st)) in
  let bnH := bnH mod bnOrder in
  let bnT := (bnH - bnSum st) mod bnOrder in
  if negb (Nat.ltb own (List.length pPubkeys)) then Undef
  else
    let pSigc := firstn own (sigc st) ++ [bin32 bnT] ++ skipn (S own) (sigc st) in
    let bnSecret := be_val secret in
    let bnT := bnT * bnSecret in
    let bnT := (bnKS - bnT) mod bnOrder in
    let pSigr := firstn own (sigr st) ++ [bin32 bnT] ++ skipn (S own) (sigr st) in
    Ret (pSigc, pSigr).

(** The [for] of [verifyRingSignature]: commitment and sum. *)
Fixpoint verify_loop (Ki : point) (members : list (list Z * (list Z * list Z)))
    (w : CHashWriter) (bnSum : Z) : res (CHashWriter * Z) :=
  match members with
  | [] => Ret (w, bnSum)
  | (pk, (c, r)) :: members =>
      let bnC := be_val c in
      let bnR := be_val r in
      let* LR := member_points Ki pk bnC bnR in
      let '(ptL, ptR) := LR in
      let bnSum := (bnSum + bnC) mod bnOrder in
      let* w := commit w ptL ptR in
      verify_loop Ki members w bnSum
  end.

(** The return value: 0 when the signature verifies, 2 when it does not, [Throw]
    for 1. *)
Definition verifyRingSignature (keyImage txnHash : list Z)
    (pPubkeys pSigc pSigr : list (list Z)) : res Z :=
  let ssCommitHash := HashWriter_write HashWriter_Init txnHash in
  let* ptKi := check (oct2point (firstn 33 keyImage)) "extract ptKi failed." in
  let* v := verify_loop ptKi (combine pPubkeys (combine pSigc pSigr)) ssCommitHash 0 in
  let '(w, bnSum) := v in
  let bnH := be_val (HashWriter_GetHash w) in
  let bnH := bnH mod bnOrder in
  let bnT := (bnH - bnSum) mod bnOrder in
  if negb (bnT =? 0) then Ret 2 else Ret 0.

(** *** The second scheme: a chain of challenges closed into a ring *)

(** The challenge that follows a member's two points. *)
Definition next_challenge (pkHash : list Z) (T1 T2 : point) : res Z :=
  let* d1 := check (point2oct33 T1) "extract ptL and ptR failed." in
  let* d2 := check (point2oct33 T2) "extract ptL and ptR failed." in
  let w := HashWriter_write (HashWriter_write HashWriter_Init pkHash) (d1 ++ d2) in
  Ret (be_val (HashWriter_GetHash w) mod bnOrder).

(** One link: c' = h(s G + c P, s Hp(P) + c I). *)
Definition link (Ki : point) (pkHash pk : list Z) (bnS bnC : Z) : res Z :=
  let* ptPk := check (oct2point (firstn 33 pk)) "EC_POINT_oct2point failed." in
  let ptT1 := padd (gmul bnS) (pmul bnC ptPk) in
  let* Hp := hashToEC pk false in
  let ptT3 := pmul bnS Hp in
  let ptT4 := pmul bnC Ki in
  let ptT2 := padd ptT3 ptT4 in
  next_challenge pkHash ptT1 ptT2.

(** The draws of the decoys' responses: at most 32 for each member. *)
Fixpoint draw_responses (own i n : nat) (rnd : list (list Z)) : res (list (list Z) * list (list Z)) :=
  match n with
  | O => Ret ([], rnd)
  | S n =>
      let* d := if Nat.eqb i own then Ret (repeat 0 32, rnd) else GenerateRandomSecret rnd in
      let '(s, rnd) := d in
      let* r := draw_responses own (S i) n rnd in
      let '(l, rnd) := r in
      Ret (s :: l, rnd)
  end.

(** The state of the chaining loop. *)
Record chain := mkChain { sigS : list (list Z); bnC : Z; bnCj : Z; sigC : option (list Z) }.

Definition set_nth (l : list (list Z)) (i : nat) (x : list Z) : list (list Z) :=
  firstn i l ++ [x] ++ skipn (S i) l.

(** The rounds [k], [k+1], ... of the loop, [left] of them: [ib] is the member
    whose link is computed, [i] the one after it. *)
Fixpoint chain_loop (left : nat) (Ki : point) (pkHash : list Z) (pPubkeys : list (list Z))
    (own : nat) (bnA : Z) (secret : list Z) (ib i : nat) (st : chain) : res chain :=
  match left with
  | O => Ret st
  | S left' =>
      let n := List.length pPubkeys in
      let st :=
        if Nat.eqb left 1 then
          let bnT2 := bnCj st * be_val secret in
          let bnS := (bnA - bnT2) mod bnOrder in
          mkChain (set_nth (sigS st) own (bin32 bnS)) (bnC st) (bnCj st) (sigC st)
        else st in
      if Nat.eqb left 1 && negb (Nat.eqb own (n - 1)) then Ret st
      else
        let* c := link Ki pkHash (nth ib pPubkeys []) (be_val (nth ib (sigS st) [])) (bnC st) in
        let bnCj := if Nat.eqb i own then c else bnCj st in
        let sigC := if Nat.eqb i 0 then Some (bin32 c) else sigC st in
        chain_loop left' Ki pkHash pPubkeys own bnA secret i (Nat.modulo (i + 1) n)
          (mkChain (sigS st) c bnCj sigC)
  end.

(** [generateRingSignatureAB]: [sigC] and the responses.  The first draw is the
    signer's nonce.  A [BN_CTX_get] number is zero until it is assigned. *)
Definition generateRingSignatureAB (keyImage : list Z) (own : nat) (secret : list Z)
    (pPubkeys : list (list Z)) (rnd : list (list Z)) : res (option (list Z) * list (list Z)) :=
  let nRingSize := List.length pPubkeys in
  if negb (Nat.ltb nRingSize 200) then Throw "assert"
  else
    let* d := GenerateRandomSecret rnd in
    let '(sAlpha, rnd) := d in
    let* d := draw_responses own 0 nRingSize rnd in
    let '(pSigS, rnd) := d in
    let tmpPkHash := HashWriter_GetHash (fold_left HashWriter_write pPubkeys HashWriter_Init) in
    let* ptKi := check (oct2point (firstn 33 keyImage)) "extract ptKi failed." in
    let bnA := be_val sAlpha in
    let ptT1 := gmul bnA in
    if negb (Nat.ltb own nRingSize) then Undef
    else
      let* ptT3 := hashToEC (nth own pPubkeys []) false in
      let ptT2 := pmul bnA ptT3 in
      let* c := next_challenge tmpPkHash ptT1 ptT2 in
      let* st := chain_loop nRingSize ptKi tmpPkHash pPubkeys own bnA secret
                   (Nat.modulo (own + 1) nRingSize) (Nat.modulo (own + 2) nRingSize)
                   (mkChain pSigS c 0 None) in
      Ret (sigC st, sigS st).

Fixpoint verify_chain (Ki : point) (pkHash : list Z) (members : list (list Z * list Z)) (bnC : Z)
    : res Z :=
  match members with
  | [] => Ret bnC
  | (pk, s) :: members =>
      let* c := link Ki pkHash pk (be_val s) bnC in
      verify_chain Ki pkHash members c
  end.

Definition verifyRingSignatureAB (keyImage : list Z) (pPubkeys : list (list Z)) (sigC : list Z)
    (pSigS : list (list Z)) : res Z :=
  if negb (zlen sigC =? EC_SECRET_SIZE) then Throw "sigC size"
  else if negb (zlen keyImage =? EC_COMPRESSED_SIZE) then Throw "keyImage size"
  else
    let tmpPkHash := HashWriter_GetHash (fold_left HashWriter_write pPubkeys HashWriter_Init) in
    let* ptKi := check (oct2point (firstn 33 keyImage)) "extract ptKi failed." in
    let ptT4 := pmul bnOrder ptKi in
    if negb (is_infinity ptT4) then Throw "keyImage not valid (ptKi * bnOrder != infinity)."
    else
      let bnC1 := be_val sigC in
      let* bnC := verify_chain ptKi tmpPkHash (combine pPubkeys pSigS) bnC1 in
      let bnT := (bnC - bnC1) mod bnOrder in
      if negb (bnT =? 0) then Ret 2 else Ret 0.

End Ring.

(** ** Completeness of the first scheme *)

Definition cong (a b : Z) : Prop := exists k, a = b + k * bnOrder.

Lemma cong_mod a : cong (a mod bnOrder) a.
Proof. exists (- (a / bnOrder)). pose proof (Z.div_mod a bnOrder ltac:(easy)). lia. Qed.

Lemma cong_zero a : cong a 0 -> a mod bnOrder = 0.
Proof. intros (k & ->). rewrite Z.add_0_l. apply Z.mod_mul. easy. Qed.

Section Completeness.
Context {h : Hashes} {ec : EC} {el : EC_laws ec}.
Variable V3 : bool.

Lemma gmul_cong a b : cong a b -> gmul a = gmul b.
Proof.
  intros (k & ->). rewrite <- gmul_order, <- (gmul_order b). f_equal. apply Z.mod_add. easy.
Qed.
Lemma pmul_cong a b P : cong a b -> pmul a P = pmul b P.
Proof.
  intros (k & ->). rewrite <- pmul_order, <- (pmul_order b). f_equal. apply Z.mod_add. easy.
Qed.

(** A response that closes the signer's equation gives back the nonce's points. *)
Lemma closing_points x ks c r Hp : cong (c * x + r) ks ->
  padd (pmul c (gmul x)) (gmul r) = gmul ks /\
  padd (pmul c (pmul x Hp)) (pmul r Hp) = pmul ks Hp.
Proof.
  intros E. rewrite gmul_pmul, pmul_mul, <- gmul_add, <- pmul_add.
  split; [now apply gmul_cong | now apply pmul_cong].
Qed.

Lemma verify_loop_shift Ki m : forall w s1 s2 w' s1',
  verify_loop V3 Ki m w s1 = Ret (w', s1') ->
  exists s2', verify_loop V3 Ki m w s2 = Ret (w', s2') /\ cong (s2' - s2) (s1' - s1).
Proof.
  induction m as [|[pk [c r]] m IH]; intros w s1 s2 w' s1' E; cbn [verify_loop] in *.
  - injection E as <- <-. exists s2. split; [easy|]. exists 0. lia.
  - inv_bind E. destruct a as [L R]. inv_bind E. rewrite E0. cbn [res_bind]. rewrite E1.
    cbn [res_bind]. destruct (IH _ _ ((s2 + be_val c) mod bnOrder) _ _ E) as (s2' & -> & C).
    exists s2'. split; [easy|].
    pose proof (cong_mod (s1 + be_val c)) as (k1 & K1).
    pose proof (cong_mod (s2 + be_val c)) as (k2 & K2).
    destruct C as (k & K). exists (k + k2 - k1). lia.
Qed.

Lemma decoy_round_inv Ki pk st st' : decoy_round V3 Ki pk st = Ret st' ->
  exists c r L R w, member_points V3 Ki pk (be_val c) (be_val r) = Ret (L, R) /\
    commit (ss st) L R = Ret w /\ ss st' = w /\ bnSum st' = (bnSum st + be_val c) mod bnOrder /\
    sigc st' = sigc st ++ [c] /\ sigr st' = sigr st ++ [r].
Proof.
  unfold decoy_round. intros E. inv_bind E. destruct a as [c rn]. inv_bind E. destruct a as [r rn'].
  inv_bind E. destruct a as [L R]. inv_bind E. injection E as <-. cbn.
  exists c, r, L, R, a. splits; auto.
Qed.

Lemma sign_loop_decoys Ki ks own : forall pks i st st', (own < i)%nat ->
  sign_loop V3 Ki ks own i pks st = Ret st' ->
  exists cs rs, sigc st' = sigc st ++ cs /\ sigr st' = sigr st ++ rs /\
    List.length cs = List.length pks /\ List.length rs = List.length pks /\
    verify_loop V3 Ki (combine pks (combine cs rs)) (ss st) (bnSum st) = Ret (ss st', bnSum st').
Proof.
  induction pks as [|pk pks IH]; intros i st st' Hi E; cbn [sign_loop] in E.
  - injection E as <-. exists [], []. rewrite !app_nil_r. now splits.
  - inv_bind E. rewrite (proj2 (Nat.eqb_neq _ _)) in E0 by lia.
    apply decoy_round_inv in E0 as (c & r & L & R & w & EP & EW & <- & ES & EC & ER).
    destruct (IH (S i) _ _ ltac:(lia) E) as (cs & rs & Ec & Er & Lc & Lr & V).
    exists (c :: cs), (r :: rs). rewrite Ec, Er, EC, ER, <- !app_assoc. cbn [List.length app].
    splits; auto. cbn [combine verify_loop]. rewrite EP. cbn [res_bind]. rewrite EW.
    cbn [res_bind]. now rewrite <- ES.
Qed.

(** The signing loop over a ring with the signer in it, and the verifier on the
    completed signature. *)
Lemma sign_loop_own Ki ks own : forall pks i st st',
  (i <= own < i + List.length pks)%nat -> sign_loop V3 Ki ks own i pks st = Ret st' ->
  exists cs1 cs2 rs1 rs2,
    sigc st' = sigc st ++ cs1 ++ repeat 0 32 :: cs2 /\
    sigr st' = sigr st ++ rs1 ++ repeat 0 32 :: rs2 /\
    List.length cs1 = (own - i)%nat /\ List.length rs1 = (own - i)%nat /\
    forall c r Hp, hashToEC V3 (nth (own - i) pks []) false = Ret Hp ->
      member_points V3 Ki (nth (own - i) pks []) (be_val c) (be_val r) = Ret (gmul ks, pmul ks Hp) ->
      exists s', verify_loop V3 Ki (combine pks (combine (cs1 ++ c :: cs2) (rs1 ++ r :: rs2)))
                   (ss st) (bnSum st) = Ret (ss st', s') /\ cong s' (bnSum st' + be_val c).
Proof.
  induction pks as [|pk pks IH]; intros i st st' Hi E; [cbn in Hi; lia|].
  cbn [sign_loop] in E. inv_bind E. cbn [List.length] in Hi.
  destruct (Nat.eqb_spec i own) as [-> | N].
  - unfold own_round in E0. inv_bind E0. rename a0 into Hp0. inv_bind E0. injection E0 as <-.
    apply sign_loop_decoys in E; [|lia]. destruct E as (cs & rs & Ec & Er & Lc & Lr & V).
    cbn [sigc sigr ss bnSum] in *. exists [], cs, [], rs. rewrite Nat.sub_diag, Ec, Er.
    cbn [app List.length nth]. rewrite <- !app_assoc. splits; auto.
    intros c r Hp EH EP. rewrite EH in E1. injection E1 as <-.
    cbn [combine verify_loop]. rewrite EP. cbn [res_bind]. rewrite E2. cbn [res_bind].
    destruct (verify_loop_shift _ _ _ _ ((bnSum st + be_val c) mod bnOrder) _ _ V) as (s' & -> & C).
    exists s'. split; [easy|]. pose proof (cong_mod (bnSum st + be_val c)) as (k1 & K1).
    destruct C as (k & K). exists (k + k1). lia.
  - apply decoy_round_inv in E0 as (c0 & r0 & L & R & w & EP & EW & <- & ES & EC & ER).
    destruct (IH (S i) _ _ ltac:(lia) E) as (cs1 & cs2 & rs1 & rs2 & Ec & Er & L1 & L2 & V).
    exists (c0 :: cs1), cs2, (r0 :: rs1), rs2. rewrite Ec, Er, EC, ER, <- !app_assoc.
    replace (own - i)%nat with (S (own - S i)) by lia. cbn [List.length app nth]. splits; auto.
    intros c r Hp EH EM. destruct (V c r Hp EH EM) as (s' & EV & C).
    cbn [combine verify_loop]. rewrite EP. cbn [res_bind]. rewrite EW. cbn [res_bind].
    rewrite <- ES. exists s'. split; auto.
Qed.

(** A key pair and its key image, as a wallet keeps them. *)
Definition owns (secret pk : list Z) (keyImage : list Z) : Prop :=
  exists Hp, hashToEC V3 pk false = Ret Hp /\
    is_infinity (gmul (be_val secret)) = false /\ pk = point2oct true (gmul (be_val secret)) /\
    is_infinity (pmul (be_val secret) Hp) = false /\
    keyImage = point2oct true (pmul (be_val secret) Hp).

Lemma owns_image secret pk ki : owns secret pk ki -> exists Hp,
  hashToEC V3 pk false = Ret Hp /\ bn2point pk = Some (gmul (be_val secret)) /\
  oct2point (firstn 33 pk) = Some (gmul (be_val secret)) /\
  oct2point (firstn 33 ki) = Some (pmul (be_val secret) Hp) /\ zlen ki = 33.
Proof.
  intros (Hp & EH & F1 & -> & F2 & ->). exists Hp.
  destruct (point2oct_compressed _ F1) as [L1 _]. destruct (point2oct_compressed _ F2) as [L2 _].
  rewrite !firstn_all2 by (unfold zlen in *; lia).
  splits; auto using bn2point_enc, oct2point_point2oct.
Qed.

Lemma list_surgery {A} (a : list A) x y b n : List.length a = n ->
  firstn n (a ++ x :: b) ++ y :: skipn (S n) (a ++ x :: b) = a ++ y :: b.
Proof.
  intros <-. rewrite firstn_app, Nat.sub_diag, firstn_all. cbn [firstn]. rewrite app_nil_r.
  f_equal. f_equal. rewrite skipn_app, skipn_all2 by lia.
  replace (S (List.length a) - List.length a)%nat with 1%nat by lia. reflexivity.
Qed.

(** C4: a ring signature that [generateRingSignature] makes verifies: for every ring, every place
    of the signer in it, every transaction hash and every draw, when the signer's key and key
    image belong to the secret, the verifier returns 0 on the signature. *)
Theorem ring_signature_verifies keyImage txnHash own secret pks rnd pSigc pSigr :
  (own < List.length pks)%nat -> owns secret (nth own pks []) keyImage ->
  generateRingSignature V3 keyImage txnHash own secret pks rnd = Ret (pSigc, pSigr) ->
  verifyRingSignature V3 keyImage txnHash pks pSigc pSigr = Ret 0.
Proof.
  intros Hown Ho E. destruct (owns_image _ _ _ Ho) as (Hp & EH & EB & _ & EK & _).
  unfold generateRingSignature in E. inv_bind E. destruct a as [ks rn]. inv_bind E. inv_bind E.
  rename a0 into st. rewrite (proj2 (Nat.ltb_lt _ _) Hown) in E. cbn [negb] in E.
  rewrite EK in E1. injection E1 as <-.
  apply sign_loop_own in E2; [|lia].
  destruct E2 as (cs1 & cs2 & rs1 & rs2 & Ec & Er & L1 & L2 & V). cbn [sigc sigr ss bnSum app] in *.
  rewrite Nat.sub_0_r in *. rewrite Ec, Er, !list_surgery in E by easy. injection E as <- <-.
  set (H := be_val (HashWriter_GetHash (ss st))) in *.
  set (T := (H mod bnOrder - bnSum st) mod bnOrder) in *.
  set (r := (be_val ks - T * be_val secret) mod bnOrder) in *.
  assert (be_val (bin32 T) = T) as VT by (apply bin32_ok, mod_order_range).
  assert (be_val (bin32 r) = r) as VR by (apply bin32_ok, mod_order_range).
  destruct (V (bin32 T) (bin32 r) Hp EH) as (s' & EV & C).
  { unfold member_points. rewrite EB. cbn [check res_bind]. rewrite EH. cbn [res_bind].
    rewrite VT, VR. destruct (closing_points (be_val secret) (be_val ks) T r Hp) as [-> ->]; [|easy].
    destruct (cong_mod (be_val ks - T * be_val secret)) as (k & K). fold r in K. exists k. lia. }
  unfold verifyRingSignature. rewrite EK. cbn [check res_bind]. rewrite EV. cbn [res_bind].
  fold H. rewrite cong_zero; [easy|]. rewrite VT in C. destruct C as (k & ->).
  destruct (cong_mod (H mod bnOrder - bnSum st)) as (k2 & K2). fold T in K2.
  exists (- k - k2). lia.
Qed.

(** ** Completeness of the second scheme *)

Lemma link_range Ki pkh pk s c c' : link V3 Ki pkh pk s c = Ret c' -> 0 <= c' < bnOrder.
Proof.
  unfold link. intros E. inv_bind E. inv_bind E. unfold next_challenge in E. inv_bind E. inv_bind E.
  injection E as <-. apply mod_order_range.
Qed.

Lemma draw_responses_length own n : forall i rnd l rnd',
  draw_responses own i n rnd = Ret (l, rnd') -> List.length l = n.
Proof.
  induction n as [|n IH]; intros i rnd l rnd' E; cbn [draw_responses] in E.
  - now injection E as <- _.
  - inv_bind E. destruct a as [s r]. inv_bind E. destruct a as [l' r']. injection E as <- _.
    cbn. f_equal. eauto.
Qed.

Lemma nth_set_nth l i j x : (i < List.length l)%nat ->
  nth j (set_nth l i x) [] = if Nat.eqb j i then x else nth j l [].
Proof.
  intros H. unfold set_nth. assert (List.length (firstn i l) = i) as L by (rewrite length_firstn; lia).
  destruct (Nat.eqb_spec j i) as [-> | N].
  - rewrite app_nth2, L, Nat.sub_diag by lia. reflexivity.
  - destruct (Nat.lt_ge_cases j i).
    + rewrite app_nth1 by lia. rewrite <- (firstn_skipn i l) at 2. rewrite app_nth1 by lia. easy.
    + rewrite app_nth2, L by lia. replace (j - i)%nat with (S (j - S i)) by lia. cbn [nth app].
      rewrite <- (firstn_skipn (S i) l) at 2.
      assert (List.length (firstn (S i) l) = S i) as L2 by (rewrite length_firstn; lia).
      rewrite app_nth2, L2 by lia. reflexivity.
Qed.

Lemma length_set_nth l i x : (i < List.length l)%nat -> List.length (set_nth l i x) = List.length l.
Proof.
  intros H. unfold set_nth. rewrite !length_app, length_firstn, length_skipn. cbn. lia.
Qed.

Lemma mod_wrap a n : (0 < n)%nat -> (a < 2 * n)%nat ->
  Nat.modulo a n = if Nat.ltb a n then a else (a - n)%nat.
Proof.
  intros Hn Ha. destruct (Nat.ltb_spec a n); [now apply Nat.mod_small|].
  replace a with ((a - n) + 1 * n)%nat at 1 by lia. rewrite Nat.Div0.mod_add.
  apply Nat.mod_small. lia.
Qed.

Section Chain.
Variables (Ki : point) (pkh : list Z) (pks : list (list Z)) (own : nat) (bnA : Z) (secret : list Z).
Variable S0 : list (list Z).
Let n := List.length pks.
Hypothesis Hown : (own < n)%nat.
Hypothesis HS0 : List.length S0 = n.

(** The response that closes the chain when the signer's challenge is [c]. *)
Definition closing (c : Z) : list (list Z) :=
  set_nth S0 own (bin32 ((bnA - c * be_val secret) mod bnOrder)).

Definition link_at (S : list (list Z)) (i : nat) (c : Z) : res Z :=
  link V3 Ki pkh (nth i pks []) (be_val (nth i S [])) c.

(** The place in the chain, counted from the signer's successor, of member 0. *)
Let t0 := (n - 1 - own)%nat.

Lemma chain_loop_spec left : forall j st st',
  (left + j = n)%nat -> (1 <= left)%nat -> sigS st = S0 -> (left = 1%nat -> bnCj st = bnC st) ->
  chain_loop V3 left Ki pkh pks own bnA secret
    (Nat.modulo (own + 1 + j) n) (Nat.modulo (own + 2 + j) n) st = Ret st' ->
  exists C : nat -> Z, C j = bnC st /\
    (forall t, (j <= t < n - 1)%nat ->
       link_at S0 (Nat.modulo (own + 1 + t) n) (C t) = Ret (C (S t))) /\
    sigS st' = closing (C (n - 1)%nat) /\
    (own <> (n - 1)%nat ->
       sigC st' = if Nat.ltb j t0 then Some (bin32 (C t0)) else sigC st) /\
    (own = (n - 1)%nat -> exists c,
       link_at (closing (C (n - 1)%nat)) own (C (n - 1)%nat) = Ret c /\ sigC st' = Some (bin32 c)).
Proof.
  induction left as [|left IH]; intros j st st' Hj Hl HS HC E; [lia|].
  cbn [chain_loop] in E. fold n in E. destruct left as [|left].
  - cbn [Nat.eqb] in E. exists (fun _ => bnC st). rewrite HC in E by easy.
    assert (Nat.modulo (own + 1 + j) n = own) as Eib.
    { rewrite mod_wrap by lia. destruct (Nat.ltb_spec (own + 1 + j) n); lia. }
    rewrite Eib in E. rewrite HS in E. fold (closing (bnC st)) in E. cbn [andb] in E.
    destruct (Nat.eqb_spec own (n - 1)) as [En | Nn]; cbn [negb] in E.
    + inv_bind E. cbn [chain_loop] in E. injection E as <-. cbn [sigS sigC bnC] in *.
      splits; auto; [lia|easy|]. intros _. exists a. split; [exact E0|].
      replace (own + 2 + j)%nat with (2 * n)%nat by lia. now rewrite Nat.Div0.mod_mul.
    + injection E as <-. cbn [sigS sigC]. splits; auto; [lia|intros _|easy].
      destruct (Nat.ltb_spec j t0); [unfold t0 in *; lia|easy].
  - cbn [Nat.eqb] in E. cbn [andb] in E. inv_bind E. rewrite HS in E, E0. rename a into c.
    assert (Nat.modulo (Nat.modulo (own + 2 + j) n + 1) n = Nat.modulo (own + 2 + S j) n) as Ei.
    { rewrite Nat.Div0.add_mod_idemp_l. f_equal. lia. }
    rewrite Ei in E.
    replace (own + 2 + j)%nat with (own + 1 + S j)%nat in E by lia.
    set (st1 := mkChain _ _ _ _) in E.
    destruct (IH (S j) st1 st') as (C & C1 & Cs & Sg & Cn & Co); [lia|lia|easy| |exact E|].
    { intros El. cbn [st1 bnCj bnC]. rewrite mod_wrap by lia.
      destruct (Nat.ltb_spec (own + 1 + S j) n); [lia|].
      rewrite (proj2 (Nat.eqb_eq _ _)) by lia. easy. }
    cbn [st1 bnC sigC] in C1, Cn. clear Ei.
    exists (fun t => if Nat.eqb t j then bnC st else C t).
    rewrite Nat.eqb_refl. rewrite (proj2 (Nat.eqb_neq (n - 1) j)) by lia. splits; auto.
    + intros t Ht. rewrite (proj2 (Nat.eqb_neq (S t) j)) by lia.
      destruct (Nat.eqb_spec t j) as [-> | N]; [rewrite C1; exact E0|]. apply Cs. lia.
    + intros Nn. rewrite Cn by easy. rewrite mod_wrap by lia. unfold t0.
      destruct (Nat.ltb_spec (own + 1 + S j) n), (Nat.ltb_spec (S j) (n - 1 - own)),
        (Nat.ltb_spec j (n - 1 - own)); try lia.
      * now rewrite (proj2 (Nat.eqb_neq (n - 1 - own) j)) by lia.
      * rewrite (proj2 (Nat.eqb_eq (own + 1 + S j - n) 0)) by lia.
        rewrite (proj2 (Nat.eqb_neq (n - 1 - own) j)) by lia.
        replace (n - 1 - own)%nat with (S j) by lia. now rewrite C1.
      * now rewrite (proj2 (Nat.eqb_neq (own + 1 + S j - n) 0)) by lia.
Qed.

Lemma verify_chain_steps : forall m (D : nat -> Z),
  (forall t, (t < List.length m)%nat ->
     link V3 Ki pkh (fst (nth t m ([], []))) (be_val (snd (nth t m ([], [])))) (D t) = Ret (D (S t))) ->
  verify_chain V3 Ki pkh m (D 0%nat) = Ret (D (List.length m)).
Proof.
  induction m as [|[pk s] m IH]; intros D H; [easy|]. cbn [verify_chain List.length].
  pose proof (H 0%nat ltac:(cbn; lia)) as H0. cbn [nth fst snd] in H0. rewrite H0. cbn [res_bind].
  apply (IH (fun t => D (S t))). intros t Ht. exact (H (S t) ltac:(cbn; lia)).
Qed.

(** A chain of challenges around the whole ring is what the verifier walks. *)
Lemma ring_walk S (C : nat -> Z) : List.length S = n -> (1 < n)%nat ->
  (forall t, (t < n - 1)%nat ->
     link_at S (Nat.modulo (own + 1 + t) n) (C t) = Ret (C (Datatypes.S t))) ->
  link_at S own (C (n - 1)%nat) = Ret (C 0%nat) ->
  verify_chain V3 Ki pkh (combine pks S) (C t0) = Ret (C t0).
Proof.
  intros LS Hn2 Hs Hc.
  set (D t := C (Nat.modulo (t + t0) n)).
  assert (List.length (combine pks S) = n) as LC by (rewrite length_combine; lia).
  assert (C t0 = D 0%nat) as E0 by (unfold D; rewrite Nat.mod_small by (unfold t0; lia); easy).
  rewrite E0 at 1. rewrite verify_chain_steps.
  - rewrite LC. unfold D. rewrite (Nat.add_comm n), <- (Nat.mul_1_l n) at 1.
    rewrite Nat.Div0.mod_add. now rewrite Nat.mod_small by (unfold t0; lia).
  - intros t Ht. rewrite LC in Ht. rewrite combine_nth by (fold n; lia). cbn [fst snd].
    fold (link_at S t (D t)). unfold D. rewrite !mod_wrap by (unfold t0; lia).
    unfold t0. destruct (Nat.ltb_spec (t + (n - 1 - own)) n), (Nat.ltb_spec (Datatypes.S t + (n - 1 - own)) n);
      try lia.
    + specialize (Hs (t + (n - 1 - own))%nat ltac:(lia)).
      rewrite mod_wrap in Hs by lia.
      destruct (Nat.ltb_spec (own + 1 + (t + (n - 1 - own))) n) in Hs; [lia|].
      replace (own + 1 + (t + (n - 1 - own)) - n)%nat with t in Hs by lia. exact Hs.
    + assert (t = own) as -> by lia.
      replace (own + (n - 1 - own))%nat with (n - 1)%nat by lia.
      replace (Datatypes.S own + (n - 1 - own) - n)%nat with 0%nat by lia. exact Hc.
    + specialize (Hs (t + (n - 1 - own) - n)%nat ltac:(lia)).
      rewrite mod_wrap in Hs by lia.
      destruct (Nat.ltb_spec (own + 1 + (t + (n - 1 - own) - n)) n) in Hs; [|lia].
      replace (own + 1 + (t + (n - 1 - own) - n))%nat with t in Hs by lia.
      replace (Datatypes.S t + (n - 1 - own) - n)%nat with (Datatypes.S (t + (n - 1 - own) - n)) by lia.
      exact Hs.
Qed.

End Chain.

(** The closing response leads back to the challenge made from the nonce. *)
Lemma closing_link pkh pks own bnA secret S0 Hp c c0 :
  (own < List.length S0)%nat -> hashToEC V3 (nth own pks []) false = Ret Hp ->
  oct2point (firstn 33 (nth own pks [])) = Some (gmul (be_val secret)) ->
  next_challenge pkh (gmul bnA) (pmul bnA Hp) = Ret c0 ->
  link_at (pmul (be_val secret) Hp) pkh pks (closing own bnA secret S0 c) own c = Ret c0.
Proof.
  intros Hl EH EB E. unfold link_at, link, closing. rewrite nth_set_nth, Nat.eqb_refl, EB by lia.
  cbn [check res_bind]. rewrite EH. cbn [res_bind].
  set (s := (bnA - c * be_val secret) mod bnOrder).
  destruct (bin32_ok _ (mod_order_range (bnA - c * be_val secret))) as (_ & _ & VS).
  fold s in VS. rewrite VS, (padd_comm (gmul s)), (padd_comm (pmul s Hp)).
  destruct (closing_points (be_val secret) bnA c s Hp) as [-> ->]; [|exact E].
  destruct (cong_mod (bnA - c * be_val secret)) as (k & K). fold s in K. exists k. lia.
Qed.

(** C5: a signature of the chained scheme verifies whenever the ring has at least two members: for
    every place of the signer and every draw, when the signer's key and key image belong to the
    secret, [generateRingSignatureAB] produces the closing challenge and the verifier returns 0. *)
Theorem ring_signature_AB_verifies keyImage own secret pks rnd sc ss :
  (own < List.length pks)%nat -> (2 <= List.length pks)%nat ->
  owns secret (nth own pks []) keyImage ->
  generateRingSignatureAB V3 keyImage own secret pks rnd = Ret (sc, ss) ->
  exists c, sc = Some c /\ verifyRingSignatureAB V3 keyImage pks c ss = Ret 0.
Proof.
  intros Hown H2 Ho E. destruct (owns_image _ _ _ Ho) as (Hp & EH & _ & EB & EK & LK).
  unfold generateRingSignatureAB in E. hcase E. inv_bind E. destruct a as [sA rn]. inv_bind E.
  destruct a as [S0 rn']. apply draw_responses_length in E2.
  inv_bind E. rewrite EK in E3. injection E3 as <-.
  rewrite (proj2 (Nat.ltb_lt _ _) Hown) in E. cbn [negb] in E. inv_bind E. rewrite EH in E3.
  injection E3 as <-. inv_bind E. rename a into c0. inv_bind E. rename a into st. injection E as <- <-.
  set (pkh := HashWriter_GetHash _) in *. set (Ki := pmul (be_val secret) Hp) in *.
  set (n := List.length pks) in *.
  replace (own + 1)%nat with (own + 1 + 0)%nat in E4 by lia.
  replace (own + 2)%nat with (own + 2 + 0)%nat in E4 by lia.
  apply (chain_loop_spec Ki pkh pks own (be_val sA) secret S0 Hown) in E4;
    [|first [reflexivity | lia]..].
  destruct E4 as (C & C0 & Cs & Sg & Cn & Co). cbn [bnC sigC] in *. fold n in Cs, Cn, Co.
  set (S' := closing own (be_val sA) secret S0 (C (n - 1)%nat)) in *.
  assert (List.length S' = n) as LS' by (unfold S', closing; rewrite length_set_nth; lia).
  assert (link_at Ki pkh pks S' own (C (n - 1)%nat) = Ret (C 0%nat)) as Closed
      by (rewrite C0; apply (closing_link pkh pks own (be_val sA) secret S0 Hp); auto; lia).
  assert (forall t, (t < n - 1)%nat ->
    link_at Ki pkh pks S' (Nat.modulo (own + 1 + t) n) (C t) = Ret (C (S t))) as Steps.
  { intros t Ht. rewrite <- Cs by lia. unfold link_at, S', closing. rewrite nth_set_nth by lia.
    rewrite (proj2 (Nat.eqb_neq _ _)); [easy|]. rewrite mod_wrap by lia.
    destruct (Nat.ltb_spec (own + 1 + t) n); lia. }
  assert (0 <= C (n - 1 - own)%nat < bnOrder) as Rg.
  { destruct (Nat.eq_dec own (n - 1)) as [-> | N].
    - replace (n - 1 - (n - 1))%nat with 0%nat by lia. eapply link_range. exact Closed.
    - eapply link_range. replace (n - 1 - own)%nat with (S (n - 2 - own)) by lia.
      apply (Steps (n - 2 - own)%nat). lia. }
  exists (bin32 (C (n - 1 - own)%nat)). split.
  { destruct (Nat.eq_dec own (n - 1)) as [En | N].
    - destruct (Co En) as (c & Ec & ->). rewrite Closed in Ec. injection Ec as <-.
      do 2 f_equal. f_equal. lia.
    - rewrite Cn by easy. destruct (Nat.ltb_spec 0 (n - 1 - own)); [easy|lia]. }
  unfold verifyRingSignatureAB. destruct (bin32_ok _ Rg) as (_ & LB & VB). rewrite LB, LK, VB, Sg.
  cbn [Z.eqb Pos.eqb negb]. change (32 =? EC_SECRET_SIZE) with true.
  change (33 =? EC_COMPRESSED_SIZE) with true. cbn [negb]. fold pkh. rewrite EK. cbn [check res_bind].
  rewrite <- pmul_order, Z.mod_same, pmul_zero by easy. cbn [negb].
  fold S'. rewrite (ring_walk Ki pkh pks own S0) by (first [assumption | lia]).
  cbn [res_bind]. rewrite Z.sub_diag. reflexivity.
Qed.

End Completeness.

(** ** Concrete rings *)

Definition demo_ring : list (list Z) := [2 :: bin32 7; 2 :: bin32 9; 2 :: bin32 11].
Definition demo_image : list Z :=
  match hashToEC false (2 :: bin32 9) false with
  | Ret Hp => point2oct true (pmul 9 Hp)
  | _ => []
  end.
Definition demo_draws : list (list Z) := map (fun i => bin32 (2 ^ 200 + i)) [1; 2; 3; 4; 5; 6; 7; 8].
Definition demo_sig : list (list Z) * list (list Z) :=
  match generateRingSignature false demo_image (repeat 3 32) 1 (bin32 9) demo_ring demo_draws with
  | Ret s => s
  | _ => ([], [])
  end.
Definition demo_sig_AB : list Z * list (list Z) :=
  match generateRingSignatureAB false demo_image 1 (bin32 9) demo_ring demo_draws with
  | Ret (Some c, s) => (c, s)
  | _ => ([], [])
  end.

Lemma demo_owns : owns false (bin32 9) (nth 1 demo_ring []) demo_image.
Proof.
  exists (gmul (be_val (Hash (2 :: bin32 9)))). splits; [reflexivity|vm_compute; reflexivity..].
Qed.

Lemma ring_signature_verifies_witness :
  (List.length (fst demo_sig) = 3%nat) /\
  verifyRingSignature false demo_image (repeat 3 32) demo_ring (fst demo_sig) (snd demo_sig) = Ret 0.
Proof.
  split; [vm_compute; reflexivity|].
  refine (@ring_signature_verifies Toy.hashes Toy.ec Toy.ec_laws false demo_image (repeat 3 32) 1
            (bin32 9) demo_ring demo_draws _ _ _ demo_owns _).
  - cbn. lia.
  - vm_compute. reflexivity.
Defined.

Lemma ring_signature_AB_verifies_witness :
  exists c, Some (fst demo_sig_AB) = Some c /\
    verifyRingSignatureAB false demo_image demo_ring c (snd demo_sig_AB) = Ret 0.
Proof.
  refine (@ring_signature_AB_verifies Toy.hashes Toy.ec Toy.ec_laws false demo_image 1
            (bin32 9) demo_ring demo_draws _ _ _ _ demo_owns _).
  - cbn. lia.
  - cbn. lia.
  - vm_compute. reflexivity.
Defined.

(** A forged response is rejected. *)
Example forged_rejected :
  verifyRingSignature false demo_image (repeat 3 32) demo_ring
    (fst demo_sig) (set_nth (snd demo_sig) 0 (bin32 5)) = Ret 2.
Proof. vm_compute. reflexivity. Qed.

End Ring.
