(* ===== verification/Transaction.v ===== *)
(** * Transactions (src/src/core.h, src/src/main.h)

    [COutPoint], [CTxIn], [CTxOut] and [CTransaction], their predicates and their
    wire format, built from the serialisers of [Stream] through the interface
    [Serializable].  A [uint256] is its 32-byte memory image here. *)

From Stdlib Require Import ZArith Lia List String Bool.
From S2P Require Import Prelude Stream.
Import ListNotations.
#[local] Open Scope Z_scope.
#[local] Open Scope se_scope.

Module Core.
Import DataStream Wire.

Definition UINT_MAX : Z := 4294967295.

Fixpoint eqbytes (a b : list Z) : bool :=
  match a, b with
  | [], [] => true
  | x :: a, y :: b => (x =? y) && eqbytes a b
  | _, _ => false
  end.

Lemma eqbytes_spec a : forall b, eqbytes a b = true <-> a = b.
Proof.
  induction a as [|x a IH]; intros [|y b]; cbn; try easy.
  rewrite andb_true_iff, Z.eqb_eq, IH. split; [now intros [-> ->]|now intros [= -> ->]].
Qed.

Record COutPoint := mkOutPoint { hash : list Z; n : Z }.

Definition zero_hash : list Z := repeat 0 32.

Definition OutPoint_SetNull : COutPoint := mkOutPoint zero_hash UINT_MAX.
Definition OutPoint_IsNull (o : COutPoint) : bool :=
  forallb (fun b => b =? 0) (hash o) && (n o =? UINT_MAX).
Definition OutPoint_eqb (a b : COutPoint) : bool := eqbytes (hash a) (hash b) && (n a =? n b).

Record CTxIn := mkTxIn { prevout : COutPoint; scriptSig : list Z; nSequence : Z }.

Definition TxIn_IsFinal (i : CTxIn) : bool := nSequence i =? UINT_MAX.

(** Opcodes and sizes the anonymity predicates test for. *)
Definition OP_RETURN_byte : Z := 106.
Definition OP_ANON_MARKER_byte : Z := 185.
Definition MIN_ANON_OUT_SIZE : Z := 1 + 1 + 1 + 33 + 1 + 33.
Definition MIN_ANON_IN_SIZE : Z := 2 + (33 + 32 + 32).

Definition IsAnonInput (i : CTxIn) : bool :=
  (MIN_ANON_IN_SIZE <=? zlen (scriptSig i)) &&
  (nth 0 (scriptSig i) 0 =? OP_RETURN_byte) && (nth 1 (scriptSig i) 0 =? OP_ANON_MARKER_byte).

(** The 33-byte key image of an anonymous input is kept in its [prevout]. *)
Definition ExtractKeyImage (i : CTxIn) : list Z :=
  firstn 32 (hash (prevout i)) ++ [Z.land (n (prevout i)) 255].
Definition ExtractRingSize (i : CTxIn) : Z := Z.land (Z.shiftr (n (prevout i)) 16) 65535.

Record CTxOut := mkTxOut { nValue : Z; scriptPubKey : list Z }.

Definition TxOut_SetNull : CTxOut := mkTxOut (-1) [].
Definition TxOut_IsNull (o : CTxOut) : bool := nValue o =? -1.
Definition TxOut_IsEmpty (o : CTxOut) : bool :=
  (nValue o =? 0) && match scriptPubKey o with [] => true | _ => false end.

Definition IsAnonOutput (o : CTxOut) : bool :=
  (MIN_ANON_OUT_SIZE <=? zlen (scriptPubKey o)) &&
  (nth 0 (scriptPubKey o) 0 =? OP_RETURN_byte) && (nth 1 (scriptPubKey o) 0 =? OP_ANON_MARKER_byte).

Definition ExtractAnonPk (o : CTxOut) : list Z := firstn 33 (skipn 3 (scriptPubKey o)).

Record CTransaction := mkTx {
  nVersion : Z;
  nTime : Z;
  vin : list CTxIn;
  vout : list CTxOut;
  nLockTime : Z
}.

Definition ANON_TXN_VERSION : Z := 1000.
Definition LOCKTIME_THRESHOLD : Z := 500000000.

Definition Tx_IsNull (t : CTransaction) : bool :=
  match vin t, vout t with [], [] => true | _, _ => false end.

(** [IsFinal(nBlockHeight, nBlockTime)]; the two globals it falls back to are
    [nBestHeight] and the adjusted time. *)
Definition Tx_IsFinal (nBestHeight adjustedTime : Z) (t : CTransaction)
    (nBlockHeight nBlockTime : Z) : bool :=
  if nLockTime t =? 0 then true
  else
    let nBlockHeight := if nBlockHeight =? 0 then nBestHeight else nBlockHeight in
    let nBlockTime := if nBlockTime =? 0 then adjustedTime else nBlockTime in
    if nLockTime t <? (if nLockTime t <? LOCKTIME_THRESHOLD then nBlockHeight else nBlockTime)
    then true
    else forallb TxIn_IsFinal (vin t).

(** One round of the loop of [IsNewerThan]. *)
Definition newer_step (st : bool * Z) (p : CTxIn * CTxIn) : bool * Z :=
  let '(fNewer, nLowest) := st in
  let '(i, o) := p in
  if negb (nSequence i =? nSequence o) then
    let '(fNewer, nLowest) :=
      if nSequence i <=? nLowest then (false, nSequence i) else (fNewer, nLowest) in
    if nSequence o <? nLowest then (true, nSequence o) else (fNewer, nLowest)
  else (fNewer, nLowest).

Definition IsNewerThan (t old : CTransaction) : bool :=
  if negb (zlen (vin t) =? zlen (vin old)) then false
  else
    let ps := combine (vin t) (vin old) in
    if negb (forallb (fun '(i, o) => OutPoint_eqb (prevout i) (prevout o)) ps) then false
    else fst (fold_left newer_step ps (false, UINT_MAX)).

Definition IsCoinBase (t : CTransaction) : bool :=
  match vin t with
  | [i] => OutPoint_IsNull (prevout i) && (1 <=? zlen (vout t))
  | _ => false
  end.

Definition IsCoinStake (t : CTransaction) : bool :=
  match vin t, vout t with
  | i :: _, o :: _ => negb (OutPoint_IsNull (prevout i)) && (2 <=? zlen (vout t)) && TxOut_IsEmpty o
  | _, _ => false
  end.

Definition IsAnonCoinStake (t : CTransaction) : bool :=
  (nVersion t =? ANON_TXN_VERSION) && IsCoinStake t.

(** [MAX_MONEY] is [std::numeric_limits<int64_t>::max()]. *)
Definition MAX_MONEY : Z := 9223372036854775807.
Definition MoneyRange (nValue : Z) : bool := (0 <=? nValue) && (nValue <=? MAX_MONEY).

(** The loop of [GetValueOut]: the running 64-bit sum is checked after every output. *)
Fixpoint value_out_loop (vout : list CTxOut) (nValueOut : Z) : res Z :=
  match vout with
  | [] => Ret nValueOut
  | o :: vout =>
      let nValueOut := i64 (nValueOut + nValue o) in
      if negb (MoneyRange (nValue o)) || negb (MoneyRange nValueOut)
      then Throw "CTransaction::GetValueOut() : value out of range"
      else value_out_loop vout nValueOut
  end.

Definition GetValueOut (t : CTransaction) : res Z := value_out_loop (vout t) 0.

(** ** Wire format *)

(** [READWRITE(FLATDATA( *this ))]: the 36 bytes of the object at once. *)
#[export] Instance Serializable_COutPoint : Serializable COutPoint := {
  Serialize o := write (hash o ++ le_bytes 4 (n o));
  Unserialize := let! d := read 36 in se_ret (mkOutPoint (firstn 32 d) (le_val (skipn 32 d)));
  GetSerializeSize _ := ser_size [36];
  sizeofT := 36
}.

#[export] Instance Serializable_CTxIn : Serializable CTxIn := {
  Serialize i := Serialize (prevout i) ;! Serialize (scriptSig i) ;! WRITEDATA 4 (nSequence i);
  Unserialize :=
    let! o := Unserialize in let! s := Unserialize in let! q := READDATA 4 in se_ret (mkTxIn o s q);
  GetSerializeSize i := ser_size [GetSerializeSize (prevout i); GetSerializeSize (scriptSig i); 4];
  sizeofT := 72
}.

#[export] Instance Serializable_CTxOut : Serializable CTxOut := {
  Serialize o := WRITEDATA 8 (u64 (nValue o)) ;! Serialize (scriptPubKey o);
  Unserialize := let! v := READDATA 8 in let! s := Unserialize in se_ret (mkTxOut (i64 v) s);
  GetSerializeSize o := ser_size [8; GetSerializeSize (scriptPubKey o)];
  sizeofT := 32
}.

#[export] Instance Serializable_CTransaction : Serializable CTransaction := {
  Serialize t :=
    WRITEDATA 4 (u32 (nVersion t)) ;! WRITEDATA 4 (nTime t) ;! Serialize_vector (vin t) ;!
    Serialize_vector (vout t) ;! WRITEDATA 4 (nLockTime t);
  Unserialize :=
    let! v := READDATA 4 in let! tm := READDATA 4 in let! i := Unserialize_vector in
    let! o := Unserialize_vector in let! lt := READDATA 4 in se_ret (mkTx (i32 v) tm i o lt);
  GetSerializeSize t :=
    ser_size [4; 4; GetSerializeSize_vector (vin t); GetSerializeSize_vector (vout t); 4];
  sizeofT := 72
}.

(** ** The laws *)

(** The size of an object is that of the concatenation of its parts' encodings, whose
    lengths are given. *)
Ltac size lengths :=
  rewrite (ser_size_words _ lengths) by (repeat (apply Forall2_cons; [reflexivity|]); apply Forall2_nil);
  cbn [fold_right]; rewrite ?zlen_app, ?zlen_le_bytes; f_equal; lia.

Definition outpoint_ok (o : COutPoint) : Prop := zlen (hash o) = 32 /\ in_u 32 (n o).
Definition txin_ok (i : CTxIn) : Prop :=
  outpoint_ok (prevout i) /\ zlen (scriptSig i) <= MAX_SIZE /\ in_u 32 (nSequence i).
Definition txout_ok (o : CTxOut) : Prop := in_s 64 (nValue o) /\ zlen (scriptPubKey o) <= MAX_SIZE.

#[export] Instance SerLaws_COutPoint : SerLaws COutPoint outpoint_ok.
Proof.
  refine {| encode o := hash o ++ le_bytes 4 (n o) |}.
  - easy.
  - intros [h m] s rest [Hh Hm] Hok Hrem. cbn [hash n] in *. cbn [Unserialize Serializable_COutPoint].
    destruct (read_queue s (h ++ le_bytes 4 m) rest) as (s' & E & H1 & H2 & _); auto.
    { destruct h; easy. }
    rewrite zlen_app, Hh in E. change (32 + zlen (le_bytes 4 m)) with 36 in E.
    exists s'. erewrite se_bind_ret by exact E. splits; auto. unfold se_ret.
    change 32%nat with (Z.to_nat 32). rewrite <- Hh, firstn_app_exact, skipn_app_exact.
    rewrite le_val_bytes, Z.mod_small by exact Hm. easy.
  - intros o [Hh _]. rewrite zlen_app, Hh. easy.
Defined.

#[export] Instance SerLaws_CTxIn : SerLaws CTxIn txin_ok.
Proof.
  refine {| encode i := encode (prevout i) ++ encode (scriptSig i) ++ le_bytes 4 (nSequence i) |}.
  - intros i s (Ho & Hs & Hq). cbn [Serialize Serializable_CTxIn].
    erewrite se_bind_ret by exact (Serialize_append (SerLaws := SerLaws_COutPoint) _ _ Ho).
    append. reflexivity.
  - intros [o sc q] s rest (Ho & Hs & Hq) Hok Hrem. cbn [prevout scriptSig nSequence] in *.
    rewrite <- !app_assoc in Hrem. cbn [Unserialize Serializable_CTxIn].
    take (Unserialize_take (SerLaws := SerLaws_COutPoint) o).
    take (Unserialize_take (SerLaws := SerLaws_bytes) sc).
    take (READDATA_take 4 q); try lia. eexists. split; [reflexivity|]. auto.
  - intros i (Ho & Hs & Hq). cbn [GetSerializeSize Serializable_CTxIn].
    rewrite !GetSerializeSize_encode by auto. now size [zlen (encode (prevout i)); zlen (encode (scriptSig i)); 4].
Defined.

#[export] Instance SerLaws_CTxOut : SerLaws CTxOut txout_ok.
Proof.
  refine {| encode o := le_bytes 8 (u64 (nValue o)) ++ encode (scriptPubKey o) |}.
  - intros o s (Hv & Hs). cbn [Serialize Serializable_CTxOut]. append.
    rewrite Serialize_append by easy. cbn. unfold set_buf. cbn. now rewrite <- app_assoc.
  - intros [v sc] s rest (Hv & Hs) Hok Hrem. cbn [nValue scriptPubKey] in *.
    rewrite <- !app_assoc in Hrem. cbn [Unserialize Serializable_CTxOut].
    take (READDATA_take 8 (u64 v)); try lia; [apply wrapu_range; lia|].
    take (Unserialize_take (SerLaws := SerLaws_bytes) sc).
    eexists. split; [|eauto]. unfold se_ret. now rewrite wraps_wrapu by (auto; lia).
  - intros o (Hv & Hs). cbn [GetSerializeSize Serializable_CTxOut].
    rewrite GetSerializeSize_encode by auto. now size [8; zlen (encode (scriptPubKey o))].
Defined.

Definition tx_ok (t : CTransaction) : Prop :=
  in_s 32 (nVersion t) /\ in_u 32 (nTime t) /\ vector_ok (V := txin_ok) (vin t) /\
  vector_ok (V := txout_ok) (vout t) /\ in_u 32 (nLockTime t).

Lemma sizeof_CTxIn : 1 <= sizeofT (A := CTxIn) <= 5000000.
Proof. cbn. lia. Qed.
Lemma sizeof_CTxOut : 1 <= sizeofT (A := CTxOut) <= 5000000.
Proof. cbn. lia. Qed.

Definition laws_vin : SerLaws (list CTxIn) (vector_ok (V := txin_ok)) := SerLaws_vector sizeof_CTxIn.
Definition laws_vout : SerLaws (list CTxOut) (vector_ok (V := txout_ok)) := SerLaws_vector sizeof_CTxOut.

#[export] Instance SerLaws_CTransaction : SerLaws CTransaction tx_ok.
Proof.
  refine {| encode t :=
    le_bytes 4 (u32 (nVersion t)) ++ le_bytes 4 (nTime t) ++ encode (SerLaws := laws_vin) (vin t) ++
    encode (SerLaws := laws_vout) (vout t) ++ le_bytes 4 (nLockTime t) |}.
  - intros t s (Hv & Ht & Hi & Ho & Hl). cbn [Serialize Serializable_CTransaction]. unfold WRITEDATA.
    do 2 (erewrite se_bind_ret by apply write_spec).
    erewrite se_bind_ret by exact (Serialize_append (SerLaws := laws_vin) _ _ Hi).
    erewrite se_bind_ret by exact (Serialize_append (SerLaws := laws_vout) _ _ Ho).
    rewrite write_spec. unfold set_buf. cbn [vch nReadPos state exceptmask].
    now rewrite <- !app_assoc.
  - intros [v tm i o lt] s rest (Hv & Ht & Hi & Ho & Hl) Hok Hrem.
    cbn [nVersion nTime vin vout nLockTime] in *.
    rewrite <- !app_assoc in Hrem. cbn [Unserialize Serializable_CTransaction].
    take (READDATA_take 4 (u32 v)); try lia; [apply wrapu_range; lia|].
    take (READDATA_take 4 tm); try lia.
    take (Unserialize_take (SerLaws := laws_vin) i).
    take (Unserialize_take (SerLaws := laws_vout) o).
    take (READDATA_take 4 lt); try lia.
    eexists. split; [|eauto]. unfold se_ret. now rewrite wraps_wrapu by (auto; lia).
  - intros t (Hv & Ht & Hi & Ho & Hl). cbn [GetSerializeSize Serializable_CTransaction].
    pose proof (GetSerializeSize_encode (SerLaws := laws_vin) _ Hi) as E1.
    pose proof (GetSerializeSize_encode (SerLaws := laws_vout) _ Ho) as E2.
    cbn [GetSerializeSize Serializable_vector] in E1, E2.
    rewrite E1, E2. now size [4; 4; zlen (encode (SerLaws := laws_vin) (vin t)); zlen (encode (SerLaws := laws_vout) (vout t)); 4].
Defined.

(** ** Totals and replacement *)

Definition sum_values (l : list CTxOut) : Z := fold_right (fun o s => nValue o + s) 0 l.

Lemma sum_values_nonneg l : Forall (fun o => 0 <= nValue o) l -> 0 <= sum_values l.
Proof.
  induction 1 as [|o l Ho Hl IH]; [easy|].
  change (sum_values (o :: l)) with (nValue o + sum_values l). lia.
Qed.

Lemma MoneyRange_true v : MoneyRange v = true <-> 0 <= v <= MAX_MONEY.
Proof. unfold MoneyRange. rewrite andb_true_iff, !Z.leb_le. lia. Qed.

(** A sum of two amounts that leaves the range is seen by the check: the 64-bit
    sum wraps to a negative number. *)
Lemma wrapped_sum a b :
  0 <= a <= MAX_MONEY -> 0 <= b <= MAX_MONEY ->
  (MoneyRange (i64 (a + b)) = true <-> a + b <= MAX_MONEY) /\
  (a + b <= MAX_MONEY -> i64 (a + b) = a + b).
Proof.
  unfold MAX_MONEY. intros Ha Hb.
  destruct (Z.le_gt_cases (a + b) 9223372036854775807) as [L|L].
  - rewrite wraps_id by (unfold in_s; cbn; lia). rewrite MoneyRange_true. unfold MAX_MONEY. lia.
  - assert (i64 (a + b) = a + b - 2 ^ 64) as ->.
    { unfold wraps. change (2 ^ (64 - 1)) with 9223372036854775808.
      rewrite (Z.mod_eq _ (2 ^ 64)) by lia.
      replace ((a + b + 9223372036854775808) / 2 ^ 64) with 1; [lia|].
      apply (Z.div_unique_pos _ _ _ (a + b + 9223372036854775808 - 2 ^ 64)); lia. }
    rewrite MoneyRange_true. unfold MAX_MONEY. lia.
Qed.

Lemma value_out_loop_spec l : forall acc v,
  Forall (fun o => in_s 64 (nValue o)) l -> 0 <= acc <= MAX_MONEY ->
  (value_out_loop l acc = Ret v <->
   Forall (fun o => 0 <= nValue o) l /\ v = acc + sum_values l /\ acc + sum_values l <= MAX_MONEY).
Proof.
  induction l as [|o l IH]; intros acc v Hl Ha; cbn [value_out_loop sum_values fold_right].
  { rewrite Z.add_0_r. split; [intros [= ->]; splits; auto; lia|now intros (_ & -> & _)]. }
  inversion_clear Hl as [|? ? Ho Hl']. fold (sum_values l).
  unfold in_s in Ho. change (2 ^ (64 - 1)) with 9223372036854775808 in Ho.
  destruct (MoneyRange (nValue o)) eqn:E; cbn [negb orb].
  - apply MoneyRange_true in E. destruct (wrapped_sum acc (nValue o) Ha E) as [W1 W2].
    destruct (MoneyRange (i64 (acc + nValue o))) eqn:F; cbn [negb].
    + rewrite W2 by now apply W1. rewrite IH by (auto; pose proof (proj1 W1 eq_refl); lia).
      rewrite Forall_cons_iff, Z.add_assoc. intuition lia.
    + split; [discriminate|]. rewrite Forall_cons_iff. intros ((_ & Hn) & _ & L).
      pose proof (sum_values_nonneg l Hn). assert (acc + nValue o <= MAX_MONEY) as C by lia.
      apply W1 in C. congruence.
  - split; [discriminate|]. rewrite Forall_cons_iff. intros ((H0 & _) & _).
    assert (MoneyRange (nValue o) = true) by (apply MoneyRange_true; unfold MAX_MONEY; lia).
    congruence.
Qed.

Lemma newer_step_swap st st' i o :
  snd st = snd st' -> fst st && fst st' = false ->
  snd (newer_step st (i, o)) = snd (newer_step st' (o, i)) /\
  fst (newer_step st (i, o)) && fst (newer_step st' (o, i)) = false.
Proof.
  destruct st as [f l], st' as [f' l']. cbn [fst snd]. intros <- Hf. unfold newer_step.
  rewrite (Z.eqb_sym (nSequence o)). destruct (nSequence i =? nSequence o) eqn:E; cbn [negb]; zbool; auto.
  destruct (nSequence i <=? l) eqn:A, (nSequence o <=? l) eqn:B; zbool; cbv iota beta;
    repeat match goal with
           | |- context [?x <? ?y] => destruct (x <? y) eqn:?; zbool; try lia
           end; cbn [fst snd andb]; try (split; [lia|]); auto using andb_false_r.
Qed.

Lemma newer_fold_swap ps : forall st st',
  snd st = snd st' -> fst st && fst st' = false ->
  fst (fold_left newer_step ps st) &&
  fst (fold_left newer_step (map (fun '(i, o) => (o, i)) ps) st') = false.
Proof.
  induction ps as [|[i o] ps IH]; intros st st' H1 H2; [easy|].
  cbn [map fold_left]. destruct (newer_step_swap st st' i o H1 H2). now apply IH.
Qed.

Lemma combine_swap {A} (a b : list A) :
  combine b a = map (fun '(x, y) => (y, x)) (combine a b).
Proof. revert b. induction a as [|x a IH]; intros [|y b]; cbn; auto. now rewrite IH. Qed.





(** [GetValueOut] returns a value exactly when no output is negative and their sum stays
    within [MAX_MONEY], and then it is the sum; in every other case it throws. The check after
    each addition is enough although the maximum is the largest 64-bit value, so that the sum
    can wrap. *)
Theorem GetValueOut_exact t v :
  Forall (fun o => in_s 64 (nValue o)) (vout t) ->
  (GetValueOut t = Ret v <->
   Forall (fun o => 0 <= nValue o) (vout t) /\ v = sum_values (vout t) /\
   sum_values (vout t) <= MAX_MONEY).
Proof. intros H. unfold GetValueOut. now apply value_out_loop_spec. Qed.

Lemma GetValueOut_exact_witness :
  let t := mkTx 1 0 [] [mkTxOut 9223372036854775807 []; mkTxOut 1 []] 0 in
  GetValueOut t = Ret (-9223372036854775808) <->
  Forall (fun o => 0 <= nValue o) (vout t) /\ -9223372036854775808 = sum_values (vout t) /\
  sum_values (vout t) <= MAX_MONEY.
Proof. apply GetValueOut_exact. repeat constructor; vm_compute; discriminate. Defined.

(** Replacement is antisymmetric: of two transactions, at most one is newer than the
    other. *)
Theorem IsNewerThan_antisymmetric a b : IsNewerThan a b && IsNewerThan b a = false.
Proof.
  unfold IsNewerThan. rewrite (Z.eqb_sym (zlen (vin b))).
  destruct (zlen (vin a) =? zlen (vin b)); [|easy]. cbn [negb].
  rewrite (combine_swap (vin a) (vin b)).
  destruct (forallb _ (combine (vin a) (vin b))); [|easy]. cbn [negb].
  destruct (forallb _ (map _ _)); [|apply andb_false_r]. cbn [negb].
  now apply newer_fold_swap.
Qed.

End Core.
