(* ===== verification/ChainParams.v ===== *)
(** * Chain parameters (src/src/chainparams.h, src/src/chainparams.cpp)

    The numbers that distinguish the networks: the heights at which the proof
    of stake protocols start, the times of the forks, the target limits and the
    confirmations a staked output needs, for the main, test and regression test
    network. *)

From Stdlib Require Import ZArith Lia List String Bool.
From S2P Require Import Prelude.
Import ListNotations.
#[local] Open Scope Z_scope.

Module ChainParams.

Inductive Network := MAIN | TESTNET | REGTEST.

Record CChainParams := mkParams {
  NetworkID : Network;
  nLastPOWBlock : Z;
  nFirstPosv2Block : Z;
  nFirstPosv3Block : Z;
  bnProofOfWorkLimit : Z;
  bnProofOfStakeLimit : Z;
  bnProofOfStakeLimitV2 : Z;
  nStakeMinConfirmationsLegacy : Z;
  nStakeMinConfirmations : Z;
  nForkV2Time : Z;
  nForkV3Time : Z;
  nForkV4Time : Z
}.

(** [~uint256(0) >> n], as an integer. *)
Definition limit (n : Z) : Z := Z.shiftr (2 ^ 256 - 1) n.

Definition CMainParams : CChainParams := {|
  NetworkID := MAIN;
  nLastPOWBlock := 17000;
  nFirstPosv2Block := 17001;
  nFirstPosv3Block := 17010;
  bnProofOfWorkLimit := limit 20;
  bnProofOfStakeLimit := limit 20;
  bnProofOfStakeLimitV2 := limit 48;
  nStakeMinConfirmationsLegacy := 288;
  nStakeMinConfirmations := 450;
  nForkV2Time := 1534888800;
  nForkV3Time := 1558123200;
  nForkV4Time := 1569614400
|}.

Definition CTestNetParams : CChainParams := {|
  NetworkID := TESTNET;
  nLastPOWBlock := 20;
  nFirstPosv2Block := 20;
  nFirstPosv3Block := 500;
  bnProofOfWorkLimit := limit 1;
  bnProofOfStakeLimit := limit 20;
  bnProofOfStakeLimitV2 := limit 46;
  nStakeMinConfirmationsLegacy := 28;
  nStakeMinConfirmations := 30;
  nForkV2Time := 1532466000;
  nForkV3Time := 1546470000;
  nForkV4Time := 1567972800
|}.

(** Derived from the test network's, with every height in the later protocols. *)
Definition CRegTestParams : CChainParams :=
  let t := CTestNetParams in {|
  NetworkID := REGTEST;
  nLastPOWBlock := nLastPOWBlock t;
  nFirstPosv2Block := -1;
  nFirstPosv3Block := -1;
  bnProofOfWorkLimit := limit 1;
  bnProofOfStakeLimit := bnProofOfStakeLimit t;
  bnProofOfStakeLimitV2 := bnProofOfStakeLimitV2 t;
  nStakeMinConfirmationsLegacy := nStakeMinConfirmationsLegacy t;
  nStakeMinConfirmations := nStakeMinConfirmations t;
  nForkV2Time := nForkV2Time t;
  nForkV3Time := nForkV3Time t;
  nForkV4Time := nForkV4Time t
|}.

(** [SelectParams]: what [Params()] returns from then on. *)
Definition SelectParams (network : Network) : CChainParams :=
  match network with
  | MAIN => CMainParams
  | TESTNET => CTestNetParams
  | REGTEST => CRegTestParams
  end.

(** [SelectParamsFromCommandLine]: [None] when both switches are given. *)
Definition SelectParamsFromCommandLine (fRegTest fTestNet : bool) : option CChainParams :=
  if fTestNet && fRegTest then None
  else if fRegTest then Some (SelectParams REGTEST)
  else if fTestNet then Some (SelectParams TESTNET)
  else Some (SelectParams MAIN).

Section Params.
Context (p : CChainParams).

Definition IsProtocolV2 (nHeight : Z) : bool := nFirstPosv2Block p <? nHeight.
Definition IsProtocolV3 (nHeight : Z) : bool := nFirstPosv3Block p <? nHeight.
Definition ProofOfWorkLimit : Z := bnProofOfWorkLimit p.
Definition ProofOfStakeLimit (nHeight : Z) : Z :=
  if IsProtocolV2 nHeight then bnProofOfStakeLimitV2 p else bnProofOfStakeLimit p.
Definition IsForkV2 (nTime : Z) : bool := nForkV2Time p <? nTime.
Definition IsForkV3 (nTime : Z) : bool := nForkV3Time p <? nTime.
Definition IsForkV4 (nTime : Z) : bool := nForkV4Time p <=? nTime.
Definition GetForkId (nTime : Z) : Z :=
  if nForkV4Time p <=? nTime then 4
  else if nForkV3Time p <? nTime then 3
  else if nForkV2Time p <? nTime then 2
  else 0.
Definition GetStakeMinConfirmations (nTime : Z) : Z :=
  if IsForkV3 nTime then nStakeMinConfirmations p else nStakeMinConfirmationsLegacy p.
Definition GetAnonStakeMinConfirmations : Z := nStakeMinConfirmations p.

End Params.

Example main_forks :
  map (GetForkId CMainParams) [1534888800; 1534888801; 1558123201; 1569614399; 1569614400] =
  [0; 2; 3; 3; 4].
Proof. reflexivity. Qed.

End ChainParams.
