(* ===== verification/Script.v ===== *)
(** * Scripts (src/src/script.h, src/src/script.cpp)

    The opcodes, the instruction reader [GetOp2], the push encodings, and the
    static questions asked about a script: its signature operations, whether it
    only pushes, its standard form ([Solver]) and destination.  A script is its
    list of bytes; an iterator into it is the list of the bytes that follow. *)

From Stdlib Require Import ZArith Lia List String Bool.
From S2P Require Import Prelude BigNum Crypto Key Transaction.
Import ListNotations.
#[local] Open Scope Z_scope.

Module Script.

Definition MAX_SCRIPT_ELEMENT_SIZE : Z := 520.
Definition MAX_OP_RETURN_RELAY : Z := 48.

Inductive opcodetype :=
| OP_PUSHBYTES (n : Z) | OP_0 | OP_PUSHDATA1 | OP_PUSHDATA2 | OP_PUSHDATA4 | OP_1NEGATE
| OP_RESERVED | OP_1 | OP_2 | OP_3 | OP_4 | OP_5 | OP_6 | OP_7 | OP_8 | OP_9 | OP_10 | OP_11
| OP_12 | OP_13 | OP_14 | OP_15 | OP_16 | OP_NOP | OP_VER | OP_IF | OP_NOTIF | OP_VERIF
| OP_VERNOTIF | OP_ELSE | OP_ENDIF | OP_VERIFY | OP_RETURN | OP_TOALTSTACK | OP_FROMALTSTACK
| OP_2DROP | OP_2DUP | OP_3DUP | OP_2OVER | OP_2ROT | OP_2SWAP | OP_IFDUP | OP_DEPTH | OP_DROP
| OP_DUP | OP_NIP | OP_OVER | OP_PICK | OP_ROLL | OP_ROT | OP_SWAP | OP_TUCK | OP_CAT
| OP_SUBSTR | OP_LEFT | OP_RIGHT | OP_SIZE | OP_INVERT | OP_AND | OP_OR | OP_XOR | OP_EQUAL
| OP_EQUALVERIFY | OP_RESERVED1 | OP_RESERVED2 | OP_1ADD | OP_1SUB | OP_2MUL | OP_2DIV
| OP_NEGATE | OP_ABS | OP_NOT | OP_0NOTEQUAL | OP_ADD | OP_SUB | OP_MUL | OP_DIV | OP_MOD
| OP_LSHIFT | OP_RSHIFT | OP_BOOLAND | OP_BOOLOR | OP_NUMEQUAL | OP_NUMEQUALVERIFY
| OP_NUMNOTEQUAL | OP_LESSTHAN | OP_GREATERTHAN | OP_LESSTHANOREQUAL | OP_GREATERTHANOREQUAL
| OP_MIN | OP_MAX | OP_WITHIN | OP_RIPEMD160 | OP_SHA1 | OP_SHA256 | OP_HASH160 | OP_HASH256
| OP_CODESEPARATOR | OP_CHECKSIG | OP_CHECKSIGVERIFY | OP_CHECKMULTISIG | OP_CHECKMULTISIGVERIFY
| OP_NOP1 | OP_CHECKLOCKTIMEVERIFY | OP_NOP3 | OP_NOP4 | OP_NOP5 | OP_NOP6 | OP_NOP7 | OP_NOP8
| OP_NOP9 | OP_ANON_MARKER | OP_SMALLDATA | OP_SMALLINTEGER | OP_PUBKEYS | OP_PUBKEYHASH
| OP_PUBKEY | OP_INVALIDOPCODE
| OP_UNNAMED (b : Z).

(** The numeric value of an opcode. *)
Definition code (o : opcodetype) : Z :=
  match o with
  | OP_PUSHBYTES n => n
  | OP_UNNAMED b => b
  | OP_0 => 0 | OP_PUSHDATA1 => 76 | OP_PUSHDATA2 => 77 | OP_PUSHDATA4 => 78 | OP_1NEGATE => 79
  | OP_RESERVED => 80 | OP_1 => 81 | OP_2 => 82 | OP_3 => 83 | OP_4 => 84 | OP_5 => 85
  | OP_6 => 86 | OP_7 => 87 | OP_8 => 88 | OP_9 => 89 | OP_10 => 90 | OP_11 => 91 | OP_12 => 92
  | OP_13 => 93 | OP_14 => 94 | OP_15 => 95 | OP_16 => 96 | OP_NOP => 97 | OP_VER => 98
  | OP_IF => 99 | OP_NOTIF => 100 | OP_VERIF => 101 | OP_VERNOTIF => 102 | OP_ELSE => 103
  | OP_ENDIF => 104 | OP_VERIFY => 105 | OP_RETURN => 106 | OP_TOALTSTACK => 107
  | OP_FROMALTSTACK => 108 | OP_2DROP => 109 | OP_2DUP => 110 | OP_3DUP => 111
  | OP_2OVER => 112 | OP_2ROT => 113 | OP_2SWAP => 114 | OP_IFDUP => 115 | OP_DEPTH => 116
  | OP_DROP => 117 | OP_DUP => 118 | OP_NIP => 119 | OP_OVER => 120 | OP_PICK => 121
  | OP_ROLL => 122 | OP_ROT => 123 | OP_SWAP => 124 | OP_TUCK => 125 | OP_CAT => 126
  | OP_SUBSTR => 127 | OP_LEFT => 128 | OP_RIGHT => 129 | OP_SIZE => 130 | OP_INVERT => 131
  | OP_AND => 132 | OP_OR => 133 | OP_XOR => 134 | OP_EQUAL => 135 | OP_EQUALVERIFY => 136
  | OP_RESERVED1 => 137 | OP_RESERVED2 => 138 | OP_1ADD => 139 | OP_1SUB => 140
  | OP_2MUL => 141 | OP_2DIV => 142 | OP_NEGATE => 143 | OP_ABS => 144 | OP_NOT => 145
  | OP_0NOTEQUAL => 146 | OP_ADD => 147 | OP_SUB => 148 | OP_MUL => 149 | OP_DIV => 150
  | OP_MOD => 151 | OP_LSHIFT => 152 | OP_RSHIFT => 153 | OP_BOOLAND => 154 | OP_BOOLOR => 155
  | OP_NUMEQUAL => 156 | OP_NUMEQUALVERIFY => 157 | OP_NUMNOTEQUAL => 158 | OP_LESSTHAN => 159
  | OP_GREATERTHAN => 160 | OP_LESSTHANOREQUAL => 161 | OP_GREATERTHANOREQUAL => 162
  | OP_MIN => 163 | OP_MAX => 164 | OP_WITHIN => 165 | OP_RIPEMD160 => 166 | OP_SHA1 => 167
  | OP_SHA256 => 168 | OP_HASH160 => 169 | OP_HASH256 => 170 | OP_CODESEPARATOR => 171
  | OP_CHECKSIG => 172 | OP_CHECKSIGVERIFY => 173 | OP_CHECKMULTISIG => 174
  | OP_CHECKMULTISIGVERIFY => 175 | OP_NOP1 => 176 | OP_CHECKLOCKTIMEVERIFY => 177
  | OP_NOP3 => 178 | OP_NOP4 => 179 | OP_NOP5 => 180 | OP_NOP6 => 181 | OP_NOP7 => 182
  | OP_NOP8 => 183 | OP_NOP9 => 184 | OP_ANON_MARKER => 185 | OP_SMALLDATA => 249
  | OP_SMALLINTEGER => 250 | OP_PUBKEYS => 251 | OP_PUBKEYHASH => 253 | OP_PUBKEY => 254
  | OP_INVALIDOPCODE => 255
  end.

(** [(opcodetype)b]: the enumerator of a byte; direct pushes and holes have no name. *)
Definition opcode_of (b : Z) : opcodetype :=
  match b with
  | 0 => OP_0 | 76 => OP_PUSHDATA1 | 77 => OP_PUSHDATA2 | 78 => OP_PUSHDATA4 | 79 => OP_1NEGATE
  | 80 => OP_RESERVED | 81 => OP_1 | 82 => OP_2 | 83 => OP_3 | 84 => OP_4 | 85 => OP_5
  | 86 => OP_6 | 87 => OP_7 | 88 => OP_8 | 89 => OP_9 | 90 => OP_10 | 91 => OP_11 | 92 => OP_12
  | 93 => OP_13 | 94 => OP_14 | 95 => OP_15 | 96 => OP_16 | 97 => OP_NOP | 98 => OP_VER
  | 99 => OP_IF | 100 => OP_NOTIF | 101 => OP_VERIF | 102 => OP_VERNOTIF | 103 => OP_ELSE
  | 104 => OP_ENDIF | 105 => OP_VERIFY | 106 => OP_RETURN | 107 => OP_TOALTSTACK
  | 108 => OP_FROMALTSTACK | 109 => OP_2DROP | 110 => OP_2DUP | 111 => OP_3DUP
  | 112 => OP_2OVER | 113 => OP_2ROT | 114 => OP_2SWAP | 115 => OP_IFDUP | 116 => OP_DEPTH
  | 117 => OP_DROP | 118 => OP_DUP | 119 => OP_NIP | 120 => OP_OVER | 121 => OP_PICK
  | 122 => OP_ROLL | 123 => OP_ROT | 124 => OP_SWAP | 125 => OP_TUCK | 126 => OP_CAT
  | 127 => OP_SUBSTR | 128 => OP_LEFT | 129 => OP_RIGHT | 130 => OP_SIZE | 131 => OP_INVERT
  | 132 => OP_AND | 133 => OP_OR | 134 => OP_XOR | 135 => OP_EQUAL | 136 => OP_EQUALVERIFY
  | 137 => OP_RESERVED1 | 138 => OP_RESERVED2 | 139 => OP_1ADD | 140 => OP_1SUB
  | 141 => OP_2MUL | 142 => OP_2DIV | 143 => OP_NEGATE | 144 => OP_ABS | 145 => OP_NOT
  | 146 => OP_0NOTEQUAL | 147 => OP_ADD | 148 => OP_SUB | 149 => OP_MUL | 150 => OP_DIV
  | 151 => OP_MOD | 152 => OP_LSHIFT | 153 => OP_RSHIFT | 154 => OP_BOOLAND | 155 => OP_BOOLOR
  | 156 => OP_NUMEQUAL | 157 => OP_NUMEQUALVERIFY | 158 => OP_NUMNOTEQUAL | 159 => OP_LESSTHAN
  | 160 => OP_GREATERTHAN | 161 => OP_LESSTHANOREQUAL | 162 => OP_GREATERTHANOREQUAL
  | 163 => OP_MIN | 164 => OP_MAX | 165 => OP_WITHIN | 166 => OP_RIPEMD160 | 167 => OP_SHA1
  | 168 => OP_SHA256 | 169 => OP_HASH160 | 170 => OP_HASH256 | 171 => OP_CODESEPARATOR
  | 172 => OP_CHECKSIG | 173 => OP_CHECKSIGVERIFY | 174 => OP_CHECKMULTISIG
  | 175 => OP_CHECKMULTISIGVERIFY | 176 => OP_NOP1 | 177 => OP_CHECKLOCKTIMEVERIFY
  | 178 => OP_NOP3 | 179 => OP_NOP4 | 180 => OP_NOP5 | 181 => OP_NOP6 | 182 => OP_NOP7
  | 183 => OP_NOP8 | 184 => OP_NOP9 | 185 => OP_ANON_MARKER | 249 => OP_SMALLDATA
  | 250 => OP_SMALLINTEGER | 251 => OP_PUBKEYS | 253 => OP_PUBKEYHASH | 254 => OP_PUBKEY
  | 255 => OP_INVALIDOPCODE
  | _ => if (1 <=? b) && (b <=? 75) then OP_PUSHBYTES b else OP_UNNAMED b
  end.

(** Comparison of opcodes as the code does it: of their values. *)
Definition op_eqb (a b : opcodetype) : bool := code a =? code b.

(** What [GetOp2] leaves: its result, the opcode, the pushed bytes and the
    iterator, which stays where the reading stopped when it fails. *)
Record got := mkGot { ok : bool; opcode : opcodetype; vch : list Z; pc : list Z }.

Definition got_fail (pc : list Z) : got := mkGot false OP_INVALIDOPCODE [] pc.

Definition GetOp2 (pc : list Z) : got :=
  match pc with
  | [] => got_fail pc
  | b :: pc =>
      let o := opcode_of b in
      if b <=? 78 then
        (* the operand's size, and the iterator after it *)
        let size :=
          if b <? 76 then (true, b, pc)
          else if b =? 76 then
            match pc with
            | n :: pc' => (true, n, pc')
            | [] => (false, 0, pc)
            end
          else if b =? 77 then
            if zlen pc <? 2 then (false, 0, pc) else (true, le_val (firstn 2 pc), skipn 2 pc)
          else
            if zlen pc <? 4 then (false, 0, pc) else (true, le_val (firstn 4 pc), skipn 4 pc) in
        let '(fine, nSize, pc) := size in
        if negb fine then got_fail pc
        else if u32 (zlen pc) <? nSize then got_fail pc
        else mkGot true o (firstn (Z.to_nat nSize) pc) (skipn (Z.to_nat nSize) pc)
      else mkGot true o [] pc
  end.

(** ** Encodings *)

(** [DecodeOP_N]: every caller has tested the opcode its [assert] is about. *)
Definition DecodeOP_N (o : opcodetype) : Z := if op_eqb o OP_0 then 0 else code o - 80.

(** [EncodeOP_N]; [None] is its failing [assert]. *)
Definition EncodeOP_N (n : Z) : option opcodetype :=
  if negb ((0 <=? n) && (n <=? 16)) then None
  else Some (if n =? 0 then OP_0 else opcode_of (81 + n - 1)).

(** [operator<<(const std::vector<unsigned char>&)] *)
Definition push_data (b : list Z) : list Z :=
  (if zlen b <? 76 then [u8 (zlen b)]
   else if zlen b <=? 255 then [76; u8 (zlen b)]
   else if zlen b <=? 65535 then 77 :: le_bytes 2 (zlen b)
   else 78 :: le_bytes 4 (zlen b)) ++ b.

(** [operator<<] of an opcode, of a [uint160] and of a public key; [None] is the
    failing [assert] on the key's size. *)
Definition push_op (o : opcodetype) : list Z := [code o].
Definition push_uint160 (b : list Z) : list Z := 20 :: b.
Definition push_pubkey (key : PubKey.CPubKey) : option (list Z) :=
  if negb (PubKey.size key <? 76) then None
  else Some (u8 (PubKey.size key) :: PubKey.bytes key).

(** [push_int64] and [push_uint64] *)
Definition push_int64 `{OpenSSL_BN} (n : Z) : list Z :=
  if (n =? -1) || ((1 <=? n) && (n <=? 16)) then [u8 (n + (81 - 1))]
  else push_data (CBigNum.getvch (CBigNum.setint64 n)).
Definition push_uint64 `{OpenSSL_BN} (n : Z) : list Z :=
  if (1 <=? n) && (n <=? 16) then [u8 (n + (81 - 1))]
  else push_data (CBigNum.getvch (CBigNum.setuint64 n)).

Inductive CTxDestination :=
| CNoDestination
| CKeyID (h : list Z)
| CScriptID (h : list Z)
| CStealthAddress (addr : list Z)
| CExtKeyPair (ek : list Z).

(** [CScriptVisitor] and [SetDestination]: the script paying to a destination. *)
Definition script_for_keyid (keyID : list Z) : list Z :=
  push_op OP_DUP ++ push_op OP_HASH160 ++ push_uint160 keyID ++ push_op OP_EQUALVERIFY ++
  push_op OP_CHECKSIG.
Definition script_for_scriptid (scriptID : list Z) : list Z :=
  push_op OP_HASH160 ++ push_uint160 scriptID ++ push_op OP_EQUAL.
Definition SetDestination (dest : CTxDestination) : list Z :=
  match dest with
  | CNoDestination => []
  | CKeyID keyID => script_for_keyid keyID
  | CScriptID scriptID => script_for_scriptid scriptID
  | CStealthAddress _ => []
  | CExtKeyPair _ => []
  end.

Fixpoint push_keys (keys : list PubKey.CPubKey) : option (list Z) :=
  match keys with
  | [] => Some []
  | k :: keys =>
      match push_pubkey k, push_keys keys with
      | Some a, Some b => Some (a ++ b)
      | _, _ => None
      end
  end.

Definition SetMultisig (nRequired : Z) (keys : list PubKey.CPubKey) : option (list Z) :=
  match EncodeOP_N nRequired, push_keys keys, EncodeOP_N (zlen keys) with
  | Some m, Some ks, Some n => Some (push_op m ++ ks ++ push_op n ++ push_op OP_CHECKMULTISIG)
  | _, _, _ => None
  end.

(** [GetScriptForMultisig] pushes the keys as vectors. *)
Definition GetScriptForMultisig (nRequired : Z) (keys : list PubKey.CPubKey) : option (list Z) :=
  match EncodeOP_N nRequired, EncodeOP_N (zlen keys) with
  | Some m, Some n =>
      Some (push_op m ++ flat_map (fun k => push_data (PubKey.bytes k)) keys ++ push_op n ++
            push_op OP_CHECKMULTISIG)
  | _, _ => None
  end.

(** ** Static questions

    Every loop reads instructions until the end or a failure; each read takes a
    byte at least, so the bytes of the script bound the rounds. *)

Fixpoint IsPushOnly_loop (fuel : nat) (s : list Z) : bool :=
  match fuel, s with
  | O, _ | _, [] => true
  | S fuel, _ =>
      let g := GetOp2 s in
      if negb (ok g) then false
      else if code OP_16 <? code (opcode g) then false
      else IsPushOnly_loop fuel (pc g)
  end.
Definition IsPushOnly (s : list Z) : bool := IsPushOnly_loop (List.length s) s.

Fixpoint Find_loop (fuel : nat) (op : opcodetype) (s : list Z) : Z :=
  match fuel, s with
  | O, _ | _, [] => 0
  | S fuel, _ =>
      let g := GetOp2 s in
      if ok g then (if op_eqb (opcode g) op then 1 else 0) + Find_loop fuel op (pc g) else 0
  end.
Definition Find (op : opcodetype) (s : list Z) : Z := Find_loop (List.length s) op s.

(** The inner loop of [FindAndDelete]: copies of [b] erased at the iterator. *)
Fixpoint erase_copies (fuel : nat) (b s : list Z) : Z * list Z :=
  match fuel with
  | O => (0, s)
  | S fuel =>
      if (zlen b <=? zlen s) && Core.eqbytes (firstn (List.length b) s) b then
        let '(n, s) := erase_copies fuel b (skipn (List.length b) s) in (n + 1, s)
      else (0, s)
  end.

Fixpoint FindAndDelete_loop (fuel : nat) (b s : list Z) : Z * list Z :=
  match fuel with
  | O => (0, s)
  | S fuel =>
      let '(n, s) := erase_copies (List.length s) b s in
      let g := GetOp2 s in
      if ok g then
        let '(m, t) := FindAndDelete_loop fuel b (pc g) in
        (n + m, firstn (List.length s - List.length (pc g)) s ++ t)
      else (n, s)
  end.

Definition FindAndDelete (s b : list Z) : Z * list Z :=
  match b with
  | [] => (0, s)
  | _ => FindAndDelete_loop (S (List.length s)) b s
  end.

Definition is_checksig (o : opcodetype) : bool := op_eqb o OP_CHECKSIG || op_eqb o OP_CHECKSIGVERIFY.
Definition is_checkmultisig (o : opcodetype) : bool :=
  op_eqb o OP_CHECKMULTISIG || op_eqb o OP_CHECKMULTISIGVERIFY.

(** [GetSigOpCount(fAccurate)], with the running 32-bit count. *)
Fixpoint SigOp_loop (fuel : nat) (fAccurate : bool) (n : Z) (lastOpcode : opcodetype) (s : list Z) : Z :=
  match fuel, s with
  | O, _ | _, [] => n
  | S fuel, _ =>
      let g := GetOp2 s in
      if negb (ok g) then n
      else
        let n :=
          if is_checksig (opcode g) then u32 (n + 1)
          else if is_checkmultisig (opcode g) then
            if fAccurate && (code OP_1 <=? code lastOpcode) && (code lastOpcode <=? code OP_16)
            then u32 (n + DecodeOP_N lastOpcode) else u32 (n + 20)
          else n in
        SigOp_loop fuel fAccurate n (opcode g) (pc g)
  end.
Definition GetSigOpCount (fAccurate : bool) (s : list Z) : Z :=
  SigOp_loop (List.length s) fAccurate 0 OP_INVALIDOPCODE s.

Definition IsPayToScriptHash (s : list Z) : bool :=
  (zlen s =? 23) && (nth 0 s 0 =? code OP_HASH160) && (nth 1 s 0 =? 20) &&
  (nth 22 s 0 =? code OP_EQUAL).

(** The last item a push-only [scriptSig] pushes; [None] when it is not. *)
Fixpoint last_push (fuel : nat) (data s : list Z) : option (list Z) :=
  match fuel, s with
  | O, _ | _, [] => Some data
  | S fuel, _ =>
      let g := GetOp2 s in
      if negb (ok g) then None
      else if code OP_16 <? code (opcode g) then None
      else last_push fuel (vch g) (pc g)
  end.

(** [GetSigOpCount(scriptSig)] *)
Definition GetSigOpCount_P2SH (s scriptSig : list Z) : Z :=
  if negb (IsPayToScriptHash s) then GetSigOpCount true s
  else match last_push (List.length scriptSig) [] scriptSig with
       | None => 0
       | Some data => GetSigOpCount true data
       end.

(** A push that a shorter opcode could have made. *)
Definition wasteful_push (g : got) : bool :=
  let o := code (opcode g) in
  ((o <? 76) && (0 <? o) && (zlen (vch g) =? 1) && (nth 0 (vch g) 0 <=? 16)) ||
  ((o =? 76) && (zlen (vch g) <? 76)) ||
  ((o =? 77) && (zlen (vch g) <=? 255)) ||
  ((o =? 78) && (zlen (vch g) <=? 65535)).

Fixpoint HasCanonicalPushes_loop (fuel : nat) (s : list Z) : bool :=
  match fuel, s with
  | O, _ | _, [] => true
  | S fuel, _ =>
      let g := GetOp2 s in
      if negb (ok g) then false
      else if code OP_16 <? code (opcode g) then HasCanonicalPushes_loop fuel (pc g)
      else if wasteful_push g then false
      else HasCanonicalPushes_loop fuel (pc g)
  end.
Definition HasCanonicalPushes (s : list Z) : bool := HasCanonicalPushes_loop (List.length s) s.

(** ** Standard forms *)

Inductive txnouttype :=
| TX_NONSTANDARD | TX_PUBKEY | TX_PUBKEYHASH | TX_SCRIPTHASH | TX_MULTISIG | TX_NULL_DATA.

(** [mTemplates], in the order of the multimap. *)
Definition mTemplates : list (txnouttype * list Z) :=
  [ (TX_PUBKEY, map code [OP_PUBKEY; OP_CHECKSIG]);
    (TX_PUBKEYHASH, map code [OP_DUP; OP_HASH160; OP_PUBKEYHASH; OP_EQUALVERIFY; OP_CHECKSIG]);
    (TX_MULTISIG, map code [OP_SMALLINTEGER; OP_PUBKEYS; OP_SMALLINTEGER; OP_CHECKMULTISIG]);
    (TX_NULL_DATA, map code [OP_RETURN]);
    (TX_NULL_DATA, map code [OP_RETURN; OP_SMALLDATA]);
    (TX_NULL_DATA, map code [OP_RETURN; OP_SMALLDATA; OP_RETURN; OP_SMALLDATA]) ].

(** The outcome of matching one template. *)
Inductive match_result := NoMatch | Returns (b : bool) (sols : list (list Z)).

(** The [while] of [OP_PUBKEYS]: keys are collected as long as they come. *)
Fixpoint collect_pubkeys (fuel : nat) (g1 : got) (sols : list (list Z)) : got * list (list Z) :=
  match fuel with
  | O => (g1, sols)
  | S fuel =>
      if (33 <=? zlen (vch g1)) && (zlen (vch g1) <=? 120) then
        let g1' := GetOp2 (pc g1) in
        if ok g1' then collect_pubkeys fuel g1' (sols ++ [vch g1]) else (g1', sols ++ [vch g1])
      else (g1, sols)
  end.

(** The checks after a match. *)
Definition match_end (t : txnouttype) (sols : list (list Z)) : match_result :=
  match t with
  | TX_MULTISIG =>
      let m := nth 0 (hd [] sols) 0 in
      let n := nth 0 (last sols []) 0 in
      if (m <? 1) || (n <? 1) || (n <? m) || negb (zlen sols - 2 =? n)
      then Returns false sols else Returns true sols
  | _ => Returns true sols
  end.

Fixpoint match_template (fuel : nat) (t : txnouttype) (pc1 pc2 : list Z) (sols : list (list Z))
    : match_result :=
  match fuel with
  | O => NoMatch
  | S fuel =>
      match pc1, pc2 with
      | [], [] => match_end t sols
      | _, _ =>
          let g1 := GetOp2 pc1 in
          if negb (ok g1) then NoMatch else
          let g2 := GetOp2 pc2 in
          if negb (ok g2) then NoMatch else
          (* template matching opcodes *)
          let '(go_on, g1, g2, sols) :=
            if op_eqb (opcode g2) OP_PUBKEYS then
              let '(g1, sols) := collect_pubkeys (List.length pc1) g1 sols in
              let g2 := GetOp2 (pc g2) in (ok g2, g1, g2, sols)
            else (true, g1, g2, sols) in
          if negb go_on then NoMatch
          else if op_eqb (opcode g2) OP_PUBKEY then
            if (zlen (vch g1) <? 33) || (120 <? zlen (vch g1)) then NoMatch
            else match_template fuel t (pc g1) (pc g2) (sols ++ [vch g1])
          else if op_eqb (opcode g2) OP_PUBKEYHASH then
            if negb (zlen (vch g1) =? 20) then NoMatch
            else match_template fuel t (pc g1) (pc g2) (sols ++ [vch g1])
          else if op_eqb (opcode g2) OP_SMALLINTEGER then
            if op_eqb (opcode g1) OP_0 ||
               ((code OP_1 <=? code (opcode g1)) && (code (opcode g1) <=? code OP_16))
            then match_template fuel t (pc g1) (pc g2) (sols ++ [[DecodeOP_N (opcode g1)]])
            else NoMatch
          else if op_eqb (opcode g2) OP_SMALLDATA then
            if MAX_OP_RETURN_RELAY <? zlen (vch g1) then NoMatch
            else match_template fuel t (pc g1) (pc g2) sols
          else if negb (op_eqb (opcode g1) (opcode g2)) || negb (Core.eqbytes (vch g1) (vch g2))
          then NoMatch
          else match_template fuel t (pc g1) (pc g2) sols
      end
  end.

Fixpoint scan_templates (ts : list (txnouttype * list Z)) (s : list Z)
    : bool * txnouttype * list (list Z) :=
  match ts with
  | [] => (false, TX_NONSTANDARD, [])
  | (t, tpl) :: ts =>
      match match_template (S (List.length tpl)) t s tpl [] with
      | NoMatch => scan_templates ts s
      | Returns b sols => (b, t, sols)
      end
  end.

(** [Solver(scriptPubKey, typeRet, vSolutionsRet)] *)
Definition Solver (s : list Z) : bool * txnouttype * list (list Z) :=
  if IsPayToScriptHash s then (true, TX_SCRIPTHASH, [firstn 20 (skipn 2 s)])
  else scan_templates mTemplates s.

Definition ScriptSigArgsExpected (t : txnouttype) (vSolutions : list (list Z)) : Z :=
  match t with
  | TX_NONSTANDARD | TX_NULL_DATA => -1
  | TX_PUBKEY => 1
  | TX_PUBKEYHASH => 2
  | TX_MULTISIG =>
      match vSolutions with
      | (m :: _) :: _ => m + 1
      | _ => -1
      end
  | TX_SCRIPTHASH => 1
  end.

Definition IsStandard (s : list Z) : bool * txnouttype :=
  let '(b, whichType, vSolutions) := Solver s in
  if negb b then (false, whichType)
  else
    match whichType with
    | TX_MULTISIG =>
        let m := nth 0 (hd [] vSolutions) 0 in
        let n := nth 0 (last vSolutions []) 0 in
        if (n <? 1) || (3 <? n) then (false, whichType)
        else if (m <? 1) || (n <? m) then (false, whichType)
        else (true, whichType)
    | TX_NONSTANDARD => (false, whichType)
    | _ => (true, whichType)
    end.

Section Destinations.
Context {hs : Hashes}.

Definition ExtractDestination (s : list Z) : option CTxDestination :=
  let '(b, whichType, vSolutions) := Solver s in
  if negb b then None
  else
    match whichType with
    | TX_PUBKEY => Some (CKeyID (PubKey.GetID (PubKey.of_bytes (nth 0 vSolutions []))))
    | TX_PUBKEYHASH => Some (CKeyID (nth 0 vSolutions []))
    | TX_SCRIPTHASH => Some (CScriptID (nth 0 vSolutions []))
    | _ => None
    end.

(** [ExtractDestinations]: the addresses and the number of signatures. *)
Definition ExtractDestinations (s : list Z) : option (txnouttype * list CTxDestination * Z) :=
  let '(b, typeRet, vSolutions) := Solver s in
  if negb b then None
  else
    match typeRet with
    | TX_NULL_DATA => None
    | TX_MULTISIG =>
        Some (typeRet,
              map (fun k => CKeyID (PubKey.GetID (PubKey.of_bytes k))) (removelast (tl vSolutions)),
              nth 0 (hd [] vSolutions) 0)
    | _ =>
        match ExtractDestination s with
        | None => None
        | Some address => Some (typeRet, [address], 1)
        end
    end.
End Destinations.

Example solver_p2pkh :
  Solver (script_for_keyid (repeat 5 20)) = (true, TX_PUBKEYHASH, [repeat 5 20]).
Proof. reflexivity. Qed.
Example solver_multisig :
  option_map Solver (SetMultisig 2 (map PubKey.of_bytes [2 :: repeat 1 32; 3 :: repeat 4 32])) =
  Some (true, TX_MULTISIG, [[2]; 2 :: repeat 1 32; 3 :: repeat 4 32; [2]]).
Proof. vm_compute. reflexivity. Qed.

(** ** Reading instructions *)

Definition suffix_of (r s : list Z) : Prop := exists d, s = d ++ r.

Lemma suffix_skipn r s n : suffix_of r s -> suffix_of (skipn n r) s.
Proof. intros (d & ->). exists (d ++ firstn n r). now rewrite <- app_assoc, firstn_skipn. Qed.

Lemma suffix_length r s : suffix_of r s -> (List.length r <= List.length s)%nat.
Proof. intros (d & ->). rewrite length_app. lia. Qed.

(** The iterator only moves forward, by a byte at least unless it is at the end. *)
Lemma GetOp2_pc b s : suffix_of (pc (GetOp2 (b :: s))) s.
Proof.
  assert (suffix_of s s) as R by now exists [].
  unfold GetOp2. destruct (b <=? 78); [|exact R].
  destruct (b <? 76).
  { cbn [negb]. zcase; [exact R|]. now apply suffix_skipn. }
  destruct (b =? 76).
  { destruct s as [|n s]; [exact R|]. assert (suffix_of s (n :: s)) by now exists [n].
    cbn [negb]. zcase; [easy|]. now apply suffix_skipn. }
  destruct (b =? 77); zcase; cbn [negb]; try exact R; zcase; repeat apply suffix_skipn; exact R.
Qed.

Lemma GetOp2_length s : s <> [] -> (List.length (pc (GetOp2 s)) < List.length s)%nat.
Proof.
  destruct s as [|b s]; [easy|]. intros _. pose proof (suffix_length _ _ (GetOp2_pc b s)). cbn [List.length]. lia.
Qed.

Lemma GetOp2_ok_nonempty s : ok (GetOp2 s) = true -> s <> [].
Proof. now destruct s. Qed.

(** The instructions of a script, up to the first that is cut short. *)
Fixpoint instrs (fuel : nat) (s : list Z) : list got * bool :=
  match fuel, s with
  | O, _ | _, [] => ([], true)
  | S fuel, _ =>
      let g := GetOp2 s in
      if ok g then let '(l, b) := instrs fuel (pc g) in (g :: l, b) else ([], false)
  end.
Definition parse (s : list Z) : list got * bool := instrs (List.length s) s.

(** More fuel than bytes changes nothing: a loop over a script ends with it. *)
Lemma instrs_fuel : forall f1 f2 s, (List.length s <= f1)%nat -> (List.length s <= f2)%nat ->
  instrs f1 s = instrs f2 s.
Proof.
  induction f1 as [|f1 IH]; intros [|f2] s H1 H2; destruct s as [|b s]; try easy; cbn in H1, H2; try lia.
  cbn [instrs]. destruct (ok (GetOp2 (b :: s))); [|easy].
  pose proof (GetOp2_length (b :: s) ltac:(easy)). cbn [List.length] in *.
  now rewrite (IH f2) by lia.
Qed.

Lemma parse_step s : s <> [] ->
  parse s = if ok (GetOp2 s)
            then let '(l, b) := parse (pc (GetOp2 s)) in (GetOp2 s :: l, b) else ([], false).
Proof.
  intros N. unfold parse. pose proof (GetOp2_length s N) as L.
  destruct s as [|c s]; [easy|]. cbn [List.length instrs] in *. destruct (ok _); [|easy].
  rewrite (instrs_fuel (List.length s) (List.length (pc (GetOp2 (c :: s))))) by lia. easy.
Qed.

(** Induction over the instructions of a script. *)
Lemma script_ind (P : list Z -> Prop) :
  P [] -> (forall s, s <> [] -> (ok (GetOp2 s) = true -> P (pc (GetOp2 s))) -> P s) ->
  forall s, P s.
Proof.
  intros P0 PS s. remember (List.length s) as n eqn:E. revert s E.
  induction n as [n IH] using (well_founded_induction Wf_nat.lt_wf). intros s ->.
  destruct s as [|b s]; [exact P0|]. apply PS; [easy|]. intros _.
  apply (IH (List.length (pc (GetOp2 (b :: s))))); [|easy]. now apply GetOp2_length.
Qed.

(** *** The static questions as folds over the instructions *)

Definition is_push (g : got) : bool := code (opcode g) <=? code OP_16.

Lemma IsPushOnly_loop_spec : forall fuel s, (List.length s <= fuel)%nat ->
  IsPushOnly_loop fuel s = (snd (parse s) && forallb is_push (fst (parse s))).
Proof.
  induction fuel as [|fuel IH]; intros s H; [destruct s; [easy|cbn in H; lia]|].
  destruct s as [|b s]; [easy|]. rewrite parse_step by easy. cbn [IsPushOnly_loop].
  pose proof (GetOp2_length (b :: s) ltac:(easy)).
  destruct (ok (GetOp2 (b :: s))) eqn:E; cbn [negb]; [|easy].
  rewrite Z.ltb_antisym, IH by (cbn [List.length] in *; lia). fold (is_push (GetOp2 (b :: s))).
  destruct (parse (pc (GetOp2 (b :: s)))) as [l ok']. cbn [fst snd forallb].
  destruct (is_push (GetOp2 (b :: s))); cbn [negb andb]; [easy|now rewrite andb_false_r].
Qed.

Lemma canonical_loop_spec : forall fuel s, (List.length s <= fuel)%nat ->
  HasCanonicalPushes_loop fuel s =
  (snd (parse s) && forallb (fun g => negb (is_push g && wasteful_push g)) (fst (parse s))).
Proof.
  induction fuel as [|fuel IH]; intros s H; [destruct s; [easy|cbn in H; lia]|].
  destruct s as [|b s]; [easy|]. rewrite parse_step by easy. cbn [HasCanonicalPushes_loop].
  pose proof (GetOp2_length (b :: s) ltac:(easy)).
  destruct (ok (GetOp2 (b :: s))) eqn:E; cbn [negb]; [|easy].
  rewrite Z.ltb_antisym, IH by (cbn [List.length] in *; lia). fold (is_push (GetOp2 (b :: s))).
  destruct (parse (pc (GetOp2 (b :: s)))) as [l ok']. cbn [fst snd forallb].
  destruct (is_push (GetOp2 (b :: s))); cbn [negb andb]; [|easy].
  destruct (wasteful_push (GetOp2 (b :: s))); cbn [negb andb]; [now rewrite andb_false_r|easy].
Qed.

Definition find_count (op : opcodetype) (l : list got) : Z :=
  zlen (filter (fun g => op_eqb (opcode g) op) l).

Lemma Find_loop_spec op : forall fuel s, (List.length s <= fuel)%nat ->
  Find_loop fuel op s = find_count op (fst (parse s)).
Proof.
  induction fuel as [|fuel IH]; intros s H; [destruct s; [easy|cbn in H; lia]|].
  destruct s as [|b s]; [easy|]. rewrite parse_step by easy. cbn [Find_loop].
  pose proof (GetOp2_length (b :: s) ltac:(easy)).
  destruct (ok (GetOp2 (b :: s))) eqn:E; [|easy].
  rewrite IH by (cbn [List.length] in *; lia). destruct (parse (pc (GetOp2 (b :: s)))) as [l ok'].
  cbn [fst find_count]. unfold find_count. cbn [filter]. destruct (op_eqb _ op); [|lia].
  rewrite zlen_cons. lia.
Qed.

(** The signature operations of an instruction after [last]. *)
Definition sigops (fAccurate : bool) (last : opcodetype) (g : got) : Z :=
  if is_checksig (opcode g) then 1
  else if is_checkmultisig (opcode g) then
    if fAccurate && (code OP_1 <=? code last) && (code last <=? code OP_16) then DecodeOP_N last else 20
  else 0.

Fixpoint sigops_sum (fAccurate : bool) (last : opcodetype) (l : list got) : Z :=
  match l with
  | [] => 0
  | g :: l => sigops fAccurate last g + sigops_sum fAccurate (opcode g) l
  end.

Lemma sigops_range f last g : 0 <= sigops f last g <= 20.
Proof.
  unfold sigops. destruct (is_checksig _); [lia|]. destruct (is_checkmultisig _); [|lia].
  destruct (f && _ && _) eqn:E; [|lia]. zbool. unfold DecodeOP_N, op_eqb. cbn [code] in *.
  rewrite (proj2 (Z.eqb_neq _ _)) by lia. lia.
Qed.

Lemma sigops_sum_range f l : forall last, 0 <= sigops_sum f last l <= 20 * zlen l.
Proof.
  induction l as [|g l IH]; intros last; cbn [sigops_sum]; [unfold zlen; cbn [List.length]; lia|].
  pose proof (sigops_range f last g). pose proof (IH (opcode g)). rewrite zlen_cons. lia.
Qed.

Lemma sigops_sum_accurate l : forall last, sigops_sum true last l <= sigops_sum false last l.
Proof.
  induction l as [|g l IH]; intros last; cbn [sigops_sum]; [lia|]. pose proof (IH (opcode g)).
  pose proof (sigops_range true last g). unfold sigops in *.
  destruct (is_checksig _); [lia|]. destruct (is_checkmultisig _); cbn [andb] in *; lia.
Qed.

Lemma parse_length s : zlen (fst (parse s)) <= zlen s.
Proof.
  induction s as [|s N IH] using script_ind; [easy|]. rewrite parse_step by easy.
  destruct (ok (GetOp2 s)); [|pose proof (zlen_nonneg s); easy].
  pose proof (GetOp2_length s N). specialize (IH eq_refl).
  destruct (parse (pc (GetOp2 s))) as [l b]. cbn [fst] in *. rewrite zlen_cons. unfold zlen in *. lia.
Qed.

Lemma SigOp_loop_spec f : forall fuel n last s, (List.length s <= fuel)%nat ->
  0 <= n -> n + sigops_sum f last (fst (parse s)) < 2 ^ 32 ->
  SigOp_loop fuel f n last s = n + sigops_sum f last (fst (parse s)).
Proof.
  induction fuel as [|fuel IH]; intros n last s H H0 Hn.
  { destruct s; [cbn; lia|cbn in H; lia]. }
  destruct s as [|b s]; [cbn; lia|]. rewrite parse_step in * by easy. cbn [SigOp_loop].
  pose proof (GetOp2_length (b :: s) ltac:(easy)).
  destruct (ok (GetOp2 (b :: s))) eqn:E; cbn [negb fst sigops_sum] in *; [|lia].
  destruct (parse (pc (GetOp2 (b :: s)))) as [l b'] eqn:P. cbn [fst sigops_sum] in *.
  pose proof (sigops_range f last (GetOp2 (b :: s))) as SR.
  pose proof (sigops_sum_range f l (opcode (GetOp2 (b :: s)))) as LR.
  match goal with |- SigOp_loop fuel f ?m _ _ = _ =>
    assert (m = n + sigops f last (GetOp2 (b :: s))) as -> end.
  { unfold sigops in *. destruct (is_checksig _); [apply wrapu_id; unfold in_u; lia|].
    destruct (is_checkmultisig _); [|lia].
    destruct (f && _ && _); apply wrapu_id; unfold in_u; lia. }
  rewrite IH by (rewrite ?P; cbn [fst List.length] in *; lia). rewrite P. cbn [fst]. lia.
Qed.

(** The loops of the script class are folds over its instructions, whatever follows the first
    instruction that is cut short: [IsPushOnly] and [HasCanonicalPushes] hold when the script
    parses to the end and every push is one (and not wasteful); [Find] counts; and, for scripts
    below 200 megabytes, [GetSigOpCount] is the exact sum over the instructions (no overflow),
    the accurate count at most the legacy one, and both at most 20 for each byte. *)
Theorem script_questions_are_folds s op : zlen s < 200000000 ->
  IsPushOnly s = (snd (parse s) && forallb is_push (fst (parse s))) /\
  HasCanonicalPushes s =
    (snd (parse s) && forallb (fun g => negb (is_push g && wasteful_push g)) (fst (parse s))) /\
  Find op s = find_count op (fst (parse s)) /\
  (forall f, GetSigOpCount f s = sigops_sum f OP_INVALIDOPCODE (fst (parse s)) /\
             0 <= GetSigOpCount f s <= 20 * zlen s) /\
  GetSigOpCount true s <= GetSigOpCount false s.
Proof.
  intros Hl.
  assert (forall f, GetSigOpCount f s = sigops_sum f OP_INVALIDOPCODE (fst (parse s)) /\
             0 <= GetSigOpCount f s <= 20 * zlen s) as G.
  { intros f. pose proof (sigops_sum_range f (fst (parse s)) OP_INVALIDOPCODE).
    pose proof (parse_length s). unfold GetSigOpCount. rewrite SigOp_loop_spec by lia. lia. }
  splits; auto.
  - now apply IsPushOnly_loop_spec.
  - now apply canonical_loop_spec.
  - now apply Find_loop_spec.
  - destruct (G true) as [-> _], (G false) as [-> _]. apply sigops_sum_accurate.
Qed.

Lemma script_questions_are_folds_witness :
  let s := [82; 1; 7; 81; 174; 172; 76] in
  IsPushOnly s = (snd (parse s) && forallb is_push (fst (parse s))) /\
  HasCanonicalPushes s =
    (snd (parse s) && forallb (fun g => negb (is_push g && wasteful_push g)) (fst (parse s))) /\
  Find OP_1 s = find_count OP_1 (fst (parse s)) /\
  (forall f, GetSigOpCount f s = sigops_sum f OP_INVALIDOPCODE (fst (parse s)) /\
             0 <= GetSigOpCount f s <= 20 * zlen s) /\
  GetSigOpCount true s <= GetSigOpCount false s.
Proof. apply (script_questions_are_folds [82; 1; 7; 81; 174; 172; 76] OP_1). reflexivity. Defined.

(** ** Pushes *)

Lemma byte_cases (P : Z -> bool) :
  forallb P (map Z.of_nat (seq 0 256)) = true -> forall b, byte_ok b -> P b = true.
Proof.
  intros H b [Hb0 Hb1]. rewrite forallb_forall in H. apply H.
  rewrite in_map_iff. exists (Z.to_nat b). rewrite in_seq. change (2 ^ 8) with 256 in Hb1. lia.
Qed.

Lemma code_opcode_of b : byte_ok b -> code (opcode_of b) = b.
Proof.
  intros H. apply Z.eqb_eq. revert b H. apply byte_cases. vm_compute. reflexivity.
Qed.

Lemma GetOp2_byte c rest : 78 < c -> GetOp2 (c :: rest) = mkGot true (opcode_of c) [] rest.
Proof. intros H. unfold GetOp2. now rewrite (proj2 (Z.leb_gt c 78)) by lia. Qed.

(** A push read back, with its operand of [n] bytes after [head]. *)
Lemma take_push o b rest : zlen b + zlen rest < 2 ^ 32 ->
  (if u32 (zlen (b ++ rest)) <? zlen b then got_fail (b ++ rest)
   else mkGot true o (firstn (Z.to_nat (zlen b)) (b ++ rest)) (skipn (Z.to_nat (zlen b)) (b ++ rest)))
  = mkGot true o b rest.
Proof.
  intros H. pose proof (zlen_nonneg b). pose proof (zlen_nonneg rest).
  rewrite zlen_app, wrapu_id by (unfold in_u; lia). rewrite (proj2 (Z.ltb_ge _ _)) by lia.
  now rewrite firstn_app_exact, skipn_app_exact.
Qed.

Lemma GetOp2_direct b rest : zlen b < 76 -> zlen b + zlen rest < 2 ^ 32 ->
  GetOp2 (u8 (zlen b) :: b ++ rest) = mkGot true (opcode_of (zlen b)) b rest.
Proof.
  intros H H2. pose proof (zlen_nonneg b). rewrite wrapu_id by (unfold in_u; lia).
  unfold GetOp2. rewrite (proj2 (Z.leb_le (zlen b) 78)), (proj2 (Z.ltb_lt (zlen b) 76)) by lia.
  cbn [negb]. now apply take_push.
Qed.

Lemma firstn_le_app n z l : firstn n (le_bytes n z ++ l) = le_bytes n z.
Proof.
  pose proof (firstn_app_exact (le_bytes n z) l) as E. rewrite zlen_le_bytes, Nat2Z.id in E. exact E.
Qed.
Lemma skipn_le_app n z l : skipn n (le_bytes n z ++ l) = l.
Proof.
  pose proof (skipn_app_exact (le_bytes n z) l) as E. rewrite zlen_le_bytes, Nat2Z.id in E. exact E.
Qed.

(** The opcode [push_data] chooses. *)
Definition push_code (b : list Z) : Z :=
  if zlen b <? 76 then zlen b else if zlen b <=? 255 then 76 else if zlen b <=? 65535 then 77 else 78.

Lemma GetOp2_push b rest : zlen b + zlen rest < 2 ^ 32 ->
  GetOp2 (push_data b ++ rest) = mkGot true (opcode_of (push_code b)) b rest.
Proof.
  intros H. pose proof (zlen_nonneg b). pose proof (zlen_nonneg rest).
  unfold push_data, push_code. rewrite <- app_assoc.
  destruct (zlen b <? 76) eqn:E1; zbool; [exact (GetOp2_direct b rest E1 H)|].
  destruct (zlen b <=? 255) eqn:E2; zbool.
  { rewrite wrapu_id by (unfold in_u; lia). cbn [app]. unfold GetOp2. cbn [Z.leb Z.ltb Z.compare Z.eqb].
    cbn -[take_push]. now apply take_push. }
  destruct (zlen b <=? 65535) eqn:E3; zbool.
  - cbn [app]. unfold GetOp2.
    change (77 <=? 78) with true. change (77 <? 76) with false. change (77 =? 76) with false.
    change (77 =? 77) with true. cbn iota.
    rewrite zlen_app, zlen_le_bytes, (proj2 (Z.ltb_ge _ 2)) by (rewrite zlen_app; lia).
    rewrite firstn_le_app, skipn_le_app, le_val_bytes, Z.mod_small by (cbn; lia).
    cbn [negb]. now apply take_push.
  - cbn [app]. unfold GetOp2.
    change (78 <=? 78) with true. change (78 <? 76) with false. change (78 =? 76) with false.
    change (78 =? 77) with false. cbn iota.
    rewrite zlen_app, zlen_le_bytes, (proj2 (Z.ltb_ge _ 4)) by (rewrite zlen_app; lia).
    rewrite firstn_le_app, skipn_le_app, le_val_bytes, Z.mod_small by (cbn; lia).
    cbn [negb]. now apply take_push.
Qed.

Definition push_got (b : list Z) (rest : list Z) : got := mkGot true (opcode_of (push_code b)) b rest.

Lemma push_data_nonempty b rest : push_data b ++ rest <> [].
Proof. unfold push_data. repeat zcase; discriminate. Qed.

Lemma parse_pushes items : zlen (flat_map push_data items) < 2 ^ 32 ->
  exists l, parse (flat_map push_data items) = (l, true) /\ map vch l = items /\
    map (fun g => code (opcode g)) l = map push_code items.
Proof.
  induction items as [|b items IH]; intros H; cbn [flat_map] in *.
  - exists []. now splits.
  - rewrite zlen_app in H. pose proof (zlen_nonneg (push_data b)).
    destruct IH as (l & E & V & C); [lia|].
    rewrite parse_step by apply push_data_nonempty.
    assert (zlen b <= zlen (push_data b)).
    { unfold push_data. rewrite zlen_app. pose proof (zlen_nonneg b). repeat zcase;
      autorewrite with lists; lia. }
    rewrite GetOp2_push by lia. cbn [ok pc]. rewrite E. eexists. splits; [reflexivity|..];
      cbn [map Script.vch opcode]; rewrite ?V, ?C; auto.
    f_equal. apply code_opcode_of. pose proof (zlen_nonneg b). unfold push_code, in_u. repeat zcase; lia.
Qed.

(** What is pushed is what is read.  The script that pushes any list of items with
    [operator<<] (below 4 gigabytes) parses to exactly those items in order, is push-only, has no
    signature operations, and its pushes are canonical exactly when no item is a single byte up to
    16, which has an opcode of its own. *)
Theorem pushes_roundtrip items : zlen (flat_map push_data items) < 200000000 ->
  let s := flat_map push_data items in
  snd (parse s) = true /\ map vch (fst (parse s)) = items /\
  IsPushOnly s = true /\ (forall f, GetSigOpCount f s = 0) /\
  HasCanonicalPushes s =
    forallb (fun b => negb ((zlen b =? 1) && (nth 0 b 0 <=? 16))) items.
Proof.
  intros H s. destruct (parse_pushes items ltac:(lia)) as (l & E & V & C).
  assert (Forall (fun c => 0 <= c <= 78) (map push_code items)) as R.
  { apply Forall_map, Forall_forall. intros b _. pose proof (zlen_nonneg b).
    unfold push_code. repeat zcase; lia. }
  rewrite <- C in R. rewrite Forall_map in R.
  assert (forallb is_push l = true) as PL.
  { apply forallb_forall. intros g Hg. rewrite Forall_forall in R. apply Z.leb_le. cbn [code].
    specialize (R g Hg). cbn in R. lia. }
  subst s. rewrite E. cbn [fst snd]. splits; auto.
  - unfold IsPushOnly. rewrite IsPushOnly_loop_spec, E by lia. exact PL.
  - intros f. unfold GetSigOpCount. rewrite SigOp_loop_spec; rewrite ?E; cbn [fst]; try lia.
    all: assert (forall lst, sigops_sum f lst l = 0) as S0; [|rewrite S0; lia].
    all: clear -R; induction R as [|g l Hg Hl IH]; intros lst; [easy|]; cbn [sigops_sum];
      rewrite IH; unfold sigops, is_checksig, is_checkmultisig, op_eqb; cbn [code];
      rewrite !(proj2 (Z.eqb_neq _ _)) by lia; easy.
  - unfold HasCanonicalPushes. rewrite canonical_loop_spec, E by lia. cbn [fst snd andb].
    clear -C V PL. revert l C V PL. induction items as [|b items IH]; intros [|g l] C V PL; try discriminate;
      [easy|]. cbn [forallb map] in *. injection C as C1 C. injection V as V1 V.
    apply andb_true_iff in PL as [P1 PL]. rewrite P1, (IH l) by easy. f_equal. cbn [andb].
    unfold wasteful_push. rewrite C1, V1. f_equal. unfold push_code.
    pose proof (zlen_nonneg b).
    destruct (zlen b <? 76) eqn:E1; [|destruct (zlen b <=? 255) eqn:E2;
      [|destruct (zlen b <=? 65535) eqn:E3]]; zbool.
    + rewrite (proj2 (Z.ltb_lt (zlen b) 76)) by lia.
      rewrite (proj2 (Z.eqb_neq (zlen b) 76)), (proj2 (Z.eqb_neq (zlen b) 77)),
        (proj2 (Z.eqb_neq (zlen b) 78)) by lia. cbn [andb]. rewrite !orb_false_r.
      destruct (Z.eqb_spec (zlen b) 1) as [-> |]; [reflexivity|]. now rewrite !andb_false_r.
    + now rewrite (proj2 (Z.eqb_neq (zlen b) 1)) by lia.
    + now rewrite (proj2 (Z.eqb_neq (zlen b) 1)) by lia.
    + now rewrite (proj2 (Z.eqb_neq (zlen b) 1)) by lia.
Qed.

Lemma pushes_roundtrip_witness :
  let s := flat_map push_data [[]; [5]; repeat 7 76; repeat 9 300] in
  snd (parse s) = true /\ map vch (fst (parse s)) = [[]; [5]; repeat 7 76; repeat 9 300] /\
  IsPushOnly s = true /\ (forall f, GetSigOpCount f s = 0) /\
  HasCanonicalPushes s =
    forallb (fun b => negb ((zlen b =? 1) && (nth 0 b 0 <=? 16))) [[]; [5]; repeat 7 76; repeat 9 300].
Proof. apply (pushes_roundtrip [[]; [5]; repeat 7 76; repeat 9 300]). reflexivity. Defined.

(** ** Standard forms *)

Lemma op_eqb_code c o : byte_ok c -> op_eqb (opcode_of c) o = (c =? code o).
Proof. intros H. unfold op_eqb. now rewrite code_opcode_of. Qed.

Lemma P2SH_script h : zlen h = 20 -> Solver (script_for_scriptid h) = (true, TX_SCRIPTHASH, [h]).
Proof.
  intros H. unfold zlen in H.
  do 20 (destruct h as [|? h]; [cbn in H; lia|]). destruct h; [reflexivity|cbn in H; lia].
Qed.

Lemma P2PKH_script h : zlen h = 20 -> Solver (script_for_keyid h) = (true, TX_PUBKEYHASH, [h]).
Proof.
  intros H. unfold zlen in H.
  do 20 (destruct h as [|? h]; [cbn in H; lia|]). destruct h; [reflexivity|cbn in H; lia].
Qed.

(** A script is taken for a script hash exactly when it is the one [SetDestination]
    makes of some hash. *)
Lemma P2SH_exact s : bytes_ok s -> IsPayToScriptHash s = true ->
  s = script_for_scriptid (firstn 20 (skipn 2 s)).
Proof.
  unfold IsPayToScriptHash. intros B H. zbool. unfold zlen in *.
  do 23 (destruct s as [|? s]; [cbn in *; lia|]). destruct s; [|cbn in *; lia].
  cbn [nth code] in *. subst. reflexivity.
Qed.

(** The keys of a multisig script as the template matcher meets them. *)
Lemma collect_keys : forall ks fuel k n rest sols,
  (List.length ks < fuel)%nat -> 78 < n ->
  Forall (fun k => 33 <= zlen k < 76) (k :: ks) ->
  zlen (flat_map (fun k => u8 (zlen k) :: k) ks ++ n :: rest) < 2 ^ 32 ->
  collect_pubkeys fuel
    (mkGot true (opcode_of (zlen k)) k (flat_map (fun k => u8 (zlen k) :: k) ks ++ n :: rest)) sols =
  (mkGot true (opcode_of n) [] rest, sols ++ k :: ks).
Proof.
  induction ks as [|k' ks IH]; intros [|fuel] k n rest sols Hf Hn HF HL; cbn in Hf; try lia;
    inversion HF as [|? ? Hk HF']; subst; cbn [collect_pubkeys vch pc];
    rewrite (proj2 (Z.leb_le 33 (zlen k))), (proj2 (Z.leb_le (zlen k) 120)) by lia; cbn [andb].
  - cbn [flat_map app]. rewrite GetOp2_byte by easy. cbn [ok]. destruct fuel; reflexivity.
  - cbn [flat_map]. rewrite <- app_assoc. cbn [app].
    cbn [flat_map] in HL. rewrite <- app_assoc, zlen_app, zlen_cons in HL.
    inversion HF' as [|? ? Hk' HF'']; subst.
    assert (zlen (flat_map (fun k => u8 (zlen k) :: k) ks ++ n :: rest) < 2 ^ 32)
      by (pose proof (zlen_nonneg k'); lia).
    rewrite GetOp2_direct by lia. cbn [ok]. rewrite IH by (auto; lia). now rewrite <- app_assoc.
Qed.

Lemma push_keys_raw keys : Forall (fun k => 33 <= PubKey.size k < 76 /\
    zlen (PubKey.bytes k) = PubKey.size k) keys ->
  push_keys keys = Some (flat_map (fun k => u8 (zlen k) :: k) (map PubKey.bytes keys)).
Proof.
  induction 1 as [|k keys [Hk Hs] _ IH]; [easy|]. cbn [push_keys]. unfold push_pubkey.
  rewrite (proj2 (Z.ltb_lt _ _)), IH by lia. cbn [negb map flat_map]. now rewrite Hs.
Qed.

Lemma small_int_op n : 1 <= n <= 16 -> EncodeOP_N n = Some (opcode_of (80 + n)) /\
  code (opcode_of (80 + n)) = 80 + n.
Proof.
  intros H. split; [|apply code_opcode_of; unfold in_u; lia]. unfold EncodeOP_N.
  rewrite (proj2 (Z.leb_le 0 n)), (proj2 (Z.leb_le n 16)), (proj2 (Z.eqb_neq n 0)) by lia.
  cbn [andb negb]. do 2 f_equal. lia.
Qed.

(** No template before the multisig one matches a script that starts with a small integer. *)
Lemma no_early_match n rest : 1 <= n <= 16 ->
  match_template 3 TX_PUBKEY ((80 + n) :: rest) (map code [OP_PUBKEY; OP_CHECKSIG]) [] = NoMatch /\
  match_template 6 TX_PUBKEYHASH ((80 + n) :: rest)
    (map code [OP_DUP; OP_HASH160; OP_PUBKEYHASH; OP_EQUALVERIFY; OP_CHECKSIG]) [] = NoMatch.
Proof.
  intros H. assert (exists m, (m < 16)%nat /\ n = 1 + Z.of_nat m) as (m & Hm & ->)
    by (exists (Z.to_nat (n - 1)); lia).
  do 16 (destruct m as [|m]; [split; reflexivity|]). lia.
Qed.

(** One round of the matcher on a template that goes on with the byte [c2]. *)
Definition match_step (fuel : nat) (t : txnouttype) (pc1 : list Z) (g1 g2 : got)
    (sols : list (list Z)) : match_result :=
  let '(go_on, g1, g2, sols) :=
    if op_eqb (opcode g2) OP_PUBKEYS then
      let '(g1, sols) := collect_pubkeys (List.length pc1) g1 sols in
      let g2 := GetOp2 (pc g2) in (ok g2, g1, g2, sols)
    else (true, g1, g2, sols) in
  if negb go_on then NoMatch
  else if op_eqb (opcode g2) OP_PUBKEY then
    if (zlen (vch g1) <? 33) || (120 <? zlen (vch g1)) then NoMatch
    else match_template fuel t (pc g1) (pc g2) (sols ++ [vch g1])
  else if op_eqb (opcode g2) OP_PUBKEYHASH then
    if negb (zlen (vch g1) =? 20) then NoMatch
    else match_template fuel t (pc g1) (pc g2) (sols ++ [vch g1])
  else if op_eqb (opcode g2) OP_SMALLINTEGER then
    if op_eqb (opcode g1) OP_0 ||
       ((code OP_1 <=? code (opcode g1)) && (code (opcode g1) <=? code OP_16))
    then match_template fuel t (pc g1) (pc g2) (sols ++ [[DecodeOP_N (opcode g1)]])
    else NoMatch
  else if op_eqb (opcode g2) OP_SMALLDATA then
    if MAX_OP_RETURN_RELAY <? zlen (vch g1) then NoMatch
    else match_template fuel t (pc g1) (pc g2) sols
  else if negb (op_eqb (opcode g1) (opcode g2)) || negb (Core.eqbytes (vch g1) (vch g2))
  then NoMatch
  else match_template fuel t (pc g1) (pc g2) sols.

Lemma match_round fuel t pc1 c2 tpl sols g1 : 78 < c2 -> GetOp2 pc1 = g1 -> ok g1 = true ->
  match_template (S fuel) t pc1 (c2 :: tpl) sols =
  match_step fuel t pc1 g1 (mkGot true (opcode_of c2) [] tpl) sols.
Proof.
  intros H <- E. cbn [match_template]. rewrite GetOp2_byte by easy. rewrite E.
  destruct pc1; reflexivity.
Qed.

Lemma small_test o : 81 <= code o <= 96 ->
  op_eqb o OP_0 || ((code OP_1 <=? code o) && (code o <=? code OP_16)) = true /\
  DecodeOP_N o = code o - 80.
Proof.
  intros H. unfold DecodeOP_N, op_eqb. cbn [code]. rewrite (proj2 (Z.eqb_neq (code o) 0)) by lia.
  rewrite (proj2 (Z.leb_le 81 _)), (proj2 (Z.leb_le _ 96)) by lia. easy.
Qed.

Lemma match_smallint fuel t o rest tpl sols : 81 <= code o <= 96 -> forall pc1,
  match_step fuel t pc1 (mkGot true o [] rest) (mkGot true (opcode_of 250) [] tpl) sols =
  match_template fuel t rest tpl (sols ++ [[code o - 80]]).
Proof.
  intros H pc1. destruct (small_test o H) as [T D]. unfold match_step. cbn [opcode vch pc ok].
  change (op_eqb (opcode_of 250) OP_PUBKEYS) with false. cbn iota beta.
  cbn [opcode vch pc ok negb].
  change (op_eqb (opcode_of 250) OP_PUBKEY) with false.
  change (op_eqb (opcode_of 250) OP_PUBKEYHASH) with false.
  change (op_eqb (opcode_of 250) OP_SMALLINTEGER) with true. cbn [negb].
  now rewrite T, D.
Qed.

Definition multisig_script (m : Z) (ks : list (list Z)) : list Z :=
  (80 + m) :: flat_map (fun k => u8 (zlen k) :: k) ks ++ [80 + zlen ks; 174].

Lemma match_multisig m ks : 1 <= m <= zlen ks -> zlen ks <= 16 ->
  Forall (fun k => 33 <= zlen k < 76) ks ->
  match_template 5 TX_MULTISIG (multisig_script m ks)
    (map code [OP_SMALLINTEGER; OP_PUBKEYS; OP_SMALLINTEGER; OP_CHECKMULTISIG]) [] =
  Returns true ([m] :: ks ++ [[zlen ks]]).
Proof.
  intros Hm Hn HF. unfold multisig_script. cbn [map code].
  assert (zlen (flat_map (fun k => u8 (zlen k) :: k) ks ++ [80 + zlen ks; 174]) < 2 ^ 32) as HL.
  { assert (zlen (flat_map (fun k => u8 (zlen k) :: k) ks) <= 76 * zlen ks) as L.
    { clear -HF. induction HF as [|k ks Hk _ IH]; [easy|]. cbn [flat_map].
      rewrite zlen_app, !zlen_cons. lia. }
    rewrite zlen_app, !zlen_cons, zlen_nil. lia. }
  destruct (small_int_op m ltac:(lia)) as [_ Cm]. destruct (small_int_op (zlen ks) ltac:(lia)) as [_ Cn].
  erewrite match_round; [|lia|apply GetOp2_byte; lia|reflexivity].
  rewrite match_smallint by (rewrite Cm; lia). rewrite Cm.
  destruct ks as [|k ks]; [unfold zlen in Hm; cbn in Hm; lia|].
  set (n := 80 + zlen (k :: ks)) in *. cbn [flat_map app] in *. rewrite <- app_assoc in HL |- *.
  inversion HF as [|? ? Hk HF']; subst. rewrite zlen_cons, zlen_app in HL.
  rewrite (match_round _ _ _ _ _ _ (mkGot true (opcode_of (zlen k)) k
    (flat_map (fun k => u8 (zlen k) :: k) ks ++ [n; 174])));
    [|lia|apply GetOp2_direct; lia|reflexivity].
  unfold match_step at 1. cbn [opcode pc vch ok].
  change (op_eqb (opcode_of 251) OP_PUBKEYS) with true. cbn iota.
  rewrite collect_keys; [|cbn [List.length]; rewrite !length_app; 
     assert (List.length ks <= List.length (flat_map (fun k => u8 (zlen k) :: k) ks))%nat
       by (clear; induction ks; cbn [flat_map List.length]; rewrite ?length_app; cbn; lia); lia
    |unfold n; lia|exact HF|lia].
  rewrite GetOp2_byte by lia. cbn [ok opcode pc vch negb].
  change (op_eqb (opcode_of 250) OP_PUBKEY) with false.
  change (op_eqb (opcode_of 250) OP_PUBKEYHASH) with false.
  change (op_eqb (opcode_of 250) OP_SMALLINTEGER) with true. cbn iota.
  destruct (small_test (opcode_of n)) as [-> ->]; [lia|]. rewrite Cn.
  erewrite match_round; [|lia|apply GetOp2_byte; lia|reflexivity].
  cbn [match_step]. unfold match_step. cbn [opcode pc vch ok]. cbn -[Z.add Z.sub zlen match_end].
  unfold match_end.
  replace (80 + m - 80) with m by lia. replace (n - 80) with (zlen (k :: ks)) by (unfold n; lia).
  assert (forall l, last ([m] :: k :: ks ++ [l]) [] = l) as Last
    by (intros l; exact (last_last ([m] :: k :: ks) l [])).
  rewrite Last. cbn [hd nth].
  rewrite !zlen_cons, zlen_app, !zlen_cons, zlen_nil in *. pose proof (zlen_nonneg ks).
  rewrite (proj2 (Z.ltb_ge m 1)), (proj2 (Z.ltb_ge (1 + zlen ks) 1)),
    (proj2 (Z.ltb_ge (1 + zlen ks) m)) by lia.
  replace (1 + (1 + (zlen ks + (1 + 0))) - 2) with (1 + zlen ks) by lia.
  rewrite Z.eqb_refl. reflexivity.
Qed.

(** A public key that can be in a script: its bytes are a full encoding. *)
Definition script_key (p : PubKey.CPubKey) : Prop :=
  exists d, PubKey.enc_ok d /\ p = PubKey.of_bytes d.

Lemma script_key_bytes p : script_key p ->
  (33 <= PubKey.size p < 76 /\ zlen (PubKey.bytes p) = PubKey.size p) /\
  PubKey.of_bytes (PubKey.bytes p) = p.
Proof.
  intros (d & H & ->). unfold PubKey.of_bytes. rewrite PubKey.size_Set, !PubKey.bytes_Set by easy.
  pose proof (PubKey.enc_ok_length d H). splits; auto; lia.
Qed.

Section StandardForms.
Context {hs : Hashes}.

(** The solver is a left inverse of the script constructors.  [ExtractDestination] gives back
    the key hash or script hash [SetDestination] paid to; and for every 1 <= m <= n <= 16 and n
    full keys, [SetMultisig] builds a script the solver takes apart into m, the keys in order and
    n, whose destinations are the ids of those keys with m required signatures, and which is
    standard exactly when n is at most 3. *)
Theorem standard_forms_roundtrip h m keys : zlen h = 20 ->
  1 <= m <= zlen keys -> zlen keys <= 16 -> Forall script_key keys ->
  ExtractDestination (SetDestination (CKeyID h)) = Some (CKeyID h) /\
  ExtractDestination (SetDestination (CScriptID h)) = Some (CScriptID h) /\
  exists s, SetMultisig m keys = Some s /\
    Solver s = (true, TX_MULTISIG, [m] :: map PubKey.bytes keys ++ [[zlen keys]]) /\
    ExtractDestinations s =
      Some (TX_MULTISIG, map (fun k => CKeyID (PubKey.GetID k)) keys, m) /\
    IsStandard s = (zlen keys <=? 3, TX_MULTISIG).
Proof.
  intros Hh Hm Hn Hk. unfold ExtractDestination at 1 2. cbn [SetDestination].
  rewrite P2PKH_script, P2SH_script by easy. splits; [reflexivity..|].
  assert (Forall (fun k => 33 <= PubKey.size k < 76 /\ zlen (PubKey.bytes k) = PubKey.size k) keys)
    as Hr by (eapply Forall_impl; [|exact Hk]; intros p Hp; now apply script_key_bytes).
  assert (zlen (map PubKey.bytes keys) = zlen keys) as Lk by (unfold zlen; now rewrite length_map).
  assert (SetMultisig m keys = Some (multisig_script m (map PubKey.bytes keys))) as Es.
  { unfold SetMultisig, multisig_script, push_op.
    destruct (small_int_op m ltac:(lia)) as [-> Cm].
    destruct (small_int_op (zlen keys) ltac:(lia)) as [-> Cn].
    rewrite push_keys_raw by easy. rewrite Cm, Cn, Lk. cbn [app]. reflexivity. }
  assert (Solver (multisig_script m (map PubKey.bytes keys)) =
          (true, TX_MULTISIG, [m] :: map PubKey.bytes keys ++ [[zlen keys]])) as Sv.
  { unfold Solver, IsPayToScriptHash. unfold multisig_script at 1 2 3 4. cbn [nth].
    rewrite (proj2 (Z.eqb_neq (80 + m) (code OP_HASH160))) by (cbn [code]; lia). rewrite andb_false_r. cbn [andb].
    unfold mTemplates. cbn [scan_templates]. 
    destruct (no_early_match m (flat_map (fun k => u8 (zlen k) :: k) (map PubKey.bytes keys) ++
                [80 + zlen (map PubKey.bytes keys); 174]) ltac:(lia)) as [E1 E2].
    change (S (List.length (map code [OP_PUBKEY; OP_CHECKSIG]))) with 3%nat.
    change (S (List.length (map code [OP_DUP; OP_HASH160; OP_PUBKEYHASH; OP_EQUALVERIFY; OP_CHECKSIG])))
      with 6%nat.
    change (S (List.length (map code [OP_SMALLINTEGER; OP_PUBKEYS; OP_SMALLINTEGER; OP_CHECKMULTISIG])))
      with 5%nat.
    unfold multisig_script at 1 2. rewrite E1, E2.
    rewrite match_multisig; rewrite ?Lk; auto.
    apply Forall_map. eapply Forall_impl; [|exact Hr]. cbn. intros p [Hp ->]. exact Hp. }
  exists (multisig_script m (map PubKey.bytes keys)). split; [exact Es|]. split; [exact Sv|].
  unfold ExtractDestinations, IsStandard. rewrite Sv. cbn [negb hd nth tl]. split.
  - rewrite removelast_last, map_map. do 3 f_equal. apply map_ext_in. intros p Hp.
    rewrite Forall_forall in Hk. f_equal. f_equal. now apply script_key_bytes, Hk.
  - rewrite app_comm_cons, last_last. cbn [nth].
    rewrite (proj2 (Z.ltb_ge m 1)), (proj2 (Z.ltb_ge (zlen keys) 1)), (proj2 (Z.ltb_ge (zlen keys) m))
      by lia. cbn [orb]. rewrite (Z.leb_antisym 3). now destruct (3 <? zlen keys).
Qed.

End StandardForms.

Lemma standard_forms_roundtrip_witness :
  let keys := [PubKey.of_bytes (2 :: repeat 1 32); PubKey.of_bytes (4 :: repeat 4 64)] in
  @ExtractDestination Toy.hashes (SetDestination (CKeyID (repeat 5 20))) = Some (CKeyID (repeat 5 20)) /\
  @ExtractDestination Toy.hashes (SetDestination (CScriptID (repeat 5 20))) =
    Some (CScriptID (repeat 5 20)) /\
  exists s, SetMultisig 2 keys = Some s /\
    Solver s = (true, TX_MULTISIG, [2] :: map PubKey.bytes keys ++ [[zlen keys]]) /\
    @ExtractDestinations Toy.hashes s =
      Some (TX_MULTISIG, map (fun k => CKeyID (@PubKey.GetID Toy.hashes k)) keys, 2) /\
    IsStandard s = (zlen keys <=? 3, TX_MULTISIG).
Proof.
  refine (@standard_forms_roundtrip Toy.hashes (repeat 5 20) 2
    [PubKey.of_bytes (2 :: repeat 1 32); PubKey.of_bytes (4 :: repeat 4 64)] _ _ _ _);
    [reflexivity|easy|easy|].
  repeat constructor; [exists (2 :: repeat 1 32) | exists (4 :: repeat 4 64)]; splits;
    reflexivity || easy.
Defined.

(** ** Compressed scripts *)

Section Compressor.
Context {hs : Hashes} {ec : EC}.

Definition nSpecialScripts : Z := 6.

Definition IsToKeyID (s : list Z) : option (list Z) :=
  if (zlen s =? 25) && (nth 0 s 0 =? code OP_DUP) && (nth 1 s 0 =? code OP_HASH160) &&
     (nth 2 s 0 =? 20) && (nth 23 s 0 =? code OP_EQUALVERIFY) && (nth 24 s 0 =? code OP_CHECKSIG)
  then Some (firstn 20 (skipn 3 s)) else None.

Definition IsToScriptID (s : list Z) : option (list Z) :=
  if (zlen s =? 23) && (nth 0 s 0 =? code OP_HASH160) && (nth 1 s 0 =? 20) &&
     (nth 22 s 0 =? code OP_EQUAL)
  then Some (firstn 20 (skipn 2 s)) else None.

Definition IsToPubKey (s : list Z) : option PubKey.CPubKey :=
  if (zlen s =? 35) && (nth 0 s 0 =? 33) && (nth 34 s 0 =? code OP_CHECKSIG) &&
     ((nth 1 s 0 =? 2) || (nth 1 s 0 =? 3))
  then Some (PubKey.of_bytes (firstn 33 (skipn 1 s)))
  else if (zlen s =? 67) && (nth 0 s 0 =? 65) && (nth 66 s 0 =? code OP_CHECKSIG) &&
          (nth 1 s 0 =? 4)
  then
    let pubkey := PubKey.of_bytes (firstn 65 (skipn 1 s)) in
    if Keys.IsFullyValid pubkey then Some pubkey else None
  else None.

Definition Compress (s : list Z) : option (list Z) :=
  match IsToKeyID s with
  | Some keyID => Some (0 :: keyID)
  | None =>
      match IsToScriptID s with
      | Some scriptID => Some (1 :: scriptID)
      | None =>
          match IsToPubKey s with
          | Some pubkey =>
              let body := firstn 32 (skipn 1 (PubKey.vch pubkey)) in
              let h := nth 0 (PubKey.vch pubkey) 0 in
              if (h =? 2) || (h =? 3) then Some (h :: body)
              else if h =? 4 then Some (Z.lor 4 (Z.land (nth 64 (PubKey.vch pubkey) 0) 1) :: body)
              else None
          | None => None
          end
      end
  end.

Definition GetSpecialSize (nSize : Z) : Z :=
  if (nSize =? 0) || (nSize =? 1) then 20
  else if (nSize =? 2) || (nSize =? 3) || (nSize =? 4) || (nSize =? 5) then 32
  else 0.

(** [Decompress(nSize, in)]: its result and the script it leaves. *)
Definition Decompress (nSize : Z) (inp script : list Z) : bool * list Z :=
  match nSize with
  | 0 => (true, [code OP_DUP; code OP_HASH160; 20] ++ firstn 20 inp ++
                [code OP_EQUALVERIFY; code OP_CHECKSIG])
  | 1 => (true, [code OP_HASH160; 20] ++ firstn 20 inp ++ [code OP_EQUAL])
  | 2 | 3 => (true, [33; nSize] ++ firstn 32 inp ++ [code OP_CHECKSIG])
  | 4 | 5 =>
      let vch := u8 (nSize - 2) :: firstn 32 inp in
      let pubkey := PubKey.of_bytes vch in
      let '(fine, pubkey) := Keys.Decompress pubkey in
      if negb fine then (false, script)
      else (true, 65 :: firstn 65 (PubKey.vch pubkey) ++ [code OP_CHECKSIG])
  | _ => (false, script)
  end.

End Compressor.

Section CompressorProofs.
Context {ec : EC} {el : EC_laws ec}.

(** Cuts a script of known length into its bytes. *)
Lemma split3 (s : list Z) (a b c : nat) : List.length s = (a + b + c)%nat ->
  s = firstn a s ++ firstn b (skipn a s) ++ skipn (a + b) s /\
  List.length (firstn a s) = a /\ List.length (firstn b (skipn a s)) = b /\
  List.length (skipn (a + b) s) = c.
Proof.
  intros H. rewrite !length_firstn, !length_skipn. splits; try lia.
  rewrite Nat.add_comm, <- skipn_skipn, !firstn_skipn. easy.
Qed.

Lemma nth_app_l (a b : list Z) i : (i < List.length a)%nat -> nth i (a ++ b) 0 = nth i a 0.
Proof. apply app_nth1. Qed.

Lemma keyid_form s : IsToKeyID s = Some (firstn 20 (skipn 3 s)) ->
  s = [code OP_DUP; code OP_HASH160; 20] ++ firstn 20 (skipn 3 s) ++
      [code OP_EQUALVERIFY; code OP_CHECKSIG] /\ zlen (firstn 20 (skipn 3 s)) = 20.
Proof.
  unfold IsToKeyID. destruct (_ && _) eqn:E; [|discriminate]. intros _. zbool.
  unfold zlen in *. do 25 (destruct s as [|? s]; [cbn in *; lia|]). destruct s; [|cbn in *; lia].
  cbn [nth] in *. subst. split; reflexivity.
Qed.

Lemma scriptid_form s : IsToScriptID s = Some (firstn 20 (skipn 2 s)) ->
  s = [code OP_HASH160; 20] ++ firstn 20 (skipn 2 s) ++ [code OP_EQUAL] /\
  zlen (firstn 20 (skipn 2 s)) = 20.
Proof.
  unfold IsToScriptID. destruct (_ && _) eqn:E; [|discriminate]. intros _. zbool.
  unfold zlen in *. do 23 (destruct s as [|? s]; [cbn in *; lia|]). destruct s; [|cbn in *; lia].
  cbn [nth] in *. subst. split; reflexivity.
Qed.

(** A pay-to-pubkey script around an encoding of [n] bytes. *)
Lemma pubkey_form s n : zlen s = Z.of_nat n + 2 -> (0 < n)%nat -> nth 0 s 0 = Z.of_nat n ->
  nth (n + 1) s 0 = code OP_CHECKSIG ->
  exists d, s = Z.of_nat n :: d ++ [code OP_CHECKSIG] /\ firstn n (skipn 1 s) = d /\
    List.length d = n /\ nth 1 s 0 = hd 0 d.
Proof.
  intros L Hn H0 H1. destruct s as [|b s]; [unfold zlen in L; cbn in L; lia|].
  cbn [nth] in H0. subst b. rewrite zlen_cons in L. rewrite Nat.add_1_r in H1. cbn [nth] in H1.
  assert (List.length s = (n + 1)%nat) as Ls by (unfold zlen in L; lia).
  exists (firstn n s). cbn [skipn]. rewrite length_firstn. splits; [|reflexivity|lia|].
  - f_equal. rewrite <- (firstn_skipn n s) at 1. f_equal.
    assert (List.length (skipn n s) = 1%nat) as L1 by (rewrite length_skipn; lia).
    rewrite <- (firstn_skipn n s), app_nth2, length_firstn, Nat.min_l, Nat.sub_diag in H1
      by (rewrite ?length_firstn; lia).
    destruct (skipn n s) as [|c [|? ?]]; cbn in L1, H1; try lia. now subst.
  - destruct s; [cbn in Ls; lia|]. destruct n; [lia|]. reflexivity.
Qed.

Lemma compressed_header p : 0 <= p <= 1 -> Z.lor 4 p = 4 + p.
Proof. intros H. assert (p = 0 \/ p = 1) as [-> | ->] by lia; reflexivity. Qed.

Lemma uncompressed_roundtrip d script : List.length d = 65%nat -> hd 0 d = 4 -> bytes_ok d ->
  Keys.IsFullyValid (PubKey.of_bytes d) = true ->
  Decompress (Z.lor 4 (Z.land (nth 64 d 0) 1)) (firstn 32 (tl d)) script =
  (true, 65 :: d ++ [code OP_CHECKSIG]).
Proof.
  intros L H4 B V.
  assert (PubKey.enc_ok d) as E by (unfold PubKey.enc_ok; rewrite H4; unfold zlen; now rewrite L).
  unfold Keys.IsFullyValid, Keys.ECKey_SetPubKey, PubKey.of_bytes in V.
  rewrite PubKey.bytes_Set in V by easy. destruct (PubKey.IsValid _); [|discriminate]. cbn [negb] in V.
  destruct (oct2point d) as [P|] eqn:EP; [|discriminate].
  destruct (oct2point_uncompressed d P H4 B EP) as (F & U & C).
  rewrite land1.
  set (par := nth 64 d 0 mod 2) in *.
  assert (0 <= par <= 1) as R by (pose proof (Z.mod_pos_bound (nth 64 d 0) 2); unfold par; lia).
  rewrite compressed_header by easy.
  assert (u8 (4 + par - 2) = 2 + par) as U8 by (rewrite wrapu_id by (unfold in_u; lia); lia).
  set (x := firstn 32 (tl d)) in *.
  assert (firstn 32 x = x) as Fx by (unfold x; now rewrite firstn_firstn).
  assert (zlen x = 32) as Lx.
  { unfold x, zlen. rewrite length_firstn. destruct d; [easy|]. cbn [List.length tl] in L |- *. lia. }
  assert (Decompress (4 + par) x script =
    (let '(fine, pubkey) := Keys.Decompress (PubKey.of_bytes ((2 + par) :: x)) in
     if negb fine then (false, script)
     else (true, 65 :: firstn 65 (PubKey.vch pubkey) ++ [code OP_CHECKSIG]))) as ->.
  { rewrite <- U8. assert (par = 0 \/ par = 1) as [-> | ->] by lia; unfold Decompress;
      rewrite Fx; reflexivity. }
  assert (PubKey.enc_ok ((2 + par) :: x)) as E2.
  { unfold PubKey.enc_ok. rewrite zlen_cons, Lx. cbn [hd].
    assert (par = 0 \/ par = 1) as [-> | ->] by lia; easy. }
  unfold Keys.Decompress, PubKey.IsValid, PubKey.of_bytes. rewrite PubKey.size_Set by easy.
  rewrite zlen_cons, Lx. change (negb (0 <? 1 + 32)) with false. cbn iota.
  unfold Keys.ECKey_SetPubKey. rewrite PubKey.bytes_Set, <- C, oct2point_point2oct by easy.
  cbn [negb]. unfold Keys.ECKey_GetPubKey. rewrite U, PubKey.Set_valid by easy. cbn [PubKey.vch].
  change 65%nat with (Z.to_nat 65). replace 65 with (zlen d) at 2 by (unfold zlen; now rewrite L).
  now rewrite firstn_app_exact.
Qed.

(** Every script the compressor takes is restored: the compressed form is a tag below 6 and as
    many bytes as [GetSpecialSize] announces for it, and [Decompress] of them gives the script
    back; a pay-to-pubkey script with an uncompressed key is restored from the parity of its key. *)
Theorem compressor_roundtrip s out script : bytes_ok s -> Compress s = Some out ->
  exists tag body, out = tag :: body /\ 0 <= tag < nSpecialScripts /\
    zlen body = GetSpecialSize tag /\ Decompress tag body script = (true, s).
Proof.
  intros B. unfold Compress.
  destruct (IsToKeyID s) as [h|] eqn:E1.
  { assert (h = firstn 20 (skipn 3 s)) as ->
      by (unfold IsToKeyID in E1; destruct (_ && _); congruence).
    destruct (keyid_form s E1) as [F L]. intros EO.
    assert (out = 0 :: firstn 20 (skipn 3 s)) as -> by congruence. do 2 eexists. splits; [reflexivity|easy|easy|exact L|].
    unfold Decompress. rewrite firstn_firstn. cbn [Nat.min]. now rewrite <- F. }
  destruct (IsToScriptID s) as [h|] eqn:E2.
  { assert (h = firstn 20 (skipn 2 s)) as ->
      by (unfold IsToScriptID in E2; destruct (_ && _); congruence).
    destruct (scriptid_form s E2) as [F L]. intros EO.
    assert (out = 1 :: firstn 20 (skipn 2 s)) as -> by congruence. do 2 eexists. splits; [reflexivity|easy|easy|exact L|].
    unfold Decompress. rewrite firstn_firstn. cbn [Nat.min]. now rewrite <- F. }
  unfold IsToPubKey. clear E1 E2.
  destruct ((zlen s =? 35) && _ && _ && _) eqn:E3.
  - zbool. destruct (pubkey_form s 33) as (d & Es & -> & L & Hhd); [lia|lia|easy|easy|].
    rewrite Hhd in *. assert (PubKey.enc_ok d) as En.
    { unfold PubKey.enc_ok, zlen. rewrite L. apply orb_true_iff in H0 as [T | T]; zbool; rewrite T; easy. }
    unfold PubKey.of_bytes. rewrite PubKey.Set_valid by easy. cbn [PubKey.vch].
    destruct d as [|t body]; [easy|]. cbn [hd app nth skipn firstn] in *.
    rewrite H0. intros EO. apply (f_equal (fun o => match o with Some l => l | None => [] end)) in EO.
    cbv beta iota in EO. subst out. injection L as L.
    assert (forall X, firstn 32 (body ++ X) = body) as Fb
        by (intros X; rewrite firstn_app, L, Nat.sub_diag, <- L, firstn_all; apply app_nil_r).
    exists t, body. subst s. apply orb_true_iff in H0 as [T | T]; zbool; subst t;
      (splits; [f_equal; apply Fb|easy|easy|unfold zlen; now rewrite L|]);
      unfold Decompress; rewrite (firstn_all2 body) by lia; reflexivity.
  - clear E3. destruct ((zlen s =? 67) && _ && _ && _) eqn:E4; [|discriminate]. zbool.
    destruct (pubkey_form s 65) as (d & Es & -> & L & Hhd); [lia|lia|easy|easy|].
    rewrite Hhd in *. destruct (Keys.IsFullyValid (PubKey.of_bytes d)) eqn:V; [|discriminate].
    assert (bytes_ok d) as Bd.
    { rewrite Es in B. apply Forall_inv_tail in B. now apply bytes_app in B. }
    assert (PubKey.enc_ok d) as En by (unfold PubKey.enc_ok; rewrite H0; unfold zlen; now rewrite L).
    unfold PubKey.of_bytes in *. rewrite PubKey.Set_valid in * by easy. cbn [PubKey.vch].
    rewrite skipn_all2 by (cbn; lia). rewrite app_nil_r.
    assert (nth 0 d 0 = 4) as -> by (destruct d; [easy|exact H0]). cbn [Z.eqb Pos.eqb orb].
    intros EO.
    assert (out = Z.lor 4 (Z.land (nth 64 d 0) 1) :: firstn 32 (skipn 1 d)) as -> by congruence.
    do 2 eexists. split; [reflexivity|].
    assert (firstn 32 (skipn 1 d) = firstn 32 (tl d)) as -> by now destruct d.
    pose proof (uncompressed_roundtrip d script L H0 Bd) as RT.
    unfold PubKey.of_bytes in RT. rewrite PubKey.Set_valid in RT by easy. specialize (RT V).
    assert (0 <= Z.land (nth 64 d 0) 1 <= 1) as R.
    { rewrite land1. pose proof (Z.mod_pos_bound (nth 64 d 0) 2). lia. }
    rewrite RT, Es. splits; auto.
    + rewrite compressed_header by easy. lia.
    + rewrite compressed_header by easy. unfold nSpecialScripts. lia.
    + rewrite compressed_header by easy. unfold GetSpecialSize. clear RT.
      assert (zlen (firstn 32 (tl d)) = 32) as ->
        by (destruct d; [easy|]; unfold zlen; rewrite length_firstn; cbn [List.length tl] in L |- *; lia).
      assert (Z.land (nth 64 d 0) 1 = 0 \/ Z.land (nth 64 d 0) 1 = 1) as [-> | ->] by lia; reflexivity.
Qed.

End CompressorProofs.

Lemma compressor_roundtrip_witness :
  let s := 65 :: (4 :: repeat 0 31 ++ [9] ++ repeat 0 32) ++ [code OP_CHECKSIG] in
  @Compress Toy.ec s = Some (4 :: repeat 0 31 ++ [9]) /\
  exists tag body, 4 :: repeat 0 31 ++ [9] = tag :: body /\ 0 <= tag < nSpecialScripts /\
    zlen body = GetSpecialSize tag /\ @Decompress Toy.ec tag body [] = (true, s).
Proof.
  split; [vm_compute; reflexivity|].
  refine (@compressor_roundtrip Toy.ec Toy.ec_laws
    (65 :: (4 :: repeat 0 31 ++ [9] ++ repeat 0 32) ++ [code OP_CHECKSIG]) _ [] _ _).
  - now repeat constructor.
  - vm_compute. reflexivity.
Defined.

End Script.
