(* ===== verification/SigCheck.v ===== *)
(** * Signature checking (src/src/script.cpp, src/src/eckey.cpp)

    What a signature of a script has to look like ([IsDERSignature] and the
    checks of [CheckSignatureEncoding]), the hash it signs ([SignatureHash]),
    the cache of valid signatures and [CheckSig]; and the signer,
    [CECKey::Sign], whose low-S normalisation has to meet the same checks.
    OpenSSL's ECDSA is a parameter ([ECDSA]). *)

From Stdlib Require Import ZArith Lia List String Bool Sorted.
From S2P Require Import Prelude Stream BigNum Crypto Key Transaction ChainParams Script.
Import ListNotations.
#[local] Open Scope Z_scope.

(** The part of OpenSSL's ECDSA the code calls: [ECDSA_verify] compared with 1,
    [ECDSA_do_sign] of a hash and a secret, and the DER encoder of a pair. *)
Class ECDSA (ec : EC) := {
  ECDSA_verify : list Z -> list Z -> point -> bool;
  ECDSA_do_sign : list Z -> Z -> option (Z * Z);
  i2d_ECDSA_SIG : Z -> Z -> list Z
}.

Module SigCheck.
Import Script.

Definition SIGHASH_ALL : Z := 1.
Definition SIGHASH_NONE : Z := 2.
Definition SIGHASH_SINGLE : Z := 3.
Definition SIGHASH_ANYONECANPAY : Z := 0x80.

Definition SCRIPT_VERIFY_P2SH : Z := Z.shiftl 1 0.
Definition SCRIPT_VERIFY_NULLDUMMY : Z := Z.shiftl 1 1.
Definition SCRIPT_VERIFY_DISCOURAGE_UPGRADABLE_NOPS : Z := Z.shiftl 1 2.
Definition SCRIPT_VERIFY_STRICTENC : Z := Z.shiftl 1 3.
Definition SCRIPT_VERIFY_NOCACHE : Z := Z.shiftl 1 4.
Definition SCRIPT_VERIFY_ALLOW_EMPTY_SIG : Z := Z.shiftl 1 5.
Definition SCRIPT_VERIFY_FIX_HASHTYPE : Z := Z.shiftl 1 6.
Definition SCRIPT_VERIFY_CHECKLOCKTIMEVERIFY : Z := Z.shiftl 1 7.

Definition MANDATORY_SCRIPT_VERIFY_FLAGS : Z :=
  Z.lor (Z.lor (Z.lor SCRIPT_VERIFY_P2SH SCRIPT_VERIFY_NULLDUMMY) SCRIPT_VERIFY_STRICTENC)
    SCRIPT_VERIFY_CHECKLOCKTIMEVERIFY.
Definition STANDARD_SCRIPT_VERIFY_FLAGS : Z :=
  Z.lor MANDATORY_SCRIPT_VERIFY_FLAGS SCRIPT_VERIFY_DISCOURAGE_UPGRADABLE_NOPS.

(** [flags & f], as a condition. *)
Definition has (flags f : Z) : bool := negb (Z.land flags f =? 0).

(** ** Encodings of keys and signatures *)

(** [vch[i]]: an index out of range is undefined behaviour. *)
Definition at_ (v : list Z) (i : Z) : res Z :=
  match nth_error v (Z.to_nat i) with Some b => Ret b | None => Undef end.

Definition IsCompressedOrUncompressedPubKey (vchPubKey : list Z) : res bool :=
  (if zlen vchPubKey <? 33 then Ret false
   else
     let* b := at_ vchPubKey 0 in
     if b =? 4 then Ret (negb (negb (zlen vchPubKey =? 65)))
     else if (b =? 2) || (b =? 3) then Ret (negb (negb (zlen vchPubKey =? 33)))
     else Ret false)%res.

(** [X[0] & 0x80], and the padding test, of the integer of [n] bytes at [x]. *)
Definition is_negative_at (vchSig : list Z) (x : Z) : res bool :=
  (let* b := at_ vchSig x in Ret (negb (Z.land b 128 =? 0)))%res.
Definition is_padded_at (vchSig : list Z) (x n : Z) : res bool :=
  (if 1 <? n then
     let* b0 := at_ vchSig x in
     if b0 =? 0 then let* b1 := at_ vchSig (x + 1) in Ret (Z.land b1 128 =? 0) else Ret false
   else Ret false)%res.

(** [X[-2] != 0x02], then the length, the sign and the padding of the integer. *)
Definition is_integer_at (vchSig : list Z) (x n : Z) : res bool :=
  (let* tag := at_ vchSig (x - 2) in
   if negb (tag =? 2) then Ret false
   else if n =? 0 then Ret false
   else
     let* neg := is_negative_at vchSig x in
     if neg then Ret false
     else let* pad := is_padded_at vchSig x n in if pad then Ret false else Ret true)%res.

Definition IsDERSignature (vchSig : list Z) (haveHashType : bool) : res bool :=
  (if zlen vchSig <? 9 then Ret false
   else if 73 <? zlen vchSig then Ret false
   else
     let* b0 := at_ vchSig 0 in
     if negb (b0 =? 0x30) then Ret false
     else
       let* b1 := at_ vchSig 1 in
       if negb (b1 =? zlen vchSig - (if haveHashType then 3 else 2)) then Ret false
       else
         let* nLenR := at_ vchSig 3 in
         if zlen vchSig <=? 5 + nLenR then Ret false
         else
           let* nLenS := at_ vchSig (5 + nLenR) in
           if negb (nLenR + nLenS + (if haveHashType then 7 else 6) =? zlen vchSig) then Ret false
           else
             let* r := is_integer_at vchSig 4 nLenR in
             if negb r then Ret false else is_integer_at vchSig (6 + nLenR) nLenS)%res.

Definition IsLowDERSignature (vchSig : list Z) : res bool :=
  (let* der := IsDERSignature vchSig true in
   if negb der then Ret false
   else
     let* nLenR := at_ vchSig 3 in
     let* nLenS := at_ vchSig (5 + nLenR) in
     let S := firstn (Z.to_nat nLenS) (skipn (Z.to_nat (6 + nLenR)) vchSig) in
     if negb (zlen S =? nLenS) then Undef
     else if negb (KeyRange.CheckSignatureElement S true) then Ret false else Ret true)%res.

Definition IsDefinedHashtypeSignature (vchSig : list Z) : bool :=
  match rev vchSig with
  | [] => false
  | b :: _ =>
      let nHashType := u8 (Z.land b (Z.lnot SIGHASH_ANYONECANPAY)) in
      if (nHashType <? SIGHASH_ALL) || (SIGHASH_SINGLE <? nHashType) then false else true
  end.

Definition CheckSignatureEncoding (vchSig : list Z) (flags : Z) : res bool :=
  (if has flags SCRIPT_VERIFY_ALLOW_EMPTY_SIG && (zlen vchSig =? 0) then Ret true
   else
     let* low := IsLowDERSignature vchSig in
     if negb low then Ret false
     else if negb (has flags SCRIPT_VERIFY_FIX_HASHTYPE) && negb (IsDefinedHashtypeSignature vchSig)
     then Ret false
     else Ret true)%res.

Definition CheckPubKeyEncoding (vchSig : list Z) : res bool :=
  (let* b := IsCompressedOrUncompressedPubKey vchSig in if negb b then Ret false else Ret true)%res.

(** ** The hash a signature signs *)

(** The bytes [ss << obj] feeds to a [CHashWriter]: the stream operators are the
    same templates as [CDataStream]'s. *)
Definition serialized {A} `{Wire.Serializable A} (a : A) : list Z :=
  DataStream.vch (snd (Wire.Serialize a (DataStream.Init []))).

Definition uint256_one : list Z := 1 :: repeat 0 31.

(** The inputs and outputs of the copy [txTmp]. *)
Definition blank_scriptSig (i : Core.CTxIn) : Core.CTxIn :=
  Core.mkTxIn (Core.prevout i) [] (Core.nSequence i).
Definition with_scriptSig (s : list Z) (i : Core.CTxIn) : Core.CTxIn :=
  Core.mkTxIn (Core.prevout i) s (Core.nSequence i).
Definition without_sequence (i : Core.CTxIn) : Core.CTxIn :=
  Core.mkTxIn (Core.prevout i) (Core.scriptSig i) 0.

(** [v[i] = f(v[i])] for one index, and for all but one. *)
Fixpoint update_at {A} (f : A -> A) (n : nat) (l : list A) : list A :=
  match l, n with
  | [], _ => []
  | a :: l, O => f a :: l
  | a :: l, S n => a :: update_at f n l
  end.
Fixpoint update_others {A} (f : A -> A) (n : nat) (l : list A) : list A :=
  match l, n with
  | [], _ => []
  | a :: l, O => a :: map f l
  | a :: l, S n => f a :: update_others f n l
  end.

Definition set_vin (t : Core.CTransaction) (v : list Core.CTxIn) : Core.CTransaction :=
  Core.mkTx (Core.nVersion t) (Core.nTime t) v (Core.vout t) (Core.nLockTime t).
Definition set_vout (t : Core.CTransaction) (v : list Core.CTxOut) : Core.CTransaction :=
  Core.mkTx (Core.nVersion t) (Core.nTime t) (Core.vin t) v (Core.nLockTime t).

(** The modified copy, or [None] where the code returns 1 for the missing output
    of [SIGHASH_SINGLE]. *)
Definition sighash_tx (scriptCode : list Z) (txTo : Core.CTransaction) (nIn nHashType : Z)
  : option Core.CTransaction :=
  let i := Z.to_nat nIn in
  let scriptCode := snd (FindAndDelete scriptCode (push_op OP_CODESEPARATOR)) in
  let txTmp :=
    set_vin txTo (update_at (with_scriptSig scriptCode) i (map blank_scriptSig (Core.vin txTo))) in
  let txTmp :=
    if Z.land nHashType 0x1f =? SIGHASH_NONE then
      let txTmp := set_vout txTmp [] in
      Some (set_vin txTmp (update_others without_sequence i (Core.vin txTmp)))
    else if Z.land nHashType 0x1f =? SIGHASH_SINGLE then
      if zlen (Core.vout txTmp) <=? nIn then None
      else
        let vout := firstn (S i) (Core.vout txTmp) in
        let txTmp := set_vout txTmp (repeat Core.TxOut_SetNull i ++ skipn i vout) in
        Some (set_vin txTmp (update_others without_sequence i (Core.vin txTmp)))
    else Some txTmp in
  match txTmp with
  | None => None
  | Some txTmp =>
      if has nHashType SIGHASH_ANYONECANPAY
      then Some (set_vin txTmp (firstn 1 (skipn i (Core.vin txTmp))))
      else Some txTmp
  end.

Section Hashed.
Context {h : Hashes} (params : ChainParams.CChainParams).

(** What is written to the hasher. *)
Definition sighash_bytes (txTmp : Core.CTransaction) (nHashType nTime : Z) : list Z :=
  let forkId := ChainParams.GetForkId params nTime in
  @serialized _ Core.Serializable_CTransaction txTmp ++ le_bytes 4 (u32 nHashType) ++
  (if 0 <? forkId then le_bytes 4 (u32 forkId) else []).

Definition SignatureHash (scriptCode : list Z) (txTo : Core.CTransaction) (nIn nHashType : Z)
  : list Z :=
  if zlen (Core.vin txTo) <=? nIn then uint256_one
  else
    match sighash_tx scriptCode txTo nIn nHashType with
    | None => uint256_one
    | Some txTmp =>
        HashWriter_GetHash
          (HashWriter_write HashWriter_Init (sighash_bytes txTmp nHashType (Core.nTime txTo)))
    end.

End Hashed.

(** ** Keys that sign and verify *)

Section Signatures.
Context {h : Hashes} {ec : EC} {ecdsa : ECDSA ec}.

(** [CPubKey::Verify] *)
Definition Verify (pubkey : PubKey.CPubKey) (hash vchSig : list Z) : bool :=
  if negb (PubKey.IsValid pubkey) then false
  else
    match Keys.ECKey_SetPubKey pubkey with
    | None => false
    | Some P => ECDSA_verify hash vchSig P
    end.

(** [CECKey::Sign]: the S of the pair is negated modulo the order when it is
    above half the order. *)
Definition ECKey_Sign (hash : list Z) (secret : Z) : bool * list Z :=
  match ECDSA_do_sign hash secret with
  | None => (false, [])
  | Some (r, s) =>
      let order := secp256k1_order in
      let halforder := Z.shiftr order 1 in
      let s := if halforder <? s then order - s else s in
      (true, i2d_ECDSA_SIG r s)
  end.

(** [CKey::Sign] *)
Definition Key_Sign (k : Keys.CKey) (hash vchSig : list Z) : bool * list Z :=
  if negb (Keys.fValid k) then (false, vchSig) else ECKey_Sign hash (be_val (Keys.secret k)).

(** ** The cache of valid signatures *)

Definition sigdata_type : Type := list Z * list Z * PubKey.CPubKey.

(** The lexicographic order of byte vectors. *)
Fixpoint vch_ltb (a b : list Z) : bool :=
  match a, b with
  | _, [] => false
  | [], _ :: _ => true
  | x :: a, y :: b => (x <? y) || ((x =? y) && vch_ltb a b)
  end.

(** [operator<] of the tuple: [uint256], signature, public key. *)
Definition sigdata_ltb (a b : sigdata_type) : bool :=
  let '(h1, s1, p1) := a in
  let '(h2, s2, p2) := b in
  (le_val h1 <? le_val h2) ||
  (negb (le_val h2 <? le_val h1) &&
   (vch_ltb s1 s2 || (negb (vch_ltb s2 s1) && PubKey.ltb p1 p2))).

(** The set, in its order, and the number of random hashes drawn so far. *)
Record CSignatureCache := mkCache { setValid : list sigdata_type; draws : nat }.

Definition Cache_Init : CSignatureCache := mkCache [] 0.

(** [std::set]'s [find], [insert] and [lower_bound]. *)
Fixpoint set_find (k : sigdata_type) (l : list sigdata_type) : bool :=
  match l with
  | [] => false
  | e :: l => if sigdata_ltb e k then set_find k l else negb (sigdata_ltb k e)
  end.
Fixpoint set_insert (k : sigdata_type) (l : list sigdata_type) : list sigdata_type :=
  match l with
  | [] => [k]
  | e :: l' =>
      if sigdata_ltb e k then e :: set_insert k l'
      else if sigdata_ltb k e then k :: l else l
  end.

(** Removes the element at [lower_bound(k)]; [None] when that is the end. *)
Fixpoint erase_lower_bound (k : sigdata_type) (l : list sigdata_type) : option (list sigdata_type) :=
  match l with
  | [] => None
  | e :: l =>
      if sigdata_ltb e k then option_map (cons e) (erase_lower_bound k l) else Some l
  end.

Section Cache.
(** [GetRandHash()], a function of the number of calls before it, and the
    [-maxsigcachesize] argument. *)
Context (GetRandHash : nat -> list Z) (nMaxCacheSize : Z).

Definition Cache_Get (c : CSignatureCache) (hash vchSig : list Z) (pubKey : PubKey.CPubKey) : bool :=
  set_find (hash, vchSig, pubKey) (setValid c).

(** One round of the eviction: a random key, and the first element not below it,
    or the first of all. *)
Definition evict_one (c : CSignatureCache) : CSignatureCache :=
  let randomHash := GetRandHash (draws c) in
  match erase_lower_bound (randomHash, [], PubKey.of_bytes []) (setValid c) with
  | Some l => mkCache l (S (draws c))
  | None => mkCache (tl (setValid c)) (S (draws c))
  end.

(** Every round removes an element: as many rounds as elements are enough. *)
Fixpoint evict (fuel : nat) (c : CSignatureCache) : CSignatureCache :=
  match fuel with
  | O => c
  | S fuel => if nMaxCacheSize <? zlen (setValid c) then evict fuel (evict_one c) else c
  end.

Definition Cache_Set (c : CSignatureCache) (hash vchSig : list Z) (pubKey : PubKey.CPubKey)
  : CSignatureCache :=
  if nMaxCacheSize <=? 0 then c
  else
    let c := evict (List.length (setValid c)) c in
    mkCache (set_insert (hash, vchSig, pubKey) (setValid c)) (draws c).

(** [CheckSig]: its static cache is the state. *)
Definition CheckSig (params : ChainParams.CChainParams) (c : CSignatureCache)
    (vchSig vchPubKey scriptCode : list Z) (txTo : Core.CTransaction) (nIn nHashType flags : Z)
  : bool * CSignatureCache :=
  let pubkey := PubKey.of_bytes vchPubKey in
  if negb (PubKey.IsValid pubkey) then (false, c)
  else
    match rev vchSig with
    | [] => (false, c)
    | back :: front =>
        if negb (nHashType =? 0) && negb (nHashType =? back) then (false, c)
        else
          let nHashType := if nHashType =? 0 then back else nHashType in
          let vchSig := rev front in
          let sighash := SignatureHash params scriptCode txTo nIn nHashType in
          if Cache_Get c sighash vchSig pubkey then (true, c)
          else if negb (Verify pubkey sighash vchSig) then (false, c)
          else if negb (has flags SCRIPT_VERIFY_NOCACHE)
          then (true, Cache_Set c sighash vchSig pubkey)
          else (true, c)
    end.

End Cache.
End Signatures.

(** [CheckLockTime]; [nIn] out of range is undefined behaviour. *)
Definition CheckLockTime (txTo : Core.CTransaction) (nIn nLockTime : Z) : res bool :=
  let lt := Core.nLockTime txTo in
  let th := Core.LOCKTIME_THRESHOLD in
  if negb (((lt <? th) && (nLockTime <? th)) || ((th <=? lt) && (th <=? nLockTime))) then Ret false
  else if lt <? nLockTime then Ret false
  else
    match nth_error (Core.vin txTo) (Z.to_nat nIn) with
    | None => Undef
    | Some i => if Core.TxIn_IsFinal i then Ret false else Ret true
    end.

(** ** Strict DER *)

(** A minimal non-negative DER integer. *)
Definition der_int_okb (v : list Z) : bool :=
  match v with
  | [] => false
  | b :: t =>
      (b <? 128) && negb (match t with c :: _ => (b =? 0) && (c <? 128) | [] => false end)
  end.

Definition der_sig (R S : list Z) : list Z :=
  [0x30; zlen R + zlen S + 4] ++ [2; zlen R] ++ R ++ [2; zlen S] ++ S.

Lemma at_app pre b post i : i = zlen pre -> at_ (pre ++ b :: post) i = Ret b.
Proof.
  intros ->. unfold at_, zlen. rewrite Nat2Z.id, nth_error_app2, Nat.sub_diag by lia. easy.
Qed.

Lemma is_integer_spec pre tag l v post x n :
  bytes_ok v -> x = zlen pre + 2 -> n = zlen v ->
  is_integer_at (pre ++ tag :: l :: v ++ post) x n = Ret ((tag =? 2) && der_int_okb v).
Proof.
  intros B -> ->. unfold is_integer_at.
  replace (zlen pre + 2 - 2) with (zlen pre) by lia. rewrite at_app by easy. cbn [res_bind].
  destruct (tag =? 2); cbn [negb andb]; [|easy].
  destruct v as [|b v]; [easy|]. inversion_clear B as [|? ? Hb Hv]. rewrite zlen_cons.
  pose proof (zlen_nonneg v). rewrite (proj2 (Z.eqb_neq _ 0)) by lia.
  unfold is_negative_at, is_padded_at.
  change (pre ++ tag :: l :: (b :: v) ++ post) with (pre ++ [tag; l] ++ b :: v ++ post).
  rewrite app_assoc. rewrite at_app by (autorewrite with lists; lia). cbn [res_bind].
  rewrite CBigNum.land128_zero by easy. cbn [der_int_okb]. destruct (b <? 128); cbn [negb andb]; [|easy].
  destruct v as [|c v]; [easy|]. inversion_clear Hv as [|? ? Hc _].
  rewrite zlen_cons. pose proof (zlen_nonneg v). rewrite (proj2 (Z.ltb_lt 1 _)) by lia.
  destruct (b =? 0); cbn [res_bind negb andb]; [|easy].
  change ((pre ++ [tag; l]) ++ b :: (c :: v) ++ post) with ((pre ++ [tag; l]) ++ [b] ++ c :: v ++ post).
  rewrite app_assoc, at_app by (autorewrite with lists; lia). cbn [res_bind].
  rewrite CBigNum.land128_zero by easy. now destruct (c <? 128).
Qed.

(** The verdict on a vector whose lengths add up. *)
Lemma der_explicit b0 b1 t1 (R : list Z) t2 (S suf : list Z) (ht : bool) :
  let sig := [b0; b1; t1; zlen R] ++ R ++ [t2; zlen S] ++ S ++ suf in
  bytes_ok R -> bytes_ok S -> zlen suf = (if ht then 1 else 0) -> 9 <= zlen sig <= 73 ->
  IsDERSignature sig ht =
  Ret ((b0 =? 0x30) && (b1 =? zlen R + zlen S + 4) && ((t1 =? 2) && der_int_okb R) &&
       ((t2 =? 2) && der_int_okb S)).
Proof.
  intros sig HR HS Hs Hl. unfold IsDERSignature.
  rewrite (proj2 (Z.ltb_ge _ 9)), (proj2 (Z.ltb_ge 73 _)) by lia.
  pose proof (zlen_nonneg R). pose proof (zlen_nonneg S).
  assert (zlen sig = zlen R + zlen S + 6 + zlen suf) as E
    by (unfold sig; autorewrite with lists; lia).
  assert (at_ sig 0 = Ret b0) as -> by reflexivity. cbn [res_bind].
  destruct (b0 =? 0x30); cbn [negb andb]; [|easy].
  assert (at_ sig 1 = Ret b1) as -> by reflexivity. cbn [res_bind].
  replace (zlen sig - (if ht then 3 else 2)) with (zlen R + zlen S + 4)
    by (destruct ht; lia).
  destruct (b1 =? zlen R + zlen S + 4); cbn [negb andb]; [|easy].
  assert (at_ sig 3 = Ret (zlen R)) as -> by reflexivity. cbn [res_bind].
  rewrite (proj2 (Z.leb_gt _ _)) by (destruct ht; lia).
  assert (sig = ([b0; b1; t1; zlen R] ++ R ++ [t2]) ++ zlen S :: S ++ suf) as E2
    by (unfold sig; rewrite <- !app_assoc; easy).
  rewrite E2 at 1. rewrite at_app by (autorewrite with lists; lia).
  cbn [res_bind]. rewrite (proj2 (Z.eqb_eq (zlen R + zlen S + (if ht then 7 else 6)) (zlen sig))) by (destruct ht; lia). cbn [negb].
  change sig with ([b0; b1] ++ t1 :: zlen R :: R ++ [t2; zlen S] ++ S ++ suf) at 1.
  rewrite is_integer_spec by easy. cbn [res_bind].
  destruct ((t1 =? 2) && der_int_okb R); cbn [negb andb]; [|easy].
  assert (sig = ([b0; b1; t1; zlen R] ++ R) ++ t2 :: zlen S :: S ++ suf) as ->
    by (unfold sig; rewrite <- !app_assoc; easy).
  apply is_integer_spec; [easy| |easy]. autorewrite with lists. lia.
Qed.

(** Any other vector is refused. *)
Lemma der_split sig ht : bytes_ok sig ->
  IsDERSignature sig ht = Ret false \/
  exists b0 b1 t1 (R : list Z) t2 (S suf : list Z), sig = [b0; b1; t1; zlen R] ++ R ++ [t2; zlen S] ++ S ++ suf /\
    bytes_ok R /\ bytes_ok S /\ zlen suf = (if ht then 1 else 0) /\ 9 <= zlen sig <= 73.
Proof.
  intros B. unfold IsDERSignature.
  destruct (zlen sig <? 9) eqn:E1; [now left|]. destruct (73 <? zlen sig) eqn:E2; [now left|]. zbool.
  destruct sig as [|b0 [|b1 [|t1 [|nR rest]]]]; rewrite ?zlen_cons in E1, E2;
    try (unfold zlen in E1; cbn in E1; lia).
  assert (byte_ok nR /\ bytes_ok rest) as [BR Br] by (now inversion_clear B as [|? ? _ B1];
    inversion_clear B1 as [|? ? _ B2]; inversion_clear B2 as [|? ? _ B3]; inversion_clear B3).
  change (at_ (b0 :: b1 :: t1 :: nR :: rest) 0) with (Ret b0). cbn [res_bind]. destruct (negb (b0 =? 0x30)); [now left|].
  change (at_ (b0 :: b1 :: t1 :: nR :: rest) 1) with (Ret b1). cbn [res_bind]. destruct (negb (b1 =? _)); [now left|].
  change (at_ (b0 :: b1 :: t1 :: nR :: rest) 3) with (Ret nR). cbn [res_bind].
  destruct (_ <=? 5 + nR) eqn:E3; [now left|]. zbool. rewrite !zlen_cons in *.
  unfold in_u in BR. rewrite <- (firstn_skipn (Z.to_nat nR) rest) in Br |- *.
  apply bytes_app in Br as [BR' Br].
  assert (zlen (firstn (Z.to_nat nR) rest) = nR) as LR
      by (unfold zlen in *; rewrite length_firstn; lia).
  assert (zlen (skipn (Z.to_nat nR) rest) = zlen rest - nR) as LS
      by (unfold zlen in *; rewrite length_skipn; lia).
  set (R := firstn _ rest) in *. clearbody R.
  destruct (skipn (Z.to_nat nR) rest) as [|t2 [|nS rest2]]; rewrite ?zlen_cons in LS;
    try (unfold zlen in *; cbn in LS; lia).
  assert (byte_ok nS /\ bytes_ok rest2) as [BS Br2]
    by (now inversion_clear Br as [|? ? _ B1]; inversion_clear B1).
  assert (at_ (b0 :: b1 :: t1 :: nR :: R ++ t2 :: nS :: rest2) (5 + nR) = Ret nS) as ->.
  { change (b0 :: b1 :: t1 :: nR :: R ++ t2 :: nS :: rest2)
      with ([b0; b1; t1; nR] ++ R ++ [t2] ++ nS :: rest2).
    rewrite !app_assoc. apply at_app. autorewrite with lists. lia. }
  cbn [res_bind]. destruct (negb _) eqn:E4; [now left|]. zbool. right.
  autorewrite with lists in *. unfold in_u in BS.
  assert (zlen (firstn (Z.to_nat nS) rest2) = nS) as LS'
      by (unfold zlen in *; rewrite length_firstn; destruct ht; lia).
  exists b0, b1, t1, R, t2, (firstn (Z.to_nat nS) rest2), (skipn (Z.to_nat nS) rest2).
  rewrite <- (firstn_skipn (Z.to_nat nS) rest2) in Br2. apply bytes_app in Br2 as [BS' _].
  splits; auto; try lia.
  - rewrite LR, LS'. cbn [app]. now rewrite firstn_skipn.
  - unfold zlen in *. rewrite length_skipn. destruct ht; lia.
Qed.

Definition der_int_ok (v : list Z) : Prop :=
  v <> [] /\ hd 0 v < 128 /\ (forall c t, v = 0 :: c :: t -> 128 <= c).

Lemma der_int_okb_spec v : der_int_okb v = true <-> der_int_ok v.
Proof.
  unfold der_int_ok. destruct v as [|b [|c t]]; cbn [der_int_okb hd].
  - split; [discriminate|easy].
  - rewrite andb_true_r, Z.ltb_lt. split; [|easy]. intros H. splits; [easy|easy|discriminate].
  - rewrite andb_true_iff, Z.ltb_lt, negb_true_iff. split.
    + intros [H1 H2]. splits; [easy|easy|]. intros c' t' E. injection E as -> -> ->.
      cbn [Z.eqb andb] in H2. now apply Z.ltb_ge in H2.
    + intros (_ & H1 & H2). split; [easy|]. destruct (Z.eqb_spec b 0) as [->|]; [|easy].
      specialize (H2 c t eq_refl). cbn [andb]. now apply Z.ltb_ge.
Qed.

(** C16: [IsDERSignature] reads no byte out of range, and accepts exactly the strict DER
    encodings of two non-negative minimal integers that fill the vector, up to the hash type
    byte when one is asked for, of 9 to 73 bytes in all. *)
Theorem IsDERSignature_exact sig ht : bytes_ok sig ->
  exists b, IsDERSignature sig ht = Ret b /\
    (b = true <->
     exists R S suf, sig = der_sig R S ++ suf /\ zlen suf = (if ht then 1 else 0) /\
       der_int_ok R /\ der_int_ok S /\ 9 <= zlen sig <= 73).
Proof.
  intros B. assert (forall R S suf, der_sig R S ++ suf =
      [0x30; zlen R + zlen S + 4; 2; zlen R] ++ R ++ [2; zlen S] ++ S ++ suf) as D
    by (intros; unfold der_sig; now rewrite <- !app_assoc).
  assert (forall R S suf, sig = der_sig R S ++ suf -> zlen suf = (if ht then 1 else 0) ->
    der_int_ok R -> der_int_ok S -> 9 <= zlen sig <= 73 -> IsDERSignature sig ht = Ret true) as If.
  { intros R S suf E Hs HR HS Hl. rewrite D in E. rewrite E in B, Hl.
    apply bytes_app in B as [_ B]. apply bytes_app in B as [BR B].
    apply bytes_app in B as [_ B]. apply bytes_app in B as [BS _].
    rewrite E, der_explicit by easy. rewrite !Z.eqb_refl.
    now rewrite (proj2 (der_int_okb_spec R) HR), (proj2 (der_int_okb_spec S) HS). }
  destruct (der_split sig ht B) as [E | (b0 & b1 & t1 & R & t2 & S & suf & E & BR & BS & Hs & Hl)].
  { exists false. split; [easy|]. split; [easy|]. intros (R & S & suf & E2 & H1 & H2 & H3 & H4).
    rewrite (If R S suf) in E by easy. congruence. }
  eexists. split; [rewrite E; apply der_explicit; [easy|easy|easy|now rewrite <- E]|]. split.
  - intros H. zbool. subst. exists R, S, suf. rewrite <- !der_int_okb_spec. rewrite D. splits; auto; lia.
  - intros (R' & S' & suf' & E2 & H1 & H2 & H3 & H4). pose proof (If R' S' suf' E2 H1 H2 H3 H4) as F.
    rewrite E, der_explicit in F by (try easy; now rewrite <- E). congruence.
Qed.

Lemma IsDERSignature_exact_witness :
  let sig := [48; 6; 2; 1; 5; 2; 1; 7; 1] in
  exists b, IsDERSignature sig true = Ret b /\
    (b = true <->
     exists R S suf, sig = der_sig R S ++ suf /\ zlen suf = 1 /\
       der_int_ok R /\ der_int_ok S /\ 9 <= zlen sig <= 73).
Proof. apply (IsDERSignature_exact [48; 6; 2; 1; 5; 2; 1; 7; 1] true). now repeat constructor. Defined.

(** ** The signer *)

(** ECDSA_do_sign(3) and i2d_ECDSA_SIG(3): the pair of a signature is reduced
    and not zero, and its DER encoding is a SEQUENCE of two INTEGERs. *)
Class ECDSA_laws (ec : EC) (ecdsa : ECDSA ec) : Prop := {
  do_sign_range : forall hash secret r s, ECDSA_do_sign hash secret = Some (r, s) ->
    1 <= r < secp256k1_order /\ 1 <= s < secp256k1_order;
  i2d_der : forall r s, 1 <= r < secp256k1_order -> 1 <= s < secp256k1_order ->
    exists R S : list Z, i2d_ECDSA_SIG r s = der_sig R S /\
      (bytes_ok R /\ der_int_ok R /\ be_val R = r) /\ (bytes_ok S /\ der_int_ok S /\ be_val S = s)
}.

(** A minimal integer below the order has at most 33 bytes. *)
Lemma der_int_short v : bytes_ok v -> der_int_ok v -> be_val v < 2 ^ 256 -> 1 <= zlen v <= 33.
Proof.
  intros B (N & P & M) V. destruct v as [|b v]; [easy|]. inversion_clear B as [|? ? Hb Hv].
  rewrite zlen_cons, be_val_cons in *. pose proof (be_val_range v Hv). pose proof (zlen_nonneg v).
  unfold in_u in Hb. split; [lia|]. apply Z.nlt_ge. intros L.
  destruct (Z.eq_dec b 0) as [->|Nb].
  - destruct v as [|c t]; [unfold zlen in L; cbn in L; lia|]. specialize (M c t eq_refl).
    inversion_clear Hv as [|? ? Hc Ht]. rewrite zlen_cons, be_val_cons in *.
    pose proof (be_val_range t Ht).
    assert (2 ^ 249 <= 2 ^ (8 * zlen t)) by (apply Z.pow_le_mono_r; lia).
    change (2 ^ 256) with (2 ^ 249 * 128) in V. nia.
  - assert (2 ^ 256 <= 2 ^ (8 * zlen v)) by (apply Z.pow_le_mono_r; lia). nia.
Qed.

Lemma defined_hashtype v ht : byte_ok ht -> 1 <= Z.land ht 0x7f <= 3 ->
  IsDefinedHashtypeSignature (v ++ [ht]) = true.
Proof.
  intros B H. unfold IsDefinedHashtypeSignature. rewrite rev_unit.
  assert (exists n, (n < 256)%nat /\ ht = Z.of_nat n) as (n & Hn & ->)
    by (unfold in_u in B; exists (Z.to_nat ht); lia).
  clear B. do 256 (destruct n as [|n]; [cbn in H; (reflexivity || lia)|]). lia.
Qed.

Section Signer.
Context {h : Hashes} {ec : EC} {ecdsa : ECDSA ec} {dl : ECDSA_laws ec ecdsa}.

Lemma low_s s : 1 <= s < secp256k1_order ->
  let s' := if Z.shiftr secp256k1_order 1 <? s then secp256k1_order - s else s in
  1 <= s' <= secp256k1_order / 2.
Proof.
  intros H. cbv zeta. change (Z.shiftr secp256k1_order 1) with (secp256k1_order / 2).
  assert (secp256k1_order = 2 * (secp256k1_order / 2) + 1) by reflexivity.
  destruct (_ <? s) eqn:E; zbool; lia.
Qed.

(** What [CKey::Sign] makes passes the node's own check: with a defined hash type appended,
    its signature is strict DER with a low S, so that [CheckSignatureEncoding] takes it under
    every combination of flags. *)
Theorem own_signatures_pass k hash v0 sig ht flags :
  Key_Sign k hash v0 = (true, sig) -> byte_ok ht -> 1 <= Z.land ht 0x7f <= 3 ->
  CheckSignatureEncoding (sig ++ [ht]) flags = Ret true.
Proof.
  unfold Key_Sign, ECKey_Sign. intros E B H. destruct (negb _); [discriminate|].
  destruct (ECDSA_do_sign _ _) as [[r s]|] eqn:ES; [|discriminate].
  destruct (do_sign_range _ _ _ _ ES) as [Hr Hs]. pose proof (low_s s Hs) as L. cbv zeta in L.
  set (s' := if Z.shiftr secp256k1_order 1 <? s then secp256k1_order - s else s) in *. clearbody s'.
  assert (sig = i2d_ECDSA_SIG r s') as -> by congruence. clear E.
  assert (secp256k1_order / 2 < secp256k1_order < 2 ^ 256) as O by easy.
  destruct (i2d_der r s' Hr ltac:(lia)) as (R & S & -> & (BR & DR & <-) & (BS & DS & <-)).
  pose proof (der_int_short R BR DR ltac:(lia)) as LR.
  pose proof (der_int_short S BS DS ltac:(lia)) as LS.
  unfold CheckSignatureEncoding. destruct (has flags _ && _); [easy|].
  rewrite defined_hashtype by easy. rewrite andb_false_r.
  assert (IsDERSignature (der_sig R S ++ [ht]) true = Ret true) as Der.
  { unfold der_sig. rewrite <- !app_assoc.
    change ([48; zlen R + zlen S + 4] ++ [2; zlen R] ++ R ++ [2; zlen S] ++ S ++ [ht])
      with ([48; zlen R + zlen S + 4; 2; zlen R] ++ R ++ [2; zlen S] ++ S ++ [ht]).
    rewrite der_explicit; auto; [|autorewrite with lists; lia].
    rewrite !Z.eqb_refl, (proj2 (der_int_okb_spec R) DR). now rewrite (proj2 (der_int_okb_spec S) DS). }
  unfold IsLowDERSignature. rewrite Der. cbn [res_bind negb].
  assert (at_ (der_sig R S ++ [ht]) 3 = Ret (zlen R)) as -> by reflexivity. cbn [res_bind].
  assert (der_sig R S ++ [ht] = ([48; zlen R + zlen S + 4; 2; zlen R] ++ R ++ [2]) ++ zlen S :: S ++ [ht])
    as E by (unfold der_sig; now rewrite <- !app_assoc).
  rewrite E, at_app by (autorewrite with lists; lia). cbn [res_bind].
  replace (6 + zlen R) with (zlen (([48; zlen R + zlen S + 4; 2; zlen R] ++ R ++ [2]) ++ [zlen S]))
    by (autorewrite with lists; lia).
  change (zlen S :: S ++ [ht]) with ([zlen S] ++ S ++ [ht]). rewrite (app_assoc _ [zlen S]), skipn_app_exact.
  rewrite firstn_app_exact, Z.eqb_refl. cbn [negb].
  now rewrite (proj2 (KeyRange.CheckSignatureElement_spec S true BS)) by lia.
Qed.

End Signer.

(** ** The cache *)

Lemma vch_ltb_total : forall a b, vch_ltb a b = false -> vch_ltb b a = false -> a = b.
Proof.
  induction a as [|x a IH]; intros [|y b] H1 H2; try easy. cbn [vch_ltb] in *.
  apply orb_false_iff in H1 as [L1 E1], H2 as [L2 E2]. zbool. assert (x = y) as -> by lia.
  rewrite Z.eqb_refl in *. cbn [andb] in *. f_equal. auto.
Qed.

Lemma compare_same_total : forall a b, List.length a = List.length b ->
  (KeyRange.compare_same a b <? 0) = false -> (KeyRange.compare_same b a <? 0) = false -> a = b.
Proof.
  induction a as [|x a IH]; intros [|y b] L H1 H2; try easy. cbn [KeyRange.compare_same] in *.
  destruct (Z.ltb_spec y x), (Z.ltb_spec x y); try discriminate; try lia.
  f_equal; [lia|]. apply IH; auto.
Qed.

(** Neither of two entries before the other: they agree in what [Verify] looks at. *)
Lemma equivalent_entries h1 s1 p1 h2 s2 p2 :
  bytes_ok h1 -> bytes_ok h2 -> List.length h1 = List.length h2 ->
  PubKey.array_ok p1 -> PubKey.array_ok p2 ->
  sigdata_ltb (h1, s1, p1) (h2, s2, p2) = false -> sigdata_ltb (h2, s2, p2) (h1, s1, p1) = false ->
  h1 = h2 /\ s1 = s2 /\ PubKey.size p1 = PubKey.size p2 /\ PubKey.bytes p1 = PubKey.bytes p2.
Proof.
  intros B1 B2 L A1 A2 H1 H2. unfold sigdata_ltb in *.
  apply orb_false_iff in H1 as [N1 H1], H2 as [N2 H2]. rewrite N1, N2 in *. cbn [negb andb] in *.
  apply orb_false_iff in H1 as [V1 H1], H2 as [V2 H2]. rewrite V1, V2 in *. cbn [negb andb] in *.
  assert (h1 = h2) as ->.
  { zbool. rewrite <- (le_bytes_val h1), <- (le_bytes_val h2), L by easy. f_equal. lia. }
  rewrite (vch_ltb_total s1 s2) by easy. unfold PubKey.ltb in *.
  apply orb_false_iff in H1 as [L1 H1], H2 as [L2 H2]. zbool.
  assert (nth 0 (PubKey.vch p1) 0 = nth 0 (PubKey.vch p2) 0) as E by lia.
  assert (PubKey.size p1 = PubKey.size p2) as ES by (unfold PubKey.size; now rewrite E).
  rewrite E, Z.eqb_refl in *. cbn [andb] in *. rewrite ES in H1. rewrite <- ES in H2.
  splits; auto. unfold PubKey.memcmp in *. unfold PubKey.bytes in *.
  apply compare_same_total; [|now rewrite ES in *|now rewrite ES in *].
  unfold PubKey.array_ok, zlen in *. rewrite ES, !length_firstn. lia.
Qed.

Section CacheProofs.
Context {h : Hashes} {hl : Hashes_laws h} {ec : EC} {ecdsa : ECDSA ec}.
Context (GetRandHash : nat -> list Z) (nMaxCacheSize : Z).

(** Every entry verifies. *)
Definition entry_ok (e : sigdata_type) : Prop :=
  let '(hash, sig, p) := e in
  bytes_ok hash /\ zlen hash = 32 /\ PubKey.array_ok p /\ Verify p hash sig = true.
Definition cache_ok (c : CSignatureCache) : Prop := Forall entry_ok (setValid c).

Lemma set_find_true k l : set_find k l = true ->
  exists e, In e l /\ sigdata_ltb e k = false /\ sigdata_ltb k e = false.
Proof.
  induction l as [|e l IH]; [discriminate|]. cbn [set_find]. destruct (sigdata_ltb e k) eqn:E; intros H.
  - destruct (IH H) as (e' & ? & ? & ?). exists e'. splits; auto. now right.
  - exists e. zbool. splits; auto. now left.
Qed.

Lemma Cache_Get_sound c hash sig p : cache_ok c -> bytes_ok hash -> zlen hash = 32 ->
  PubKey.array_ok p -> Cache_Get c hash sig p = true -> Verify p hash sig = true.
Proof.
  intros C B L A H. unfold Cache_Get in H. apply set_find_true in H as ([[h1 s1] p1] & I & H1 & H2).
  unfold cache_ok in C. rewrite Forall_forall in C. destruct (C _ I) as (B1 & L1 & A1 & V).
  destruct (equivalent_entries h1 s1 p1 hash sig p) as (-> & -> & ES & EB); auto;
    [unfold zlen in *; lia|].
  unfold Verify, PubKey.IsValid, Keys.ECKey_SetPubKey in *. now rewrite <- ES, <- EB.
Qed.

Lemma set_insert_ok k l : entry_ok k -> Forall entry_ok l ->
  Forall entry_ok (set_insert k l) /\ (List.length (set_insert k l) <= 1 + List.length l)%nat.
Proof.
  intros Hk. induction 1 as [|e l He Hl [IH L]]; cbn [set_insert]; [now repeat constructor|].
  destruct (sigdata_ltb e k); [|destruct (sigdata_ltb k e)]; cbn [List.length]; split;
    try lia; repeat constructor; auto.
Qed.

Lemma erase_lower_bound_ok k l l' : erase_lower_bound k l = Some l' -> Forall entry_ok l ->
  Forall entry_ok l' /\ List.length l = Datatypes.S (List.length l').
Proof.
  revert l'. induction l as [|e l IH]; intros l' E F; [discriminate|]. cbn [erase_lower_bound] in E.
  inversion_clear F as [|? ? He Hl]. destruct (sigdata_ltb e k).
  - destruct (erase_lower_bound k l) as [m|]; [|discriminate]. cbn in E. injection E as <-.
    destruct (IH m eq_refl Hl) as [F L]. cbn [List.length]. split; [now constructor|lia].
  - injection E as <-. now split.
Qed.

Lemma evict_ok : forall fuel c, cache_ok c -> (List.length (setValid c) <= fuel)%nat ->
  0 < nMaxCacheSize ->
  let c' := evict GetRandHash nMaxCacheSize fuel c in
  cache_ok c' /\ zlen (setValid c') <= nMaxCacheSize.
Proof.
  induction fuel as [|fuel IH]; intros c C L M; cbn [evict].
  - split; [easy|]. unfold zlen. lia.
  - destruct (nMaxCacheSize <? zlen (setValid c)) eqn:E; [|zbool; split; [easy|lia]].
    zbool. assert (cache_ok (evict_one GetRandHash c) /\
      (List.length (setValid (evict_one GetRandHash c)) < List.length (setValid c))%nat) as [C1 L1].
    { unfold evict_one, cache_ok in *. destruct (erase_lower_bound _ _) eqn:EL.
      - apply erase_lower_bound_ok in EL as [F N]; [|easy]. cbn [setValid]. split; [easy|lia].
      - cbn [setValid]. destruct (setValid c) as [|e l]; [unfold zlen in E; cbn in E; lia|].
        inversion_clear C. cbn. split; [easy|lia]. }
    apply IH; auto. lia.
Qed.

(** What [CheckSig] decides, without a cache. *)
Definition signature_valid (params : ChainParams.CChainParams) (vchSig vchPubKey scriptCode : list Z)
    (txTo : Core.CTransaction) (nIn nHashType : Z) : bool :=
  match rev vchSig with
  | [] => false
  | ht :: front =>
      PubKey.IsValid (PubKey.of_bytes vchPubKey) && ((nHashType =? 0) || (nHashType =? ht)) &&
      Verify (PubKey.of_bytes vchPubKey) (SignatureHash params scriptCode txTo nIn ht) (rev front)
  end.

Lemma SignatureHash_size params sc tx nIn ht :
  bytes_ok (SignatureHash params sc tx nIn ht) /\ zlen (SignatureHash params sc tx nIn ht) = 32.
Proof.
  unfold SignatureHash. destruct (_ <=? _); [split; [now repeat constructor|reflexivity]|].
  destruct (sighash_tx _ _ _ _); [|split; [now repeat constructor|reflexivity]].
  split; [apply SHA256_bytes|apply SHA256_size].
Qed.

Lemma of_bytes_array d : PubKey.array_ok (PubKey.of_bytes d).
Proof. apply PubKey.Set_array. reflexivity. Qed.

Lemma CheckSig_spec params c sig key code tx nIn ht flags :
  cache_ok c ->
  exists c', CheckSig GetRandHash nMaxCacheSize params c sig key code tx nIn ht flags =
      (signature_valid params sig key code tx nIn ht, c') /\
    cache_ok c' /\
    (zlen (setValid c) <= nMaxCacheSize + 1 -> zlen (setValid c') <= nMaxCacheSize + 1).
Proof.
  intros C. unfold CheckSig, signature_valid.
  destruct (rev sig) as [|back front]; [exists c; now destruct (negb _)|].
  destruct (PubKey.IsValid _); cbn [negb andb]; [|now exists c].
  rewrite <- negb_orb. destruct ((ht =? 0) || (ht =? back)) eqn:EH; cbn [negb andb]; [|now exists c].
  assert ((if ht =? 0 then back else ht) = back) as ->.
  { destruct (ht =? 0) eqn:E0; [easy|]. cbn in EH. zbool. lia. }
  destruct (SignatureHash_size params code tx nIn back) as [SB SL].
  set (sh := SignatureHash _ _ _ _ _) in *. clearbody sh. pose proof (of_bytes_array key) as A.
  set (p := PubKey.of_bytes key) in *. clearbody p.
  destruct (Cache_Get c sh (rev front) p) eqn:EG.
  { rewrite (Cache_Get_sound c sh (rev front) p) by easy. now exists c. }
  destruct (Verify p sh (rev front)) eqn:EV; cbn [negb]; [|now exists c].
  destruct (has flags SCRIPT_VERIFY_NOCACHE); cbn [negb]; [now exists c|].
  eexists. split; [reflexivity|]. unfold Cache_Set. destruct (nMaxCacheSize <=? 0) eqn:EM; [now split|].
  zbool. destruct (evict_ok (List.length (setValid c)) c C (le_n _) EM) as [C1 L1].
  destruct (set_insert_ok (sh, rev front, p) (setValid (evict GetRandHash nMaxCacheSize
    (List.length (setValid c)) c))) as [F L]; [easy|exact C1|].
  split; [exact F|]. cbn [setValid]. unfold zlen in *. lia.
Qed.

(** C11: the signature cache is transparent: as long as every entry is a triple that verifies,
    [CheckSig] decides what verification alone decides, whatever the cache holds, whichever
    entries the random eviction picks and whatever the flags; it leaves such a cache, which a
    positive limit keeps at one entry above the limit at most. *)
Theorem CheckSig_cache_transparent params c sig key code tx nIn ht flags :
  cache_ok c ->
  exists c', CheckSig GetRandHash nMaxCacheSize params c sig key code tx nIn ht flags =
      (signature_valid params sig key code tx nIn ht, c') /\
    cache_ok c' /\
    (zlen (setValid c) <= nMaxCacheSize + 1 -> zlen (setValid c') <= nMaxCacheSize + 1).
Proof. apply CheckSig_spec. Qed.

End CacheProofs.

(** ** Lock times *)

(** C17: the guarantee of CHECKLOCKTIMEVERIFY: a transaction one of whose inputs passes
    [CheckLockTime] with the operand [L] is final only in blocks above height [L], or later than
    time [L] when [L] is a time; and the check reads no input out of range. *)
Theorem CheckLockTime_delays tx nIn L best adjusted height time :
  0 <= nIn < zlen (Core.vin tx) -> 0 <= L -> 0 < height -> 0 < time ->
  CheckLockTime tx nIn L <> Undef /\
  (CheckLockTime tx nIn L = Ret true -> Core.Tx_IsFinal best adjusted tx height time = true ->
   if L <? Core.LOCKTIME_THRESHOLD then L < height else L < time).
Proof.
  intros Hn HL Hh Ht. unfold CheckLockTime. destruct (negb _) eqn:E1; [easy|].
  destruct (_ <? L) eqn:E2; [easy|]. zbool.
  destruct (nth_error (Core.vin tx) (Z.to_nat nIn)) as [i|] eqn:EI.
  2:{ apply nth_error_None in EI. unfold zlen in Hn. lia. }
  destruct (Core.TxIn_IsFinal i) eqn:EF; [easy|]. split; [easy|]. intros _.
  unfold Core.Tx_IsFinal. apply orb_true_iff in E1.
  assert ((L <? Core.LOCKTIME_THRESHOLD) = (Core.nLockTime tx <? Core.LOCKTIME_THRESHOLD)) as ->.
  { apply eq_true_iff_eq. rewrite !Z.ltb_lt. destruct E1 as [E1 | E1]; zbool; lia. }
  destruct (Core.nLockTime tx =? 0) eqn:E0.
  { zbool. rewrite E0 in *. intros _. cbn. lia. }
  rewrite (proj2 (Z.eqb_neq height 0)), (proj2 (Z.eqb_neq time 0)) by lia.
  destruct (Core.nLockTime tx <?
    (if Core.nLockTime tx <? Core.LOCKTIME_THRESHOLD then height else time)) eqn:E3.
  { intros _. zbool. destruct (Core.nLockTime tx <? _); lia. }
  intros F. apply nth_error_In in EI. rewrite forallb_forall in F. rewrite F in EF by easy.
  discriminate.
Qed.

Lemma CheckLockTime_delays_witness :
  let tx := Core.mkTx 1 0 [Core.mkTxIn Core.OutPoint_SetNull [] 0] [] 100 in
  CheckLockTime tx 0 90 <> Undef /\
  (CheckLockTime tx 0 90 = Ret true -> Core.Tx_IsFinal 5 5 tx 101 1 = true ->
   if 90 <? Core.LOCKTIME_THRESHOLD then 90 < 101 else 90 < 1).
Proof.
  apply (CheckLockTime_delays (Core.mkTx 1 0 [Core.mkTxIn Core.OutPoint_SetNull [] 0] [] 100)
    0 90 5 5 101 1); unfold zlen; cbn; lia.
Defined.

(** ** What a signature commits to *)

(** The encodings of a serialisable type are prefix-free. *)
Lemma encode_prefix_free {A} (V : A -> Prop) `{L : Wire.SerLaws A V} (a b : A) (r1 r2 : list Z) :
  V a -> V b -> zlen (Wire.encode a ++ r1) < 2 ^ 31 ->
  Wire.encode a ++ r1 = Wire.encode b ++ r2 -> a = b /\ r1 = r2.
Proof.
  intros Va Vb Hl E. pose proof (DataStream.Init_ok _ Hl) as Hs.
  destruct (Wire.Unserialize_take a _ r1 Va Hs (DataStream.remaining_Init _)) as (s1 & E1 & _ & R1).
  rewrite E in Hs, E1.
  destruct (Wire.Unserialize_take b _ r2 Vb Hs (DataStream.remaining_Init _)) as (s2 & E2 & _ & R2).
  rewrite E1 in E2. injection E2 as -> ->. split; [easy|congruence].
Qed.

Lemma serialized_encode {A} (V : A -> Prop) `{L : Wire.SerLaws A V} (a : A) :
  V a -> serialized a = Wire.encode a.
Proof. intros Va. unfold serialized. now rewrite (Wire.Serialize_append a _ Va). Qed.

Lemma blank_update s n l :
  map blank_scriptSig (update_at (with_scriptSig s) n (map blank_scriptSig l)) = map blank_scriptSig l.
Proof.
  revert n. induction l as [|i l IH]; intros [|n]; cbn; [easy..| |].
  - f_equal. rewrite map_map. easy.
  - f_equal. apply IH.
Qed.

Lemma update_at_code s1 s2 n1 n2 l : s1 <> [] -> (n1 < List.length l)%nat ->
  update_at (with_scriptSig s1) n1 (map blank_scriptSig l) =
  update_at (with_scriptSig s2) n2 (map blank_scriptSig l) -> s1 = s2 /\ n1 = n2.
Proof.
  intros N. revert n1 n2. induction l as [|i l IH]; intros [|n1] [|n2] L E; cbn in *; try lia;
    unfold with_scriptSig, blank_scriptSig in E; cbn in E.
  - split; [congruence|easy].
  - exfalso. congruence.
  - injection E as E1 E2. subst. clear -IH L E2 N.
    exfalso. assert (forall l n, (n < List.length l)%nat ->
      update_at (with_scriptSig s1) n (map blank_scriptSig l) <> map blank_scriptSig l) as D.
    { clear -N. induction l as [|i l IH]; intros [|n] L E; cbn in *; try lia.
      - unfold with_scriptSig, blank_scriptSig in E. cbn in E. congruence.
      - injection E as E. apply (IH n); [lia|easy]. }
    apply (D l n1); [lia|easy].
  - injection E as E. destruct (IH n1 n2) as [-> ->]; [lia|exact E|easy].
Qed.

#[local] Existing Instances Core.Serializable_CTransaction Core.SerLaws_CTransaction.

(** The script a signature commits to. *)
Definition signed_code (scriptCode : list Z) : list Z :=
  snd (FindAndDelete scriptCode (push_op OP_CODESEPARATOR)).

(** C15: what SIGHASH_ALL protects.  The bytes hashed for a signature determine its hash type, the
    version, time, fork and lock time of the transaction, and all of its outputs, outpoints and
    sequence numbers; and, when the script is not empty, that script (less its code separators)
    and the index of the input.  Two signing requests that differ in any of these have different
    preimages. *)
Theorem sighash_all_commits params code1 code2 tx1 tx2 n1 n2 ht1 ht2 t1 t2 :
  sighash_tx code1 tx1 n1 ht1 = Some t1 -> sighash_tx code2 tx2 n2 ht2 = Some t2 ->
  Core.tx_ok t1 -> Core.tx_ok t2 -> in_s 32 ht1 -> in_s 32 ht2 ->
  zlen (sighash_bytes params t1 ht1 (Core.nTime tx1)) < 2 ^ 31 ->
  0 <= n1 < zlen (Core.vin tx1) -> 0 <= n2 ->
  Z.land ht1 0x1f = SIGHASH_ALL -> has ht1 SIGHASH_ANYONECANPAY = false ->
  sighash_bytes params t1 ht1 (Core.nTime tx1) = sighash_bytes params t2 ht2 (Core.nTime tx2) ->
  ht1 = ht2 /\ Core.nVersion tx1 = Core.nVersion tx2 /\ Core.nTime tx1 = Core.nTime tx2 /\
  Core.nLockTime tx1 = Core.nLockTime tx2 /\ Core.vout tx1 = Core.vout tx2 /\
  map blank_scriptSig (Core.vin tx1) = map blank_scriptSig (Core.vin tx2) /\
  (signed_code code1 <> [] -> signed_code code1 = signed_code code2 /\ n1 = n2).
Proof.
  intros S1 S2 K1 K2 R1 R2 Hl Hn1 Hn2 HA HP E. unfold sighash_bytes in E, Hl.
  pose proof (serialized_encode Core.tx_ok) as SE.
  rewrite (SE t1 K1) in E, Hl. rewrite (SE t2 K2) in E. clear SE.
  apply (encode_prefix_free Core.tx_ok) in E as [-> E]; auto.
  assert (ht1 = ht2) as <-.
  { pose proof (f_equal (firstn 4) E) as F. rewrite !firstn_le_app in F.
    apply (f_equal le_val) in F. rewrite !le_val_bytes in F.
    rewrite !Z.mod_small in F by (apply (wrapu_range 32); lia).
    rewrite <- (wraps_wrapu 32 ht1), F by (auto; lia). now apply wraps_wrapu; [lia|]. }
  unfold sighash_tx in S1, S2. fold (signed_code code1) in S1. fold (signed_code code2) in S2.
  set (c1 := signed_code code1) in *. set (c2 := signed_code code2) in *. clearbody c1 c2.
  rewrite HA, HP in S1, S2. cbn [Z.eqb Pos.eqb SIGHASH_ALL SIGHASH_NONE SIGHASH_SINGLE] in S1, S2.
  rewrite <- S1 in S2. injection S2 as EV ET EI EO EL. clear S1.
  assert (map blank_scriptSig (Core.vin tx1) = map blank_scriptSig (Core.vin tx2)) as EB.
  { apply (f_equal (map blank_scriptSig)) in EI. now rewrite !blank_update in EI. }
  splits; auto. intros NE.
  rewrite <- EB in EI. symmetry in EI. apply update_at_code in EI as [-> Ei]; auto.
  - split; [easy|]. lia.
  - unfold zlen in Hn1. lia.
Qed.

End SigCheck.

(** A toy signature scheme, for concrete runs: R is derived from the key and the
    hash, S is arbitrary. *)
Module ToySig.
Import Script SigCheck.

Definition order1 : Z := secp256k1_order - 1.

Definition sig_r (hash : list Z) (P : Toy.zp) : Z := 1 + (Toy.zv P + le_val hash) mod order1.

Definition i2d (r s : Z) : list Z := der_sig (Reference.payload r) (Reference.payload s).

Fixpoint eqbytes (a b : list Z) : bool :=
  match a, b with
  | [], [] => true
  | x :: a, y :: b => (x =? y) && eqbytes a b
  | _, _ => false
  end.

#[export] Instance ecdsa : ECDSA Toy.ec := {|
  ECDSA_verify := fun hash sig (P : @point Toy.ec) => eqbytes sig (i2d (sig_r hash P) 1);
  ECDSA_do_sign := fun hash secret => Some (sig_r hash (Toy.mod_n secret), secp256k1_order - 1);
  i2d_ECDSA_SIG := i2d
|}.

Lemma payload_der z : 1 <= z < secp256k1_order ->
  bytes_ok (Reference.payload z) /\ der_int_ok (Reference.payload z) /\ be_val (Reference.payload z) = z.
Proof.
  intros H. destruct (Reference.payload_spec z) as (_ & B & V & M).
  { unfold CBigNum.mpi_length. rewrite (proj2 (Z.eqb_neq z 0)), Z.abs_eq by lia.
    assert (Z.log2 z <= 256).
    { replace 256 with (Z.log2 (2 ^ 256)) by reflexivity. apply Z.log2_le_mono.
      assert (secp256k1_order < 2 ^ 256) by easy. lia. }
    assert ((Z.log2 z + 1) / 8 < 2 ^ 31 - 1); [|lia]. apply Z.div_lt_upper_bound; lia. }
  set (p := Reference.payload z) in *. clearbody p. unfold der_int_ok.
  destruct p as [|b t]; [cbn in V; lia|]. cbn [mpi_value mpi_minimal hd] in *.
  inversion_clear B as [|? ? Hb Ht]. unfold in_u in Hb. destruct (b <? 128) eqn:E; zbool.
  - splits; [now constructor|easy|easy| |easy]. intros c t' Eq. injection Eq as -> ->.
    destruct M as [M | (c' & t'' & Eq & L)]; [now destruct M|]. injection Eq as -> ->. exact L.
  - exfalso. assert (bytes_ok (b - 128 :: t)) as B' by (constructor; [unfold in_u; lia|easy]).
    pose proof (be_val_range _ B'). lia.
Qed.

#[export] Instance ecdsa_laws : ECDSA_laws Toy.ec ecdsa.
Proof.
  split; cbn [ECDSA_do_sign i2d_ECDSA_SIG ecdsa].
  - intros hash secret r s E. assert (r = sig_r hash (Toy.mod_n secret)) as -> by congruence.
    assert (s = secp256k1_order - 1) as -> by congruence. unfold sig_r.
    pose proof (Z.mod_pos_bound (Toy.zv (Toy.mod_n secret) + le_val hash) order1 eq_refl).
    unfold order1 in *. assert (1 < secp256k1_order) by easy. lia.
  - intros r s Hr Hs. exists (Reference.payload r), (Reference.payload s).
    splits; try reflexivity; now apply payload_der.
Qed.

End ToySig.

Section Witnesses.
Import SigCheck.
#[local] Existing Instances Toy.hashes Toy.hashes_laws Toy.ec Toy.ec_laws ToySig.ecdsa ToySig.ecdsa_laws.

Definition demo_signing_key : Keys.CKey := Keys.mkKey true true (repeat 0 31 ++ [5]).

Lemma own_signatures_pass_witness :
  Key_Sign demo_signing_key (repeat 3 32) [] =
    (true, ToySig.i2d (ToySig.sig_r (repeat 3 32) (Toy.mod_n 5)) 1) /\
  CheckSignatureEncoding (ToySig.i2d (ToySig.sig_r (repeat 3 32) (Toy.mod_n 5)) 1 ++ [0x81]) 0 = Ret true.
Proof.
  split; [vm_compute; reflexivity|].
  refine (@own_signatures_pass Toy.ec ToySig.ecdsa ToySig.ecdsa_laws demo_signing_key
    (repeat 3 32) [] _ 0x81 0 _ _ _); [vm_compute; reflexivity|unfold in_u; lia|cbn; lia].
Defined.

Definition demo_spend : Core.CTransaction :=
  Core.mkTx 1 1600000000 [Core.mkTxIn (Core.mkOutPoint (repeat 7 32) 1) [] 5]
    [Core.mkTxOut 12 [1; 2]] 0.

Definition demo_sig : list Z :=
  ToySig.i2d (ToySig.sig_r (SignatureHash ChainParams.CMainParams [172] demo_spend 0 1) (Toy.mod_n 5)) 1
    ++ [1].

Lemma CheckSig_cache_transparent_witness :
  signature_valid ChainParams.CMainParams demo_sig (point2oct true (Toy.mod_n 5)) [172] demo_spend 0 0 = true /\
  exists c', CheckSig (fun _ => repeat 0 32) 10 ChainParams.CMainParams Cache_Init demo_sig
      (point2oct true (Toy.mod_n 5)) [172] demo_spend 0 0 0 =
      (signature_valid ChainParams.CMainParams demo_sig (point2oct true (Toy.mod_n 5)) [172] demo_spend 0 0, c') /\
    cache_ok c' /\
    (zlen (setValid Cache_Init) <= 10 + 1 -> zlen (setValid c') <= 10 + 1).
Proof.
  split; [vm_compute; reflexivity|].
  refine (@CheckSig_cache_transparent Toy.hashes Toy.hashes_laws Toy.ec ToySig.ecdsa
    (fun _ => repeat 0 32) 10 ChainParams.CMainParams Cache_Init demo_sig
    (point2oct true (Toy.mod_n 5)) [172] demo_spend 0 0 0 _).
  constructor.
Defined.

Lemma sighash_all_commits_witness :
  let t := SigCheck.set_vin demo_spend
             [Core.mkTxIn (Core.mkOutPoint (repeat 7 32) 1) [172] 5] in
  1 = 1 /\ Core.nVersion demo_spend = Core.nVersion demo_spend /\
  Core.nTime demo_spend = Core.nTime demo_spend /\
  Core.nLockTime demo_spend = Core.nLockTime demo_spend /\ Core.vout demo_spend = Core.vout demo_spend /\
  map blank_scriptSig (Core.vin demo_spend) = map blank_scriptSig (Core.vin demo_spend) /\
  (signed_code [172] <> [] -> signed_code [172] = signed_code [171; 172] /\ 0 = 0).
Proof.
  intros t.
  assert (Core.tx_ok t) as K.
  { unfold Core.tx_ok, Core.txin_ok, Core.txout_ok, Core.outpoint_ok, Wire.vector_ok, in_s, in_u.
    splits; repeat constructor; cbn; try lia; try discriminate. }
  refine (sighash_all_commits ChainParams.CMainParams [172] [171; 172] demo_spend demo_spend 0 0 1 1
    t t _ _ K K _ _ _ _ _ _ _ _); try reflexivity; unfold in_s, zlen; cbn; lia.
Defined.

End Witnesses.
