(* ===== verification/Interp.v ===== *)
(** * The script interpreter (src/src/script.cpp)

    [EvalScript] and [VerifyScript].  The interpreter's variables are the record
    [state]; a vector used as a stack is the list of its elements from the top
    down.  An instruction is a state transformer whose [Throw] is the code's
    [return false], or an exception, which the [catch (...)] around the loop
    turns into [return false]: both leave the stacks as they are then.  The
    signature checks go through [SigCheck.CheckSig] and its cache. *)

From Stdlib Require Import ZArith Lia List String Bool.
From S2P Require Import Prelude Stream BigNum Crypto Key Transaction ChainParams Script SigCheck.
Import ListNotations.
#[local] Open Scope Z_scope.

Module Interp.
Import Script SigCheck.

Definition valtype : Type := list Z.
Definition vchFalse : valtype := [].
Definition vchTrue : valtype := [1].
Definition nDefaultMaxNumSize : Z := 4.

Definition vch_bool (b : bool) : valtype := if b then vchTrue else vchFalse.

Definition CastToBool (vch : valtype) : bool :=
  (fix loop (v : valtype) : bool :=
     match v with
     | [] => false
     | b :: t =>
         if b =? 0 then loop t
         else match t with [] => negb (b =? 0x80) | _ => true end
     end) vch.

(** ** Transformers of a stack *)

Definition stack_op : Type := SE (list valtype) unit.

(** [return false] *)
Definition fail {S A} : SE S A := se_throw "return false".

Section Operations.
Context `{OpenSSL_BN}.

Definition CastToBigNum (vch : valtype) (nMaxNumSize : Z) : res Z :=
  if nMaxNumSize <? zlen vch then Throw "CastToBigNum() : overflow"
  else Ret (CBigNum.setvch (CBigNum.getvch (CBigNum.setvch vch))).

(** [CastToBigNum(v).getint()] *)
Definition CastToInt (vch : valtype) : res Z :=
  (let* bn := CastToBigNum vch nDefaultMaxNumSize in Ret (CBigNum.getint bn))%res.

(** A number, cast, handed to the rest of the operation. *)
Definition with_num {A} (r : res Z) (k : Z -> SE (list valtype) A) : SE (list valtype) A :=
  fun s => match r with
           | Ret z => k z s
           | Throw e => (Throw e, s)
           | Undef => (Undef, s)
           end.

Definition ok_with (s : list valtype) : res unit * list valtype := (Ret tt, s).
Definition false_with (s : list valtype) : res unit * list valtype := (Throw "return false", s).

(** *** Push value *)

Definition op_number (o : opcodetype) : stack_op := fun s =>
  ok_with (CBigNum.getvch (CBigNum.of_int (code o - (code OP_1 - 1))) :: s).

(** *** Stack ops *)

Definition op_2drop : stack_op := fun s =>
  match s with _ :: _ :: r => ok_with r | _ => false_with s end.
Definition op_2dup : stack_op := fun s =>
  match s with x2 :: x1 :: _ => ok_with (x2 :: x1 :: s) | _ => false_with s end.
Definition op_3dup : stack_op := fun s =>
  match s with x3 :: x2 :: x1 :: _ => ok_with (x3 :: x2 :: x1 :: s) | _ => false_with s end.
Definition op_2over : stack_op := fun s =>
  match s with _ :: _ :: x2 :: x1 :: _ => ok_with (x2 :: x1 :: s) | _ => false_with s end.
Definition op_2rot : stack_op := fun s =>
  match s with
  | x6 :: x5 :: x4 :: x3 :: x2 :: x1 :: r => ok_with (x2 :: x1 :: x6 :: x5 :: x4 :: x3 :: r)
  | _ => false_with s
  end.
Definition op_2swap : stack_op := fun s =>
  match s with
  | x4 :: x3 :: x2 :: x1 :: r => ok_with (x2 :: x1 :: x4 :: x3 :: r)
  | _ => false_with s
  end.
Definition op_ifdup : stack_op := fun s =>
  match s with x :: _ => ok_with (if CastToBool x then x :: s else s) | _ => false_with s end.
Definition op_depth : stack_op := fun s => ok_with (CBigNum.getvch (zlen s) :: s).
Definition op_drop : stack_op := fun s =>
  match s with _ :: r => ok_with r | _ => false_with s end.
Definition op_dup : stack_op := fun s =>
  match s with x :: _ => ok_with (x :: s) | _ => false_with s end.
Definition op_nip : stack_op := fun s =>
  match s with x2 :: _ :: r => ok_with (x2 :: r) | _ => false_with s end.
Definition op_over : stack_op := fun s =>
  match s with _ :: x1 :: _ => ok_with (x1 :: s) | _ => false_with s end.

(** [OP_PICK], [OP_ROLL]: the count is popped before it is checked. *)
Definition op_pick (fRoll : bool) : stack_op := fun s =>
  match s with
  | x :: ((_ :: _) as r) =>
      with_num (CastToInt x) (fun n _ =>
        if (n <? 0) || (zlen r <=? n) then false_with r
        else
          let vch := nth (Z.to_nat n) r [] in
          let r := if fRoll then firstn (Z.to_nat n) r ++ skipn (S (Z.to_nat n)) r else r in
          ok_with (vch :: r)) s
  | _ => false_with s
  end.

Definition op_rot : stack_op := fun s =>
  match s with x3 :: x2 :: x1 :: r => ok_with (x1 :: x3 :: x2 :: r) | _ => false_with s end.
Definition op_swap : stack_op := fun s =>
  match s with x2 :: x1 :: r => ok_with (x1 :: x2 :: r) | _ => false_with s end.
Definition op_tuck : stack_op := fun s =>
  match s with x2 :: x1 :: r => ok_with (x2 :: x1 :: x2 :: r) | _ => false_with s end.

(** *** Splice, bitwise logic: the ones that are not disabled *)

Definition op_size : stack_op := fun s =>
  match s with x :: _ => ok_with (CBigNum.getvch (zlen x) :: s) | _ => false_with s end.

(** A result pushed, and the VERIFY form that insists on it. *)
Definition push_verdict (fVerify b : bool) (r : list valtype) : res unit * list valtype :=
  if fVerify then (if b then ok_with r else false_with (vchFalse :: r))
  else ok_with (vch_bool b :: r).

Definition op_equal (fVerify : bool) : stack_op := fun s =>
  match s with
  | vch2 :: vch1 :: r => push_verdict fVerify (Core.eqbytes vch1 vch2) r
  | _ => false_with s
  end.

(** *** Numeric *)

(** [CBigNum(bool)] *)
Definition bn_bool (b : bool) : Z := if b then 1 else 0.

Definition unary (o : opcodetype) (bn : Z) : Z :=
  match o with
  | OP_1ADD => bn + 1
  | OP_1SUB => bn - 1
  | OP_NEGATE => - bn
  | OP_ABS => if bn <? 0 then - bn else bn
  | OP_NOT => bn_bool (bn =? 0)
  | _ => bn_bool (negb (bn =? 0))
  end.

Definition op_unary (o : opcodetype) : stack_op := fun s =>
  match s with
  | x :: r =>
      with_num (CastToBigNum x nDefaultMaxNumSize)
        (fun bn _ => ok_with (CBigNum.getvch (unary o bn) :: r)) s
  | _ => false_with s
  end.

Definition binary (o : opcodetype) (bn1 bn2 : Z) : Z :=
  match o with
  | OP_ADD => bn1 + bn2
  | OP_SUB => bn1 - bn2
  | OP_BOOLAND => bn_bool (negb (bn1 =? 0) && negb (bn2 =? 0))
  | OP_BOOLOR => bn_bool (negb (bn1 =? 0) || negb (bn2 =? 0))
  | OP_NUMEQUAL | OP_NUMEQUALVERIFY => bn_bool (bn1 =? bn2)
  | OP_NUMNOTEQUAL => bn_bool (negb (bn1 =? bn2))
  | OP_LESSTHAN => bn_bool (bn1 <? bn2)
  | OP_GREATERTHAN => bn_bool (bn2 <? bn1)
  | OP_LESSTHANOREQUAL => bn_bool (bn1 <=? bn2)
  | OP_GREATERTHANOREQUAL => bn_bool (bn2 <=? bn1)
  | OP_MIN => if bn1 <? bn2 then bn1 else bn2
  | _ => if bn2 <? bn1 then bn1 else bn2
  end.

Definition op_binary (o : opcodetype) : stack_op := fun s =>
  match s with
  | x2 :: x1 :: r =>
      with_num (CastToBigNum x1 nDefaultMaxNumSize) (fun bn1 =>
      with_num (CastToBigNum x2 nDefaultMaxNumSize) (fun bn2 _ =>
        let v := CBigNum.getvch (binary o bn1 bn2) in
        if op_eqb o OP_NUMEQUALVERIFY then
          if CastToBool v then ok_with r else false_with (v :: r)
        else ok_with (v :: r))) s
  | _ => false_with s
  end.

Definition op_within : stack_op := fun s =>
  match s with
  | x3 :: x2 :: x1 :: r =>
      with_num (CastToBigNum x1 nDefaultMaxNumSize) (fun bn1 =>
      with_num (CastToBigNum x2 nDefaultMaxNumSize) (fun bn2 =>
      with_num (CastToBigNum x3 nDefaultMaxNumSize) (fun bn3 _ =>
        ok_with (vch_bool ((bn2 <=? bn1) && (bn1 <? bn3)) :: r)))) s
  | _ => false_with s
  end.

(** *** Crypto *)

Section Hashing.
(** [SHA1] of OpenSSL. *)
Context {h : Hashes} (SHA1 : list Z -> list Z).

Definition op_hash (o : opcodetype) : stack_op := fun s =>
  match s with
  | vch :: r =>
      let vchHash :=
        match o with
        | OP_RIPEMD160 => RIPEMD160 vch
        | OP_SHA1 => SHA1 vch
        | OP_SHA256 => SHA256 vch
        | OP_HASH160 => Hash160 vch
        | _ => Hash vch
        end in
      ok_with (vchHash :: r)
  | _ => false_with s
  end.

(** The operations that work on the main stack alone; an opcode with no case is
    the [default]. *)
Definition pure_op (o : opcodetype) : stack_op :=
  match o with
  | OP_1NEGATE | OP_1 | OP_2 | OP_3 | OP_4 | OP_5 | OP_6 | OP_7 | OP_8 | OP_9 | OP_10 | OP_11
  | OP_12 | OP_13 | OP_14 | OP_15 | OP_16 => op_number o
  | OP_2DROP => op_2drop
  | OP_2DUP => op_2dup
  | OP_3DUP => op_3dup
  | OP_2OVER => op_2over
  | OP_2ROT => op_2rot
  | OP_2SWAP => op_2swap
  | OP_IFDUP => op_ifdup
  | OP_DEPTH => op_depth
  | OP_DROP => op_drop
  | OP_DUP => op_dup
  | OP_NIP => op_nip
  | OP_OVER => op_over
  | OP_PICK => op_pick false
  | OP_ROLL => op_pick true
  | OP_ROT => op_rot
  | OP_SWAP => op_swap
  | OP_TUCK => op_tuck
  | OP_SIZE => op_size
  | OP_EQUAL => op_equal false
  | OP_EQUALVERIFY => op_equal true
  | OP_1ADD | OP_1SUB | OP_NEGATE | OP_ABS | OP_NOT | OP_0NOTEQUAL => op_unary o
  | OP_ADD | OP_SUB | OP_BOOLAND | OP_BOOLOR | OP_NUMEQUAL | OP_NUMEQUALVERIFY | OP_NUMNOTEQUAL
  | OP_LESSTHAN | OP_GREATERTHAN | OP_LESSTHANOREQUAL | OP_GREATERTHANOREQUAL | OP_MIN | OP_MAX =>
      op_binary o
  | OP_WITHIN => op_within
  | OP_RIPEMD160 | OP_SHA1 | OP_SHA256 | OP_HASH160 | OP_HASH256 => op_hash o
  | _ => fail
  end.

End Hashing.
End Operations.

(** The opcodes refused whether or not they are executed. *)
Definition disabled (o : opcodetype) : bool :=
  match o with
  | OP_CAT | OP_SUBSTR | OP_LEFT | OP_RIGHT | OP_INVERT | OP_AND | OP_OR | OP_XOR | OP_2MUL
  | OP_2DIV | OP_MUL | OP_DIV | OP_MOD | OP_LSHIFT | OP_RSHIFT => true
  | _ => false
  end.

(** ** The interpreter's state *)

Record state := mkState {
  stack : list valtype;
  altstack : list valtype;
  vfExec : list bool;
  pc : list Z;
  pbegincodehash : list Z;
  nOpCount : Z;
  signatureCache : CSignatureCache
}.

Definition set_stack (s : list valtype) (x : state) : state :=
  mkState s (altstack x) (vfExec x) (pc x) (pbegincodehash x) (nOpCount x) (signatureCache x).
Definition set_altstack (a : list valtype) (x : state) : state :=
  mkState (stack x) a (vfExec x) (pc x) (pbegincodehash x) (nOpCount x) (signatureCache x).
Definition set_vfExec (e : list bool) (x : state) : state :=
  mkState (stack x) (altstack x) e (pc x) (pbegincodehash x) (nOpCount x) (signatureCache x).
Definition set_pc (p : list Z) (x : state) : state :=
  mkState (stack x) (altstack x) (vfExec x) p (pbegincodehash x) (nOpCount x) (signatureCache x).
Definition set_codehash (p : list Z) (x : state) : state :=
  mkState (stack x) (altstack x) (vfExec x) (pc x) p (nOpCount x) (signatureCache x).
Definition set_opcount (n : Z) (x : state) : state :=
  mkState (stack x) (altstack x) (vfExec x) (pc x) (pbegincodehash x) n (signatureCache x).
Definition set_cache (c : CSignatureCache) (x : state) : state :=
  mkState (stack x) (altstack x) (vfExec x) (pc x) (pbegincodehash x) (nOpCount x) c.

Definition step : Type := state -> res unit * state.

Definition continue (x : state) : res unit * state := (Ret tt, x).
Definition return_false (x : state) : res unit * state := (Throw "return false", x).

(** An operation on the main stack, as a step. *)
Definition on_stack (f : stack_op) : step := fun x =>
  let '(r, s) := f (stack x) in (r, set_stack s x).

(** A condition whose evaluation may go wrong, then a step. *)
Definition branch (c : res bool) (yes no : step) : step := fun x =>
  match c with
  | Ret true => yes x
  | Ret false => no x
  | Throw e => (Throw e, x)
  | Undef => (Undef, x)
  end.

Section Evaluation.
Context `{OpenSSL_BN} {h : Hashes} {ec : EC} {ecdsa : ECDSA ec}.
Context (SHA1 : list Z -> list Z) (GetRandHash : nat -> list Z) (nMaxCacheSize : Z)
  (params : ChainParams.CChainParams).

(** [Params()] and the arguments of the call. *)
Context (txTo : Core.CTransaction) (nIn flags nHashType : Z).

(** *** Control *)

Definition op_if (o : opcodetype) (fExec : bool) : step := fun x =>
  if fExec then
    match stack x with
    | [] => return_false x
    | vch :: r =>
        let fValue := CastToBool vch in
        let fValue := if op_eqb o OP_NOTIF then negb fValue else fValue in
        continue (set_vfExec (fValue :: vfExec x) (set_stack r x))
    end
  else continue (set_vfExec (false :: vfExec x) x).

Definition op_else : step := fun x =>
  match vfExec x with
  | [] => return_false x
  | b :: r => continue (set_vfExec (negb b :: r) x)
  end.

Definition op_endif : step := fun x =>
  match vfExec x with
  | [] => return_false x
  | _ :: r => continue (set_vfExec r x)
  end.

Definition op_verify : step := fun x =>
  match stack x with
  | [] => return_false x
  | vch :: r => if CastToBool vch then continue (set_stack r x) else return_false x
  end.

Definition op_nop_upgradable : step := fun x =>
  if has flags SCRIPT_VERIFY_DISCOURAGE_UPGRADABLE_NOPS then return_false x else continue x.

Definition op_checklocktimeverify : step := fun x =>
  if negb (has flags SCRIPT_VERIFY_CHECKLOCKTIMEVERIFY) then op_nop_upgradable x
  else
    match stack x with
    | [] => return_false x
    | vch :: _ =>
        branch (let* nLockTime := CastToBigNum vch 5 in
                if nLockTime <? 0 then Ret false else CheckLockTime txTo nIn nLockTime)%res
          continue return_false x
    end.

(** *** The alternative stack *)

Definition op_toaltstack : step := fun x =>
  match stack x with
  | [] => return_false x
  | v :: r => continue (set_stack r (set_altstack (v :: altstack x) x))
  end.
Definition op_fromaltstack : step := fun x =>
  match altstack x with
  | [] => return_false x
  | v :: r => continue (set_altstack r (set_stack (v :: stack x) x))
  end.

(** *** Signatures *)

(** The encodings of a signature and a key. *)
Definition encodings_ok (vchSig vchPubKey : valtype) : res bool :=
  (let* b := CheckSignatureEncoding vchSig flags in
   if b then CheckPubKeyEncoding vchPubKey else Ret false)%res.

(** One signature against one key: [None] is the [return false] of strict
    encoding. *)
Definition check_one (c : CSignatureCache) (vchSig vchPubKey scriptCode : valtype)
  : res (option bool) * CSignatureCache :=
  match encodings_ok vchSig vchPubKey with
  | Ret e =>
      if has flags SCRIPT_VERIFY_STRICTENC && negb e then (Ret None, c)
      else if e then
        let '(b, c) := CheckSig GetRandHash nMaxCacheSize params c vchSig vchPubKey scriptCode
                         txTo nIn nHashType flags in
        (Ret (Some b), c)
      else (Ret (Some false), c)
  | Throw e => (Throw e, c)
  | Undef => (Undef, c)
  end.

Definition op_checksig (fVerify : bool) : step := fun x =>
  match stack x with
  | vchPubKey :: vchSig :: r =>
      let scriptCode := snd (FindAndDelete (pbegincodehash x) (push_data vchSig)) in
      let '(fSuccess, c) := check_one (signatureCache x) vchSig vchPubKey scriptCode in
      let x := set_cache c x in
      match fSuccess with
      | Ret None => return_false x
      | Ret (Some b) => on_stack (fun _ => push_verdict fVerify b r) x
      | Throw e => (Throw e, x)
      | Undef => (Undef, x)
      end
  | _ => return_false x
  end.

(** The loop of CHECKMULTISIG over the signatures and keys that are left. *)
Fixpoint multisig_loop (c : CSignatureCache) (sigs keys : list valtype) (scriptCode : valtype)
  : res (option bool) * CSignatureCache :=
  match sigs, keys with
  | [], _ => (Ret (Some true), c)
  | _ :: _, [] => (Undef, c)
  | vchSig :: sigs', vchPubKey :: keys =>
      match check_one c vchSig vchPubKey scriptCode with
      | (Ret (Some fOk), c) =>
          let sigs := if fOk then sigs' else sigs in
          if zlen keys <? zlen sigs then (Ret (Some false), c)
          else multisig_loop c sigs keys scriptCode
      | r => r
      end
  end.

Definition op_checkmultisig (fVerify : bool) : step := fun x =>
  match stack x with
  | [] => return_false x
  | top :: _ =>
      match CastToInt top with
      | Throw e => (Throw e, x)
      | Undef => (Undef, x)
      | Ret nKeysCount =>
          if (nKeysCount <? 0) || (20 <? nKeysCount) then return_false x
          else
            let x := set_opcount (nOpCount x + nKeysCount) x in
            if 201 <? nOpCount x then return_false x
            else if zlen (stack x) <? 2 + nKeysCount then return_false x
            else
              match CastToInt (nth (Z.to_nat (1 + nKeysCount)) (stack x) []) with
              | Throw e => (Throw e, x)
              | Undef => (Undef, x)
              | Ret nSigsCount =>
                  if (nSigsCount <? 0) || (nKeysCount <? nSigsCount) then return_false x
                  else if zlen (stack x) <? 3 + nKeysCount + nSigsCount then return_false x
                  else
                    let keys := firstn (Z.to_nat nKeysCount) (skipn 1 (stack x)) in
                    let sigs := firstn (Z.to_nat nSigsCount)
                                  (skipn (Z.to_nat (2 + nKeysCount)) (stack x)) in
                    let scriptCode :=
                      fold_left (fun code vchSig => snd (FindAndDelete code (push_data vchSig)))
                        sigs (pbegincodehash x) in
                    let '(fSuccess, c) := multisig_loop (signatureCache x) sigs keys scriptCode in
                    let x := set_cache c x in
                    match fSuccess with
                    | Ret None => return_false x
                    | Ret (Some b) =>
                        let rest := skipn (Z.to_nat (2 + nKeysCount + nSigsCount)) (stack x) in
                        match rest with
                        | [] => return_false (set_stack rest x)
                        | dummy :: r =>
                            if has flags SCRIPT_VERIFY_NULLDUMMY && negb (zlen dummy =? 0)
                            then return_false (set_stack rest x)
                            else on_stack (fun _ => push_verdict fVerify b r) x
                        end
                    | Throw e => (Throw e, x)
                    | Undef => (Undef, x)
                    end
              end
      end
  end.

(** ** One instruction *)

Definition exec_op (o : opcodetype) (fExec : bool) : step := fun x =>
  match o with
  | OP_NOP => continue x
  | OP_CHECKLOCKTIMEVERIFY => op_checklocktimeverify x
  | OP_NOP1 | OP_NOP3 | OP_NOP4 | OP_NOP5 | OP_NOP6 | OP_NOP7 | OP_NOP8 | OP_NOP9 =>
      op_nop_upgradable x
  | OP_IF | OP_NOTIF => op_if o fExec x
  | OP_ELSE => op_else x
  | OP_ENDIF => op_endif x
  | OP_VERIFY => op_verify x
  | OP_RETURN => return_false x
  | OP_TOALTSTACK => op_toaltstack x
  | OP_FROMALTSTACK => op_fromaltstack x
  | OP_CODESEPARATOR => continue (set_codehash (pc x) x)
  | OP_CHECKSIG => op_checksig false x
  | OP_CHECKSIGVERIFY => op_checksig true x
  | OP_CHECKMULTISIG => op_checkmultisig false x
  | OP_CHECKMULTISIGVERIFY => op_checkmultisig true x
  | _ => on_stack (pure_op SHA1 o) x
  end.

Definition size_limit : step := fun x =>
  if 1000 <? zlen (stack x) + zlen (altstack x) then return_false x else continue x.

(** The body of the [while (pc < pend)] loop. *)
Definition instruction : step := fun x =>
  let fExec := forallb (fun b => b) (vfExec x) in
  let g := GetOp2 (pc x) in
  let o := opcode g in
  if negb (ok g) then return_false x
  else if MAX_SCRIPT_ELEMENT_SIZE <? zlen (vch g) then return_false x
  else
    let x := set_pc (Script.pc g) x in
    let x := if code OP_16 <? code o then set_opcount (nOpCount x + 1) x else x in
    if (code OP_16 <? code o) && (201 <? nOpCount x) then return_false x
    else if disabled o then return_false x
    else
      let run :=
        if fExec && (0 <=? code o) && (code o <=? code OP_PUSHDATA4)
        then continue (set_stack (vch g :: stack x) x)
        else if fExec || ((code OP_IF <=? code o) && (code o <=? code OP_ENDIF))
        then exec_op o fExec x
        else continue x in
      match run with
      | (Ret tt, x) => size_limit x
      | r => r
      end.

(** An instruction has a byte at least: as many rounds as bytes are enough. *)
Fixpoint EvalScript_loop (fuel : nat) : step := fun x =>
  match fuel, pc x with
  | _, [] => continue x
  | O, _ => (Undef, x)
  | S fuel, _ =>
      match instruction x with
      | (Ret tt, x) => EvalScript_loop fuel x
      | r => r
      end
  end.

(** The result, and the stack and the signature cache it leaves. *)
Definition EvalScript (c : CSignatureCache) (stack0 : list valtype) (script : list Z)
  : res bool * list valtype * CSignatureCache :=
  if 10000 <? zlen script then (Ret false, stack0, c)
  else
    let '(r, x) := EvalScript_loop (List.length script) (mkState stack0 [] [] script script 0 c) in
    let b :=
      match r with
      | Ret tt => Ret (match vfExec x with [] => true | _ => false end)
      | Throw _ => Ret false
      | Undef => Undef
      end in
    (b, stack x, signatureCache x).

Definition VerifyScript (c : CSignatureCache) (scriptSig scriptPubKey : list Z)
  : res bool * CSignatureCache :=
  match EvalScript c [] scriptSig with
  | (Ret true, stack1, c) =>
      let stackCopy := stack1 in
      match EvalScript c stack1 scriptPubKey with
      | (Ret true, stack2, c) =>
          match stack2 with
          | [] => (Ret false, c)
          | back :: _ =>
              if negb (CastToBool back) then (Ret false, c)
              else if has flags SCRIPT_VERIFY_P2SH && IsPayToScriptHash scriptPubKey then
                if negb (IsPushOnly scriptSig) then (Ret false, c)
                else
                  match stackCopy with
                  | [] => (Undef, c)
                  | pubKeySerialized :: stackCopy =>
                      match EvalScript c stackCopy pubKeySerialized with
                      | (Ret true, [], c) => (Ret false, c)
                      | (Ret true, back :: _, c) => (Ret (CastToBool back), c)
                      | (r, _, c) => (r, c)
                      end
                  end
              else (Ret true, c)
          end
      | (r, _, c) => (r, c)
      end
  | (r, _, c) => (r, c)
  end.

End Evaluation.

(** ** Limits *)

(** What the stacks hold. *)
Definition elem_ok (v : valtype) : Prop := bytes_ok v /\ zlen v <= MAX_SCRIPT_ELEMENT_SIZE.

Lemma mpi_value_bound p : bytes_ok p -> Z.abs (mpi_value p) <= 2 ^ (8 * zlen p).
Proof.
  intros B. destruct p as [|b t]; [cbn; lia|]. cbn [mpi_value].
  pose proof (be_val_range _ B) as R. inversion_clear B as [|? ? Hb Ht]. unfold in_u in Hb.
  destruct (b <? 128) eqn:E; zbool; [lia|].
  rewrite be_val_cons in *. pose proof (be_val_range t Ht).
  assert (0 < 2 ^ (8 * zlen t)) by (apply Z.pow_pos_nonneg; pose proof (zlen_nonneg t); lia). nia.
Qed.

Lemma small_fits z n : Z.abs z <= 2 ^ n -> 0 <= n < 1000 -> bn_fits z.
Proof.
  intros H Hn. unfold bn_fits. apply Z.log2_le_mono in H. rewrite Z.log2_pow2 in H by lia. lia.
Qed.

Section Limits.
Context `{HB : OpenSSL_BN} `{HL : !OpenSSL_BN_laws} {h : Hashes} {hl : Hashes_laws h}.
Context (SHA1 : list Z -> list Z) (SHA1_ok : forall m, elem_ok (SHA1 m)).

Lemma CastToBigNum_small v n z : elem_ok v -> 0 <= n <= 5 -> CastToBigNum v n = Ret z ->
  Z.abs z <= 2 ^ 40.
Proof.
  intros [B _] Hn. unfold CastToBigNum. destruct (n <? zlen v) eqn:E; [discriminate|]. zbool.
  pose proof (zlen_nonneg v). intros E1. injection E1 as <-.
  assert (Z.abs (CBigNum.setvch v) <= 2 ^ 40) as S.
  { rewrite CBigNum.setvch_value by (auto; lia). apply Forall_rev in B.
    pose proof (mpi_value_bound (rev v) B) as M. rewrite zlen_rev in M.
    assert (2 ^ (8 * zlen v) <= 2 ^ 40) by (apply Z.pow_le_mono_r; lia). lia. }
  rewrite CBigNum.setvch_getvch; [easy|]. apply (small_fits _ 40); lia.
Qed.

Lemma getvch_elem z : Z.abs z <= 2 ^ 50 -> elem_ok (CBigNum.getvch z).
Proof.
  intros H. assert (bn_fits z) as F by (apply (small_fits _ 50); lia). split.
  - destruct (CBigNum.getvch_value z F) as (p & -> & Hp & _). now apply Forall_rev.
  - rewrite CBigNum.getvch_length by easy. unfold CBigNum.mpi_length, MAX_SCRIPT_ELEMENT_SIZE.
    destruct (z =? 0); [lia|]. apply Z.log2_le_mono in H. rewrite Z.log2_pow2 in H by lia.
    assert ((Z.log2 (Z.abs z) + 1) / 8 < 500); [|lia]. apply Z.div_lt_upper_bound; lia.
Qed.

Lemma of_int_small n : in_s 32 n -> CBigNum.of_int n = n.
Proof.
  unfold CBigNum.of_int, in_s. intros H. destruct (0 <=? n); [easy|].
  apply CBigNum.setint64_value. unfold in_s. lia.
Qed.

Lemma unary_small o z : Z.abs z <= 2 ^ 40 -> Z.abs (unary o z) <= 2 ^ 50.
Proof. intros H. destruct o; cbn [unary]; unfold bn_bool; repeat zcase; lia. Qed.

Lemma binary_small o a b : Z.abs a <= 2 ^ 40 -> Z.abs b <= 2 ^ 40 -> Z.abs (binary o a b) <= 2 ^ 50.
Proof. intros H1 H2. destruct o; cbn [binary]; unfold bn_bool; repeat zcase; lia. Qed.

Lemma vch_bool_elem b : elem_ok (vch_bool b).
Proof. destruct b; split; try easy; now repeat constructor. Qed.

Lemma digest_elem d n : bytes_ok d -> zlen d = n -> n <= 520 -> elem_ok d.
Proof. intros B <- L. now split. Qed.

(** An operation leaves good elements, three more at most, and no undefined
    behaviour. *)
Definition op_spec (f : stack_op) : Prop := forall s, Forall elem_ok s -> zlen s <= 1000 ->
  fst (f s) <> Undef /\ Forall elem_ok (snd (f s)) /\ zlen (snd (f s)) <= zlen s + 3.

Lemma with_num_spec {A} (c : res Z) (k : Z -> SE (list valtype) A) s P :
  c <> Undef ->
  (forall e, c = Throw e -> P (@Throw A e, s)) -> (forall z, c = Ret z -> P (k z s)) ->
  P (with_num c k s).
Proof. unfold with_num. intros N T K. destruct c; auto. now destruct N. Qed.

Lemma CastToBigNum_def v n : CastToBigNum v n <> Undef.
Proof. unfold CastToBigNum. now destruct (_ <? _). Qed.

Lemma CastToInt_def v : CastToInt v <> Undef.
Proof. unfold CastToInt, CastToBigNum. now destruct (_ <? _). Qed.

Lemma push_verdict_spec b v r : Forall elem_ok r ->
  fst (push_verdict b v r) <> Undef /\ Forall elem_ok (snd (push_verdict b v r)) /\
  zlen (snd (push_verdict b v r)) <= zlen r + 1.
Proof.
  intros F. unfold push_verdict.
  destruct b; [destruct v|]; cbn [fst snd ok_with false_with]; autorewrite with lists;
    splits; try discriminate; try lia; auto; constructor; auto; [|apply vch_bool_elem].
  split; [constructor|easy].
Qed.

(** Takes the elements that an operation looks at off the stack. *)
Ltac operands s :=
  destruct s as [|? [|? [|? [|? [|? [|? ?]]]]]];
  repeat match goal with H : Forall elem_ok (_ :: _) |- _ => inversion_clear H end.

(** The result of an operation that moves or adds good elements. *)
Ltac result :=
  cbn [fst snd ok_with false_with];
  splits; try discriminate; autorewrite with lists in *;
  repeat match goal with |- Forall _ _ => first [assumption | constructor] end;
  auto using vch_bool_elem; try (unfold valtype in *; lia).

(** Case analysis on the number an operation casts its operand to. *)
Ltac num_case :=
  match goal with
  | |- context [with_num ?c ?k ?s] =>
      pattern (with_num c k s); apply with_num_spec;
        [first [apply CastToBigNum_def|apply CastToInt_def]|intros ? _; cbv beta; result|]
  end.

Lemma op_pick_spec b : op_spec (op_pick b).
Proof.
  intros s F L. unfold op_pick. destruct s as [|x [|y r]]; try solve [result].
  inversion_clear F as [|? ? Hx Fr]. num_case.
  intros n _. cbv beta zeta. set (q := y :: r) in *. clearbody q. rewrite zlen_cons in *.
  destruct ((n <? 0) || (zlen q <=? n)) eqn:E; [result|]. zbool.
  assert (elem_ok (nth (Z.to_nat n) q [])) as Hn.
  { rewrite Forall_forall in Fr. apply Fr, nth_In. unfold zlen in *. lia. }
  destruct b; [|result].
  assert (Forall elem_ok (firstn (Z.to_nat n) q ++ skipn (S (Z.to_nat n)) q)) as G.
  { apply Forall_app. split; [apply Forall_firstn_n|apply Forall_skipn_n]; easy. }
  assert (zlen (firstn (Z.to_nat n) q ++ skipn (S (Z.to_nat n)) q) <= zlen q) as GL
    by (unfold zlen; rewrite length_app, length_firstn, length_skipn; lia).
  cbn [fst snd ok_with]. splits; [discriminate|now constructor|rewrite zlen_cons; lia].
Qed.

Lemma op_unary_spec o : op_spec (op_unary o).
Proof.
  intros s F L. unfold op_unary. destruct s as [|x r]; [result|].
  inversion_clear F as [|? ? Hx Fr].
  num_case. intros z E.
  pose proof (CastToBigNum_small x nDefaultMaxNumSize z Hx ltac:(unfold nDefaultMaxNumSize; lia) E) as S.
  pose proof (getvch_elem _ (unary_small o z S)). result.
Qed.

Lemma op_binary_spec o : op_spec (op_binary o).
Proof.
  intros s F L. unfold op_binary. destruct s as [|x2 [|x1 r]]; try solve [result].
  inversion_clear F as [|? ? H2 F']. inversion_clear F' as [|? ? H1 Fr].
  num_case. intros a Ea.
  num_case. intros b Eb.
  pose proof (CastToBigNum_small x1 nDefaultMaxNumSize a H1 ltac:(unfold nDefaultMaxNumSize; lia) Ea) as S1.
  pose proof (CastToBigNum_small x2 nDefaultMaxNumSize b H2 ltac:(unfold nDefaultMaxNumSize; lia) Eb) as S2.
  pose proof (getvch_elem _ (binary_small o a b S1 S2)). cbv zeta.
  destruct (op_eqb _ _); [destruct (CastToBool _)|]; result.
Qed.

Lemma op_within_spec : op_spec op_within.
Proof.
  intros s F L. unfold op_within. destruct s as [|x3 [|x2 [|x1 r]]]; try solve [result].
  do 3 (num_case; intros ? _).
  repeat match goal with H : Forall elem_ok (_ :: _) |- _ => inversion_clear H end. result.
Qed.

Lemma op_hash_spec o : op_spec (op_hash SHA1 o).
Proof.
  intros s F L. unfold op_hash. destruct s as [|x r]; [result|].
  inversion_clear F as [|? ? Hx Fr].
  assert (elem_ok match o with OP_RIPEMD160 => RIPEMD160 x | OP_SHA1 => SHA1 x
    | OP_SHA256 => SHA256 x | OP_HASH160 => Hash160 x | _ => Hash x end); [|result].
  destruct o; auto; first
    [apply (digest_elem _ 20); [apply RIPEMD160_bytes|apply RIPEMD160_size|lia]
    |apply (digest_elem _ 32); [apply SHA256_bytes|apply SHA256_size|lia]].
Qed.

Lemma pure_op_spec o : op_spec (pure_op SHA1 o).
Proof.
  assert (forall z, - 1000 <= z <= 1000 -> elem_ok (CBigNum.getvch z)) as G
    by (intros; apply getvch_elem; lia).
  assert (forall v, elem_ok v -> elem_ok (CBigNum.getvch (zlen v))) as GS.
  { intros v [_ L]. apply G. pose proof (zlen_nonneg v). unfold MAX_SCRIPT_ELEMENT_SIZE in L. lia. }
  assert (op_spec fail) as D by (intros s F L; unfold fail, se_throw; result).
  assert (forall o, -1 <= code o - (code OP_1 - 1) <= 16 -> op_spec (op_number o)) as N.
  { intros o' Ho s F L. unfold op_number. rewrite of_int_small by (unfold in_s; lia).
    pose proof (G (code o' - (code OP_1 - 1)) ltac:(lia)). result. }
  assert (forall s : list valtype, zlen s <= 1000 -> elem_ok (CBigNum.getvch (zlen s))) as GL.
  { intros s L. apply G. pose proof (zlen_nonneg s). lia. }
  destruct o; cbn [pure_op]; auto using op_pick_spec, op_unary_spec, op_binary_spec, op_within_spec,
    op_hash_spec; try (apply N; cbn; lia); intros s F L.
  all: pose proof (vch_bool_elem false : elem_ok vchFalse); specialize (GL s L).
  all: unfold op_2drop, op_2dup, op_3dup, op_2over, op_2rot, op_2swap, op_ifdup, op_depth, op_drop,
    op_dup, op_nip, op_over, op_rot, op_swap, op_tuck, op_size, op_equal, push_verdict; operands s.
  all: repeat match goal with |- context [if ?b then _ else _] => destruct b end; result.
Qed.

End Limits.

End Interp.
