(* ===== verification/Js.v ===== *)
(** * JavaScript numbers and strings

    What the plugins of the wallet's user interface (src/src/qt/res/assets/plugins)
    use of the language.  A number that the code only ever computes with integers
    below 2^53 is a [Z]: IEEE doubles add and subtract those exactly.  The bit
    operators work on their 32-bit conversions.  A string is the list of its
    UTF-16 code units, an array the list of its elements. *)

From Stdlib Require Import ZArith Lia List String Ascii Bool.
From S2P Require Import Prelude.
Import ListNotations.
#[local] Open Scope Z_scope.

Declare Scope js_scope.
Delimit Scope js_scope with js.

(** ToInt32 and ToUint32 of an integer are [i32] and [u32]. *)

Definition js_and (a b : Z) : Z := Z.land (i32 a) (i32 b).
Definition js_or (a b : Z) : Z := Z.lor (i32 a) (i32 b).
Definition js_xor (a b : Z) : Z := Z.lxor (i32 a) (i32 b).
Definition js_not (a : Z) : Z := Z.lnot (i32 a).
Definition js_shl (a n : Z) : Z := i32 (Z.shiftl (i32 a) (n mod 32)).
Definition js_sar (a n : Z) : Z := Z.shiftr (i32 a) (n mod 32).
Definition js_shr (a n : Z) : Z := Z.shiftr (u32 a) (n mod 32).

Infix ".&" := js_and (at level 41, left associativity) : js_scope.
Infix ".^" := js_xor (at level 42, left associativity) : js_scope.
Infix ".|" := js_or (at level 43, left associativity) : js_scope.
Infix "<<<" := js_shl (at level 54, left associativity) : js_scope.
Infix ">>" := js_sar (at level 54, left associativity) : js_scope.
Infix ">>>" := js_shr (at level 54, left associativity) : js_scope.
Notation "'~~' a" := (js_not a) (at level 35, right associativity) : js_scope.

(** ** Conversions modulo 2^32 *)

Lemma wraps_mod w z : 0 < w -> wraps w z mod 2 ^ w = z mod 2 ^ w.
Proof.
  intros Hw. unfold wraps. rewrite Zminus_mod_idemp_l. f_equal. lia.
Qed.

Lemma wrapu_wraps w z : 0 < w -> wrapu w (wraps w z) = wrapu w z.
Proof. apply wraps_mod. Qed.

Lemma wraps_wrapu_any w z : 0 < w -> wraps w (wrapu w z) = wraps w z.
Proof.
  intros Hw. unfold wraps, wrapu. rewrite Z.add_mod_idemp_l; [easy|].
  apply Z.pow_nonzero; lia.
Qed.

Lemma wrapu_testbit w z i : 0 <= w -> 0 <= i -> Z.testbit (wrapu w z) i = (i <? w) && Z.testbit z i.
Proof.
  intros Hw Hi. unfold wrapu. destruct (Z.ltb_spec i w).
  - now rewrite Z.mod_pow2_bits_low by lia.
  - now rewrite Z.mod_pow2_bits_high by lia.
Qed.

Lemma wraps_testbit w z i : 0 < w -> 0 <= i < w -> Z.testbit (wraps w z) i = Z.testbit z i.
Proof.
  intros Hw Hi. pose proof (wrapu_testbit w (wraps w z) i ltac:(lia) ltac:(lia)) as H.
  rewrite wrapu_wraps, wrapu_testbit, (proj2 (Z.ltb_lt i w)) in H by lia. now cbn in H.
Qed.

(** Equality of words bit by bit. *)
Lemma wrapu_ext w a b : 0 <= w ->
  (forall i, 0 <= i < w -> Z.testbit a i = Z.testbit b i) -> wrapu w a = wrapu w b.
Proof.
  intros Hw H. apply Z.bits_inj'. intros i Hi. rewrite !wrapu_testbit by lia.
  destruct (Z.ltb_spec i w); [|easy]. cbn. apply H. lia.
Qed.

Lemma u32_xor a b : u32 (js_xor a b) = Z.lxor (u32 a) (u32 b).
Proof.
  apply Z.bits_inj'. intros i Hi. unfold js_xor.
  rewrite Z.lxor_spec, !wrapu_testbit, Z.lxor_spec by lia.
  destruct (Z.ltb_spec i 32); cbn; [|easy]. now rewrite !wraps_testbit by lia.
Qed.

Lemma u32_and a b : u32 (js_and a b) = Z.land (u32 a) (u32 b).
Proof.
  apply Z.bits_inj'. intros i Hi. unfold js_and.
  rewrite Z.land_spec, !wrapu_testbit, Z.land_spec by lia.
  destruct (Z.ltb_spec i 32); cbn; [|easy]. now rewrite !wraps_testbit by lia.
Qed.

Lemma u32_or a b : u32 (js_or a b) = Z.lor (u32 a) (u32 b).
Proof.
  apply Z.bits_inj'. intros i Hi. unfold js_or.
  rewrite Z.lor_spec, !wrapu_testbit, Z.lor_spec by lia.
  destruct (Z.ltb_spec i 32); cbn; [|easy]. now rewrite !wraps_testbit by lia.
Qed.

Lemma u32_not a : u32 (js_not a) = Z.lxor (u32 a) (2 ^ 32 - 1).
Proof.
  apply Z.bits_inj'. intros i Hi. unfold js_not.
  replace (2 ^ 32 - 1) with (Z.ones 32) by reflexivity.
  rewrite Z.lxor_spec, !wrapu_testbit, Z.lnot_spec by lia.
  destruct (Z.ltb_spec i 32).
  - rewrite wraps_testbit, Z.ones_spec_low by lia. now destruct (Z.testbit a i).
  - now rewrite Z.ones_spec_high by lia.
Qed.

Lemma u32_shl a n : 0 <= n < 32 -> u32 (js_shl a n) = u32 (Z.shiftl (u32 a) n).
Proof.
  intros Hn. unfold js_shl. rewrite Z.mod_small, wrapu_wraps by lia.
  apply wrapu_ext; [lia|]. intros i Hi. rewrite !Z.shiftl_spec by lia.
  destruct (Z.ltb_spec (i - n) 0); [now rewrite !Z.testbit_neg_r by lia|].
  rewrite wraps_testbit, wrapu_testbit, (proj2 (Z.ltb_lt _ _)) by lia. easy.
Qed.

Lemma u32_shr a n : 0 <= n < 32 -> u32 (js_shr a n) = Z.shiftr (u32 a) n.
Proof.
  intros Hn. unfold js_shr. rewrite Z.mod_small by lia. apply wrapu_id. unfold in_u.
  pose proof (wrapu_range 32 a ltac:(lia)) as [H1 H2]. rewrite Z.shiftr_div_pow2 by lia.
  split; [apply Z.div_pos; lia|]. eapply Z.le_lt_trans; [|exact H2].
  apply Z.div_le_upper_bound; [lia|]. assert (0 < 2 ^ n) by (apply Z.pow_pos_nonneg; lia). nia.
Qed.

Lemma u32_add a b : u32 (a + b) = u32 (u32 a + u32 b).
Proof. unfold wrapu. now rewrite Zplus_mod. Qed.

Lemma u32_of_i32 x : u32 (i32 x) = u32 x.
Proof. now apply wrapu_wraps. Qed.

Lemma u32_of_u32 x : u32 (u32 x) = u32 x.
Proof. apply wrapu_wrapu. Qed.

(** [(x >> s) & 0xF]-like fields of a word that may be negative. *)
Lemma sar_field x s k : 0 <= s -> 0 <= k -> s + k <= 32 ->
  Z.land (Z.shiftr (i32 x) s) (2 ^ k - 1) = (u32 x / 2 ^ s) mod 2 ^ k.
Proof.
  intros Hs Hk H. rewrite land_low by easy. rewrite <- Z.shiftr_div_pow2 by easy.
  apply wrapu_ext; [easy|]. intros i Hi. rewrite !Z.shiftr_spec by lia.
  rewrite wraps_testbit, wrapu_testbit, (proj2 (Z.ltb_lt _ _)) by lia. easy.
Qed.

(** ** Words as bytes *)

Lemma le_bytes_wrap n z : le_bytes n (wrapu (8 * Z.of_nat n) z) = le_bytes n z.
Proof.
  assert (H : List.length (le_bytes n z) = n) by apply length_le_bytes.
  rewrite <- (le_bytes_val (le_bytes n z)) at 1 by apply le_bytes_ok. rewrite H, le_val_bytes.
  unfold wrapu. reflexivity.
Qed.

Lemma le_bytes_u32 z : le_bytes 4 (u32 z) = le_bytes 4 z.
Proof. apply (le_bytes_wrap 4). Qed.

Lemma le_val_u32 z : le_val (le_bytes 4 z) = u32 z.
Proof. apply le_val_bytes. Qed.

(** ** Operators on small numbers and fields of words *)

#[local] Open Scope js_scope.

Lemma i32_small z : 0 <= z < 2 ^ 31 -> i32 z = z.
Proof. intros H. apply wraps_id; [lia|]. unfold in_s. cbn. lia. Qed.

Lemma sar_small c n : 0 <= c < 2 ^ 31 -> 0 <= n < 32 -> c >> n = c / 2 ^ n.
Proof. intros Hc Hn. unfold js_sar. rewrite i32_small, Z.mod_small, Z.shiftr_div_pow2 by lia. reflexivity. Qed.

Lemma and_mask c k : 0 <= c < 2 ^ 31 -> 0 <= k <= 31 -> c .& (2 ^ k - 1) = c mod 2 ^ k.
Proof.
  intros Hc Hk. assert (2 ^ k <= 2 ^ 31) by (apply Z.pow_le_mono_r; lia).
  assert (0 < 2 ^ k) by (apply Z.pow_pos_nonneg; lia).
  unfold js_and. rewrite !i32_small by lia. apply land_low. lia.
Qed.

Lemma or_add h k lo : 0 <= k -> 0 <= lo < 2 ^ k -> 0 <= h -> h * 2 ^ k + lo < 2 ^ 31 -> (h * 2 ^ k) .| lo = h * 2 ^ k + lo.
Proof.
  intros Hk Hl Hh H. unfold js_or. rewrite !i32_small by nia.
  rewrite <- Z.shiftl_mul_pow2, lor_shiftl_add, Z.shiftl_mul_pow2 by lia. reflexivity.
Qed.

(** [(h >> s) & mask] is a field of the word. *)
Lemma word_field h s k : 0 <= s < 32 -> 0 <= k <= 31 -> s + k <= 32 ->
  (h >> s) .& (2 ^ k - 1) = (u32 h / 2 ^ s) mod 2 ^ k.
Proof.
  intros Hs Hk H. unfold js_and, js_sar. rewrite Z.mod_small by lia.
  assert (2 ^ k <= 2 ^ 31) by (apply Z.pow_le_mono_r; lia). assert (0 < 2 ^ k) by (apply Z.pow_pos_nonneg; lia).
  rewrite (i32_small (2 ^ k - 1)) by lia. rewrite (wraps_id 32 (Z.shiftr _ _)); [apply sar_field; lia|lia|].
  pose proof (wraps_range 32 h ltac:(lia)) as R. unfold in_s in *. change (2 ^ (32 - 1)) with (2 ^ 31) in *.
  rewrite Z.shiftr_div_pow2 by lia. assert (0 < 2 ^ s) by (apply Z.pow_pos_nonneg; lia).
  split; [apply Z.div_le_lower_bound; nia|apply Z.div_lt_upper_bound; nia].
Qed.

Lemma low_field h k : 0 <= k <= 31 -> h .& (2 ^ k - 1) = u32 h mod 2 ^ k.
Proof.
  intros Hk. pose proof (word_field h 0 k ltac:(lia) Hk ltac:(lia)) as E. rewrite Z.div_1_r in E. rewrite <- E.
  unfold js_and, js_sar. change (0 mod 32) with 0. rewrite Z.shiftr_0_r.
  rewrite (wraps_id 32 (wraps 32 h)) by (lia || (apply wraps_range; lia)). reflexivity.
Qed.

(** ** Strings *)

(** A string literal. *)
Definition js (s : string) : list Z :=
  map (fun c => Z.of_nat (nat_of_ascii c)) (list_ascii_of_string s).

Fixpoint str_eqb (a b : list Z) : bool :=
  match a, b with
  | [], [] => true
  | x :: a, y :: b => (x =? y) && str_eqb a b
  | _, _ => false
  end.

Lemma str_eqb_spec a b : reflect (a = b) (str_eqb a b).
Proof.
  revert b. induction a as [|x a IH]; intros [|y b]; cbn; try (constructor; congruence).
  destruct (Z.eqb_spec x y); cbn; [|constructor; congruence].
  destruct (IH b); constructor; congruence.
Qed.

Lemma str_eqb_eq a b : str_eqb a b = true <-> a = b.
Proof. destruct (str_eqb_spec a b); split; congruence. Qed.

Lemma str_eqb_true a b : str_eqb a b = true -> a = b.
Proof. apply str_eqb_eq. Qed.

Lemma str_eqb_refl a : str_eqb a a = true.
Proof. now apply str_eqb_eq. Qed.

(** [s.charAt(i)] as a string, [s.substr(from)] with a negative start, [s.indexOf] of a
    character. *)
Definition char_at (s : list Z) (i : Z) : list Z :=
  if i <? 0 then [] else firstn 1 (skipn (Z.to_nat i) s).

(** Hexadecimal digits, lower case. *)
Definition hex_digit (d : Z) : Z := if d <? 10 then 48 + d else 87 + d.

Lemma js_app a b : js (String.append a b) = js a ++ js b.
Proof. unfold js. induction a; cbn; [easy|]. now rewrite IHa. Qed.

(** The code units of a UTF-8 text below U+10000. *)
Fixpoint utf16_of_utf8 (l : list Z) : list Z :=
  match l with
  | [] => []
  | b :: r =>
      if b <? 128 then b :: utf16_of_utf8 r
      else match r with
           | [] => []
           | c :: r' =>
               if b <? 224 then ((b - 192) * 64 + (c - 128)) :: utf16_of_utf8 r'
               else match r' with
                    | [] => []
                    | d :: r'' => ((b - 224) * 4096 + (c - 128) * 64 + (d - 128)) :: utf16_of_utf8 r''
                    end
           end
  end.

(** The value of a hexadecimal digit, either case: [parseInt(c, 16)] of one character. *)
Definition hex_value (c : Z) : option Z :=
  if (48 <=? c) && (c <=? 57) then Some (c - 48)
  else if (65 <=? c) && (c <=? 70) then Some (c - 55)
  else if (97 <=? c) && (c <=? 102) then Some (c - 87)
  else None.

Definition hex_val0 (c : Z) : Z := match hex_value c with Some v => v | None => 0 end.

(** The escapes of a string literal: four hexadecimal digits after [\u], any other
    character stands for itself. *)
Fixpoint unescape (l : list Z) : list Z :=
  match l with
  | [] => []
  | c :: r =>
      if c =? 92 then
        match r with
        | [] => []
        | e :: r' =>
            if e =? 117 then
              match r' with
              | a :: b :: c :: d :: r'' =>
                  (((hex_val0 a * 16 + hex_val0 b) * 16 + hex_val0 c) * 16 + hex_val0 d) :: unescape r''
              | _ => []
              end
            else e :: unescape r'
        end
      else c :: unescape r
  end.

(** A string literal as it stands between the quotes of the source. *)
Definition js_lit (s : string) : list Z := unescape (utf16_of_utf8 (js s)).
