(* ===== verification/Regex.v ===== *)
(** * Regular expressions of the language

    The part of ECMAScript's RegExp that the plugins use, as the standard defines it: a
    pattern is a matcher in continuation-passing style, so alternatives are tried from left
    to right and a quantifier backtracks.  [matches_at] is one attempt at a position,
    [replace_all] is String.prototype.replace with a global pattern and a callback,
    [parse_alternatives] reads the source of a pattern that is a disjunction of literal
    texts. *)

From Stdlib Require Import ZArith Lia List Bool.
From S2P Require Import Prelude Js.
Import ListNotations.
#[local] Open Scope Z_scope.

(** One-character matchers. *)
Inductive atom : Type :=
| Lit (c : Z)                   (* the character *)
| NoneOf (cs : list Z)           (* [^...] *)
| Dot                           (* . *)
| Space                         (* \s *)
| OneOf (cs : list Z).             (* [...] *)

Inductive regex : Type :=
| Empty
| Atom (a : atom)
| Seq (r1 r2 : regex)
| Alt (r1 r2 : regex)
| Star (a : atom)               (* a*, greedy *)
| LazyStar (a : atom)           (* a*? *)
| Group (n : nat) (r : regex)   (* the n-th capture *)
| Look (r : regex)              (* (?=r) *)
| Begin                         (* ^ *)
| End.                          (* $ *)

(** [Canonicalize] for the i flag.  It is exact on ASCII and on the characters of the
    patterns it is used with: the only other character there that shares its upper case
    with a second character is U+24C2 (with U+24DC). *)
Definition canonicalize (c : Z) : Z :=
  if (97 <=? c) && (c <=? 122) then c - 32
  else if c =? 0x24DC then 0x24C2 else c.

Definition is_line_end (c : Z) : bool := existsb (Z.eqb c) [10; 13; 0x2028; 0x2029].

(** WhiteSpace and LineTerminator. *)
Definition is_space (c : Z) : bool :=
  is_line_end c || existsb (Z.eqb c) [9; 11; 12; 32; 0xA0; 0x1680; 0x180E; 0x202F; 0x205F; 0x3000; 0xFEFF]
  || ((0x2000 <=? c) && (c <=? 0x200A)).

Definition same_char (icase : bool) (a b : Z) : bool :=
  if icase then canonicalize a =? canonicalize b else a =? b.

Definition atom_matches (icase : bool) (a : atom) (c : Z) : bool :=
  match a with
  | Lit x => same_char icase x c
  | NoneOf cs => negb (existsb (fun x => same_char icase x c) cs)
  | Dot => negb (is_line_end c)
  | Space => is_space c
  | OneOf cs => existsb (fun x => same_char icase x c) cs
  end.

(** The state of a match: whether nothing of the input precedes it, what is left of the
    input, and the captures, the latest first. *)
Record mstate : Type := MState {
  at_start : bool;
  rest : list Z;
  captures : list (nat * list Z)
}.

Definition advance (st : mstate) (s : list Z) : mstate :=
  {| at_start := false; rest := s; captures := captures st |}.

(** What a state has consumed since another. *)
Definition consumed (before after : list Z) : list Z :=
  firstn (length before - length after) before.

Section Matcher.

Variable icase : bool.

Definition cont : Type := mstate -> option mstate.

Definition orelse {A} (a : option A) (b : option A) : option A :=
  match a with Some _ => a | None => b end.

Fixpoint star (a : atom) (c : list (nat * list Z)) (start : bool) (s : list Z) (k : cont) : option mstate :=
  let here := k {| at_start := start; rest := s; captures := c |} in
  match s with
  | x :: s' =>
      if atom_matches icase a x
      then match star a c false s' k with Some st => Some st | None => here end
      else here
  | [] => here
  end.

Fixpoint lazy_star (a : atom) (c : list (nat * list Z)) (start : bool) (s : list Z) (k : cont) : option mstate :=
  match k {| at_start := start; rest := s; captures := c |} with
  | Some st => Some st
  | None =>
      match s with
      | x :: s' => if atom_matches icase a x then lazy_star a c false s' k else None
      | [] => None
      end
  end.

Fixpoint run (r : regex) (k : cont) (st : mstate) : option mstate :=
  match r with
  | Empty => k st
  | Atom a =>
      match rest st with
      | x :: s' => if atom_matches icase a x then k (advance st s') else None
      | [] => None
      end
  | Seq r1 r2 => run r1 (run r2 k) st
  | Alt r1 r2 => match run r1 k st with Some x => Some x | None => run r2 k st end
  | Star a => star a (captures st) (at_start st) (rest st) k
  | LazyStar a => lazy_star a (captures st) (at_start st) (rest st) k
  | Group n r =>
      run r (fun st' => k {| at_start := at_start st'; rest := rest st';
                             captures := (n, consumed (rest st) (rest st')) :: captures st' |}) st
  | Look r =>
      match run r Some st with
      | Some st' => k {| at_start := at_start st; rest := rest st; captures := captures st' |}
      | None => None
      end
  | Begin => if at_start st then k st else None
  | End => match rest st with [] => k st | _ => None end
  end.

(** One attempt at a position: the text left after the match and the captures. *)
Definition matches_at (r : regex) (start : bool) (s : list Z) : option mstate :=
  run r Some {| at_start := start; rest := s; captures := [] |}.

(** The n-th capture; [None] is undefined. *)
Fixpoint capture (n : nat) (c : list (nat * list Z)) : option (list Z) :=
  match c with
  | [] => None
  | (m, t) :: c => if Nat.eqb m n then Some t else capture n c
  end.

(** [s.replace(r, f)] with a global pattern.  [skip] counts the characters of the last
    match that are still to be passed. *)
Fixpoint replace_from (r : regex) (f : list Z -> list (nat * list Z) -> list Z)
    (start : bool) (skip : nat) (s : list Z) : list Z :=
  match s with
  | [] =>
      match skip with
      | O => match matches_at r start [] with Some st => f [] (captures st) | None => [] end
      | S _ => []
      end
  | c :: s' =>
      match skip with
      | S k => replace_from r f false k s'
      | O =>
          match matches_at r start s with
          | Some st =>
              let m := consumed s (rest st) in
              f m (captures st) ++
              match m with
              | [] => c :: replace_from r f false 0 s'
              | _ :: m' => replace_from r f false (length m') s'
              end
          | None => c :: replace_from r f false 0 s'
          end
      end
  end.

Definition replace_all (r : regex) (f : list Z -> list (nat * list Z) -> list Z) (s : list Z) : list Z :=
  replace_from r f true 0 s.

End Matcher.

(** ** Searching *)

(** [s.match(r)], without the flag g: the captures of the first match. *)
Fixpoint search_from (icase : bool) (r : regex) (start : bool) (s : list Z) : option (list (nat * list Z)) :=
  match matches_at icase r start s with
  | Some st => Some (captures st)
  | None => match s with [] => None | _ :: s => search_from icase r false s end
  end.
Definition search (r : regex) (s : list Z) : option (list (nat * list Z)) := search_from false r true s.
Definition test (r : regex) (s : list Z) : bool := match search r s with Some _ => true | None => false end.

(** With the flag i. *)
Definition test_ignoring_case (r : regex) (s : list Z) : bool := match search_from true r true s with Some _ => true | None => false end.

(** [s.replace(r, f)] with a pattern that is not global: the first match only. *)
Fixpoint replace_once (r : regex) (f : list Z -> list (nat * list Z) -> list Z) (start : bool) (s : list Z) : list Z :=
  match matches_at false r start s with
  | Some st => f (consumed s (rest st)) (captures st) ++ rest st
  | None => match s with [] => [] | c :: s => c :: replace_once r f false s end
  end.

Definition replace_first (r : regex) (f : list Z -> list (nat * list Z) -> list Z) (s : list Z) : list Z := replace_once r f true s.

(** ** Building patterns *)

(** A literal text. *)
Fixpoint text (s : list Z) : regex :=
  match s with
  | [] => Empty
  | [c] => Atom (Lit c)
  | c :: s' => Seq (Atom (Lit c)) (text s')
  end.

(** A disjunction. *)
Fixpoint alternatives (l : list (list Z)) : regex :=
  match l with
  | [] => Empty
  | [s] => text s
  | s :: l' => Alt (text s) (alternatives l')
  end.

Fixpoint sequence (l : list regex) : regex :=
  match l with
  | [] => Empty
  | [r] => r
  | r :: l' => Seq r (sequence l')
  end.

(** The alternatives in the source of a disjunction of literal texts: [|] separates them,
    [\uXXXX] is a code unit, [\c] is the character [c], any other character itself.
    [cur] is the alternative being read, backwards. *)
Fixpoint parse_from (cur : list Z) (l : list Z) : list (list Z) :=
  match l with
  | [] => [rev cur]
  | c :: r =>
      if c =? 124 then rev cur :: parse_from [] r
      else if c =? 92 then
        match r with
        | [] => [rev cur]
        | e :: r' =>
            if e =? 117 then
              match r' with
              | x1 :: x2 :: x3 :: x4 :: r'' =>
                  parse_from ((((hex_val0 x1 * 16 + hex_val0 x2) * 16 + hex_val0 x3) * 16 + hex_val0 x4) :: cur) r''
              | _ => [rev cur]
              end
            else parse_from (e :: cur) r'
        end
      else parse_from (c :: cur) r
  end.

Definition parse_alternatives (l : list Z) : list (list Z) := parse_from [] l.

(** [l.join(sep)]. *)
Fixpoint join (sep : list Z) (l : list (list Z)) : list Z :=
  match l with
  | [] => []
  | [s] => s
  | s :: l' => s ++ sep ++ join sep l'
  end.

(** [s.split(c)] for a one-character separator; [cur] is read backwards. *)
Fixpoint split_from (c : Z) (cur : list Z) (s : list Z) : list (list Z) :=
  match s with
  | [] => [rev cur]
  | x :: s' => if x =? c then rev cur :: split_from c [] s' else split_from c (x :: cur) s'
  end.

Definition split (c : Z) (s : list Z) : list (list Z) := split_from c [] s.

(** ** Literal texts *)

(** What follows the text [p] at the head of [s]. *)
Fixpoint strip (icase : bool) (p s : list Z) : option (list Z) :=
  match p, s with
  | [], _ => Some s
  | x :: p, y :: s => if same_char icase x y then strip icase p s else None
  | _ :: _, [] => None
  end.

(** The first alternative at the head of [s]: what follows it. *)
Fixpoint strip_first (icase : bool) (l : list (list Z)) (s : list Z) : option (list Z) :=
  match l with
  | [] => None
  | p :: l => match strip icase p s with Some t => Some t | None => strip_first icase l s end
  end.

(** The state after a text. *)
Definition after_text (p : list Z) (st : mstate) (s : list Z) : mstate :=
  {| at_start := match p with [] => at_start st | _ => false end; rest := s; captures := captures st |}.

Lemma run_text ic p k st :
  run ic (text p) k st =
  match strip ic p (rest st) with Some s => k (after_text p st s) | None => None end.
Proof.
  revert st. induction p as [|x p IH]; intros [b s c]; [reflexivity|].
  destruct p as [|y p].
  - destruct s as [|z s]; [reflexivity|]. cbn. now destruct (same_char ic x z).
  - change (text (x :: y :: p)) with (Seq (Atom (Lit x)) (text (y :: p))).
    destruct s as [|z s]; [reflexivity|]. cbn [run rest strip atom_matches].
    destruct (same_char ic x z); [|reflexivity]. rewrite IH. reflexivity.
Qed.

Lemma run_alt ic r1 r2 k st : run ic (Alt r1 r2) k st = orelse (run ic r1 k st) (run ic r2 k st).
Proof. cbn [run]. unfold orelse. now destruct (run ic r1 k st). Qed.

(** A disjunction whose continuation accepts everything. *)
Lemma run_alternatives ic l k st : l <> [] -> Forall (fun p => p <> []) l ->
  (forall st', k st' <> None) ->
  run ic (alternatives l) k st =
  match strip_first ic l (rest st) with
  | Some s => k {| at_start := false; rest := s; captures := captures st |}
  | None => None
  end.
Proof.
  intros Hl Hne Hk. induction l as [|p l IH]; [easy|]. inversion Hne as [|? ? Hp Hne']; subst.
  assert (Ht : run ic (text p) k st = match strip ic p (rest st) with
      | Some s => k {| at_start := false; rest := s; captures := captures st |} | None => None end).
  { rewrite run_text. destruct (strip ic p (rest st)); [|easy]. now destruct p. }
  destruct l as [|q l].
  - cbn [alternatives strip_first]. rewrite Ht. now destruct (strip ic p (rest st)).
  - change (alternatives (p :: q :: l)) with (Alt (text p) (alternatives (q :: l))).
    rewrite run_alt, Ht, IH by easy. cbn [strip_first].
    destruct (strip ic p (rest st)) as [s|]; [|easy].
    unfold orelse. now destruct (k {| at_start := false; rest := s; captures := captures st |}) eqn:E;
      [|apply Hk in E].
Qed.

Lemma same_char_refl ic c : same_char ic c c = true.
Proof. unfold same_char. destruct ic; apply Z.eqb_refl. Qed.

Lemma strip_self ic p s : strip ic p (p ++ s) = Some s.
Proof. induction p as [|x p IH]; [reflexivity|]. cbn. now rewrite same_char_refl. Qed.

Lemma strip_length ic p s t : strip ic p s = Some t -> length s = (length p + length t)%nat.
Proof.
  revert s. induction p as [|x p IH]; intros s H; cbn in H; [now injection H as ->|].
  destruct s as [|y s]; [easy|]. cbn [length].
  destruct (same_char ic x y); [|easy]. apply IH in H. lia.
Qed.

Lemma strip_skipn ic p s t : strip ic p s = Some t -> t = skipn (length p) s.
Proof.
  revert s. induction p as [|x p IH]; intros s H; cbn in H; [now injection H as ->|].
  destruct s as [|y s]; [easy|]. destruct (same_char ic x y); [|easy]. now apply IH.
Qed.

Lemma strip_first_some ic l s t : strip_first ic l s = Some t -> exists p, In p l /\ strip ic p s = Some t.
Proof.
  induction l as [|p l IH]; cbn; [easy|]. destruct (strip ic p s) eqn:E.
  - intros H. injection H as <-. exists p. now split; [left|].
  - intros H. destruct (IH H) as (q & Hq & H'). exists q. now split; [right|].
Qed.

Lemma strip_first_none ic l s : (forall p, In p l -> strip ic p s = None) -> strip_first ic l s = None.
Proof.
  induction l as [|p l IH]; cbn; intros H; [easy|].
  rewrite (H p (or_introl eq_refl)). apply IH. intros q Hq. apply H. now right.
Qed.

Lemma run_seq ic r1 r2 k st : run ic (Seq r1 r2) k st = run ic r1 (run ic r2 k) st.
Proof. reflexivity. Qed.

Lemma run_group ic n r k st :
  run ic (Group n r) k st =
  run ic r (fun st' => k {| at_start := at_start st'; rest := rest st';
                            captures := (n, consumed (rest st) (rest st')) :: captures st' |}) st.
Proof. reflexivity. Qed.

Lemma run_star ic a k st : run ic (Star a) k st = star ic a (captures st) (at_start st) (rest st) k.
Proof. reflexivity. Qed.

Lemma run_lazy_star ic a k st :
  run ic (LazyStar a) k st = lazy_star ic a (captures st) (at_start st) (rest st) k.
Proof. reflexivity. Qed.

Lemma run_begin ic k st : run ic Begin k st = if at_start st then k st else None.
Proof. reflexivity. Qed.

Lemma strip_first_none_inv ic l s p : strip_first ic l s = None -> In p l -> strip ic p s = None.
Proof.
  induction l as [|q l IH]; cbn; [easy|]. destruct (strip ic q s) eqn:E; [easy|].
  intros H [<-|Hp]; [easy|now apply IH].
Qed.

(** A disjunction none of whose texts follows. *)
Lemma run_alternatives_none ic l k st : l <> [] -> strip_first ic l (rest st) = None ->
  run ic (alternatives l) k st = None.
Proof.
  intros Hl H. induction l as [|p l IH]; [easy|].
  assert (Hp : run ic (text p) k st = None)
    by (now rewrite run_text, (strip_first_none_inv _ _ _ p H) by now left).
  destruct l as [|q l]; [exact Hp|].
  change (alternatives (p :: q :: l)) with (Alt (text p) (alternatives (q :: l))).
  rewrite run_alt, Hp, IH; [easy|easy|]. cbn [strip_first] in H |- *.
  now destruct (strip ic p (rest st)).
Qed.

(** The case flag does not matter between characters that are their own upper case. *)
Definition caseless (c : Z) : bool := canonicalize c =? c.

Lemma strip_caseless ic p s : forallb caseless p = true -> forallb caseless s = true ->
  strip ic p s = strip false p s.
Proof.
  revert s. induction p as [|x p IH]; intros [|y s] Hp Hs; try reflexivity.
  cbn in Hp, Hs. apply andb_prop in Hp as [Hx Hp], Hs as [Hy Hs].
  cbn [strip]. rewrite IH by easy. apply Z.eqb_eq in Hx, Hy. unfold same_char.
  destruct ic; [|easy]. now rewrite Hx, Hy.
Qed.

Lemma strip_exact p s t : strip false p s = Some t <-> s = p ++ t.
Proof.
  revert s. induction p as [|x p IH]; intros s; cbn.
  - split; congruence.
  - destruct s as [|y s]; [easy|]. unfold same_char. destruct (Z.eqb_spec x y) as [->|N].
    + rewrite IH. split; congruence.
    + split; congruence.
Qed.

(** Only ['<'] reads as ['<']: the case flag folds letters. *)
Lemma same_char_lt ic c : same_char ic 60 c = (60 =? c).
Proof.
  unfold same_char. destruct ic; [|easy]. change (canonicalize 60) with 60. unfold canonicalize.
  destruct ((97 <=? c) && (c <=? 122)) eqn:E.
  - apply andb_prop in E as [E1 E2]. apply Z.leb_le in E1, E2.
    rewrite (proj2 (Z.eqb_neq 60 (c - 32))), (proj2 (Z.eqb_neq 60 c)) by lia. easy.
  - destruct (Z.eqb_spec c 0x24DC); [|easy]. now subst.
Qed.

Lemma same_char_gt ic c : same_char ic 62 c = (62 =? c).
Proof.
  unfold same_char. destruct ic; [|easy]. change (canonicalize 62) with 62. unfold canonicalize.
  destruct ((97 <=? c) && (c <=? 122)) eqn:E.
  - apply andb_prop in E as [E1 E2]. apply Z.leb_le in E1, E2.
    rewrite (proj2 (Z.eqb_neq 62 (c - 32))), (proj2 (Z.eqb_neq 62 c)) by lia. easy.
  - destruct (Z.eqb_spec c 0x24DC); [|easy]. now subst.
Qed.

(** ** Replacement *)

(** A text no position of which matches is returned as it is. *)
Lemma replace_none ic r f start s :
  (forall b a t, s = a ++ t -> (a = [] -> b = start) -> matches_at ic r b t = None) ->
  replace_from ic r f start 0 s = s.
Proof.
  revert start. induction s as [|c s IH]; intros start H; cbn [replace_from].
  - now rewrite (H start [] []).
  - rewrite (H start [] (c :: s)) by easy. f_equal. apply IH.
    intros b a t -> _. now apply (H b (c :: a) t).
Qed.

Lemma replace_skip ic r f b m s : m <> [] ->
  replace_from ic r f b (length m) (m ++ s) = replace_from ic r f false 0 s.
Proof.
  revert b. induction m as [|c m IH]; intros b Hm; [easy|]. cbn [length app replace_from].
  destruct m; [easy|]. now apply IH.
Qed.

Lemma consumed_app m s : consumed (m ++ s) s = m.
Proof.
  unfold consumed. rewrite length_app. replace (length m + length s - length s)%nat with (length m) by lia.
  rewrite firstn_app, Nat.sub_diag, firstn_all. cbn. apply app_nil_r.
Qed.

(** A match at the head of the text. *)
Lemma replace_match ic r f b m s st : m <> [] ->
  matches_at ic r b (m ++ s) = Some st -> rest st = s ->
  replace_from ic r f b 0 (m ++ s) = f m (captures st) ++ replace_from ic r f false 0 s.
Proof.
  intros Hm H Hr. destruct m as [|c m]; [easy|]. cbn [app replace_from].
  change (c :: m ++ s) with ((c :: m) ++ s). rewrite H, Hr, consumed_app. cbn [app].
  f_equal. destruct m as [|d m]; [easy|]. now apply replace_skip.
Qed.

Lemma replace_step ic r f b c s : matches_at ic r b (c :: s) = None ->
  replace_from ic r f b 0 (c :: s) = c :: replace_from ic r f false 0 s.
Proof. intros H. cbn [replace_from]. now rewrite H. Qed.

(** ** Quantifiers over a stretch of text *)

Lemma star_through ic a c b s x t k r : forallb (atom_matches ic a) s = true -> atom_matches ic a x = false ->
  k {| at_start := match s with [] => b | _ => false end; rest := x :: t; captures := c |} = Some r ->
  star ic a c b (s ++ x :: t) k = Some r.
Proof.
  intros Hs Hx Hk. revert b Hk. induction s as [|y s IH]; intros b Hk; cbn [app star].
  - now rewrite Hx.
  - cbn [forallb] in Hs. apply andb_prop in Hs as [Hy Hs]. rewrite Hy, IH; [easy|easy|]. now destruct s.
Qed.

Lemma lazy_star_through ic a c b s t k r : forallb (atom_matches ic a) s = true ->
  (forall b' y s1 s2, s = s1 ++ y :: s2 ->
     k {| at_start := b'; rest := y :: s2 ++ t; captures := c |} = None) ->
  k {| at_start := match s with [] => b | _ => false end; rest := t; captures := c |} = Some r ->
  lazy_star ic a c b (s ++ t) k = Some r.
Proof.
  intros Hs Hf Hk. revert b Hk. induction s as [|y s IH]; intros b Hk; cbn [app].
  - destruct t; cbn [lazy_star]; now rewrite Hk.
  - cbn [forallb] in Hs. apply andb_prop in Hs as [Hy Hs]. cbn [lazy_star].
    rewrite (Hf b y [] s), Hy by easy. apply IH; [easy| |now destruct s].
    intros b' y' s1 s2 ->. now apply (Hf b' y' (y :: s1) s2).
Qed.

Lemma run_text_prefix ic p s c b k : p <> [] ->
  run ic (text p) k {| at_start := b; rest := p ++ s; captures := c |} =
  k {| at_start := false; rest := s; captures := c |}.
Proof. intros H. rewrite run_text. cbn [rest]. rewrite strip_self. unfold after_text. now destruct p. Qed.

(** ** Disjunctions of escaped texts *)

Definition quote (special : Z -> bool) (s : list Z) : list Z :=
  flat_map (fun c => if special c then [92; c] else [c]) s.

Lemma quote_app special a b : quote special (a ++ b) = quote special a ++ quote special b.
Proof. apply flat_map_app. Qed.

Section Quote.

Variable special : Z -> bool.
Hypothesis special_bs : special 92 = true.
Hypothesis special_u : special 117 = false.

Lemma parse_quote cur s t : (forall c, In c s -> c <> 124) ->
  parse_from cur (quote special s ++ t) = parse_from (rev s ++ cur) t.
Proof.
  revert cur. induction s as [|c s IH]; intros cur H; [reflexivity|].
  assert (Hc : c <> 124) by (apply H; now left).
  assert (Hs : forall d, In d s -> d <> 124) by (intros; apply H; now right).
  cbn [quote flat_map rev]. fold (quote special s). rewrite <- !app_assoc. cbn [app].
  destruct (special c) eqn:E; cbn [app].
  - cbn [parse_from]. replace (92 =? 124) with false by reflexivity. cbn match.
    rewrite Z.eqb_refl. destruct (Z.eqb_spec c 117) as [->|_]; [congruence|].
    now apply IH.
  - cbn [parse_from]. rewrite (proj2 (Z.eqb_neq c 124)) by easy.
    destruct (Z.eqb_spec c 92) as [->|_]; [congruence|]. now apply IH.
Qed.

(** Escaping a joined list and reading it as a pattern gives the list back. *)
Lemma parse_join l : l <> [] -> Forall (Forall (fun c => c <> 124)) l ->
  parse_alternatives (join [124] (map (quote special) l)) = l.
Proof.
  unfold parse_alternatives. intros Hl H. induction H as [|s l Hs H IH]; [easy|].
  rewrite Forall_forall in Hs. destruct l as [|s' l].
  - cbn [map join]. rewrite <- (app_nil_r (quote special s)), parse_quote by easy.
    cbn. now rewrite app_nil_r, rev_involutive.
  - change (join [124] (map (quote special) (s :: s' :: l)))
      with (quote special s ++ 124 :: join [124] (map (quote special) (s' :: l))).
    rewrite parse_quote by easy. cbn [parse_from]. rewrite Z.eqb_refl, app_nil_r, rev_involutive.
    f_equal. now apply IH.
Qed.

Lemma quote_join l : special 124 = false ->
  quote special (join [124] l) = join [124] (map (quote special) l).
Proof.
  intros H. induction l as [|s l IH]; [reflexivity|]. destruct l as [|s' l]; [reflexivity|].
  change (join [124] (s :: s' :: l)) with (s ++ [124] ++ join [124] (s' :: l)).
  rewrite !quote_app, IH. cbn [quote flat_map map join]. now rewrite H.
Qed.

End Quote.
