(* ===== verification/Classie.v ===== *)
(** * Classes of elements (classie)

    src/src/qt/res/assets/plugins/classie/classie.js: whether an element has a class, adding,
    removing and toggling it.  An element is the text of its [className].  Where the browser
    has no [classList], the functions work by a pattern; the theorems show that this is the
    work on the list of the words in the text ([split_words]), where a word ends at any white
    space of the language.  The pattern is built from the name itself: [plain] names have no
    white space and no character that is special in a pattern.  [elem.classList] is the
    browser's: a [token_list] with the laws [token_list_laws], which are what the DOM standard
    says of it - an ordered set of the words between ASCII white space, which every change
    writes back with single spaces. *)

From Stdlib Require Import String ZArith Lia List Bool.
From S2P Require Import Prelude Js Regex.
Import ListNotations.
#[local] Open Scope Z_scope.

Module Classie.

(** ** The functions *)

(** [a+] *)
Definition plus (a : atom) : regex := Seq (Atom a) (Star a).

(** [new RegExp("(^|\\s+)" + className + "(\\s+|$)")] *)
Definition classReg (className : list Z) : regex :=
  sequence [Group 1 (Alt Begin (plus Space)); text className; Group 2 (Alt (plus Space) End)].

(** The three functions that depend on the browser, on the [className] of an element. *)
Record functions : Type := mkFunctions {
  hasClass : list Z -> list Z -> bool;
  addClass : list Z -> list Z -> list Z;
  removeClass : list Z -> list Z -> list Z
}.

Definition hasClass_pattern (elem c : list Z) : bool := test (classReg c) elem.

Definition addClass_pattern (elem c : list Z) : list Z :=
  if negb (hasClass_pattern elem c) then elem ++ [32] ++ c else elem.

Definition removeClass_pattern (elem c : list Z) : list Z := replace_first (classReg c) (fun _ _ => [32]) elem.

Definition by_pattern : functions := mkFunctions hasClass_pattern addClass_pattern removeClass_pattern.

(** [elem.classList], a DOMTokenList, on the [className] of an element. *)
Record token_list : Type := mkTokenList {
  contains : list Z -> list Z -> bool;
  add : list Z -> list Z -> list Z;
  remove : list Z -> list Z -> list Z
}.

Definition by_classList (l : token_list) : functions :=
  mkFunctions (fun elem c => contains l elem c) (fun elem c => add l elem c) (fun elem c => remove l elem c).

(** The choice when the script is loaded: [classList] is the browser's, if it has one. *)
Definition choose (classList : option token_list) : functions :=
  match classList with
  | Some native => by_classList native
  | None => by_pattern
  end.

Definition toggleClass (f : functions) (elem c : list Z) : list Z :=
  (if hasClass f elem c then removeClass f else addClass f) elem c.

(** ** The classes in a text *)

Definition mem (c : list Z) (l : list (list Z)) : bool := existsb (str_eqb c) l.

Fixpoint remove_one (c : list Z) (l : list (list Z)) : list (list Z) :=
  match l with
  | [] => []
  | w :: l => if str_eqb c w then l else w :: remove_one c l
  end.

Definition remove_all (c : list Z) (l : list (list Z)) : list (list Z) := filter (fun w => negb (str_eqb c w)) l.

(** Each word once, where it is first. *)
Fixpoint distinct (l : list (list Z)) : list (list Z) :=
  match l with
  | [] => []
  | w :: l => w :: remove_all w (distinct l)
  end.

(** How often a name is among the words. *)
Definition times (c : list Z) (l : list (list Z)) : nat := List.length (filter (str_eqb c) l).

(** The words with single spaces between them. *)
Fixpoint join (l : list (list Z)) : list Z :=
  match l with
  | [] => []
  | [w] => w
  | w :: l => w ++ 32 :: join l
  end.

(** The white space of HTML. *)
Definition ascii_space (x : Z) : bool := existsb (Z.eqb x) [9; 10; 12; 13; 32].

Definition special : list Z := js "\^$.*+?()[]{}|".

(** A name the pattern means literally. *)
Definition plain (c : list Z) : bool :=
  match c with [] => false | _ => forallb (fun x => negb (is_space x) && negb (existsb (Z.eqb x) special)) c end.

(** A name [classList] does not refuse. *)
Definition token (c : list Z) : bool := match c with [] => false | _ => forallb (fun x => negb (ascii_space x)) c end.

(** ** Words *)

Section Words.

(** What separates words; the space does. *)
Variable is_space : Z -> bool.
Hypothesis space_separates : is_space 32 = true.

(** The words of a text, in their order. *)
Fixpoint split_words (s : list Z) : list (list Z) :=
  match s with
  | [] => []
  | x :: s' =>
      if is_space x then split_words s'
      else match s' with
           | y :: _ => if is_space y then [x] :: split_words s' else match split_words s' with w :: l => (x :: w) :: l | [] => [[x]] end
           | [] => [[x]]
           end
  end.

Fixpoint first_word (s : list Z) : list Z :=
  match s with
  | x :: s => if is_space x then [] else x :: first_word s
  | [] => []
  end.

Fixpoint behind (s : list Z) : list Z :=
  match s with
  | x :: s' => if is_space x then s else behind s'
  | [] => []
  end.

Fixpoint trim (s : list Z) : list Z :=
  match s with
  | x :: s' => if is_space x then trim s' else s
  | [] => []
  end.

(** The end, or white space. *)
Definition ends (s : list Z) : bool := match s with [] => true | x :: _ => is_space x end.

Definition unspaced (c : list Z) : Prop := forallb (fun x => negb (is_space x)) c = true.

Lemma word_after s : first_word s ++ behind s = s.
Proof. induction s as [|x s IH]; [reflexivity|]. cbn. destruct (is_space x); [reflexivity|]. cbn. now rewrite IH. Qed.

Lemma after_boundary s : ends (behind s) = true.
Proof. induction s as [|x s IH]; [reflexivity|]. cbn. destruct (is_space x) eqn:E; [exact E|exact IH]. Qed.

Lemma word_nonspace s : unspaced (first_word s).
Proof. unfold unspaced. induction s as [|x s IH]; [reflexivity|]. cbn. destruct (is_space x) eqn:E; [reflexivity|]. cbn. now rewrite E, IH. Qed.

Lemma tokens_drop s : split_words (trim s) = split_words s.
Proof. induction s as [|x s IH]; [reflexivity|]. cbn [trim split_words]. destruct (is_space x) eqn:E; [exact IH|]. cbn [split_words]. now rewrite E. Qed.

Lemma tokens_word w t : unspaced w -> w <> [] -> ends t = true -> split_words (w ++ t) = w :: split_words t.
Proof.
  unfold unspaced. induction w as [|x w IH]; intros Hw Hne Ht; [easy|]. cbn in Hw. apply andb_prop in Hw as [Hx Hw]. apply negb_true_iff in Hx.
  destruct w as [|y w].
  - cbn [app split_words]. rewrite Hx. destruct t as [|z t]; [reflexivity|]. cbn in Ht. now rewrite Ht.
  - specialize (IH Hw ltac:(discriminate) Ht). cbn in Hw. apply andb_prop in Hw as [Hy _]. apply negb_true_iff in Hy.
    change ((x :: y :: w) ++ t) with (x :: (y :: w) ++ t). cbn [split_words]. rewrite Hx. cbn [app]. rewrite Hy. cbn [app] in IH. now rewrite IH.
Qed.

(** The words of a text: the first and those behind it. *)
Lemma tokens_split s : split_words s = match first_word s with [] => split_words (behind s) | w => w :: split_words (behind s) end.
Proof.
  destruct (first_word s) as [|x w] eqn:E.
  - rewrite <- (word_after s) at 1. now rewrite E.
  - rewrite <- (word_after s) at 1. rewrite tokens_word; [now rewrite E|apply word_nonspace|rewrite E; discriminate|apply after_boundary].
Qed.

Lemma tokens_snoc s c : unspaced c -> c <> [] -> split_words (s ++ 32 :: c) = split_words s ++ [c].
Proof.
  intros Hc Hne. assert (L : split_words (32 :: c) = [c]) by (cbn [split_words]; rewrite space_separates, <- (app_nil_r c) at 1; now rewrite tokens_word).
  remember (length s) as n eqn:Hn. assert (B : (length s <= n)%nat) by lia. clear Hn. revert s B.
  induction n as [|n IH]; intros s B; [destruct s; [exact L|cbn in B; lia]|].
  destruct s as [|x s]; [exact L|]. destruct (is_space x) eqn:E.
  - cbn [app split_words]. rewrite E. apply IH. cbn in B. lia.
  - assert (Hn : first_word (x :: s) <> []) by (cbn; rewrite E; discriminate). pose proof (word_nonspace (x :: s)) as Hw.
    pose proof (after_boundary (x :: s)) as Hb. pose proof (word_after (x :: s)) as K. rewrite <- K.
    revert Hn Hw Hb K. generalize (first_word (x :: s)) as w, (behind (x :: s)) as t. intros w t Hn Hw Hb K.
    assert (Hb' : ends (t ++ 32 :: c) = true) by (destruct t; [exact space_separates|exact Hb]).
    rewrite <- app_assoc, (tokens_word w (t ++ 32 :: c)), (tokens_word w t), IH; [reflexivity| |assumption..].
    apply (f_equal (@length Z)) in K. rewrite length_app in K. destruct w; [easy|]. cbn in K, B. lia.
Qed.

Lemma split_words_nonspace s : Forall (fun w => unspaced w /\ w <> []) (split_words s).
Proof.
  remember (length s) as n eqn:Hn. assert (B : (length s <= n)%nat) by lia. clear Hn. revert s B.
  induction n as [|n IH]; intros [|x s] B; [constructor|cbn in B; lia|constructor|]. rewrite tokens_split.
  pose proof (word_nonspace (x :: s)) as W. cbn [first_word behind length] in *. destruct (is_space x) eqn:E.
  - cbn [split_words]. rewrite E. apply IH. lia.
  - constructor; [split; [exact W|easy]|]. apply IH.
    pose proof (f_equal (@length Z) (word_after s)) as L. rewrite length_app in L. lia.
Qed.

Lemma split_join l : Forall (fun w => unspaced w /\ w <> []) l -> split_words (join l) = l.
Proof.
  induction 1 as [|w l [Hw Hne] F IH]; [reflexivity|]. destruct l as [|v l].
  - cbn [join]. rewrite <- (app_nil_r w) at 1. now rewrite tokens_word.
  - change (join (w :: v :: l)) with (w ++ 32 :: join (v :: l)). rewrite tokens_word by assumption.
    cbn [split_words]. now rewrite space_separates, IH.
Qed.

End Words.

(** Words between the white space of the language. *)
#[local] Abbreviation tokens := (split_words is_space).
#[local] Abbreviation nonspace := (unspaced is_space).
#[local] Abbreviation boundary := (ends is_space).
#[local] Abbreviation drop := (trim is_space).
#[local] Abbreviation after := (behind is_space).
#[local] Abbreviation word := (first_word is_space).

(** What the DOM standard says of [classList]. *)
Record token_list_laws (l : token_list) : Prop := {
  law_contains s c : token c = true -> contains l s c = mem c (distinct (split_words ascii_space s));
  law_add s c : token c = true ->
    add l s c = join (let set := distinct (split_words ascii_space s) in if mem c set then set else set ++ [c]);
  law_remove s c : token c = true -> remove l s c = join (remove_all c (distinct (split_words ascii_space s)))
}.

(** ** Where the pattern matches *)

(** The name at the head of a text, as a whole word: the text behind it and its white space. *)
Definition follow (c s : list Z) : option (list Z) :=
  match strip false c s with
  | Some t => if boundary t then Some (drop t) else None
  | None => None
  end.

Lemma star_accepts cs s k r : k {| at_start := false; rest := drop s; captures := cs |} = Some r -> star false Space cs false s k = Some r.
Proof.
  intros H. induction s as [|x s IH]; [exact H|]. cbn [trim] in H. cbn [star atom_matches]. destruct (is_space x).
  - now rewrite (IH H).
  - exact H.
Qed.

Lemma star_skips cs s k : (forall x s, is_space x = true -> k {| at_start := false; rest := x :: s; captures := cs |} = None) ->
  star false Space cs false s k = k {| at_start := false; rest := drop s; captures := cs |}.
Proof.
  intros H. induction s as [|x s IH]; [reflexivity|]. cbn [star trim atom_matches]. destruct (is_space x) eqn:E; [|reflexivity].
  rewrite IH, (H x s E). now destruct (k _).
Qed.

Lemma tail_matches st : option_map rest (run false (Group 2 (Alt (plus Space) End)) Some st) = if boundary (rest st) then Some (drop (rest st)) else None.
Proof.
  destruct st as [b s cs]. cbn [run rest]. destruct s as [|x s]; [reflexivity|]. cbn [rest plus run ends trim atom_matches].
  destruct (is_space x); [|reflexivity]. cbn [advance captures at_start rest run]. now erewrite star_accepts by reflexivity.
Qed.

Lemma name_matches c st : c <> [] ->
  option_map rest (run false (text c) (run false (Group 2 (Alt (plus Space) End)) Some) st) = follow c (rest st).
Proof.
  intros H. rewrite run_text. unfold follow. destruct (strip false c (rest st)) as [t|]; [|reflexivity]. apply tail_matches.
Qed.

Lemma plain_nonspace c : plain c = true -> nonspace c /\ c <> [].
Proof.
  unfold plain, unspaced. destruct c as [|x c]; [easy|]. intros H. split; [|easy]. apply forallb_forall. intros y Hy.
  rewrite forallb_forall in H. specialize (H y Hy). now apply andb_prop in H.
Qed.

Lemma follow_space c x s : nonspace c -> c <> [] -> is_space x = true -> follow c (x :: s) = None.
Proof.
  unfold unspaced. destruct c as [|y c]; [easy|]. cbn. intros H _ Hx. apply andb_prop in H as [Hy _]. unfold follow. cbn. unfold same_char.
  destruct (Z.eqb_spec y x); [subst; now rewrite Hx in Hy|reflexivity].
Qed.

(** Where the pattern matches, and what it leaves. *)
Lemma class_matches c b s : plain c = true ->
  option_map rest (matches_at false (classReg c) b s) =
  match (if b then follow c s else None) with
  | Some t => Some t
  | None => match s with x :: _ => if is_space x then follow c (drop s) else None | [] => None end
  end.
Proof.
  intros [Hc Hne]%plain_nonspace. unfold matches_at. set (k := run false (text c) (run false (Group 2 (Alt (plus Space) End)) Some)).
  assert (Hk : forall b s cs, option_map rest (k {| at_start := b; rest := s; captures := cs |}) = follow c s) by (intros; now apply name_matches).
  change (run false (classReg c) Some ?st) with (run false (Group 1 (Alt Begin (plus Space))) k st).
  rewrite run_group, run_alt, run_begin. cbn [at_start rest captures].
  assert (E : forall st, option_map rest (run false (plus Space) (fun st' => k {| at_start := at_start st'; rest := rest st';
      captures := (1%nat, consumed s (rest st')) :: captures st' |}) st) = match rest st with x :: _ => if is_space x then follow c (drop (rest st)) else None | [] => None end).
  { intros [b' s' cs]. destruct s' as [|x s']; [reflexivity|]. cbn [run plus rest atom_matches]. destruct (is_space x) eqn:Ex; [|reflexivity].
    cbn [advance rest at_start captures run]. rewrite star_skips; [cbn [trim]; rewrite Ex; apply Hk|].
    intros y t Hy. cbn [at_start rest captures]. pose proof (Hk false (y :: t) ((1%nat, consumed s (y :: t)) :: cs)) as F.
    rewrite (follow_space c y t Hc Hne Hy) in F. now destruct (k _). }
  unfold orelse. destruct b; [|apply (E {| at_start := false; rest := s; captures := [] |})].
  match goal with |- context[match ?q with Some _ => _ | None => _ end] => specialize (Hk true s ((1%nat, consumed s s) :: [])); cbn [rest at_start captures] in *; destruct q eqn:Q end.
  - cbn in Hk. now rewrite <- Hk.
  - cbn in Hk. rewrite <- Hk. apply (E {| at_start := true; rest := s; captures := [] |}).
Qed.

(** ** What the functions do to the classes *)

Lemma follow_found c s t : nonspace c -> c <> [] -> follow c s = Some t -> tokens s = c :: tokens t.
Proof.
  intros Hc Hne. unfold follow. destruct (strip false c s) as [u|] eqn:E; [|easy]. destruct (boundary u) eqn:B; [|easy]. intros H. injection H as <-.
  apply strip_exact in E as ->. rewrite tokens_drop. now apply tokens_word.
Qed.

Lemma follow_missed c s : follow c s = None -> word s <> c.
Proof.
  unfold follow. intros H <-. rewrite (proj2 (strip_exact (word s) s (after s))) in H by (symmetry; apply word_after).
  now rewrite after_boundary in H.
Qed.

Lemma str_eqb_false c w : w <> c -> str_eqb c w = false.
Proof. intros H. destruct (str_eqb c w) eqn:E; [|easy]. apply str_eqb_eq in E. congruence. Qed.

(** A first word that is not the name. *)
Lemma mem_missed c s : follow c s = None -> mem c (tokens s) = mem c (tokens (after s)).
Proof.
  intros H%follow_missed. rewrite (tokens_split is_space s). destruct (word s) as [|x w]; [reflexivity|]. cbn [mem existsb]. now rewrite str_eqb_false.
Qed.

Lemma remove_missed c s R : follow c s = None -> boundary R = true -> tokens R = remove_one c (tokens (after s)) ->
  tokens (word s ++ R) = remove_one c (tokens s).
Proof.
  intros H%follow_missed B E. rewrite (tokens_split is_space s). pose proof (word_nonspace is_space s) as W. destruct (word s) as [|x w]; [exact E|].
  rewrite tokens_word by easy. cbn [remove_one]. now rewrite str_eqb_false, E.
Qed.

Lemma follow_drop_missed c s : nonspace c -> c <> [] -> follow c (drop s) = None -> follow c s = None.
Proof.
  intros Hc Hne H. destruct s as [|x s]; [exact H|]. destruct (is_space x) eqn:E; [now apply follow_space|]. cbn [trim] in H. now rewrite E in H.
Qed.

Section Name.

Variable c : list Z.
Hypothesis c_plain : plain c = true.

Let c_nonspace : nonspace c := proj1 (plain_nonspace c c_plain).
Let c_nonempty : c <> [] := proj2 (plain_nonspace c c_plain).

Definition found (b : bool) (s : list Z) : bool := match search_from false (classReg c) b s with Some _ => true | None => false end.

Lemma found_step b s : found b s = match option_map rest (matches_at false (classReg c) b s) with
  | Some _ => true
  | None => match s with [] => false | _ :: s => found false s end
  end.
Proof. unfold found. destruct s; cbn [search_from]; now destruct (matches_at _ _ _ _). Qed.

Lemma replace_step_once b s : replace_once (classReg c) (fun _ _ => [32]) b s =
  match option_map rest (matches_at false (classReg c) b s) with
  | Some t => 32 :: t
  | None => match s with [] => [] | x :: s => x :: replace_once (classReg c) (fun _ _ => [32]) false s end
  end.
Proof. destruct s; cbn [replace_once]; now destruct (matches_at _ _ _ _). Qed.

(** Behind the beginning the pattern finds the words after the first white space. *)
Lemma found_later s : found false s = mem c (tokens (after s)).
Proof.
  induction s as [|x s IH]; rewrite found_step, class_matches by exact c_plain; [reflexivity|]. cbn [behind]. destruct (is_space x) eqn:E; [|exact IH].
  cbn [split_words trim]. rewrite E. destruct (follow c (drop s)) as [t|] eqn:F.
  - rewrite <- tokens_drop, (follow_found _ _ _ c_nonspace c_nonempty F). cbn [mem existsb]. now rewrite str_eqb_refl.
  - rewrite IH. symmetry. apply mem_missed, follow_drop_missed; auto.
Qed.

Lemma replace_later s : exists R, replace_once (classReg c) (fun _ _ => [32]) false s = word s ++ R /\ boundary R = true /\
  tokens R = remove_one c (tokens (after s)).
Proof.
  induction s as [|x s IH]; rewrite replace_step_once, class_matches by exact c_plain; [exists []; auto|]. cbn [behind first_word].
  destruct IH as (R & IH & B & T). destruct (is_space x) eqn:E; [|exists R; rewrite IH; auto].
  cbn [trim]. rewrite E. destruct (follow c (drop s)) as [t|] eqn:F.
  - exists (32 :: t). split; [reflexivity|split; [reflexivity|]]. cbn [split_words]. rewrite E. rewrite <- (tokens_drop is_space s), (follow_found _ _ _ c_nonspace c_nonempty F).
    cbn [remove_one]. now rewrite str_eqb_refl.
  - exists (x :: word s ++ R). split; [now rewrite IH|split; [exact E|]]. cbn [split_words]. rewrite E. apply remove_missed; auto using follow_drop_missed.
Qed.

Lemma hasClass_mem s : hasClass_pattern s c = mem c (tokens s).
Proof.
  change (hasClass_pattern s c) with (found true s). rewrite found_step, class_matches by exact c_plain.
  destruct (follow c s) as [t|] eqn:F; [rewrite (follow_found _ _ _ c_nonspace c_nonempty F); cbn [mem existsb]; now rewrite str_eqb_refl|].
  destruct s as [|x s]; [reflexivity|]. destruct (is_space x) eqn:E.
  - cbn [split_words trim]. rewrite E. destruct (follow c (drop s)) as [t|] eqn:G.
    + rewrite <- tokens_drop, (follow_found _ _ _ c_nonspace c_nonempty G). cbn [mem existsb]. now rewrite str_eqb_refl.
    + rewrite found_later. symmetry. apply mem_missed, follow_drop_missed; auto.
  - rewrite (mem_missed c (x :: s)) by exact F. cbn [behind]. rewrite E. apply found_later.
Qed.

Lemma addClass_tokens s : tokens (addClass_pattern s c) = if mem c (tokens s) then tokens s else tokens s ++ [c].
Proof. unfold addClass_pattern. rewrite hasClass_mem. destruct (mem c (tokens s)); [reflexivity|]. now apply tokens_snoc. Qed.

Lemma removeClass_tokens s : tokens (removeClass_pattern s c) = remove_one c (tokens s).
Proof.
  unfold removeClass_pattern, replace_first. rewrite replace_step_once, class_matches by exact c_plain.
  destruct (follow c s) as [t|] eqn:F; [rewrite (follow_found _ _ _ c_nonspace c_nonempty F); cbn [remove_one]; now rewrite str_eqb_refl|].
  destruct s as [|x s]; [reflexivity|]. destruct (replace_later s) as (R & E1 & B & T). destruct (is_space x) eqn:E.
  - cbn [split_words trim]. rewrite E. destruct (follow c (drop s)) as [t|] eqn:G.
    + rewrite <- (tokens_drop is_space s), (follow_found _ _ _ c_nonspace c_nonempty G). cbn [remove_one]. now rewrite str_eqb_refl.
    + rewrite E1. cbn [split_words]. rewrite E. apply remove_missed; auto using follow_drop_missed.
  - rewrite E1. change (x :: word s ++ R) with ((x :: word s) ++ R). pose proof (remove_missed c (x :: s) R F B) as K. cbn [first_word behind] in K. rewrite E in K. now apply K.
Qed.

End Name.

(** ** Toggling *)

Lemma mem_In c l : mem c l = true <-> In c l.
Proof.
  unfold mem. rewrite existsb_exists. split; [intros (w & I & E)|intros I; exists c; split; [exact I|apply str_eqb_refl]].
  apply str_eqb_eq in E. now subst.
Qed.

Lemma mem_app c a b : mem c (a ++ b) = mem c a || mem c b.
Proof. apply existsb_app. Qed.

Lemma mem_remove_other c w l : w <> c -> mem w (remove_one c l) = mem w l.
Proof.
  intros H. induction l as [|v l IH]; [reflexivity|]. cbn [remove_one]. destruct (str_eqb_spec c v) as [<-|N].
  - cbn [mem existsb]. now rewrite (str_eqb_false w c) by congruence.
  - cbn [mem existsb]. f_equal. exact IH.
Qed.

Lemma mem_remove_one_same c l : mem c l = true -> mem c (remove_one c l) = (if Nat.leb 2 (times c l) then true else false).
Proof.
  assert (H : forall l, mem c l = Nat.leb 1 (times c l)).
  { intros k. unfold times, mem. induction k as [|v k IH]; [reflexivity|]. cbn [filter existsb]. rewrite IH. now destruct (str_eqb c v). }
  induction l as [|v l IH]; [easy|]. unfold times in *. cbn [filter remove_one mem existsb]. destruct (str_eqb c v) eqn:E; cbn [orb].
  - intros _. change (existsb (str_eqb c) l) with (mem c l). rewrite H. unfold times. cbn [List.length Nat.leb]. now destruct (List.length _).
  - intros M. cbn [mem existsb]. rewrite E. exact (IH M).
Qed.

Lemma mem_remove_all c w l : mem w (remove_all c l) = negb (str_eqb c w) && mem w l.
Proof.
  unfold remove_all, mem. induction l as [|v l IH]; [now rewrite andb_false_r|]. cbn [filter existsb].
  destruct (str_eqb c v) eqn:E; cbn [negb existsb]; rewrite IH.
  - apply str_eqb_true in E as <-. destruct (str_eqb_spec c w) as [<-|N]; [reflexivity|]. now rewrite (str_eqb_false w c).
  - destruct (str_eqb_spec w v) as [->|N]; [now rewrite E|reflexivity].
Qed.

Lemma mem_distinct w l : mem w (distinct l) = mem w l.
Proof.
  induction l as [|v l IH]; [reflexivity|]. cbn [distinct mem existsb]. fold (mem w (remove_all v (distinct l))) (mem w l). rewrite mem_remove_all, IH.
  destruct (str_eqb_spec w v) as [<-|N]; [reflexivity|]. now rewrite (str_eqb_false v w) by congruence.
Qed.

Lemma incl_distinct (P : list Z -> Prop) l : Forall P l -> Forall P (distinct l).
Proof.
  rewrite !Forall_forall. intros H w I. apply H. apply mem_In. rewrite <- mem_distinct. now apply mem_In.
Qed.

Lemma mem_remove_all_same c l : mem c (remove_all c (distinct l)) = negb true.
Proof. rewrite mem_remove_all, str_eqb_refl. reflexivity. Qed.

Lemma token_unspaced c : token c = true -> unspaced ascii_space c /\ c <> [].
Proof. unfold token, unspaced. destruct c as [|x c]; [easy|]. intros H. split; [exact H|easy]. Qed.

(** What the functions go by: the words of the text as the browser's lists or the pattern
    see them, the names they take, and the words there are when the name is taken out or added. *)
Definition words (classList : option token_list) (s : list Z) : list (list Z) :=
  match classList with Some _ => split_words ascii_space s | None => split_words is_space s end.

Definition accepted (classList : option token_list) (c : list Z) : bool :=
  match classList with Some _ => token c | None => plain c end.

Definition taken_out (classList : option token_list) (c : list Z) (l : list (list Z)) : list (list Z) :=
  match classList with Some _ => remove_all c (distinct l) | None => remove_one c l end.

Definition put_in (classList : option token_list) (c : list Z) (l : list (list Z)) : list (list Z) :=
  match classList with Some _ => distinct l ++ [c] | None => l ++ [c] end.

Section Toggle.

Variable classList : option token_list.
Hypothesis laws : forall native, classList = Some native -> token_list_laws native.
Variable c : list Z.
Hypothesis c_accepted : accepted classList c = true.

Lemma has_words s : hasClass (choose classList) s c = mem c (words classList s).
Proof.
  unfold words. destruct classList as [l|]; cbn in *; [|now apply hasClass_mem].
  rewrite (law_contains l (laws l eq_refl)) by exact c_accepted. apply mem_distinct.
Qed.

Lemma set_words s : Forall (fun w => unspaced ascii_space w /\ w <> []) (distinct (split_words ascii_space s)).
Proof. apply incl_distinct, split_words_nonspace. Qed.

Lemma add_words s : mem c (words classList s) = false -> words classList (addClass (choose classList) s c) = put_in classList c (words classList s).
Proof.
  unfold words. destruct classList as [l|]; cbn in *; intros M.
  - rewrite (law_add l (laws l eq_refl)) by exact c_accepted. cbv zeta. rewrite mem_distinct, M. apply split_join; [reflexivity|].
    apply Forall_app. split; [apply set_words|repeat constructor; now apply token_unspaced].
  - now rewrite addClass_tokens, M.
Qed.

Lemma remove_words s : words classList (removeClass (choose classList) s c) = taken_out classList c (words classList s).
Proof.
  unfold words. destruct classList as [l|]; cbn in *; [|now apply removeClass_tokens].
  rewrite (law_remove l (laws l eq_refl)) by exact c_accepted. apply split_join; [reflexivity|].
  apply incl_Forall with (2 := set_words s). intros w I. now apply filter_In in I.
Qed.

Lemma mem_put_in w l : mem w (put_in classList c l) = mem w l || str_eqb w c.
Proof.
  clear laws c_accepted. unfold put_in. destruct classList; rewrite mem_app, ?mem_distinct; f_equal; cbn [mem existsb]; apply orb_false_r.
Qed.

Lemma mem_taken_out w l : w <> c -> mem w (taken_out classList c l) = mem w l.
Proof.
  clear laws c_accepted. intros N. unfold taken_out. destruct classList; [|now apply mem_remove_other]. rewrite mem_remove_all, mem_distinct.
  now rewrite (str_eqb_false c w) by congruence.
Qed.

End Toggle.

(** C39: Toggling a class.  With a [classList] that keeps the laws of the DOM standard, for any name it does not refuse (not
    empty, no ASCII white space), and without one, where the functions search the text by a pattern, for any name the pattern
    means literally (no white space and no special character): [hasClass] tells whether the name is among the words of the text;
    [toggleClass] adds it behind the other words if it is not, and takes it out if it is - [classList] every time it is named,
    the pattern only where it is first; [classList] also leaves every other word once.  So the answer of [hasClass] turns
    around, except without [classList] when the name was there twice or more: then it is still there.  No other word comes or
    goes.  (Words are separated by ASCII white space for [classList], by any white space for the pattern.) *)
Theorem toggle_turns (classList : option token_list) (s c : list Z) :
  (forall native, classList = Some native -> token_list_laws native) -> accepted classList c = true ->
  let f := choose classList in
  let s' := toggleClass f s c in
  let stays := match classList with Some _ => false | None => Nat.leb 2 (times c (words classList s)) end in
  hasClass f s c = mem c (words classList s) /\
  words classList s' = (if mem c (words classList s) then taken_out classList c (words classList s) else put_in classList c (words classList s)) /\
  hasClass f s' c = (if stays then true else negb (hasClass f s c)) /\
  (forall w, w <> c -> mem w (words classList s') = mem w (words classList s)).
Proof.
  intros L P f s' stays.
  assert (H : forall s, hasClass f s c = mem c (words classList s)) by (intros; now apply has_words).
  assert (T : words classList s' = if mem c (words classList s) then taken_out classList c (words classList s) else put_in classList c (words classList s)).
  { unfold s', toggleClass. rewrite H. destruct (mem c (words classList s)) eqn:M; [now apply remove_words|now apply add_words]. }
  split; [apply H|]. split; [exact T|]. rewrite !H, T. split.
  - destruct (mem c (words classList s)) eqn:M; [|rewrite mem_put_in, str_eqb_refl, orb_true_r; now destruct stays].
    subst stays. unfold taken_out. destruct classList; [apply mem_remove_all_same|]. cbn [negb]. now apply mem_remove_one_same.
  - intros w N. destruct (mem c (words classList s)); [now apply mem_taken_out|]. rewrite mem_put_in, (str_eqb_false w c) by congruence. apply orb_false_r.
Qed.

(** A [classList] as the standard describes it. *)
Definition standard : token_list := mkTokenList
  (fun s c => mem c (distinct (split_words ascii_space s)))
  (fun s c => join (let set := distinct (split_words ascii_space s) in if mem c set then set else set ++ [c]))
  (fun s c => join (remove_all c (distinct (split_words ascii_space s)))).

Lemma toggle_turns_witness :
  tokens (toggleClass by_pattern (js "menu  open") (js "open")) = [js "menu"] /\
  hasClass by_pattern (toggleClass by_pattern (js "open menu open") (js "open")) (js "open") = true /\
  split_words ascii_space (toggleClass (by_classList standard) (js "open menu open menu") (js "open")) = [js "menu"] /\
  hasClass (by_classList standard) (toggleClass (by_classList standard) (js "menu") (js "open")) (js "open") = true.
Proof.
  assert (L : forall native, Some standard = Some native -> token_list_laws native) by (intros n [= <-]; now constructor).
  destruct (toggle_turns None (js "menu  open") (js "open") ltac:(discriminate) eq_refl) as (_ & H1 & _).
  destruct (toggle_turns None (js "open menu open") (js "open") ltac:(discriminate) eq_refl) as (_ & _ & H2 & _).
  destruct (toggle_turns (Some standard) (js "open menu open menu") (js "open") L eq_refl) as (_ & H3 & _).
  destruct (toggle_turns (Some standard) (js "menu") (js "open") L eq_refl) as (_ & _ & H4 & _).
  split; [exact H1|]. split; [exact H2|]. split; [exact H3|exact H4].
Defined.

(** A class that is named twice is still there after it is removed; [classList] removes both. *)
Example second_stays : hasClass_pattern (removeClass_pattern (js "open menu open") (js "open")) (js "open") = true.
Proof. reflexivity. Qed.

End Classie.
