(* ===== verification/TableIndex.v ===== *)
(** * Checking tables of texts

    An index of texts by their code units (a binary trie), used to check facts about whole
    tables in time linear in their size: that a table is a function, and that no
    alternative of a pattern hides a later one.  Two texts may share a place in the index;
    the checks then fail, they are never wrong. *)

From Stdlib Require Import ZArith Lia List Bool FMapPositive.
From S2P Require Import Prelude Js Regex.
Import ListNotations.
#[local] Open Scope Z_scope.

(** ** Objects used as maps from texts

    The own properties in the order of insertion; assigning to a key that is there
    replaces its value in place. *)
Section Objects.

Context {V : Type}.

Fixpoint get (k : list Z) (o : list (list Z * V)) : option V :=
  match o with
  | [] => None
  | (k', v) :: o => if str_eqb k k' then Some v else get k o
  end.

Fixpoint set (k : list Z) (v : V) (o : list (list Z * V)) : list (list Z * V) :=
  match o with
  | [] => [(k, v)]
  | (k', v') :: o => if str_eqb k k' then (k', v) :: o else (k', v') :: set k v o
  end.

(** An object literal, or the assignments of a loop. *)
Definition object (entries : list (list Z * V)) : list (list Z * V) :=
  fold_left (fun o e => set (fst e) (snd e) o) entries [].

Lemma get_set k k' v o : get k (set k' v o) = if str_eqb k k' then Some v else get k o.
Proof.
  induction o as [|[k2 v2] o IH]; cbn; [easy|].
  destruct (str_eqb_spec k' k2) as [<-|N]; cbn.
  - now destruct (str_eqb k k').
  - rewrite IH. destruct (str_eqb_spec k k2) as [->|]; [|easy].
    now destruct (str_eqb_spec k2 k') as [<-|].
Qed.

Lemma object_snoc l e : object (l ++ [e]) = set (fst e) (snd e) (object l).
Proof. unfold object. now rewrite fold_left_app. Qed.

Lemma get_in k v o : get k o = Some v -> In (k, v) o.
Proof.
  induction o as [|[k' v'] o IH]; cbn; [easy|]. destruct (str_eqb_spec k k') as [<-|].
  - intros H. injection H as ->. now left.
  - intros H. right. now apply IH.
Qed.

Lemma get_object_in k v l : get k (object l) = Some v -> In (k, v) l.
Proof.
  revert v. induction l as [|[k' v'] l IH] using rev_ind; intros v; [easy|].
  rewrite object_snoc, get_set, in_app_iff. cbn [fst snd]. destruct (str_eqb_spec k k') as [<-|].
  - intros H. injection H as ->. right. now left.
  - intros H. left. now apply IH.
Qed.

Lemma get_none k o : get k o = None <-> ~ In k (map fst o).
Proof.
  induction o as [|[k' v'] o IH]; cbn; [now split|].
  destruct (str_eqb_spec k k') as [<-|N].
  - split; [easy|]. intros H. destruct H. now left.
  - rewrite IH. split; intros H; [intros [E|E]|]; [congruence|now apply H|]. intros E. apply H. now right.
Qed.

Lemma get_object_none k l : get k (object l) = None <-> ~ In k (map fst l).
Proof.
  induction l as [|[k' v'] l IH] using rev_ind; [now split|].
  rewrite object_snoc, get_set, map_app, in_app_iff. cbn [fst snd map In].
  destruct (str_eqb_spec k k') as [<-|N].
  - split; [easy|]. intros H. destruct H. right. now left.
  - rewrite IH. split; [intros H [E|[E|[]]]|]; [now apply H|congruence|]. intros H E. apply H. now left.
Qed.

(** A table in which a key never has two values. *)
Definition functional (l : list (list Z * V)) : Prop :=
  forall k v v', In (k, v) l -> In (k, v') l -> v = v'.

Lemma functional_get l k v : functional l -> In (k, v) l -> get k l = Some v.
Proof.
  intros F H. destruct (get k l) as [v'|] eqn:E.
  - apply get_in in E. f_equal. now apply (F k).
  - apply get_none in E. destruct E. now apply (in_map fst) in H.
Qed.

Lemma functional_object l k v : functional l -> In (k, v) l -> get k (object l) = Some v.
Proof.
  intros F H. destruct (get k (object l)) as [v'|] eqn:E.
  - apply get_object_in in E. f_equal. now apply (F k).
  - apply get_object_none in E. destruct E. now apply (in_map fst) in H.
Qed.

End Objects.

(** ** The index *)

Definition key_from (start : Z) (s : list Z) : Z := fold_left (fun a c => 65536 * a + c) s start.
Definition key (s : list Z) : positive := Z.to_pos (key_from 1 s).

Section Index.

Context {V : Type} (eqb : V -> V -> bool).
Hypothesis eqb_ok : forall a b, eqb a b = true -> a = b.

Definition index : Type := PositiveMap.t (list Z * V).

(** Adds an entry; an entry at the same place must be the same one. *)
Definition enter (m : option index) (e : list Z * V) : option index :=
  match m with
  | None => None
  | Some m =>
      match PositiveMap.find (key (fst e)) m with
      | None => Some (PositiveMap.add (key (fst e)) e m)
      | Some e' => if str_eqb (fst e') (fst e) && eqb (snd e') (snd e) then Some m else None
      end
  end.

Definition build (l : list (list Z * V)) : option index :=
  fold_left enter l (Some (PositiveMap.empty _)).

Definition lookup (k : list Z) (m : option index) : option V :=
  match m with
  | None => None
  | Some m =>
      match PositiveMap.find (key k) m with
      | Some e => if str_eqb (fst e) k then Some (snd e) else None
      | None => None
      end
  end.

Lemma build_snoc l e : build (l ++ [e]) = enter (build l) e.
Proof. unfold build. now rewrite fold_left_app. Qed.

Lemma build_spec l m : build l = Some m ->
  (forall e, In e l -> PositiveMap.find (key (fst e)) m = Some e) /\
  (forall p e, PositiveMap.find p m = Some e -> In e l).
Proof.
  revert m. induction l as [|e l IH] using rev_ind; intros m.
  - intros H. injection H as <-. split; [easy|]. intros p e. now rewrite PositiveMap.gempty.
  - rewrite build_snoc. unfold enter. destruct (build l) as [m0|]; [|easy].
    destruct (IH _ eq_refl) as [I1 I2]. destruct (PositiveMap.find (key (fst e)) m0) as [e'|] eqn:E.
    + destruct (str_eqb_spec (fst e') (fst e)) as [Hk|]; [|easy]. cbn [andb].
      destruct (eqb (snd e') (snd e)) eqn:Hv; [|easy]. intros H. injection H as <-.
      apply eqb_ok in Hv. assert (e' = e) as -> by (destruct e', e; cbn in *; congruence).
      split.
      * intros x Hx. apply in_app_iff in Hx as [Hx|[<-|[]]]; [now apply I1|easy].
      * intros p x Hx. apply in_app_iff. left. now apply (I2 p).
    + intros H. injection H as <-. split.
      * intros x Hx. apply in_app_iff in Hx as [Hx|[<-|[]]]; [|apply PositiveMap.gss].
        rewrite PositiveMap.gso; [now apply I1|]. intros K. apply I1 in Hx. rewrite K in Hx. congruence.
      * intros p x. destruct (Pos.eq_dec p (key (fst e))) as [->|N].
        -- rewrite PositiveMap.gss. intros H. injection H as <-. apply in_app_iff. right. now left.
        -- rewrite PositiveMap.gso by easy. intros H. apply in_app_iff. left. now apply (I2 p).
Qed.

Definition builds (l : list (list Z * V)) : bool := match build l with Some _ => true | None => false end.

Lemma builds_functional l : builds l = true -> functional l.
Proof.
  unfold builds. destruct (build l) as [m|] eqn:E; [|easy]. intros _ k v v' H H'.
  destruct (build_spec l m E) as [I _]. apply I in H, H'. cbn [fst] in *. congruence.
Qed.

Lemma lookup_in k v l : lookup k (build l) = Some v -> In (k, v) l.
Proof.
  unfold lookup. destruct (build l) as [m|] eqn:E; [|easy].
  destruct (PositiveMap.find (key k) m) as [[k' v']|] eqn:F; [|easy]. cbn [fst snd].
  destruct (str_eqb_spec k' k) as [->|]; [|easy]. intros H. injection H as ->.
  now apply (proj2 (build_spec l m E)) in F.
Qed.

Lemma lookup_complete k v l : builds l = true -> In (k, v) l -> lookup k (build l) = Some v.
Proof.
  unfold builds, lookup. destruct (build l) as [m|] eqn:E; [|easy]. intros _ H.
  apply (proj1 (build_spec l m E)) in H. cbn [fst] in H. rewrite H. cbn [fst snd]. now rewrite str_eqb_refl.
Qed.

Lemma lookup_none k l : builds l = true -> lookup k (build l) = None -> ~ In k (map fst l).
Proof.
  intros B H Hin. apply in_map_iff in Hin as ([k' v] & <- & Hin).
  apply (lookup_complete _ _ _ B) in Hin. cbn [fst] in *. congruence.
Qed.

End Index.

(** ** Alternatives in order *)

(** The keys of the proper prefixes of a text. *)
Fixpoint prefix_keys (a : Z) (s : list Z) : list positive :=
  match s with
  | [] => []
  | c :: s' => Z.to_pos a :: prefix_keys (65536 * a + c) s'
  end.

Definition enter_alternative (m : option (PositiveMap.t (list Z))) (a : list Z) : option (PositiveMap.t (list Z)) :=
  match m with
  | None => None
  | Some m =>
      match PositiveMap.find (key a) m with
      | Some b => if str_eqb b a then Some m else None
      | None =>
          if existsb (fun k => PositiveMap.mem k m) (prefix_keys 1 a) then None
          else Some (PositiveMap.add (key a) a m)
      end
  end.

(** No alternative is hidden by a shorter one in front of it. *)
Definition alternatives_ordered (l : list (list Z)) : bool :=
  match fold_left enter_alternative l (Some (PositiveMap.empty _)) with Some _ => true | None => false end.

Lemma prefix_keys_in a p c t : In (Z.to_pos (key_from a p)) (prefix_keys a (p ++ c :: t)).
Proof.
  revert a. induction p as [|x p IH]; intros a; cbn; [now left|]. right. apply IH.
Qed.

Lemma strip_first_app ic l1 l2 s :
  strip_first ic (l1 ++ l2) s = orelse (strip_first ic l1 s) (strip_first ic l2 s).
Proof.
  induction l1 as [|p l1 IH]; [reflexivity|]. cbn. now destruct (strip ic p s).
Qed.

Lemma alternatives_fold l m : fold_left enter_alternative l (Some (PositiveMap.empty _)) = Some m ->
  (forall a, In a l -> PositiveMap.find (key a) m <> None) /\
  (forall k a, PositiveMap.find k m = Some a -> In a l) /\
  (forall a, In a l -> strip_first false l a = Some []).
Proof.
  revert m. induction l as [|a l IH] using rev_ind; intros m.
  - intros H. injection H as <-. splits; try easy. intros k a. now rewrite PositiveMap.gempty.
  - rewrite fold_left_app. cbn [fold_left].
    destruct (fold_left enter_alternative l (Some (PositiveMap.empty _))) as [m0|]; [|easy].
    destruct (IH _ eq_refl) as (I1 & I2 & I3). clear IH.
    assert (Hold : forall x, In x l -> strip_first false (l ++ [a]) x = Some []).
    { intros x Hx. now rewrite strip_first_app, (I3 x Hx). }
    cbn [enter_alternative]. destruct (PositiveMap.find (key a) m0) as [b|] eqn:E.
    + destruct (str_eqb_spec b a) as [->|]; [|easy]. intros H. injection H as <-.
      apply I2 in E as Ha. splits.
      * intros x Hx. apply in_app_iff in Hx as [Hx|[<-|[]]]; now apply I1.
      * intros k x Hx. apply in_app_iff. left. now apply (I2 k).
      * intros x Hx. apply in_app_iff in Hx as [Hx|[<-|[]]]; now apply Hold.
    + destruct (existsb (fun k => PositiveMap.mem k m0) (prefix_keys 1 a)) eqn:P; [easy|].
      intros H. injection H as <-. splits.
      * intros x Hx. destruct (Pos.eq_dec (key x) (key a)) as [->|N]; [now rewrite PositiveMap.gss|].
        rewrite PositiveMap.gso by easy. apply in_app_iff in Hx as [Hx|[<-|[]]]; [now apply I1|easy].
      * intros k x. destruct (Pos.eq_dec k (key a)) as [->|N].
        -- rewrite PositiveMap.gss. intros H. injection H as <-. apply in_app_iff. right. now left.
        -- rewrite PositiveMap.gso by easy. intros H. apply in_app_iff. left. now apply (I2 k).
      * intros x Hx. apply in_app_iff in Hx as [Hx|[<-|[]]]; [now apply Hold|].
        rewrite strip_first_app, strip_first_none.
        -- cbn [strip_first]. pose proof (strip_self false a []) as Hs. rewrite app_nil_r in Hs. now rewrite Hs.
        -- intros p Hp. destruct (strip false p a) as [t|] eqn:S; [|easy]. exfalso.
           apply strip_exact in S. subst a. apply I1 in Hp. destruct t as [|c t].
           ++ rewrite app_nil_r in E. now apply Hp.
           ++ rewrite <- not_true_iff_false in P. apply P. apply existsb_exists.
              exists (key p). split; [apply prefix_keys_in|].
              unfold key in *. rewrite PositiveMap.mem_find.
              destruct (PositiveMap.find (Z.to_pos (key_from 1 p)) m0); [easy|now destruct Hp].
Qed.

(** In an ordered disjunction the first alternative that reads a text which is itself an
    alternative reads all of it. *)
Lemma alternatives_ordered_first l a : alternatives_ordered l = true -> In a l ->
  strip_first false l a = Some [].
Proof.
  unfold alternatives_ordered.
  destruct (fold_left enter_alternative l (Some (PositiveMap.empty _))) as [m|] eqn:E; [|easy].
  intros _. now apply (alternatives_fold l m E).
Qed.
