(* ===== verification/EmojiTables.v ===== *)
(** * The tables of emojione

    The three literal tables of src/src/qt/res/assets/plugins/emojione/emojione.js, entry
    by entry and in the order of the source: [emojioneList] (shortname to code points),
    [asciiList] (smiley to code points) and [jsEscapeMap] (UTF-16 text to code points),
    with the two literal patterns [asciiRegexp] and [unicodeRegexp].
    A table is cut in pieces of at most 150 source lines.  Keys and patterns keep the
    escapes of the source; [js_lit] decodes them. *)

From Stdlib Require Import ZArith List String.
From S2P Require Import Prelude Js.
Import ListNotations.
#[local] Open Scope Z_scope.
#[local] Open Scope string_scope.

(** The value of an entry: its code point sequences, the preferred one first, and whether
    its shortname is the canonical name of these sequences. *)
Record emoji : Type := Emoji { unicode : list (list Z); isCanonical : bool }.

(** The literal of an entry. *)
Definition entry (name : string) (codes : list string) (canonical : bool) : list Z * emoji :=
  (js name, {| unicode := map js codes; isCanonical := canonical |}).

Definition emojioneList_1 : list (list Z * emoji) := [
  entry ":kiss_ww:" ["1f469-200d-2764-fe0f-200d-1f48b-200d-1f469"; "1f469-2764-1f48b-1f469"] true;
  entry ":couplekiss_ww:" ["1f469-200d-2764-fe0f-200d-1f48b-200d-1f469"; "1f469-2764-1f48b-1f469"] false;
  entry ":kiss_mm:" ["1f468-200d-2764-fe0f-200d-1f48b-200d-1f468"; "1f468-2764-1f48b-1f468"] true;
  entry ":couplekiss_mm:" ["1f468-200d-2764-fe0f-200d-1f48b-200d-1f468"; "1f468-2764-1f48b-1f468"] false;
  entry ":family_mmbb:" ["1f468-200d-1f468-200d-1f466-200d-1f466"; "1f468-1f468-1f466-1f466"] true;
  entry ":family_mmgb:" ["1f468-200d-1f468-200d-1f467-200d-1f466"; "1f468-1f468-1f467-1f466"] true;
  entry ":family_mmgg:" ["1f468-200d-1f468-200d-1f467-200d-1f467"; "1f468-1f468-1f467-1f467"] true;
  entry ":family_mwbb:" ["1f468-200d-1f469-200d-1f466-200d-1f466"; "1f468-1f469-1f466-1f466"] true;
  entry ":family_mwgb:" ["1f468-200d-1f469-200d-1f467-200d-1f466"; "1f468-1f469-1f467-1f466"] true;
  entry ":family_mwgg:" ["1f468-200d-1f469-200d-1f467-200d-1f467"; "1f468-1f469-1f467-1f467"] true;
  entry ":family_wwbb:" ["1f469-200d-1f469-200d-1f466-200d-1f466"; "1f469-1f469-1f466-1f466"] true;
  entry ":family_wwgb:" ["1f469-200d-1f469-200d-1f467-200d-1f466"; "1f469-1f469-1f467-1f466"] true;
  entry ":family_wwgg:" ["1f469-200d-1f469-200d-1f467-200d-1f467"; "1f469-1f469-1f467-1f467"] true;
  entry ":couple_ww:" ["1f469-200d-2764-fe0f-200d-1f469"; "1f469-2764-1f469"] true;
  entry ":couple_with_heart_ww:" ["1f469-200d-2764-fe0f-200d-1f469"; "1f469-2764-1f469"] false;
  entry ":couple_mm:" ["1f468-200d-2764-fe0f-200d-1f468"; "1f468-2764-1f468"] true;
  entry ":couple_with_heart_mm:" ["1f468-200d-2764-fe0f-200d-1f468"; "1f468-2764-1f468"] false;
  entry ":family_mmb:" ["1f468-200d-1f468-200d-1f466"; "1f468-1f468-1f466"] true;
  entry ":family_mmg:" ["1f468-200d-1f468-200d-1f467"; "1f468-1f468-1f467"] true;
  entry ":family_mwg:" ["1f468-200d-1f469-200d-1f467"; "1f468-1f469-1f467"] true;
  entry ":family_wwb:" ["1f469-200d-1f469-200d-1f466"; "1f469-1f469-1f466"] true;
  entry ":family_wwg:" ["1f469-200d-1f469-200d-1f467"; "1f469-1f469-1f467"] true;
  entry ":eye_in_speech_bubble:" ["1f441-200d-1f5e8"; "1f441-1f5e8"] true;
  entry ":hash:" ["0023-fe0f-20e3"; "0023-20e3"] true;
  entry ":zero:" ["0030-fe0f-20e3"; "0030-20e3"] true;
  entry ":one:" ["0031-fe0f-20e3"; "0031-20e3"] true;
  entry ":two:" ["0032-fe0f-20e3"; "0032-20e3"] true;
  entry ":three:" ["0033-fe0f-20e3"; "0033-20e3"] true;
  entry ":four:" ["0034-fe0f-20e3"; "0034-20e3"] true;
  entry ":five:" ["0035-fe0f-20e3"; "0035-20e3"] true;
  entry ":six:" ["0036-fe0f-20e3"; "0036-20e3"] true;
  entry ":seven:" ["0037-fe0f-20e3"; "0037-20e3"] true;
  entry ":eight:" ["0038-fe0f-20e3"; "0038-20e3"] true;
  entry ":nine:" ["0039-fe0f-20e3"; "0039-20e3"] true;
  entry ":asterisk:" ["002a-fe0f-20e3"; "002a-20e3"] true;
  entry ":keycap_asterisk:" ["002a-fe0f-20e3"; "002a-20e3"] false;
  entry ":handball_tone5:" ["1f93e-1f3ff"] true;
  entry ":handball_tone4:" ["1f93e-1f3fe"] true;
  entry ":handball_tone3:" ["1f93e-1f3fd"] true;
  entry ":handball_tone2:" ["1f93e-1f3fc"] true;
  entry ":handball_tone1:" ["1f93e-1f3fb"] true;
  entry ":water_polo_tone5:" ["1f93d-1f3ff"] true;
  entry ":water_polo_tone4:" ["1f93d-1f3fe"] true;
  entry ":water_polo_tone3:" ["1f93d-1f3fd"] true;
  entry ":water_polo_tone2:" ["1f93d-1f3fc"] true;
  entry ":water_polo_tone1:" ["1f93d-1f3fb"] true;
  entry ":wrestlers_tone5:" ["1f93c-1f3ff"] true;
  entry ":wrestling_tone5:" ["1f93c-1f3ff"] false;
  entry ":wrestlers_tone4:" ["1f93c-1f3fe"] true;
  entry ":wrestling_tone4:" ["1f93c-1f3fe"] false;
  entry ":wrestlers_tone3:" ["1f93c-1f3fd"] true;
  entry ":wrestling_tone3:" ["1f93c-1f3fd"] false;
  entry ":wrestlers_tone2:" ["1f93c-1f3fc"] true;
  entry ":wrestling_tone2:" ["1f93c-1f3fc"] false;
  entry ":wrestlers_tone1:" ["1f93c-1f3fb"] true;
  entry ":wrestling_tone1:" ["1f93c-1f3fb"] false;
  entry ":juggling_tone5:" ["1f939-1f3ff"] true;
  entry ":juggler_tone5:" ["1f939-1f3ff"] false;
  entry ":juggling_tone4:" ["1f939-1f3fe"] true;
  entry ":juggler_tone4:" ["1f939-1f3fe"] false;
  entry ":juggling_tone3:" ["1f939-1f3fd"] true;
  entry ":juggler_tone3:" ["1f939-1f3fd"] false;
  entry ":juggling_tone2:" ["1f939-1f3fc"] true;
  entry ":juggler_tone2:" ["1f939-1f3fc"] false;
  entry ":juggling_tone1:" ["1f939-1f3fb"] true;
  entry ":juggler_tone1:" ["1f939-1f3fb"] false;
  entry ":cartwheel_tone5:" ["1f938-1f3ff"] true;
  entry ":person_doing_cartwheel_tone5:" ["1f938-1f3ff"] false;
  entry ":cartwheel_tone4:" ["1f938-1f3fe"] true;
  entry ":person_doing_cartwheel_tone4:" ["1f938-1f3fe"] false;
  entry ":cartwheel_tone3:" ["1f938-1f3fd"] true;
  entry ":person_doing_cartwheel_tone3:" ["1f938-1f3fd"] false;
  entry ":cartwheel_tone2:" ["1f938-1f3fc"] true;
  entry ":person_doing_cartwheel_tone2:" ["1f938-1f3fc"] false;
  entry ":cartwheel_tone1:" ["1f938-1f3fb"] true;
  entry ":person_doing_cartwheel_tone1:" ["1f938-1f3fb"] false;
  entry ":shrug_tone5:" ["1f937-1f3ff"] true;
  entry ":shrug_tone4:" ["1f937-1f3fe"] true;
  entry ":shrug_tone3:" ["1f937-1f3fd"] true;
  entry ":shrug_tone2:" ["1f937-1f3fc"] true;
  entry ":shrug_tone1:" ["1f937-1f3fb"] true;
  entry ":mrs_claus_tone5:" ["1f936-1f3ff"] true;
  entry ":mother_christmas_tone5:" ["1f936-1f3ff"] false;
  entry ":mrs_claus_tone4:" ["1f936-1f3fe"] true;
  entry ":mother_christmas_tone4:" ["1f936-1f3fe"] false;
  entry ":mrs_claus_tone3:" ["1f936-1f3fd"] true;
  entry ":mother_christmas_tone3:" ["1f936-1f3fd"] false;
  entry ":mrs_claus_tone2:" ["1f936-1f3fc"] true;
  entry ":mother_christmas_tone2:" ["1f936-1f3fc"] false;
  entry ":mrs_claus_tone1:" ["1f936-1f3fb"] true;
  entry ":mother_christmas_tone1:" ["1f936-1f3fb"] false;
  entry ":man_in_tuxedo_tone5:" ["1f935-1f3ff"] true;
  entry ":tuxedo_tone5:" ["1f935-1f3ff"] false;
  entry ":man_in_tuxedo_tone4:" ["1f935-1f3fe"] true;
  entry ":tuxedo_tone4:" ["1f935-1f3fe"] false;
  entry ":man_in_tuxedo_tone3:" ["1f935-1f3fd"] true;
  entry ":tuxedo_tone3:" ["1f935-1f3fd"] false;
  entry ":man_in_tuxedo_tone2:" ["1f935-1f3fc"] true;
  entry ":tuxedo_tone2:" ["1f935-1f3fc"] false;
  entry ":man_in_tuxedo_tone1:" ["1f935-1f3fb"] true;
  entry ":tuxedo_tone1:" ["1f935-1f3fb"] false;
  entry ":prince_tone5:" ["1f934-1f3ff"] true;
  entry ":prince_tone4:" ["1f934-1f3fe"] true;
  entry ":prince_tone3:" ["1f934-1f3fd"] true;
  entry ":prince_tone2:" ["1f934-1f3fc"] true
].

Definition emojioneList_2 : list (list Z * emoji) := [
  entry ":prince_tone1:" ["1f934-1f3fb"] true;
  entry ":selfie_tone5:" ["1f933-1f3ff"] true;
  entry ":selfie_tone4:" ["1f933-1f3fe"] true;
  entry ":selfie_tone3:" ["1f933-1f3fd"] true;
  entry ":selfie_tone2:" ["1f933-1f3fc"] true;
  entry ":selfie_tone1:" ["1f933-1f3fb"] true;
  entry ":pregnant_woman_tone5:" ["1f930-1f3ff"] true;
  entry ":expecting_woman_tone5:" ["1f930-1f3ff"] false;
  entry ":pregnant_woman_tone4:" ["1f930-1f3fe"] true;
  entry ":expecting_woman_tone4:" ["1f930-1f3fe"] false;
  entry ":pregnant_woman_tone3:" ["1f930-1f3fd"] true;
  entry ":expecting_woman_tone3:" ["1f930-1f3fd"] false;
  entry ":pregnant_woman_tone2:" ["1f930-1f3fc"] true;
  entry ":expecting_woman_tone2:" ["1f930-1f3fc"] false;
  entry ":pregnant_woman_tone1:" ["1f930-1f3fb"] true;
  entry ":expecting_woman_tone1:" ["1f930-1f3fb"] false;
  entry ":face_palm_tone5:" ["1f926-1f3ff"] true;
  entry ":facepalm_tone5:" ["1f926-1f3ff"] false;
  entry ":face_palm_tone4:" ["1f926-1f3fe"] true;
  entry ":facepalm_tone4:" ["1f926-1f3fe"] false;
  entry ":face_palm_tone3:" ["1f926-1f3fd"] true;
  entry ":facepalm_tone3:" ["1f926-1f3fd"] false;
  entry ":face_palm_tone2:" ["1f926-1f3fc"] true;
  entry ":facepalm_tone2:" ["1f926-1f3fc"] false;
  entry ":face_palm_tone1:" ["1f926-1f3fb"] true;
  entry ":facepalm_tone1:" ["1f926-1f3fb"] false;
  entry ":fingers_crossed_tone5:" ["1f91e-1f3ff"] true;
  entry ":hand_with_index_and_middle_fingers_crossed_tone5:" ["1f91e-1f3ff"] false;
  entry ":fingers_crossed_tone4:" ["1f91e-1f3fe"] true;
  entry ":hand_with_index_and_middle_fingers_crossed_tone4:" ["1f91e-1f3fe"] false;
  entry ":fingers_crossed_tone3:" ["1f91e-1f3fd"] true;
  entry ":hand_with_index_and_middle_fingers_crossed_tone3:" ["1f91e-1f3fd"] false;
  entry ":fingers_crossed_tone2:" ["1f91e-1f3fc"] true;
  entry ":hand_with_index_and_middle_fingers_crossed_tone2:" ["1f91e-1f3fc"] false;
  entry ":fingers_crossed_tone1:" ["1f91e-1f3fb"] true;
  entry ":hand_with_index_and_middle_fingers_crossed_tone1:" ["1f91e-1f3fb"] false;
  entry ":handshake_tone5:" ["1f91d-1f3ff"] true;
  entry ":shaking_hands_tone5:" ["1f91d-1f3ff"] false;
  entry ":handshake_tone4:" ["1f91d-1f3fe"] true;
  entry ":shaking_hands_tone4:" ["1f91d-1f3fe"] false;
  entry ":handshake_tone3:" ["1f91d-1f3fd"] true;
  entry ":shaking_hands_tone3:" ["1f91d-1f3fd"] false;
  entry ":handshake_tone2:" ["1f91d-1f3fc"] true;
  entry ":shaking_hands_tone2:" ["1f91d-1f3fc"] false;
  entry ":handshake_tone1:" ["1f91d-1f3fb"] true;
  entry ":shaking_hands_tone1:" ["1f91d-1f3fb"] false;
  entry ":right_facing_fist_tone5:" ["1f91c-1f3ff"] true;
  entry ":right_fist_tone5:" ["1f91c-1f3ff"] false;
  entry ":right_facing_fist_tone4:" ["1f91c-1f3fe"] true;
  entry ":right_fist_tone4:" ["1f91c-1f3fe"] false;
  entry ":right_facing_fist_tone3:" ["1f91c-1f3fd"] true;
  entry ":right_fist_tone3:" ["1f91c-1f3fd"] false;
  entry ":right_facing_fist_tone2:" ["1f91c-1f3fc"] true;
  entry ":right_fist_tone2:" ["1f91c-1f3fc"] false;
  entry ":right_facing_fist_tone1:" ["1f91c-1f3fb"] true;
  entry ":right_fist_tone1:" ["1f91c-1f3fb"] false;
  entry ":left_facing_fist_tone5:" ["1f91b-1f3ff"] true;
  entry ":left_fist_tone5:" ["1f91b-1f3ff"] false;
  entry ":left_facing_fist_tone4:" ["1f91b-1f3fe"] true;
  entry ":left_fist_tone4:" ["1f91b-1f3fe"] false;
  entry ":left_facing_fist_tone3:" ["1f91b-1f3fd"] true;
  entry ":left_fist_tone3:" ["1f91b-1f3fd"] false;
  entry ":left_facing_fist_tone2:" ["1f91b-1f3fc"] true;
  entry ":left_fist_tone2:" ["1f91b-1f3fc"] false;
  entry ":left_facing_fist_tone1:" ["1f91b-1f3fb"] true;
  entry ":left_fist_tone1:" ["1f91b-1f3fb"] false;
  entry ":raised_back_of_hand_tone5:" ["1f91a-1f3ff"] true;
  entry ":back_of_hand_tone5:" ["1f91a-1f3ff"] false;
  entry ":raised_back_of_hand_tone4:" ["1f91a-1f3fe"] true;
  entry ":back_of_hand_tone4:" ["1f91a-1f3fe"] false;
  entry ":raised_back_of_hand_tone3:" ["1f91a-1f3fd"] true;
  entry ":back_of_hand_tone3:" ["1f91a-1f3fd"] false;
  entry ":raised_back_of_hand_tone2:" ["1f91a-1f3fc"] true;
  entry ":back_of_hand_tone2:" ["1f91a-1f3fc"] false;
  entry ":raised_back_of_hand_tone1:" ["1f91a-1f3fb"] true;
  entry ":back_of_hand_tone1:" ["1f91a-1f3fb"] false;
  entry ":call_me_tone5:" ["1f919-1f3ff"] true;
  entry ":call_me_hand_tone5:" ["1f919-1f3ff"] false;
  entry ":call_me_tone4:" ["1f919-1f3fe"] true;
  entry ":call_me_hand_tone4:" ["1f919-1f3fe"] false;
  entry ":call_me_tone3:" ["1f919-1f3fd"] true;
  entry ":call_me_hand_tone3:" ["1f919-1f3fd"] false;
  entry ":call_me_tone2:" ["1f919-1f3fc"] true;
  entry ":call_me_hand_tone2:" ["1f919-1f3fc"] false;
  entry ":call_me_tone1:" ["1f919-1f3fb"] true;
  entry ":call_me_hand_tone1:" ["1f919-1f3fb"] false;
  entry ":metal_tone5:" ["1f918-1f3ff"] true;
  entry ":sign_of_the_horns_tone5:" ["1f918-1f3ff"] false;
  entry ":metal_tone4:" ["1f918-1f3fe"] true;
  entry ":sign_of_the_horns_tone4:" ["1f918-1f3fe"] false;
  entry ":metal_tone3:" ["1f918-1f3fd"] true;
  entry ":sign_of_the_horns_tone3:" ["1f918-1f3fd"] false;
  entry ":metal_tone2:" ["1f918-1f3fc"] true;
  entry ":sign_of_the_horns_tone2:" ["1f918-1f3fc"] false;
  entry ":metal_tone1:" ["1f918-1f3fb"] true;
  entry ":sign_of_the_horns_tone1:" ["1f918-1f3fb"] false;
  entry ":bath_tone5:" ["1f6c0-1f3ff"] true;
  entry ":bath_tone4:" ["1f6c0-1f3fe"] true;
  entry ":bath_tone3:" ["1f6c0-1f3fd"] true;
  entry ":bath_tone2:" ["1f6c0-1f3fc"] true;
  entry ":bath_tone1:" ["1f6c0-1f3fb"] true;
  entry ":walking_tone5:" ["1f6b6-1f3ff"] true;
  entry ":walking_tone4:" ["1f6b6-1f3fe"] true;
  entry ":walking_tone3:" ["1f6b6-1f3fd"] true;
  entry ":walking_tone2:" ["1f6b6-1f3fc"] true;
  entry ":walking_tone1:" ["1f6b6-1f3fb"] true;
  entry ":mountain_bicyclist_tone5:" ["1f6b5-1f3ff"] true;
  entry ":mountain_bicyclist_tone4:" ["1f6b5-1f3fe"] true;
  entry ":mountain_bicyclist_tone3:" ["1f6b5-1f3fd"] true;
  entry ":mountain_bicyclist_tone2:" ["1f6b5-1f3fc"] true;
  entry ":mountain_bicyclist_tone1:" ["1f6b5-1f3fb"] true;
  entry ":bicyclist_tone5:" ["1f6b4-1f3ff"] true;
  entry ":bicyclist_tone4:" ["1f6b4-1f3fe"] true;
  entry ":bicyclist_tone3:" ["1f6b4-1f3fd"] true;
  entry ":bicyclist_tone2:" ["1f6b4-1f3fc"] true;
  entry ":bicyclist_tone1:" ["1f6b4-1f3fb"] true;
  entry ":rowboat_tone5:" ["1f6a3-1f3ff"] true;
  entry ":rowboat_tone4:" ["1f6a3-1f3fe"] true;
  entry ":rowboat_tone3:" ["1f6a3-1f3fd"] true;
  entry ":rowboat_tone2:" ["1f6a3-1f3fc"] true;
  entry ":rowboat_tone1:" ["1f6a3-1f3fb"] true;
  entry ":pray_tone5:" ["1f64f-1f3ff"] true;
  entry ":pray_tone4:" ["1f64f-1f3fe"] true;
  entry ":pray_tone3:" ["1f64f-1f3fd"] true;
  entry ":pray_tone2:" ["1f64f-1f3fc"] true;
  entry ":pray_tone1:" ["1f64f-1f3fb"] true;
  entry ":person_with_pouting_face_tone5:" ["1f64e-1f3ff"] true;
  entry ":person_with_pouting_face_tone4:" ["1f64e-1f3fe"] true;
  entry ":person_with_pouting_face_tone3:" ["1f64e-1f3fd"] true;
  entry ":person_with_pouting_face_tone2:" ["1f64e-1f3fc"] true;
  entry ":person_with_pouting_face_tone1:" ["1f64e-1f3fb"] true;
  entry ":person_frowning_tone5:" ["1f64d-1f3ff"] true;
  entry ":person_frowning_tone4:" ["1f64d-1f3fe"] true;
  entry ":person_frowning_tone3:" ["1f64d-1f3fd"] true;
  entry ":person_frowning_tone2:" ["1f64d-1f3fc"] true;
  entry ":person_frowning_tone1:" ["1f64d-1f3fb"] true;
  entry ":raised_hands_tone5:" ["1f64c-1f3ff"] true;
  entry ":raised_hands_tone4:" ["1f64c-1f3fe"] true;
  entry ":raised_hands_tone3:" ["1f64c-1f3fd"] true;
  entry ":raised_hands_tone2:" ["1f64c-1f3fc"] true;
  entry ":raised_hands_tone1:" ["1f64c-1f3fb"] true;
  entry ":raising_hand_tone5:" ["1f64b-1f3ff"] true;
  entry ":raising_hand_tone4:" ["1f64b-1f3fe"] true;
  entry ":raising_hand_tone3:" ["1f64b-1f3fd"] true;
  entry ":raising_hand_tone2:" ["1f64b-1f3fc"] true;
  entry ":raising_hand_tone1:" ["1f64b-1f3fb"] true;
  entry ":bow_tone5:" ["1f647-1f3ff"] true;
  entry ":bow_tone4:" ["1f647-1f3fe"] true;
  entry ":bow_tone3:" ["1f647-1f3fd"] true;
  entry ":bow_tone2:" ["1f647-1f3fc"] true
].

Definition emojioneList_3 : list (list Z * emoji) := [
  entry ":bow_tone1:" ["1f647-1f3fb"] true;
  entry ":ok_woman_tone5:" ["1f646-1f3ff"] true;
  entry ":ok_woman_tone4:" ["1f646-1f3fe"] true;
  entry ":ok_woman_tone3:" ["1f646-1f3fd"] true;
  entry ":ok_woman_tone2:" ["1f646-1f3fc"] true;
  entry ":ok_woman_tone1:" ["1f646-1f3fb"] true;
  entry ":no_good_tone5:" ["1f645-1f3ff"] true;
  entry ":no_good_tone4:" ["1f645-1f3fe"] true;
  entry ":no_good_tone3:" ["1f645-1f3fd"] true;
  entry ":no_good_tone2:" ["1f645-1f3fc"] true;
  entry ":no_good_tone1:" ["1f645-1f3fb"] true;
  entry ":vulcan_tone5:" ["1f596-1f3ff"] true;
  entry ":raised_hand_with_part_between_middle_and_ring_fingers_tone5:" ["1f596-1f3ff"] false;
  entry ":vulcan_tone4:" ["1f596-1f3fe"] true;
  entry ":raised_hand_with_part_between_middle_and_ring_fingers_tone4:" ["1f596-1f3fe"] false;
  entry ":vulcan_tone3:" ["1f596-1f3fd"] true;
  entry ":raised_hand_with_part_between_middle_and_ring_fingers_tone3:" ["1f596-1f3fd"] false;
  entry ":vulcan_tone2:" ["1f596-1f3fc"] true;
  entry ":raised_hand_with_part_between_middle_and_ring_fingers_tone2:" ["1f596-1f3fc"] false;
  entry ":vulcan_tone1:" ["1f596-1f3fb"] true;
  entry ":raised_hand_with_part_between_middle_and_ring_fingers_tone1:" ["1f596-1f3fb"] false;
  entry ":middle_finger_tone5:" ["1f595-1f3ff"] true;
  entry ":reversed_hand_with_middle_finger_extended_tone5:" ["1f595-1f3ff"] false;
  entry ":middle_finger_tone4:" ["1f595-1f3fe"] true;
  entry ":reversed_hand_with_middle_finger_extended_tone4:" ["1f595-1f3fe"] false;
  entry ":middle_finger_tone3:" ["1f595-1f3fd"] true;
  entry ":reversed_hand_with_middle_finger_extended_tone3:" ["1f595-1f3fd"] false;
  entry ":middle_finger_tone2:" ["1f595-1f3fc"] true;
  entry ":reversed_hand_with_middle_finger_extended_tone2:" ["1f595-1f3fc"] false;
  entry ":middle_finger_tone1:" ["1f595-1f3fb"] true;
  entry ":reversed_hand_with_middle_finger_extended_tone1:" ["1f595-1f3fb"] false;
  entry ":hand_splayed_tone5:" ["1f590-1f3ff"] true;
  entry ":raised_hand_with_fingers_splayed_tone5:" ["1f590-1f3ff"] false;
  entry ":hand_splayed_tone4:" ["1f590-1f3fe"] true;
  entry ":raised_hand_with_fingers_splayed_tone4:" ["1f590-1f3fe"] false;
  entry ":hand_splayed_tone3:" ["1f590-1f3fd"] true;
  entry ":raised_hand_with_fingers_splayed_tone3:" ["1f590-1f3fd"] false;
  entry ":hand_splayed_tone2:" ["1f590-1f3fc"] true;
  entry ":raised_hand_with_fingers_splayed_tone2:" ["1f590-1f3fc"] false;
  entry ":hand_splayed_tone1:" ["1f590-1f3fb"] true;
  entry ":raised_hand_with_fingers_splayed_tone1:" ["1f590-1f3fb"] false;
  entry ":man_dancing_tone5:" ["1f57a-1f3ff"] true;
  entry ":male_dancer_tone5:" ["1f57a-1f3ff"] false;
  entry ":man_dancing_tone4:" ["1f57a-1f3fe"] true;
  entry ":male_dancer_tone4:" ["1f57a-1f3fe"] false;
  entry ":man_dancing_tone3:" ["1f57a-1f3fd"] true;
  entry ":male_dancer_tone3:" ["1f57a-1f3fd"] false;
  entry ":man_dancing_tone2:" ["1f57a-1f3fc"] true;
  entry ":male_dancer_tone2:" ["1f57a-1f3fc"] false;
  entry ":man_dancing_tone1:" ["1f57a-1f3fb"] true;
  entry ":male_dancer_tone1:" ["1f57a-1f3fb"] false;
  entry ":spy_tone5:" ["1f575-1f3ff"] true;
  entry ":sleuth_or_spy_tone5:" ["1f575-1f3ff"] false;
  entry ":spy_tone4:" ["1f575-1f3fe"] true;
  entry ":sleuth_or_spy_tone4:" ["1f575-1f3fe"] false;
  entry ":spy_tone3:" ["1f575-1f3fd"] true;
  entry ":sleuth_or_spy_tone3:" ["1f575-1f3fd"] false;
  entry ":spy_tone2:" ["1f575-1f3fc"] true;
  entry ":sleuth_or_spy_tone2:" ["1f575-1f3fc"] false;
  entry ":spy_tone1:" ["1f575-1f3fb"] true;
  entry ":sleuth_or_spy_tone1:" ["1f575-1f3fb"] false;
  entry ":muscle_tone5:" ["1f4aa-1f3ff"] true;
  entry ":muscle_tone4:" ["1f4aa-1f3fe"] true;
  entry ":muscle_tone3:" ["1f4aa-1f3fd"] true;
  entry ":muscle_tone2:" ["1f4aa-1f3fc"] true;
  entry ":muscle_tone1:" ["1f4aa-1f3fb"] true;
  entry ":haircut_tone5:" ["1f487-1f3ff"] true;
  entry ":haircut_tone4:" ["1f487-1f3fe"] true;
  entry ":haircut_tone3:" ["1f487-1f3fd"] true;
  entry ":haircut_tone2:" ["1f487-1f3fc"] true;
  entry ":haircut_tone1:" ["1f487-1f3fb"] true;
  entry ":massage_tone5:" ["1f486-1f3ff"] true;
  entry ":massage_tone4:" ["1f486-1f3fe"] true;
  entry ":massage_tone3:" ["1f486-1f3fd"] true;
  entry ":massage_tone2:" ["1f486-1f3fc"] true;
  entry ":massage_tone1:" ["1f486-1f3fb"] true;
  entry ":nail_care_tone5:" ["1f485-1f3ff"] true;
  entry ":nail_care_tone4:" ["1f485-1f3fe"] true;
  entry ":nail_care_tone3:" ["1f485-1f3fd"] true;
  entry ":nail_care_tone2:" ["1f485-1f3fc"] true;
  entry ":nail_care_tone1:" ["1f485-1f3fb"] true;
  entry ":dancer_tone5:" ["1f483-1f3ff"] true;
  entry ":dancer_tone4:" ["1f483-1f3fe"] true;
  entry ":dancer_tone3:" ["1f483-1f3fd"] true;
  entry ":dancer_tone2:" ["1f483-1f3fc"] true;
  entry ":dancer_tone1:" ["1f483-1f3fb"] true;
  entry ":guardsman_tone5:" ["1f482-1f3ff"] true;
  entry ":guardsman_tone4:" ["1f482-1f3fe"] true;
  entry ":guardsman_tone3:" ["1f482-1f3fd"] true;
  entry ":guardsman_tone2:" ["1f482-1f3fc"] true;
  entry ":guardsman_tone1:" ["1f482-1f3fb"] true;
  entry ":information_desk_person_tone5:" ["1f481-1f3ff"] true;
  entry ":information_desk_person_tone4:" ["1f481-1f3fe"] true;
  entry ":information_desk_person_tone3:" ["1f481-1f3fd"] true;
  entry ":information_desk_person_tone2:" ["1f481-1f3fc"] true;
  entry ":information_desk_person_tone1:" ["1f481-1f3fb"] true;
  entry ":angel_tone5:" ["1f47c-1f3ff"] true;
  entry ":angel_tone4:" ["1f47c-1f3fe"] true;
  entry ":angel_tone3:" ["1f47c-1f3fd"] true;
  entry ":angel_tone2:" ["1f47c-1f3fc"] true;
  entry ":angel_tone1:" ["1f47c-1f3fb"] true;
  entry ":princess_tone5:" ["1f478-1f3ff"] true;
  entry ":princess_tone4:" ["1f478-1f3fe"] true;
  entry ":princess_tone3:" ["1f478-1f3fd"] true;
  entry ":princess_tone2:" ["1f478-1f3fc"] true;
  entry ":princess_tone1:" ["1f478-1f3fb"] true;
  entry ":construction_worker_tone5:" ["1f477-1f3ff"] true;
  entry ":construction_worker_tone4:" ["1f477-1f3fe"] true;
  entry ":construction_worker_tone3:" ["1f477-1f3fd"] true;
  entry ":construction_worker_tone2:" ["1f477-1f3fc"] true;
  entry ":construction_worker_tone1:" ["1f477-1f3fb"] true;
  entry ":baby_tone5:" ["1f476-1f3ff"] true;
  entry ":baby_tone4:" ["1f476-1f3fe"] true;
  entry ":baby_tone3:" ["1f476-1f3fd"] true;
  entry ":baby_tone2:" ["1f476-1f3fc"] true;
  entry ":baby_tone1:" ["1f476-1f3fb"] true;
  entry ":older_woman_tone5:" ["1f475-1f3ff"] true;
  entry ":grandma_tone5:" ["1f475-1f3ff"] false;
  entry ":older_woman_tone4:" ["1f475-1f3fe"] true;
  entry ":grandma_tone4:" ["1f475-1f3fe"] false;
  entry ":older_woman_tone3:" ["1f475-1f3fd"] true;
  entry ":grandma_tone3:" ["1f475-1f3fd"] false;
  entry ":older_woman_tone2:" ["1f475-1f3fc"] true;
  entry ":grandma_tone2:" ["1f475-1f3fc"] false;
  entry ":older_woman_tone1:" ["1f475-1f3fb"] true;
  entry ":grandma_tone1:" ["1f475-1f3fb"] false;
  entry ":older_man_tone5:" ["1f474-1f3ff"] true;
  entry ":older_man_tone4:" ["1f474-1f3fe"] true;
  entry ":older_man_tone3:" ["1f474-1f3fd"] true;
  entry ":older_man_tone2:" ["1f474-1f3fc"] true;
  entry ":older_man_tone1:" ["1f474-1f3fb"] true;
  entry ":man_with_turban_tone5:" ["1f473-1f3ff"] true;
  entry ":man_with_turban_tone4:" ["1f473-1f3fe"] true;
  entry ":man_with_turban_tone3:" ["1f473-1f3fd"] true;
  entry ":man_with_turban_tone2:" ["1f473-1f3fc"] true
].

Definition emojioneList_4 : list (list Z * emoji) := [
  entry ":man_with_turban_tone1:" ["1f473-1f3fb"] true;
  entry ":man_with_gua_pi_mao_tone5:" ["1f472-1f3ff"] true;
  entry ":man_with_gua_pi_mao_tone4:" ["1f472-1f3fe"] true;
  entry ":man_with_gua_pi_mao_tone3:" ["1f472-1f3fd"] true;
  entry ":man_with_gua_pi_mao_tone2:" ["1f472-1f3fc"] true;
  entry ":man_with_gua_pi_mao_tone1:" ["1f472-1f3fb"] true;
  entry ":person_with_blond_hair_tone5:" ["1f471-1f3ff"] true;
  entry ":person_with_blond_hair_tone4:" ["1f471-1f3fe"] true;
  entry ":person_with_blond_hair_tone3:" ["1f471-1f3fd"] true;
  entry ":person_with_blond_hair_tone2:" ["1f471-1f3fc"] true;
  entry ":person_with_blond_hair_tone1:" ["1f471-1f3fb"] true;
  entry ":bride_with_veil_tone5:" ["1f470-1f3ff"] true;
  entry ":bride_with_veil_tone4:" ["1f470-1f3fe"] true;
  entry ":bride_with_veil_tone3:" ["1f470-1f3fd"] true;
  entry ":bride_with_veil_tone2:" ["1f470-1f3fc"] true;
  entry ":bride_with_veil_tone1:" ["1f470-1f3fb"] true;
  entry ":cop_tone5:" ["1f46e-1f3ff"] true;
  entry ":cop_tone4:" ["1f46e-1f3fe"] true;
  entry ":cop_tone3:" ["1f46e-1f3fd"] true;
  entry ":cop_tone2:" ["1f46e-1f3fc"] true;
  entry ":cop_tone1:" ["1f46e-1f3fb"] true;
  entry ":woman_tone5:" ["1f469-1f3ff"] true;
  entry ":woman_tone4:" ["1f469-1f3fe"] true;
  entry ":woman_tone3:" ["1f469-1f3fd"] true;
  entry ":woman_tone2:" ["1f469-1f3fc"] true;
  entry ":woman_tone1:" ["1f469-1f3fb"] true;
  entry ":man_tone5:" ["1f468-1f3ff"] true;
  entry ":man_tone4:" ["1f468-1f3fe"] true;
  entry ":man_tone3:" ["1f468-1f3fd"] true;
  entry ":man_tone2:" ["1f468-1f3fc"] true;
  entry ":man_tone1:" ["1f468-1f3fb"] true;
  entry ":girl_tone5:" ["1f467-1f3ff"] true;
  entry ":girl_tone4:" ["1f467-1f3fe"] true;
  entry ":girl_tone3:" ["1f467-1f3fd"] true;
  entry ":girl_tone2:" ["1f467-1f3fc"] true;
  entry ":girl_tone1:" ["1f467-1f3fb"] true;
  entry ":boy_tone5:" ["1f466-1f3ff"] true;
  entry ":boy_tone4:" ["1f466-1f3fe"] true;
  entry ":boy_tone3:" ["1f466-1f3fd"] true;
  entry ":boy_tone2:" ["1f466-1f3fc"] true;
  entry ":boy_tone1:" ["1f466-1f3fb"] true;
  entry ":open_hands_tone5:" ["1f450-1f3ff"] true;
  entry ":open_hands_tone4:" ["1f450-1f3fe"] true;
  entry ":open_hands_tone3:" ["1f450-1f3fd"] true;
  entry ":open_hands_tone2:" ["1f450-1f3fc"] true;
  entry ":open_hands_tone1:" ["1f450-1f3fb"] true;
  entry ":clap_tone5:" ["1f44f-1f3ff"] true;
  entry ":clap_tone4:" ["1f44f-1f3fe"] true;
  entry ":clap_tone3:" ["1f44f-1f3fd"] true;
  entry ":clap_tone2:" ["1f44f-1f3fc"] true;
  entry ":clap_tone1:" ["1f44f-1f3fb"] true;
  entry ":thumbsdown_tone5:" ["1f44e-1f3ff"] true;
  entry ":-1_tone5:" ["1f44e-1f3ff"] false;
  entry ":thumbdown_tone5:" ["1f44e-1f3ff"] false;
  entry ":thumbsdown_tone4:" ["1f44e-1f3fe"] true;
  entry ":-1_tone4:" ["1f44e-1f3fe"] false;
  entry ":thumbdown_tone4:" ["1f44e-1f3fe"] false;
  entry ":thumbsdown_tone3:" ["1f44e-1f3fd"] true;
  entry ":-1_tone3:" ["1f44e-1f3fd"] false;
  entry ":thumbdown_tone3:" ["1f44e-1f3fd"] false;
  entry ":thumbsdown_tone2:" ["1f44e-1f3fc"] true;
  entry ":-1_tone2:" ["1f44e-1f3fc"] false;
  entry ":thumbdown_tone2:" ["1f44e-1f3fc"] false;
  entry ":thumbsdown_tone1:" ["1f44e-1f3fb"] true;
  entry ":-1_tone1:" ["1f44e-1f3fb"] false;
  entry ":thumbdown_tone1:" ["1f44e-1f3fb"] false;
  entry ":thumbsup_tone5:" ["1f44d-1f3ff"] true;
  entry ":+1_tone5:" ["1f44d-1f3ff"] false;
  entry ":thumbup_tone5:" ["1f44d-1f3ff"] false;
  entry ":thumbsup_tone4:" ["1f44d-1f3fe"] true;
  entry ":+1_tone4:" ["1f44d-1f3fe"] false;
  entry ":thumbup_tone4:" ["1f44d-1f3fe"] false;
  entry ":thumbsup_tone3:" ["1f44d-1f3fd"] true;
  entry ":+1_tone3:" ["1f44d-1f3fd"] false;
  entry ":thumbup_tone3:" ["1f44d-1f3fd"] false;
  entry ":thumbsup_tone2:" ["1f44d-1f3fc"] true;
  entry ":+1_tone2:" ["1f44d-1f3fc"] false;
  entry ":thumbup_tone2:" ["1f44d-1f3fc"] false;
  entry ":thumbsup_tone1:" ["1f44d-1f3fb"] true;
  entry ":+1_tone1:" ["1f44d-1f3fb"] false;
  entry ":thumbup_tone1:" ["1f44d-1f3fb"] false;
  entry ":ok_hand_tone5:" ["1f44c-1f3ff"] true;
  entry ":ok_hand_tone4:" ["1f44c-1f3fe"] true;
  entry ":ok_hand_tone3:" ["1f44c-1f3fd"] true;
  entry ":ok_hand_tone2:" ["1f44c-1f3fc"] true;
  entry ":ok_hand_tone1:" ["1f44c-1f3fb"] true;
  entry ":wave_tone5:" ["1f44b-1f3ff"] true;
  entry ":wave_tone4:" ["1f44b-1f3fe"] true;
  entry ":wave_tone3:" ["1f44b-1f3fd"] true;
  entry ":wave_tone2:" ["1f44b-1f3fc"] true;
  entry ":wave_tone1:" ["1f44b-1f3fb"] true;
  entry ":punch_tone5:" ["1f44a-1f3ff"] true;
  entry ":punch_tone4:" ["1f44a-1f3fe"] true;
  entry ":punch_tone3:" ["1f44a-1f3fd"] true;
  entry ":punch_tone2:" ["1f44a-1f3fc"] true;
  entry ":punch_tone1:" ["1f44a-1f3fb"] true;
  entry ":point_right_tone5:" ["1f449-1f3ff"] true;
  entry ":point_right_tone4:" ["1f449-1f3fe"] true;
  entry ":point_right_tone3:" ["1f449-1f3fd"] true;
  entry ":point_right_tone2:" ["1f449-1f3fc"] true;
  entry ":point_right_tone1:" ["1f449-1f3fb"] true;
  entry ":point_left_tone5:" ["1f448-1f3ff"] true;
  entry ":point_left_tone4:" ["1f448-1f3fe"] true;
  entry ":point_left_tone3:" ["1f448-1f3fd"] true;
  entry ":point_left_tone2:" ["1f448-1f3fc"] true;
  entry ":point_left_tone1:" ["1f448-1f3fb"] true;
  entry ":point_down_tone5:" ["1f447-1f3ff"] true;
  entry ":point_down_tone4:" ["1f447-1f3fe"] true;
  entry ":point_down_tone3:" ["1f447-1f3fd"] true;
  entry ":point_down_tone2:" ["1f447-1f3fc"] true;
  entry ":point_down_tone1:" ["1f447-1f3fb"] true;
  entry ":point_up_2_tone5:" ["1f446-1f3ff"] true;
  entry ":point_up_2_tone4:" ["1f446-1f3fe"] true;
  entry ":point_up_2_tone3:" ["1f446-1f3fd"] true;
  entry ":point_up_2_tone2:" ["1f446-1f3fc"] true;
  entry ":point_up_2_tone1:" ["1f446-1f3fb"] true;
  entry ":nose_tone5:" ["1f443-1f3ff"] true;
  entry ":nose_tone4:" ["1f443-1f3fe"] true;
  entry ":nose_tone3:" ["1f443-1f3fd"] true;
  entry ":nose_tone2:" ["1f443-1f3fc"] true;
  entry ":nose_tone1:" ["1f443-1f3fb"] true;
  entry ":ear_tone5:" ["1f442-1f3ff"] true;
  entry ":ear_tone4:" ["1f442-1f3fe"] true;
  entry ":ear_tone3:" ["1f442-1f3fd"] true;
  entry ":ear_tone2:" ["1f442-1f3fc"] true;
  entry ":ear_tone1:" ["1f442-1f3fb"] true;
  entry ":gay_pride_flag:" ["1f3f3-1f308"] true;
  entry ":rainbow_flag:" ["1f3f3-1f308"] false;
  entry ":lifter_tone5:" ["1f3cb-1f3ff"] true;
  entry ":weight_lifter_tone5:" ["1f3cb-1f3ff"] false;
  entry ":lifter_tone4:" ["1f3cb-1f3fe"] true;
  entry ":weight_lifter_tone4:" ["1f3cb-1f3fe"] false;
  entry ":lifter_tone3:" ["1f3cb-1f3fd"] true;
  entry ":weight_lifter_tone3:" ["1f3cb-1f3fd"] false;
  entry ":lifter_tone2:" ["1f3cb-1f3fc"] true;
  entry ":weight_lifter_tone2:" ["1f3cb-1f3fc"] false;
  entry ":lifter_tone1:" ["1f3cb-1f3fb"] true;
  entry ":weight_lifter_tone1:" ["1f3cb-1f3fb"] false;
  entry ":swimmer_tone5:" ["1f3ca-1f3ff"] true;
  entry ":swimmer_tone4:" ["1f3ca-1f3fe"] true;
  entry ":swimmer_tone3:" ["1f3ca-1f3fd"] true;
  entry ":swimmer_tone2:" ["1f3ca-1f3fc"] true;
  entry ":swimmer_tone1:" ["1f3ca-1f3fb"] true;
  entry ":horse_racing_tone5:" ["1f3c7-1f3ff"] true;
  entry ":horse_racing_tone4:" ["1f3c7-1f3fe"] true;
  entry ":horse_racing_tone3:" ["1f3c7-1f3fd"] true;
  entry ":horse_racing_tone2:" ["1f3c7-1f3fc"] true;
  entry ":horse_racing_tone1:" ["1f3c7-1f3fb"] true;
  entry ":surfer_tone5:" ["1f3c4-1f3ff"] true;
  entry ":surfer_tone4:" ["1f3c4-1f3fe"] true
].

Definition emojioneList_5 : list (list Z * emoji) := [
  entry ":surfer_tone3:" ["1f3c4-1f3fd"] true;
  entry ":surfer_tone2:" ["1f3c4-1f3fc"] true;
  entry ":surfer_tone1:" ["1f3c4-1f3fb"] true;
  entry ":runner_tone5:" ["1f3c3-1f3ff"] true;
  entry ":runner_tone4:" ["1f3c3-1f3fe"] true;
  entry ":runner_tone3:" ["1f3c3-1f3fd"] true;
  entry ":runner_tone2:" ["1f3c3-1f3fc"] true;
  entry ":runner_tone1:" ["1f3c3-1f3fb"] true;
  entry ":santa_tone5:" ["1f385-1f3ff"] true;
  entry ":santa_tone4:" ["1f385-1f3fe"] true;
  entry ":santa_tone3:" ["1f385-1f3fd"] true;
  entry ":santa_tone2:" ["1f385-1f3fc"] true;
  entry ":santa_tone1:" ["1f385-1f3fb"] true;
  entry ":flag_zw:" ["1f1ff-1f1fc"] true;
  entry ":zw:" ["1f1ff-1f1fc"] false;
  entry ":flag_zm:" ["1f1ff-1f1f2"] true;
  entry ":zm:" ["1f1ff-1f1f2"] false;
  entry ":flag_za:" ["1f1ff-1f1e6"] true;
  entry ":za:" ["1f1ff-1f1e6"] false;
  entry ":flag_yt:" ["1f1fe-1f1f9"] true;
  entry ":yt:" ["1f1fe-1f1f9"] false;
  entry ":flag_ye:" ["1f1fe-1f1ea"] true;
  entry ":ye:" ["1f1fe-1f1ea"] false;
  entry ":flag_xk:" ["1f1fd-1f1f0"] true;
  entry ":xk:" ["1f1fd-1f1f0"] false;
  entry ":flag_ws:" ["1f1fc-1f1f8"] true;
  entry ":ws:" ["1f1fc-1f1f8"] false;
  entry ":flag_wf:" ["1f1fc-1f1eb"] true;
  entry ":wf:" ["1f1fc-1f1eb"] false;
  entry ":flag_vu:" ["1f1fb-1f1fa"] true;
  entry ":vu:" ["1f1fb-1f1fa"] false;
  entry ":flag_vn:" ["1f1fb-1f1f3"] true;
  entry ":vn:" ["1f1fb-1f1f3"] false;
  entry ":flag_vi:" ["1f1fb-1f1ee"] true;
  entry ":vi:" ["1f1fb-1f1ee"] false;
  entry ":flag_vg:" ["1f1fb-1f1ec"] true;
  entry ":vg:" ["1f1fb-1f1ec"] false;
  entry ":flag_ve:" ["1f1fb-1f1ea"] true;
  entry ":ve:" ["1f1fb-1f1ea"] false;
  entry ":flag_vc:" ["1f1fb-1f1e8"] true;
  entry ":vc:" ["1f1fb-1f1e8"] false;
  entry ":flag_va:" ["1f1fb-1f1e6"] true;
  entry ":va:" ["1f1fb-1f1e6"] false;
  entry ":flag_uz:" ["1f1fa-1f1ff"] true;
  entry ":uz:" ["1f1fa-1f1ff"] false;
  entry ":flag_uy:" ["1f1fa-1f1fe"] true;
  entry ":uy:" ["1f1fa-1f1fe"] false;
  entry ":flag_us:" ["1f1fa-1f1f8"] true;
  entry ":us:" ["1f1fa-1f1f8"] false;
  entry ":flag_um:" ["1f1fa-1f1f2"] true;
  entry ":um:" ["1f1fa-1f1f2"] false;
  entry ":flag_ug:" ["1f1fa-1f1ec"] true;
  entry ":ug:" ["1f1fa-1f1ec"] false;
  entry ":flag_ua:" ["1f1fa-1f1e6"] true;
  entry ":ua:" ["1f1fa-1f1e6"] false;
  entry ":flag_tz:" ["1f1f9-1f1ff"] true;
  entry ":tz:" ["1f1f9-1f1ff"] false;
  entry ":flag_tw:" ["1f1f9-1f1fc"] true;
  entry ":tw:" ["1f1f9-1f1fc"] false;
  entry ":flag_tv:" ["1f1f9-1f1fb"] true;
  entry ":tuvalu:" ["1f1f9-1f1fb"] false;
  entry ":flag_tt:" ["1f1f9-1f1f9"] true;
  entry ":tt:" ["1f1f9-1f1f9"] false;
  entry ":flag_tr:" ["1f1f9-1f1f7"] true;
  entry ":tr:" ["1f1f9-1f1f7"] false;
  entry ":flag_to:" ["1f1f9-1f1f4"] true;
  entry ":to:" ["1f1f9-1f1f4"] false;
  entry ":flag_tn:" ["1f1f9-1f1f3"] true;
  entry ":tn:" ["1f1f9-1f1f3"] false;
  entry ":flag_tm:" ["1f1f9-1f1f2"] true;
  entry ":turkmenistan:" ["1f1f9-1f1f2"] false;
  entry ":flag_tl:" ["1f1f9-1f1f1"] true;
  entry ":tl:" ["1f1f9-1f1f1"] false;
  entry ":flag_tk:" ["1f1f9-1f1f0"] true;
  entry ":tk:" ["1f1f9-1f1f0"] false;
  entry ":flag_tj:" ["1f1f9-1f1ef"] true;
  entry ":tj:" ["1f1f9-1f1ef"] false;
  entry ":flag_th:" ["1f1f9-1f1ed"] true;
  entry ":th:" ["1f1f9-1f1ed"] false;
  entry ":flag_tg:" ["1f1f9-1f1ec"] true;
  entry ":tg:" ["1f1f9-1f1ec"] false;
  entry ":flag_tf:" ["1f1f9-1f1eb"] true;
  entry ":tf:" ["1f1f9-1f1eb"] false;
  entry ":flag_td:" ["1f1f9-1f1e9"] true;
  entry ":td:" ["1f1f9-1f1e9"] false;
  entry ":flag_tc:" ["1f1f9-1f1e8"] true;
  entry ":tc:" ["1f1f9-1f1e8"] false;
  entry ":flag_ta:" ["1f1f9-1f1e6"] true;
  entry ":ta:" ["1f1f9-1f1e6"] false;
  entry ":flag_sz:" ["1f1f8-1f1ff"] true;
  entry ":sz:" ["1f1f8-1f1ff"] false;
  entry ":flag_sy:" ["1f1f8-1f1fe"] true;
  entry ":sy:" ["1f1f8-1f1fe"] false;
  entry ":flag_sx:" ["1f1f8-1f1fd"] true;
  entry ":sx:" ["1f1f8-1f1fd"] false;
  entry ":flag_sv:" ["1f1f8-1f1fb"] true;
  entry ":sv:" ["1f1f8-1f1fb"] false;
  entry ":flag_st:" ["1f1f8-1f1f9"] true;
  entry ":st:" ["1f1f8-1f1f9"] false;
  entry ":flag_ss:" ["1f1f8-1f1f8"] true;
  entry ":ss:" ["1f1f8-1f1f8"] false;
  entry ":flag_sr:" ["1f1f8-1f1f7"] true;
  entry ":sr:" ["1f1f8-1f1f7"] false;
  entry ":flag_so:" ["1f1f8-1f1f4"] true;
  entry ":so:" ["1f1f8-1f1f4"] false;
  entry ":flag_sn:" ["1f1f8-1f1f3"] true;
  entry ":sn:" ["1f1f8-1f1f3"] false;
  entry ":flag_sm:" ["1f1f8-1f1f2"] true;
  entry ":sm:" ["1f1f8-1f1f2"] false;
  entry ":flag_sl:" ["1f1f8-1f1f1"] true;
  entry ":sl:" ["1f1f8-1f1f1"] false;
  entry ":flag_sk:" ["1f1f8-1f1f0"] true;
  entry ":sk:" ["1f1f8-1f1f0"] false;
  entry ":flag_sj:" ["1f1f8-1f1ef"] true;
  entry ":sj:" ["1f1f8-1f1ef"] false;
  entry ":flag_si:" ["1f1f8-1f1ee"] true;
  entry ":si:" ["1f1f8-1f1ee"] false;
  entry ":flag_sh:" ["1f1f8-1f1ed"] true;
  entry ":sh:" ["1f1f8-1f1ed"] false;
  entry ":flag_sg:" ["1f1f8-1f1ec"] true;
  entry ":sg:" ["1f1f8-1f1ec"] false;
  entry ":flag_se:" ["1f1f8-1f1ea"] true;
  entry ":se:" ["1f1f8-1f1ea"] false;
  entry ":flag_sd:" ["1f1f8-1f1e9"] true;
  entry ":sd:" ["1f1f8-1f1e9"] false;
  entry ":flag_sc:" ["1f1f8-1f1e8"] true;
  entry ":sc:" ["1f1f8-1f1e8"] false;
  entry ":flag_sb:" ["1f1f8-1f1e7"] true;
  entry ":sb:" ["1f1f8-1f1e7"] false;
  entry ":flag_sa:" ["1f1f8-1f1e6"] true;
  entry ":saudiarabia:" ["1f1f8-1f1e6"] false;
  entry ":saudi:" ["1f1f8-1f1e6"] false;
  entry ":flag_rw:" ["1f1f7-1f1fc"] true;
  entry ":rw:" ["1f1f7-1f1fc"] false;
  entry ":flag_ru:" ["1f1f7-1f1fa"] true;
  entry ":ru:" ["1f1f7-1f1fa"] false;
  entry ":flag_rs:" ["1f1f7-1f1f8"] true;
  entry ":rs:" ["1f1f7-1f1f8"] false;
  entry ":flag_ro:" ["1f1f7-1f1f4"] true;
  entry ":ro:" ["1f1f7-1f1f4"] false;
  entry ":flag_re:" ["1f1f7-1f1ea"] true;
  entry ":re:" ["1f1f7-1f1ea"] false;
  entry ":flag_qa:" ["1f1f6-1f1e6"] true;
  entry ":qa:" ["1f1f6-1f1e6"] false;
  entry ":flag_py:" ["1f1f5-1f1fe"] true;
  entry ":py:" ["1f1f5-1f1fe"] false;
  entry ":flag_pw:" ["1f1f5-1f1fc"] true;
  entry ":pw:" ["1f1f5-1f1fc"] false;
  entry ":flag_pt:" ["1f1f5-1f1f9"] true;
  entry ":pt:" ["1f1f5-1f1f9"] false
].

Definition emojioneList_6 : list (list Z * emoji) := [
  entry ":flag_ps:" ["1f1f5-1f1f8"] true;
  entry ":ps:" ["1f1f5-1f1f8"] false;
  entry ":flag_pr:" ["1f1f5-1f1f7"] true;
  entry ":pr:" ["1f1f5-1f1f7"] false;
  entry ":flag_pn:" ["1f1f5-1f1f3"] true;
  entry ":pn:" ["1f1f5-1f1f3"] false;
  entry ":flag_pm:" ["1f1f5-1f1f2"] true;
  entry ":pm:" ["1f1f5-1f1f2"] false;
  entry ":flag_pl:" ["1f1f5-1f1f1"] true;
  entry ":pl:" ["1f1f5-1f1f1"] false;
  entry ":flag_pk:" ["1f1f5-1f1f0"] true;
  entry ":pk:" ["1f1f5-1f1f0"] false;
  entry ":flag_ph:" ["1f1f5-1f1ed"] true;
  entry ":ph:" ["1f1f5-1f1ed"] false;
  entry ":flag_pg:" ["1f1f5-1f1ec"] true;
  entry ":pg:" ["1f1f5-1f1ec"] false;
  entry ":flag_pf:" ["1f1f5-1f1eb"] true;
  entry ":pf:" ["1f1f5-1f1eb"] false;
  entry ":flag_pe:" ["1f1f5-1f1ea"] true;
  entry ":pe:" ["1f1f5-1f1ea"] false;
  entry ":flag_pa:" ["1f1f5-1f1e6"] true;
  entry ":pa:" ["1f1f5-1f1e6"] false;
  entry ":flag_om:" ["1f1f4-1f1f2"] true;
  entry ":om:" ["1f1f4-1f1f2"] false;
  entry ":flag_nz:" ["1f1f3-1f1ff"] true;
  entry ":nz:" ["1f1f3-1f1ff"] false;
  entry ":flag_nu:" ["1f1f3-1f1fa"] true;
  entry ":nu:" ["1f1f3-1f1fa"] false;
  entry ":flag_nr:" ["1f1f3-1f1f7"] true;
  entry ":nr:" ["1f1f3-1f1f7"] false;
  entry ":flag_np:" ["1f1f3-1f1f5"] true;
  entry ":np:" ["1f1f3-1f1f5"] false;
  entry ":flag_no:" ["1f1f3-1f1f4"] true;
  entry ":no:" ["1f1f3-1f1f4"] false;
  entry ":flag_nl:" ["1f1f3-1f1f1"] true;
  entry ":nl:" ["1f1f3-1f1f1"] false;
  entry ":flag_ni:" ["1f1f3-1f1ee"] true;
  entry ":ni:" ["1f1f3-1f1ee"] false;
  entry ":flag_ng:" ["1f1f3-1f1ec"] true;
  entry ":nigeria:" ["1f1f3-1f1ec"] false;
  entry ":flag_nf:" ["1f1f3-1f1eb"] true;
  entry ":nf:" ["1f1f3-1f1eb"] false;
  entry ":flag_ne:" ["1f1f3-1f1ea"] true;
  entry ":ne:" ["1f1f3-1f1ea"] false;
  entry ":flag_nc:" ["1f1f3-1f1e8"] true;
  entry ":nc:" ["1f1f3-1f1e8"] false;
  entry ":flag_na:" ["1f1f3-1f1e6"] true;
  entry ":na:" ["1f1f3-1f1e6"] false;
  entry ":flag_mz:" ["1f1f2-1f1ff"] true;
  entry ":mz:" ["1f1f2-1f1ff"] false;
  entry ":flag_my:" ["1f1f2-1f1fe"] true;
  entry ":my:" ["1f1f2-1f1fe"] false;
  entry ":flag_mx:" ["1f1f2-1f1fd"] true;
  entry ":mx:" ["1f1f2-1f1fd"] false;
  entry ":flag_mw:" ["1f1f2-1f1fc"] true;
  entry ":mw:" ["1f1f2-1f1fc"] false;
  entry ":flag_mv:" ["1f1f2-1f1fb"] true;
  entry ":mv:" ["1f1f2-1f1fb"] false;
  entry ":flag_mu:" ["1f1f2-1f1fa"] true;
  entry ":mu:" ["1f1f2-1f1fa"] false;
  entry ":flag_mt:" ["1f1f2-1f1f9"] true;
  entry ":mt:" ["1f1f2-1f1f9"] false;
  entry ":flag_ms:" ["1f1f2-1f1f8"] true;
  entry ":ms:" ["1f1f2-1f1f8"] false;
  entry ":flag_mr:" ["1f1f2-1f1f7"] true;
  entry ":mr:" ["1f1f2-1f1f7"] false;
  entry ":flag_mq:" ["1f1f2-1f1f6"] true;
  entry ":mq:" ["1f1f2-1f1f6"] false;
  entry ":flag_mp:" ["1f1f2-1f1f5"] true;
  entry ":mp:" ["1f1f2-1f1f5"] false;
  entry ":flag_mo:" ["1f1f2-1f1f4"] true;
  entry ":mo:" ["1f1f2-1f1f4"] false;
  entry ":flag_mn:" ["1f1f2-1f1f3"] true;
  entry ":mn:" ["1f1f2-1f1f3"] false;
  entry ":flag_mm:" ["1f1f2-1f1f2"] true;
  entry ":mm:" ["1f1f2-1f1f2"] false;
  entry ":flag_ml:" ["1f1f2-1f1f1"] true;
  entry ":ml:" ["1f1f2-1f1f1"] false;
  entry ":flag_mk:" ["1f1f2-1f1f0"] true;
  entry ":mk:" ["1f1f2-1f1f0"] false;
  entry ":flag_mh:" ["1f1f2-1f1ed"] true;
  entry ":mh:" ["1f1f2-1f1ed"] false;
  entry ":flag_mg:" ["1f1f2-1f1ec"] true;
  entry ":mg:" ["1f1f2-1f1ec"] false;
  entry ":flag_mf:" ["1f1f2-1f1eb"] true;
  entry ":mf:" ["1f1f2-1f1eb"] false;
  entry ":flag_me:" ["1f1f2-1f1ea"] true;
  entry ":me:" ["1f1f2-1f1ea"] false;
  entry ":flag_md:" ["1f1f2-1f1e9"] true;
  entry ":md:" ["1f1f2-1f1e9"] false;
  entry ":flag_mc:" ["1f1f2-1f1e8"] true;
  entry ":mc:" ["1f1f2-1f1e8"] false;
  entry ":flag_ma:" ["1f1f2-1f1e6"] true;
  entry ":ma:" ["1f1f2-1f1e6"] false;
  entry ":flag_ly:" ["1f1f1-1f1fe"] true;
  entry ":ly:" ["1f1f1-1f1fe"] false;
  entry ":flag_lv:" ["1f1f1-1f1fb"] true;
  entry ":lv:" ["1f1f1-1f1fb"] false;
  entry ":flag_lu:" ["1f1f1-1f1fa"] true;
  entry ":lu:" ["1f1f1-1f1fa"] false;
  entry ":flag_lt:" ["1f1f1-1f1f9"] true;
  entry ":lt:" ["1f1f1-1f1f9"] false;
  entry ":flag_ls:" ["1f1f1-1f1f8"] true;
  entry ":ls:" ["1f1f1-1f1f8"] false;
  entry ":flag_lr:" ["1f1f1-1f1f7"] true;
  entry ":lr:" ["1f1f1-1f1f7"] false;
  entry ":flag_lk:" ["1f1f1-1f1f0"] true;
  entry ":lk:" ["1f1f1-1f1f0"] false;
  entry ":flag_li:" ["1f1f1-1f1ee"] true;
  entry ":li:" ["1f1f1-1f1ee"] false;
  entry ":flag_lc:" ["1f1f1-1f1e8"] true;
  entry ":lc:" ["1f1f1-1f1e8"] false;
  entry ":flag_lb:" ["1f1f1-1f1e7"] true;
  entry ":lb:" ["1f1f1-1f1e7"] false;
  entry ":flag_la:" ["1f1f1-1f1e6"] true;
  entry ":la:" ["1f1f1-1f1e6"] false;
  entry ":flag_kz:" ["1f1f0-1f1ff"] true;
  entry ":kz:" ["1f1f0-1f1ff"] false;
  entry ":flag_ky:" ["1f1f0-1f1fe"] true;
  entry ":ky:" ["1f1f0-1f1fe"] false;
  entry ":flag_kw:" ["1f1f0-1f1fc"] true;
  entry ":kw:" ["1f1f0-1f1fc"] false;
  entry ":flag_kr:" ["1f1f0-1f1f7"] true;
  entry ":kr:" ["1f1f0-1f1f7"] false;
  entry ":flag_kp:" ["1f1f0-1f1f5"] true;
  entry ":kp:" ["1f1f0-1f1f5"] false;
  entry ":flag_kn:" ["1f1f0-1f1f3"] true;
  entry ":kn:" ["1f1f0-1f1f3"] false;
  entry ":flag_km:" ["1f1f0-1f1f2"] true;
  entry ":km:" ["1f1f0-1f1f2"] false;
  entry ":flag_ki:" ["1f1f0-1f1ee"] true;
  entry ":ki:" ["1f1f0-1f1ee"] false;
  entry ":flag_kh:" ["1f1f0-1f1ed"] true;
  entry ":kh:" ["1f1f0-1f1ed"] false;
  entry ":flag_kg:" ["1f1f0-1f1ec"] true;
  entry ":kg:" ["1f1f0-1f1ec"] false;
  entry ":flag_ke:" ["1f1f0-1f1ea"] true;
  entry ":ke:" ["1f1f0-1f1ea"] false;
  entry ":flag_jp:" ["1f1ef-1f1f5"] true;
  entry ":jp:" ["1f1ef-1f1f5"] false;
  entry ":flag_jo:" ["1f1ef-1f1f4"] true;
  entry ":jo:" ["1f1ef-1f1f4"] false;
  entry ":flag_jm:" ["1f1ef-1f1f2"] true;
  entry ":jm:" ["1f1ef-1f1f2"] false;
  entry ":flag_je:" ["1f1ef-1f1ea"] true;
  entry ":je:" ["1f1ef-1f1ea"] false;
  entry ":flag_it:" ["1f1ee-1f1f9"] true;
  entry ":it:" ["1f1ee-1f1f9"] false;
  entry ":flag_is:" ["1f1ee-1f1f8"] true;
  entry ":is:" ["1f1ee-1f1f8"] false
].

Definition emojioneList_7 : list (list Z * emoji) := [
  entry ":flag_ir:" ["1f1ee-1f1f7"] true;
  entry ":ir:" ["1f1ee-1f1f7"] false;
  entry ":flag_iq:" ["1f1ee-1f1f6"] true;
  entry ":iq:" ["1f1ee-1f1f6"] false;
  entry ":flag_io:" ["1f1ee-1f1f4"] true;
  entry ":io:" ["1f1ee-1f1f4"] false;
  entry ":flag_in:" ["1f1ee-1f1f3"] true;
  entry ":in:" ["1f1ee-1f1f3"] false;
  entry ":flag_im:" ["1f1ee-1f1f2"] true;
  entry ":im:" ["1f1ee-1f1f2"] false;
  entry ":flag_il:" ["1f1ee-1f1f1"] true;
  entry ":il:" ["1f1ee-1f1f1"] false;
  entry ":flag_ie:" ["1f1ee-1f1ea"] true;
  entry ":ie:" ["1f1ee-1f1ea"] false;
  entry ":flag_id:" ["1f1ee-1f1e9"] true;
  entry ":indonesia:" ["1f1ee-1f1e9"] false;
  entry ":flag_ic:" ["1f1ee-1f1e8"] true;
  entry ":ic:" ["1f1ee-1f1e8"] false;
  entry ":flag_hu:" ["1f1ed-1f1fa"] true;
  entry ":hu:" ["1f1ed-1f1fa"] false;
  entry ":flag_ht:" ["1f1ed-1f1f9"] true;
  entry ":ht:" ["1f1ed-1f1f9"] false;
  entry ":flag_hr:" ["1f1ed-1f1f7"] true;
  entry ":hr:" ["1f1ed-1f1f7"] false;
  entry ":flag_hn:" ["1f1ed-1f1f3"] true;
  entry ":hn:" ["1f1ed-1f1f3"] false;
  entry ":flag_hm:" ["1f1ed-1f1f2"] true;
  entry ":hm:" ["1f1ed-1f1f2"] false;
  entry ":flag_hk:" ["1f1ed-1f1f0"] true;
  entry ":hk:" ["1f1ed-1f1f0"] false;
  entry ":flag_gy:" ["1f1ec-1f1fe"] true;
  entry ":gy:" ["1f1ec-1f1fe"] false;
  entry ":flag_gw:" ["1f1ec-1f1fc"] true;
  entry ":gw:" ["1f1ec-1f1fc"] false;
  entry ":flag_gu:" ["1f1ec-1f1fa"] true;
  entry ":gu:" ["1f1ec-1f1fa"] false;
  entry ":flag_gt:" ["1f1ec-1f1f9"] true;
  entry ":gt:" ["1f1ec-1f1f9"] false;
  entry ":flag_gs:" ["1f1ec-1f1f8"] true;
  entry ":gs:" ["1f1ec-1f1f8"] false;
  entry ":flag_gr:" ["1f1ec-1f1f7"] true;
  entry ":gr:" ["1f1ec-1f1f7"] false;
  entry ":flag_gq:" ["1f1ec-1f1f6"] true;
  entry ":gq:" ["1f1ec-1f1f6"] false;
  entry ":flag_gp:" ["1f1ec-1f1f5"] true;
  entry ":gp:" ["1f1ec-1f1f5"] false;
  entry ":flag_gn:" ["1f1ec-1f1f3"] true;
  entry ":gn:" ["1f1ec-1f1f3"] false;
  entry ":flag_gm:" ["1f1ec-1f1f2"] true;
  entry ":gm:" ["1f1ec-1f1f2"] false;
  entry ":flag_gl:" ["1f1ec-1f1f1"] true;
  entry ":gl:" ["1f1ec-1f1f1"] false;
  entry ":flag_gi:" ["1f1ec-1f1ee"] true;
  entry ":gi:" ["1f1ec-1f1ee"] false;
  entry ":flag_gh:" ["1f1ec-1f1ed"] true;
  entry ":gh:" ["1f1ec-1f1ed"] false;
  entry ":flag_gg:" ["1f1ec-1f1ec"] true;
  entry ":gg:" ["1f1ec-1f1ec"] false;
  entry ":flag_gf:" ["1f1ec-1f1eb"] true;
  entry ":gf:" ["1f1ec-1f1eb"] false;
  entry ":flag_ge:" ["1f1ec-1f1ea"] true;
  entry ":ge:" ["1f1ec-1f1ea"] false;
  entry ":flag_gd:" ["1f1ec-1f1e9"] true;
  entry ":gd:" ["1f1ec-1f1e9"] false;
  entry ":flag_gb:" ["1f1ec-1f1e7"] true;
  entry ":gb:" ["1f1ec-1f1e7"] false;
  entry ":flag_ga:" ["1f1ec-1f1e6"] true;
  entry ":ga:" ["1f1ec-1f1e6"] false;
  entry ":flag_fr:" ["1f1eb-1f1f7"] true;
  entry ":fr:" ["1f1eb-1f1f7"] false;
  entry ":flag_fo:" ["1f1eb-1f1f4"] true;
  entry ":fo:" ["1f1eb-1f1f4"] false;
  entry ":flag_fm:" ["1f1eb-1f1f2"] true;
  entry ":fm:" ["1f1eb-1f1f2"] false;
  entry ":flag_fk:" ["1f1eb-1f1f0"] true;
  entry ":fk:" ["1f1eb-1f1f0"] false;
  entry ":flag_fj:" ["1f1eb-1f1ef"] true;
  entry ":fj:" ["1f1eb-1f1ef"] false;
  entry ":flag_fi:" ["1f1eb-1f1ee"] true;
  entry ":fi:" ["1f1eb-1f1ee"] false;
  entry ":flag_eu:" ["1f1ea-1f1fa"] true;
  entry ":eu:" ["1f1ea-1f1fa"] false;
  entry ":flag_et:" ["1f1ea-1f1f9"] true;
  entry ":et:" ["1f1ea-1f1f9"] false;
  entry ":flag_es:" ["1f1ea-1f1f8"] true;
  entry ":es:" ["1f1ea-1f1f8"] false;
  entry ":flag_er:" ["1f1ea-1f1f7"] true;
  entry ":er:" ["1f1ea-1f1f7"] false;
  entry ":flag_eh:" ["1f1ea-1f1ed"] true;
  entry ":eh:" ["1f1ea-1f1ed"] false;
  entry ":flag_eg:" ["1f1ea-1f1ec"] true;
  entry ":eg:" ["1f1ea-1f1ec"] false;
  entry ":flag_ee:" ["1f1ea-1f1ea"] true;
  entry ":ee:" ["1f1ea-1f1ea"] false;
  entry ":flag_ec:" ["1f1ea-1f1e8"] true;
  entry ":ec:" ["1f1ea-1f1e8"] false;
  entry ":flag_ea:" ["1f1ea-1f1e6"] true;
  entry ":ea:" ["1f1ea-1f1e6"] false;
  entry ":flag_dz:" ["1f1e9-1f1ff"] true;
  entry ":dz:" ["1f1e9-1f1ff"] false;
  entry ":flag_do:" ["1f1e9-1f1f4"] true;
  entry ":do:" ["1f1e9-1f1f4"] false;
  entry ":flag_dm:" ["1f1e9-1f1f2"] true;
  entry ":dm:" ["1f1e9-1f1f2"] false;
  entry ":flag_dk:" ["1f1e9-1f1f0"] true;
  entry ":dk:" ["1f1e9-1f1f0"] false;
  entry ":flag_dj:" ["1f1e9-1f1ef"] true;
  entry ":dj:" ["1f1e9-1f1ef"] false;
  entry ":flag_dg:" ["1f1e9-1f1ec"] true;
  entry ":dg:" ["1f1e9-1f1ec"] false;
  entry ":flag_de:" ["1f1e9-1f1ea"] true;
  entry ":de:" ["1f1e9-1f1ea"] false;
  entry ":flag_cz:" ["1f1e8-1f1ff"] true;
  entry ":cz:" ["1f1e8-1f1ff"] false;
  entry ":flag_cy:" ["1f1e8-1f1fe"] true;
  entry ":cy:" ["1f1e8-1f1fe"] false;
  entry ":flag_cx:" ["1f1e8-1f1fd"] true;
  entry ":cx:" ["1f1e8-1f1fd"] false;
  entry ":flag_cw:" ["1f1e8-1f1fc"] true;
  entry ":cw:" ["1f1e8-1f1fc"] false;
  entry ":flag_cv:" ["1f1e8-1f1fb"] true;
  entry ":cv:" ["1f1e8-1f1fb"] false;
  entry ":flag_cu:" ["1f1e8-1f1fa"] true;
  entry ":cu:" ["1f1e8-1f1fa"] false;
  entry ":flag_cr:" ["1f1e8-1f1f7"] true;
  entry ":cr:" ["1f1e8-1f1f7"] false;
  entry ":flag_cp:" ["1f1e8-1f1f5"] true;
  entry ":cp:" ["1f1e8-1f1f5"] false;
  entry ":flag_co:" ["1f1e8-1f1f4"] true;
  entry ":co:" ["1f1e8-1f1f4"] false;
  entry ":flag_cn:" ["1f1e8-1f1f3"] true;
  entry ":cn:" ["1f1e8-1f1f3"] false;
  entry ":flag_cm:" ["1f1e8-1f1f2"] true;
  entry ":cm:" ["1f1e8-1f1f2"] false;
  entry ":flag_cl:" ["1f1e8-1f1f1"] true;
  entry ":chile:" ["1f1e8-1f1f1"] false;
  entry ":flag_ck:" ["1f1e8-1f1f0"] true;
  entry ":ck:" ["1f1e8-1f1f0"] false;
  entry ":flag_ci:" ["1f1e8-1f1ee"] true;
  entry ":ci:" ["1f1e8-1f1ee"] false;
  entry ":flag_ch:" ["1f1e8-1f1ed"] true;
  entry ":ch:" ["1f1e8-1f1ed"] false;
  entry ":flag_cg:" ["1f1e8-1f1ec"] true;
  entry ":cg:" ["1f1e8-1f1ec"] false;
  entry ":flag_cf:" ["1f1e8-1f1eb"] true;
  entry ":cf:" ["1f1e8-1f1eb"] false;
  entry ":flag_cd:" ["1f1e8-1f1e9"] true;
  entry ":congo:" ["1f1e8-1f1e9"] false;
  entry ":flag_cc:" ["1f1e8-1f1e8"] true;
  entry ":cc:" ["1f1e8-1f1e8"] false
].

Definition emojioneList_8 : list (list Z * emoji) := [
  entry ":flag_ca:" ["1f1e8-1f1e6"] true;
  entry ":ca:" ["1f1e8-1f1e6"] false;
  entry ":flag_bz:" ["1f1e7-1f1ff"] true;
  entry ":bz:" ["1f1e7-1f1ff"] false;
  entry ":flag_by:" ["1f1e7-1f1fe"] true;
  entry ":by:" ["1f1e7-1f1fe"] false;
  entry ":flag_bw:" ["1f1e7-1f1fc"] true;
  entry ":bw:" ["1f1e7-1f1fc"] false;
  entry ":flag_bv:" ["1f1e7-1f1fb"] true;
  entry ":bv:" ["1f1e7-1f1fb"] false;
  entry ":flag_bt:" ["1f1e7-1f1f9"] true;
  entry ":bt:" ["1f1e7-1f1f9"] false;
  entry ":flag_bs:" ["1f1e7-1f1f8"] true;
  entry ":bs:" ["1f1e7-1f1f8"] false;
  entry ":flag_br:" ["1f1e7-1f1f7"] true;
  entry ":br:" ["1f1e7-1f1f7"] false;
  entry ":flag_bq:" ["1f1e7-1f1f6"] true;
  entry ":bq:" ["1f1e7-1f1f6"] false;
  entry ":flag_bo:" ["1f1e7-1f1f4"] true;
  entry ":bo:" ["1f1e7-1f1f4"] false;
  entry ":flag_bn:" ["1f1e7-1f1f3"] true;
  entry ":bn:" ["1f1e7-1f1f3"] false;
  entry ":flag_bm:" ["1f1e7-1f1f2"] true;
  entry ":bm:" ["1f1e7-1f1f2"] false;
  entry ":flag_bl:" ["1f1e7-1f1f1"] true;
  entry ":bl:" ["1f1e7-1f1f1"] false;
  entry ":flag_bj:" ["1f1e7-1f1ef"] true;
  entry ":bj:" ["1f1e7-1f1ef"] false;
  entry ":flag_bi:" ["1f1e7-1f1ee"] true;
  entry ":bi:" ["1f1e7-1f1ee"] false;
  entry ":flag_bh:" ["1f1e7-1f1ed"] true;
  entry ":bh:" ["1f1e7-1f1ed"] false;
  entry ":flag_bg:" ["1f1e7-1f1ec"] true;
  entry ":bg:" ["1f1e7-1f1ec"] false;
  entry ":flag_bf:" ["1f1e7-1f1eb"] true;
  entry ":bf:" ["1f1e7-1f1eb"] false;
  entry ":flag_be:" ["1f1e7-1f1ea"] true;
  entry ":be:" ["1f1e7-1f1ea"] false;
  entry ":flag_bd:" ["1f1e7-1f1e9"] true;
  entry ":bd:" ["1f1e7-1f1e9"] false;
  entry ":flag_bb:" ["1f1e7-1f1e7"] true;
  entry ":bb:" ["1f1e7-1f1e7"] false;
  entry ":flag_ba:" ["1f1e7-1f1e6"] true;
  entry ":ba:" ["1f1e7-1f1e6"] false;
  entry ":flag_az:" ["1f1e6-1f1ff"] true;
  entry ":az:" ["1f1e6-1f1ff"] false;
  entry ":flag_ax:" ["1f1e6-1f1fd"] true;
  entry ":ax:" ["1f1e6-1f1fd"] false;
  entry ":flag_aw:" ["1f1e6-1f1fc"] true;
  entry ":aw:" ["1f1e6-1f1fc"] false;
  entry ":flag_au:" ["1f1e6-1f1fa"] true;
  entry ":au:" ["1f1e6-1f1fa"] false;
  entry ":flag_at:" ["1f1e6-1f1f9"] true;
  entry ":at:" ["1f1e6-1f1f9"] false;
  entry ":flag_as:" ["1f1e6-1f1f8"] true;
  entry ":as:" ["1f1e6-1f1f8"] false;
  entry ":flag_ar:" ["1f1e6-1f1f7"] true;
  entry ":ar:" ["1f1e6-1f1f7"] false;
  entry ":flag_aq:" ["1f1e6-1f1f6"] true;
  entry ":aq:" ["1f1e6-1f1f6"] false;
  entry ":flag_ao:" ["1f1e6-1f1f4"] true;
  entry ":ao:" ["1f1e6-1f1f4"] false;
  entry ":flag_am:" ["1f1e6-1f1f2"] true;
  entry ":am:" ["1f1e6-1f1f2"] false;
  entry ":flag_al:" ["1f1e6-1f1f1"] true;
  entry ":al:" ["1f1e6-1f1f1"] false;
  entry ":flag_ai:" ["1f1e6-1f1ee"] true;
  entry ":ai:" ["1f1e6-1f1ee"] false;
  entry ":flag_ag:" ["1f1e6-1f1ec"] true;
  entry ":ag:" ["1f1e6-1f1ec"] false;
  entry ":flag_af:" ["1f1e6-1f1eb"] true;
  entry ":af:" ["1f1e6-1f1eb"] false;
  entry ":flag_ae:" ["1f1e6-1f1ea"] true;
  entry ":ae:" ["1f1e6-1f1ea"] false;
  entry ":flag_ad:" ["1f1e6-1f1e9"] true;
  entry ":ad:" ["1f1e6-1f1e9"] false;
  entry ":flag_ac:" ["1f1e6-1f1e8"] true;
  entry ":ac:" ["1f1e6-1f1e8"] false;
  entry ":mahjong:" ["1f004-fe0f"; "1f004"] true;
  entry ":parking:" ["1f17f-fe0f"; "1f17f"] true;
  entry ":sa:" ["1f202-fe0f"; "1f202"] true;
  entry ":u7121:" ["1f21a-fe0f"; "1f21a"] true;
  entry ":u6307:" ["1f22f-fe0f"; "1f22f"] true;
  entry ":u6708:" ["1f237-fe0f"; "1f237"] true;
  entry ":film_frames:" ["1f39e-fe0f"; "1f39e"] true;
  entry ":tickets:" ["1f39f-fe0f"; "1f39f"] true;
  entry ":admission_tickets:" ["1f39f-fe0f"; "1f39f"] false;
  entry ":lifter:" ["1f3cb-fe0f"; "1f3cb"] true;
  entry ":weight_lifter:" ["1f3cb-fe0f"; "1f3cb"] false;
  entry ":golfer:" ["1f3cc-fe0f"; "1f3cc"] true;
  entry ":motorcycle:" ["1f3cd-fe0f"; "1f3cd"] true;
  entry ":racing_motorcycle:" ["1f3cd-fe0f"; "1f3cd"] false;
  entry ":race_car:" ["1f3ce-fe0f"; "1f3ce"] true;
  entry ":racing_car:" ["1f3ce-fe0f"; "1f3ce"] false;
  entry ":military_medal:" ["1f396-fe0f"; "1f396"] true;
  entry ":reminder_ribbon:" ["1f397-fe0f"; "1f397"] true;
  entry ":hot_pepper:" ["1f336-fe0f"; "1f336"] true;
  entry ":cloud_rain:" ["1f327-fe0f"; "1f327"] true;
  entry ":cloud_with_rain:" ["1f327-fe0f"; "1f327"] false;
  entry ":cloud_snow:" ["1f328-fe0f"; "1f328"] true;
  entry ":cloud_with_snow:" ["1f328-fe0f"; "1f328"] false;
  entry ":cloud_lightning:" ["1f329-fe0f"; "1f329"] true;
  entry ":cloud_with_lightning:" ["1f329-fe0f"; "1f329"] false;
  entry ":cloud_tornado:" ["1f32a-fe0f"; "1f32a"] true;
  entry ":cloud_with_tornado:" ["1f32a-fe0f"; "1f32a"] false;
  entry ":fog:" ["1f32b-fe0f"; "1f32b"] true;
  entry ":wind_blowing_face:" ["1f32c-fe0f"; "1f32c"] true;
  entry ":chipmunk:" ["1f43f-fe0f"; "1f43f"] true;
  entry ":spider:" ["1f577-fe0f"; "1f577"] true;
  entry ":spider_web:" ["1f578-fe0f"; "1f578"] true;
  entry ":thermometer:" ["1f321-fe0f"; "1f321"] true;
  entry ":microphone2:" ["1f399-fe0f"; "1f399"] true;
  entry ":studio_microphone:" ["1f399-fe0f"; "1f399"] false;
  entry ":level_slider:" ["1f39a-fe0f"; "1f39a"] true;
  entry ":control_knobs:" ["1f39b-fe0f"; "1f39b"] true;
  entry ":flag_white:" ["1f3f3-fe0f"; "1f3f3"] true;
  entry ":waving_white_flag:" ["1f3f3-fe0f"; "1f3f3"] false;
  entry ":rosette:" ["1f3f5-fe0f"; "1f3f5"] true;
  entry ":label:" ["1f3f7-fe0f"; "1f3f7"] true;
  entry ":projector:" ["1f4fd-fe0f"; "1f4fd"] true;
  entry ":film_projector:" ["1f4fd-fe0f"; "1f4fd"] false;
  entry ":om_symbol:" ["1f549-fe0f"; "1f549"] true;
  entry ":dove:" ["1f54a-fe0f"; "1f54a"] true;
  entry ":dove_of_peace:" ["1f54a-fe0f"; "1f54a"] false;
  entry ":candle:" ["1f56f-fe0f"; "1f56f"] true;
  entry ":clock:" ["1f570-fe0f"; "1f570"] true;
  entry ":mantlepiece_clock:" ["1f570-fe0f"; "1f570"] false;
  entry ":hole:" ["1f573-fe0f"; "1f573"] true;
  entry ":dark_sunglasses:" ["1f576-fe0f"; "1f576"] true;
  entry ":joystick:" ["1f579-fe0f"; "1f579"] true;
  entry ":paperclips:" ["1f587-fe0f"; "1f587"] true;
  entry ":linked_paperclips:" ["1f587-fe0f"; "1f587"] false;
  entry ":pen_ballpoint:" ["1f58a-fe0f"; "1f58a"] true;
  entry ":lower_left_ballpoint_pen:" ["1f58a-fe0f"; "1f58a"] false;
  entry ":pen_fountain:" ["1f58b-fe0f"; "1f58b"] true;
  entry ":lower_left_fountain_pen:" ["1f58b-fe0f"; "1f58b"] false;
  entry ":paintbrush:" ["1f58c-fe0f"; "1f58c"] true;
  entry ":lower_left_paintbrush:" ["1f58c-fe0f"; "1f58c"] false;
  entry ":crayon:" ["1f58d-fe0f"; "1f58d"] true;
  entry ":lower_left_crayon:" ["1f58d-fe0f"; "1f58d"] false;
  entry ":desktop:" ["1f5a5-fe0f"; "1f5a5"] true;
  entry ":desktop_computer:" ["1f5a5-fe0f"; "1f5a5"] false;
  entry ":printer:" ["1f5a8-fe0f"; "1f5a8"] true;
  entry ":trackball:" ["1f5b2-fe0f"; "1f5b2"] true;
  entry ":frame_photo:" ["1f5bc-fe0f"; "1f5bc"] true;
  entry ":frame_with_picture:" ["1f5bc-fe0f"; "1f5bc"] false;
  entry ":dividers:" ["1f5c2-fe0f"; "1f5c2"] true;
  entry ":card_index_dividers:" ["1f5c2-fe0f"; "1f5c2"] false;
  entry ":card_box:" ["1f5c3-fe0f"; "1f5c3"] true;
  entry ":card_file_box:" ["1f5c3-fe0f"; "1f5c3"] false
].

Definition emojioneList_9 : list (list Z * emoji) := [
  entry ":file_cabinet:" ["1f5c4-fe0f"; "1f5c4"] true;
  entry ":wastebasket:" ["1f5d1-fe0f"; "1f5d1"] true;
  entry ":notepad_spiral:" ["1f5d2-fe0f"; "1f5d2"] true;
  entry ":spiral_note_pad:" ["1f5d2-fe0f"; "1f5d2"] false;
  entry ":calendar_spiral:" ["1f5d3-fe0f"; "1f5d3"] true;
  entry ":spiral_calendar_pad:" ["1f5d3-fe0f"; "1f5d3"] false;
  entry ":compression:" ["1f5dc-fe0f"; "1f5dc"] true;
  entry ":key2:" ["1f5dd-fe0f"; "1f5dd"] true;
  entry ":old_key:" ["1f5dd-fe0f"; "1f5dd"] false;
  entry ":newspaper2:" ["1f5de-fe0f"; "1f5de"] true;
  entry ":rolled_up_newspaper:" ["1f5de-fe0f"; "1f5de"] false;
  entry ":dagger:" ["1f5e1-fe0f"; "1f5e1"] true;
  entry ":dagger_knife:" ["1f5e1-fe0f"; "1f5e1"] false;
  entry ":speaking_head:" ["1f5e3-fe0f"; "1f5e3"] true;
  entry ":speaking_head_in_silhouette:" ["1f5e3-fe0f"; "1f5e3"] false;
  entry ":speech_left:" ["1f5e8-fe0f"; "1f5e8"] true;
  entry ":left_speech_bubble:" ["1f5e8-fe0f"; "1f5e8"] false;
  entry ":anger_right:" ["1f5ef-fe0f"; "1f5ef"] true;
  entry ":right_anger_bubble:" ["1f5ef-fe0f"; "1f5ef"] false;
  entry ":ballot_box:" ["1f5f3-fe0f"; "1f5f3"] true;
  entry ":ballot_box_with_ballot:" ["1f5f3-fe0f"; "1f5f3"] false;
  entry ":map:" ["1f5fa-fe0f"; "1f5fa"] true;
  entry ":world_map:" ["1f5fa-fe0f"; "1f5fa"] false;
  entry ":tools:" ["1f6e0-fe0f"; "1f6e0"] true;
  entry ":hammer_and_wrench:" ["1f6e0-fe0f"; "1f6e0"] false;
  entry ":shield:" ["1f6e1-fe0f"; "1f6e1"] true;
  entry ":oil:" ["1f6e2-fe0f"; "1f6e2"] true;
  entry ":oil_drum:" ["1f6e2-fe0f"; "1f6e2"] false;
  entry ":satellite_orbital:" ["1f6f0-fe0f"; "1f6f0"] true;
  entry ":fork_knife_plate:" ["1f37d-fe0f"; "1f37d"] true;
  entry ":fork_and_knife_with_plate:" ["1f37d-fe0f"; "1f37d"] false;
  entry ":eye:" ["1f441-fe0f"; "1f441"] true;
  entry ":levitate:" ["1f574-fe0f"; "1f574"] true;
  entry ":man_in_business_suit_levitating:" ["1f574-fe0f"; "1f574"] false;
  entry ":spy:" ["1f575-fe0f"; "1f575"] true;
  entry ":sleuth_or_spy:" ["1f575-fe0f"; "1f575"] false;
  entry ":hand_splayed:" ["1f590-fe0f"; "1f590"] true;
  entry ":raised_hand_with_fingers_splayed:" ["1f590-fe0f"; "1f590"] false;
  entry ":mountain_snow:" ["1f3d4-fe0f"; "1f3d4"] true;
  entry ":snow_capped_mountain:" ["1f3d4-fe0f"; "1f3d4"] false;
  entry ":camping:" ["1f3d5-fe0f"; "1f3d5"] true;
  entry ":beach:" ["1f3d6-fe0f"; "1f3d6"] true;
  entry ":beach_with_umbrella:" ["1f3d6-fe0f"; "1f3d6"] false;
  entry ":construction_site:" ["1f3d7-fe0f"; "1f3d7"] true;
  entry ":building_construction:" ["1f3d7-fe0f"; "1f3d7"] false;
  entry ":homes:" ["1f3d8-fe0f"; "1f3d8"] true;
  entry ":house_buildings:" ["1f3d8-fe0f"; "1f3d8"] false;
  entry ":cityscape:" ["1f3d9-fe0f"; "1f3d9"] true;
  entry ":house_abandoned:" ["1f3da-fe0f"; "1f3da"] true;
  entry ":derelict_house_building:" ["1f3da-fe0f"; "1f3da"] false;
  entry ":classical_building:" ["1f3db-fe0f"; "1f3db"] true;
  entry ":desert:" ["1f3dc-fe0f"; "1f3dc"] true;
  entry ":island:" ["1f3dd-fe0f"; "1f3dd"] true;
  entry ":desert_island:" ["1f3dd-fe0f"; "1f3dd"] false;
  entry ":park:" ["1f3de-fe0f"; "1f3de"] true;
  entry ":national_park:" ["1f3de-fe0f"; "1f3de"] false;
  entry ":stadium:" ["1f3df-fe0f"; "1f3df"] true;
  entry ":couch:" ["1f6cb-fe0f"; "1f6cb"] true;
  entry ":couch_and_lamp:" ["1f6cb-fe0f"; "1f6cb"] false;
  entry ":shopping_bags:" ["1f6cd-fe0f"; "1f6cd"] true;
  entry ":bellhop:" ["1f6ce-fe0f"; "1f6ce"] true;
  entry ":bellhop_bell:" ["1f6ce-fe0f"; "1f6ce"] false;
  entry ":bed:" ["1f6cf-fe0f"; "1f6cf"] true;
  entry ":motorway:" ["1f6e3-fe0f"; "1f6e3"] true;
  entry ":railway_track:" ["1f6e4-fe0f"; "1f6e4"] true;
  entry ":railroad_track:" ["1f6e4-fe0f"; "1f6e4"] false;
  entry ":motorboat:" ["1f6e5-fe0f"; "1f6e5"] true;
  entry ":airplane_small:" ["1f6e9-fe0f"; "1f6e9"] true;
  entry ":small_airplane:" ["1f6e9-fe0f"; "1f6e9"] false;
  entry ":cruise_ship:" ["1f6f3-fe0f"; "1f6f3"] true;
  entry ":passenger_ship:" ["1f6f3-fe0f"; "1f6f3"] false;
  entry ":white_sun_small_cloud:" ["1f324-fe0f"; "1f324"] true;
  entry ":white_sun_with_small_cloud:" ["1f324-fe0f"; "1f324"] false;
  entry ":white_sun_cloud:" ["1f325-fe0f"; "1f325"] true;
  entry ":white_sun_behind_cloud:" ["1f325-fe0f"; "1f325"] false;
  entry ":white_sun_rain_cloud:" ["1f326-fe0f"; "1f326"] true;
  entry ":white_sun_behind_cloud_with_rain:" ["1f326-fe0f"; "1f326"] false;
  entry ":mouse_three_button:" ["1f5b1-fe0f"; "1f5b1"] true;
  entry ":three_button_mouse:" ["1f5b1-fe0f"; "1f5b1"] false;
  entry ":point_up_tone1:" ["261d-1f3fb"] true;
  entry ":point_up_tone2:" ["261d-1f3fc"] true;
  entry ":point_up_tone3:" ["261d-1f3fd"] true;
  entry ":point_up_tone4:" ["261d-1f3fe"] true;
  entry ":point_up_tone5:" ["261d-1f3ff"] true;
  entry ":v_tone1:" ["270c-1f3fb"] true;
  entry ":v_tone2:" ["270c-1f3fc"] true;
  entry ":v_tone3:" ["270c-1f3fd"] true;
  entry ":v_tone4:" ["270c-1f3fe"] true;
  entry ":v_tone5:" ["270c-1f3ff"] true;
  entry ":fist_tone1:" ["270a-1f3fb"] true;
  entry ":fist_tone2:" ["270a-1f3fc"] true;
  entry ":fist_tone3:" ["270a-1f3fd"] true;
  entry ":fist_tone4:" ["270a-1f3fe"] true;
  entry ":fist_tone5:" ["270a-1f3ff"] true;
  entry ":raised_hand_tone1:" ["270b-1f3fb"] true;
  entry ":raised_hand_tone2:" ["270b-1f3fc"] true;
  entry ":raised_hand_tone3:" ["270b-1f3fd"] true;
  entry ":raised_hand_tone4:" ["270b-1f3fe"] true;
  entry ":raised_hand_tone5:" ["270b-1f3ff"] true;
  entry ":writing_hand_tone1:" ["270d-1f3fb"] true;
  entry ":writing_hand_tone2:" ["270d-1f3fc"] true;
  entry ":writing_hand_tone3:" ["270d-1f3fd"] true;
  entry ":writing_hand_tone4:" ["270d-1f3fe"] true;
  entry ":writing_hand_tone5:" ["270d-1f3ff"] true;
  entry ":basketball_player_tone1:" ["26f9-1f3fb"] true;
  entry ":person_with_ball_tone1:" ["26f9-1f3fb"] false;
  entry ":basketball_player_tone2:" ["26f9-1f3fc"] true;
  entry ":person_with_ball_tone2:" ["26f9-1f3fc"] false;
  entry ":basketball_player_tone3:" ["26f9-1f3fd"] true;
  entry ":person_with_ball_tone3:" ["26f9-1f3fd"] false;
  entry ":basketball_player_tone4:" ["26f9-1f3fe"] true;
  entry ":person_with_ball_tone4:" ["26f9-1f3fe"] false;
  entry ":basketball_player_tone5:" ["26f9-1f3ff"] true;
  entry ":person_with_ball_tone5:" ["26f9-1f3ff"] false;
  entry ":copyright:" ["00a9-fe0f"; "00a9"] true;
  entry ":registered:" ["00ae-fe0f"; "00ae"] true;
  entry ":bangbang:" ["203c-fe0f"; "203c"] true;
  entry ":interrobang:" ["2049-fe0f"; "2049"] true;
  entry ":tm:" ["2122-fe0f"; "2122"] true;
  entry ":information_source:" ["2139-fe0f"; "2139"] true;
  entry ":left_right_arrow:" ["2194-fe0f"; "2194"] true;
  entry ":arrow_up_down:" ["2195-fe0f"; "2195"] true;
  entry ":arrow_upper_left:" ["2196-fe0f"; "2196"] true;
  entry ":arrow_upper_right:" ["2197-fe0f"; "2197"] true;
  entry ":arrow_lower_right:" ["2198-fe0f"; "2198"] true;
  entry ":arrow_lower_left:" ["2199-fe0f"; "2199"] true;
  entry ":leftwards_arrow_with_hook:" ["21a9-fe0f"; "21a9"] true;
  entry ":arrow_right_hook:" ["21aa-fe0f"; "21aa"] true;
  entry ":watch:" ["231a-fe0f"; "231a"] true;
  entry ":hourglass:" ["231b-fe0f"; "231b"] true;
  entry ":m:" ["24c2-fe0f"; "24c2"] true;
  entry ":black_small_square:" ["25aa-fe0f"; "25aa"] true;
  entry ":white_small_square:" ["25ab-fe0f"; "25ab"] true;
  entry ":arrow_forward:" ["25b6-fe0f"; "25b6"] true;
  entry ":arrow_backward:" ["25c0-fe0f"; "25c0"] true;
  entry ":white_medium_square:" ["25fb-fe0f"; "25fb"] true;
  entry ":black_medium_square:" ["25fc-fe0f"; "25fc"] true;
  entry ":white_medium_small_square:" ["25fd-fe0f"; "25fd"] true;
  entry ":black_medium_small_square:" ["25fe-fe0f"; "25fe"] true;
  entry ":sunny:" ["2600-fe0f"; "2600"] true;
  entry ":cloud:" ["2601-fe0f"; "2601"] true;
  entry ":telephone:" ["260e-fe0f"; "260e"] true;
  entry ":ballot_box_with_check:" ["2611-fe0f"; "2611"] true;
  entry ":umbrella:" ["2614-fe0f"; "2614"] true;
  entry ":coffee:" ["2615-fe0f"; "2615"] true;
  entry ":point_up:" ["261d-fe0f"; "261d"] true;
  entry ":relaxed:" ["263a-fe0f"; "263a"] true;
  entry ":aries:" ["2648-fe0f"; "2648"] true;
  entry ":taurus:" ["2649-fe0f"; "2649"] true;
  entry ":gemini:" ["264a-fe0f"; "264a"] true
].

Definition emojioneList_10 : list (list Z * emoji) := [
  entry ":cancer:" ["264b-fe0f"; "264b"] true;
  entry ":leo:" ["264c-fe0f"; "264c"] true;
  entry ":virgo:" ["264d-fe0f"; "264d"] true;
  entry ":libra:" ["264e-fe0f"; "264e"] true;
  entry ":scorpius:" ["264f-fe0f"; "264f"] true;
  entry ":sagittarius:" ["2650-fe0f"; "2650"] true;
  entry ":capricorn:" ["2651-fe0f"; "2651"] true;
  entry ":aquarius:" ["2652-fe0f"; "2652"] true;
  entry ":pisces:" ["2653-fe0f"; "2653"] true;
  entry ":spades:" ["2660-fe0f"; "2660"] true;
  entry ":clubs:" ["2663-fe0f"; "2663"] true;
  entry ":hearts:" ["2665-fe0f"; "2665"] true;
  entry ":diamonds:" ["2666-fe0f"; "2666"] true;
  entry ":hotsprings:" ["2668-fe0f"; "2668"] true;
  entry ":recycle:" ["267b-fe0f"; "267b"] true;
  entry ":wheelchair:" ["267f-fe0f"; "267f"] true;
  entry ":anchor:" ["2693-fe0f"; "2693"] true;
  entry ":warning:" ["26a0-fe0f"; "26a0"] true;
  entry ":zap:" ["26a1-fe0f"; "26a1"] true;
  entry ":white_circle:" ["26aa-fe0f"; "26aa"] true;
  entry ":black_circle:" ["26ab-fe0f"; "26ab"] true;
  entry ":soccer:" ["26bd-fe0f"; "26bd"] true;
  entry ":baseball:" ["26be-fe0f"; "26be"] true;
  entry ":snowman:" ["26c4-fe0f"; "26c4"] true;
  entry ":partly_sunny:" ["26c5-fe0f"; "26c5"] true;
  entry ":no_entry:" ["26d4-fe0f"; "26d4"] true;
  entry ":church:" ["26ea-fe0f"; "26ea"] true;
  entry ":fountain:" ["26f2-fe0f"; "26f2"] true;
  entry ":golf:" ["26f3-fe0f"; "26f3"] true;
  entry ":sailboat:" ["26f5-fe0f"; "26f5"] true;
  entry ":tent:" ["26fa-fe0f"; "26fa"] true;
  entry ":fuelpump:" ["26fd-fe0f"; "26fd"] true;
  entry ":scissors:" ["2702-fe0f"; "2702"] true;
  entry ":airplane:" ["2708-fe0f"; "2708"] true;
  entry ":envelope:" ["2709-fe0f"; "2709"] true;
  entry ":v:" ["270c-fe0f"; "270c"] true;
  entry ":pencil2:" ["270f-fe0f"; "270f"] true;
  entry ":black_nib:" ["2712-fe0f"; "2712"] true;
  entry ":heavy_check_mark:" ["2714-fe0f"; "2714"] true;
  entry ":heavy_multiplication_x:" ["2716-fe0f"; "2716"] true;
  entry ":eight_spoked_asterisk:" ["2733-fe0f"; "2733"] true;
  entry ":eight_pointed_black_star:" ["2734-fe0f"; "2734"] true;
  entry ":snowflake:" ["2744-fe0f"; "2744"] true;
  entry ":sparkle:" ["2747-fe0f"; "2747"] true;
  entry ":exclamation:" ["2757-fe0f"; "2757"] true;
  entry ":heart:" ["2764-fe0f"; "2764"] true;
  entry ":arrow_right:" ["27a1-fe0f"; "27a1"] true;
  entry ":arrow_heading_up:" ["2934-fe0f"; "2934"] true;
  entry ":arrow_heading_down:" ["2935-fe0f"; "2935"] true;
  entry ":arrow_left:" ["2b05-fe0f"; "2b05"] true;
  entry ":arrow_up:" ["2b06-fe0f"; "2b06"] true;
  entry ":arrow_down:" ["2b07-fe0f"; "2b07"] true;
  entry ":black_large_square:" ["2b1b-fe0f"; "2b1b"] true;
  entry ":white_large_square:" ["2b1c-fe0f"; "2b1c"] true;
  entry ":star:" ["2b50-fe0f"; "2b50"] true;
  entry ":o:" ["2b55-fe0f"; "2b55"] true;
  entry ":wavy_dash:" ["3030-fe0f"; "3030"] true;
  entry ":part_alternation_mark:" ["303d-fe0f"; "303d"] true;
  entry ":congratulations:" ["3297-fe0f"; "3297"] true;
  entry ":secret:" ["3299-fe0f"; "3299"] true;
  entry ":cross:" ["271d-fe0f"; "271d"] true;
  entry ":latin_cross:" ["271d-fe0f"; "271d"] false;
  entry ":keyboard:" ["2328-fe0f"; "2328"] true;
  entry ":writing_hand:" ["270d-fe0f"; "270d"] true;
  entry ":eject:" ["23cf-fe0f"; "23cf"] true;
  entry ":eject_symbol:" ["23cf-fe0f"; "23cf"] false;
  entry ":track_next:" ["23ed-fe0f"; "23ed"] true;
  entry ":next_track:" ["23ed-fe0f"; "23ed"] false;
  entry ":track_previous:" ["23ee-fe0f"; "23ee"] true;
  entry ":previous_track:" ["23ee-fe0f"; "23ee"] false;
  entry ":play_pause:" ["23ef-fe0f"; "23ef"] true;
  entry ":stopwatch:" ["23f1-fe0f"; "23f1"] true;
  entry ":timer:" ["23f2-fe0f"; "23f2"] true;
  entry ":timer_clock:" ["23f2-fe0f"; "23f2"] false;
  entry ":pause_button:" ["23f8-fe0f"; "23f8"] true;
  entry ":double_vertical_bar:" ["23f8-fe0f"; "23f8"] false;
  entry ":stop_button:" ["23f9-fe0f"; "23f9"] true;
  entry ":record_button:" ["23fa-fe0f"; "23fa"] true;
  entry ":umbrella2:" ["2602-fe0f"; "2602"] true;
  entry ":snowman2:" ["2603-fe0f"; "2603"] true;
  entry ":comet:" ["2604-fe0f"; "2604"] true;
  entry ":shamrock:" ["2618-fe0f"; "2618"] true;
  entry ":skull_crossbones:" ["2620-fe0f"; "2620"] true;
  entry ":skull_and_crossbones:" ["2620-fe0f"; "2620"] false;
  entry ":radioactive:" ["2622-fe0f"; "2622"] true;
  entry ":radioactive_sign:" ["2622-fe0f"; "2622"] false;
  entry ":biohazard:" ["2623-fe0f"; "2623"] true;
  entry ":biohazard_sign:" ["2623-fe0f"; "2623"] false;
  entry ":orthodox_cross:" ["2626-fe0f"; "2626"] true;
  entry ":star_and_crescent:" ["262a-fe0f"; "262a"] true;
  entry ":peace:" ["262e-fe0f"; "262e"] true;
  entry ":peace_symbol:" ["262e-fe0f"; "262e"] false;
  entry ":yin_yang:" ["262f-fe0f"; "262f"] true;
  entry ":wheel_of_dharma:" ["2638-fe0f"; "2638"] true;
  entry ":frowning2:" ["2639-fe0f"; "2639"] true;
  entry ":white_frowning_face:" ["2639-fe0f"; "2639"] false;
  entry ":hammer_pick:" ["2692-fe0f"; "2692"] true;
  entry ":hammer_and_pick:" ["2692-fe0f"; "2692"] false;
  entry ":crossed_swords:" ["2694-fe0f"; "2694"] true;
  entry ":scales:" ["2696-fe0f"; "2696"] true;
  entry ":alembic:" ["2697-fe0f"; "2697"] true;
  entry ":gear:" ["2699-fe0f"; "2699"] true;
  entry ":atom:" ["269b-fe0f"; "269b"] true;
  entry ":atom_symbol:" ["269b-fe0f"; "269b"] false;
  entry ":fleur-de-lis:" ["269c-fe0f"; "269c"] true;
  entry ":coffin:" ["26b0-fe0f"; "26b0"] true;
  entry ":urn:" ["26b1-fe0f"; "26b1"] true;
  entry ":funeral_urn:" ["26b1-fe0f"; "26b1"] false;
  entry ":thunder_cloud_rain:" ["26c8-fe0f"; "26c8"] true;
  entry ":thunder_cloud_and_rain:" ["26c8-fe0f"; "26c8"] false;
  entry ":pick:" ["26cf-fe0f"; "26cf"] true;
  entry ":helmet_with_cross:" ["26d1-fe0f"; "26d1"] true;
  entry ":helmet_with_white_cross:" ["26d1-fe0f"; "26d1"] false;
  entry ":chains:" ["26d3-fe0f"; "26d3"] true;
  entry ":shinto_shrine:" ["26e9-fe0f"; "26e9"] true;
  entry ":mountain:" ["26f0-fe0f"; "26f0"] true;
  entry ":beach_umbrella:" ["26f1-fe0f"; "26f1"] true;
  entry ":umbrella_on_ground:" ["26f1-fe0f"; "26f1"] false;
  entry ":ferry:" ["26f4-fe0f"; "26f4"] true;
  entry ":skier:" ["26f7-fe0f"; "26f7"] true;
  entry ":ice_skate:" ["26f8-fe0f"; "26f8"] true;
  entry ":basketball_player:" ["26f9-fe0f"; "26f9"] true;
  entry ":person_with_ball:" ["26f9-fe0f"; "26f9"] false;
  entry ":star_of_david:" ["2721-fe0f"; "2721"] true;
  entry ":heart_exclamation:" ["2763-fe0f"; "2763"] true;
  entry ":heavy_heart_exclamation_mark_ornament:" ["2763-fe0f"; "2763"] false;
  entry ":third_place:" ["1f949"] true;
  entry ":third_place_medal:" ["1f949"] false;
  entry ":second_place:" ["1f948"] true;
  entry ":second_place_medal:" ["1f948"] false;
  entry ":first_place:" ["1f947"] true;
  entry ":first_place_medal:" ["1f947"] false;
  entry ":fencer:" ["1f93a"] true;
  entry ":fencing:" ["1f93a"] false;
  entry ":goal:" ["1f945"] true;
  entry ":goal_net:" ["1f945"] false;
  entry ":handball:" ["1f93e"] true;
  entry ":regional_indicator_z:" ["1f1ff"] true;
  entry ":water_polo:" ["1f93d"] true;
  entry ":martial_arts_uniform:" ["1f94b"] true;
  entry ":karate_uniform:" ["1f94b"] false;
  entry ":boxing_glove:" ["1f94a"] true;
  entry ":boxing_gloves:" ["1f94a"] false;
  entry ":wrestlers:" ["1f93c"] true;
  entry ":wrestling:" ["1f93c"] false;
  entry ":juggling:" ["1f939"] true;
  entry ":juggler:" ["1f939"] false;
  entry ":cartwheel:" ["1f938"] true;
  entry ":person_doing_cartwheel:" ["1f938"] false;
  entry ":canoe:" ["1f6f6"] true
].

Definition emojioneList_11 : list (list Z * emoji) := [
  entry ":kayak:" ["1f6f6"] false;
  entry ":motor_scooter:" ["1f6f5"] true;
  entry ":motorbike:" ["1f6f5"] false;
  entry ":scooter:" ["1f6f4"] true;
  entry ":shopping_cart:" ["1f6d2"] true;
  entry ":shopping_trolley:" ["1f6d2"] false;
  entry ":black_joker:" ["1f0cf"] true;
  entry ":a:" ["1f170"] true;
  entry ":b:" ["1f171"] true;
  entry ":o2:" ["1f17e"] true;
  entry ":octagonal_sign:" ["1f6d1"] true;
  entry ":stop_sign:" ["1f6d1"] false;
  entry ":ab:" ["1f18e"] true;
  entry ":cl:" ["1f191"] true;
  entry ":regional_indicator_y:" ["1f1fe"] true;
  entry ":cool:" ["1f192"] true;
  entry ":free:" ["1f193"] true;
  entry ":id:" ["1f194"] true;
  entry ":new:" ["1f195"] true;
  entry ":ng:" ["1f196"] true;
  entry ":ok:" ["1f197"] true;
  entry ":sos:" ["1f198"] true;
  entry ":spoon:" ["1f944"] true;
  entry ":up:" ["1f199"] true;
  entry ":vs:" ["1f19a"] true;
  entry ":champagne_glass:" ["1f942"] true;
  entry ":clinking_glass:" ["1f942"] false;
  entry ":tumbler_glass:" ["1f943"] true;
  entry ":whisky:" ["1f943"] false;
  entry ":koko:" ["1f201"] true;
  entry ":stuffed_flatbread:" ["1f959"] true;
  entry ":stuffed_pita:" ["1f959"] false;
  entry ":u7981:" ["1f232"] true;
  entry ":u7a7a:" ["1f233"] true;
  entry ":u5408:" ["1f234"] true;
  entry ":u6e80:" ["1f235"] true;
  entry ":u6709:" ["1f236"] true;
  entry ":shallow_pan_of_food:" ["1f958"] true;
  entry ":paella:" ["1f958"] false;
  entry ":u7533:" ["1f238"] true;
  entry ":u5272:" ["1f239"] true;
  entry ":salad:" ["1f957"] true;
  entry ":green_salad:" ["1f957"] false;
  entry ":u55b6:" ["1f23a"] true;
  entry ":ideograph_advantage:" ["1f250"] true;
  entry ":accept:" ["1f251"] true;
  entry ":cyclone:" ["1f300"] true;
  entry ":french_bread:" ["1f956"] true;
  entry ":baguette_bread:" ["1f956"] false;
  entry ":foggy:" ["1f301"] true;
  entry ":closed_umbrella:" ["1f302"] true;
  entry ":night_with_stars:" ["1f303"] true;
  entry ":sunrise_over_mountains:" ["1f304"] true;
  entry ":sunrise:" ["1f305"] true;
  entry ":city_dusk:" ["1f306"] true;
  entry ":carrot:" ["1f955"] true;
  entry ":city_sunset:" ["1f307"] true;
  entry ":city_sunrise:" ["1f307"] false;
  entry ":rainbow:" ["1f308"] true;
  entry ":potato:" ["1f954"] true;
  entry ":bridge_at_night:" ["1f309"] true;
  entry ":ocean:" ["1f30a"] true;
  entry ":volcano:" ["1f30b"] true;
  entry ":milky_way:" ["1f30c"] true;
  entry ":earth_asia:" ["1f30f"] true;
  entry ":new_moon:" ["1f311"] true;
  entry ":bacon:" ["1f953"] true;
  entry ":first_quarter_moon:" ["1f313"] true;
  entry ":waxing_gibbous_moon:" ["1f314"] true;
  entry ":full_moon:" ["1f315"] true;
  entry ":crescent_moon:" ["1f319"] true;
  entry ":first_quarter_moon_with_face:" ["1f31b"] true;
  entry ":star2:" ["1f31f"] true;
  entry ":cucumber:" ["1f952"] true;
  entry ":stars:" ["1f320"] true;
  entry ":chestnut:" ["1f330"] true;
  entry ":avocado:" ["1f951"] true;
  entry ":seedling:" ["1f331"] true;
  entry ":palm_tree:" ["1f334"] true;
  entry ":cactus:" ["1f335"] true;
  entry ":tulip:" ["1f337"] true;
  entry ":cherry_blossom:" ["1f338"] true;
  entry ":rose:" ["1f339"] true;
  entry ":hibiscus:" ["1f33a"] true;
  entry ":sunflower:" ["1f33b"] true;
  entry ":blossom:" ["1f33c"] true;
  entry ":corn:" ["1f33d"] true;
  entry ":croissant:" ["1f950"] true;
  entry ":ear_of_rice:" ["1f33e"] true;
  entry ":herb:" ["1f33f"] true;
  entry ":four_leaf_clover:" ["1f340"] true;
  entry ":maple_leaf:" ["1f341"] true;
  entry ":fallen_leaf:" ["1f342"] true;
  entry ":leaves:" ["1f343"] true;
  entry ":mushroom:" ["1f344"] true;
  entry ":tomato:" ["1f345"] true;
  entry ":eggplant:" ["1f346"] true;
  entry ":grapes:" ["1f347"] true;
  entry ":melon:" ["1f348"] true;
  entry ":watermelon:" ["1f349"] true;
  entry ":tangerine:" ["1f34a"] true;
  entry ":wilted_rose:" ["1f940"] true;
  entry ":wilted_flower:" ["1f940"] false;
  entry ":banana:" ["1f34c"] true;
  entry ":pineapple:" ["1f34d"] true;
  entry ":apple:" ["1f34e"] true;
  entry ":green_apple:" ["1f34f"] true;
  entry ":peach:" ["1f351"] true;
  entry ":cherries:" ["1f352"] true;
  entry ":strawberry:" ["1f353"] true;
  entry ":rhino:" ["1f98f"] true;
  entry ":rhinoceros:" ["1f98f"] false;
  entry ":hamburger:" ["1f354"] true;
  entry ":pizza:" ["1f355"] true;
  entry ":meat_on_bone:" ["1f356"] true;
  entry ":lizard:" ["1f98e"] true;
  entry ":poultry_leg:" ["1f357"] true;
  entry ":rice_cracker:" ["1f358"] true;
  entry ":rice_ball:" ["1f359"] true;
  entry ":gorilla:" ["1f98d"] true;
  entry ":rice:" ["1f35a"] true;
  entry ":curry:" ["1f35b"] true;
  entry ":deer:" ["1f98c"] true;
  entry ":ramen:" ["1f35c"] true;
  entry ":spaghetti:" ["1f35d"] true;
  entry ":bread:" ["1f35e"] true;
  entry ":fries:" ["1f35f"] true;
  entry ":butterfly:" ["1f98b"] true;
  entry ":sweet_potato:" ["1f360"] true;
  entry ":dango:" ["1f361"] true;
  entry ":fox:" ["1f98a"] true;
  entry ":fox_face:" ["1f98a"] false;
  entry ":oden:" ["1f362"] true;
  entry ":sushi:" ["1f363"] true;
  entry ":owl:" ["1f989"] true;
  entry ":fried_shrimp:" ["1f364"] true;
  entry ":fish_cake:" ["1f365"] true;
  entry ":shark:" ["1f988"] true;
  entry ":icecream:" ["1f366"] true;
  entry ":bat:" ["1f987"] true;
  entry ":shaved_ice:" ["1f367"] true;
  entry ":regional_indicator_x:" ["1f1fd"] true;
  entry ":ice_cream:" ["1f368"] true;
  entry ":duck:" ["1f986"] true;
  entry ":doughnut:" ["1f369"] true;
  entry ":eagle:" ["1f985"] true;
  entry ":cookie:" ["1f36a"] true;
  entry ":black_heart:" ["1f5a4"] true;
  entry ":chocolate_bar:" ["1f36b"] true;
  entry ":candy:" ["1f36c"] true
].

Definition emojioneList_12 : list (list Z * emoji) := [
  entry ":lollipop:" ["1f36d"] true;
  entry ":custard:" ["1f36e"] true;
  entry ":pudding:" ["1f36e"] false;
  entry ":flan:" ["1f36e"] false;
  entry ":honey_pot:" ["1f36f"] true;
  entry ":fingers_crossed:" ["1f91e"] true;
  entry ":hand_with_index_and_middle_finger_crossed:" ["1f91e"] false;
  entry ":cake:" ["1f370"] true;
  entry ":bento:" ["1f371"] true;
  entry ":stew:" ["1f372"] true;
  entry ":handshake:" ["1f91d"] true;
  entry ":shaking_hands:" ["1f91d"] false;
  entry ":cooking:" ["1f373"] true;
  entry ":fork_and_knife:" ["1f374"] true;
  entry ":tea:" ["1f375"] true;
  entry ":sake:" ["1f376"] true;
  entry ":wine_glass:" ["1f377"] true;
  entry ":cocktail:" ["1f378"] true;
  entry ":tropical_drink:" ["1f379"] true;
  entry ":beer:" ["1f37a"] true;
  entry ":beers:" ["1f37b"] true;
  entry ":ribbon:" ["1f380"] true;
  entry ":gift:" ["1f381"] true;
  entry ":birthday:" ["1f382"] true;
  entry ":jack_o_lantern:" ["1f383"] true;
  entry ":left_facing_fist:" ["1f91b"] true;
  entry ":left_fist:" ["1f91b"] false;
  entry ":right_facing_fist:" ["1f91c"] true;
  entry ":right_fist:" ["1f91c"] false;
  entry ":christmas_tree:" ["1f384"] true;
  entry ":santa:" ["1f385"] true;
  entry ":fireworks:" ["1f386"] true;
  entry ":raised_back_of_hand:" ["1f91a"] true;
  entry ":back_of_hand:" ["1f91a"] false;
  entry ":sparkler:" ["1f387"] true;
  entry ":balloon:" ["1f388"] true;
  entry ":tada:" ["1f389"] true;
  entry ":confetti_ball:" ["1f38a"] true;
  entry ":tanabata_tree:" ["1f38b"] true;
  entry ":crossed_flags:" ["1f38c"] true;
  entry ":call_me:" ["1f919"] true;
  entry ":call_me_hand:" ["1f919"] false;
  entry ":bamboo:" ["1f38d"] true;
  entry ":man_dancing:" ["1f57a"] true;
  entry ":male_dancer:" ["1f57a"] false;
  entry ":dolls:" ["1f38e"] true;
  entry ":selfie:" ["1f933"] true;
  entry ":flags:" ["1f38f"] true;
  entry ":pregnant_woman:" ["1f930"] true;
  entry ":expecting_woman:" ["1f930"] false;
  entry ":wind_chime:" ["1f390"] true;
  entry ":face_palm:" ["1f926"] true;
  entry ":facepalm:" ["1f926"] false;
  entry ":shrug:" ["1f937"] true;
  entry ":rice_scene:" ["1f391"] true;
  entry ":school_satchel:" ["1f392"] true;
  entry ":mortar_board:" ["1f393"] true;
  entry ":carousel_horse:" ["1f3a0"] true;
  entry ":ferris_wheel:" ["1f3a1"] true;
  entry ":roller_coaster:" ["1f3a2"] true;
  entry ":fishing_pole_and_fish:" ["1f3a3"] true;
  entry ":microphone:" ["1f3a4"] true;
  entry ":movie_camera:" ["1f3a5"] true;
  entry ":cinema:" ["1f3a6"] true;
  entry ":headphones:" ["1f3a7"] true;
  entry ":mrs_claus:" ["1f936"] true;
  entry ":mother_christmas:" ["1f936"] false;
  entry ":art:" ["1f3a8"] true;
  entry ":man_in_tuxedo:" ["1f935"] true;
  entry ":tophat:" ["1f3a9"] true;
  entry ":circus_tent:" ["1f3aa"] true;
  entry ":prince:" ["1f934"] true;
  entry ":ticket:" ["1f3ab"] true;
  entry ":clapper:" ["1f3ac"] true;
  entry ":performing_arts:" ["1f3ad"] true;
  entry ":sneezing_face:" ["1f927"] true;
  entry ":sneeze:" ["1f927"] false;
  entry ":video_game:" ["1f3ae"] true;
  entry ":dart:" ["1f3af"] true;
  entry ":slot_machine:" ["1f3b0"] true;
  entry ":8ball:" ["1f3b1"] true;
  entry ":game_die:" ["1f3b2"] true;
  entry ":bowling:" ["1f3b3"] true;
  entry ":flower_playing_cards:" ["1f3b4"] true;
  entry ":lying_face:" ["1f925"] true;
  entry ":liar:" ["1f925"] false;
  entry ":musical_note:" ["1f3b5"] true;
  entry ":notes:" ["1f3b6"] true;
  entry ":saxophone:" ["1f3b7"] true;
  entry ":drooling_face:" ["1f924"] true;
  entry ":drool:" ["1f924"] false;
  entry ":guitar:" ["1f3b8"] true;
  entry ":musical_keyboard:" ["1f3b9"] true;
  entry ":trumpet:" ["1f3ba"] true;
  entry ":rofl:" ["1f923"] true;
  entry ":rolling_on_the_floor_laughing:" ["1f923"] false;
  entry ":violin:" ["1f3bb"] true;
  entry ":musical_score:" ["1f3bc"] true;
  entry ":running_shirt_with_sash:" ["1f3bd"] true;
  entry ":nauseated_face:" ["1f922"] true;
  entry ":sick:" ["1f922"] false;
  entry ":tennis:" ["1f3be"] true;
  entry ":ski:" ["1f3bf"] true;
  entry ":basketball:" ["1f3c0"] true;
  entry ":checkered_flag:" ["1f3c1"] true;
  entry ":clown:" ["1f921"] true;
  entry ":clown_face:" ["1f921"] false;
  entry ":snowboarder:" ["1f3c2"] true;
  entry ":runner:" ["1f3c3"] true;
  entry ":surfer:" ["1f3c4"] true;
  entry ":trophy:" ["1f3c6"] true;
  entry ":football:" ["1f3c8"] true;
  entry ":swimmer:" ["1f3ca"] true;
  entry ":house:" ["1f3e0"] true;
  entry ":house_with_garden:" ["1f3e1"] true;
  entry ":office:" ["1f3e2"] true;
  entry ":post_office:" ["1f3e3"] true;
  entry ":hospital:" ["1f3e5"] true;
  entry ":bank:" ["1f3e6"] true;
  entry ":atm:" ["1f3e7"] true;
  entry ":hotel:" ["1f3e8"] true;
  entry ":love_hotel:" ["1f3e9"] true;
  entry ":convenience_store:" ["1f3ea"] true;
  entry ":school:" ["1f3eb"] true;
  entry ":department_store:" ["1f3ec"] true;
  entry ":cowboy:" ["1f920"] true;
  entry ":face_with_cowboy_hat:" ["1f920"] false;
  entry ":factory:" ["1f3ed"] true;
  entry ":izakaya_lantern:" ["1f3ee"] true;
  entry ":japanese_castle:" ["1f3ef"] true;
  entry ":european_castle:" ["1f3f0"] true;
  entry ":snail:" ["1f40c"] true;
  entry ":snake:" ["1f40d"] true;
  entry ":racehorse:" ["1f40e"] true;
  entry ":sheep:" ["1f411"] true;
  entry ":monkey:" ["1f412"] true;
  entry ":chicken:" ["1f414"] true;
  entry ":boar:" ["1f417"] true;
  entry ":elephant:" ["1f418"] true;
  entry ":octopus:" ["1f419"] true;
  entry ":shell:" ["1f41a"] true;
  entry ":bug:" ["1f41b"] true;
  entry ":ant:" ["1f41c"] true;
  entry ":bee:" ["1f41d"] true;
  entry ":beetle:" ["1f41e"] true;
  entry ":fish:" ["1f41f"] true;
  entry ":tropical_fish:" ["1f420"] true;
  entry ":blowfish:" ["1f421"] true;
  entry ":turtle:" ["1f422"] true;
  entry ":hatching_chick:" ["1f423"] true
].

Definition emojioneList_13 : list (list Z * emoji) := [
  entry ":baby_chick:" ["1f424"] true;
  entry ":hatched_chick:" ["1f425"] true;
  entry ":bird:" ["1f426"] true;
  entry ":penguin:" ["1f427"] true;
  entry ":koala:" ["1f428"] true;
  entry ":poodle:" ["1f429"] true;
  entry ":camel:" ["1f42b"] true;
  entry ":dolphin:" ["1f42c"] true;
  entry ":mouse:" ["1f42d"] true;
  entry ":cow:" ["1f42e"] true;
  entry ":tiger:" ["1f42f"] true;
  entry ":rabbit:" ["1f430"] true;
  entry ":cat:" ["1f431"] true;
  entry ":dragon_face:" ["1f432"] true;
  entry ":whale:" ["1f433"] true;
  entry ":horse:" ["1f434"] true;
  entry ":monkey_face:" ["1f435"] true;
  entry ":dog:" ["1f436"] true;
  entry ":pig:" ["1f437"] true;
  entry ":frog:" ["1f438"] true;
  entry ":hamster:" ["1f439"] true;
  entry ":wolf:" ["1f43a"] true;
  entry ":bear:" ["1f43b"] true;
  entry ":panda_face:" ["1f43c"] true;
  entry ":pig_nose:" ["1f43d"] true;
  entry ":feet:" ["1f43e"] true;
  entry ":paw_prints:" ["1f43e"] false;
  entry ":eyes:" ["1f440"] true;
  entry ":ear:" ["1f442"] true;
  entry ":nose:" ["1f443"] true;
  entry ":lips:" ["1f444"] true;
  entry ":tongue:" ["1f445"] true;
  entry ":point_up_2:" ["1f446"] true;
  entry ":point_down:" ["1f447"] true;
  entry ":point_left:" ["1f448"] true;
  entry ":point_right:" ["1f449"] true;
  entry ":punch:" ["1f44a"] true;
  entry ":wave:" ["1f44b"] true;
  entry ":ok_hand:" ["1f44c"] true;
  entry ":thumbsup:" ["1f44d"] true;
  entry ":+1:" ["1f44d"] false;
  entry ":thumbup:" ["1f44d"] false;
  entry ":thumbsdown:" ["1f44e"] true;
  entry ":-1:" ["1f44e"] false;
  entry ":thumbdown:" ["1f44e"] false;
  entry ":clap:" ["1f44f"] true;
  entry ":open_hands:" ["1f450"] true;
  entry ":crown:" ["1f451"] true;
  entry ":womans_hat:" ["1f452"] true;
  entry ":eyeglasses:" ["1f453"] true;
  entry ":necktie:" ["1f454"] true;
  entry ":shirt:" ["1f455"] true;
  entry ":jeans:" ["1f456"] true;
  entry ":dress:" ["1f457"] true;
  entry ":kimono:" ["1f458"] true;
  entry ":bikini:" ["1f459"] true;
  entry ":womans_clothes:" ["1f45a"] true;
  entry ":purse:" ["1f45b"] true;
  entry ":handbag:" ["1f45c"] true;
  entry ":pouch:" ["1f45d"] true;
  entry ":mans_shoe:" ["1f45e"] true;
  entry ":athletic_shoe:" ["1f45f"] true;
  entry ":high_heel:" ["1f460"] true;
  entry ":sandal:" ["1f461"] true;
  entry ":boot:" ["1f462"] true;
  entry ":footprints:" ["1f463"] true;
  entry ":bust_in_silhouette:" ["1f464"] true;
  entry ":boy:" ["1f466"] true;
  entry ":girl:" ["1f467"] true;
  entry ":man:" ["1f468"] true;
  entry ":woman:" ["1f469"] true;
  entry ":family:" ["1f46a"] true;
  entry ":couple:" ["1f46b"] true;
  entry ":cop:" ["1f46e"] true;
  entry ":dancers:" ["1f46f"] true;
  entry ":bride_with_veil:" ["1f470"] true;
  entry ":person_with_blond_hair:" ["1f471"] true;
  entry ":man_with_gua_pi_mao:" ["1f472"] true;
  entry ":man_with_turban:" ["1f473"] true;
  entry ":older_man:" ["1f474"] true;
  entry ":older_woman:" ["1f475"] true;
  entry ":grandma:" ["1f475"] false;
  entry ":baby:" ["1f476"] true;
  entry ":construction_worker:" ["1f477"] true;
  entry ":princess:" ["1f478"] true;
  entry ":japanese_ogre:" ["1f479"] true;
  entry ":japanese_goblin:" ["1f47a"] true;
  entry ":ghost:" ["1f47b"] true;
  entry ":angel:" ["1f47c"] true;
  entry ":alien:" ["1f47d"] true;
  entry ":space_invader:" ["1f47e"] true;
  entry ":imp:" ["1f47f"] true;
  entry ":skull:" ["1f480"] true;
  entry ":skeleton:" ["1f480"] false;
  entry ":card_index:" ["1f4c7"] true;
  entry ":information_desk_person:" ["1f481"] true;
  entry ":guardsman:" ["1f482"] true;
  entry ":dancer:" ["1f483"] true;
  entry ":lipstick:" ["1f484"] true;
  entry ":nail_care:" ["1f485"] true;
  entry ":ledger:" ["1f4d2"] true;
  entry ":massage:" ["1f486"] true;
  entry ":notebook:" ["1f4d3"] true;
  entry ":haircut:" ["1f487"] true;
  entry ":notebook_with_decorative_cover:" ["1f4d4"] true;
  entry ":barber:" ["1f488"] true;
  entry ":closed_book:" ["1f4d5"] true;
  entry ":syringe:" ["1f489"] true;
  entry ":book:" ["1f4d6"] true;
  entry ":pill:" ["1f48a"] true;
  entry ":green_book:" ["1f4d7"] true;
  entry ":kiss:" ["1f48b"] true;
  entry ":blue_book:" ["1f4d8"] true;
  entry ":love_letter:" ["1f48c"] true;
  entry ":orange_book:" ["1f4d9"] true;
  entry ":ring:" ["1f48d"] true;
  entry ":books:" ["1f4da"] true;
  entry ":gem:" ["1f48e"] true;
  entry ":name_badge:" ["1f4db"] true;
  entry ":couplekiss:" ["1f48f"] true;
  entry ":scroll:" ["1f4dc"] true;
  entry ":bouquet:" ["1f490"] true;
  entry ":pencil:" ["1f4dd"] true;
  entry ":couple_with_heart:" ["1f491"] true;
  entry ":telephone_receiver:" ["1f4de"] true;
  entry ":wedding:" ["1f492"] true;
  entry ":pager:" ["1f4df"] true;
  entry ":fax:" ["1f4e0"] true;
  entry ":heartbeat:" ["1f493"] true;
  entry ":satellite:" ["1f4e1"] true;
  entry ":loudspeaker:" ["1f4e2"] true;
  entry ":broken_heart:" ["1f494"] true;
  entry ":mega:" ["1f4e3"] true;
  entry ":outbox_tray:" ["1f4e4"] true;
  entry ":two_hearts:" ["1f495"] true;
  entry ":inbox_tray:" ["1f4e5"] true;
  entry ":package:" ["1f4e6"] true;
  entry ":sparkling_heart:" ["1f496"] true;
  entry ":e-mail:" ["1f4e7"] true;
  entry ":email:" ["1f4e7"] false;
  entry ":incoming_envelope:" ["1f4e8"] true;
  entry ":heartpulse:" ["1f497"] true;
  entry ":envelope_with_arrow:" ["1f4e9"] true;
  entry ":mailbox_closed:" ["1f4ea"] true;
  entry ":cupid:" ["1f498"] true;
  entry ":mailbox:" ["1f4eb"] true;
  entry ":postbox:" ["1f4ee"] true;
  entry ":blue_heart:" ["1f499"] true;
  entry ":newspaper:" ["1f4f0"] true;
  entry ":iphone:" ["1f4f1"] true
].

Definition emojioneList_14 : list (list Z * emoji) := [
  entry ":green_heart:" ["1f49a"] true;
  entry ":calling:" ["1f4f2"] true;
  entry ":vibration_mode:" ["1f4f3"] true;
  entry ":yellow_heart:" ["1f49b"] true;
  entry ":mobile_phone_off:" ["1f4f4"] true;
  entry ":signal_strength:" ["1f4f6"] true;
  entry ":purple_heart:" ["1f49c"] true;
  entry ":camera:" ["1f4f7"] true;
  entry ":video_camera:" ["1f4f9"] true;
  entry ":gift_heart:" ["1f49d"] true;
  entry ":tv:" ["1f4fa"] true;
  entry ":radio:" ["1f4fb"] true;
  entry ":revolving_hearts:" ["1f49e"] true;
  entry ":vhs:" ["1f4fc"] true;
  entry ":arrows_clockwise:" ["1f503"] true;
  entry ":heart_decoration:" ["1f49f"] true;
  entry ":loud_sound:" ["1f50a"] true;
  entry ":battery:" ["1f50b"] true;
  entry ":diamond_shape_with_a_dot_inside:" ["1f4a0"] true;
  entry ":electric_plug:" ["1f50c"] true;
  entry ":mag:" ["1f50d"] true;
  entry ":bulb:" ["1f4a1"] true;
  entry ":mag_right:" ["1f50e"] true;
  entry ":lock_with_ink_pen:" ["1f50f"] true;
  entry ":anger:" ["1f4a2"] true;
  entry ":closed_lock_with_key:" ["1f510"] true;
  entry ":key:" ["1f511"] true;
  entry ":bomb:" ["1f4a3"] true;
  entry ":lock:" ["1f512"] true;
  entry ":unlock:" ["1f513"] true;
  entry ":zzz:" ["1f4a4"] true;
  entry ":bell:" ["1f514"] true;
  entry ":bookmark:" ["1f516"] true;
  entry ":boom:" ["1f4a5"] true;
  entry ":link:" ["1f517"] true;
  entry ":radio_button:" ["1f518"] true;
  entry ":sweat_drops:" ["1f4a6"] true;
  entry ":back:" ["1f519"] true;
  entry ":end:" ["1f51a"] true;
  entry ":droplet:" ["1f4a7"] true;
  entry ":on:" ["1f51b"] true;
  entry ":soon:" ["1f51c"] true;
  entry ":dash:" ["1f4a8"] true;
  entry ":top:" ["1f51d"] true;
  entry ":underage:" ["1f51e"] true;
  entry ":poop:" ["1f4a9"] true;
  entry ":shit:" ["1f4a9"] false;
  entry ":hankey:" ["1f4a9"] false;
  entry ":poo:" ["1f4a9"] false;
  entry ":keycap_ten:" ["1f51f"] true;
  entry ":muscle:" ["1f4aa"] true;
  entry ":capital_abcd:" ["1f520"] true;
  entry ":abcd:" ["1f521"] true;
  entry ":dizzy:" ["1f4ab"] true;
  entry ":1234:" ["1f522"] true;
  entry ":symbols:" ["1f523"] true;
  entry ":speech_balloon:" ["1f4ac"] true;
  entry ":abc:" ["1f524"] true;
  entry ":fire:" ["1f525"] true;
  entry ":flame:" ["1f525"] false;
  entry ":white_flower:" ["1f4ae"] true;
  entry ":flashlight:" ["1f526"] true;
  entry ":wrench:" ["1f527"] true;
  entry ":100:" ["1f4af"] true;
  entry ":hammer:" ["1f528"] true;
  entry ":nut_and_bolt:" ["1f529"] true;
  entry ":moneybag:" ["1f4b0"] true;
  entry ":knife:" ["1f52a"] true;
  entry ":gun:" ["1f52b"] true;
  entry ":currency_exchange:" ["1f4b1"] true;
  entry ":crystal_ball:" ["1f52e"] true;
  entry ":heavy_dollar_sign:" ["1f4b2"] true;
  entry ":six_pointed_star:" ["1f52f"] true;
  entry ":credit_card:" ["1f4b3"] true;
  entry ":beginner:" ["1f530"] true;
  entry ":trident:" ["1f531"] true;
  entry ":yen:" ["1f4b4"] true;
  entry ":black_square_button:" ["1f532"] true;
  entry ":white_square_button:" ["1f533"] true;
  entry ":dollar:" ["1f4b5"] true;
  entry ":red_circle:" ["1f534"] true;
  entry ":large_blue_circle:" ["1f535"] true;
  entry ":money_with_wings:" ["1f4b8"] true;
  entry ":large_orange_diamond:" ["1f536"] true;
  entry ":large_blue_diamond:" ["1f537"] true;
  entry ":chart:" ["1f4b9"] true;
  entry ":small_orange_diamond:" ["1f538"] true;
  entry ":small_blue_diamond:" ["1f539"] true;
  entry ":seat:" ["1f4ba"] true;
  entry ":small_red_triangle:" ["1f53a"] true;
  entry ":small_red_triangle_down:" ["1f53b"] true;
  entry ":computer:" ["1f4bb"] true;
  entry ":arrow_up_small:" ["1f53c"] true;
  entry ":briefcase:" ["1f4bc"] true;
  entry ":arrow_down_small:" ["1f53d"] true;
  entry ":clock1:" ["1f550"] true;
  entry ":minidisc:" ["1f4bd"] true;
  entry ":clock2:" ["1f551"] true;
  entry ":floppy_disk:" ["1f4be"] true;
  entry ":clock3:" ["1f552"] true;
  entry ":cd:" ["1f4bf"] true;
  entry ":clock4:" ["1f553"] true;
  entry ":dvd:" ["1f4c0"] true;
  entry ":clock5:" ["1f554"] true;
  entry ":clock6:" ["1f555"] true;
  entry ":file_folder:" ["1f4c1"] true;
  entry ":clock7:" ["1f556"] true;
  entry ":clock8:" ["1f557"] true;
  entry ":open_file_folder:" ["1f4c2"] true;
  entry ":clock9:" ["1f558"] true;
  entry ":clock10:" ["1f559"] true;
  entry ":page_with_curl:" ["1f4c3"] true;
  entry ":clock11:" ["1f55a"] true;
  entry ":clock12:" ["1f55b"] true;
  entry ":page_facing_up:" ["1f4c4"] true;
  entry ":mount_fuji:" ["1f5fb"] true;
  entry ":tokyo_tower:" ["1f5fc"] true;
  entry ":date:" ["1f4c5"] true;
  entry ":statue_of_liberty:" ["1f5fd"] true;
  entry ":japan:" ["1f5fe"] true;
  entry ":calendar:" ["1f4c6"] true;
  entry ":moyai:" ["1f5ff"] true;
  entry ":grin:" ["1f601"] true;
  entry ":joy:" ["1f602"] true;
  entry ":smiley:" ["1f603"] true;
  entry ":chart_with_upwards_trend:" ["1f4c8"] true;
  entry ":smile:" ["1f604"] true;
  entry ":sweat_smile:" ["1f605"] true;
  entry ":chart_with_downwards_trend:" ["1f4c9"] true;
  entry ":laughing:" ["1f606"] true;
  entry ":satisfied:" ["1f606"] false;
  entry ":wink:" ["1f609"] true;
  entry ":bar_chart:" ["1f4ca"] true;
  entry ":blush:" ["1f60a"] true;
  entry ":yum:" ["1f60b"] true;
  entry ":clipboard:" ["1f4cb"] true;
  entry ":relieved:" ["1f60c"] true;
  entry ":heart_eyes:" ["1f60d"] true;
  entry ":pushpin:" ["1f4cc"] true;
  entry ":smirk:" ["1f60f"] true;
  entry ":unamused:" ["1f612"] true;
  entry ":round_pushpin:" ["1f4cd"] true;
  entry ":sweat:" ["1f613"] true;
  entry ":pensive:" ["1f614"] true;
  entry ":paperclip:" ["1f4ce"] true;
  entry ":confounded:" ["1f616"] true;
  entry ":kissing_heart:" ["1f618"] true;
  entry ":straight_ruler:" ["1f4cf"] true;
  entry ":kissing_closed_eyes:" ["1f61a"] true;
  entry ":stuck_out_tongue_winking_eye:" ["1f61c"] true
].

Definition emojioneList_15 : list (list Z * emoji) := [
  entry ":triangular_ruler:" ["1f4d0"] true;
  entry ":stuck_out_tongue_closed_eyes:" ["1f61d"] true;
  entry ":disappointed:" ["1f61e"] true;
  entry ":bookmark_tabs:" ["1f4d1"] true;
  entry ":angry:" ["1f620"] true;
  entry ":rage:" ["1f621"] true;
  entry ":cry:" ["1f622"] true;
  entry ":persevere:" ["1f623"] true;
  entry ":triumph:" ["1f624"] true;
  entry ":disappointed_relieved:" ["1f625"] true;
  entry ":fearful:" ["1f628"] true;
  entry ":weary:" ["1f629"] true;
  entry ":sleepy:" ["1f62a"] true;
  entry ":tired_face:" ["1f62b"] true;
  entry ":sob:" ["1f62d"] true;
  entry ":cold_sweat:" ["1f630"] true;
  entry ":scream:" ["1f631"] true;
  entry ":astonished:" ["1f632"] true;
  entry ":flushed:" ["1f633"] true;
  entry ":dizzy_face:" ["1f635"] true;
  entry ":mask:" ["1f637"] true;
  entry ":smile_cat:" ["1f638"] true;
  entry ":joy_cat:" ["1f639"] true;
  entry ":smiley_cat:" ["1f63a"] true;
  entry ":heart_eyes_cat:" ["1f63b"] true;
  entry ":smirk_cat:" ["1f63c"] true;
  entry ":kissing_cat:" ["1f63d"] true;
  entry ":pouting_cat:" ["1f63e"] true;
  entry ":crying_cat_face:" ["1f63f"] true;
  entry ":scream_cat:" ["1f640"] true;
  entry ":no_good:" ["1f645"] true;
  entry ":ok_woman:" ["1f646"] true;
  entry ":bow:" ["1f647"] true;
  entry ":see_no_evil:" ["1f648"] true;
  entry ":hear_no_evil:" ["1f649"] true;
  entry ":speak_no_evil:" ["1f64a"] true;
  entry ":raising_hand:" ["1f64b"] true;
  entry ":raised_hands:" ["1f64c"] true;
  entry ":person_frowning:" ["1f64d"] true;
  entry ":person_with_pouting_face:" ["1f64e"] true;
  entry ":pray:" ["1f64f"] true;
  entry ":rocket:" ["1f680"] true;
  entry ":railway_car:" ["1f683"] true;
  entry ":bullettrain_side:" ["1f684"] true;
  entry ":bullettrain_front:" ["1f685"] true;
  entry ":metro:" ["1f687"] true;
  entry ":station:" ["1f689"] true;
  entry ":bus:" ["1f68c"] true;
  entry ":busstop:" ["1f68f"] true;
  entry ":ambulance:" ["1f691"] true;
  entry ":fire_engine:" ["1f692"] true;
  entry ":police_car:" ["1f693"] true;
  entry ":taxi:" ["1f695"] true;
  entry ":red_car:" ["1f697"] true;
  entry ":blue_car:" ["1f699"] true;
  entry ":truck:" ["1f69a"] true;
  entry ":ship:" ["1f6a2"] true;
  entry ":speedboat:" ["1f6a4"] true;
  entry ":traffic_light:" ["1f6a5"] true;
  entry ":construction:" ["1f6a7"] true;
  entry ":rotating_light:" ["1f6a8"] true;
  entry ":triangular_flag_on_post:" ["1f6a9"] true;
  entry ":door:" ["1f6aa"] true;
  entry ":no_entry_sign:" ["1f6ab"] true;
  entry ":smoking:" ["1f6ac"] true;
  entry ":no_smoking:" ["1f6ad"] true;
  entry ":bike:" ["1f6b2"] true;
  entry ":walking:" ["1f6b6"] true;
  entry ":mens:" ["1f6b9"] true;
  entry ":womens:" ["1f6ba"] true;
  entry ":restroom:" ["1f6bb"] true;
  entry ":baby_symbol:" ["1f6bc"] true;
  entry ":toilet:" ["1f6bd"] true;
  entry ":wc:" ["1f6be"] true;
  entry ":bath:" ["1f6c0"] true;
  entry ":metal:" ["1f918"] true;
  entry ":sign_of_the_horns:" ["1f918"] false;
  entry ":grinning:" ["1f600"] true;
  entry ":innocent:" ["1f607"] true;
  entry ":smiling_imp:" ["1f608"] true;
  entry ":sunglasses:" ["1f60e"] true;
  entry ":neutral_face:" ["1f610"] true;
  entry ":expressionless:" ["1f611"] true;
  entry ":confused:" ["1f615"] true;
  entry ":kissing:" ["1f617"] true;
  entry ":kissing_smiling_eyes:" ["1f619"] true;
  entry ":stuck_out_tongue:" ["1f61b"] true;
  entry ":worried:" ["1f61f"] true;
  entry ":frowning:" ["1f626"] true;
  entry ":anguished:" ["1f627"] true;
  entry ":grimacing:" ["1f62c"] true;
  entry ":open_mouth:" ["1f62e"] true;
  entry ":hushed:" ["1f62f"] true;
  entry ":sleeping:" ["1f634"] true;
  entry ":no_mouth:" ["1f636"] true;
  entry ":helicopter:" ["1f681"] true;
  entry ":steam_locomotive:" ["1f682"] true;
  entry ":train2:" ["1f686"] true;
  entry ":light_rail:" ["1f688"] true;
  entry ":tram:" ["1f68a"] true;
  entry ":oncoming_bus:" ["1f68d"] true;
  entry ":trolleybus:" ["1f68e"] true;
  entry ":minibus:" ["1f690"] true;
  entry ":oncoming_police_car:" ["1f694"] true;
  entry ":oncoming_taxi:" ["1f696"] true;
  entry ":oncoming_automobile:" ["1f698"] true;
  entry ":articulated_lorry:" ["1f69b"] true;
  entry ":tractor:" ["1f69c"] true;
  entry ":monorail:" ["1f69d"] true;
  entry ":mountain_railway:" ["1f69e"] true;
  entry ":suspension_railway:" ["1f69f"] true;
  entry ":mountain_cableway:" ["1f6a0"] true;
  entry ":aerial_tramway:" ["1f6a1"] true;
  entry ":rowboat:" ["1f6a3"] true;
  entry ":vertical_traffic_light:" ["1f6a6"] true;
  entry ":put_litter_in_its_place:" ["1f6ae"] true;
  entry ":do_not_litter:" ["1f6af"] true;
  entry ":potable_water:" ["1f6b0"] true;
  entry ":non-potable_water:" ["1f6b1"] true;
  entry ":no_bicycles:" ["1f6b3"] true;
  entry ":bicyclist:" ["1f6b4"] true;
  entry ":mountain_bicyclist:" ["1f6b5"] true;
  entry ":no_pedestrians:" ["1f6b7"] true;
  entry ":children_crossing:" ["1f6b8"] true;
  entry ":shower:" ["1f6bf"] true;
  entry ":bathtub:" ["1f6c1"] true;
  entry ":passport_control:" ["1f6c2"] true;
  entry ":customs:" ["1f6c3"] true;
  entry ":baggage_claim:" ["1f6c4"] true;
  entry ":left_luggage:" ["1f6c5"] true;
  entry ":earth_africa:" ["1f30d"] true;
  entry ":earth_americas:" ["1f30e"] true;
  entry ":globe_with_meridians:" ["1f310"] true;
  entry ":waxing_crescent_moon:" ["1f312"] true;
  entry ":waning_gibbous_moon:" ["1f316"] true;
  entry ":last_quarter_moon:" ["1f317"] true;
  entry ":waning_crescent_moon:" ["1f318"] true;
  entry ":new_moon_with_face:" ["1f31a"] true;
  entry ":last_quarter_moon_with_face:" ["1f31c"] true;
  entry ":full_moon_with_face:" ["1f31d"] true;
  entry ":sun_with_face:" ["1f31e"] true;
  entry ":evergreen_tree:" ["1f332"] true;
  entry ":deciduous_tree:" ["1f333"] true;
  entry ":lemon:" ["1f34b"] true;
  entry ":pear:" ["1f350"] true;
  entry ":baby_bottle:" ["1f37c"] true;
  entry ":horse_racing:" ["1f3c7"] true;
  entry ":rugby_football:" ["1f3c9"] true;
  entry ":european_post_office:" ["1f3e4"] true;
  entry ":rat:" ["1f400"] true
].

Definition emojioneList_16 : list (list Z * emoji) := [
  entry ":mouse2:" ["1f401"] true;
  entry ":ox:" ["1f402"] true;
  entry ":water_buffalo:" ["1f403"] true;
  entry ":cow2:" ["1f404"] true;
  entry ":tiger2:" ["1f405"] true;
  entry ":leopard:" ["1f406"] true;
  entry ":rabbit2:" ["1f407"] true;
  entry ":cat2:" ["1f408"] true;
  entry ":dragon:" ["1f409"] true;
  entry ":crocodile:" ["1f40a"] true;
  entry ":whale2:" ["1f40b"] true;
  entry ":ram:" ["1f40f"] true;
  entry ":goat:" ["1f410"] true;
  entry ":rooster:" ["1f413"] true;
  entry ":dog2:" ["1f415"] true;
  entry ":pig2:" ["1f416"] true;
  entry ":dromedary_camel:" ["1f42a"] true;
  entry ":busts_in_silhouette:" ["1f465"] true;
  entry ":two_men_holding_hands:" ["1f46c"] true;
  entry ":two_women_holding_hands:" ["1f46d"] true;
  entry ":thought_balloon:" ["1f4ad"] true;
  entry ":euro:" ["1f4b6"] true;
  entry ":pound:" ["1f4b7"] true;
  entry ":mailbox_with_mail:" ["1f4ec"] true;
  entry ":mailbox_with_no_mail:" ["1f4ed"] true;
  entry ":postal_horn:" ["1f4ef"] true;
  entry ":no_mobile_phones:" ["1f4f5"] true;
  entry ":twisted_rightwards_arrows:" ["1f500"] true;
  entry ":repeat:" ["1f501"] true;
  entry ":repeat_one:" ["1f502"] true;
  entry ":arrows_counterclockwise:" ["1f504"] true;
  entry ":low_brightness:" ["1f505"] true;
  entry ":high_brightness:" ["1f506"] true;
  entry ":mute:" ["1f507"] true;
  entry ":sound:" ["1f509"] true;
  entry ":no_bell:" ["1f515"] true;
  entry ":microscope:" ["1f52c"] true;
  entry ":telescope:" ["1f52d"] true;
  entry ":clock130:" ["1f55c"] true;
  entry ":clock230:" ["1f55d"] true;
  entry ":clock330:" ["1f55e"] true;
  entry ":clock430:" ["1f55f"] true;
  entry ":clock530:" ["1f560"] true;
  entry ":clock630:" ["1f561"] true;
  entry ":clock730:" ["1f562"] true;
  entry ":clock830:" ["1f563"] true;
  entry ":clock930:" ["1f564"] true;
  entry ":clock1030:" ["1f565"] true;
  entry ":clock1130:" ["1f566"] true;
  entry ":clock1230:" ["1f567"] true;
  entry ":speaker:" ["1f508"] true;
  entry ":train:" ["1f68b"] true;
  entry ":medal:" ["1f3c5"] true;
  entry ":sports_medal:" ["1f3c5"] false;
  entry ":flag_black:" ["1f3f4"] true;
  entry ":waving_black_flag:" ["1f3f4"] false;
  entry ":camera_with_flash:" ["1f4f8"] true;
  entry ":sleeping_accommodation:" ["1f6cc"] true;
  entry ":middle_finger:" ["1f595"] true;
  entry ":reversed_hand_with_middle_finger_extended:" ["1f595"] false;
  entry ":vulcan:" ["1f596"] true;
  entry ":raised_hand_with_part_between_middle_and_ring_fingers:" ["1f596"] false;
  entry ":slight_frown:" ["1f641"] true;
  entry ":slightly_frowning_face:" ["1f641"] false;
  entry ":slight_smile:" ["1f642"] true;
  entry ":slightly_smiling_face:" ["1f642"] false;
  entry ":airplane_departure:" ["1f6eb"] true;
  entry ":airplane_arriving:" ["1f6ec"] true;
  entry ":tone1:" ["1f3fb"] true;
  entry ":tone2:" ["1f3fc"] true;
  entry ":tone3:" ["1f3fd"] true;
  entry ":tone4:" ["1f3fe"] true;
  entry ":tone5:" ["1f3ff"] true;
  entry ":upside_down:" ["1f643"] true;
  entry ":upside_down_face:" ["1f643"] false;
  entry ":money_mouth:" ["1f911"] true;
  entry ":money_mouth_face:" ["1f911"] false;
  entry ":nerd:" ["1f913"] true;
  entry ":nerd_face:" ["1f913"] false;
  entry ":hugging:" ["1f917"] true;
  entry ":hugging_face:" ["1f917"] false;
  entry ":rolling_eyes:" ["1f644"] true;
  entry ":face_with_rolling_eyes:" ["1f644"] false;
  entry ":thinking:" ["1f914"] true;
  entry ":thinking_face:" ["1f914"] false;
  entry ":zipper_mouth:" ["1f910"] true;
  entry ":zipper_mouth_face:" ["1f910"] false;
  entry ":thermometer_face:" ["1f912"] true;
  entry ":face_with_thermometer:" ["1f912"] false;
  entry ":head_bandage:" ["1f915"] true;
  entry ":face_with_head_bandage:" ["1f915"] false;
  entry ":robot:" ["1f916"] true;
  entry ":robot_face:" ["1f916"] false;
  entry ":lion_face:" ["1f981"] true;
  entry ":lion:" ["1f981"] false;
  entry ":unicorn:" ["1f984"] true;
  entry ":unicorn_face:" ["1f984"] false;
  entry ":scorpion:" ["1f982"] true;
  entry ":crab:" ["1f980"] true;
  entry ":turkey:" ["1f983"] true;
  entry ":cheese:" ["1f9c0"] true;
  entry ":cheese_wedge:" ["1f9c0"] false;
  entry ":hotdog:" ["1f32d"] true;
  entry ":hot_dog:" ["1f32d"] false;
  entry ":taco:" ["1f32e"] true;
  entry ":burrito:" ["1f32f"] true;
  entry ":popcorn:" ["1f37f"] true;
  entry ":champagne:" ["1f37e"] true;
  entry ":bottle_with_popping_cork:" ["1f37e"] false;
  entry ":bow_and_arrow:" ["1f3f9"] true;
  entry ":archery:" ["1f3f9"] false;
  entry ":amphora:" ["1f3fa"] true;
  entry ":place_of_worship:" ["1f6d0"] true;
  entry ":worship_symbol:" ["1f6d0"] false;
  entry ":kaaba:" ["1f54b"] true;
  entry ":mosque:" ["1f54c"] true;
  entry ":synagogue:" ["1f54d"] true;
  entry ":menorah:" ["1f54e"] true;
  entry ":prayer_beads:" ["1f4ff"] true;
  entry ":cricket:" ["1f3cf"] true;
  entry ":cricket_bat_ball:" ["1f3cf"] false;
  entry ":volleyball:" ["1f3d0"] true;
  entry ":field_hockey:" ["1f3d1"] true;
  entry ":hockey:" ["1f3d2"] true;
  entry ":ping_pong:" ["1f3d3"] true;
  entry ":table_tennis:" ["1f3d3"] false;
  entry ":badminton:" ["1f3f8"] true;
  entry ":drum:" ["1f941"] true;
  entry ":drum_with_drumsticks:" ["1f941"] false;
  entry ":shrimp:" ["1f990"] true;
  entry ":squid:" ["1f991"] true;
  entry ":egg:" ["1f95a"] true;
  entry ":milk:" ["1f95b"] true;
  entry ":glass_of_milk:" ["1f95b"] false;
  entry ":peanuts:" ["1f95c"] true;
  entry ":shelled_peanut:" ["1f95c"] false;
  entry ":kiwi:" ["1f95d"] true;
  entry ":kiwifruit:" ["1f95d"] false;
  entry ":pancakes:" ["1f95e"] true;
  entry ":regional_indicator_w:" ["1f1fc"] true;
  entry ":regional_indicator_v:" ["1f1fb"] true;
  entry ":regional_indicator_u:" ["1f1fa"] true;
  entry ":regional_indicator_t:" ["1f1f9"] true;
  entry ":regional_indicator_s:" ["1f1f8"] true;
  entry ":regional_indicator_r:" ["1f1f7"] true;
  entry ":regional_indicator_q:" ["1f1f6"] true;
  entry ":regional_indicator_p:" ["1f1f5"] true;
  entry ":regional_indicator_o:" ["1f1f4"] true;
  entry ":regional_indicator_n:" ["1f1f3"] true;
  entry ":regional_indicator_m:" ["1f1f2"] true
].

Definition emojioneList_17 : list (list Z * emoji) := [
  entry ":regional_indicator_l:" ["1f1f1"] true;
  entry ":regional_indicator_k:" ["1f1f0"] true;
  entry ":regional_indicator_j:" ["1f1ef"] true;
  entry ":regional_indicator_i:" ["1f1ee"] true;
  entry ":regional_indicator_h:" ["1f1ed"] true;
  entry ":regional_indicator_g:" ["1f1ec"] true;
  entry ":regional_indicator_f:" ["1f1eb"] true;
  entry ":regional_indicator_e:" ["1f1ea"] true;
  entry ":regional_indicator_d:" ["1f1e9"] true;
  entry ":regional_indicator_c:" ["1f1e8"] true;
  entry ":regional_indicator_b:" ["1f1e7"] true;
  entry ":regional_indicator_a:" ["1f1e6"] true;
  entry ":fast_forward:" ["23e9"] true;
  entry ":rewind:" ["23ea"] true;
  entry ":arrow_double_up:" ["23eb"] true;
  entry ":arrow_double_down:" ["23ec"] true;
  entry ":alarm_clock:" ["23f0"] true;
  entry ":hourglass_flowing_sand:" ["23f3"] true;
  entry ":ophiuchus:" ["26ce"] true;
  entry ":white_check_mark:" ["2705"] true;
  entry ":fist:" ["270a"] true;
  entry ":raised_hand:" ["270b"] true;
  entry ":sparkles:" ["2728"] true;
  entry ":x:" ["274c"] true;
  entry ":negative_squared_cross_mark:" ["274e"] true;
  entry ":question:" ["2753"] true;
  entry ":grey_question:" ["2754"] true;
  entry ":grey_exclamation:" ["2755"] true;
  entry ":heavy_plus_sign:" ["2795"] true;
  entry ":heavy_minus_sign:" ["2796"] true;
  entry ":heavy_division_sign:" ["2797"] true;
  entry ":curly_loop:" ["27b0"] true;
  entry ":loop:" ["27bf"] true
].

(** The whole list: an object whose keys are visited in the order of insertion. *)
Definition emojioneList : list (list Z * emoji) :=
  List.concat [
    emojioneList_1; emojioneList_2; emojioneList_3; emojioneList_4; emojioneList_5;
    emojioneList_6; emojioneList_7; emojioneList_8; emojioneList_9; emojioneList_10;
    emojioneList_11; emojioneList_12; emojioneList_13; emojioneList_14; emojioneList_15;
    emojioneList_16; emojioneList_17
  ].

Definition asciiList : list (list Z * list Z) := map (fun e => (js_lit (fst e), js (snd e))) [
  ("<3", "2764");
  ("</3", "1f494");
  (":\')", "1f602");
  (":\'-)", "1f602");
  (":D", "1f603");
  (":-D", "1f603");
  ("=D", "1f603");
  (":)", "1f642");
  (":-)", "1f642");
  ("=]", "1f642");
  ("=)", "1f642");
  (":]", "1f642");
  ("\':)", "1f605");
  ("\':-)", "1f605");
  ("\'=)", "1f605");
  ("\':D", "1f605");
  ("\':-D", "1f605");
  ("\'=D", "1f605");
  (">:)", "1f606");
  (">;)", "1f606");
  (">:-)", "1f606");
  (">=)", "1f606");
  (";)", "1f609");
  (";-)", "1f609");
  ("*-)", "1f609");
  ("*)", "1f609");
  (";-]", "1f609");
  (";]", "1f609");
  (";D", "1f609");
  (";^)", "1f609");
  ("\':(", "1f613");
  ("\':-(", "1f613");
  ("\'=(", "1f613");
  (":*", "1f618");
  (":-*", "1f618");
  ("=*", "1f618");
  (":^*", "1f618");
  (">:P", "1f61c");
  ("X-P", "1f61c");
  ("x-p", "1f61c");
  (">:[", "1f61e");
  (":-(", "1f61e");
  (":(", "1f61e");
  (":-[", "1f61e");
  (":[", "1f61e");
  ("=(", "1f61e");
  (">:(", "1f620");
  (">:-(", "1f620");
  (":@", "1f620");
  (":\'(", "1f622");
  (":\'-(", "1f622");
  (";(", "1f622");
  (";-(", "1f622");
  (">.<", "1f623");
  ("D:", "1f628");
  (":$", "1f633");
  ("=$", "1f633");
  ("#-)", "1f635");
  ("#)", "1f635");
  ("%-)", "1f635");
  ("%)", "1f635");
  ("X)", "1f635");
  ("X-)", "1f635");
  ("*\\0/*", "1f646");
  ("\\0/", "1f646");
  ("*\\O/*", "1f646");
  ("\\O/", "1f646");
  ("O:-)", "1f607");
  ("0:-3", "1f607");
  ("0:3", "1f607");
  ("0:-)", "1f607");
  ("0:)", "1f607");
  ("0;^)", "1f607");
  ("O:)", "1f607");
  ("O;-)", "1f607");
  ("O=)", "1f607");
  ("0;-)", "1f607");
  ("O:-3", "1f607");
  ("O:3", "1f607");
  ("B-)", "1f60e");
  ("B)", "1f60e");
  ("8)", "1f60e");
  ("8-)", "1f60e");
  ("B-D", "1f60e");
  ("8-D", "1f60e");
  ("-_-", "1f611");
  ("-__-", "1f611");
  ("-___-", "1f611");
  (">:\\", "1f615");
  (">:/", "1f615");
  (":-/", "1f615");
  (":-.", "1f615");
  (":/", "1f615");
  (":\\", "1f615");
  ("=/", "1f615");
  ("=\\", "1f615");
  (":L", "1f615");
  ("=L", "1f615");
  (":P", "1f61b");
  (":-P", "1f61b");
  ("=P", "1f61b");
  (":-p", "1f61b");
  (":p", "1f61b");
  ("=p", "1f61b");
  (":-Þ", "1f61b");
  (":Þ", "1f61b");
  (":þ", "1f61b");
  (":-þ", "1f61b");
  (":-b", "1f61b");
  (":b", "1f61b");
  ("d:", "1f61b");
  (":-O", "1f62e");
  (":O", "1f62e");
  (":-o", "1f62e");
  (":o", "1f62e");
  ("O_O", "1f62e");
  (">:O", "1f62e");
  (":-X", "1f636");
  (":X", "1f636");
  (":-#", "1f636");
  (":#", "1f636");
  ("=X", "1f636");
  ("=x", "1f636");
  (":x", "1f636");
  (":-x", "1f636");
  ("=#", "1f636")
].

(** The alternatives between the parentheses of [asciiRegexp], with the escapes of the
    string literal. *)
Definition asciiRegexp_source : list string := [
  "\\<3|&lt;3|\\<\\/3|&lt;\\/3|\\:\'\\)|\\:\'\\-\\)|\\:D|\\:\\-D|\\=D|\\:\\)|\\:\\-\\)|";
  "\\=\\]|\\=\\)|\\:\\]|\'\\:\\)|\'\\:\\-\\)|\'\\=\\)|\'\\:D|\'\\:\\-D|\'\\=D|";
  "\\>\\:\\)|&gt;\\:\\)|\\>;\\)|&gt;;\\)|\\>\\:\\-\\)|&gt;\\:\\-\\)|\\>\\=\\)|";
  "&gt;\\=\\)|;\\)|;\\-\\)|\\*\\-\\)|\\*\\)|;\\-\\]|;\\]|;D|;\\^\\)|\'\\:\\(|";
  "\'\\:\\-\\(|\'\\=\\(|\\:\\*|\\:\\-\\*|\\=\\*|\\:\\^\\*|\\>\\:P|&gt;\\:P|X\\-P|x\\-p|";
  "\\>\\:\\[|&gt;\\:\\[|\\:\\-\\(|\\:\\(|\\:\\-\\[|\\:\\[|\\=\\(|\\>\\:\\(|&gt;\\:\\(|";
  "\\>\\:\\-\\(|&gt;\\:\\-\\(|\\:@|\\:\'\\(|\\:\'\\-\\(|;\\(|;\\-\\(|\\>\\.\\<|";
  "&gt;\\.&lt;|D\\:|\\:\\$|\\=\\$|#\\-\\)|#\\)|%\\-\\)|%\\)|X\\)|X\\-\\)|";
  "\\*\\\\0\\/\\*|\\\\0\\/|\\*\\\\O\\/\\*|\\\\O\\/|O\\:\\-\\)|0\\:\\-3|0\\:3|";
  "0\\:\\-\\)|0\\:\\)|0;\\^\\)|O\\:\\-\\)|O\\:\\)|O;\\-\\)|O\\=\\)|0;\\-\\)|O\\:\\-3|";
  "O\\:3|B\\-\\)|B\\)|8\\)|8\\-\\)|B\\-D|8\\-D|\\-_\\-|\\-__\\-|\\-___\\-|\\>\\:\\\\|";
  "&gt;\\:\\\\|\\>\\:\\/|&gt;\\:\\/|\\:\\-\\/|\\:\\-\\.|\\:\\/|\\:\\\\|\\=\\/|\\=\\\\|";
  "\\:L|\\=L|\\:P|\\:\\-P|\\=P|\\:\\-p|\\:p|\\=p|\\:\\-Þ|\\:\\-&THORN;|\\:Þ|\\:&THORN;|";
  "\\:þ|\\:&thorn;|\\:\\-þ|\\:\\-&thorn;|\\:\\-b|\\:b|d\\:|\\:\\-O|\\:O|\\:\\-o|\\:o|";
  "O_O|\\>\\:O|&gt;\\:O|\\:\\-X|\\:X|\\:\\-#|\\:#|\\=X|\\=x|\\:x|\\:\\-x|\\=#"
].

(** A literal cut in pieces, decoded. *)
Definition decode_pieces (l : list string) : list Z := flat_map js_lit l.

Definition asciiRegexp : list Z := decode_pieces asciiRegexp_source.

Definition unicodeRegexp_source : list string := [
  "\\uD83D\\uDC69\\u200D\\u2764\\uFE0F\\u200D\\uD83D\\uDC8B\\u200D\\uD83D\\uDC69|";
  "\\uD83D\\uDC68\\u200D\\u2764\\uFE0F\\u200D\\uD83D\\uDC8B\\u200D\\uD83D\\uDC68|";
  "\\uD83D\\uDC68\\u200D\\uD83D\\uDC68\\u200D\\uD83D\\uDC67\\u200D\\uD83D\\uDC66|";
  "\\uD83D\\uDC68\\u200D\\uD83D\\uDC68\\u200D\\uD83D\\uDC67\\u200D\\uD83D\\uDC67|";
  "\\uD83D\\uDC68\\u200D\\uD83D\\uDC69\\u200D\\uD83D\\uDC66\\u200D\\uD83D\\uDC66|";
  "\\uD83D\\uDC68\\u200D\\uD83D\\uDC69\\u200D\\uD83D\\uDC67\\u200D\\uD83D\\uDC66|";
  "\\uD83D\\uDC68\\u200D\\uD83D\\uDC69\\u200D\\uD83D\\uDC67\\u200D\\uD83D\\uDC67|";
  "\\uD83D\\uDC69\\u200D\\uD83D\\uDC69\\u200D\\uD83D\\uDC66\\u200D\\uD83D\\uDC66|";
  "\\uD83D\\uDC69\\u200D\\uD83D\\uDC69\\u200D\\uD83D\\uDC67\\u200D\\uD83D\\uDC66|";
  "\\uD83D\\uDC69\\u200D\\uD83D\\uDC69\\u200D\\uD83D\\uDC67\\u200D\\uD83D\\uDC67|";
  "\\uD83D\\uDC68\\u200D\\uD83D\\uDC68\\u200D\\uD83D\\uDC66\\u200D\\uD83D\\uDC66|";
  "\\uD83D\\uDC68\\u200D\\u2764\\uFE0F\\u200D\\uD83D\\uDC68|";
  "\\uD83D\\uDC68\\u200D\\uD83D\\uDC68\\u200D\\uD83D\\uDC67|";
  "\\uD83D\\uDC68\\u200D\\uD83D\\uDC69\\u200D\\uD83D\\uDC67|";
  "\\uD83D\\uDC69\\u200D\\uD83D\\uDC69\\u200D\\uD83D\\uDC66|";
  "\\uD83D\\uDC69\\u200D\\uD83D\\uDC69\\u200D\\uD83D\\uDC67|";
  "\\uD83D\\uDC69\\u200D\\u2764\\uFE0F\\u200D\\uD83D\\uDC69|";
  "\\uD83D\\uDC68\\u200D\\uD83D\\uDC68\\u200D\\uD83D\\uDC66|";
  "\\uD83D\\uDC41\\u200D\\uD83D\\uDDE8|\\uD83C\\uDDE6\\uD83C\\uDDE9|";
  "\\uD83C\\uDDE6\\uD83C\\uDDEA|\\uD83C\\uDDE6\\uD83C\\uDDEB|";
  "\\uD83C\\uDDE6\\uD83C\\uDDEC|\\uD83C\\uDDE6\\uD83C\\uDDEE|";
  "\\uD83C\\uDDE6\\uD83C\\uDDF1|\\uD83C\\uDDE6\\uD83C\\uDDF2|";
  "\\uD83C\\uDDE6\\uD83C\\uDDF4|\\uD83C\\uDDE6\\uD83C\\uDDF6|";
  "\\uD83C\\uDDE6\\uD83C\\uDDF7|\\uD83C\\uDDE6\\uD83C\\uDDF8|";
  "\\uD83E\\uDD18\\uD83C\\uDFFF|\\uD83E\\uDD18\\uD83C\\uDFFE|";
  "\\uD83E\\uDD18\\uD83C\\uDFFD|\\uD83E\\uDD18\\uD83C\\uDFFC|";
  "\\uD83E\\uDD18\\uD83C\\uDFFB|\\uD83D\\uDEC0\\uD83C\\uDFFF|";
  "\\uD83D\\uDEC0\\uD83C\\uDFFE|\\uD83D\\uDEC0\\uD83C\\uDFFD|";
  "\\uD83D\\uDEC0\\uD83C\\uDFFC|\\uD83D\\uDEC0\\uD83C\\uDFFB|";
  "\\uD83D\\uDEB6\\uD83C\\uDFFF|\\uD83D\\uDEB6\\uD83C\\uDFFE|";
  "\\uD83D\\uDEB6\\uD83C\\uDFFD|\\uD83D\\uDEB6\\uD83C\\uDFFC|";
  "\\uD83D\\uDEB6\\uD83C\\uDFFB|\\uD83D\\uDEB5\\uD83C\\uDFFF|";
  "\\uD83D\\uDEB5\\uD83C\\uDFFE|\\uD83D\\uDEB5\\uD83C\\uDFFD|";
  "\\uD83D\\uDEB5\\uD83C\\uDFFC|\\uD83D\\uDEB5\\uD83C\\uDFFB|";
  "\\uD83D\\uDEB4\\uD83C\\uDFFF|\\uD83D\\uDEB4\\uD83C\\uDFFE|";
  "\\uD83D\\uDEB4\\uD83C\\uDFFD|\\uD83D\\uDEB4\\uD83C\\uDFFC|";
  "\\uD83D\\uDEB4\\uD83C\\uDFFB|\\uD83D\\uDEA3\\uD83C\\uDFFF|";
  "\\uD83D\\uDEA3\\uD83C\\uDFFE|\\uD83D\\uDEA3\\uD83C\\uDFFD|";
  "\\uD83D\\uDEA3\\uD83C\\uDFFC|\\uD83D\\uDEA3\\uD83C\\uDFFB|";
  "\\uD83D\\uDE4F\\uD83C\\uDFFF|\\uD83D\\uDE4F\\uD83C\\uDFFE|";
  "\\uD83D\\uDE4F\\uD83C\\uDFFD|\\uD83D\\uDE4F\\uD83C\\uDFFC|";
  "\\uD83D\\uDE4F\\uD83C\\uDFFB|\\uD83D\\uDE4E\\uD83C\\uDFFF|";
  "\\uD83D\\uDE4E\\uD83C\\uDFFE|\\uD83D\\uDE4E\\uD83C\\uDFFD|";
  "\\uD83D\\uDE4E\\uD83C\\uDFFC|\\uD83D\\uDE4E\\uD83C\\uDFFB|";
  "\\uD83D\\uDE4D\\uD83C\\uDFFF|\\uD83D\\uDE4D\\uD83C\\uDFFE|";
  "\\uD83D\\uDE4D\\uD83C\\uDFFD|\\uD83D\\uDE4D\\uD83C\\uDFFC|";
  "\\uD83D\\uDE4D\\uD83C\\uDFFB|\\uD83D\\uDE4C\\uD83C\\uDFFF|";
  "\\uD83D\\uDE4C\\uD83C\\uDFFE|\\uD83D\\uDE4C\\uD83C\\uDFFD|";
  "\\uD83D\\uDE4C\\uD83C\\uDFFC|\\uD83D\\uDE4C\\uD83C\\uDFFB|";
  "\\uD83D\\uDE4B\\uD83C\\uDFFF|\\uD83D\\uDE4B\\uD83C\\uDFFE|";
  "\\uD83D\\uDE4B\\uD83C\\uDFFD|\\uD83D\\uDE4B\\uD83C\\uDFFC|";
  "\\uD83D\\uDE4B\\uD83C\\uDFFB|\\uD83D\\uDE47\\uD83C\\uDFFF|";
  "\\uD83D\\uDE47\\uD83C\\uDFFE|\\uD83D\\uDE47\\uD83C\\uDFFD|";
  "\\uD83D\\uDE47\\uD83C\\uDFFC|\\uD83D\\uDE47\\uD83C\\uDFFB|";
  "\\uD83D\\uDE46\\uD83C\\uDFFF|\\uD83D\\uDE46\\uD83C\\uDFFE|";
  "\\uD83D\\uDE46\\uD83C\\uDFFD|\\uD83D\\uDE46\\uD83C\\uDFFC|";
  "\\uD83D\\uDE46\\uD83C\\uDFFB|\\uD83D\\uDE45\\uD83C\\uDFFF|";
  "\\uD83D\\uDE45\\uD83C\\uDFFE|\\uD83D\\uDE45\\uD83C\\uDFFD|";
  "\\uD83D\\uDE45\\uD83C\\uDFFC|\\uD83D\\uDE45\\uD83C\\uDFFB|";
  "\\uD83D\\uDD96\\uD83C\\uDFFF|\\uD83D\\uDD96\\uD83C\\uDFFE|";
  "\\uD83D\\uDD96\\uD83C\\uDFFD|\\uD83D\\uDD96\\uD83C\\uDFFC|";
  "\\uD83D\\uDD96\\uD83C\\uDFFB|\\uD83D\\uDD95\\uD83C\\uDFFF|";
  "\\uD83D\\uDD95\\uD83C\\uDFFE|\\uD83D\\uDD95\\uD83C\\uDFFD|";
  "\\uD83D\\uDD95\\uD83C\\uDFFC|\\uD83D\\uDD95\\uD83C\\uDFFB|";
  "\\uD83D\\uDD90\\uD83C\\uDFFF|\\uD83D\\uDD90\\uD83C\\uDFFE|";
  "\\uD83D\\uDD90\\uD83C\\uDFFD|\\uD83D\\uDD90\\uD83C\\uDFFC|";
  "\\uD83D\\uDD90\\uD83C\\uDFFB|\\uD83D\\uDD75\\uD83C\\uDFFF|";
  "\\uD83D\\uDD75\\uD83C\\uDFFE|\\uD83D\\uDD75\\uD83C\\uDFFD|";
  "\\uD83D\\uDD75\\uD83C\\uDFFC|\\uD83D\\uDD75\\uD83C\\uDFFB|";
  "\\uD83D\\uDCAA\\uD83C\\uDFFF|\\uD83D\\uDCAA\\uD83C\\uDFFE|";
  "\\uD83D\\uDCAA\\uD83C\\uDFFD|\\uD83D\\uDCAA\\uD83C\\uDFFC|";
  "\\uD83D\\uDCAA\\uD83C\\uDFFB|\\uD83D\\uDC87\\uD83C\\uDFFF|";
  "\\uD83D\\uDC87\\uD83C\\uDFFE|\\uD83D\\uDC87\\uD83C\\uDFFD|";
  "\\uD83D\\uDC87\\uD83C\\uDFFC|\\uD83D\\uDC87\\uD83C\\uDFFB|";
  "\\uD83D\\uDC86\\uD83C\\uDFFF|\\uD83D\\uDC86\\uD83C\\uDFFE|";
  "\\uD83D\\uDC86\\uD83C\\uDFFD|\\uD83D\\uDC86\\uD83C\\uDFFC|";
  "\\uD83D\\uDC86\\uD83C\\uDFFB|\\uD83D\\uDC85\\uD83C\\uDFFF|";
  "\\uD83D\\uDC85\\uD83C\\uDFFE|\\uD83D\\uDC85\\uD83C\\uDFFD|";
  "\\uD83D\\uDC85\\uD83C\\uDFFC|\\uD83D\\uDC85\\uD83C\\uDFFB|";
  "\\uD83D\\uDC83\\uD83C\\uDFFF|\\uD83D\\uDC83\\uD83C\\uDFFE|";
  "\\uD83D\\uDC83\\uD83C\\uDFFD|\\uD83D\\uDC83\\uD83C\\uDFFC|";
  "\\uD83D\\uDC83\\uD83C\\uDFFB|\\uD83D\\uDC82\\uD83C\\uDFFF|";
  "\\uD83D\\uDC82\\uD83C\\uDFFE|\\uD83D\\uDC82\\uD83C\\uDFFD|";
  "\\uD83D\\uDC82\\uD83C\\uDFFC|\\uD83D\\uDC82\\uD83C\\uDFFB|";
  "\\uD83D\\uDC81\\uD83C\\uDFFF|\\uD83D\\uDC81\\uD83C\\uDFFE|";
  "\\uD83D\\uDC81\\uD83C\\uDFFD|\\uD83D\\uDC81\\uD83C\\uDFFC|";
  "\\uD83D\\uDC81\\uD83C\\uDFFB|\\uD83D\\uDC7C\\uD83C\\uDFFF|";
  "\\uD83D\\uDC7C\\uD83C\\uDFFE|\\uD83D\\uDC7C\\uD83C\\uDFFD|";
  "\\uD83D\\uDC7C\\uD83C\\uDFFC|\\uD83D\\uDC7C\\uD83C\\uDFFB|";
  "\\uD83D\\uDC78\\uD83C\\uDFFF|\\uD83D\\uDC78\\uD83C\\uDFFE|";
  "\\uD83D\\uDC78\\uD83C\\uDFFD|\\uD83D\\uDC78\\uD83C\\uDFFC|";
  "\\uD83D\\uDC78\\uD83C\\uDFFB|\\uD83D\\uDC77\\uD83C\\uDFFF|";
  "\\uD83D\\uDC77\\uD83C\\uDFFE|\\uD83D\\uDC77\\uD83C\\uDFFD|";
  "\\uD83D\\uDC77\\uD83C\\uDFFC|\\uD83D\\uDC77\\uD83C\\uDFFB|";
  "\\uD83D\\uDC76\\uD83C\\uDFFF|\\uD83D\\uDC76\\uD83C\\uDFFE|";
  "\\uD83D\\uDC76\\uD83C\\uDFFD|\\uD83D\\uDC76\\uD83C\\uDFFC|";
  "\\uD83D\\uDC76\\uD83C\\uDFFB|\\uD83D\\uDC75\\uD83C\\uDFFF|";
  "\\uD83D\\uDC75\\uD83C\\uDFFE|\\uD83D\\uDC75\\uD83C\\uDFFD|";
  "\\uD83D\\uDC75\\uD83C\\uDFFC|\\uD83D\\uDC75\\uD83C\\uDFFB|";
  "\\uD83D\\uDC74\\uD83C\\uDFFF|\\uD83D\\uDC74\\uD83C\\uDFFE|";
  "\\uD83D\\uDC74\\uD83C\\uDFFD|\\uD83D\\uDC74\\uD83C\\uDFFC|";
  "\\uD83D\\uDC74\\uD83C\\uDFFB|\\uD83D\\uDC73\\uD83C\\uDFFF|";
  "\\uD83D\\uDC73\\uD83C\\uDFFE|\\uD83D\\uDC73\\uD83C\\uDFFD|";
  "\\uD83D\\uDC73\\uD83C\\uDFFC|\\uD83D\\uDC73\\uD83C\\uDFFB|";
  "\\uD83D\\uDC72\\uD83C\\uDFFF|\\uD83D\\uDC72\\uD83C\\uDFFE|";
  "\\uD83D\\uDC72\\uD83C\\uDFFD|\\uD83D\\uDC72\\uD83C\\uDFFC|";
  "\\uD83D\\uDC72\\uD83C\\uDFFB|\\uD83D\\uDC71\\uD83C\\uDFFF|";
  "\\uD83D\\uDC71\\uD83C\\uDFFE|\\uD83D\\uDC71\\uD83C\\uDFFD|";
  "\\uD83D\\uDC71\\uD83C\\uDFFC|\\uD83D\\uDC71\\uD83C\\uDFFB|";
  "\\uD83D\\uDC70\\uD83C\\uDFFF|\\uD83D\\uDC70\\uD83C\\uDFFE|";
  "\\uD83D\\uDC70\\uD83C\\uDFFD|\\uD83D\\uDC70\\uD83C\\uDFFC|";
  "\\uD83D\\uDC70\\uD83C\\uDFFB|\\uD83D\\uDC6E\\uD83C\\uDFFF|";
  "\\uD83D\\uDC6E\\uD83C\\uDFFE|\\uD83D\\uDC6E\\uD83C\\uDFFD|";
  "\\uD83D\\uDC6E\\uD83C\\uDFFC|\\uD83D\\uDC6E\\uD83C\\uDFFB|";
  "\\uD83D\\uDC69\\uD83C\\uDFFF|\\uD83D\\uDC69\\uD83C\\uDFFE|";
  "\\uD83D\\uDC69\\uD83C\\uDFFD|\\uD83D\\uDC69\\uD83C\\uDFFC|";
  "\\uD83D\\uDC69\\uD83C\\uDFFB|\\uD83D\\uDC68\\uD83C\\uDFFF|";
  "\\uD83D\\uDC68\\uD83C\\uDFFE|\\uD83D\\uDC68\\uD83C\\uDFFD|";
  "\\uD83D\\uDC68\\uD83C\\uDFFC|\\uD83D\\uDC68\\uD83C\\uDFFB|";
  "\\uD83D\\uDC67\\uD83C\\uDFFF|\\uD83D\\uDC67\\uD83C\\uDFFE|";
  "\\uD83D\\uDC67\\uD83C\\uDFFD|\\uD83D\\uDC67\\uD83C\\uDFFC|";
  "\\uD83D\\uDC67\\uD83C\\uDFFB|\\uD83D\\uDC66\\uD83C\\uDFFF|";
  "\\uD83D\\uDC66\\uD83C\\uDFFE|\\uD83D\\uDC66\\uD83C\\uDFFD|";
  "\\uD83D\\uDC66\\uD83C\\uDFFC|\\uD83D\\uDC66\\uD83C\\uDFFB|";
  "\\uD83D\\uDC50\\uD83C\\uDFFF|\\uD83D\\uDC50\\uD83C\\uDFFE|";
  "\\uD83D\\uDC50\\uD83C\\uDFFD|\\uD83D\\uDC50\\uD83C\\uDFFC|";
  "\\uD83D\\uDC50\\uD83C\\uDFFB|\\uD83D\\uDC4F\\uD83C\\uDFFF|";
  "\\uD83D\\uDC4F\\uD83C\\uDFFE|\\uD83D\\uDC4F\\uD83C\\uDFFD|";
  "\\uD83D\\uDC4F\\uD83C\\uDFFC|\\uD83D\\uDC4F\\uD83C\\uDFFB|";
  "\\uD83D\\uDC4E\\uD83C\\uDFFF|\\uD83D\\uDC4E\\uD83C\\uDFFE|";
  "\\uD83D\\uDC4E\\uD83C\\uDFFD|\\uD83D\\uDC4E\\uD83C\\uDFFC|";
  "\\uD83D\\uDC4E\\uD83C\\uDFFB|\\uD83D\\uDC4D\\uD83C\\uDFFF|";
  "\\uD83D\\uDC4D\\uD83C\\uDFFE|\\uD83D\\uDC4D\\uD83C\\uDFFD|";
  "\\uD83D\\uDC4D\\uD83C\\uDFFC|\\uD83D\\uDC4D\\uD83C\\uDFFB|";
  "\\uD83D\\uDC4C\\uD83C\\uDFFF|\\uD83D\\uDC4C\\uD83C\\uDFFE|";
  "\\uD83D\\uDC4C\\uD83C\\uDFFD|\\uD83D\\uDC4C\\uD83C\\uDFFC|";
  "\\uD83D\\uDC4C\\uD83C\\uDFFB|\\uD83D\\uDC4B\\uD83C\\uDFFF|";
  "\\uD83D\\uDC4B\\uD83C\\uDFFE|\\uD83D\\uDC4B\\uD83C\\uDFFD|";
  "\\uD83D\\uDC4B\\uD83C\\uDFFC|\\uD83D\\uDC4B\\uD83C\\uDFFB|";
  "\\uD83D\\uDC4A\\uD83C\\uDFFF|\\uD83D\\uDC4A\\uD83C\\uDFFE|";
  "\\uD83D\\uDC4A\\uD83C\\uDFFD|\\uD83D\\uDC4A\\uD83C\\uDFFC|";
  "\\uD83D\\uDC4A\\uD83C\\uDFFB|\\uD83D\\uDC49\\uD83C\\uDFFF|";
  "\\uD83D\\uDC49\\uD83C\\uDFFE|\\uD83D\\uDC49\\uD83C\\uDFFD|";
  "\\uD83D\\uDC49\\uD83C\\uDFFC|\\uD83D\\uDC49\\uD83C\\uDFFB|";
  "\\uD83D\\uDC48\\uD83C\\uDFFF|\\uD83D\\uDC48\\uD83C\\uDFFE|";
  "\\uD83D\\uDC48\\uD83C\\uDFFD|\\uD83D\\uDC48\\uD83C\\uDFFC|";
  "\\uD83D\\uDC48\\uD83C\\uDFFB|\\uD83D\\uDC47\\uD83C\\uDFFF|";
  "\\uD83D\\uDC47\\uD83C\\uDFFE|\\uD83D\\uDC47\\uD83C\\uDFFD|";
  "\\uD83D\\uDC47\\uD83C\\uDFFC|\\uD83D\\uDC47\\uD83C\\uDFFB|";
  "\\uD83D\\uDC46\\uD83C\\uDFFF|\\uD83D\\uDC46\\uD83C\\uDFFE|";
  "\\uD83D\\uDC46\\uD83C\\uDFFD|\\uD83D\\uDC46\\uD83C\\uDFFC|";
  "\\uD83D\\uDC46\\uD83C\\uDFFB|\\uD83D\\uDC43\\uD83C\\uDFFF|";
  "\\uD83D\\uDC43\\uD83C\\uDFFE|\\uD83D\\uDC43\\uD83C\\uDFFD|";
  "\\uD83D\\uDC43\\uD83C\\uDFFC|\\uD83D\\uDC43\\uD83C\\uDFFB|";
  "\\uD83D\\uDC42\\uD83C\\uDFFF|\\uD83D\\uDC42\\uD83C\\uDFFE|";
  "\\uD83D\\uDC42\\uD83C\\uDFFD|\\uD83D\\uDC42\\uD83C\\uDFFC|";
  "\\uD83D\\uDC42\\uD83C\\uDFFB|\\uD83C\\uDFCB\\uD83C\\uDFFF|";
  "\\uD83C\\uDFCB\\uD83C\\uDFFE|\\uD83C\\uDFCB\\uD83C\\uDFFD|";
  "\\uD83C\\uDFCB\\uD83C\\uDFFC|\\uD83C\\uDFCB\\uD83C\\uDFFB|";
  "\\uD83C\\uDFCA\\uD83C\\uDFFF|\\uD83C\\uDFCA\\uD83C\\uDFFE|";
  "\\uD83C\\uDFCA\\uD83C\\uDFFD|\\uD83C\\uDFCA\\uD83C\\uDFFC|";
  "\\uD83C\\uDFCA\\uD83C\\uDFFB|\\uD83C\\uDFC7\\uD83C\\uDFFF|";
  "\\uD83C\\uDFC7\\uD83C\\uDFFE|\\uD83C\\uDFC7\\uD83C\\uDFFD|";
  "\\uD83C\\uDFC7\\uD83C\\uDFFC|\\uD83C\\uDFC7\\uD83C\\uDFFB|";
  "\\uD83C\\uDFC4\\uD83C\\uDFFF|\\uD83C\\uDFC4\\uD83C\\uDFFE|";
  "\\uD83C\\uDFC4\\uD83C\\uDFFD|\\uD83C\\uDFC4\\uD83C\\uDFFC|";
  "\\uD83C\\uDFC4\\uD83C\\uDFFB|\\uD83C\\uDFC3\\uD83C\\uDFFF|";
  "\\uD83C\\uDFC3\\uD83C\\uDFFE|\\uD83C\\uDFC3\\uD83C\\uDFFD|";
  "\\uD83C\\uDFC3\\uD83C\\uDFFC|\\uD83C\\uDFC3\\uD83C\\uDFFB|";
  "\\uD83C\\uDF85\\uD83C\\uDFFF|\\uD83C\\uDF85\\uD83C\\uDFFE|";
  "\\uD83C\\uDF85\\uD83C\\uDFFD|\\uD83C\\uDF85\\uD83C\\uDFFC|";
  "\\uD83C\\uDF85\\uD83C\\uDFFB|\\uD83C\\uDDFF\\uD83C\\uDDFC|";
  "\\uD83C\\uDDFF\\uD83C\\uDDF2|\\uD83C\\uDDFF\\uD83C\\uDDE6|";
  "\\uD83C\\uDDFE\\uD83C\\uDDF9|\\uD83C\\uDDFE\\uD83C\\uDDEA|";
  "\\uD83C\\uDDFD\\uD83C\\uDDF0|\\uD83C\\uDDFC\\uD83C\\uDDF8|";
  "\\uD83C\\uDDFC\\uD83C\\uDDEB|\\uD83C\\uDDFB\\uD83C\\uDDFA|";
  "\\uD83C\\uDDFB\\uD83C\\uDDF3|\\uD83C\\uDDFB\\uD83C\\uDDEE|";
  "\\uD83C\\uDDFB\\uD83C\\uDDEC|\\uD83C\\uDDFB\\uD83C\\uDDEA|";
  "\\uD83C\\uDDFB\\uD83C\\uDDE8|\\uD83C\\uDDFB\\uD83C\\uDDE6|";
  "\\uD83C\\uDDFA\\uD83C\\uDDFF|\\uD83C\\uDDFA\\uD83C\\uDDFE|";
  "\\uD83C\\uDDFA\\uD83C\\uDDF8|\\uD83C\\uDDFA\\uD83C\\uDDF2|";
  "\\uD83C\\uDDFA\\uD83C\\uDDEC|\\uD83C\\uDDFA\\uD83C\\uDDE6|";
  "\\uD83C\\uDDF9\\uD83C\\uDDFF|\\uD83C\\uDDF9\\uD83C\\uDDFC|";
  "\\uD83C\\uDDF9\\uD83C\\uDDFB|\\uD83C\\uDDF9\\uD83C\\uDDF9|";
  "\\uD83C\\uDDF9\\uD83C\\uDDF7|\\uD83C\\uDDF9\\uD83C\\uDDF4|";
  "\\uD83C\\uDDF9\\uD83C\\uDDF3|\\uD83C\\uDDF9\\uD83C\\uDDF2|";
  "\\uD83C\\uDDF9\\uD83C\\uDDF1|\\uD83C\\uDDF9\\uD83C\\uDDF0|";
  "\\uD83C\\uDDF9\\uD83C\\uDDEF|\\uD83C\\uDDF9\\uD83C\\uDDED|";
  "\\uD83C\\uDDF9\\uD83C\\uDDEC|\\uD83C\\uDDF9\\uD83C\\uDDEB|";
  "\\uD83C\\uDDE6\\uD83C\\uDDE8|\\uD83C\\uDDF9\\uD83C\\uDDE8|";
  "\\uD83C\\uDDF9\\uD83C\\uDDE6|\\uD83C\\uDDF8\\uD83C\\uDDFF|";
  "\\uD83C\\uDDF8\\uD83C\\uDDFE|\\uD83C\\uDDF8\\uD83C\\uDDFD|";
  "\\uD83C\\uDDF8\\uD83C\\uDDFB|\\uD83C\\uDDF8\\uD83C\\uDDF9|";
  "\\uD83C\\uDDF8\\uD83C\\uDDF8|\\uD83C\\uDDF8\\uD83C\\uDDF7|";
  "\\uD83C\\uDDF8\\uD83C\\uDDF4|\\uD83C\\uDDF8\\uD83C\\uDDF3|";
  "\\uD83C\\uDDF8\\uD83C\\uDDF2|\\uD83C\\uDDF8\\uD83C\\uDDF1|";
  "\\uD83C\\uDDF8\\uD83C\\uDDF0|\\uD83C\\uDDF8\\uD83C\\uDDEF|";
  "\\uD83C\\uDDF8\\uD83C\\uDDEE|\\uD83C\\uDDF8\\uD83C\\uDDED|";
  "\\uD83C\\uDDF8\\uD83C\\uDDEC|\\uD83C\\uDDF8\\uD83C\\uDDEA|";
  "\\uD83C\\uDDF8\\uD83C\\uDDE9|\\uD83C\\uDDF8\\uD83C\\uDDE8|";
  "\\uD83C\\uDDF8\\uD83C\\uDDE7|\\uD83C\\uDDF8\\uD83C\\uDDE6|";
  "\\uD83C\\uDDF7\\uD83C\\uDDFC|\\uD83C\\uDDF7\\uD83C\\uDDFA|";
  "\\uD83C\\uDDF7\\uD83C\\uDDF8|\\uD83C\\uDDF7\\uD83C\\uDDF4|";
  "\\uD83C\\uDDF7\\uD83C\\uDDEA|\\uD83C\\uDDF6\\uD83C\\uDDE6|";
  "\\uD83C\\uDDF5\\uD83C\\uDDFE|\\uD83C\\uDDF5\\uD83C\\uDDFC|";
  "\\uD83C\\uDDF5\\uD83C\\uDDF9|\\uD83C\\uDDF5\\uD83C\\uDDF8|";
  "\\uD83C\\uDDF5\\uD83C\\uDDF7|\\uD83C\\uDDF5\\uD83C\\uDDF3|";
  "\\uD83C\\uDDF5\\uD83C\\uDDF2|\\uD83C\\uDDF5\\uD83C\\uDDF1|";
  "\\uD83C\\uDDF5\\uD83C\\uDDF0|\\uD83C\\uDDF5\\uD83C\\uDDED|";
  "\\uD83C\\uDDF5\\uD83C\\uDDEC|\\uD83C\\uDDF5\\uD83C\\uDDEB|";
  "\\uD83C\\uDDF5\\uD83C\\uDDEA|\\uD83C\\uDDF5\\uD83C\\uDDE6|";
  "\\uD83C\\uDDF4\\uD83C\\uDDF2|\\uD83C\\uDDF3\\uD83C\\uDDFF|";
  "\\uD83C\\uDDF3\\uD83C\\uDDFA|\\uD83C\\uDDF3\\uD83C\\uDDF7|";
  "\\uD83C\\uDDF3\\uD83C\\uDDF5|\\uD83C\\uDDF3\\uD83C\\uDDF4|";
  "\\uD83C\\uDDF3\\uD83C\\uDDF1|\\uD83C\\uDDF3\\uD83C\\uDDEE|";
  "\\uD83C\\uDDF3\\uD83C\\uDDEC|\\uD83C\\uDDF3\\uD83C\\uDDEB|";
  "\\uD83C\\uDDF3\\uD83C\\uDDEA|\\uD83C\\uDDF3\\uD83C\\uDDE8|";
  "\\uD83C\\uDDF3\\uD83C\\uDDE6|\\uD83C\\uDDF2\\uD83C\\uDDFF|";
  "\\uD83C\\uDDF2\\uD83C\\uDDFE|\\uD83C\\uDDF2\\uD83C\\uDDFD|";
  "\\uD83C\\uDDF2\\uD83C\\uDDFC|\\uD83C\\uDDF2\\uD83C\\uDDFB|";
  "\\uD83C\\uDDF2\\uD83C\\uDDFA|\\uD83C\\uDDF2\\uD83C\\uDDF9|";
  "\\uD83C\\uDDF2\\uD83C\\uDDF8|\\uD83C\\uDDF2\\uD83C\\uDDF7|";
  "\\uD83C\\uDDF2\\uD83C\\uDDF6|\\uD83C\\uDDF2\\uD83C\\uDDF5|";
  "\\uD83C\\uDDF2\\uD83C\\uDDF4|\\uD83C\\uDDF2\\uD83C\\uDDF3|";
  "\\uD83C\\uDDF2\\uD83C\\uDDF2|\\uD83C\\uDDF2\\uD83C\\uDDF1|";
  "\\uD83C\\uDDF2\\uD83C\\uDDF0|\\uD83C\\uDDF2\\uD83C\\uDDED|";
  "\\uD83C\\uDDF2\\uD83C\\uDDEC|\\uD83C\\uDDF2\\uD83C\\uDDEB|";
  "\\uD83C\\uDDF2\\uD83C\\uDDEA|\\uD83C\\uDDF2\\uD83C\\uDDE9|";
  "\\uD83C\\uDDF2\\uD83C\\uDDE8|\\uD83C\\uDDF2\\uD83C\\uDDE6|";
  "\\uD83C\\uDDF1\\uD83C\\uDDFE|\\uD83C\\uDDF1\\uD83C\\uDDFB|";
  "\\uD83C\\uDDF1\\uD83C\\uDDFA|\\uD83C\\uDDF1\\uD83C\\uDDF9|";
  "\\uD83C\\uDDF1\\uD83C\\uDDF8|\\uD83C\\uDDF1\\uD83C\\uDDF7|";
  "\\uD83C\\uDDF1\\uD83C\\uDDF0|\\uD83C\\uDDF1\\uD83C\\uDDEE|";
  "\\uD83C\\uDDF1\\uD83C\\uDDE8|\\uD83C\\uDDF1\\uD83C\\uDDE7|";
  "\\uD83C\\uDDF1\\uD83C\\uDDE6|\\uD83C\\uDDF0\\uD83C\\uDDFF|";
  "\\uD83C\\uDDF0\\uD83C\\uDDFE|\\uD83C\\uDDF0\\uD83C\\uDDFC|";
  "\\uD83C\\uDDF0\\uD83C\\uDDF7|\\uD83C\\uDDF0\\uD83C\\uDDF5|";
  "\\uD83C\\uDDF0\\uD83C\\uDDF3|\\uD83C\\uDDF0\\uD83C\\uDDF2|";
  "\\uD83C\\uDDF0\\uD83C\\uDDEE|\\uD83C\\uDDF0\\uD83C\\uDDED|";
  "\\uD83C\\uDDF0\\uD83C\\uDDEC|\\uD83C\\uDDF0\\uD83C\\uDDEA|";
  "\\uD83C\\uDDEF\\uD83C\\uDDF5|\\uD83C\\uDDEF\\uD83C\\uDDF4|";
  "\\uD83C\\uDDEF\\uD83C\\uDDF2|\\uD83C\\uDDEF\\uD83C\\uDDEA|";
  "\\uD83C\\uDDEE\\uD83C\\uDDF9|\\uD83C\\uDDEE\\uD83C\\uDDF8|";
  "\\uD83C\\uDDEE\\uD83C\\uDDF7|\\uD83C\\uDDEE\\uD83C\\uDDF6|";
  "\\uD83C\\uDDEE\\uD83C\\uDDF4|\\uD83C\\uDDEE\\uD83C\\uDDF3|";
  "\\uD83C\\uDDEE\\uD83C\\uDDF2|\\uD83C\\uDDEE\\uD83C\\uDDF1|";
  "\\uD83C\\uDDEE\\uD83C\\uDDEA|\\uD83C\\uDDEE\\uD83C\\uDDE9|";
  "\\uD83C\\uDDEE\\uD83C\\uDDE8|\\uD83C\\uDDED\\uD83C\\uDDFA|";
  "\\uD83C\\uDDED\\uD83C\\uDDF9|\\uD83C\\uDDED\\uD83C\\uDDF7|";
  "\\uD83C\\uDDED\\uD83C\\uDDF3|\\uD83C\\uDDED\\uD83C\\uDDF2|";
  "\\uD83C\\uDDED\\uD83C\\uDDF0|\\uD83C\\uDDEC\\uD83C\\uDDFE|";
  "\\uD83C\\uDDEC\\uD83C\\uDDFC|\\uD83C\\uDDEC\\uD83C\\uDDFA|";
  "\\uD83C\\uDDEC\\uD83C\\uDDF9|\\uD83C\\uDDEC\\uD83C\\uDDF8|";
  "\\uD83C\\uDDEC\\uD83C\\uDDF7|\\uD83C\\uDDEC\\uD83C\\uDDF6|";
  "\\uD83C\\uDDEC\\uD83C\\uDDF5|\\uD83C\\uDDEC\\uD83C\\uDDF3|";
  "\\uD83C\\uDDEC\\uD83C\\uDDF2|\\uD83C\\uDDEC\\uD83C\\uDDF1|";
  "\\uD83C\\uDDEC\\uD83C\\uDDEE|\\uD83C\\uDDEC\\uD83C\\uDDED|";
  "\\uD83C\\uDDEC\\uD83C\\uDDEC|\\uD83C\\uDDEC\\uD83C\\uDDEB|";
  "\\uD83C\\uDDEC\\uD83C\\uDDEA|\\uD83C\\uDDEC\\uD83C\\uDDE9|";
  "\\uD83C\\uDDEC\\uD83C\\uDDE7|\\uD83C\\uDDEC\\uD83C\\uDDE6|";
  "\\uD83C\\uDDEB\\uD83C\\uDDF7|\\uD83C\\uDDEB\\uD83C\\uDDF4|";
  "\\uD83C\\uDDEB\\uD83C\\uDDF2|\\uD83C\\uDDEB\\uD83C\\uDDF0|";
  "\\uD83C\\uDDEB\\uD83C\\uDDEF|\\uD83C\\uDDEB\\uD83C\\uDDEE|";
  "\\uD83C\\uDDEA\\uD83C\\uDDFA|\\uD83C\\uDDEA\\uD83C\\uDDF9|";
  "\\uD83C\\uDDEA\\uD83C\\uDDF8|\\uD83C\\uDDEA\\uD83C\\uDDF7|";
  "\\uD83C\\uDDEA\\uD83C\\uDDED|\\uD83C\\uDDEA\\uD83C\\uDDEC|";
  "\\uD83C\\uDDEA\\uD83C\\uDDEA|\\uD83C\\uDDEA\\uD83C\\uDDE8|";
  "\\uD83C\\uDDEA\\uD83C\\uDDE6|\\uD83C\\uDDE9\\uD83C\\uDDFF|";
  "\\uD83C\\uDDE9\\uD83C\\uDDF4|\\uD83C\\uDDE9\\uD83C\\uDDF2|";
  "\\uD83C\\uDDE9\\uD83C\\uDDF0|\\uD83C\\uDDE9\\uD83C\\uDDEF|";
  "\\uD83C\\uDDE9\\uD83C\\uDDEC|\\uD83C\\uDDE9\\uD83C\\uDDEA|";
  "\\uD83C\\uDDE8\\uD83C\\uDDFF|\\uD83C\\uDDE8\\uD83C\\uDDFE|";
  "\\uD83C\\uDDE8\\uD83C\\uDDFD|\\uD83C\\uDDE8\\uD83C\\uDDFC|";
  "\\uD83C\\uDDE8\\uD83C\\uDDFB|\\uD83C\\uDDE8\\uD83C\\uDDFA|";
  "\\uD83C\\uDDE8\\uD83C\\uDDF7|\\uD83C\\uDDE8\\uD83C\\uDDF5|";
  "\\uD83C\\uDDE8\\uD83C\\uDDF4|\\uD83C\\uDDE8\\uD83C\\uDDF3|";
  "\\uD83C\\uDDE8\\uD83C\\uDDF2|\\uD83C\\uDDE8\\uD83C\\uDDF1|";
  "\\uD83C\\uDDE8\\uD83C\\uDDF0|\\uD83C\\uDDE8\\uD83C\\uDDEE|";
  "\\uD83C\\uDDE8\\uD83C\\uDDED|\\uD83C\\uDDE8\\uD83C\\uDDEC|";
  "\\uD83C\\uDDE8\\uD83C\\uDDEB|\\uD83C\\uDDE8\\uD83C\\uDDE9|";
  "\\uD83C\\uDDE8\\uD83C\\uDDE8|\\uD83C\\uDDE8\\uD83C\\uDDE6|";
  "\\uD83C\\uDDE7\\uD83C\\uDDFF|\\uD83C\\uDDE7\\uD83C\\uDDFE|";
  "\\uD83C\\uDDE7\\uD83C\\uDDFC|\\uD83C\\uDDE7\\uD83C\\uDDFB|";
  "\\uD83C\\uDDE7\\uD83C\\uDDF9|\\uD83C\\uDDE7\\uD83C\\uDDF8|";
  "\\uD83C\\uDDE7\\uD83C\\uDDF7|\\uD83C\\uDDE7\\uD83C\\uDDF6|";
  "\\uD83C\\uDDE7\\uD83C\\uDDF4|\\uD83C\\uDDE7\\uD83C\\uDDF3|";
  "\\uD83C\\uDDE7\\uD83C\\uDDF2|\\uD83C\\uDDE7\\uD83C\\uDDF1|";
  "\\uD83C\\uDDE7\\uD83C\\uDDEF|\\uD83C\\uDDE7\\uD83C\\uDDEE|";
  "\\uD83C\\uDDE7\\uD83C\\uDDED|\\uD83C\\uDDE7\\uD83C\\uDDEC|";
  "\\uD83C\\uDDE7\\uD83C\\uDDEB|\\uD83C\\uDDE7\\uD83C\\uDDEA|";
  "\\uD83C\\uDDE7\\uD83C\\uDDE9|\\uD83C\\uDDE7\\uD83C\\uDDE7|";
  "\\uD83C\\uDDE7\\uD83C\\uDDE6|\\uD83C\\uDDE6\\uD83C\\uDDFF|";
  "\\uD83C\\uDDE6\\uD83C\\uDDFD|\\uD83C\\uDDE6\\uD83C\\uDDFC|";
  "\\uD83C\\uDDE6\\uD83C\\uDDFA|\\uD83C\\uDDE6\\uD83C\\uDDF9|";
  "\\uD83C\\uDDF9\\uD83C\\uDDE9|\\uD83D\\uDDE1\\uFE0F|\\u26F9\\uD83C\\uDFFF|";
  "\\u26F9\\uD83C\\uDFFE|\\u26F9\\uD83C\\uDFFD|\\u26F9\\uD83C\\uDFFC|";
  "\\u26F9\\uD83C\\uDFFB|\\u270D\\uD83C\\uDFFF|\\u270D\\uD83C\\uDFFE|";
  "\\u270D\\uD83C\\uDFFD|\\u270D\\uD83C\\uDFFC|\\u270D\\uD83C\\uDFFB|";
  "\\uD83C\\uDC04\\uFE0F|\\uD83C\\uDD7F\\uFE0F|\\uD83C\\uDE02\\uFE0F|";
  "\\uD83C\\uDE1A\\uFE0F|\\uD83C\\uDE2F\\uFE0F|\\uD83C\\uDE37\\uFE0F|";
  "\\uD83C\\uDF9E\\uFE0F|\\uD83C\\uDF9F\\uFE0F|\\uD83C\\uDFCB\\uFE0F|";
  "\\uD83C\\uDFCC\\uFE0F|\\uD83C\\uDFCD\\uFE0F|\\uD83C\\uDFCE\\uFE0F|";
  "\\uD83C\\uDF96\\uFE0F|\\uD83C\\uDF97\\uFE0F|\\uD83C\\uDF36\\uFE0F|";
  "\\uD83C\\uDF27\\uFE0F|\\uD83C\\uDF28\\uFE0F|\\uD83C\\uDF29\\uFE0F|";
  "\\uD83C\\uDF2A\\uFE0F|\\uD83C\\uDF2B\\uFE0F|\\uD83C\\uDF2C\\uFE0F|";
  "\\uD83D\\uDC3F\\uFE0F|\\uD83D\\uDD77\\uFE0F|\\uD83D\\uDD78\\uFE0F|";
  "\\uD83C\\uDF21\\uFE0F|\\uD83C\\uDF99\\uFE0F|\\uD83C\\uDF9A\\uFE0F|";
  "\\uD83C\\uDF9B\\uFE0F|\\uD83C\\uDFF3\\uFE0F|\\uD83C\\uDFF5\\uFE0F|";
  "\\uD83C\\uDFF7\\uFE0F|\\uD83D\\uDCFD\\uFE0F|\\uD83D\\uDD49\\uFE0F|";
  "\\uD83D\\uDD4A\\uFE0F|\\uD83D\\uDD6F\\uFE0F|\\uD83D\\uDD70\\uFE0F|";
  "\\uD83D\\uDD73\\uFE0F|\\uD83D\\uDD76\\uFE0F|\\uD83D\\uDD79\\uFE0F|";
  "\\uD83D\\uDD87\\uFE0F|\\uD83D\\uDD8A\\uFE0F|\\uD83D\\uDD8B\\uFE0F|";
  "\\uD83D\\uDD8C\\uFE0F|\\uD83D\\uDD8D\\uFE0F|\\uD83D\\uDDA5\\uFE0F|";
  "\\uD83D\\uDDA8\\uFE0F|\\uD83D\\uDDB2\\uFE0F|\\uD83D\\uDDBC\\uFE0F|";
  "\\uD83D\\uDDC2\\uFE0F|\\uD83D\\uDDC3\\uFE0F|\\uD83D\\uDDC4\\uFE0F|";
  "\\uD83D\\uDDD1\\uFE0F|\\uD83D\\uDDD2\\uFE0F|\\uD83D\\uDDD3\\uFE0F|";
  "\\uD83D\\uDDDC\\uFE0F|\\uD83D\\uDDDD\\uFE0F|\\uD83D\\uDDDE\\uFE0F|";
  "\\u270B\\uD83C\\uDFFF|\\uD83D\\uDDE3\\uFE0F|\\uD83D\\uDDEF\\uFE0F|";
  "\\uD83D\\uDDF3\\uFE0F|\\uD83D\\uDDFA\\uFE0F|\\uD83D\\uDEE0\\uFE0F|";
  "\\uD83D\\uDEE1\\uFE0F|\\uD83D\\uDEE2\\uFE0F|\\uD83D\\uDEF0\\uFE0F|";
  "\\uD83C\\uDF7D\\uFE0F|\\uD83D\\uDC41\\uFE0F|\\uD83D\\uDD74\\uFE0F|";
  "\\uD83D\\uDD75\\uFE0F|\\uD83D\\uDD90\\uFE0F|\\uD83C\\uDFD4\\uFE0F|";
  "\\uD83C\\uDFD5\\uFE0F|\\uD83C\\uDFD6\\uFE0F|\\uD83C\\uDFD7\\uFE0F|";
  "\\uD83C\\uDFD8\\uFE0F|\\uD83C\\uDFD9\\uFE0F|\\uD83C\\uDFDA\\uFE0F|";
  "\\uD83C\\uDFDB\\uFE0F|\\uD83C\\uDFDC\\uFE0F|\\uD83C\\uDFDD\\uFE0F|";
  "\\uD83C\\uDFDE\\uFE0F|\\uD83C\\uDFDF\\uFE0F|\\uD83D\\uDECB\\uFE0F|";
  "\\uD83D\\uDECD\\uFE0F|\\uD83D\\uDECE\\uFE0F|\\uD83D\\uDECF\\uFE0F|";
  "\\uD83D\\uDEE3\\uFE0F|\\uD83D\\uDEE4\\uFE0F|\\uD83D\\uDEE5\\uFE0F|";
  "\\uD83D\\uDEE9\\uFE0F|\\uD83D\\uDEF3\\uFE0F|\\uD83C\\uDF24\\uFE0F|";
  "\\uD83C\\uDF25\\uFE0F|\\uD83C\\uDF26\\uFE0F|\\uD83D\\uDDB1\\uFE0F|";
  "\\u261D\\uD83C\\uDFFB|\\u261D\\uD83C\\uDFFC|\\u261D\\uD83C\\uDFFD|";
  "\\u261D\\uD83C\\uDFFE|\\u261D\\uD83C\\uDFFF|\\u270C\\uD83C\\uDFFB|";
  "\\u270C\\uD83C\\uDFFC|\\u270C\\uD83C\\uDFFD|\\u270C\\uD83C\\uDFFE|";
  "\\u270C\\uD83C\\uDFFF|\\u270A\\uD83C\\uDFFB|\\u270A\\uD83C\\uDFFC|";
  "\\u270A\\uD83C\\uDFFD|\\u270A\\uD83C\\uDFFE|\\u270A\\uD83C\\uDFFF|";
  "\\u270B\\uD83C\\uDFFB|\\u270B\\uD83C\\uDFFC|\\u270B\\uD83C\\uDFFD|";
  "\\u270B\\uD83C\\uDFFE|4\\uFE0F\\u20E3|9\\uFE0F\\u20E3|0\\uFE0F\\u20E3|";
  "1\\uFE0F\\u20E3|2\\uFE0F\\u20E3|3\\uFE0F\\u20E3|#\\uFE0F\\u20E3|5\\uFE0F\\u20E3|";
  "6\\uFE0F\\u20E3|7\\uFE0F\\u20E3|8\\uFE0F\\u20E3|\\*\\uFE0F\\u20E3|\\u00A9\\uFE0F|";
  "\\u00AE\\uFE0F|\\u203C\\uFE0F|\\u2049\\uFE0F|\\u2122\\uFE0F|\\u2139\\uFE0F|";
  "\\u2194\\uFE0F|\\u2195\\uFE0F|\\u2196\\uFE0F|\\u2197\\uFE0F|\\u2198\\uFE0F|";
  "\\u2199\\uFE0F|\\u21A9\\uFE0F|\\u21AA\\uFE0F|\\u231A\\uFE0F|\\u231B\\uFE0F|";
  "\\u24C2\\uFE0F|\\u25AA\\uFE0F|\\u25AB\\uFE0F|\\u25B6\\uFE0F|\\u25C0\\uFE0F|";
  "\\u25FB\\uFE0F|\\u25FC\\uFE0F|\\u25FD\\uFE0F|\\u25FE\\uFE0F|\\u2600\\uFE0F|";
  "\\u2601\\uFE0F|\\u260E\\uFE0F|\\u2611\\uFE0F|\\u2614\\uFE0F|\\u2615\\uFE0F|";
  "\\u261D\\uFE0F|\\u263A\\uFE0F|\\u2648\\uFE0F|\\u2649\\uFE0F|\\u264A\\uFE0F|";
  "\\u264B\\uFE0F|\\u264C\\uFE0F|\\u264D\\uFE0F|\\u264E\\uFE0F|\\u264F\\uFE0F|";
  "\\u2650\\uFE0F|\\u2651\\uFE0F|\\u2652\\uFE0F|\\u2653\\uFE0F|\\u2660\\uFE0F|";
  "\\u2663\\uFE0F|\\u2665\\uFE0F|\\u2666\\uFE0F|\\u2668\\uFE0F|\\u267B\\uFE0F|";
  "\\u267F\\uFE0F|\\u2693\\uFE0F|\\u26A0\\uFE0F|\\u26A1\\uFE0F|\\u26AA\\uFE0F|";
  "\\u26AB\\uFE0F|\\u26BD\\uFE0F|\\u26BE\\uFE0F|\\u26C4\\uFE0F|\\u26C5\\uFE0F|";
  "\\u26D4\\uFE0F|\\u26EA\\uFE0F|\\u26F2\\uFE0F|\\u26F3\\uFE0F|\\u26F5\\uFE0F|";
  "\\u26FA\\uFE0F|\\u26FD\\uFE0F|\\u2702\\uFE0F|\\u2708\\uFE0F|\\u2709\\uFE0F|";
  "\\u270C\\uFE0F|\\u270F\\uFE0F|\\u2712\\uFE0F|\\u2714\\uFE0F|\\u2716\\uFE0F|";
  "\\u2733\\uFE0F|\\u2734\\uFE0F|\\u2744\\uFE0F|\\u2747\\uFE0F|\\u2757\\uFE0F|";
  "\\u2764\\uFE0F|\\u27A1\\uFE0F|\\u2934\\uFE0F|\\u2935\\uFE0F|\\u2B05\\uFE0F|";
  "\\u2B06\\uFE0F|\\u2B07\\uFE0F|\\u2B1B\\uFE0F|\\u2B1C\\uFE0F|\\u2B50\\uFE0F|";
  "\\u2B55\\uFE0F|\\u3030\\uFE0F|\\u303D\\uFE0F|\\u3297\\uFE0F|\\u3299\\uFE0F|";
  "\\u271D\\uFE0F|\\u2328\\uFE0F|\\u270D\\uFE0F|\\u23ED\\uFE0F|\\u23EE\\uFE0F|";
  "\\u23EF\\uFE0F|\\u23F1\\uFE0F|\\u23F2\\uFE0F|\\u23F8\\uFE0F|\\u23F9\\uFE0F|";
  "\\u23FA\\uFE0F|\\u2602\\uFE0F|\\u2603\\uFE0F|\\u2604\\uFE0F|\\u2618\\uFE0F|";
  "\\u2620\\uFE0F|\\u2622\\uFE0F|\\u2623\\uFE0F|\\u2626\\uFE0F|\\u262A\\uFE0F|";
  "\\u262E\\uFE0F|\\u262F\\uFE0F|\\u2638\\uFE0F|\\u2639\\uFE0F|\\u2692\\uFE0F|";
  "\\u2694\\uFE0F|\\u2696\\uFE0F|\\u2697\\uFE0F|\\u2699\\uFE0F|\\u269B\\uFE0F|";
  "\\u269C\\uFE0F|\\u26B0\\uFE0F|\\u26B1\\uFE0F|\\u26C8\\uFE0F|\\u26CF\\uFE0F|";
  "\\u26D1\\uFE0F|\\u26D3\\uFE0F|\\u26E9\\uFE0F|\\u26F0\\uFE0F|\\u26F1\\uFE0F|";
  "\\u26F4\\uFE0F|\\u26F7\\uFE0F|\\u26F8\\uFE0F|\\u26F9\\uFE0F|\\u2721\\uFE0F|";
  "\\u2763\\uFE0F|\\uD83C\\uDCCF|\\uD83C\\uDD70|\\uD83C\\uDD71|\\uD83C\\uDD7E|";
  "\\uD83C\\uDD8E|\\uD83C\\uDD91|\\uD83C\\uDD92|\\uD83C\\uDD93|\\uD83C\\uDD94|";
  "\\uD83C\\uDD95|\\uD83C\\uDD96|\\uD83C\\uDD97|\\uD83C\\uDD98|\\uD83C\\uDD99|";
  "\\uD83C\\uDD9A|\\uD83C\\uDE01|\\uD83C\\uDE32|\\uD83C\\uDE33|\\uD83C\\uDE34|";
  "\\uD83C\\uDE35|\\uD83C\\uDE36|\\uD83C\\uDE38|\\uD83C\\uDE39|\\uD83C\\uDE3A|";
  "\\uD83C\\uDE50|\\uD83C\\uDE51|\\uD83C\\uDF00|\\uD83C\\uDF01|\\uD83C\\uDF02|";
  "\\uD83C\\uDF03|\\uD83C\\uDF04|\\uD83C\\uDF05|\\uD83C\\uDF06|\\uD83C\\uDF07|";
  "\\uD83C\\uDF08|\\uD83C\\uDF09|\\uD83C\\uDF0A|\\uD83C\\uDF0B|\\uD83C\\uDF0C|";
  "\\uD83C\\uDF0F|\\uD83C\\uDF11|\\uD83C\\uDF13|\\uD83C\\uDF14|\\uD83C\\uDF15|";
  "\\uD83C\\uDF19|\\uD83C\\uDF1B|\\uD83C\\uDF1F|\\uD83C\\uDF20|\\uD83C\\uDF30|";
  "\\uD83C\\uDF31|\\uD83C\\uDF34|\\uD83C\\uDF35|\\uD83C\\uDF37|\\uD83C\\uDF38|";
  "\\uD83C\\uDF39|\\uD83C\\uDF3A|\\uD83C\\uDF3B|\\uD83C\\uDF3C|\\uD83C\\uDF3D|";
  "\\uD83C\\uDF3E|\\uD83C\\uDF3F|\\uD83C\\uDF40|\\uD83C\\uDF41|\\uD83C\\uDF42|";
  "\\uD83C\\uDF43|\\uD83C\\uDF44|\\uD83C\\uDF45|\\uD83C\\uDF46|\\uD83C\\uDF47|";
  "\\uD83C\\uDF48|\\uD83C\\uDF49|\\uD83C\\uDF4A|\\uD83C\\uDF4C|\\uD83C\\uDF4D|";
  "\\uD83C\\uDF4E|\\uD83C\\uDF4F|\\uD83C\\uDF51|\\uD83C\\uDF52|\\uD83C\\uDF53|";
  "\\uD83C\\uDF54|\\uD83C\\uDF55|\\uD83C\\uDF56|\\uD83C\\uDF57|\\uD83C\\uDF58|";
  "\\uD83C\\uDF59|\\uD83C\\uDF5A|\\uD83C\\uDF5B|\\uD83C\\uDF5C|\\uD83C\\uDF5D|";
  "\\uD83C\\uDF5E|\\uD83C\\uDF5F|\\uD83C\\uDF60|\\uD83C\\uDF61|\\uD83C\\uDF62|";
  "\\uD83C\\uDF63|\\uD83C\\uDF64|\\uD83C\\uDF65|\\uD83C\\uDF66|\\uD83C\\uDF67|";
  "\\uD83C\\uDF68|\\uD83C\\uDF69|\\uD83C\\uDF6A|\\uD83C\\uDF6B|\\uD83C\\uDF6C|";
  "\\uD83C\\uDF6D|\\uD83C\\uDF6E|\\uD83C\\uDF6F|\\uD83C\\uDF70|\\uD83C\\uDF71|";
  "\\uD83C\\uDF72|\\uD83C\\uDF73|\\uD83C\\uDF74|\\uD83C\\uDF75|\\uD83C\\uDF76|";
  "\\uD83C\\uDF77|\\uD83C\\uDF78|\\uD83C\\uDF79|\\uD83C\\uDF7A|\\uD83C\\uDF7B|";
  "\\uD83C\\uDF80|\\uD83C\\uDF81|\\uD83C\\uDF82|\\uD83C\\uDF83|\\uD83C\\uDF84|";
  "\\uD83C\\uDF85|\\uD83C\\uDF86|\\uD83C\\uDF87|\\uD83C\\uDF88|\\uD83C\\uDF89|";
  "\\uD83C\\uDF8A|\\uD83C\\uDF8B|\\uD83C\\uDF8C|\\uD83C\\uDF8D|\\uD83C\\uDF8E|";
  "\\uD83C\\uDF8F|\\uD83C\\uDF90|\\uD83C\\uDF91|\\uD83C\\uDF92|\\uD83C\\uDF93|";
  "\\uD83C\\uDFA0|\\uD83C\\uDFA1|\\uD83C\\uDFA2|\\uD83C\\uDFA3|\\uD83C\\uDFA4|";
  "\\uD83C\\uDFA5|\\uD83C\\uDFA6|\\uD83C\\uDFA7|\\uD83C\\uDFA8|\\uD83C\\uDFA9|";
  "\\uD83C\\uDFAA|\\uD83C\\uDFAB|\\uD83C\\uDFAC|\\uD83C\\uDFAD|\\uD83C\\uDFAE|";
  "\\uD83C\\uDFAF|\\uD83C\\uDFB0|\\uD83C\\uDFB1|\\uD83C\\uDFB2|\\uD83C\\uDFB3|";
  "\\uD83C\\uDFB4|\\uD83C\\uDFB5|\\uD83C\\uDFB6|\\uD83C\\uDFB7|\\uD83C\\uDFB8|";
  "\\uD83C\\uDFB9|\\uD83C\\uDFBA|\\uD83C\\uDFBB|\\uD83C\\uDFBC|\\uD83C\\uDFBD|";
  "\\uD83C\\uDFBE|\\uD83C\\uDFBF|\\uD83C\\uDFC0|\\uD83C\\uDFC1|\\uD83C\\uDFC2|";
  "\\uD83C\\uDFC3|\\uD83C\\uDFC4|\\uD83C\\uDFC6|\\uD83C\\uDFC8|\\uD83C\\uDFCA|";
  "\\uD83C\\uDFE0|\\uD83D\\uDDB1|\\uD83C\\uDFE2|\\uD83C\\uDFE3|\\uD83C\\uDFE5|";
  "\\uD83C\\uDFE6|\\uD83C\\uDFE7|\\uD83C\\uDFE8|\\uD83C\\uDFE9|\\uD83C\\uDFEA|";
  "\\uD83C\\uDFEB|\\uD83C\\uDFEC|\\uD83C\\uDFED|\\uD83C\\uDFEE|\\uD83C\\uDFEF|";
  "\\uD83C\\uDFF0|\\uD83D\\uDC0C|\\uD83D\\uDC0D|\\uD83D\\uDC0E|\\uD83D\\uDC11|";
  "\\uD83D\\uDC12|\\uD83D\\uDC14|\\uD83D\\uDC17|\\uD83D\\uDC18|\\uD83D\\uDC19|";
  "\\uD83D\\uDC1A|\\uD83D\\uDC1B|\\uD83D\\uDC1C|\\uD83D\\uDC1D|\\uD83D\\uDC1E|";
  "\\uD83D\\uDC1F|\\uD83D\\uDC20|\\uD83D\\uDC21|\\uD83D\\uDC22|\\uD83D\\uDC23|";
  "\\uD83D\\uDC24|\\uD83D\\uDC25|\\uD83D\\uDC26|\\uD83D\\uDC27|\\uD83D\\uDC28|";
  "\\uD83D\\uDC29|\\uD83D\\uDC2B|\\uD83D\\uDC2C|\\uD83D\\uDC2D|\\uD83D\\uDC2E|";
  "\\uD83D\\uDC2F|\\uD83D\\uDC30|\\uD83D\\uDC31|\\uD83D\\uDC32|\\uD83D\\uDC33|";
  "\\uD83D\\uDC34|\\uD83D\\uDC35|\\uD83D\\uDC36|\\uD83D\\uDC37|\\uD83D\\uDC38|";
  "\\uD83D\\uDC39|\\uD83D\\uDC3A|\\uD83D\\uDC3B|\\uD83D\\uDC3C|\\uD83D\\uDC3D|";
  "\\uD83D\\uDC3E|\\uD83D\\uDC40|\\uD83D\\uDC42|\\uD83D\\uDC43|\\uD83D\\uDC44|";
  "\\uD83D\\uDC45|\\uD83D\\uDC46|\\uD83D\\uDC47|\\uD83D\\uDC48|\\uD83D\\uDC49|";
  "\\uD83D\\uDC4A|\\uD83D\\uDC4B|\\uD83D\\uDC4C|\\uD83D\\uDC4D|\\uD83D\\uDC4E|";
  "\\uD83D\\uDC4F|\\uD83D\\uDC50|\\uD83D\\uDC51|\\uD83D\\uDC52|\\uD83D\\uDC53|";
  "\\uD83D\\uDC54|\\uD83D\\uDC55|\\uD83D\\uDC56|\\uD83D\\uDC57|\\uD83D\\uDC58|";
  "\\uD83D\\uDC59|\\uD83D\\uDC5A|\\uD83D\\uDC5B|\\uD83D\\uDC5C|\\uD83D\\uDC5D|";
  "\\uD83D\\uDC5E|\\uD83D\\uDC5F|\\uD83D\\uDC60|\\uD83D\\uDC61|\\uD83D\\uDC62|";
  "\\uD83D\\uDC63|\\uD83D\\uDC64|\\uD83D\\uDC66|\\uD83D\\uDC67|\\uD83D\\uDC68|";
  "\\uD83D\\uDC69|\\uD83D\\uDC6A|\\uD83D\\uDC6B|\\uD83D\\uDC6E|\\uD83D\\uDC6F|";
  "\\uD83D\\uDC70|\\uD83D\\uDC71|\\uD83D\\uDC72|\\uD83D\\uDC73|\\uD83D\\uDC74|";
  "\\uD83D\\uDC75|\\uD83D\\uDC76|\\uD83D\\uDC77|\\uD83D\\uDC78|\\uD83D\\uDC79|";
  "\\uD83D\\uDC7A|\\uD83D\\uDC7B|\\uD83D\\uDC7C|\\uD83D\\uDC7D|\\uD83D\\uDC7E|";
  "\\uD83D\\uDC7F|\\uD83D\\uDC80|\\uD83D\\uDCC7|\\uD83D\\uDC81|\\uD83D\\uDC82|";
  "\\uD83D\\uDC83|\\uD83D\\uDC84|\\uD83D\\uDC85|\\uD83D\\uDCD2|\\uD83D\\uDC86|";
  "\\uD83D\\uDCD3|\\uD83D\\uDC87|\\uD83D\\uDCD4|\\uD83D\\uDC88|\\uD83D\\uDCD5|";
  "\\uD83D\\uDC89|\\uD83D\\uDCD6|\\uD83D\\uDC8A|\\uD83D\\uDCD7|\\uD83D\\uDC8B|";
  "\\uD83D\\uDCD8|\\uD83D\\uDC8C|\\uD83D\\uDCD9|\\uD83D\\uDC8D|\\uD83D\\uDCDA|";
  "\\uD83D\\uDC8E|\\uD83D\\uDCDB|\\uD83D\\uDC8F|\\uD83D\\uDCDC|\\uD83D\\uDC90|";
  "\\uD83D\\uDCDD|\\uD83D\\uDC91|\\uD83D\\uDCDE|\\uD83D\\uDC92|\\uD83D\\uDCDF|";
  "\\uD83D\\uDCE0|\\uD83D\\uDC93|\\uD83D\\uDCE1|\\uD83D\\uDCE2|\\uD83D\\uDC94|";
  "\\uD83D\\uDCE3|\\uD83D\\uDCE4|\\uD83D\\uDC95|\\uD83D\\uDCE5|\\uD83D\\uDCE6|";
  "\\uD83D\\uDC96|\\uD83D\\uDCE7|\\uD83D\\uDCE8|\\uD83D\\uDC97|\\uD83D\\uDCE9|";
  "\\uD83D\\uDCEA|\\uD83D\\uDC98|\\uD83D\\uDCEB|\\uD83D\\uDCEE|\\uD83D\\uDC99|";
  "\\uD83D\\uDCF0|\\uD83D\\uDCF1|\\uD83D\\uDC9A|\\uD83D\\uDCF2|\\uD83D\\uDCF3|";
  "\\uD83D\\uDC9B|\\uD83D\\uDCF4|\\uD83D\\uDCF6|\\uD83D\\uDC9C|\\uD83D\\uDCF7|";
  "\\uD83D\\uDCF9|\\uD83D\\uDC9D|\\uD83D\\uDCFA|\\uD83D\\uDCFB|\\uD83D\\uDC9E|";
  "\\uD83D\\uDCFC|\\uD83D\\uDD03|\\uD83D\\uDC9F|\\uD83D\\uDD0A|\\uD83D\\uDD0B|";
  "\\uD83D\\uDCA0|\\uD83D\\uDD0C|\\uD83D\\uDD0D|\\uD83D\\uDCA1|\\uD83D\\uDD0E|";
  "\\uD83D\\uDD0F|\\uD83D\\uDCA2|\\uD83D\\uDD10|\\uD83D\\uDD11|\\uD83D\\uDCA3|";
  "\\uD83D\\uDD12|\\uD83D\\uDD13|\\uD83D\\uDCA4|\\uD83D\\uDD14|\\uD83D\\uDD16|";
  "\\uD83D\\uDCA5|\\uD83D\\uDD17|\\uD83D\\uDD18|\\uD83D\\uDCA6|\\uD83D\\uDD19|";
  "\\uD83D\\uDD1A|\\uD83D\\uDCA7|\\uD83D\\uDD1B|\\uD83D\\uDD1C|\\uD83D\\uDCA8|";
  "\\uD83D\\uDD1D|\\uD83D\\uDD1E|\\uD83D\\uDCA9|\\uD83D\\uDD1F|\\uD83D\\uDCAA|";
  "\\uD83D\\uDD20|\\uD83D\\uDD21|\\uD83D\\uDCAB|\\uD83D\\uDD22|\\uD83D\\uDD23|";
  "\\uD83D\\uDCAC|\\uD83D\\uDD24|\\uD83D\\uDD25|\\uD83D\\uDCAE|\\uD83D\\uDD26|";
  "\\uD83D\\uDD27|\\uD83D\\uDCAF|\\uD83D\\uDD28|\\uD83D\\uDD29|\\uD83D\\uDCB0|";
  "\\uD83D\\uDD2A|\\uD83D\\uDD2B|\\uD83D\\uDCB1|\\uD83D\\uDD2E|\\uD83D\\uDCB2|";
  "\\uD83D\\uDD2F|\\uD83D\\uDCB3|\\uD83D\\uDD30|\\uD83D\\uDD31|\\uD83D\\uDCB4|";
  "\\uD83D\\uDD32|\\uD83D\\uDD33|\\uD83D\\uDCB5|\\uD83D\\uDD34|\\uD83D\\uDD35|";
  "\\uD83D\\uDCB8|\\uD83D\\uDD36|\\uD83D\\uDD37|\\uD83D\\uDCB9|\\uD83D\\uDD38|";
  "\\uD83D\\uDD39|\\uD83D\\uDCBA|\\uD83D\\uDD3A|\\uD83D\\uDD3B|\\uD83D\\uDCBB|";
  "\\uD83D\\uDD3C|\\uD83D\\uDCBC|\\uD83D\\uDD3D|\\uD83D\\uDD50|\\uD83D\\uDCBD|";
  "\\uD83D\\uDD51|\\uD83D\\uDCBE|\\uD83D\\uDD52|\\uD83D\\uDCBF|\\uD83D\\uDD53|";
  "\\uD83D\\uDCC0|\\uD83D\\uDD54|\\uD83D\\uDD55|\\uD83D\\uDCC1|\\uD83D\\uDD56|";
  "\\uD83D\\uDD57|\\uD83D\\uDCC2|\\uD83D\\uDD58|\\uD83D\\uDD59|\\uD83D\\uDCC3|";
  "\\uD83D\\uDD5A|\\uD83D\\uDD5B|\\uD83D\\uDCC4|\\uD83D\\uDDFB|\\uD83D\\uDDFC|";
  "\\uD83D\\uDCC5|\\uD83D\\uDDFD|\\uD83D\\uDDFE|\\uD83D\\uDCC6|\\uD83D\\uDDFF|";
  "\\uD83D\\uDE01|\\uD83D\\uDE02|\\uD83D\\uDE03|\\uD83D\\uDCC8|\\uD83D\\uDE04|";
  "\\uD83D\\uDE05|\\uD83D\\uDCC9|\\uD83D\\uDE06|\\uD83D\\uDE09|\\uD83D\\uDCCA|";
  "\\uD83D\\uDE0A|\\uD83D\\uDE0B|\\uD83D\\uDCCB|\\uD83D\\uDE0C|\\uD83D\\uDE0D|";
  "\\uD83D\\uDCCC|\\uD83D\\uDE0F|\\uD83D\\uDE12|\\uD83D\\uDCCD|\\uD83D\\uDE13|";
  "\\uD83D\\uDE14|\\uD83D\\uDCCE|\\uD83D\\uDE16|\\uD83D\\uDE18|\\uD83D\\uDCCF|";
  "\\uD83D\\uDE1A|\\uD83D\\uDE1C|\\uD83D\\uDCD0|\\uD83D\\uDE1D|\\uD83D\\uDE1E|";
  "\\uD83D\\uDCD1|\\uD83D\\uDE20|\\uD83D\\uDE21|\\uD83D\\uDE22|\\uD83D\\uDE23|";
  "\\uD83D\\uDE24|\\uD83D\\uDE25|\\uD83D\\uDE28|\\uD83D\\uDE29|\\uD83D\\uDE2A|";
  "\\uD83D\\uDE2B|\\uD83D\\uDE2D|\\uD83D\\uDE30|\\uD83D\\uDE31|\\uD83D\\uDE32|";
  "\\uD83D\\uDE33|\\uD83D\\uDE35|\\uD83D\\uDE37|\\uD83D\\uDE38|\\uD83D\\uDE39|";
  "\\uD83D\\uDE3A|\\uD83D\\uDE3B|\\uD83D\\uDE3C|\\uD83D\\uDE3D|\\uD83D\\uDE3E|";
  "\\uD83D\\uDE3F|\\uD83D\\uDE40|\\uD83D\\uDE45|\\uD83D\\uDE46|\\uD83D\\uDE47|";
  "\\uD83D\\uDE48|\\uD83D\\uDE49|\\uD83D\\uDE4A|\\uD83D\\uDE4B|\\uD83D\\uDE4C|";
  "\\uD83D\\uDE4D|\\uD83D\\uDE4E|\\uD83D\\uDE4F|\\uD83D\\uDE80|\\uD83D\\uDE83|";
  "\\uD83D\\uDE84|\\uD83D\\uDE85|\\uD83D\\uDE87|\\uD83D\\uDE89|\\uD83D\\uDE8C|";
  "\\uD83D\\uDE8F|\\uD83D\\uDE91|\\uD83D\\uDE92|\\uD83D\\uDE93|\\uD83D\\uDE95|";
  "\\uD83D\\uDE97|\\uD83D\\uDE99|\\uD83D\\uDE9A|\\uD83D\\uDEA2|\\uD83D\\uDEA4|";
  "\\uD83D\\uDEA5|\\uD83D\\uDEA7|\\uD83D\\uDEA8|\\uD83D\\uDEA9|\\uD83D\\uDEAA|";
  "\\uD83D\\uDEAB|\\uD83D\\uDEAC|\\uD83D\\uDEAD|\\uD83D\\uDEB2|\\uD83D\\uDEB6|";
  "\\uD83D\\uDEB9|\\uD83D\\uDEBA|\\uD83D\\uDEBB|\\uD83D\\uDEBC|\\uD83D\\uDEBD|";
  "\\uD83D\\uDEBE|\\uD83D\\uDEC0|\\uD83E\\uDD18|\\uD83D\\uDE00|\\uD83D\\uDE07|";
  "\\uD83D\\uDE08|\\uD83D\\uDE0E|\\uD83D\\uDE10|\\uD83D\\uDE11|\\uD83D\\uDE15|";
  "\\uD83D\\uDE17|\\uD83D\\uDE19|\\uD83D\\uDE1B|\\uD83D\\uDE1F|\\uD83D\\uDE26|";
  "\\uD83D\\uDE27|\\uD83D\\uDE2C|\\uD83D\\uDE2E|\\uD83D\\uDE2F|\\uD83D\\uDE34|";
  "\\uD83D\\uDE36|\\uD83D\\uDE81|\\uD83D\\uDE82|\\uD83D\\uDE86|\\uD83D\\uDE88|";
  "\\uD83D\\uDE8A|\\uD83D\\uDE8D|\\uD83D\\uDE8E|\\uD83D\\uDE90|\\uD83D\\uDE94|";
  "\\uD83D\\uDE96|\\uD83D\\uDE98|\\uD83D\\uDE9B|\\uD83D\\uDE9C|\\uD83D\\uDE9D|";
  "\\uD83D\\uDE9E|\\uD83D\\uDE9F|\\uD83D\\uDEA0|\\uD83D\\uDEA1|\\uD83D\\uDEA3|";
  "\\uD83D\\uDEA6|\\uD83D\\uDEAE|\\uD83D\\uDEAF|\\uD83D\\uDEB0|\\uD83D\\uDEB1|";
  "\\uD83D\\uDEB3|\\uD83D\\uDEB4|\\uD83D\\uDEB5|\\uD83D\\uDEB7|\\uD83D\\uDEB8|";
  "\\uD83D\\uDEBF|\\uD83D\\uDEC1|\\uD83D\\uDEC2|\\uD83D\\uDEC3|\\uD83D\\uDEC4|";
  "\\uD83D\\uDEC5|\\uD83C\\uDF0D|\\uD83C\\uDF0E|\\uD83C\\uDF10|\\uD83C\\uDF12|";
  "\\uD83C\\uDF16|\\uD83C\\uDF17|\\uD83C\\uDF18|\\uD83C\\uDF1A|\\uD83C\\uDF1C|";
  "\\uD83C\\uDF1D|\\uD83C\\uDF1E|\\uD83C\\uDF32|\\uD83C\\uDF33|\\uD83C\\uDF4B|";
  "\\uD83C\\uDF50|\\uD83C\\uDF7C|\\uD83C\\uDFC7|\\uD83C\\uDFC9|\\uD83C\\uDFE4|";
  "\\uD83D\\uDC00|\\uD83D\\uDC01|\\uD83D\\uDC02|\\uD83D\\uDC03|\\uD83D\\uDC04|";
  "\\uD83D\\uDC05|\\uD83D\\uDC06|\\uD83D\\uDC07|\\uD83D\\uDC08|\\uD83D\\uDC09|";
  "\\uD83D\\uDC0A|\\uD83D\\uDC0B|\\uD83D\\uDC0F|\\uD83D\\uDC10|\\uD83D\\uDC13|";
  "\\uD83D\\uDC15|\\uD83D\\uDC16|\\uD83D\\uDC2A|\\uD83D\\uDC65|\\uD83D\\uDC6C|";
  "\\uD83D\\uDC6D|\\uD83D\\uDCAD|\\uD83D\\uDCB6|\\uD83D\\uDCB7|\\uD83D\\uDCEC|";
  "\\uD83D\\uDCED|\\uD83D\\uDCEF|\\uD83D\\uDCF5|\\uD83D\\uDD00|\\uD83D\\uDD01|";
  "\\uD83D\\uDD02|\\uD83D\\uDD04|\\uD83D\\uDD05|\\uD83D\\uDD06|\\uD83D\\uDD07|";
  "\\uD83D\\uDD09|\\uD83D\\uDD15|\\uD83D\\uDD2C|\\uD83D\\uDD2D|\\uD83D\\uDD5C|";
  "\\uD83D\\uDD5D|\\uD83D\\uDD5E|\\uD83D\\uDD5F|\\uD83D\\uDD60|\\uD83D\\uDD61|";
  "\\uD83D\\uDD62|\\uD83D\\uDD63|\\uD83D\\uDD64|\\uD83D\\uDD65|\\uD83D\\uDD66|";
  "\\uD83D\\uDD67|\\uD83D\\uDD08|\\uD83D\\uDE8B|\\uD83C\\uDFC5|\\uD83C\\uDFF4|";
  "\\uD83D\\uDCF8|\\uD83D\\uDECC|\\uD83D\\uDD95|\\uD83D\\uDD96|\\uD83D\\uDE41|";
  "\\uD83D\\uDE42|\\uD83D\\uDEEB|\\uD83D\\uDEEC|\\uD83C\\uDFFB|\\uD83C\\uDFFC|";
  "\\uD83C\\uDFFD|\\uD83C\\uDFFE|\\uD83C\\uDFFF|\\uD83D\\uDE43|\\uD83E\\uDD11|";
  "\\uD83E\\uDD13|\\uD83E\\uDD17|\\uD83D\\uDE44|\\uD83E\\uDD14|\\uD83E\\uDD10|";
  "\\uD83E\\uDD12|\\uD83E\\uDD15|\\uD83E\\uDD16|\\uD83E\\uDD81|\\uD83E\\uDD84|";
  "\\uD83E\\uDD82|\\uD83E\\uDD80|\\uD83E\\uDD83|\\uD83E\\uDDC0|\\uD83C\\uDF2D|";
  "\\uD83C\\uDF2E|\\uD83C\\uDF2F|\\uD83C\\uDF7F|\\uD83C\\uDF7E|\\uD83C\\uDFF9|";
  "\\uD83C\\uDFFA|\\uD83D\\uDED0|\\uD83D\\uDD4B|\\uD83D\\uDD4C|\\uD83D\\uDD4D|";
  "\\uD83D\\uDD4E|\\uD83D\\uDCFF|\\uD83C\\uDFCF|\\uD83C\\uDFD0|\\uD83C\\uDFD1|";
  "\\uD83C\\uDFD2|\\uD83C\\uDFD3|\\uD83C\\uDFF8|\\uD83C\\uDF26|\\uD83C\\uDF25|";
  "\\uD83C\\uDF24|\\uD83D\\uDEF3|\\uD83D\\uDEE9|\\uD83D\\uDEE5|\\uD83D\\uDEE4|";
  "\\uD83D\\uDEE3|\\uD83D\\uDECF|\\uD83D\\uDECE|\\uD83D\\uDECD|\\uD83D\\uDECB|";
  "\\uD83C\\uDFDF|\\uD83C\\uDFDE|\\uD83C\\uDFDD|\\uD83C\\uDFDC|\\uD83C\\uDFDB|";
  "\\uD83C\\uDFDA|\\uD83C\\uDFD9|\\uD83C\\uDFD8|\\uD83C\\uDFD7|\\uD83C\\uDFD6|";
  "\\uD83C\\uDFD5|\\uD83C\\uDFD4|\\uD83D\\uDD90|\\uD83D\\uDD75|\\uD83D\\uDD74|";
  "\\uD83D\\uDC41|\\uD83C\\uDF7D|\\uD83D\\uDEF0|\\uD83D\\uDEE2|\\uD83D\\uDEE1|";
  "\\uD83D\\uDEE0|\\uD83D\\uDDFA|\\uD83D\\uDDF3|\\uD83D\\uDDEF|\\uD83D\\uDDE3|";
  "\\uD83D\\uDDE1|\\uD83D\\uDDDE|\\uD83D\\uDDDD|\\uD83D\\uDDDC|\\uD83D\\uDDD3|";
  "\\uD83D\\uDDD2|\\uD83D\\uDDD1|\\uD83D\\uDDC4|\\uD83D\\uDDC3|\\uD83D\\uDDC2|";
  "\\uD83D\\uDDBC|\\uD83D\\uDDB2|\\uD83D\\uDDA8|\\uD83D\\uDDA5|\\uD83D\\uDD8D|";
  "\\uD83D\\uDD8C|\\uD83D\\uDD8B|\\uD83D\\uDD8A|\\uD83D\\uDD87|\\uD83D\\uDD79|";
  "\\uD83D\\uDD76|\\uD83D\\uDD73|\\uD83D\\uDD70|\\uD83D\\uDD6F|\\uD83D\\uDD4A|";
  "\\uD83D\\uDD49|\\uD83D\\uDCFD|\\uD83C\\uDFF7|\\uD83C\\uDFF5|\\uD83C\\uDFF3|";
  "\\uD83C\\uDF9B|\\uD83C\\uDF9A|\\uD83C\\uDF99|\\uD83C\\uDF21|\\uD83D\\uDD78|";
  "\\uD83D\\uDD77|\\uD83D\\uDC3F|\\uD83C\\uDF2C|\\uD83C\\uDF2B|\\uD83C\\uDF2A|";
  "\\uD83C\\uDF29|\\uD83C\\uDF28|\\uD83C\\uDF27|\\uD83C\\uDF36|\\uD83C\\uDF97|";
  "\\uD83C\\uDF96|\\uD83C\\uDFCE|\\uD83C\\uDFCD|\\uD83C\\uDFCC|\\uD83C\\uDFCB|";
  "\\uD83C\\uDF9F|\\uD83C\\uDF9E|\\uD83C\\uDE37|\\uD83C\\uDE2F|\\uD83C\\uDE1A|";
  "\\uD83C\\uDE02|\\uD83C\\uDD7F|\\uD83C\\uDC04|\\uD83C\\uDFE1|\\u2714|\\u2733|\\u2734|";
  "\\u2744|\\u2747|\\u2757|\\u2764|\\u27A1|\\u2934|\\u2935|\\u2B05|\\u2B06|\\u2B07|";
  "\\u2B1B|\\u2B1C|\\u2B50|\\u2B55|\\u3030|\\u303D|\\u3297|\\u3299|\\u2712|\\u270F|";
  "\\u270C|\\u2709|\\u2708|\\u2702|\\u26FD|\\u26FA|\\u26F5|\\u26F3|\\u26F2|\\u26EA|";
  "\\u26D4|\\u26C5|\\u26C4|\\u26BE|\\u26BD|\\u26AB|\\u26AA|\\u26A1|\\u26A0|\\u2693|";
  "\\u267F|\\u267B|\\u2668|\\u2666|\\u2665|\\u2663|\\u2660|\\u2653|\\u2652|\\u2651|";
  "\\u271D|\\u2650|\\u264F|\\u264E|\\u264D|\\u264C|\\u264B|\\u264A|\\u2649|\\u2648|";
  "\\u263A|\\u261D|\\u2615|\\u2614|\\u2611|\\u2328|\\u260E|\\u2601|\\u2600|\\u25FE|";
  "\\u25FD|\\u25FC|\\u25FB|\\u25C0|\\u25B6|\\u25AB|\\u25AA|\\u24C2|\\u2716|\\u231A|";
  "\\u21AA|\\u21A9|\\u2199|\\u2198|\\u2197|\\u2196|\\u2195|\\u2194|\\u2139|\\u2122|";
  "\\u270D|\\u2049|\\u203C|\\u00AE|\\u00A9|\\u27BF|\\u27B0|\\u2797|\\u2796|\\u2795|";
  "\\u2755|\\u2754|\\u2753|\\u274E|\\u274C|\\u2728|\\u270B|\\u270A|\\u2705|\\u26CE|";
  "\\u23F3|\\u23F0|\\u23EC|\\u23ED|\\u23EE|\\u23EF|\\u23F1|\\u23F2|\\u23F8|\\u23F9|";
  "\\u23FA|\\u2602|\\u2603|\\u2604|\\u2618|\\u2620|\\u2622|\\u2623|\\u2626|\\u262A|";
  "\\u262E|\\u262F|\\u2638|\\u2639|\\u2692|\\u2694|\\u2696|\\u2697|\\u2699|\\u269B|";
  "\\u269C|\\u26B0|\\u26B1|\\u26C8|\\u26CF|\\u26D1|\\u26D3|\\u26E9|\\u26F0|\\u26F1|";
  "\\u26F4|\\u26F7|\\u26F8|\\u26F9|\\u2721|\\u2763|\\u23EB|\\u23EA|\\u23E9|\\u231B|";
  "\\uD83E\\uDD19\\uD83C\\uDFFE|\\uD83E\\uDD34\\uD83C\\uDFFB|";
  "\\uD83E\\uDD34\\uD83C\\uDFFE|\\uD83E\\uDD34\\uD83C\\uDFFF|";
  "\\uD83E\\uDD36\\uD83C\\uDFFB|\\uD83E\\uDD36\\uD83C\\uDFFC|";
  "\\uD83E\\uDD36\\uD83C\\uDFFD|\\uD83E\\uDD36\\uD83C\\uDFFE|";
  "\\uD83E\\uDD36\\uD83C\\uDFFF|\\uD83E\\uDD35\\uD83C\\uDFFB|";
  "\\uD83E\\uDD35\\uD83C\\uDFFC|\\uD83E\\uDD35\\uD83C\\uDFFD|";
  "\\uD83E\\uDD35\\uD83C\\uDFFE|\\uD83E\\uDD35\\uD83C\\uDFFF|";
  "\\uD83E\\uDD37\\uD83C\\uDFFB|\\uD83E\\uDD37\\uD83C\\uDFFC|";
  "\\uD83E\\uDD37\\uD83C\\uDFFD|\\uD83E\\uDD37\\uD83C\\uDFFE|";
  "\\uD83E\\uDD37\\uD83C\\uDFFF|\\uD83E\\uDD26\\uD83C\\uDFFB|";
  "\\uD83E\\uDD26\\uD83C\\uDFFC|\\uD83E\\uDD26\\uD83C\\uDFFD|";
  "\\uD83E\\uDD26\\uD83C\\uDFFE|\\uD83E\\uDD26\\uD83C\\uDFFF|";
  "\\uD83E\\uDD30\\uD83C\\uDFFB|\\uD83E\\uDD30\\uD83C\\uDFFC|";
  "\\uD83E\\uDD30\\uD83C\\uDFFD|\\uD83E\\uDD30\\uD83C\\uDFFE|";
  "\\uD83E\\uDD30\\uD83C\\uDFFF|\\uD83D\\uDD7A\\uD83C\\uDFFB|";
  "\\uD83D\\uDD7A\\uD83C\\uDFFC|\\uD83D\\uDD7A\\uD83C\\uDFFD|";
  "\\uD83D\\uDD7A\\uD83C\\uDFFE|\\uD83D\\uDD7A\\uD83C\\uDFFF|";
  "\\uD83E\\uDD33\\uD83C\\uDFFB|\\uD83E\\uDD33\\uD83C\\uDFFC|";
  "\\uD83E\\uDD33\\uD83C\\uDFFD|\\uD83E\\uDD33\\uD83C\\uDFFE|";
  "\\uD83E\\uDD33\\uD83C\\uDFFF|\\uD83E\\uDD1E\\uD83C\\uDFFB|";
  "\\uD83E\\uDD1E\\uD83C\\uDFFC|\\uD83E\\uDD1E\\uD83C\\uDFFD|";
  "\\uD83E\\uDD1E\\uD83C\\uDFFE|\\uD83E\\uDD1E\\uD83C\\uDFFF|";
  "\\uD83E\\uDD19\\uD83C\\uDFFB|\\uD83E\\uDD19\\uD83C\\uDFFC|";
  "\\uD83E\\uDD19\\uD83C\\uDFFD|\\uD83E\\uDD34\\uD83C\\uDFFD|";
  "\\uD83E\\uDD19\\uD83C\\uDFFF|\\uD83E\\uDD1B\\uD83C\\uDFFB|";
  "\\uD83E\\uDD1B\\uD83C\\uDFFC|\\uD83E\\uDD1B\\uD83C\\uDFFD|";
  "\\uD83E\\uDD1B\\uD83C\\uDFFE|\\uD83E\\uDD1B\\uD83C\\uDFFF|";
  "\\uD83E\\uDD1C\\uD83C\\uDFFB|\\uD83E\\uDD1C\\uD83C\\uDFFC|";
  "\\uD83E\\uDD1C\\uD83C\\uDFFD|\\uD83E\\uDD1C\\uD83C\\uDFFE|";
  "\\uD83E\\uDD1C\\uD83C\\uDFFF|\\uD83E\\uDD1A\\uD83C\\uDFFB|";
  "\\uD83E\\uDD1A\\uD83C\\uDFFC|\\uD83E\\uDD1A\\uD83C\\uDFFD|";
  "\\uD83E\\uDD1A\\uD83C\\uDFFE|\\uD83E\\uDD1A\\uD83C\\uDFFF|";
  "\\uD83E\\uDD1D\\uD83C\\uDFFB|\\uD83E\\uDD1D\\uD83C\\uDFFC|";
  "\\uD83E\\uDD1D\\uD83C\\uDFFD|\\uD83E\\uDD1D\\uD83C\\uDFFE|";
  "\\uD83E\\uDD1D\\uD83C\\uDFFF|\\uD83E\\uDD38\\uD83C\\uDFFB|";
  "\\uD83E\\uDD38\\uD83C\\uDFFC|\\uD83E\\uDD38\\uD83C\\uDFFD|";
  "\\uD83E\\uDD38\\uD83C\\uDFFE|\\uD83E\\uDD38\\uD83C\\uDFFF|";
  "\\uD83E\\uDD3C\\uD83C\\uDFFC|\\uD83E\\uDD3C\\uD83C\\uDFFB|";
  "\\uD83E\\uDD3C\\uD83C\\uDFFD|\\uD83E\\uDD3C\\uD83C\\uDFFE|";
  "\\uD83E\\uDD3C\\uD83C\\uDFFF|\\uD83E\\uDD3D\\uD83C\\uDFFB|";
  "\\uD83E\\uDD3D\\uD83C\\uDFFC|\\uD83E\\uDD3D\\uD83C\\uDFFD|";
  "\\uD83E\\uDD3D\\uD83C\\uDFFE|\\uD83E\\uDD3D\\uD83C\\uDFFF|";
  "\\uD83E\\uDD3E\\uD83C\\uDFFB|\\uD83E\\uDD3E\\uD83C\\uDFFC|";
  "\\uD83E\\uDD3E\\uD83C\\uDFFD|\\uD83E\\uDD3E\\uD83C\\uDFFE|";
  "\\uD83E\\uDD3E\\uD83C\\uDFFF|\\uD83E\\uDD39\\uD83C\\uDFFB|";
  "\\uD83E\\uDD39\\uD83C\\uDFFC|\\uD83E\\uDD39\\uD83C\\uDFFD|";
  "\\uD83E\\uDD39\\uD83C\\uDFFE|\\uD83E\\uDD39\\uD83C\\uDFFF|";
  "\\uD83E\\uDD34\\uD83C\\uDFFC|\\uD83E\\uDD49|\\uD83E\\uDD48|\\uD83E\\uDD47|";
  "\\uD83E\\uDD3A|\\uD83E\\uDD45|\\uD83E\\uDD3E|\\uD83C\\uDDFF|\\uD83E\\uDD3D|";
  "\\uD83E\\uDD4B|\\uD83E\\uDD4A|\\uD83E\\uDD3C|\\uD83E\\uDD39|\\uD83E\\uDD38|";
  "\\uD83D\\uDEF6|\\uD83D\\uDEF5|\\uD83D\\uDEF4|\\uD83D\\uDED2|\\uD83D\\uDED1|";
  "\\uD83C\\uDDFE|\\uD83E\\uDD44|\\uD83E\\uDD42|\\uD83E\\uDD43|\\uD83E\\uDD59|";
  "\\uD83E\\uDD58|\\uD83E\\uDD57|\\uD83E\\uDD56|\\uD83E\\uDD55|\\uD83E\\uDD54|";
  "\\uD83E\\uDD53|\\uD83E\\uDD52|\\uD83E\\uDD51|\\uD83E\\uDD50|\\uD83E\\uDD40|";
  "\\uD83E\\uDD8F|\\uD83E\\uDD8E|\\uD83E\\uDD8D|\\uD83E\\uDD8C|\\uD83E\\uDD8B|";
  "\\uD83E\\uDD8A|\\uD83E\\uDD89|\\uD83E\\uDD88|\\uD83E\\uDD87|\\uD83C\\uDDFD|";
  "\\uD83E\\uDD86|\\uD83E\\uDD85|\\uD83D\\uDDA4|\\uD83E\\uDD1E|\\uD83E\\uDD1D|";
  "\\uD83E\\uDD1B|\\uD83E\\uDD1C|\\uD83E\\uDD1A|\\uD83E\\uDD19|\\uD83D\\uDD7A|";
  "\\uD83E\\uDD33|\\uD83E\\uDD30|\\uD83E\\uDD26|\\uD83E\\uDD37|\\uD83E\\uDD36|";
  "\\uD83E\\uDD35|\\uD83E\\uDD34|\\uD83E\\uDD27|\\uD83E\\uDD25|\\uD83E\\uDD24|";
  "\\uD83E\\uDD23|\\uD83E\\uDD22|\\uD83E\\uDD21|\\uD83E\\uDD20|\\uD83E\\uDD41|";
  "\\uD83E\\uDD90|\\uD83E\\uDD91|\\uD83E\\uDD5A|\\uD83E\\uDD5B|\\uD83E\\uDD5C|";
  "\\uD83E\\uDD5D|\\uD83E\\uDD5E|\\uD83C\\uDDFC|\\uD83C\\uDDFB|\\uD83C\\uDDFA|";
  "\\uD83C\\uDDF9|\\uD83C\\uDDF8|\\uD83C\\uDDF7|\\uD83C\\uDDF6|\\uD83C\\uDDF5|";
  "\\uD83C\\uDDF4|\\uD83C\\uDDF3|\\uD83C\\uDDF2|\\uD83C\\uDDF1|\\uD83C\\uDDF0|";
  "\\uD83C\\uDDEF|\\uD83C\\uDDEE|\\uD83C\\uDDED|\\uD83C\\uDDEC|\\uD83C\\uDDEB|";
  "\\uD83C\\uDDEA|\\uD83C\\uDDE9|\\uD83C\\uDDE8|\\uD83C\\uDDE7|\\uD83C\\uDDE6|";
  "\\uD83C\\uDF26|\\uD83C\\uDF25|\\uD83C\\uDF24|\\uD83D\\uDEF3|\\uD83D\\uDEE9|";
  "\\uD83D\\uDEE5|\\uD83D\\uDEE4|\\uD83D\\uDEE3|\\uD83D\\uDECF|\\uD83D\\uDECE|";
  "\\uD83D\\uDECD|\\uD83D\\uDECB|\\uD83C\\uDFDF|\\uD83C\\uDFDE|\\uD83C\\uDFDD|";
  "\\uD83C\\uDFDC|\\uD83C\\uDFDB|\\uD83C\\uDFDA|\\uD83C\\uDFD9|\\uD83C\\uDFD8|";
  "\\uD83C\\uDFD7|\\uD83C\\uDFD6|\\uD83C\\uDFD5|\\uD83C\\uDFD4|\\uD83D\\uDD90|";
  "\\uD83D\\uDD75|\\uD83D\\uDD74|\\uD83D\\uDC41|\\uD83C\\uDF7D|\\uD83D\\uDDB1|";
  "\\uD83D\\uDEF0|\\uD83D\\uDEE2|\\uD83D\\uDEE1|\\uD83D\\uDEE0|\\uD83D\\uDDFA|";
  "\\uD83D\\uDDF3|\\uD83D\\uDDEF|\\uD83D\\uDDE8|\\uD83D\\uDDE3|\\uD83D\\uDDE1|";
  "\\uD83D\\uDDDE|\\uD83D\\uDDDD|\\uD83D\\uDDDC|\\uD83D\\uDDD3|\\uD83D\\uDDD2|";
  "\\uD83D\\uDDD1|\\uD83D\\uDDC4|\\uD83D\\uDDC3|\\uD83D\\uDDC2|\\uD83D\\uDDBC|";
  "\\uD83D\\uDDB2|\\uD83D\\uDDA8|\\uD83D\\uDDA5|\\uD83D\\uDD8D|\\uD83D\\uDD8C|";
  "\\uD83D\\uDD8B|\\uD83D\\uDD8A|\\uD83D\\uDD87|\\uD83D\\uDD79|\\uD83D\\uDD76|";
  "\\uD83D\\uDD73|\\uD83D\\uDD70|\\uD83D\\uDD6F|\\uD83D\\uDD4A|\\uD83D\\uDD49|";
  "\\uD83D\\uDCFD|\\uD83C\\uDFF7|\\uD83C\\uDFF5|\\uD83C\\uDFF3|\\uD83C\\uDF9B|";
  "\\uD83C\\uDF9A|\\uD83C\\uDF99|\\uD83C\\uDF21|\\uD83D\\uDD78|\\uD83D\\uDD77|";
  "\\uD83D\\uDC3F|\\uD83C\\uDF2C|\\uD83C\\uDF2B|\\uD83C\\uDF2A|\\uD83C\\uDF29|";
  "\\uD83C\\uDF28|\\uD83C\\uDF27|\\uD83C\\uDF36|\\uD83C\\uDF97|\\uD83C\\uDF96|";
  "\\uD83C\\uDFCE|\\uD83C\\uDFCD|\\uD83C\\uDFCC|\\uD83C\\uDFCB|\\uD83C\\uDF9F|";
  "\\uD83C\\uDF9E|\\uD83C\\uDE37|\\uD83C\\uDE2F|\\uD83C\\uDE1A|\\uD83C\\uDE02|";
  "\\uD83C\\uDD7F|\\uD83C\\uDC04|\\u25C0|\\u2B05|\\u2B07|\\u2B1B|\\u2B1C|\\u2B50|";
  "\\u2B55|\\u3030|\\u303D|\\u3297|\\u3299|\\u2935|\\u2934|\\u27A1|\\u2764|\\u2757|";
  "\\u2747|\\u2744|\\u2734|\\u2733|\\u2716|\\u2714|\\u2712|\\u270F|\\u270C|\\u2709|";
  "\\u2708|\\u2702|\\u26FD|\\u26FA|\\u26F5|\\u26F3|\\u26F2|\\u26EA|\\u26D4|\\u26C5|";
  "\\u26C4|\\u26BE|\\u26BD|\\u26AB|\\u26AA|\\u26A1|\\u26A0|\\u271D|\\u2693|\\u267F|";
  "\\u267B|\\u2668|\\u2666|\\u2665|\\u2663|\\u2660|\\u2653|\\u2652|\\u2651|\\u2650|";
  "\\u264F|\\u264E|\\u2328|\\u264D|\\u264C|\\u264B|\\u264A|\\u2649|\\u2648|\\u263A|";
  "\\u261D|\\u2615|\\u2614|\\u2611|\\u260E|\\u2601|\\u2600|\\u25FE|\\u25FD|\\u25FC|";
  "\\u25FB|\\u2B06|\\u25B6|\\u25AB|\\u24C2|\\u231B|\\u231A|\\u21AA|\\u270D|\\u21A9|";
  "\\u2199|\\u2198|\\u2197|\\u2196|\\u2195|\\u2194|\\u2139|\\u2122|\\u2049|\\u203C|";
  "\\u00AE|\\u00A9|\\u2763|\\u2721|\\u26F9|\\u26F8|\\u26F7|\\u26F4|\\u26F1|\\u26F0|";
  "\\u26E9|\\u23CF|\\u23ED|\\u23EE|\\u23EF|\\u23F1|\\u23F2|\\u23F8|\\u23F9|\\u23FA|";
  "\\u2602|\\u2603|\\u2604|\\u2618|\\u2620|\\u2622|\\u2623|\\u2626|\\u262A|\\u262E|";
  "\\u262F|\\u2638|\\u2639|\\u2692|\\u2694|\\u2696|\\u2697|\\u2699|\\u269B|\\u269C|";
  "\\u26B0|\\u26B1|\\u26C8|\\u26CF|\\u26D1|\\u26D3|\\u25AA"
].

Definition unicodeRegexp : list Z := decode_pieces unicodeRegexp_source.

(** The literal of an entry of [jsEscapeMap]. *)
Definition esc (key code : string) : list Z * list Z := (js_lit key, js code).

Definition jsEscapeMap_1 : list (list Z * list Z) := [
  esc "\uD83D\uDC69\u2764\uD83D\uDC8B\uD83D\uDC69" "1f469-2764-1f48b-1f469";
  esc "\uD83D\uDC68\u2764\uD83D\uDC8B\uD83D\uDC68" "1f468-2764-1f48b-1f468";
  esc "\uD83D\uDC68\uD83D\uDC68\uD83D\uDC66\uD83D\uDC66" "1f468-1f468-1f466-1f466";
  esc "\uD83D\uDC68\uD83D\uDC68\uD83D\uDC67\uD83D\uDC66" "1f468-1f468-1f467-1f466";
  esc "\uD83D\uDC68\uD83D\uDC68\uD83D\uDC67\uD83D\uDC67" "1f468-1f468-1f467-1f467";
  esc "\uD83D\uDC68\uD83D\uDC69\uD83D\uDC66\uD83D\uDC66" "1f468-1f469-1f466-1f466";
  esc "\uD83D\uDC68\uD83D\uDC69\uD83D\uDC67\uD83D\uDC66" "1f468-1f469-1f467-1f466";
  esc "\uD83D\uDC68\uD83D\uDC69\uD83D\uDC67\uD83D\uDC67" "1f468-1f469-1f467-1f467";
  esc "\uD83D\uDC69\uD83D\uDC69\uD83D\uDC66\uD83D\uDC66" "1f469-1f469-1f466-1f466";
  esc "\uD83D\uDC69\uD83D\uDC69\uD83D\uDC67\uD83D\uDC66" "1f469-1f469-1f467-1f466";
  esc "\uD83D\uDC69\uD83D\uDC69\uD83D\uDC67\uD83D\uDC67" "1f469-1f469-1f467-1f467";
  esc "\uD83D\uDC69\u2764\uD83D\uDC69" "1f469-2764-1f469";
  esc "\uD83D\uDC68\u2764\uD83D\uDC68" "1f468-2764-1f468";
  esc "\uD83D\uDC68\uD83D\uDC68\uD83D\uDC66" "1f468-1f468-1f466";
  esc "\uD83D\uDC68\uD83D\uDC68\uD83D\uDC67" "1f468-1f468-1f467";
  esc "\uD83D\uDC68\uD83D\uDC69\uD83D\uDC67" "1f468-1f469-1f467";
  esc "\uD83D\uDC69\uD83D\uDC69\uD83D\uDC66" "1f469-1f469-1f466";
  esc "\uD83D\uDC69\uD83D\uDC69\uD83D\uDC67" "1f469-1f469-1f467";
  esc "\uD83D\uDC41\uD83D\uDDE8" "1f441-1f5e8";
  esc "#\u20E3" "0023-20e3";
  esc "0\u20E3" "0030-20e3";
  esc "1\u20E3" "0031-20e3";
  esc "2\u20E3" "0032-20e3";
  esc "3\u20E3" "0033-20e3";
  esc "4\u20E3" "0034-20e3";
  esc "5\u20E3" "0035-20e3";
  esc "6\u20E3" "0036-20e3";
  esc "7\u20E3" "0037-20e3";
  esc "8\u20E3" "0038-20e3";
  esc "9\u20E3" "0039-20e3";
  esc "*\u20E3" "002a-20e3";
  esc "\uD83E\uDD3E\uD83C\uDFFF" "1f93e-1f3ff";
  esc "\uD83E\uDD3E\uD83C\uDFFE" "1f93e-1f3fe";
  esc "\uD83E\uDD3E\uD83C\uDFFD" "1f93e-1f3fd";
  esc "\uD83E\uDD3E\uD83C\uDFFC" "1f93e-1f3fc";
  esc "\uD83E\uDD3E\uD83C\uDFFB" "1f93e-1f3fb";
  esc "\uD83E\uDD3D\uD83C\uDFFF" "1f93d-1f3ff";
  esc "\uD83E\uDD3D\uD83C\uDFFE" "1f93d-1f3fe";
  esc "\uD83E\uDD3D\uD83C\uDFFD" "1f93d-1f3fd";
  esc "\uD83E\uDD3D\uD83C\uDFFC" "1f93d-1f3fc";
  esc "\uD83E\uDD3D\uD83C\uDFFB" "1f93d-1f3fb";
  esc "\uD83E\uDD3C\uD83C\uDFFF" "1f93c-1f3ff";
  esc "\uD83E\uDD3C\uD83C\uDFFE" "1f93c-1f3fe";
  esc "\uD83E\uDD3C\uD83C\uDFFD" "1f93c-1f3fd";
  esc "\uD83E\uDD3C\uD83C\uDFFC" "1f93c-1f3fc";
  esc "\uD83E\uDD3C\uD83C\uDFFB" "1f93c-1f3fb";
  esc "\uD83E\uDD39\uD83C\uDFFF" "1f939-1f3ff";
  esc "\uD83E\uDD39\uD83C\uDFFE" "1f939-1f3fe";
  esc "\uD83E\uDD39\uD83C\uDFFD" "1f939-1f3fd";
  esc "\uD83E\uDD39\uD83C\uDFFC" "1f939-1f3fc";
  esc "\uD83E\uDD39\uD83C\uDFFB" "1f939-1f3fb";
  esc "\uD83E\uDD38\uD83C\uDFFF" "1f938-1f3ff";
  esc "\uD83E\uDD38\uD83C\uDFFE" "1f938-1f3fe";
  esc "\uD83E\uDD38\uD83C\uDFFD" "1f938-1f3fd";
  esc "\uD83E\uDD38\uD83C\uDFFC" "1f938-1f3fc";
  esc "\uD83E\uDD38\uD83C\uDFFB" "1f938-1f3fb";
  esc "\uD83E\uDD37\uD83C\uDFFF" "1f937-1f3ff";
  esc "\uD83E\uDD37\uD83C\uDFFE" "1f937-1f3fe";
  esc "\uD83E\uDD37\uD83C\uDFFD" "1f937-1f3fd";
  esc "\uD83E\uDD37\uD83C\uDFFC" "1f937-1f3fc";
  esc "\uD83E\uDD37\uD83C\uDFFB" "1f937-1f3fb";
  esc "\uD83E\uDD36\uD83C\uDFFF" "1f936-1f3ff";
  esc "\uD83E\uDD36\uD83C\uDFFE" "1f936-1f3fe";
  esc "\uD83E\uDD36\uD83C\uDFFD" "1f936-1f3fd";
  esc "\uD83E\uDD36\uD83C\uDFFC" "1f936-1f3fc";
  esc "\uD83E\uDD36\uD83C\uDFFB" "1f936-1f3fb";
  esc "\uD83E\uDD35\uD83C\uDFFF" "1f935-1f3ff";
  esc "\uD83E\uDD35\uD83C\uDFFE" "1f935-1f3fe";
  esc "\uD83E\uDD35\uD83C\uDFFD" "1f935-1f3fd";
  esc "\uD83E\uDD35\uD83C\uDFFC" "1f935-1f3fc";
  esc "\uD83E\uDD35\uD83C\uDFFB" "1f935-1f3fb";
  esc "\uD83E\uDD34\uD83C\uDFFF" "1f934-1f3ff";
  esc "\uD83E\uDD34\uD83C\uDFFE" "1f934-1f3fe";
  esc "\uD83E\uDD34\uD83C\uDFFD" "1f934-1f3fd";
  esc "\uD83E\uDD34\uD83C\uDFFC" "1f934-1f3fc";
  esc "\uD83E\uDD34\uD83C\uDFFB" "1f934-1f3fb";
  esc "\uD83E\uDD33\uD83C\uDFFF" "1f933-1f3ff";
  esc "\uD83E\uDD33\uD83C\uDFFE" "1f933-1f3fe";
  esc "\uD83E\uDD33\uD83C\uDFFD" "1f933-1f3fd";
  esc "\uD83E\uDD33\uD83C\uDFFC" "1f933-1f3fc";
  esc "\uD83E\uDD33\uD83C\uDFFB" "1f933-1f3fb";
  esc "\uD83E\uDD30\uD83C\uDFFF" "1f930-1f3ff";
  esc "\uD83E\uDD30\uD83C\uDFFE" "1f930-1f3fe";
  esc "\uD83E\uDD30\uD83C\uDFFD" "1f930-1f3fd";
  esc "\uD83E\uDD30\uD83C\uDFFC" "1f930-1f3fc";
  esc "\uD83E\uDD30\uD83C\uDFFB" "1f930-1f3fb";
  esc "\uD83E\uDD26\uD83C\uDFFF" "1f926-1f3ff";
  esc "\uD83E\uDD26\uD83C\uDFFE" "1f926-1f3fe";
  esc "\uD83E\uDD26\uD83C\uDFFD" "1f926-1f3fd";
  esc "\uD83E\uDD26\uD83C\uDFFC" "1f926-1f3fc";
  esc "\uD83E\uDD26\uD83C\uDFFB" "1f926-1f3fb";
  esc "\uD83E\uDD1E\uD83C\uDFFF" "1f91e-1f3ff";
  esc "\uD83E\uDD1E\uD83C\uDFFE" "1f91e-1f3fe";
  esc "\uD83E\uDD1E\uD83C\uDFFD" "1f91e-1f3fd";
  esc "\uD83E\uDD1E\uD83C\uDFFC" "1f91e-1f3fc";
  esc "\uD83E\uDD1E\uD83C\uDFFB" "1f91e-1f3fb";
  esc "\uD83E\uDD1D\uD83C\uDFFF" "1f91d-1f3ff";
  esc "\uD83E\uDD1D\uD83C\uDFFE" "1f91d-1f3fe";
  esc "\uD83E\uDD1D\uD83C\uDFFD" "1f91d-1f3fd";
  esc "\uD83E\uDD1D\uD83C\uDFFC" "1f91d-1f3fc";
  esc "\uD83E\uDD1D\uD83C\uDFFB" "1f91d-1f3fb";
  esc "\uD83E\uDD1C\uD83C\uDFFF" "1f91c-1f3ff";
  esc "\uD83E\uDD1C\uD83C\uDFFE" "1f91c-1f3fe";
  esc "\uD83E\uDD1C\uD83C\uDFFD" "1f91c-1f3fd";
  esc "\uD83E\uDD1C\uD83C\uDFFC" "1f91c-1f3fc";
  esc "\uD83E\uDD1C\uD83C\uDFFB" "1f91c-1f3fb";
  esc "\uD83E\uDD1B\uD83C\uDFFF" "1f91b-1f3ff";
  esc "\uD83E\uDD1B\uD83C\uDFFE" "1f91b-1f3fe";
  esc "\uD83E\uDD1B\uD83C\uDFFD" "1f91b-1f3fd";
  esc "\uD83E\uDD1B\uD83C\uDFFC" "1f91b-1f3fc";
  esc "\uD83E\uDD1B\uD83C\uDFFB" "1f91b-1f3fb";
  esc "\uD83E\uDD1A\uD83C\uDFFF" "1f91a-1f3ff";
  esc "\uD83E\uDD1A\uD83C\uDFFE" "1f91a-1f3fe";
  esc "\uD83E\uDD1A\uD83C\uDFFD" "1f91a-1f3fd";
  esc "\uD83E\uDD1A\uD83C\uDFFC" "1f91a-1f3fc";
  esc "\uD83E\uDD1A\uD83C\uDFFB" "1f91a-1f3fb";
  esc "\uD83E\uDD19\uD83C\uDFFF" "1f919-1f3ff";
  esc "\uD83E\uDD19\uD83C\uDFFE" "1f919-1f3fe";
  esc "\uD83E\uDD19\uD83C\uDFFD" "1f919-1f3fd";
  esc "\uD83E\uDD19\uD83C\uDFFC" "1f919-1f3fc";
  esc "\uD83E\uDD19\uD83C\uDFFB" "1f919-1f3fb";
  esc "\uD83E\uDD18\uD83C\uDFFF" "1f918-1f3ff";
  esc "\uD83E\uDD18\uD83C\uDFFE" "1f918-1f3fe";
  esc "\uD83E\uDD18\uD83C\uDFFD" "1f918-1f3fd";
  esc "\uD83E\uDD18\uD83C\uDFFC" "1f918-1f3fc";
  esc "\uD83E\uDD18\uD83C\uDFFB" "1f918-1f3fb";
  esc "\uD83D\uDEC0\uD83C\uDFFF" "1f6c0-1f3ff";
  esc "\uD83D\uDEC0\uD83C\uDFFE" "1f6c0-1f3fe";
  esc "\uD83D\uDEC0\uD83C\uDFFD" "1f6c0-1f3fd";
  esc "\uD83D\uDEC0\uD83C\uDFFC" "1f6c0-1f3fc";
  esc "\uD83D\uDEC0\uD83C\uDFFB" "1f6c0-1f3fb";
  esc "\uD83D\uDEB6\uD83C\uDFFF" "1f6b6-1f3ff";
  esc "\uD83D\uDEB6\uD83C\uDFFE" "1f6b6-1f3fe";
  esc "\uD83D\uDEB6\uD83C\uDFFD" "1f6b6-1f3fd";
  esc "\uD83D\uDEB6\uD83C\uDFFC" "1f6b6-1f3fc";
  esc "\uD83D\uDEB6\uD83C\uDFFB" "1f6b6-1f3fb";
  esc "\uD83D\uDEB5\uD83C\uDFFF" "1f6b5-1f3ff";
  esc "\uD83D\uDEB5\uD83C\uDFFE" "1f6b5-1f3fe";
  esc "\uD83D\uDEB5\uD83C\uDFFD" "1f6b5-1f3fd";
  esc "\uD83D\uDEB5\uD83C\uDFFC" "1f6b5-1f3fc";
  esc "\uD83D\uDEB5\uD83C\uDFFB" "1f6b5-1f3fb";
  esc "\uD83D\uDEB4\uD83C\uDFFF" "1f6b4-1f3ff";
  esc "\uD83D\uDEB4\uD83C\uDFFE" "1f6b4-1f3fe";
  esc "\uD83D\uDEB4\uD83C\uDFFD" "1f6b4-1f3fd";
  esc "\uD83D\uDEB4\uD83C\uDFFC" "1f6b4-1f3fc";
  esc "\uD83D\uDEB4\uD83C\uDFFB" "1f6b4-1f3fb";
  esc "\uD83D\uDEA3\uD83C\uDFFF" "1f6a3-1f3ff";
  esc "\uD83D\uDEA3\uD83C\uDFFE" "1f6a3-1f3fe";
  esc "\uD83D\uDEA3\uD83C\uDFFD" "1f6a3-1f3fd";
  esc "\uD83D\uDEA3\uD83C\uDFFC" "1f6a3-1f3fc"
].

Definition jsEscapeMap_2 : list (list Z * list Z) := [
  esc "\uD83D\uDEA3\uD83C\uDFFB" "1f6a3-1f3fb";
  esc "\uD83D\uDE4F\uD83C\uDFFF" "1f64f-1f3ff";
  esc "\uD83D\uDE4F\uD83C\uDFFE" "1f64f-1f3fe";
  esc "\uD83D\uDE4F\uD83C\uDFFD" "1f64f-1f3fd";
  esc "\uD83D\uDE4F\uD83C\uDFFC" "1f64f-1f3fc";
  esc "\uD83D\uDE4F\uD83C\uDFFB" "1f64f-1f3fb";
  esc "\uD83D\uDE4E\uD83C\uDFFF" "1f64e-1f3ff";
  esc "\uD83D\uDE4E\uD83C\uDFFE" "1f64e-1f3fe";
  esc "\uD83D\uDE4E\uD83C\uDFFD" "1f64e-1f3fd";
  esc "\uD83D\uDE4E\uD83C\uDFFC" "1f64e-1f3fc";
  esc "\uD83D\uDE4E\uD83C\uDFFB" "1f64e-1f3fb";
  esc "\uD83D\uDE4D\uD83C\uDFFF" "1f64d-1f3ff";
  esc "\uD83D\uDE4D\uD83C\uDFFE" "1f64d-1f3fe";
  esc "\uD83D\uDE4D\uD83C\uDFFD" "1f64d-1f3fd";
  esc "\uD83D\uDE4D\uD83C\uDFFC" "1f64d-1f3fc";
  esc "\uD83D\uDE4D\uD83C\uDFFB" "1f64d-1f3fb";
  esc "\uD83D\uDE4C\uD83C\uDFFF" "1f64c-1f3ff";
  esc "\uD83D\uDE4C\uD83C\uDFFE" "1f64c-1f3fe";
  esc "\uD83D\uDE4C\uD83C\uDFFD" "1f64c-1f3fd";
  esc "\uD83D\uDE4C\uD83C\uDFFC" "1f64c-1f3fc";
  esc "\uD83D\uDE4C\uD83C\uDFFB" "1f64c-1f3fb";
  esc "\uD83D\uDE4B\uD83C\uDFFF" "1f64b-1f3ff";
  esc "\uD83D\uDE4B\uD83C\uDFFE" "1f64b-1f3fe";
  esc "\uD83D\uDE4B\uD83C\uDFFD" "1f64b-1f3fd";
  esc "\uD83D\uDE4B\uD83C\uDFFC" "1f64b-1f3fc";
  esc "\uD83D\uDE4B\uD83C\uDFFB" "1f64b-1f3fb";
  esc "\uD83D\uDE47\uD83C\uDFFF" "1f647-1f3ff";
  esc "\uD83D\uDE47\uD83C\uDFFE" "1f647-1f3fe";
  esc "\uD83D\uDE47\uD83C\uDFFD" "1f647-1f3fd";
  esc "\uD83D\uDE47\uD83C\uDFFC" "1f647-1f3fc";
  esc "\uD83D\uDE47\uD83C\uDFFB" "1f647-1f3fb";
  esc "\uD83D\uDE46\uD83C\uDFFF" "1f646-1f3ff";
  esc "\uD83D\uDE46\uD83C\uDFFE" "1f646-1f3fe";
  esc "\uD83D\uDE46\uD83C\uDFFD" "1f646-1f3fd";
  esc "\uD83D\uDE46\uD83C\uDFFC" "1f646-1f3fc";
  esc "\uD83D\uDE46\uD83C\uDFFB" "1f646-1f3fb";
  esc "\uD83D\uDE45\uD83C\uDFFF" "1f645-1f3ff";
  esc "\uD83D\uDE45\uD83C\uDFFE" "1f645-1f3fe";
  esc "\uD83D\uDE45\uD83C\uDFFD" "1f645-1f3fd";
  esc "\uD83D\uDE45\uD83C\uDFFC" "1f645-1f3fc";
  esc "\uD83D\uDE45\uD83C\uDFFB" "1f645-1f3fb";
  esc "\uD83D\uDD96\uD83C\uDFFF" "1f596-1f3ff";
  esc "\uD83D\uDD96\uD83C\uDFFE" "1f596-1f3fe";
  esc "\uD83D\uDD96\uD83C\uDFFD" "1f596-1f3fd";
  esc "\uD83D\uDD96\uD83C\uDFFC" "1f596-1f3fc";
  esc "\uD83D\uDD96\uD83C\uDFFB" "1f596-1f3fb";
  esc "\uD83D\uDD95\uD83C\uDFFF" "1f595-1f3ff";
  esc "\uD83D\uDD95\uD83C\uDFFE" "1f595-1f3fe";
  esc "\uD83D\uDD95\uD83C\uDFFD" "1f595-1f3fd";
  esc "\uD83D\uDD95\uD83C\uDFFC" "1f595-1f3fc";
  esc "\uD83D\uDD95\uD83C\uDFFB" "1f595-1f3fb";
  esc "\uD83D\uDD90\uD83C\uDFFF" "1f590-1f3ff";
  esc "\uD83D\uDD90\uD83C\uDFFE" "1f590-1f3fe";
  esc "\uD83D\uDD90\uD83C\uDFFD" "1f590-1f3fd";
  esc "\uD83D\uDD90\uD83C\uDFFC" "1f590-1f3fc";
  esc "\uD83D\uDD90\uD83C\uDFFB" "1f590-1f3fb";
  esc "\uD83D\uDD7A\uD83C\uDFFF" "1f57a-1f3ff";
  esc "\uD83D\uDD7A\uD83C\uDFFE" "1f57a-1f3fe";
  esc "\uD83D\uDD7A\uD83C\uDFFD" "1f57a-1f3fd";
  esc "\uD83D\uDD7A\uD83C\uDFFC" "1f57a-1f3fc";
  esc "\uD83D\uDD7A\uD83C\uDFFB" "1f57a-1f3fb";
  esc "\uD83D\uDD75\uD83C\uDFFF" "1f575-1f3ff";
  esc "\uD83D\uDD75\uD83C\uDFFE" "1f575-1f3fe";
  esc "\uD83D\uDD75\uD83C\uDFFD" "1f575-1f3fd";
  esc "\uD83D\uDD75\uD83C\uDFFC" "1f575-1f3fc";
  esc "\uD83D\uDD75\uD83C\uDFFB" "1f575-1f3fb";
  esc "\uD83D\uDCAA\uD83C\uDFFF" "1f4aa-1f3ff";
  esc "\uD83D\uDCAA\uD83C\uDFFE" "1f4aa-1f3fe";
  esc "\uD83D\uDCAA\uD83C\uDFFD" "1f4aa-1f3fd";
  esc "\uD83D\uDCAA\uD83C\uDFFC" "1f4aa-1f3fc";
  esc "\uD83D\uDCAA\uD83C\uDFFB" "1f4aa-1f3fb";
  esc "\uD83D\uDC87\uD83C\uDFFF" "1f487-1f3ff";
  esc "\uD83D\uDC87\uD83C\uDFFE" "1f487-1f3fe";
  esc "\uD83D\uDC87\uD83C\uDFFD" "1f487-1f3fd";
  esc "\uD83D\uDC87\uD83C\uDFFC" "1f487-1f3fc";
  esc "\uD83D\uDC87\uD83C\uDFFB" "1f487-1f3fb";
  esc "\uD83D\uDC86\uD83C\uDFFF" "1f486-1f3ff";
  esc "\uD83D\uDC86\uD83C\uDFFE" "1f486-1f3fe";
  esc "\uD83D\uDC86\uD83C\uDFFD" "1f486-1f3fd";
  esc "\uD83D\uDC86\uD83C\uDFFC" "1f486-1f3fc";
  esc "\uD83D\uDC86\uD83C\uDFFB" "1f486-1f3fb";
  esc "\uD83D\uDC85\uD83C\uDFFF" "1f485-1f3ff";
  esc "\uD83D\uDC85\uD83C\uDFFE" "1f485-1f3fe";
  esc "\uD83D\uDC85\uD83C\uDFFD" "1f485-1f3fd";
  esc "\uD83D\uDC85\uD83C\uDFFC" "1f485-1f3fc";
  esc "\uD83D\uDC85\uD83C\uDFFB" "1f485-1f3fb";
  esc "\uD83D\uDC83\uD83C\uDFFF" "1f483-1f3ff";
  esc "\uD83D\uDC83\uD83C\uDFFE" "1f483-1f3fe";
  esc "\uD83D\uDC83\uD83C\uDFFD" "1f483-1f3fd";
  esc "\uD83D\uDC83\uD83C\uDFFC" "1f483-1f3fc";
  esc "\uD83D\uDC83\uD83C\uDFFB" "1f483-1f3fb";
  esc "\uD83D\uDC82\uD83C\uDFFF" "1f482-1f3ff";
  esc "\uD83D\uDC82\uD83C\uDFFE" "1f482-1f3fe";
  esc "\uD83D\uDC82\uD83C\uDFFD" "1f482-1f3fd";
  esc "\uD83D\uDC82\uD83C\uDFFC" "1f482-1f3fc";
  esc "\uD83D\uDC82\uD83C\uDFFB" "1f482-1f3fb";
  esc "\uD83D\uDC81\uD83C\uDFFF" "1f481-1f3ff";
  esc "\uD83D\uDC81\uD83C\uDFFE" "1f481-1f3fe";
  esc "\uD83D\uDC81\uD83C\uDFFD" "1f481-1f3fd";
  esc "\uD83D\uDC81\uD83C\uDFFC" "1f481-1f3fc";
  esc "\uD83D\uDC81\uD83C\uDFFB" "1f481-1f3fb";
  esc "\uD83D\uDC7C\uD83C\uDFFF" "1f47c-1f3ff";
  esc "\uD83D\uDC7C\uD83C\uDFFE" "1f47c-1f3fe";
  esc "\uD83D\uDC7C\uD83C\uDFFD" "1f47c-1f3fd";
  esc "\uD83D\uDC7C\uD83C\uDFFC" "1f47c-1f3fc";
  esc "\uD83D\uDC7C\uD83C\uDFFB" "1f47c-1f3fb";
  esc "\uD83D\uDC78\uD83C\uDFFF" "1f478-1f3ff";
  esc "\uD83D\uDC78\uD83C\uDFFE" "1f478-1f3fe";
  esc "\uD83D\uDC78\uD83C\uDFFD" "1f478-1f3fd";
  esc "\uD83D\uDC78\uD83C\uDFFC" "1f478-1f3fc";
  esc "\uD83D\uDC78\uD83C\uDFFB" "1f478-1f3fb";
  esc "\uD83D\uDC77\uD83C\uDFFF" "1f477-1f3ff";
  esc "\uD83D\uDC77\uD83C\uDFFE" "1f477-1f3fe";
  esc "\uD83D\uDC77\uD83C\uDFFD" "1f477-1f3fd";
  esc "\uD83D\uDC77\uD83C\uDFFC" "1f477-1f3fc";
  esc "\uD83D\uDC77\uD83C\uDFFB" "1f477-1f3fb";
  esc "\uD83D\uDC76\uD83C\uDFFF" "1f476-1f3ff";
  esc "\uD83D\uDC76\uD83C\uDFFE" "1f476-1f3fe";
  esc "\uD83D\uDC76\uD83C\uDFFD" "1f476-1f3fd";
  esc "\uD83D\uDC76\uD83C\uDFFC" "1f476-1f3fc";
  esc "\uD83D\uDC76\uD83C\uDFFB" "1f476-1f3fb";
  esc "\uD83D\uDC75\uD83C\uDFFF" "1f475-1f3ff";
  esc "\uD83D\uDC75\uD83C\uDFFE" "1f475-1f3fe";
  esc "\uD83D\uDC75\uD83C\uDFFD" "1f475-1f3fd";
  esc "\uD83D\uDC75\uD83C\uDFFC" "1f475-1f3fc";
  esc "\uD83D\uDC75\uD83C\uDFFB" "1f475-1f3fb";
  esc "\uD83D\uDC74\uD83C\uDFFF" "1f474-1f3ff";
  esc "\uD83D\uDC74\uD83C\uDFFE" "1f474-1f3fe";
  esc "\uD83D\uDC74\uD83C\uDFFD" "1f474-1f3fd";
  esc "\uD83D\uDC74\uD83C\uDFFC" "1f474-1f3fc";
  esc "\uD83D\uDC74\uD83C\uDFFB" "1f474-1f3fb";
  esc "\uD83D\uDC73\uD83C\uDFFF" "1f473-1f3ff";
  esc "\uD83D\uDC73\uD83C\uDFFE" "1f473-1f3fe";
  esc "\uD83D\uDC73\uD83C\uDFFD" "1f473-1f3fd";
  esc "\uD83D\uDC73\uD83C\uDFFC" "1f473-1f3fc";
  esc "\uD83D\uDC73\uD83C\uDFFB" "1f473-1f3fb";
  esc "\uD83D\uDC72\uD83C\uDFFF" "1f472-1f3ff";
  esc "\uD83D\uDC72\uD83C\uDFFE" "1f472-1f3fe";
  esc "\uD83D\uDC72\uD83C\uDFFD" "1f472-1f3fd";
  esc "\uD83D\uDC72\uD83C\uDFFC" "1f472-1f3fc";
  esc "\uD83D\uDC72\uD83C\uDFFB" "1f472-1f3fb";
  esc "\uD83D\uDC71\uD83C\uDFFF" "1f471-1f3ff";
  esc "\uD83D\uDC71\uD83C\uDFFE" "1f471-1f3fe";
  esc "\uD83D\uDC71\uD83C\uDFFD" "1f471-1f3fd";
  esc "\uD83D\uDC71\uD83C\uDFFC" "1f471-1f3fc";
  esc "\uD83D\uDC71\uD83C\uDFFB" "1f471-1f3fb";
  esc "\uD83D\uDC70\uD83C\uDFFF" "1f470-1f3ff";
  esc "\uD83D\uDC70\uD83C\uDFFE" "1f470-1f3fe";
  esc "\uD83D\uDC70\uD83C\uDFFD" "1f470-1f3fd";
  esc "\uD83D\uDC70\uD83C\uDFFC" "1f470-1f3fc"
].

Definition jsEscapeMap_3 : list (list Z * list Z) := [
  esc "\uD83D\uDC70\uD83C\uDFFB" "1f470-1f3fb";
  esc "\uD83D\uDC6E\uD83C\uDFFF" "1f46e-1f3ff";
  esc "\uD83D\uDC6E\uD83C\uDFFE" "1f46e-1f3fe";
  esc "\uD83D\uDC6E\uD83C\uDFFD" "1f46e-1f3fd";
  esc "\uD83D\uDC6E\uD83C\uDFFC" "1f46e-1f3fc";
  esc "\uD83D\uDC6E\uD83C\uDFFB" "1f46e-1f3fb";
  esc "\uD83D\uDC69\uD83C\uDFFF" "1f469-1f3ff";
  esc "\uD83D\uDC69\uD83C\uDFFE" "1f469-1f3fe";
  esc "\uD83D\uDC69\uD83C\uDFFD" "1f469-1f3fd";
  esc "\uD83D\uDC69\uD83C\uDFFC" "1f469-1f3fc";
  esc "\uD83D\uDC69\uD83C\uDFFB" "1f469-1f3fb";
  esc "\uD83D\uDC68\uD83C\uDFFF" "1f468-1f3ff";
  esc "\uD83D\uDC68\uD83C\uDFFE" "1f468-1f3fe";
  esc "\uD83D\uDC68\uD83C\uDFFD" "1f468-1f3fd";
  esc "\uD83D\uDC68\uD83C\uDFFC" "1f468-1f3fc";
  esc "\uD83D\uDC68\uD83C\uDFFB" "1f468-1f3fb";
  esc "\uD83D\uDC67\uD83C\uDFFF" "1f467-1f3ff";
  esc "\uD83D\uDC67\uD83C\uDFFE" "1f467-1f3fe";
  esc "\uD83D\uDC67\uD83C\uDFFD" "1f467-1f3fd";
  esc "\uD83D\uDC67\uD83C\uDFFC" "1f467-1f3fc";
  esc "\uD83D\uDC67\uD83C\uDFFB" "1f467-1f3fb";
  esc "\uD83D\uDC66\uD83C\uDFFF" "1f466-1f3ff";
  esc "\uD83D\uDC66\uD83C\uDFFE" "1f466-1f3fe";
  esc "\uD83D\uDC66\uD83C\uDFFD" "1f466-1f3fd";
  esc "\uD83D\uDC66\uD83C\uDFFC" "1f466-1f3fc";
  esc "\uD83D\uDC66\uD83C\uDFFB" "1f466-1f3fb";
  esc "\uD83D\uDC50\uD83C\uDFFF" "1f450-1f3ff";
  esc "\uD83D\uDC50\uD83C\uDFFE" "1f450-1f3fe";
  esc "\uD83D\uDC50\uD83C\uDFFD" "1f450-1f3fd";
  esc "\uD83D\uDC50\uD83C\uDFFC" "1f450-1f3fc";
  esc "\uD83D\uDC50\uD83C\uDFFB" "1f450-1f3fb";
  esc "\uD83D\uDC4F\uD83C\uDFFF" "1f44f-1f3ff";
  esc "\uD83D\uDC4F\uD83C\uDFFE" "1f44f-1f3fe";
  esc "\uD83D\uDC4F\uD83C\uDFFD" "1f44f-1f3fd";
  esc "\uD83D\uDC4F\uD83C\uDFFC" "1f44f-1f3fc";
  esc "\uD83D\uDC4F\uD83C\uDFFB" "1f44f-1f3fb";
  esc "\uD83D\uDC4E\uD83C\uDFFF" "1f44e-1f3ff";
  esc "\uD83D\uDC4E\uD83C\uDFFE" "1f44e-1f3fe";
  esc "\uD83D\uDC4E\uD83C\uDFFD" "1f44e-1f3fd";
  esc "\uD83D\uDC4E\uD83C\uDFFC" "1f44e-1f3fc";
  esc "\uD83D\uDC4E\uD83C\uDFFB" "1f44e-1f3fb";
  esc "\uD83D\uDC4D\uD83C\uDFFF" "1f44d-1f3ff";
  esc "\uD83D\uDC4D\uD83C\uDFFE" "1f44d-1f3fe";
  esc "\uD83D\uDC4D\uD83C\uDFFD" "1f44d-1f3fd";
  esc "\uD83D\uDC4D\uD83C\uDFFC" "1f44d-1f3fc";
  esc "\uD83D\uDC4D\uD83C\uDFFB" "1f44d-1f3fb";
  esc "\uD83D\uDC4C\uD83C\uDFFF" "1f44c-1f3ff";
  esc "\uD83D\uDC4C\uD83C\uDFFE" "1f44c-1f3fe";
  esc "\uD83D\uDC4C\uD83C\uDFFD" "1f44c-1f3fd";
  esc "\uD83D\uDC4C\uD83C\uDFFC" "1f44c-1f3fc";
  esc "\uD83D\uDC4C\uD83C\uDFFB" "1f44c-1f3fb";
  esc "\uD83D\uDC4B\uD83C\uDFFF" "1f44b-1f3ff";
  esc "\uD83D\uDC4B\uD83C\uDFFE" "1f44b-1f3fe";
  esc "\uD83D\uDC4B\uD83C\uDFFD" "1f44b-1f3fd";
  esc "\uD83D\uDC4B\uD83C\uDFFC" "1f44b-1f3fc";
  esc "\uD83D\uDC4B\uD83C\uDFFB" "1f44b-1f3fb";
  esc "\uD83D\uDC4A\uD83C\uDFFF" "1f44a-1f3ff";
  esc "\uD83D\uDC4A\uD83C\uDFFE" "1f44a-1f3fe";
  esc "\uD83D\uDC4A\uD83C\uDFFD" "1f44a-1f3fd";
  esc "\uD83D\uDC4A\uD83C\uDFFC" "1f44a-1f3fc";
  esc "\uD83D\uDC4A\uD83C\uDFFB" "1f44a-1f3fb";
  esc "\uD83D\uDC49\uD83C\uDFFF" "1f449-1f3ff";
  esc "\uD83D\uDC49\uD83C\uDFFE" "1f449-1f3fe";
  esc "\uD83D\uDC49\uD83C\uDFFD" "1f449-1f3fd";
  esc "\uD83D\uDC49\uD83C\uDFFC" "1f449-1f3fc";
  esc "\uD83D\uDC49\uD83C\uDFFB" "1f449-1f3fb";
  esc "\uD83D\uDC48\uD83C\uDFFF" "1f448-1f3ff";
  esc "\uD83D\uDC48\uD83C\uDFFE" "1f448-1f3fe";
  esc "\uD83D\uDC48\uD83C\uDFFD" "1f448-1f3fd";
  esc "\uD83D\uDC48\uD83C\uDFFC" "1f448-1f3fc";
  esc "\uD83D\uDC48\uD83C\uDFFB" "1f448-1f3fb";
  esc "\uD83D\uDC47\uD83C\uDFFF" "1f447-1f3ff";
  esc "\uD83D\uDC47\uD83C\uDFFE" "1f447-1f3fe";
  esc "\uD83D\uDC47\uD83C\uDFFD" "1f447-1f3fd";
  esc "\uD83D\uDC47\uD83C\uDFFC" "1f447-1f3fc";
  esc "\uD83D\uDC47\uD83C\uDFFB" "1f447-1f3fb";
  esc "\uD83D\uDC46\uD83C\uDFFF" "1f446-1f3ff";
  esc "\uD83D\uDC46\uD83C\uDFFE" "1f446-1f3fe";
  esc "\uD83D\uDC46\uD83C\uDFFD" "1f446-1f3fd";
  esc "\uD83D\uDC46\uD83C\uDFFC" "1f446-1f3fc";
  esc "\uD83D\uDC46\uD83C\uDFFB" "1f446-1f3fb";
  esc "\uD83D\uDC43\uD83C\uDFFF" "1f443-1f3ff";
  esc "\uD83D\uDC43\uD83C\uDFFE" "1f443-1f3fe";
  esc "\uD83D\uDC43\uD83C\uDFFD" "1f443-1f3fd";
  esc "\uD83D\uDC43\uD83C\uDFFC" "1f443-1f3fc";
  esc "\uD83D\uDC43\uD83C\uDFFB" "1f443-1f3fb";
  esc "\uD83D\uDC42\uD83C\uDFFF" "1f442-1f3ff";
  esc "\uD83D\uDC42\uD83C\uDFFE" "1f442-1f3fe";
  esc "\uD83D\uDC42\uD83C\uDFFD" "1f442-1f3fd";
  esc "\uD83D\uDC42\uD83C\uDFFC" "1f442-1f3fc";
  esc "\uD83D\uDC42\uD83C\uDFFB" "1f442-1f3fb";
  esc "\uD83C\uDFF3\uD83C\uDF08" "1f3f3-1f308";
  esc "\uD83C\uDFCB\uD83C\uDFFF" "1f3cb-1f3ff";
  esc "\uD83C\uDFCB\uD83C\uDFFE" "1f3cb-1f3fe";
  esc "\uD83C\uDFCB\uD83C\uDFFD" "1f3cb-1f3fd";
  esc "\uD83C\uDFCB\uD83C\uDFFC" "1f3cb-1f3fc";
  esc "\uD83C\uDFCB\uD83C\uDFFB" "1f3cb-1f3fb";
  esc "\uD83C\uDFCA\uD83C\uDFFF" "1f3ca-1f3ff";
  esc "\uD83C\uDFCA\uD83C\uDFFE" "1f3ca-1f3fe";
  esc "\uD83C\uDFCA\uD83C\uDFFD" "1f3ca-1f3fd";
  esc "\uD83C\uDFCA\uD83C\uDFFC" "1f3ca-1f3fc";
  esc "\uD83C\uDFCA\uD83C\uDFFB" "1f3ca-1f3fb";
  esc "\uD83C\uDFC7\uD83C\uDFFF" "1f3c7-1f3ff";
  esc "\uD83C\uDFC7\uD83C\uDFFE" "1f3c7-1f3fe";
  esc "\uD83C\uDFC7\uD83C\uDFFD" "1f3c7-1f3fd";
  esc "\uD83C\uDFC7\uD83C\uDFFC" "1f3c7-1f3fc";
  esc "\uD83C\uDFC7\uD83C\uDFFB" "1f3c7-1f3fb";
  esc "\uD83C\uDFC4\uD83C\uDFFF" "1f3c4-1f3ff";
  esc "\uD83C\uDFC4\uD83C\uDFFE" "1f3c4-1f3fe";
  esc "\uD83C\uDFC4\uD83C\uDFFD" "1f3c4-1f3fd";
  esc "\uD83C\uDFC4\uD83C\uDFFC" "1f3c4-1f3fc";
  esc "\uD83C\uDFC4\uD83C\uDFFB" "1f3c4-1f3fb";
  esc "\uD83C\uDFC3\uD83C\uDFFF" "1f3c3-1f3ff";
  esc "\uD83C\uDFC3\uD83C\uDFFE" "1f3c3-1f3fe";
  esc "\uD83C\uDFC3\uD83C\uDFFD" "1f3c3-1f3fd";
  esc "\uD83C\uDFC3\uD83C\uDFFC" "1f3c3-1f3fc";
  esc "\uD83C\uDFC3\uD83C\uDFFB" "1f3c3-1f3fb";
  esc "\uD83C\uDF85\uD83C\uDFFF" "1f385-1f3ff";
  esc "\uD83C\uDF85\uD83C\uDFFE" "1f385-1f3fe";
  esc "\uD83C\uDF85\uD83C\uDFFD" "1f385-1f3fd";
  esc "\uD83C\uDF85\uD83C\uDFFC" "1f385-1f3fc";
  esc "\uD83C\uDF85\uD83C\uDFFB" "1f385-1f3fb";
  esc "\uD83C\uDDFF\uD83C\uDDFC" "1f1ff-1f1fc";
  esc "\uD83C\uDDFF\uD83C\uDDF2" "1f1ff-1f1f2";
  esc "\uD83C\uDDFF\uD83C\uDDE6" "1f1ff-1f1e6";
  esc "\uD83C\uDDFE\uD83C\uDDF9" "1f1fe-1f1f9";
  esc "\uD83C\uDDFE\uD83C\uDDEA" "1f1fe-1f1ea";
  esc "\uD83C\uDDFD\uD83C\uDDF0" "1f1fd-1f1f0";
  esc "\uD83C\uDDFC\uD83C\uDDF8" "1f1fc-1f1f8";
  esc "\uD83C\uDDFC\uD83C\uDDEB" "1f1fc-1f1eb";
  esc "\uD83C\uDDFB\uD83C\uDDFA" "1f1fb-1f1fa";
  esc "\uD83C\uDDFB\uD83C\uDDF3" "1f1fb-1f1f3";
  esc "\uD83C\uDDFB\uD83C\uDDEE" "1f1fb-1f1ee";
  esc "\uD83C\uDDFB\uD83C\uDDEC" "1f1fb-1f1ec";
  esc "\uD83C\uDDFB\uD83C\uDDEA" "1f1fb-1f1ea";
  esc "\uD83C\uDDFB\uD83C\uDDE8" "1f1fb-1f1e8";
  esc "\uD83C\uDDFB\uD83C\uDDE6" "1f1fb-1f1e6";
  esc "\uD83C\uDDFA\uD83C\uDDFF" "1f1fa-1f1ff";
  esc "\uD83C\uDDFA\uD83C\uDDFE" "1f1fa-1f1fe";
  esc "\uD83C\uDDFA\uD83C\uDDF8" "1f1fa-1f1f8";
  esc "\uD83C\uDDFA\uD83C\uDDF2" "1f1fa-1f1f2";
  esc "\uD83C\uDDFA\uD83C\uDDEC" "1f1fa-1f1ec";
  esc "\uD83C\uDDFA\uD83C\uDDE6" "1f1fa-1f1e6";
  esc "\uD83C\uDDF9\uD83C\uDDFF" "1f1f9-1f1ff";
  esc "\uD83C\uDDF9\uD83C\uDDFC" "1f1f9-1f1fc";
  esc "\uD83C\uDDF9\uD83C\uDDFB" "1f1f9-1f1fb";
  esc "\uD83C\uDDF9\uD83C\uDDF9" "1f1f9-1f1f9";
  esc "\uD83C\uDDF9\uD83C\uDDF7" "1f1f9-1f1f7";
  esc "\uD83C\uDDF9\uD83C\uDDF4" "1f1f9-1f1f4";
  esc "\uD83C\uDDF9\uD83C\uDDF3" "1f1f9-1f1f3"
].

Definition jsEscapeMap_4 : list (list Z * list Z) := [
  esc "\uD83C\uDDF9\uD83C\uDDF2" "1f1f9-1f1f2";
  esc "\uD83C\uDDF9\uD83C\uDDF1" "1f1f9-1f1f1";
  esc "\uD83C\uDDF9\uD83C\uDDF0" "1f1f9-1f1f0";
  esc "\uD83C\uDDF9\uD83C\uDDEF" "1f1f9-1f1ef";
  esc "\uD83C\uDDF9\uD83C\uDDED" "1f1f9-1f1ed";
  esc "\uD83C\uDDF9\uD83C\uDDEC" "1f1f9-1f1ec";
  esc "\uD83C\uDDF9\uD83C\uDDEB" "1f1f9-1f1eb";
  esc "\uD83C\uDDF9\uD83C\uDDE9" "1f1f9-1f1e9";
  esc "\uD83C\uDDF9\uD83C\uDDE8" "1f1f9-1f1e8";
  esc "\uD83C\uDDF9\uD83C\uDDE6" "1f1f9-1f1e6";
  esc "\uD83C\uDDF8\uD83C\uDDFF" "1f1f8-1f1ff";
  esc "\uD83C\uDDF8\uD83C\uDDFE" "1f1f8-1f1fe";
  esc "\uD83C\uDDF8\uD83C\uDDFD" "1f1f8-1f1fd";
  esc "\uD83C\uDDF8\uD83C\uDDFB" "1f1f8-1f1fb";
  esc "\uD83C\uDDF8\uD83C\uDDF9" "1f1f8-1f1f9";
  esc "\uD83C\uDDF8\uD83C\uDDF8" "1f1f8-1f1f8";
  esc "\uD83C\uDDF8\uD83C\uDDF7" "1f1f8-1f1f7";
  esc "\uD83C\uDDF8\uD83C\uDDF4" "1f1f8-1f1f4";
  esc "\uD83C\uDDF8\uD83C\uDDF3" "1f1f8-1f1f3";
  esc "\uD83C\uDDF8\uD83C\uDDF2" "1f1f8-1f1f2";
  esc "\uD83C\uDDF8\uD83C\uDDF1" "1f1f8-1f1f1";
  esc "\uD83C\uDDF8\uD83C\uDDF0" "1f1f8-1f1f0";
  esc "\uD83C\uDDF8\uD83C\uDDEF" "1f1f8-1f1ef";
  esc "\uD83C\uDDF8\uD83C\uDDEE" "1f1f8-1f1ee";
  esc "\uD83C\uDDF8\uD83C\uDDED" "1f1f8-1f1ed";
  esc "\uD83C\uDDF8\uD83C\uDDEC" "1f1f8-1f1ec";
  esc "\uD83C\uDDF8\uD83C\uDDEA" "1f1f8-1f1ea";
  esc "\uD83C\uDDF8\uD83C\uDDE9" "1f1f8-1f1e9";
  esc "\uD83C\uDDF8\uD83C\uDDE8" "1f1f8-1f1e8";
  esc "\uD83C\uDDF8\uD83C\uDDE7" "1f1f8-1f1e7";
  esc "\uD83C\uDDF8\uD83C\uDDE6" "1f1f8-1f1e6";
  esc "\uD83C\uDDF7\uD83C\uDDFC" "1f1f7-1f1fc";
  esc "\uD83C\uDDF7\uD83C\uDDFA" "1f1f7-1f1fa";
  esc "\uD83C\uDDF7\uD83C\uDDF8" "1f1f7-1f1f8";
  esc "\uD83C\uDDF7\uD83C\uDDF4" "1f1f7-1f1f4";
  esc "\uD83C\uDDF7\uD83C\uDDEA" "1f1f7-1f1ea";
  esc "\uD83C\uDDF6\uD83C\uDDE6" "1f1f6-1f1e6";
  esc "\uD83C\uDDF5\uD83C\uDDFE" "1f1f5-1f1fe";
  esc "\uD83C\uDDF5\uD83C\uDDFC" "1f1f5-1f1fc";
  esc "\uD83C\uDDF5\uD83C\uDDF9" "1f1f5-1f1f9";
  esc "\uD83C\uDDF5\uD83C\uDDF8" "1f1f5-1f1f8";
  esc "\uD83C\uDDF5\uD83C\uDDF7" "1f1f5-1f1f7";
  esc "\uD83C\uDDF5\uD83C\uDDF3" "1f1f5-1f1f3";
  esc "\uD83C\uDDF5\uD83C\uDDF2" "1f1f5-1f1f2";
  esc "\uD83C\uDDF5\uD83C\uDDF1" "1f1f5-1f1f1";
  esc "\uD83C\uDDF5\uD83C\uDDF0" "1f1f5-1f1f0";
  esc "\uD83C\uDDF5\uD83C\uDDED" "1f1f5-1f1ed";
  esc "\uD83C\uDDF5\uD83C\uDDEC" "1f1f5-1f1ec";
  esc "\uD83C\uDDF5\uD83C\uDDEB" "1f1f5-1f1eb";
  esc "\uD83C\uDDF5\uD83C\uDDEA" "1f1f5-1f1ea";
  esc "\uD83C\uDDF5\uD83C\uDDE6" "1f1f5-1f1e6";
  esc "\uD83C\uDDF4\uD83C\uDDF2" "1f1f4-1f1f2";
  esc "\uD83C\uDDF3\uD83C\uDDFF" "1f1f3-1f1ff";
  esc "\uD83C\uDDF3\uD83C\uDDFA" "1f1f3-1f1fa";
  esc "\uD83C\uDDF3\uD83C\uDDF7" "1f1f3-1f1f7";
  esc "\uD83C\uDDF3\uD83C\uDDF5" "1f1f3-1f1f5";
  esc "\uD83C\uDDF3\uD83C\uDDF4" "1f1f3-1f1f4";
  esc "\uD83C\uDDF3\uD83C\uDDF1" "1f1f3-1f1f1";
  esc "\uD83C\uDDF3\uD83C\uDDEE" "1f1f3-1f1ee";
  esc "\uD83C\uDDF3\uD83C\uDDEC" "1f1f3-1f1ec";
  esc "\uD83C\uDDF3\uD83C\uDDEB" "1f1f3-1f1eb";
  esc "\uD83C\uDDF3\uD83C\uDDEA" "1f1f3-1f1ea";
  esc "\uD83C\uDDF3\uD83C\uDDE8" "1f1f3-1f1e8";
  esc "\uD83C\uDDF3\uD83C\uDDE6" "1f1f3-1f1e6";
  esc "\uD83C\uDDF2\uD83C\uDDFF" "1f1f2-1f1ff";
  esc "\uD83C\uDDF2\uD83C\uDDFE" "1f1f2-1f1fe";
  esc "\uD83C\uDDF2\uD83C\uDDFD" "1f1f2-1f1fd";
  esc "\uD83C\uDDF2\uD83C\uDDFC" "1f1f2-1f1fc";
  esc "\uD83C\uDDF2\uD83C\uDDFB" "1f1f2-1f1fb";
  esc "\uD83C\uDDF2\uD83C\uDDFA" "1f1f2-1f1fa";
  esc "\uD83C\uDDF2\uD83C\uDDF9" "1f1f2-1f1f9";
  esc "\uD83C\uDDF2\uD83C\uDDF8" "1f1f2-1f1f8";
  esc "\uD83C\uDDF2\uD83C\uDDF7" "1f1f2-1f1f7";
  esc "\uD83C\uDDF2\uD83C\uDDF6" "1f1f2-1f1f6";
  esc "\uD83C\uDDF2\uD83C\uDDF5" "1f1f2-1f1f5";
  esc "\uD83C\uDDF2\uD83C\uDDF4" "1f1f2-1f1f4";
  esc "\uD83C\uDDF2\uD83C\uDDF3" "1f1f2-1f1f3";
  esc "\uD83C\uDDF2\uD83C\uDDF2" "1f1f2-1f1f2";
  esc "\uD83C\uDDF2\uD83C\uDDF1" "1f1f2-1f1f1";
  esc "\uD83C\uDDF2\uD83C\uDDF0" "1f1f2-1f1f0";
  esc "\uD83C\uDDF2\uD83C\uDDED" "1f1f2-1f1ed";
  esc "\uD83C\uDDF2\uD83C\uDDEC" "1f1f2-1f1ec";
  esc "\uD83C\uDDF2\uD83C\uDDEB" "1f1f2-1f1eb";
  esc "\uD83C\uDDF2\uD83C\uDDEA" "1f1f2-1f1ea";
  esc "\uD83C\uDDF2\uD83C\uDDE9" "1f1f2-1f1e9";
  esc "\uD83C\uDDF2\uD83C\uDDE8" "1f1f2-1f1e8";
  esc "\uD83C\uDDF2\uD83C\uDDE6" "1f1f2-1f1e6";
  esc "\uD83C\uDDF1\uD83C\uDDFE" "1f1f1-1f1fe";
  esc "\uD83C\uDDF1\uD83C\uDDFB" "1f1f1-1f1fb";
  esc "\uD83C\uDDF1\uD83C\uDDFA" "1f1f1-1f1fa";
  esc "\uD83C\uDDF1\uD83C\uDDF9" "1f1f1-1f1f9";
  esc "\uD83C\uDDF1\uD83C\uDDF8" "1f1f1-1f1f8";
  esc "\uD83C\uDDF1\uD83C\uDDF7" "1f1f1-1f1f7";
  esc "\uD83C\uDDF1\uD83C\uDDF0" "1f1f1-1f1f0";
  esc "\uD83C\uDDF1\uD83C\uDDEE" "1f1f1-1f1ee";
  esc "\uD83C\uDDF1\uD83C\uDDE8" "1f1f1-1f1e8";
  esc "\uD83C\uDDF1\uD83C\uDDE7" "1f1f1-1f1e7";
  esc "\uD83C\uDDF1\uD83C\uDDE6" "1f1f1-1f1e6";
  esc "\uD83C\uDDF0\uD83C\uDDFF" "1f1f0-1f1ff";
  esc "\uD83C\uDDF0\uD83C\uDDFE" "1f1f0-1f1fe";
  esc "\uD83C\uDDF0\uD83C\uDDFC" "1f1f0-1f1fc";
  esc "\uD83C\uDDF0\uD83C\uDDF7" "1f1f0-1f1f7";
  esc "\uD83C\uDDF0\uD83C\uDDF5" "1f1f0-1f1f5";
  esc "\uD83C\uDDF0\uD83C\uDDF3" "1f1f0-1f1f3";
  esc "\uD83C\uDDF0\uD83C\uDDF2" "1f1f0-1f1f2";
  esc "\uD83C\uDDF0\uD83C\uDDEE" "1f1f0-1f1ee";
  esc "\uD83C\uDDF0\uD83C\uDDED" "1f1f0-1f1ed";
  esc "\uD83C\uDDF0\uD83C\uDDEC" "1f1f0-1f1ec";
  esc "\uD83C\uDDF0\uD83C\uDDEA" "1f1f0-1f1ea";
  esc "\uD83C\uDDEF\uD83C\uDDF5" "1f1ef-1f1f5";
  esc "\uD83C\uDDEF\uD83C\uDDF4" "1f1ef-1f1f4";
  esc "\uD83C\uDDEF\uD83C\uDDF2" "1f1ef-1f1f2";
  esc "\uD83C\uDDEF\uD83C\uDDEA" "1f1ef-1f1ea";
  esc "\uD83C\uDDEE\uD83C\uDDF9" "1f1ee-1f1f9";
  esc "\uD83C\uDDEE\uD83C\uDDF8" "1f1ee-1f1f8";
  esc "\uD83C\uDDEE\uD83C\uDDF7" "1f1ee-1f1f7";
  esc "\uD83C\uDDEE\uD83C\uDDF6" "1f1ee-1f1f6";
  esc "\uD83C\uDDEE\uD83C\uDDF4" "1f1ee-1f1f4";
  esc "\uD83C\uDDEE\uD83C\uDDF3" "1f1ee-1f1f3";
  esc "\uD83C\uDDEE\uD83C\uDDF2" "1f1ee-1f1f2";
  esc "\uD83C\uDDEE\uD83C\uDDF1" "1f1ee-1f1f1";
  esc "\uD83C\uDDEE\uD83C\uDDEA" "1f1ee-1f1ea";
  esc "\uD83C\uDDEE\uD83C\uDDE9" "1f1ee-1f1e9";
  esc "\uD83C\uDDEE\uD83C\uDDE8" "1f1ee-1f1e8";
  esc "\uD83C\uDDED\uD83C\uDDFA" "1f1ed-1f1fa";
  esc "\uD83C\uDDED\uD83C\uDDF9" "1f1ed-1f1f9";
  esc "\uD83C\uDDED\uD83C\uDDF7" "1f1ed-1f1f7";
  esc "\uD83C\uDDED\uD83C\uDDF3" "1f1ed-1f1f3";
  esc "\uD83C\uDDED\uD83C\uDDF2" "1f1ed-1f1f2";
  esc "\uD83C\uDDED\uD83C\uDDF0" "1f1ed-1f1f0";
  esc "\uD83C\uDDEC\uD83C\uDDFE" "1f1ec-1f1fe";
  esc "\uD83C\uDDEC\uD83C\uDDFC" "1f1ec-1f1fc";
  esc "\uD83C\uDDEC\uD83C\uDDFA" "1f1ec-1f1fa";
  esc "\uD83C\uDDEC\uD83C\uDDF9" "1f1ec-1f1f9";
  esc "\uD83C\uDDEC\uD83C\uDDF8" "1f1ec-1f1f8";
  esc "\uD83C\uDDEC\uD83C\uDDF7" "1f1ec-1f1f7";
  esc "\uD83C\uDDEC\uD83C\uDDF6" "1f1ec-1f1f6";
  esc "\uD83C\uDDEC\uD83C\uDDF5" "1f1ec-1f1f5";
  esc "\uD83C\uDDEC\uD83C\uDDF3" "1f1ec-1f1f3";
  esc "\uD83C\uDDEC\uD83C\uDDF2" "1f1ec-1f1f2";
  esc "\uD83C\uDDEC\uD83C\uDDF1" "1f1ec-1f1f1";
  esc "\uD83C\uDDEC\uD83C\uDDEE" "1f1ec-1f1ee";
  esc "\uD83C\uDDEC\uD83C\uDDED" "1f1ec-1f1ed";
  esc "\uD83C\uDDEC\uD83C\uDDEC" "1f1ec-1f1ec";
  esc "\uD83C\uDDEC\uD83C\uDDEB" "1f1ec-1f1eb";
  esc "\uD83C\uDDEC\uD83C\uDDEA" "1f1ec-1f1ea";
  esc "\uD83C\uDDEC\uD83C\uDDE9" "1f1ec-1f1e9";
  esc "\uD83C\uDDEC\uD83C\uDDE7" "1f1ec-1f1e7";
  esc "\uD83C\uDDEC\uD83C\uDDE6" "1f1ec-1f1e6";
  esc "\uD83C\uDDEB\uD83C\uDDF7" "1f1eb-1f1f7"
].

Definition jsEscapeMap_5 : list (list Z * list Z) := [
  esc "\uD83C\uDDEB\uD83C\uDDF4" "1f1eb-1f1f4";
  esc "\uD83C\uDDEB\uD83C\uDDF2" "1f1eb-1f1f2";
  esc "\uD83C\uDDEB\uD83C\uDDF0" "1f1eb-1f1f0";
  esc "\uD83C\uDDEB\uD83C\uDDEF" "1f1eb-1f1ef";
  esc "\uD83C\uDDEB\uD83C\uDDEE" "1f1eb-1f1ee";
  esc "\uD83C\uDDEA\uD83C\uDDFA" "1f1ea-1f1fa";
  esc "\uD83C\uDDEA\uD83C\uDDF9" "1f1ea-1f1f9";
  esc "\uD83C\uDDEA\uD83C\uDDF8" "1f1ea-1f1f8";
  esc "\uD83C\uDDEA\uD83C\uDDF7" "1f1ea-1f1f7";
  esc "\uD83C\uDDEA\uD83C\uDDED" "1f1ea-1f1ed";
  esc "\uD83C\uDDEA\uD83C\uDDEC" "1f1ea-1f1ec";
  esc "\uD83C\uDDEA\uD83C\uDDEA" "1f1ea-1f1ea";
  esc "\uD83C\uDDEA\uD83C\uDDE8" "1f1ea-1f1e8";
  esc "\uD83C\uDDEA\uD83C\uDDE6" "1f1ea-1f1e6";
  esc "\uD83C\uDDE9\uD83C\uDDFF" "1f1e9-1f1ff";
  esc "\uD83C\uDDE9\uD83C\uDDF4" "1f1e9-1f1f4";
  esc "\uD83C\uDDE9\uD83C\uDDF2" "1f1e9-1f1f2";
  esc "\uD83C\uDDE9\uD83C\uDDF0" "1f1e9-1f1f0";
  esc "\uD83C\uDDE9\uD83C\uDDEF" "1f1e9-1f1ef";
  esc "\uD83C\uDDE9\uD83C\uDDEC" "1f1e9-1f1ec";
  esc "\uD83C\uDDE9\uD83C\uDDEA" "1f1e9-1f1ea";
  esc "\uD83C\uDDE8\uD83C\uDDFF" "1f1e8-1f1ff";
  esc "\uD83C\uDDE8\uD83C\uDDFE" "1f1e8-1f1fe";
  esc "\uD83C\uDDE8\uD83C\uDDFD" "1f1e8-1f1fd";
  esc "\uD83C\uDDE8\uD83C\uDDFC" "1f1e8-1f1fc";
  esc "\uD83C\uDDE8\uD83C\uDDFB" "1f1e8-1f1fb";
  esc "\uD83C\uDDE8\uD83C\uDDFA" "1f1e8-1f1fa";
  esc "\uD83C\uDDE8\uD83C\uDDF7" "1f1e8-1f1f7";
  esc "\uD83C\uDDE8\uD83C\uDDF5" "1f1e8-1f1f5";
  esc "\uD83C\uDDE8\uD83C\uDDF4" "1f1e8-1f1f4";
  esc "\uD83C\uDDE8\uD83C\uDDF3" "1f1e8-1f1f3";
  esc "\uD83C\uDDE8\uD83C\uDDF2" "1f1e8-1f1f2";
  esc "\uD83C\uDDE8\uD83C\uDDF1" "1f1e8-1f1f1";
  esc "\uD83C\uDDE8\uD83C\uDDF0" "1f1e8-1f1f0";
  esc "\uD83C\uDDE8\uD83C\uDDEE" "1f1e8-1f1ee";
  esc "\uD83C\uDDE8\uD83C\uDDED" "1f1e8-1f1ed";
  esc "\uD83C\uDDE8\uD83C\uDDEC" "1f1e8-1f1ec";
  esc "\uD83C\uDDE8\uD83C\uDDEB" "1f1e8-1f1eb";
  esc "\uD83C\uDDE8\uD83C\uDDE9" "1f1e8-1f1e9";
  esc "\uD83C\uDDE8\uD83C\uDDE8" "1f1e8-1f1e8";
  esc "\uD83C\uDDE8\uD83C\uDDE6" "1f1e8-1f1e6";
  esc "\uD83C\uDDE7\uD83C\uDDFF" "1f1e7-1f1ff";
  esc "\uD83C\uDDE7\uD83C\uDDFE" "1f1e7-1f1fe";
  esc "\uD83C\uDDE7\uD83C\uDDFC" "1f1e7-1f1fc";
  esc "\uD83C\uDDE7\uD83C\uDDFB" "1f1e7-1f1fb";
  esc "\uD83C\uDDE7\uD83C\uDDF9" "1f1e7-1f1f9";
  esc "\uD83C\uDDE7\uD83C\uDDF8" "1f1e7-1f1f8";
  esc "\uD83C\uDDE7\uD83C\uDDF7" "1f1e7-1f1f7";
  esc "\uD83C\uDDE7\uD83C\uDDF6" "1f1e7-1f1f6";
  esc "\uD83C\uDDE7\uD83C\uDDF4" "1f1e7-1f1f4";
  esc "\uD83C\uDDE7\uD83C\uDDF3" "1f1e7-1f1f3";
  esc "\uD83C\uDDE7\uD83C\uDDF2" "1f1e7-1f1f2";
  esc "\uD83C\uDDE7\uD83C\uDDF1" "1f1e7-1f1f1";
  esc "\uD83C\uDDE7\uD83C\uDDEF" "1f1e7-1f1ef";
  esc "\uD83C\uDDE7\uD83C\uDDEE" "1f1e7-1f1ee";
  esc "\uD83C\uDDE7\uD83C\uDDED" "1f1e7-1f1ed";
  esc "\uD83C\uDDE7\uD83C\uDDEC" "1f1e7-1f1ec";
  esc "\uD83C\uDDE7\uD83C\uDDEB" "1f1e7-1f1eb";
  esc "\uD83C\uDDE7\uD83C\uDDEA" "1f1e7-1f1ea";
  esc "\uD83C\uDDE7\uD83C\uDDE9" "1f1e7-1f1e9";
  esc "\uD83C\uDDE7\uD83C\uDDE7" "1f1e7-1f1e7";
  esc "\uD83C\uDDE7\uD83C\uDDE6" "1f1e7-1f1e6";
  esc "\uD83C\uDDE6\uD83C\uDDFF" "1f1e6-1f1ff";
  esc "\uD83C\uDDE6\uD83C\uDDFD" "1f1e6-1f1fd";
  esc "\uD83C\uDDE6\uD83C\uDDFC" "1f1e6-1f1fc";
  esc "\uD83C\uDDE6\uD83C\uDDFA" "1f1e6-1f1fa";
  esc "\uD83C\uDDE6\uD83C\uDDF9" "1f1e6-1f1f9";
  esc "\uD83C\uDDE6\uD83C\uDDF8" "1f1e6-1f1f8";
  esc "\uD83C\uDDE6\uD83C\uDDF7" "1f1e6-1f1f7";
  esc "\uD83C\uDDE6\uD83C\uDDF6" "1f1e6-1f1f6";
  esc "\uD83C\uDDE6\uD83C\uDDF4" "1f1e6-1f1f4";
  esc "\uD83C\uDDE6\uD83C\uDDF2" "1f1e6-1f1f2";
  esc "\uD83C\uDDE6\uD83C\uDDF1" "1f1e6-1f1f1";
  esc "\uD83C\uDDE6\uD83C\uDDEE" "1f1e6-1f1ee";
  esc "\uD83C\uDDE6\uD83C\uDDEC" "1f1e6-1f1ec";
  esc "\uD83C\uDDE6\uD83C\uDDEB" "1f1e6-1f1eb";
  esc "\uD83C\uDDE6\uD83C\uDDEA" "1f1e6-1f1ea";
  esc "\uD83C\uDDE6\uD83C\uDDE9" "1f1e6-1f1e9";
  esc "\uD83C\uDDE6\uD83C\uDDE8" "1f1e6-1f1e8";
  esc "\uD83C\uDC04" "1f004";
  esc "\uD83C\uDD7F" "1f17f";
  esc "\uD83C\uDE02" "1f202";
  esc "\uD83C\uDE1A" "1f21a";
  esc "\uD83C\uDE2F" "1f22f";
  esc "\uD83C\uDE37" "1f237";
  esc "\uD83C\uDF9E" "1f39e";
  esc "\uD83C\uDF9F" "1f39f";
  esc "\uD83C\uDFCB" "1f3cb";
  esc "\uD83C\uDFCC" "1f3cc";
  esc "\uD83C\uDFCD" "1f3cd";
  esc "\uD83C\uDFCE" "1f3ce";
  esc "\uD83C\uDF96" "1f396";
  esc "\uD83C\uDF97" "1f397";
  esc "\uD83C\uDF36" "1f336";
  esc "\uD83C\uDF27" "1f327";
  esc "\uD83C\uDF28" "1f328";
  esc "\uD83C\uDF29" "1f329";
  esc "\uD83C\uDF2A" "1f32a";
  esc "\uD83C\uDF2B" "1f32b";
  esc "\uD83C\uDF2C" "1f32c";
  esc "\uD83D\uDC3F" "1f43f";
  esc "\uD83D\uDD77" "1f577";
  esc "\uD83D\uDD78" "1f578";
  esc "\uD83C\uDF21" "1f321";
  esc "\uD83C\uDF99" "1f399";
  esc "\uD83C\uDF9A" "1f39a";
  esc "\uD83C\uDF9B" "1f39b";
  esc "\uD83C\uDFF3" "1f3f3";
  esc "\uD83C\uDFF5" "1f3f5";
  esc "\uD83C\uDFF7" "1f3f7";
  esc "\uD83D\uDCFD" "1f4fd";
  esc "\uD83D\uDD49" "1f549";
  esc "\uD83D\uDD4A" "1f54a";
  esc "\uD83D\uDD6F" "1f56f";
  esc "\uD83D\uDD70" "1f570";
  esc "\uD83D\uDD73" "1f573";
  esc "\uD83D\uDD76" "1f576";
  esc "\uD83D\uDD79" "1f579";
  esc "\uD83D\uDD87" "1f587";
  esc "\uD83D\uDD8A" "1f58a";
  esc "\uD83D\uDD8B" "1f58b";
  esc "\uD83D\uDD8C" "1f58c";
  esc "\uD83D\uDD8D" "1f58d";
  esc "\uD83D\uDDA5" "1f5a5";
  esc "\uD83D\uDDA8" "1f5a8";
  esc "\uD83D\uDDB2" "1f5b2";
  esc "\uD83D\uDDBC" "1f5bc";
  esc "\uD83D\uDDC2" "1f5c2";
  esc "\uD83D\uDDC3" "1f5c3";
  esc "\uD83D\uDDC4" "1f5c4";
  esc "\uD83D\uDDD1" "1f5d1";
  esc "\uD83D\uDDD2" "1f5d2";
  esc "\uD83D\uDDD3" "1f5d3";
  esc "\uD83D\uDDDC" "1f5dc";
  esc "\uD83D\uDDDD" "1f5dd";
  esc "\uD83D\uDDDE" "1f5de";
  esc "\uD83D\uDDE1" "1f5e1";
  esc "\uD83D\uDDE3" "1f5e3";
  esc "\uD83D\uDDE8" "1f5e8";
  esc "\uD83D\uDDEF" "1f5ef";
  esc "\uD83D\uDDF3" "1f5f3";
  esc "\uD83D\uDDFA" "1f5fa";
  esc "\uD83D\uDEE0" "1f6e0";
  esc "\uD83D\uDEE1" "1f6e1";
  esc "\uD83D\uDEE2" "1f6e2";
  esc "\uD83D\uDEF0" "1f6f0";
  esc "\uD83C\uDF7D" "1f37d";
  esc "\uD83D\uDC41" "1f441";
  esc "\uD83D\uDD74" "1f574";
  esc "\uD83D\uDD75" "1f575"
].

Definition jsEscapeMap_6 : list (list Z * list Z) := [
  esc "\uD83D\uDD90" "1f590";
  esc "\uD83C\uDFD4" "1f3d4";
  esc "\uD83C\uDFD5" "1f3d5";
  esc "\uD83C\uDFD6" "1f3d6";
  esc "\uD83C\uDFD7" "1f3d7";
  esc "\uD83C\uDFD8" "1f3d8";
  esc "\uD83C\uDFD9" "1f3d9";
  esc "\uD83C\uDFDA" "1f3da";
  esc "\uD83C\uDFDB" "1f3db";
  esc "\uD83C\uDFDC" "1f3dc";
  esc "\uD83C\uDFDD" "1f3dd";
  esc "\uD83C\uDFDE" "1f3de";
  esc "\uD83C\uDFDF" "1f3df";
  esc "\uD83D\uDECB" "1f6cb";
  esc "\uD83D\uDECD" "1f6cd";
  esc "\uD83D\uDECE" "1f6ce";
  esc "\uD83D\uDECF" "1f6cf";
  esc "\uD83D\uDEE3" "1f6e3";
  esc "\uD83D\uDEE4" "1f6e4";
  esc "\uD83D\uDEE5" "1f6e5";
  esc "\uD83D\uDEE9" "1f6e9";
  esc "\uD83D\uDEF3" "1f6f3";
  esc "\uD83C\uDF24" "1f324";
  esc "\uD83C\uDF25" "1f325";
  esc "\uD83C\uDF26" "1f326";
  esc "\uD83D\uDDB1" "1f5b1";
  esc "\u261D\uD83C\uDFFB" "261d-1f3fb";
  esc "\u261D\uD83C\uDFFC" "261d-1f3fc";
  esc "\u261D\uD83C\uDFFD" "261d-1f3fd";
  esc "\u261D\uD83C\uDFFE" "261d-1f3fe";
  esc "\u261D\uD83C\uDFFF" "261d-1f3ff";
  esc "\u270C\uD83C\uDFFB" "270c-1f3fb";
  esc "\u270C\uD83C\uDFFC" "270c-1f3fc";
  esc "\u270C\uD83C\uDFFD" "270c-1f3fd";
  esc "\u270C\uD83C\uDFFE" "270c-1f3fe";
  esc "\u270C\uD83C\uDFFF" "270c-1f3ff";
  esc "\u270A\uD83C\uDFFB" "270a-1f3fb";
  esc "\u270A\uD83C\uDFFC" "270a-1f3fc";
  esc "\u270A\uD83C\uDFFD" "270a-1f3fd";
  esc "\u270A\uD83C\uDFFE" "270a-1f3fe";
  esc "\u270A\uD83C\uDFFF" "270a-1f3ff";
  esc "\u270B\uD83C\uDFFB" "270b-1f3fb";
  esc "\u270B\uD83C\uDFFC" "270b-1f3fc";
  esc "\u270B\uD83C\uDFFD" "270b-1f3fd";
  esc "\u270B\uD83C\uDFFE" "270b-1f3fe";
  esc "\u270B\uD83C\uDFFF" "270b-1f3ff";
  esc "\u270D\uD83C\uDFFB" "270d-1f3fb";
  esc "\u270D\uD83C\uDFFC" "270d-1f3fc";
  esc "\u270D\uD83C\uDFFD" "270d-1f3fd";
  esc "\u270D\uD83C\uDFFE" "270d-1f3fe";
  esc "\u270D\uD83C\uDFFF" "270d-1f3ff";
  esc "\u26F9\uD83C\uDFFB" "26f9-1f3fb";
  esc "\u26F9\uD83C\uDFFC" "26f9-1f3fc";
  esc "\u26F9\uD83C\uDFFD" "26f9-1f3fd";
  esc "\u26F9\uD83C\uDFFE" "26f9-1f3fe";
  esc "\u26F9\uD83C\uDFFF" "26f9-1f3ff";
  esc "\u00A9" "00a9";
  esc "\u00AE" "00ae";
  esc "\u203C" "203c";
  esc "\u2049" "2049";
  esc "\u2122" "2122";
  esc "\u2139" "2139";
  esc "\u2194" "2194";
  esc "\u2195" "2195";
  esc "\u2196" "2196";
  esc "\u2197" "2197";
  esc "\u2198" "2198";
  esc "\u2199" "2199";
  esc "\u21A9" "21a9";
  esc "\u21AA" "21aa";
  esc "\u231A" "231a";
  esc "\u231B" "231b";
  esc "\u24C2" "24c2";
  esc "\u25AA" "25aa";
  esc "\u25AB" "25ab";
  esc "\u25B6" "25b6";
  esc "\u25C0" "25c0";
  esc "\u25FB" "25fb";
  esc "\u25FC" "25fc";
  esc "\u25FD" "25fd";
  esc "\u25FE" "25fe";
  esc "\u2600" "2600";
  esc "\u2601" "2601";
  esc "\u260E" "260e";
  esc "\u2611" "2611";
  esc "\u2614" "2614";
  esc "\u2615" "2615";
  esc "\u261D" "261d";
  esc "\u263A" "263a";
  esc "\u2648" "2648";
  esc "\u2649" "2649";
  esc "\u264A" "264a";
  esc "\u264B" "264b";
  esc "\u264C" "264c";
  esc "\u264D" "264d";
  esc "\u264E" "264e";
  esc "\u264F" "264f";
  esc "\u2650" "2650";
  esc "\u2651" "2651";
  esc "\u2652" "2652";
  esc "\u2653" "2653";
  esc "\u2660" "2660";
  esc "\u2663" "2663";
  esc "\u2665" "2665";
  esc "\u2666" "2666";
  esc "\u2668" "2668";
  esc "\u267B" "267b";
  esc "\u267F" "267f";
  esc "\u2693" "2693";
  esc "\u26A0" "26a0";
  esc "\u26A1" "26a1";
  esc "\u26AA" "26aa";
  esc "\u26AB" "26ab";
  esc "\u26BD" "26bd";
  esc "\u26BE" "26be";
  esc "\u26C4" "26c4";
  esc "\u26C5" "26c5";
  esc "\u26D4" "26d4";
  esc "\u26EA" "26ea";
  esc "\u26F2" "26f2";
  esc "\u26F3" "26f3";
  esc "\u26F5" "26f5";
  esc "\u26FA" "26fa";
  esc "\u26FD" "26fd";
  esc "\u2702" "2702";
  esc "\u2708" "2708";
  esc "\u2709" "2709";
  esc "\u270C" "270c";
  esc "\u270F" "270f";
  esc "\u2712" "2712";
  esc "\u2714" "2714";
  esc "\u2716" "2716";
  esc "\u2733" "2733";
  esc "\u2734" "2734";
  esc "\u2744" "2744";
  esc "\u2747" "2747";
  esc "\u2757" "2757";
  esc "\u2764" "2764";
  esc "\u27A1" "27a1";
  esc "\u2934" "2934";
  esc "\u2935" "2935";
  esc "\u2B05" "2b05";
  esc "\u2B06" "2b06";
  esc "\u2B07" "2b07";
  esc "\u2B1B" "2b1b";
  esc "\u2B1C" "2b1c";
  esc "\u2B50" "2b50";
  esc "\u2B55" "2b55";
  esc "\u3030" "3030";
  esc "\u303D" "303d"
].

Definition jsEscapeMap_7 : list (list Z * list Z) := [
  esc "\u3297" "3297";
  esc "\u3299" "3299";
  esc "\u271D" "271d";
  esc "\u2328" "2328";
  esc "\u270D" "270d";
  esc "\u23CF" "23cf";
  esc "\u23ED" "23ed";
  esc "\u23EE" "23ee";
  esc "\u23EF" "23ef";
  esc "\u23F1" "23f1";
  esc "\u23F2" "23f2";
  esc "\u23F8" "23f8";
  esc "\u23F9" "23f9";
  esc "\u23FA" "23fa";
  esc "\u2602" "2602";
  esc "\u2603" "2603";
  esc "\u2604" "2604";
  esc "\u2618" "2618";
  esc "\u2620" "2620";
  esc "\u2622" "2622";
  esc "\u2623" "2623";
  esc "\u2626" "2626";
  esc "\u262A" "262a";
  esc "\u262E" "262e";
  esc "\u262F" "262f";
  esc "\u2638" "2638";
  esc "\u2639" "2639";
  esc "\u2692" "2692";
  esc "\u2694" "2694";
  esc "\u2696" "2696";
  esc "\u2697" "2697";
  esc "\u2699" "2699";
  esc "\u269B" "269b";
  esc "\u269C" "269c";
  esc "\u26B0" "26b0";
  esc "\u26B1" "26b1";
  esc "\u26C8" "26c8";
  esc "\u26CF" "26cf";
  esc "\u26D1" "26d1";
  esc "\u26D3" "26d3";
  esc "\u26E9" "26e9";
  esc "\u26F0" "26f0";
  esc "\u26F1" "26f1";
  esc "\u26F4" "26f4";
  esc "\u26F7" "26f7";
  esc "\u26F8" "26f8";
  esc "\u26F9" "26f9";
  esc "\u2721" "2721";
  esc "\u2763" "2763";
  esc "\uD83E\uDD49" "1f949";
  esc "\uD83E\uDD48" "1f948";
  esc "\uD83E\uDD47" "1f947";
  esc "\uD83E\uDD3A" "1f93a";
  esc "\uD83E\uDD45" "1f945";
  esc "\uD83E\uDD3E" "1f93e";
  esc "\uD83C\uDDFF" "1f1ff";
  esc "\uD83E\uDD3D" "1f93d";
  esc "\uD83E\uDD4B" "1f94b";
  esc "\uD83E\uDD4A" "1f94a";
  esc "\uD83E\uDD3C" "1f93c";
  esc "\uD83E\uDD39" "1f939";
  esc "\uD83E\uDD38" "1f938";
  esc "\uD83D\uDEF6" "1f6f6";
  esc "\uD83D\uDEF5" "1f6f5";
  esc "\uD83D\uDEF4" "1f6f4";
  esc "\uD83D\uDED2" "1f6d2";
  esc "\uD83C\uDCCF" "1f0cf";
  esc "\uD83C\uDD70" "1f170";
  esc "\uD83C\uDD71" "1f171";
  esc "\uD83C\uDD7E" "1f17e";
  esc "\uD83D\uDED1" "1f6d1";
  esc "\uD83C\uDD8E" "1f18e";
  esc "\uD83C\uDD91" "1f191";
  esc "\uD83C\uDDFE" "1f1fe";
  esc "\uD83C\uDD92" "1f192";
  esc "\uD83C\uDD93" "1f193";
  esc "\uD83C\uDD94" "1f194";
  esc "\uD83C\uDD95" "1f195";
  esc "\uD83C\uDD96" "1f196";
  esc "\uD83C\uDD97" "1f197";
  esc "\uD83C\uDD98" "1f198";
  esc "\uD83E\uDD44" "1f944";
  esc "\uD83C\uDD99" "1f199";
  esc "\uD83C\uDD9A" "1f19a";
  esc "\uD83E\uDD42" "1f942";
  esc "\uD83E\uDD43" "1f943";
  esc "\uD83C\uDE01" "1f201";
  esc "\uD83E\uDD59" "1f959";
  esc "\uD83C\uDE32" "1f232";
  esc "\uD83C\uDE33" "1f233";
  esc "\uD83C\uDE34" "1f234";
  esc "\uD83C\uDE35" "1f235";
  esc "\uD83C\uDE36" "1f236";
  esc "\uD83E\uDD58" "1f958";
  esc "\uD83C\uDE38" "1f238";
  esc "\uD83C\uDE39" "1f239";
  esc "\uD83E\uDD57" "1f957";
  esc "\uD83C\uDE3A" "1f23a";
  esc "\uD83C\uDE50" "1f250";
  esc "\uD83C\uDE51" "1f251";
  esc "\uD83C\uDF00" "1f300";
  esc "\uD83E\uDD56" "1f956";
  esc "\uD83C\uDF01" "1f301";
  esc "\uD83C\uDF02" "1f302";
  esc "\uD83C\uDF03" "1f303";
  esc "\uD83C\uDF04" "1f304";
  esc "\uD83C\uDF05" "1f305";
  esc "\uD83C\uDF06" "1f306";
  esc "\uD83E\uDD55" "1f955";
  esc "\uD83C\uDF07" "1f307";
  esc "\uD83C\uDF08" "1f308";
  esc "\uD83E\uDD54" "1f954";
  esc "\uD83C\uDF09" "1f309";
  esc "\uD83C\uDF0A" "1f30a";
  esc "\uD83C\uDF0B" "1f30b";
  esc "\uD83C\uDF0C" "1f30c";
  esc "\uD83C\uDF0F" "1f30f";
  esc "\uD83C\uDF11" "1f311";
  esc "\uD83E\uDD53" "1f953";
  esc "\uD83C\uDF13" "1f313";
  esc "\uD83C\uDF14" "1f314";
  esc "\uD83C\uDF15" "1f315";
  esc "\uD83C\uDF19" "1f319";
  esc "\uD83C\uDF1B" "1f31b";
  esc "\uD83C\uDF1F" "1f31f";
  esc "\uD83E\uDD52" "1f952";
  esc "\uD83C\uDF20" "1f320";
  esc "\uD83C\uDF30" "1f330";
  esc "\uD83E\uDD51" "1f951";
  esc "\uD83C\uDF31" "1f331";
  esc "\uD83C\uDF34" "1f334";
  esc "\uD83C\uDF35" "1f335";
  esc "\uD83C\uDF37" "1f337";
  esc "\uD83C\uDF38" "1f338";
  esc "\uD83C\uDF39" "1f339";
  esc "\uD83C\uDF3A" "1f33a";
  esc "\uD83C\uDF3B" "1f33b";
  esc "\uD83C\uDF3C" "1f33c";
  esc "\uD83C\uDF3D" "1f33d";
  esc "\uD83E\uDD50" "1f950";
  esc "\uD83C\uDF3E" "1f33e";
  esc "\uD83C\uDF3F" "1f33f";
  esc "\uD83C\uDF40" "1f340";
  esc "\uD83C\uDF41" "1f341";
  esc "\uD83C\uDF42" "1f342";
  esc "\uD83C\uDF43" "1f343";
  esc "\uD83C\uDF44" "1f344";
  esc "\uD83C\uDF45" "1f345";
  esc "\uD83C\uDF46" "1f346";
  esc "\uD83C\uDF47" "1f347"
].

Definition jsEscapeMap_8 : list (list Z * list Z) := [
  esc "\uD83C\uDF48" "1f348";
  esc "\uD83C\uDF49" "1f349";
  esc "\uD83C\uDF4A" "1f34a";
  esc "\uD83E\uDD40" "1f940";
  esc "\uD83C\uDF4C" "1f34c";
  esc "\uD83C\uDF4D" "1f34d";
  esc "\uD83C\uDF4E" "1f34e";
  esc "\uD83C\uDF4F" "1f34f";
  esc "\uD83C\uDF51" "1f351";
  esc "\uD83C\uDF52" "1f352";
  esc "\uD83C\uDF53" "1f353";
  esc "\uD83E\uDD8F" "1f98f";
  esc "\uD83C\uDF54" "1f354";
  esc "\uD83C\uDF55" "1f355";
  esc "\uD83C\uDF56" "1f356";
  esc "\uD83E\uDD8E" "1f98e";
  esc "\uD83C\uDF57" "1f357";
  esc "\uD83C\uDF58" "1f358";
  esc "\uD83C\uDF59" "1f359";
  esc "\uD83E\uDD8D" "1f98d";
  esc "\uD83C\uDF5A" "1f35a";
  esc "\uD83C\uDF5B" "1f35b";
  esc "\uD83E\uDD8C" "1f98c";
  esc "\uD83C\uDF5C" "1f35c";
  esc "\uD83C\uDF5D" "1f35d";
  esc "\uD83C\uDF5E" "1f35e";
  esc "\uD83C\uDF5F" "1f35f";
  esc "\uD83E\uDD8B" "1f98b";
  esc "\uD83C\uDF60" "1f360";
  esc "\uD83C\uDF61" "1f361";
  esc "\uD83E\uDD8A" "1f98a";
  esc "\uD83C\uDF62" "1f362";
  esc "\uD83C\uDF63" "1f363";
  esc "\uD83E\uDD89" "1f989";
  esc "\uD83C\uDF64" "1f364";
  esc "\uD83C\uDF65" "1f365";
  esc "\uD83E\uDD88" "1f988";
  esc "\uD83C\uDF66" "1f366";
  esc "\uD83E\uDD87" "1f987";
  esc "\uD83C\uDF67" "1f367";
  esc "\uD83C\uDDFD" "1f1fd";
  esc "\uD83C\uDF68" "1f368";
  esc "\uD83E\uDD86" "1f986";
  esc "\uD83C\uDF69" "1f369";
  esc "\uD83E\uDD85" "1f985";
  esc "\uD83C\uDF6A" "1f36a";
  esc "\uD83D\uDDA4" "1f5a4";
  esc "\uD83C\uDF6B" "1f36b";
  esc "\uD83C\uDF6C" "1f36c";
  esc "\uD83C\uDF6D" "1f36d";
  esc "\uD83C\uDF6E" "1f36e";
  esc "\uD83C\uDF6F" "1f36f";
  esc "\uD83E\uDD1E" "1f91e";
  esc "\uD83C\uDF70" "1f370";
  esc "\uD83C\uDF71" "1f371";
  esc "\uD83C\uDF72" "1f372";
  esc "\uD83E\uDD1D" "1f91d";
  esc "\uD83C\uDF73" "1f373";
  esc "\uD83C\uDF74" "1f374";
  esc "\uD83C\uDF75" "1f375";
  esc "\uD83C\uDF76" "1f376";
  esc "\uD83C\uDF77" "1f377";
  esc "\uD83C\uDF78" "1f378";
  esc "\uD83C\uDF79" "1f379";
  esc "\uD83C\uDF7A" "1f37a";
  esc "\uD83C\uDF7B" "1f37b";
  esc "\uD83C\uDF80" "1f380";
  esc "\uD83C\uDF81" "1f381";
  esc "\uD83C\uDF82" "1f382";
  esc "\uD83C\uDF83" "1f383";
  esc "\uD83E\uDD1B" "1f91b";
  esc "\uD83E\uDD1C" "1f91c";
  esc "\uD83C\uDF84" "1f384";
  esc "\uD83C\uDF85" "1f385";
  esc "\uD83C\uDF86" "1f386";
  esc "\uD83E\uDD1A" "1f91a";
  esc "\uD83C\uDF87" "1f387";
  esc "\uD83C\uDF88" "1f388";
  esc "\uD83C\uDF89" "1f389";
  esc "\uD83C\uDF8A" "1f38a";
  esc "\uD83C\uDF8B" "1f38b";
  esc "\uD83C\uDF8C" "1f38c";
  esc "\uD83E\uDD19" "1f919";
  esc "\uD83C\uDF8D" "1f38d";
  esc "\uD83D\uDD7A" "1f57a";
  esc "\uD83C\uDF8E" "1f38e";
  esc "\uD83E\uDD33" "1f933";
  esc "\uD83C\uDF8F" "1f38f";
  esc "\uD83E\uDD30" "1f930";
  esc "\uD83C\uDF90" "1f390";
  esc "\uD83E\uDD26" "1f926";
  esc "\uD83E\uDD37" "1f937";
  esc "\uD83C\uDF91" "1f391";
  esc "\uD83C\uDF92" "1f392";
  esc "\uD83C\uDF93" "1f393";
  esc "\uD83C\uDFA0" "1f3a0";
  esc "\uD83C\uDFA1" "1f3a1";
  esc "\uD83C\uDFA2" "1f3a2";
  esc "\uD83C\uDFA3" "1f3a3";
  esc "\uD83C\uDFA4" "1f3a4";
  esc "\uD83C\uDFA5" "1f3a5";
  esc "\uD83C\uDFA6" "1f3a6";
  esc "\uD83C\uDFA7" "1f3a7";
  esc "\uD83E\uDD36" "1f936";
  esc "\uD83C\uDFA8" "1f3a8";
  esc "\uD83E\uDD35" "1f935";
  esc "\uD83C\uDFA9" "1f3a9";
  esc "\uD83C\uDFAA" "1f3aa";
  esc "\uD83E\uDD34" "1f934";
  esc "\uD83C\uDFAB" "1f3ab";
  esc "\uD83C\uDFAC" "1f3ac";
  esc "\uD83C\uDFAD" "1f3ad";
  esc "\uD83E\uDD27" "1f927";
  esc "\uD83C\uDFAE" "1f3ae";
  esc "\uD83C\uDFAF" "1f3af";
  esc "\uD83C\uDFB0" "1f3b0";
  esc "\uD83C\uDFB1" "1f3b1";
  esc "\uD83C\uDFB2" "1f3b2";
  esc "\uD83C\uDFB3" "1f3b3";
  esc "\uD83C\uDFB4" "1f3b4";
  esc "\uD83E\uDD25" "1f925";
  esc "\uD83C\uDFB5" "1f3b5";
  esc "\uD83C\uDFB6" "1f3b6";
  esc "\uD83C\uDFB7" "1f3b7";
  esc "\uD83E\uDD24" "1f924";
  esc "\uD83C\uDFB8" "1f3b8";
  esc "\uD83C\uDFB9" "1f3b9";
  esc "\uD83C\uDFBA" "1f3ba";
  esc "\uD83E\uDD23" "1f923";
  esc "\uD83C\uDFBB" "1f3bb";
  esc "\uD83C\uDFBC" "1f3bc";
  esc "\uD83C\uDFBD" "1f3bd";
  esc "\uD83E\uDD22" "1f922";
  esc "\uD83C\uDFBE" "1f3be";
  esc "\uD83C\uDFBF" "1f3bf";
  esc "\uD83C\uDFC0" "1f3c0";
  esc "\uD83C\uDFC1" "1f3c1";
  esc "\uD83E\uDD21" "1f921";
  esc "\uD83C\uDFC2" "1f3c2";
  esc "\uD83C\uDFC3" "1f3c3";
  esc "\uD83C\uDFC4" "1f3c4";
  esc "\uD83C\uDFC6" "1f3c6";
  esc "\uD83C\uDFC8" "1f3c8";
  esc "\uD83C\uDFCA" "1f3ca";
  esc "\uD83C\uDFE0" "1f3e0";
  esc "\uD83C\uDFE1" "1f3e1";
  esc "\uD83C\uDFE2" "1f3e2";
  esc "\uD83C\uDFE3" "1f3e3";
  esc "\uD83C\uDFE5" "1f3e5";
  esc "\uD83C\uDFE6" "1f3e6"
].

Definition jsEscapeMap_9 : list (list Z * list Z) := [
  esc "\uD83C\uDFE7" "1f3e7";
  esc "\uD83C\uDFE8" "1f3e8";
  esc "\uD83C\uDFE9" "1f3e9";
  esc "\uD83C\uDFEA" "1f3ea";
  esc "\uD83C\uDFEB" "1f3eb";
  esc "\uD83C\uDFEC" "1f3ec";
  esc "\uD83E\uDD20" "1f920";
  esc "\uD83C\uDFED" "1f3ed";
  esc "\uD83C\uDFEE" "1f3ee";
  esc "\uD83C\uDFEF" "1f3ef";
  esc "\uD83C\uDFF0" "1f3f0";
  esc "\uD83D\uDC0C" "1f40c";
  esc "\uD83D\uDC0D" "1f40d";
  esc "\uD83D\uDC0E" "1f40e";
  esc "\uD83D\uDC11" "1f411";
  esc "\uD83D\uDC12" "1f412";
  esc "\uD83D\uDC14" "1f414";
  esc "\uD83D\uDC17" "1f417";
  esc "\uD83D\uDC18" "1f418";
  esc "\uD83D\uDC19" "1f419";
  esc "\uD83D\uDC1A" "1f41a";
  esc "\uD83D\uDC1B" "1f41b";
  esc "\uD83D\uDC1C" "1f41c";
  esc "\uD83D\uDC1D" "1f41d";
  esc "\uD83D\uDC1E" "1f41e";
  esc "\uD83D\uDC1F" "1f41f";
  esc "\uD83D\uDC20" "1f420";
  esc "\uD83D\uDC21" "1f421";
  esc "\uD83D\uDC22" "1f422";
  esc "\uD83D\uDC23" "1f423";
  esc "\uD83D\uDC24" "1f424";
  esc "\uD83D\uDC25" "1f425";
  esc "\uD83D\uDC26" "1f426";
  esc "\uD83D\uDC27" "1f427";
  esc "\uD83D\uDC28" "1f428";
  esc "\uD83D\uDC29" "1f429";
  esc "\uD83D\uDC2B" "1f42b";
  esc "\uD83D\uDC2C" "1f42c";
  esc "\uD83D\uDC2D" "1f42d";
  esc "\uD83D\uDC2E" "1f42e";
  esc "\uD83D\uDC2F" "1f42f";
  esc "\uD83D\uDC30" "1f430";
  esc "\uD83D\uDC31" "1f431";
  esc "\uD83D\uDC32" "1f432";
  esc "\uD83D\uDC33" "1f433";
  esc "\uD83D\uDC34" "1f434";
  esc "\uD83D\uDC35" "1f435";
  esc "\uD83D\uDC36" "1f436";
  esc "\uD83D\uDC37" "1f437";
  esc "\uD83D\uDC38" "1f438";
  esc "\uD83D\uDC39" "1f439";
  esc "\uD83D\uDC3A" "1f43a";
  esc "\uD83D\uDC3B" "1f43b";
  esc "\uD83D\uDC3C" "1f43c";
  esc "\uD83D\uDC3D" "1f43d";
  esc "\uD83D\uDC3E" "1f43e";
  esc "\uD83D\uDC40" "1f440";
  esc "\uD83D\uDC42" "1f442";
  esc "\uD83D\uDC43" "1f443";
  esc "\uD83D\uDC44" "1f444";
  esc "\uD83D\uDC45" "1f445";
  esc "\uD83D\uDC46" "1f446";
  esc "\uD83D\uDC47" "1f447";
  esc "\uD83D\uDC48" "1f448";
  esc "\uD83D\uDC49" "1f449";
  esc "\uD83D\uDC4A" "1f44a";
  esc "\uD83D\uDC4B" "1f44b";
  esc "\uD83D\uDC4C" "1f44c";
  esc "\uD83D\uDC4D" "1f44d";
  esc "\uD83D\uDC4E" "1f44e";
  esc "\uD83D\uDC4F" "1f44f";
  esc "\uD83D\uDC50" "1f450";
  esc "\uD83D\uDC51" "1f451";
  esc "\uD83D\uDC52" "1f452";
  esc "\uD83D\uDC53" "1f453";
  esc "\uD83D\uDC54" "1f454";
  esc "\uD83D\uDC55" "1f455";
  esc "\uD83D\uDC56" "1f456";
  esc "\uD83D\uDC57" "1f457";
  esc "\uD83D\uDC58" "1f458";
  esc "\uD83D\uDC59" "1f459";
  esc "\uD83D\uDC5A" "1f45a";
  esc "\uD83D\uDC5B" "1f45b";
  esc "\uD83D\uDC5C" "1f45c";
  esc "\uD83D\uDC5D" "1f45d";
  esc "\uD83D\uDC5E" "1f45e";
  esc "\uD83D\uDC5F" "1f45f";
  esc "\uD83D\uDC60" "1f460";
  esc "\uD83D\uDC61" "1f461";
  esc "\uD83D\uDC62" "1f462";
  esc "\uD83D\uDC63" "1f463";
  esc "\uD83D\uDC64" "1f464";
  esc "\uD83D\uDC66" "1f466";
  esc "\uD83D\uDC67" "1f467";
  esc "\uD83D\uDC68" "1f468";
  esc "\uD83D\uDC69" "1f469";
  esc "\uD83D\uDC6A" "1f46a";
  esc "\uD83D\uDC6B" "1f46b";
  esc "\uD83D\uDC6E" "1f46e";
  esc "\uD83D\uDC6F" "1f46f";
  esc "\uD83D\uDC70" "1f470";
  esc "\uD83D\uDC71" "1f471";
  esc "\uD83D\uDC72" "1f472";
  esc "\uD83D\uDC73" "1f473";
  esc "\uD83D\uDC74" "1f474";
  esc "\uD83D\uDC75" "1f475";
  esc "\uD83D\uDC76" "1f476";
  esc "\uD83D\uDC77" "1f477";
  esc "\uD83D\uDC78" "1f478";
  esc "\uD83D\uDC79" "1f479";
  esc "\uD83D\uDC7A" "1f47a";
  esc "\uD83D\uDC7B" "1f47b";
  esc "\uD83D\uDC7C" "1f47c";
  esc "\uD83D\uDC7D" "1f47d";
  esc "\uD83D\uDC7E" "1f47e";
  esc "\uD83D\uDC7F" "1f47f";
  esc "\uD83D\uDC80" "1f480";
  esc "\uD83D\uDCC7" "1f4c7";
  esc "\uD83D\uDC81" "1f481";
  esc "\uD83D\uDC82" "1f482";
  esc "\uD83D\uDC83" "1f483";
  esc "\uD83D\uDC84" "1f484";
  esc "\uD83D\uDC85" "1f485";
  esc "\uD83D\uDCD2" "1f4d2";
  esc "\uD83D\uDC86" "1f486";
  esc "\uD83D\uDCD3" "1f4d3";
  esc "\uD83D\uDC87" "1f487";
  esc "\uD83D\uDCD4" "1f4d4";
  esc "\uD83D\uDC88" "1f488";
  esc "\uD83D\uDCD5" "1f4d5";
  esc "\uD83D\uDC89" "1f489";
  esc "\uD83D\uDCD6" "1f4d6";
  esc "\uD83D\uDC8A" "1f48a";
  esc "\uD83D\uDCD7" "1f4d7";
  esc "\uD83D\uDC8B" "1f48b";
  esc "\uD83D\uDCD8" "1f4d8";
  esc "\uD83D\uDC8C" "1f48c";
  esc "\uD83D\uDCD9" "1f4d9";
  esc "\uD83D\uDC8D" "1f48d";
  esc "\uD83D\uDCDA" "1f4da";
  esc "\uD83D\uDC8E" "1f48e";
  esc "\uD83D\uDCDB" "1f4db";
  esc "\uD83D\uDC8F" "1f48f";
  esc "\uD83D\uDCDC" "1f4dc";
  esc "\uD83D\uDC90" "1f490";
  esc "\uD83D\uDCDD" "1f4dd";
  esc "\uD83D\uDC91" "1f491";
  esc "\uD83D\uDCDE" "1f4de";
  esc "\uD83D\uDC92" "1f492";
  esc "\uD83D\uDCDF" "1f4df"
].

Definition jsEscapeMap_10 : list (list Z * list Z) := [
  esc "\uD83D\uDCE0" "1f4e0";
  esc "\uD83D\uDC93" "1f493";
  esc "\uD83D\uDCE1" "1f4e1";
  esc "\uD83D\uDCE2" "1f4e2";
  esc "\uD83D\uDC94" "1f494";
  esc "\uD83D\uDCE3" "1f4e3";
  esc "\uD83D\uDCE4" "1f4e4";
  esc "\uD83D\uDC95" "1f495";
  esc "\uD83D\uDCE5" "1f4e5";
  esc "\uD83D\uDCE6" "1f4e6";
  esc "\uD83D\uDC96" "1f496";
  esc "\uD83D\uDCE7" "1f4e7";
  esc "\uD83D\uDCE8" "1f4e8";
  esc "\uD83D\uDC97" "1f497";
  esc "\uD83D\uDCE9" "1f4e9";
  esc "\uD83D\uDCEA" "1f4ea";
  esc "\uD83D\uDC98" "1f498";
  esc "\uD83D\uDCEB" "1f4eb";
  esc "\uD83D\uDCEE" "1f4ee";
  esc "\uD83D\uDC99" "1f499";
  esc "\uD83D\uDCF0" "1f4f0";
  esc "\uD83D\uDCF1" "1f4f1";
  esc "\uD83D\uDC9A" "1f49a";
  esc "\uD83D\uDCF2" "1f4f2";
  esc "\uD83D\uDCF3" "1f4f3";
  esc "\uD83D\uDC9B" "1f49b";
  esc "\uD83D\uDCF4" "1f4f4";
  esc "\uD83D\uDCF6" "1f4f6";
  esc "\uD83D\uDC9C" "1f49c";
  esc "\uD83D\uDCF7" "1f4f7";
  esc "\uD83D\uDCF9" "1f4f9";
  esc "\uD83D\uDC9D" "1f49d";
  esc "\uD83D\uDCFA" "1f4fa";
  esc "\uD83D\uDCFB" "1f4fb";
  esc "\uD83D\uDC9E" "1f49e";
  esc "\uD83D\uDCFC" "1f4fc";
  esc "\uD83D\uDD03" "1f503";
  esc "\uD83D\uDC9F" "1f49f";
  esc "\uD83D\uDD0A" "1f50a";
  esc "\uD83D\uDD0B" "1f50b";
  esc "\uD83D\uDCA0" "1f4a0";
  esc "\uD83D\uDD0C" "1f50c";
  esc "\uD83D\uDD0D" "1f50d";
  esc "\uD83D\uDCA1" "1f4a1";
  esc "\uD83D\uDD0E" "1f50e";
  esc "\uD83D\uDD0F" "1f50f";
  esc "\uD83D\uDCA2" "1f4a2";
  esc "\uD83D\uDD10" "1f510";
  esc "\uD83D\uDD11" "1f511";
  esc "\uD83D\uDCA3" "1f4a3";
  esc "\uD83D\uDD12" "1f512";
  esc "\uD83D\uDD13" "1f513";
  esc "\uD83D\uDCA4" "1f4a4";
  esc "\uD83D\uDD14" "1f514";
  esc "\uD83D\uDD16" "1f516";
  esc "\uD83D\uDCA5" "1f4a5";
  esc "\uD83D\uDD17" "1f517";
  esc "\uD83D\uDD18" "1f518";
  esc "\uD83D\uDCA6" "1f4a6";
  esc "\uD83D\uDD19" "1f519";
  esc "\uD83D\uDD1A" "1f51a";
  esc "\uD83D\uDCA7" "1f4a7";
  esc "\uD83D\uDD1B" "1f51b";
  esc "\uD83D\uDD1C" "1f51c";
  esc "\uD83D\uDCA8" "1f4a8";
  esc "\uD83D\uDD1D" "1f51d";
  esc "\uD83D\uDD1E" "1f51e";
  esc "\uD83D\uDCA9" "1f4a9";
  esc "\uD83D\uDD1F" "1f51f";
  esc "\uD83D\uDCAA" "1f4aa";
  esc "\uD83D\uDD20" "1f520";
  esc "\uD83D\uDD21" "1f521";
  esc "\uD83D\uDCAB" "1f4ab";
  esc "\uD83D\uDD22" "1f522";
  esc "\uD83D\uDD23" "1f523";
  esc "\uD83D\uDCAC" "1f4ac";
  esc "\uD83D\uDD24" "1f524";
  esc "\uD83D\uDD25" "1f525";
  esc "\uD83D\uDCAE" "1f4ae";
  esc "\uD83D\uDD26" "1f526";
  esc "\uD83D\uDD27" "1f527";
  esc "\uD83D\uDCAF" "1f4af";
  esc "\uD83D\uDD28" "1f528";
  esc "\uD83D\uDD29" "1f529";
  esc "\uD83D\uDCB0" "1f4b0";
  esc "\uD83D\uDD2A" "1f52a";
  esc "\uD83D\uDD2B" "1f52b";
  esc "\uD83D\uDCB1" "1f4b1";
  esc "\uD83D\uDD2E" "1f52e";
  esc "\uD83D\uDCB2" "1f4b2";
  esc "\uD83D\uDD2F" "1f52f";
  esc "\uD83D\uDCB3" "1f4b3";
  esc "\uD83D\uDD30" "1f530";
  esc "\uD83D\uDD31" "1f531";
  esc "\uD83D\uDCB4" "1f4b4";
  esc "\uD83D\uDD32" "1f532";
  esc "\uD83D\uDD33" "1f533";
  esc "\uD83D\uDCB5" "1f4b5";
  esc "\uD83D\uDD34" "1f534";
  esc "\uD83D\uDD35" "1f535";
  esc "\uD83D\uDCB8" "1f4b8";
  esc "\uD83D\uDD36" "1f536";
  esc "\uD83D\uDD37" "1f537";
  esc "\uD83D\uDCB9" "1f4b9";
  esc "\uD83D\uDD38" "1f538";
  esc "\uD83D\uDD39" "1f539";
  esc "\uD83D\uDCBA" "1f4ba";
  esc "\uD83D\uDD3A" "1f53a";
  esc "\uD83D\uDD3B" "1f53b";
  esc "\uD83D\uDCBB" "1f4bb";
  esc "\uD83D\uDD3C" "1f53c";
  esc "\uD83D\uDCBC" "1f4bc";
  esc "\uD83D\uDD3D" "1f53d";
  esc "\uD83D\uDD50" "1f550";
  esc "\uD83D\uDCBD" "1f4bd";
  esc "\uD83D\uDD51" "1f551";
  esc "\uD83D\uDCBE" "1f4be";
  esc "\uD83D\uDD52" "1f552";
  esc "\uD83D\uDCBF" "1f4bf";
  esc "\uD83D\uDD53" "1f553";
  esc "\uD83D\uDCC0" "1f4c0";
  esc "\uD83D\uDD54" "1f554";
  esc "\uD83D\uDD55" "1f555";
  esc "\uD83D\uDCC1" "1f4c1";
  esc "\uD83D\uDD56" "1f556";
  esc "\uD83D\uDD57" "1f557";
  esc "\uD83D\uDCC2" "1f4c2";
  esc "\uD83D\uDD58" "1f558";
  esc "\uD83D\uDD59" "1f559";
  esc "\uD83D\uDCC3" "1f4c3";
  esc "\uD83D\uDD5A" "1f55a";
  esc "\uD83D\uDD5B" "1f55b";
  esc "\uD83D\uDCC4" "1f4c4";
  esc "\uD83D\uDDFB" "1f5fb";
  esc "\uD83D\uDDFC" "1f5fc";
  esc "\uD83D\uDCC5" "1f4c5";
  esc "\uD83D\uDDFD" "1f5fd";
  esc "\uD83D\uDDFE" "1f5fe";
  esc "\uD83D\uDCC6" "1f4c6";
  esc "\uD83D\uDDFF" "1f5ff";
  esc "\uD83D\uDE01" "1f601";
  esc "\uD83D\uDE02" "1f602";
  esc "\uD83D\uDE03" "1f603";
  esc "\uD83D\uDCC8" "1f4c8";
  esc "\uD83D\uDE04" "1f604";
  esc "\uD83D\uDE05" "1f605";
  esc "\uD83D\uDCC9" "1f4c9";
  esc "\uD83D\uDE06" "1f606";
  esc "\uD83D\uDE09" "1f609";
  esc "\uD83D\uDCCA" "1f4ca"
].

Definition jsEscapeMap_11 : list (list Z * list Z) := [
  esc "\uD83D\uDE0A" "1f60a";
  esc "\uD83D\uDE0B" "1f60b";
  esc "\uD83D\uDCCB" "1f4cb";
  esc "\uD83D\uDE0C" "1f60c";
  esc "\uD83D\uDE0D" "1f60d";
  esc "\uD83D\uDCCC" "1f4cc";
  esc "\uD83D\uDE0F" "1f60f";
  esc "\uD83D\uDE12" "1f612";
  esc "\uD83D\uDCCD" "1f4cd";
  esc "\uD83D\uDE13" "1f613";
  esc "\uD83D\uDE14" "1f614";
  esc "\uD83D\uDCCE" "1f4ce";
  esc "\uD83D\uDE16" "1f616";
  esc "\uD83D\uDE18" "1f618";
  esc "\uD83D\uDCCF" "1f4cf";
  esc "\uD83D\uDE1A" "1f61a";
  esc "\uD83D\uDE1C" "1f61c";
  esc "\uD83D\uDCD0" "1f4d0";
  esc "\uD83D\uDE1D" "1f61d";
  esc "\uD83D\uDE1E" "1f61e";
  esc "\uD83D\uDCD1" "1f4d1";
  esc "\uD83D\uDE20" "1f620";
  esc "\uD83D\uDE21" "1f621";
  esc "\uD83D\uDE22" "1f622";
  esc "\uD83D\uDE23" "1f623";
  esc "\uD83D\uDE24" "1f624";
  esc "\uD83D\uDE25" "1f625";
  esc "\uD83D\uDE28" "1f628";
  esc "\uD83D\uDE29" "1f629";
  esc "\uD83D\uDE2A" "1f62a";
  esc "\uD83D\uDE2B" "1f62b";
  esc "\uD83D\uDE2D" "1f62d";
  esc "\uD83D\uDE30" "1f630";
  esc "\uD83D\uDE31" "1f631";
  esc "\uD83D\uDE32" "1f632";
  esc "\uD83D\uDE33" "1f633";
  esc "\uD83D\uDE35" "1f635";
  esc "\uD83D\uDE37" "1f637";
  esc "\uD83D\uDE38" "1f638";
  esc "\uD83D\uDE39" "1f639";
  esc "\uD83D\uDE3A" "1f63a";
  esc "\uD83D\uDE3B" "1f63b";
  esc "\uD83D\uDE3C" "1f63c";
  esc "\uD83D\uDE3D" "1f63d";
  esc "\uD83D\uDE3E" "1f63e";
  esc "\uD83D\uDE3F" "1f63f";
  esc "\uD83D\uDE40" "1f640";
  esc "\uD83D\uDE45" "1f645";
  esc "\uD83D\uDE46" "1f646";
  esc "\uD83D\uDE47" "1f647";
  esc "\uD83D\uDE48" "1f648";
  esc "\uD83D\uDE49" "1f649";
  esc "\uD83D\uDE4A" "1f64a";
  esc "\uD83D\uDE4B" "1f64b";
  esc "\uD83D\uDE4C" "1f64c";
  esc "\uD83D\uDE4D" "1f64d";
  esc "\uD83D\uDE4E" "1f64e";
  esc "\uD83D\uDE4F" "1f64f";
  esc "\uD83D\uDE80" "1f680";
  esc "\uD83D\uDE83" "1f683";
  esc "\uD83D\uDE84" "1f684";
  esc "\uD83D\uDE85" "1f685";
  esc "\uD83D\uDE87" "1f687";
  esc "\uD83D\uDE89" "1f689";
  esc "\uD83D\uDE8C" "1f68c";
  esc "\uD83D\uDE8F" "1f68f";
  esc "\uD83D\uDE91" "1f691";
  esc "\uD83D\uDE92" "1f692";
  esc "\uD83D\uDE93" "1f693";
  esc "\uD83D\uDE95" "1f695";
  esc "\uD83D\uDE97" "1f697";
  esc "\uD83D\uDE99" "1f699";
  esc "\uD83D\uDE9A" "1f69a";
  esc "\uD83D\uDEA2" "1f6a2";
  esc "\uD83D\uDEA4" "1f6a4";
  esc "\uD83D\uDEA5" "1f6a5";
  esc "\uD83D\uDEA7" "1f6a7";
  esc "\uD83D\uDEA8" "1f6a8";
  esc "\uD83D\uDEA9" "1f6a9";
  esc "\uD83D\uDEAA" "1f6aa";
  esc "\uD83D\uDEAB" "1f6ab";
  esc "\uD83D\uDEAC" "1f6ac";
  esc "\uD83D\uDEAD" "1f6ad";
  esc "\uD83D\uDEB2" "1f6b2";
  esc "\uD83D\uDEB6" "1f6b6";
  esc "\uD83D\uDEB9" "1f6b9";
  esc "\uD83D\uDEBA" "1f6ba";
  esc "\uD83D\uDEBB" "1f6bb";
  esc "\uD83D\uDEBC" "1f6bc";
  esc "\uD83D\uDEBD" "1f6bd";
  esc "\uD83D\uDEBE" "1f6be";
  esc "\uD83D\uDEC0" "1f6c0";
  esc "\uD83E\uDD18" "1f918";
  esc "\uD83D\uDE00" "1f600";
  esc "\uD83D\uDE07" "1f607";
  esc "\uD83D\uDE08" "1f608";
  esc "\uD83D\uDE0E" "1f60e";
  esc "\uD83D\uDE10" "1f610";
  esc "\uD83D\uDE11" "1f611";
  esc "\uD83D\uDE15" "1f615";
  esc "\uD83D\uDE17" "1f617";
  esc "\uD83D\uDE19" "1f619";
  esc "\uD83D\uDE1B" "1f61b";
  esc "\uD83D\uDE1F" "1f61f";
  esc "\uD83D\uDE26" "1f626";
  esc "\uD83D\uDE27" "1f627";
  esc "\uD83D\uDE2C" "1f62c";
  esc "\uD83D\uDE2E" "1f62e";
  esc "\uD83D\uDE2F" "1f62f";
  esc "\uD83D\uDE34" "1f634";
  esc "\uD83D\uDE36" "1f636";
  esc "\uD83D\uDE81" "1f681";
  esc "\uD83D\uDE82" "1f682";
  esc "\uD83D\uDE86" "1f686";
  esc "\uD83D\uDE88" "1f688";
  esc "\uD83D\uDE8A" "1f68a";
  esc "\uD83D\uDE8D" "1f68d";
  esc "\uD83D\uDE8E" "1f68e";
  esc "\uD83D\uDE90" "1f690";
  esc "\uD83D\uDE94" "1f694";
  esc "\uD83D\uDE96" "1f696";
  esc "\uD83D\uDE98" "1f698";
  esc "\uD83D\uDE9B" "1f69b";
  esc "\uD83D\uDE9C" "1f69c";
  esc "\uD83D\uDE9D" "1f69d";
  esc "\uD83D\uDE9E" "1f69e";
  esc "\uD83D\uDE9F" "1f69f";
  esc "\uD83D\uDEA0" "1f6a0";
  esc "\uD83D\uDEA1" "1f6a1";
  esc "\uD83D\uDEA3" "1f6a3";
  esc "\uD83D\uDEA6" "1f6a6";
  esc "\uD83D\uDEAE" "1f6ae";
  esc "\uD83D\uDEAF" "1f6af";
  esc "\uD83D\uDEB0" "1f6b0";
  esc "\uD83D\uDEB1" "1f6b1";
  esc "\uD83D\uDEB3" "1f6b3";
  esc "\uD83D\uDEB4" "1f6b4";
  esc "\uD83D\uDEB5" "1f6b5";
  esc "\uD83D\uDEB7" "1f6b7";
  esc "\uD83D\uDEB8" "1f6b8";
  esc "\uD83D\uDEBF" "1f6bf";
  esc "\uD83D\uDEC1" "1f6c1";
  esc "\uD83D\uDEC2" "1f6c2";
  esc "\uD83D\uDEC3" "1f6c3";
  esc "\uD83D\uDEC4" "1f6c4";
  esc "\uD83D\uDEC5" "1f6c5";
  esc "\uD83C\uDF0D" "1f30d";
  esc "\uD83C\uDF0E" "1f30e";
  esc "\uD83C\uDF10" "1f310";
  esc "\uD83C\uDF12" "1f312"
].

Definition jsEscapeMap_12 : list (list Z * list Z) := [
  esc "\uD83C\uDF16" "1f316";
  esc "\uD83C\uDF17" "1f317";
  esc "\uD83C\uDF18" "1f318";
  esc "\uD83C\uDF1A" "1f31a";
  esc "\uD83C\uDF1C" "1f31c";
  esc "\uD83C\uDF1D" "1f31d";
  esc "\uD83C\uDF1E" "1f31e";
  esc "\uD83C\uDF32" "1f332";
  esc "\uD83C\uDF33" "1f333";
  esc "\uD83C\uDF4B" "1f34b";
  esc "\uD83C\uDF50" "1f350";
  esc "\uD83C\uDF7C" "1f37c";
  esc "\uD83C\uDFC7" "1f3c7";
  esc "\uD83C\uDFC9" "1f3c9";
  esc "\uD83C\uDFE4" "1f3e4";
  esc "\uD83D\uDC00" "1f400";
  esc "\uD83D\uDC01" "1f401";
  esc "\uD83D\uDC02" "1f402";
  esc "\uD83D\uDC03" "1f403";
  esc "\uD83D\uDC04" "1f404";
  esc "\uD83D\uDC05" "1f405";
  esc "\uD83D\uDC06" "1f406";
  esc "\uD83D\uDC07" "1f407";
  esc "\uD83D\uDC08" "1f408";
  esc "\uD83D\uDC09" "1f409";
  esc "\uD83D\uDC0A" "1f40a";
  esc "\uD83D\uDC0B" "1f40b";
  esc "\uD83D\uDC0F" "1f40f";
  esc "\uD83D\uDC10" "1f410";
  esc "\uD83D\uDC13" "1f413";
  esc "\uD83D\uDC15" "1f415";
  esc "\uD83D\uDC16" "1f416";
  esc "\uD83D\uDC2A" "1f42a";
  esc "\uD83D\uDC65" "1f465";
  esc "\uD83D\uDC6C" "1f46c";
  esc "\uD83D\uDC6D" "1f46d";
  esc "\uD83D\uDCAD" "1f4ad";
  esc "\uD83D\uDCB6" "1f4b6";
  esc "\uD83D\uDCB7" "1f4b7";
  esc "\uD83D\uDCEC" "1f4ec";
  esc "\uD83D\uDCED" "1f4ed";
  esc "\uD83D\uDCEF" "1f4ef";
  esc "\uD83D\uDCF5" "1f4f5";
  esc "\uD83D\uDD00" "1f500";
  esc "\uD83D\uDD01" "1f501";
  esc "\uD83D\uDD02" "1f502";
  esc "\uD83D\uDD04" "1f504";
  esc "\uD83D\uDD05" "1f505";
  esc "\uD83D\uDD06" "1f506";
  esc "\uD83D\uDD07" "1f507";
  esc "\uD83D\uDD09" "1f509";
  esc "\uD83D\uDD15" "1f515";
  esc "\uD83D\uDD2C" "1f52c";
  esc "\uD83D\uDD2D" "1f52d";
  esc "\uD83D\uDD5C" "1f55c";
  esc "\uD83D\uDD5D" "1f55d";
  esc "\uD83D\uDD5E" "1f55e";
  esc "\uD83D\uDD5F" "1f55f";
  esc "\uD83D\uDD60" "1f560";
  esc "\uD83D\uDD61" "1f561";
  esc "\uD83D\uDD62" "1f562";
  esc "\uD83D\uDD63" "1f563";
  esc "\uD83D\uDD64" "1f564";
  esc "\uD83D\uDD65" "1f565";
  esc "\uD83D\uDD66" "1f566";
  esc "\uD83D\uDD67" "1f567";
  esc "\uD83D\uDD08" "1f508";
  esc "\uD83D\uDE8B" "1f68b";
  esc "\uD83C\uDFC5" "1f3c5";
  esc "\uD83C\uDFF4" "1f3f4";
  esc "\uD83D\uDCF8" "1f4f8";
  esc "\uD83D\uDECC" "1f6cc";
  esc "\uD83D\uDD95" "1f595";
  esc "\uD83D\uDD96" "1f596";
  esc "\uD83D\uDE41" "1f641";
  esc "\uD83D\uDE42" "1f642";
  esc "\uD83D\uDEEB" "1f6eb";
  esc "\uD83D\uDEEC" "1f6ec";
  esc "\uD83C\uDFFB" "1f3fb";
  esc "\uD83C\uDFFC" "1f3fc";
  esc "\uD83C\uDFFD" "1f3fd";
  esc "\uD83C\uDFFE" "1f3fe";
  esc "\uD83C\uDFFF" "1f3ff";
  esc "\uD83D\uDE43" "1f643";
  esc "\uD83E\uDD11" "1f911";
  esc "\uD83E\uDD13" "1f913";
  esc "\uD83E\uDD17" "1f917";
  esc "\uD83D\uDE44" "1f644";
  esc "\uD83E\uDD14" "1f914";
  esc "\uD83E\uDD10" "1f910";
  esc "\uD83E\uDD12" "1f912";
  esc "\uD83E\uDD15" "1f915";
  esc "\uD83E\uDD16" "1f916";
  esc "\uD83E\uDD81" "1f981";
  esc "\uD83E\uDD84" "1f984";
  esc "\uD83E\uDD82" "1f982";
  esc "\uD83E\uDD80" "1f980";
  esc "\uD83E\uDD83" "1f983";
  esc "\uD83E\uDDC0" "1f9c0";
  esc "\uD83C\uDF2D" "1f32d";
  esc "\uD83C\uDF2E" "1f32e";
  esc "\uD83C\uDF2F" "1f32f";
  esc "\uD83C\uDF7F" "1f37f";
  esc "\uD83C\uDF7E" "1f37e";
  esc "\uD83C\uDFF9" "1f3f9";
  esc "\uD83C\uDFFA" "1f3fa";
  esc "\uD83D\uDED0" "1f6d0";
  esc "\uD83D\uDD4B" "1f54b";
  esc "\uD83D\uDD4C" "1f54c";
  esc "\uD83D\uDD4D" "1f54d";
  esc "\uD83D\uDD4E" "1f54e";
  esc "\uD83D\uDCFF" "1f4ff";
  esc "\uD83C\uDFCF" "1f3cf";
  esc "\uD83C\uDFD0" "1f3d0";
  esc "\uD83C\uDFD1" "1f3d1";
  esc "\uD83C\uDFD2" "1f3d2";
  esc "\uD83C\uDFD3" "1f3d3";
  esc "\uD83C\uDFF8" "1f3f8";
  esc "\uD83E\uDD41" "1f941";
  esc "\uD83E\uDD90" "1f990";
  esc "\uD83E\uDD91" "1f991";
  esc "\uD83E\uDD5A" "1f95a";
  esc "\uD83E\uDD5B" "1f95b";
  esc "\uD83E\uDD5C" "1f95c";
  esc "\uD83E\uDD5D" "1f95d";
  esc "\uD83E\uDD5E" "1f95e";
  esc "\uD83C\uDDFC" "1f1fc";
  esc "\uD83C\uDDFB" "1f1fb";
  esc "\uD83C\uDDFA" "1f1fa";
  esc "\uD83C\uDDF9" "1f1f9";
  esc "\uD83C\uDDF8" "1f1f8";
  esc "\uD83C\uDDF7" "1f1f7";
  esc "\uD83C\uDDF6" "1f1f6";
  esc "\uD83C\uDDF5" "1f1f5";
  esc "\uD83C\uDDF4" "1f1f4";
  esc "\uD83C\uDDF3" "1f1f3";
  esc "\uD83C\uDDF2" "1f1f2";
  esc "\uD83C\uDDF1" "1f1f1";
  esc "\uD83C\uDDF0" "1f1f0";
  esc "\uD83C\uDDEF" "1f1ef";
  esc "\uD83C\uDDEE" "1f1ee";
  esc "\uD83C\uDDED" "1f1ed";
  esc "\uD83C\uDDEC" "1f1ec";
  esc "\uD83C\uDDEB" "1f1eb";
  esc "\uD83C\uDDEA" "1f1ea";
  esc "\uD83C\uDDE9" "1f1e9";
  esc "\uD83C\uDDE8" "1f1e8";
  esc "\uD83C\uDDE7" "1f1e7";
  esc "\uD83C\uDDE6" "1f1e6";
  esc "\u23E9" "23e9"
].

Definition jsEscapeMap_13 : list (list Z * list Z) := [
  esc "\u23EA" "23ea";
  esc "\u23EB" "23eb";
  esc "\u23EC" "23ec";
  esc "\u23F0" "23f0";
  esc "\u23F3" "23f3";
  esc "*" "002a";
  esc "\u26CE" "26ce";
  esc "\u2705" "2705";
  esc "\u270A" "270a";
  esc "\u270B" "270b";
  esc "\u2728" "2728";
  esc "\u274C" "274c";
  esc "\u274E" "274e";
  esc "\u2753" "2753";
  esc "\u2754" "2754";
  esc "\u2755" "2755";
  esc "\u2795" "2795";
  esc "\u2796" "2796";
  esc "\u2797" "2797";
  esc "\u27B0" "27b0";
  esc "#" "0023";
  esc "\u27BF" "27bf";
  esc "9" "0039";
  esc "8" "0038";
  esc "7" "0037";
  esc "6" "0036";
  esc "5" "0035";
  esc "4" "0034";
  esc "3" "0033";
  esc "2" "0032";
  esc "1" "0031";
  esc "0" "0030";
  esc "\u00A9" "00a9";
  esc "\u00AE" "00ae";
  esc "\u203C" "203c";
  esc "\u2049" "2049";
  esc "\u2122" "2122";
  esc "\u2139" "2139";
  esc "\u2194" "2194";
  esc "\u2195" "2195";
  esc "\u2196" "2196";
  esc "\u2197" "2197";
  esc "\u2198" "2198";
  esc "\u2199" "2199";
  esc "\u21A9" "21a9";
  esc "\u21AA" "21aa";
  esc "\u231A" "231a";
  esc "\u231B" "231b";
  esc "\u24C2" "24c2";
  esc "\u25AA" "25aa";
  esc "\u25AB" "25ab";
  esc "\u25B6" "25b6";
  esc "\u25C0" "25c0";
  esc "\u25FB" "25fb";
  esc "\u25FC" "25fc";
  esc "\u25FD" "25fd";
  esc "\u25FE" "25fe";
  esc "\u2600" "2600";
  esc "\u2601" "2601";
  esc "\u260E" "260e";
  esc "\u2611" "2611";
  esc "\u2614" "2614";
  esc "\u2615" "2615";
  esc "\u261D" "261d";
  esc "\u263A" "263a";
  esc "\u2648" "2648";
  esc "\u2649" "2649";
  esc "\u264A" "264a";
  esc "\u264B" "264b";
  esc "\u264C" "264c";
  esc "\u264D" "264d";
  esc "\u264E" "264e";
  esc "\u264F" "264f";
  esc "\u2650" "2650";
  esc "\u2651" "2651";
  esc "\u2652" "2652";
  esc "\u2653" "2653";
  esc "\u2660" "2660";
  esc "\u2663" "2663";
  esc "\u2665" "2665";
  esc "\u2666" "2666";
  esc "\u2668" "2668";
  esc "\u267B" "267b";
  esc "\u267F" "267f";
  esc "\u2693" "2693";
  esc "\u26A0" "26a0";
  esc "\u26A1" "26a1";
  esc "\u26AA" "26aa";
  esc "\u26AB" "26ab";
  esc "\u26BD" "26bd";
  esc "\u26BE" "26be";
  esc "\u26C4" "26c4";
  esc "\u26C5" "26c5";
  esc "\u26D4" "26d4";
  esc "\u26EA" "26ea";
  esc "\u26F2" "26f2";
  esc "\u26F3" "26f3";
  esc "\u26F5" "26f5";
  esc "\u26FA" "26fa";
  esc "\u26FD" "26fd";
  esc "\u2702" "2702";
  esc "\u2708" "2708";
  esc "\u2709" "2709";
  esc "\u270C" "270c";
  esc "\u270F" "270f";
  esc "\u2712" "2712";
  esc "\u2714" "2714";
  esc "\u2716" "2716";
  esc "\u2733" "2733";
  esc "\u2734" "2734";
  esc "\u2744" "2744";
  esc "\u2747" "2747";
  esc "\u2757" "2757";
  esc "\u2764" "2764";
  esc "\u27A1" "27a1";
  esc "\u2934" "2934";
  esc "\u2935" "2935";
  esc "\u2B05" "2b05";
  esc "\u2B06" "2b06";
  esc "\u2B07" "2b07";
  esc "\u2B1B" "2b1b";
  esc "\u2B1C" "2b1c";
  esc "\u2B50" "2b50";
  esc "\u2B55" "2b55";
  esc "\u3030" "3030";
  esc "\u303D" "303d";
  esc "\u3297" "3297";
  esc "\u3299" "3299";
  esc "\uD83C\uDC04" "1f004";
  esc "\uD83C\uDD7F" "1f17f";
  esc "\uD83C\uDE02" "1f202";
  esc "\uD83C\uDE1A" "1f21a";
  esc "\uD83C\uDE2F" "1f22f";
  esc "\uD83C\uDE37" "1f237";
  esc "\uD83C\uDF9E" "1f39e";
  esc "\uD83C\uDF9F" "1f39f";
  esc "\uD83C\uDFCB" "1f3cb";
  esc "\uD83C\uDFCC" "1f3cc";
  esc "\uD83C\uDFCD" "1f3cd";
  esc "\uD83C\uDFCE" "1f3ce";
  esc "\uD83C\uDF96" "1f396";
  esc "\uD83C\uDF97" "1f397";
  esc "\uD83C\uDF36" "1f336";
  esc "\uD83C\uDF27" "1f327";
  esc "\uD83C\uDF28" "1f328";
  esc "\uD83C\uDF29" "1f329";
  esc "\uD83C\uDF2A" "1f32a";
  esc "\uD83C\uDF2B" "1f32b";
  esc "\uD83C\uDF2C" "1f32c";
  esc "\uD83D\uDC3F" "1f43f"
].

Definition jsEscapeMap_14 : list (list Z * list Z) := [
  esc "\uD83D\uDD77" "1f577";
  esc "\uD83D\uDD78" "1f578";
  esc "\uD83C\uDF21" "1f321";
  esc "\uD83C\uDF99" "1f399";
  esc "\uD83C\uDF9A" "1f39a";
  esc "\uD83C\uDF9B" "1f39b";
  esc "\uD83C\uDFF3" "1f3f3";
  esc "\uD83C\uDFF5" "1f3f5";
  esc "\uD83C\uDFF7" "1f3f7";
  esc "\uD83D\uDCFD" "1f4fd";
  esc "\u271D" "271d";
  esc "\uD83D\uDD49" "1f549";
  esc "\uD83D\uDD4A" "1f54a";
  esc "\uD83D\uDD6F" "1f56f";
  esc "\uD83D\uDD70" "1f570";
  esc "\uD83D\uDD73" "1f573";
  esc "\uD83D\uDD76" "1f576";
  esc "\uD83D\uDD79" "1f579";
  esc "\uD83D\uDD87" "1f587";
  esc "\uD83D\uDD8A" "1f58a";
  esc "\uD83D\uDD8B" "1f58b";
  esc "\uD83D\uDD8C" "1f58c";
  esc "\uD83D\uDD8D" "1f58d";
  esc "\uD83D\uDDA5" "1f5a5";
  esc "\uD83D\uDDA8" "1f5a8";
  esc "\u2328" "2328";
  esc "\uD83D\uDDB2" "1f5b2";
  esc "\uD83D\uDDBC" "1f5bc";
  esc "\uD83D\uDDC2" "1f5c2";
  esc "\uD83D\uDDC3" "1f5c3";
  esc "\uD83D\uDDC4" "1f5c4";
  esc "\uD83D\uDDD1" "1f5d1";
  esc "\uD83D\uDDD2" "1f5d2";
  esc "\uD83D\uDDD3" "1f5d3";
  esc "\uD83D\uDDDC" "1f5dc";
  esc "\uD83D\uDDDD" "1f5dd";
  esc "\uD83D\uDDDE" "1f5de";
  esc "\uD83D\uDDE1" "1f5e1";
  esc "\uD83D\uDDE3" "1f5e3";
  esc "\uD83D\uDDE8" "1f5e8";
  esc "\uD83D\uDDEF" "1f5ef";
  esc "\uD83D\uDDF3" "1f5f3";
  esc "\uD83D\uDDFA" "1f5fa";
  esc "\uD83D\uDEE0" "1f6e0";
  esc "\uD83D\uDEE1" "1f6e1";
  esc "\uD83D\uDEE2" "1f6e2";
  esc "\uD83D\uDEF0" "1f6f0";
  esc "\uD83C\uDF7D" "1f37d";
  esc "\uD83D\uDC41" "1f441";
  esc "\uD83D\uDD74" "1f574";
  esc "\uD83D\uDD75" "1f575";
  esc "\u270D" "270d";
  esc "\uD83D\uDD90" "1f590";
  esc "\uD83C\uDFD4" "1f3d4";
  esc "\uD83C\uDFD5" "1f3d5";
  esc "\uD83C\uDFD6" "1f3d6";
  esc "\uD83C\uDFD7" "1f3d7";
  esc "\uD83C\uDFD8" "1f3d8";
  esc "\uD83C\uDFD9" "1f3d9";
  esc "\uD83C\uDFDA" "1f3da";
  esc "\uD83C\uDFDB" "1f3db";
  esc "\uD83C\uDFDC" "1f3dc";
  esc "\uD83C\uDFDD" "1f3dd";
  esc "\uD83C\uDFDE" "1f3de";
  esc "\uD83C\uDFDF" "1f3df";
  esc "\uD83D\uDECB" "1f6cb";
  esc "\uD83D\uDECD" "1f6cd";
  esc "\uD83D\uDECE" "1f6ce";
  esc "\uD83D\uDECF" "1f6cf";
  esc "\uD83D\uDEE3" "1f6e3";
  esc "\uD83D\uDEE4" "1f6e4";
  esc "\uD83D\uDEE5" "1f6e5";
  esc "\uD83D\uDEE9" "1f6e9";
  esc "\uD83D\uDEF3" "1f6f3";
  esc "\u23CF" "23cf";
  esc "\u23ED" "23ed";
  esc "\u23EE" "23ee";
  esc "\u23EF" "23ef";
  esc "\u23F1" "23f1";
  esc "\u23F2" "23f2";
  esc "\u23F8" "23f8";
  esc "\u23F9" "23f9";
  esc "\u23FA" "23fa";
  esc "\u2602" "2602";
  esc "\u2603" "2603";
  esc "\u2604" "2604";
  esc "\u2618" "2618";
  esc "\u2620" "2620";
  esc "\u2622" "2622";
  esc "\u2623" "2623";
  esc "\u2626" "2626";
  esc "\u262A" "262a";
  esc "\u262E" "262e";
  esc "\u262F" "262f";
  esc "\u2638" "2638";
  esc "\u2639" "2639";
  esc "\u2692" "2692";
  esc "\u2694" "2694";
  esc "\u2696" "2696";
  esc "\u2697" "2697";
  esc "\u2699" "2699";
  esc "\u269B" "269b";
  esc "\u269C" "269c";
  esc "\u26B0" "26b0";
  esc "\u26B1" "26b1";
  esc "\u26C8" "26c8";
  esc "\u26CF" "26cf";
  esc "\u26D1" "26d1";
  esc "\u26D3" "26d3";
  esc "\u26E9" "26e9";
  esc "\u26F0" "26f0";
  esc "\u26F1" "26f1";
  esc "\u26F4" "26f4";
  esc "\u26F7" "26f7";
  esc "\u26F8" "26f8";
  esc "\u26F9" "26f9";
  esc "\u2721" "2721";
  esc "\u2763" "2763";
  esc "\uD83C\uDF24" "1f324";
  esc "\uD83C\uDF25" "1f325";
  esc "\uD83C\uDF26" "1f326";
  esc "\uD83D\uDDB1" "1f5b1"
].

(** The literal, entry by entry; a key that occurs again replaces the value. *)
Definition jsEscapeMap_literal : list (list Z * list Z) :=
  List.concat [
    jsEscapeMap_1; jsEscapeMap_2; jsEscapeMap_3; jsEscapeMap_4; jsEscapeMap_5;
    jsEscapeMap_6; jsEscapeMap_7; jsEscapeMap_8; jsEscapeMap_9; jsEscapeMap_10;
    jsEscapeMap_11; jsEscapeMap_12; jsEscapeMap_13; jsEscapeMap_14
  ].
