(* ===== verification/Emoji.v ===== *)
(** * emojione: emoji in texts

    src/src/qt/res/assets/plugins/emojione/emojione.js after its tables: the conversion of
    code points to text, the escapes of HTML, the patterns, and the replacement functions
    between shortnames, Unicode text, ASCII smileys and images.  The settings of [ns] are
    the record [settings]; the memo fields of [ns] are the record [memo]. *)

From Stdlib Require Import ZArith Lia List String Bool.
From S2P Require Import Prelude Js Regex TableIndex EmojiTables.
Import ListNotations.
#[local] Open Scope Z_scope.

Module Emoji.

Definition undefined_text : list Z := js "undefined".

(** A value concatenated to a string or returned by a replace callback. *)
Definition as_text (v : option (list Z)) : list Z :=
  match v with Some s => s | None => undefined_text end.

(** ** Settings and memo *)

Record settings : Type := Settings {
  imagePathPNG : list Z;
  imagePathSVG : list Z;
  imagePathSVGSprites : list Z;
  imageType : list Z;
  sprites : bool;
  unicodeAlt : bool;
  ascii : bool;
  cacheBustParam : list Z
}.

Definition default_settings : settings := {|
  imagePathPNG := js "//cdn.jsdelivr.net/emojione/assets/png/";
  imagePathSVG := js "qrc:///assets/plugins/emojione/qrc:///assets/svg/";
  imagePathSVGSprites := js "./../assets/sprites/emojione.sprites.svg";
  imageType := js "svg";
  sprites := false;
  unicodeAlt := true;
  ascii := true;
  cacheBustParam := js "?v=2.2.6"
|}.

Record memo : Type := Memo {
  memMapShortToUnicode : option (list (list Z * list Z));
  memMapShortToUnicodeCharacters : option (list (list Z * list Z));
  unicodeReplacementRegEx : option (list Z)
}.

Definition no_memo : memo := Memo None None None.

(** ** Code points *)

(** [parseInt(s, 16)]: the longest prefix of hexadecimal digits; [None] is NaN.  (The
    texts of the code start with a digit: no white space, no sign, no 0x.) *)
Fixpoint hex_prefix (acc : Z) (s : list Z) : Z :=
  match s with
  | [] => acc
  | c :: s' => match hex_value c with Some d => hex_prefix (acc * 16 + d) s' | None => acc end
  end.

Definition parseInt16 (s : list Z) : option Z :=
  match s with
  | [] => None
  | c :: s' => match hex_value c with Some d => Some (hex_prefix d s') | None => None end
  end.

(** [String.fromCharCode]: ToUint16 of the argument, 0 for NaN. *)
Definition fromCharCode (v : option Z) : list Z :=
  [match v with Some z => z mod 65536 | None => 0 end].

(** The body that [convert] has twice: one code point. *)
Definition convert_part (part : option Z) : list Z :=
  match part with
  | Some s =>
      if (0x10000 <=? s) && (s <=? 0x10FFFF)
      then let hi := (s - 0x10000) / 0x400 + 0xD800 in
           let lo := (s - 0x10000) mod 0x400 + 0xDC00 in
           fromCharCode (Some hi) ++ fromCharCode (Some lo)
      else fromCharCode (Some s)
  | None => fromCharCode None
  end.

Definition convert (unicode : list Z) : list Z :=
  if existsb (Z.eqb 45) unicode
  then List.concat (map (fun p => convert_part (parseInt16 p)) (split 45 unicode))
  else convert_part (parseInt16 unicode).

(** [s.toUpperCase()] on the ASCII texts of the tables. *)
Definition toUpperCase (s : list Z) : list Z :=
  map (fun c => if (97 <=? c) && (c <=? 122) then c - 32 else c) s.

(** ** HTML escapes *)

Definition escaped : list (list Z * list Z) :=
  [(js "&", js "&amp;"); (js "<", js "&lt;"); (js ">", js "&gt;"); ([34], js "&quot;"); (js "'", js "&#039;")].

Definition escapeHTML (string : list Z) : list Z :=
  replace_all false (Atom (OneOf [38; 60; 62; 34; 39])) (fun m _ => as_text (get m escaped)) string.

Definition unescaped : list (list Z * list Z) :=
  [(js "&amp;", js "&"); (js "&#38;", js "&"); (js "&#x26;", js "&");
   (js "&lt;", js "<"); (js "&#60;", js "<"); (js "&#x3C;", js "<");
   (js "&gt;", js ">"); (js "&#62;", js ">"); (js "&#x3E;", js ">");
   (js "&quot;", [34]); (js "&#34;", [34]); (js "&#x22;", [34]);
   (js "&apos;", js "'"); (js "&#39;", js "'"); (js "&#x27;", js "'")].

Definition entity_names : list (list Z) :=
  [js "amp"; js "#38"; js "#x26"; js "lt"; js "#60"; js "#x3C"; js "gt"; js "#62"; js "#x3E";
   js "apos"; js "#39"; js "#x27"; js "quot"; js "#34"; js "#x22"].

Definition entity_pattern : regex :=
  sequence [text (js "&"); alternatives entity_names; text (js ";")].

Definition unescapeHTML (string : list Z) : list Z :=
  replace_all true entity_pattern (fun m _ => as_text (get m unescaped)) string.

(** ** Patterns *)

(** The source text of [ns.shortnames]: every [+] escaped, joined by [|]. *)
Definition escape_plus (s : list Z) : list Z :=
  flat_map (fun c => if c =? 43 then [92; 43] else [c]) s.

Definition shortnames : list Z := join (js "|") (map (fun e => escape_plus (fst e)) emojioneList).

(** [<object[^>]*>.*?<\/object>|<span[^>]*>.*?<\/span>|<(?:object|embed|svg|img|div|span|p|a)[^>]*>|r]:
    what the four patterns have in front of their last alternative. *)
Definition after_tags (r : regex) : regex :=
  Alt (sequence [text (js "<object"); Star (NoneOf [62]); text (js ">"); LazyStar Dot; text (js "</object>")])
  (Alt (sequence [text (js "<span"); Star (NoneOf [62]); text (js ">"); LazyStar Dot; text (js "</span>")])
  (Alt (sequence [text (js "<");
                  alternatives [js "object"; js "embed"; js "svg"; js "img"; js "div"; js "span"; js "p"; js "a"];
                  Star (NoneOf [62]); text (js ">")])
  r)).

Definition regShortNames : regex := after_tags (Group 1 (alternatives (parse_alternatives shortnames))).

Definition regAscii : regex :=
  after_tags (Group 1 (sequence [
    Group 2 (Alt (Atom Space) Begin);
    Group 3 (alternatives (parse_alternatives asciiRegexp));
    Look (Alt (Atom Space) (Alt End (Atom (OneOf [33; 44; 46; 63]))))])).

Definition regUnicode : regex := after_tags (Group 1 (alternatives (parse_alternatives unicodeRegexp))).

Definition jsEscapeMap : list (list Z * list Z) := object jsEscapeMap_literal.

(** ** Reversed tables *)

(** The calls [addToMapStorage(unicode, shortname)] in their order. *)
Definition mapEmojioneList {S} (addToMapStorage : list Z -> list Z -> S -> S) (s : S) : S :=
  fold_left (fun s e =>
    fold_left (fun s u => addToMapStorage u (fst e) s) (unicode (snd e)) s) emojioneList s.

Definition mapUnicodeToShort (m : memo) : memo * list (list Z * list Z) :=
  match memMapShortToUnicode m with
  | Some o => (m, o)
  | None =>
      let o := mapEmojioneList (fun unicode shortname o => set unicode shortname o) [] in
      (Memo (Some o) (memMapShortToUnicodeCharacters m) (unicodeReplacementRegEx m), o)
  end.

(** [!s] of a string that may be undefined: the empty string is false. *)
Definition is_true (s : option (list Z)) : bool :=
  match s with Some (_ :: _) => true | _ => false end.

(** The callback of the loop: a canonical shortname is stored under its text, every text
    is pushed. *)
Definition addReplacement (unicode shortname : list Z)
    (s : list (list Z * list Z) * list (list Z)) : list (list Z * list Z) * list (list Z) :=
  let '(memMap, unicodeList) := s in
  let emojiCharacter := convert unicode in
  let memMap :=
    if match get shortname emojioneList with Some e => isCanonical e | None => false end
    then set emojiCharacter shortname memMap else memMap in
  (memMap, unicodeList ++ [emojiCharacter]).

Definition memoizeReplacement (m : memo) : memo :=
  if negb (is_true (unicodeReplacementRegEx m)) ||
     match memMapShortToUnicodeCharacters m with None => true | Some _ => false end
  then
    let s := mapEmojioneList addReplacement ([], []) in
    Memo (memMapShortToUnicode m) (Some (fst s)) (Some (join (js "|") (snd s)))
  else m.

Definition mapUnicodeCharactersToShort (m : memo) : memo * list (list Z * list Z) :=
  let m := memoizeReplacement m in
  (m, match memMapShortToUnicodeCharacters m with Some o => o | None => [] end).

Definition getUnicodeReplacementRegEx (m : memo) : memo * list Z :=
  let m := memoizeReplacement m in
  (m, match unicodeReplacementRegEx m with Some s => s | None => [] end).

Definition objectFlip (obj : list (list Z * list Z)) : list (list Z * list Z) :=
  fold_left (fun tmp_obj e => set (snd e) (fst e) tmp_obj) obj [].

(** The class [[-[\]{}()*+?.,;:&\\^$#\s]]. *)
Definition regexp_special (c : Z) : bool :=
  existsb (Z.eqb c) (js "-[]{}()*+?.,;:&\^$#") || is_space c.

Definition escapeRegExp (string : list Z) : list Z :=
  flat_map (fun c => if regexp_special c then [92; c] else [c]) string.

(** ** Replacements *)

(** [(typeof m1 === 'undefined') || (m1 === '')]. *)
Definition missing (m : option (list Z)) : bool := negb (is_true m).

Definition replaceAll (string find : list Z) (replacementList : list (list Z * list Z)) : list Z :=
  let escapedFind := escapeRegExp find in
  let search := after_tags (Group 1 (alternatives (parse_alternatives escapedFind))) in
  let replace := fun entire caps =>
    let m1 := capture 1 caps in
    if missing m1 then entire else as_text (get (as_text m1) replacementList) in
  replace_all true search replace string.

Definition toShort (m : memo) (str : list Z) : memo * list Z :=
  let '(m, find) := getUnicodeReplacementRegEx m in
  let '(m, replacementList) := mapUnicodeCharactersToShort m in
  (m, replaceAll str find replacementList).

(** [l[l.length - 1]] of a list of texts. *)
Definition last_code (l : list (list Z)) : list Z := last l undefined_text.

Definition shortnameToAscii (str : list Z) : list Z :=
  let unicodeToAscii := objectFlip asciiList in
  replace_all true regShortNames (fun shortname _ =>
    match get shortname emojioneList with
    | None => shortname
    | Some e =>
        match get (last_code (unicode e)) unicodeToAscii with
        | Some smiley => smiley
        | None => shortname
        end
    end) str.

Definition shortnameToUnicode (ns : settings) (str : list Z) : list Z :=
  let str := replace_all true regShortNames (fun shortname _ =>
    match get shortname emojioneList with
    | None => shortname
    | Some e => convert (toUpperCase (hd undefined_text (unicode e)))
    end) str in
  if ascii ns then
    replace_all false regAscii (fun entire caps =>
      let m2 := as_text (capture 2 caps) in
      let m3 := capture 3 caps in
      if missing m3 then entire
      else match get (unescapeHTML (as_text m3)) asciiList with
           | None => entire
           | Some unicode => m2 ++ convert (toUpperCase unicode)
           end) str
  else str.

Definition unifyUnicode (ns : settings) (m : memo) (str : list Z) : memo * list Z :=
  let '(m, str) := toShort m str in
  (m, shortnameToUnicode ns str).

Definition is_png (ns : settings) : bool := str_eqb (imageType ns) (js "png").

(** The callbacks of [shortnameToImage]: for a shortname and for a smiley. *)
Definition shortname_image (ns : settings) (shortname : list Z) : list Z :=
  match get shortname emojioneList with
  | None => shortname
  | Some e =>
      let unicode := last_code (unicode e) in
      let alt := if unicodeAlt ns then convert (toUpperCase unicode) else shortname in
      if is_png ns then
        if sprites ns
        then js_lit "<span class=\u0022emojione emojione-" ++ unicode ++ js_lit "\u0022 title=\u0022" ++ shortname
             ++ js_lit "\u0022>" ++ alt ++ js "</span>"
        else js_lit "<img class=\u0022emojione\u0022 alt=\u0022" ++ alt ++ js_lit "\u0022 src=\u0022" ++ imagePathPNG ns
             ++ unicode ++ js ".png" ++ cacheBustParam ns ++ js_lit "\u0022/>"
      else
        if sprites ns
        then js_lit "<svg class=\u0022emojione\u0022><description>" ++ alt ++ js_lit "</description><use xlink:href=\u0022"
             ++ imagePathSVGSprites ns ++ js "#emoji-" ++ unicode ++ js_lit "\u0022></use></svg>"
        else js_lit "<object class=\u0022emojione\u0022 data=\u0022" ++ imagePathSVG ns ++ unicode ++ js ".svg"
             ++ cacheBustParam ns ++ js_lit "\u0022 type=\u0022image/svg+xml\u0022 standby=\u0022" ++ alt ++ js_lit "\u0022>"
             ++ alt ++ js "</object>"
  end.

Definition smiley_image (ns : settings) (entire : list Z) (caps : list (nat * list Z)) : list Z :=
  let m2 := as_text (capture 2 caps) in
  let m3 := capture 3 caps in
  if missing m3 then entire
  else
    let m3 := unescapeHTML (as_text m3) in
    match get m3 asciiList with
    | None => entire
    | Some unicode =>
        let alt := if unicodeAlt ns then convert (toUpperCase unicode) else escapeHTML m3 in
        if is_png ns then
          if sprites ns
          then m2 ++ js_lit "<span class=\u0022emojione emojione-" ++ unicode ++ js_lit "\u0022 title=\u0022"
               ++ escapeHTML m3 ++ js_lit "\u0022>" ++ alt ++ js "</span>"
          else m2 ++ js_lit "<img class=\u0022emojione\u0022 alt=\u0022" ++ alt ++ js_lit "\u0022 src=\u0022"
               ++ imagePathPNG ns ++ unicode ++ js ".png" ++ cacheBustParam ns ++ js_lit "\u0022/>"
        else
          if sprites ns
          then js_lit "<svg class=\u0022emojione\u0022><description>" ++ alt
               ++ js_lit "</description><use xlink:href=\u0022" ++ imagePathSVGSprites ns ++ js "#emoji-" ++ unicode
               ++ js_lit "\u0022></use></svg>"
          else m2 ++ js_lit "<object class=\u0022emojione\u0022 data=\u0022" ++ imagePathSVG ns ++ unicode ++ js ".svg"
               ++ cacheBustParam ns ++ js_lit "\u0022 type=\u0022image/svg+xml\u0022 standby=\u0022" ++ alt
               ++ js_lit "\u0022>" ++ alt ++ js "</object>"
    end.

Definition shortnameToImage (ns : settings) (str : list Z) : list Z :=
  let str := replace_all true regShortNames (fun shortname _ => shortname_image ns shortname) str in
  if ascii ns then replace_all false regAscii (smiley_image ns) str else str.

(** The callback of [unicodeToImage]. *)
Definition unicode_image (ns : settings) (mappedUnicode : list (list Z * list Z)) (unicodeChar : list Z) : list Z :=
  match get unicodeChar jsEscapeMap with
  | None => unicodeChar
  | Some unicode =>
      let alt := if unicodeAlt ns then convert (toUpperCase unicode) else as_text (get unicode mappedUnicode) in
      if is_png ns then
        if sprites ns
        then js_lit "<span class=\u0022emojione emojione-" ++ unicode ++ js_lit "\u0022 title=\u0022"
             ++ as_text (get unicode mappedUnicode) ++ js_lit "\u0022>" ++ alt ++ js "</span>"
        else js_lit "<img class=\u0022emojione\u0022 alt=\u0022" ++ alt ++ js_lit "\u0022 src=\u0022" ++ imagePathPNG ns
             ++ unicode ++ js ".png" ++ cacheBustParam ns ++ js_lit "\u0022/>"
      else
        if sprites ns
        then js_lit "<svg class=\u0022emojione\u0022><description>" ++ alt ++ js_lit "</description><use xlink:href=\u0022"
             ++ imagePathSVGSprites ns ++ js "#emoji-" ++ unicode ++ js_lit "\u0022></use></svg>"
        else js_lit "<img class=\u0022emojione\u0022 alt=\u0022" ++ alt ++ js_lit "\u0022 src=\u0022" ++ imagePathSVG ns
             ++ unicode ++ js ".svg" ++ cacheBustParam ns ++ js_lit "\u0022/>"
  end.

Definition unicodeToImage (ns : settings) (m : memo) (str : list Z) : memo * list Z :=
  let mapped := if negb (unicodeAlt ns) || sprites ns then mapUnicodeToShort m else (m, []) in
  (fst mapped, replace_all true regUnicode (fun unicodeChar _ => unicode_image ns (snd mapped) unicodeChar) str).

Definition toImage (ns : settings) (m : memo) (str : list Z) : memo * list Z :=
  let '(m, str) := unicodeToImage ns m str in
  (m, shortnameToImage ns str).

End Emoji.
