(* ===== verification/EmojiTheory.v ===== *)
(** * emojione: what its functions do

    About src/src/qt/res/assets/plugins/emojione/emojione.js as modelled in Emoji.v: code
    points and texts, the agreement of the tables with the code, the round trips between
    shortnames and Unicode text, HTML escapes, and what replacement leaves alone. *)

From Stdlib Require Import ZArith Lia List String Bool.
From S2P Require Import Prelude Js Regex TableIndex EmojiTables Emoji.
Import ListNotations Emoji.
#[local] Open Scope Z_scope.

(** ** Code points: lemmas *)

(** Decides the comparisons that the context settles. *)
Ltac decide_leb :=
  repeat match goal with
  | |- context [?a <=? ?b] =>
      first [rewrite (proj2 (Z.leb_le a b)) by lia | rewrite (proj2 (Z.leb_gt a b)) by lia]
  end.

Lemma hex_value_upper c : hex_value (if (97 <=? c) && (c <=? 122) then c - 32 else c) = hex_value c.
Proof.
  destruct ((97 <=? c) && (c <=? 122)) eqn:E; [|easy].
  apply andb_prop in E as [E1 E2]. apply Z.leb_le in E1, E2. unfold hex_value.
  destruct (Z.le_gt_cases c 102); decide_leb; cbn [andb]; [f_equal; lia|easy].
Qed.

Lemma hex_prefix_upper a s : hex_prefix a (toUpperCase s) = hex_prefix a s.
Proof.
  revert a. induction s as [|c s IH]; intros a; [easy|]. cbn [toUpperCase map hex_prefix].
  rewrite hex_value_upper. destruct (hex_value c); [apply IH|easy].
Qed.

Lemma parseInt16_upper s : parseInt16 (toUpperCase s) = parseInt16 s.
Proof.
  destruct s as [|c s]; [easy|]. cbn [toUpperCase map parseInt16]. rewrite hex_value_upper.
  destruct (hex_value c); [|easy]. f_equal. apply hex_prefix_upper.
Qed.

Lemma upper_dash c : ((if (97 <=? c) && (c <=? 122) then c - 32 else c) =? 45) = (c =? 45).
Proof. destruct (Z.leb_spec 97 c), (Z.leb_spec c 122); cbn [andb]; lia. Qed.

Lemma split_upper cur s :
  map toUpperCase (split_from 45 cur s) = split_from 45 (toUpperCase cur) (toUpperCase s).
Proof.
  revert cur. induction s as [|c s IH]; intros cur; cbn [split_from toUpperCase map].
  - unfold toUpperCase. now rewrite map_rev.
  - rewrite upper_dash. destruct (c =? 45); [|apply (IH (c :: cur))].
    cbn [map]. f_equal; [|apply (IH [])]. unfold toUpperCase. now rewrite map_rev.
Qed.

(** [convert] reads upper and lower case digits alike. *)
Lemma convert_upper u : convert (toUpperCase u) = convert u.
Proof.
  unfold convert. rewrite parseInt16_upper.
  assert (He : existsb (Z.eqb 45) (toUpperCase u) = existsb (Z.eqb 45) u).
  { induction u as [|c u IH]; [easy|]. cbn [toUpperCase map existsb]. unfold toUpperCase in IH. rewrite IH.
    rewrite (Z.eqb_sym 45), upper_dash. now rewrite (Z.eqb_sym 45). }
  rewrite He. destruct (existsb (Z.eqb 45) u); [|easy]. unfold split.
  change [] with (toUpperCase []) at 1. rewrite <- split_upper, map_map. f_equal.
  apply map_ext. intros p. now rewrite parseInt16_upper.
Qed.

(** ** Patterns behind the HTML alternatives *)

Definition not_lt (s : list Z) : Prop := hd 0 s <> 60.

Lemma tag_text_fails ic p k st : not_lt (rest st) -> run ic (text (60 :: p)) k st = None.
Proof.
  intros H. rewrite run_text. destruct st as [b s c]. cbn [rest] in *. destruct s as [|x s]; [easy|].
  cbn [strip]. rewrite same_char_lt. unfold not_lt in H. cbn in H. now rewrite (proj2 (Z.eqb_neq 60 x)) by lia.
Qed.

(** Where the text does not start with ['<'] only the last alternative counts. *)
Lemma after_tags_other ic r k st : not_lt (rest st) -> run ic (after_tags r) k st = run ic r k st.
Proof.
  intros H. unfold after_tags. rewrite !run_alt. cbn [sequence]. 
  change (js "<object") with (60 :: js "object"). change (js "<span") with (60 :: js "span").
  change (js "<") with [60].
  repeat match goal with |- context [run ic (Seq (text ?p) ?r) k st] =>
    change (run ic (Seq (text p) r) k st) with (run ic (text p) (run ic r k) st) end.
  rewrite !tag_text_fails by easy. reflexivity.
Qed.

(** Texts that no other text of a list reads as under the case flag. *)
Definition case_distinct (l : list (list Z)) : Prop :=
  forall p q x y, In p l -> In q l -> In x p -> In y q -> canonicalize x = canonicalize y -> x = y.

Lemma strip_distinct p s : (forall x y, In x p -> In y s -> canonicalize x = canonicalize y -> x = y) ->
  strip true p s = strip false p s.
Proof.
  revert s. induction p as [|x p IH]; intros [|y s] H; try reflexivity. cbn [strip same_char].
  rewrite IH by (intros; apply H; [right|right|]; easy).
  destruct (Z.eqb_spec x y) as [->|N]; [now rewrite Z.eqb_refl|].
  destruct (Z.eqb_spec (canonicalize x) (canonicalize y)) as [E|]; [|easy].
  apply H in E; [easy|now left|now left].
Qed.

Lemma strip_first_distinct l l' a : incl l l' -> case_distinct l' -> In a l' ->
  strip_first true l a = strip_first false l a.
Proof.
  intros Hi Hd Ha. induction l as [|p l IH]; [easy|]. cbn [strip_first].
  rewrite strip_distinct.
  - rewrite IH; [easy|]. intros x Hx. apply Hi. now right.
  - intros x y Hx Hy. apply (Hd p a); [apply Hi; now left|easy|easy|easy].
Qed.

(** What a pattern [...|(alternatives)] needs of its alternatives. *)
Record pattern_ok (l : list (list Z)) : Prop := {
  pattern_ordered : alternatives_ordered l = true;
  pattern_distinct : case_distinct l;
  pattern_heads : Forall not_lt l;
  pattern_nonempty : Forall (fun p => p <> []) l
}.

Lemma alternatives_at ic l b s : l <> [] -> Forall (fun p => p <> []) l -> not_lt s ->
  matches_at ic (after_tags (Group 1 (alternatives l))) b s =
  match strip_first ic l s with
  | Some t => Some {| at_start := false; rest := t; captures := [(1%nat, consumed s t)] |}
  | None => None
  end.
Proof.
  intros Hl Hne Hs. unfold matches_at. rewrite after_tags_other by easy. cbn [run].
  rewrite run_alternatives by easy. cbn [rest captures at_start]. now destruct (strip_first ic l s).
Qed.

(** A text that is an alternative is replaced as a whole. *)
Lemma replace_whole l f a : pattern_ok l -> In a l ->
  replace_all true (after_tags (Group 1 (alternatives l))) f a = f a [(1%nat, a)].
Proof.
  intros [Ho Hd Hh Hn] Ha. assert (Hl : l <> []) by (now destruct l).
  rewrite Forall_forall in Hh. pose proof (Hh a Ha) as Hlt.
  assert (Ha0 : a <> []) by (rewrite Forall_forall in Hn; now apply Hn).
  unfold replace_all. rewrite <- (app_nil_r a) at 1.
  rewrite (replace_match _ _ _ _ a [] {| at_start := false; rest := []; captures := [(1%nat, a)] |}); [|easy| |easy].
  - cbn [captures replace_from]. rewrite (alternatives_at _ _ _ []), strip_first_none by
      (easy || (intros p Hp; rewrite Forall_forall in Hn; specialize (Hn p Hp); now destruct p)).
    now rewrite app_nil_r.
  - rewrite app_nil_r, alternatives_at, (strip_first_distinct l l a), alternatives_ordered_first by easy.
    pose proof (consumed_app a []) as Hc. rewrite app_nil_r in Hc. now rewrite Hc.
Qed.

(** ** The tables, checked *)

(** The codes of the list with the shortname they stand under, in the order of the loops. *)
Definition code_pairs : list (list Z * list Z) :=
  flat_map (fun e => map (fun u => (u, fst e)) (unicode (snd e))) emojioneList.

(** Those of the canonical entries. *)
Definition canonical_codes : list (list Z * list Z) :=
  flat_map (fun e => if isCanonical (snd e) then map (fun u => (u, fst e)) (unicode (snd e)) else []) emojioneList.

Definition canonical_characters : list (list Z * list Z) :=
  map (fun p => (convert (fst p), snd p)) canonical_codes.

Definition characters : list (list Z) := map (fun p => convert (fst p)) code_pairs.

(** No two values for a key, and no key twice. *)
Definition never {A} (_ _ : A) : bool := false.

Lemma names_once : builds never emojioneList = true.
Proof. vm_compute. reflexivity. Qed.

Lemma canonical_codes_once : builds never canonical_codes = true.
Proof. vm_compute. reflexivity. Qed.

Lemma canonical_characters_once : builds never canonical_characters = true.
Proof. vm_compute. reflexivity. Qed.

(** Every code is found in an index. *)
Definition all_found (m : option (@index (list Z))) : bool :=
  forallb (fun p => match lookup (fst p) m with Some _ => true | None => false end) code_pairs.

Lemma every_code_has_canonical_name : all_found (build never canonical_codes) = true.
Proof. vm_compute. reflexivity. Qed.

Lemma characters_ordered : alternatives_ordered characters = true.
Proof. vm_compute. reflexivity. Qed.

(** An alternative that is a text of its own: not empty, no ['|'], no ['<'] as in a tag, and
    its characters are their own upper case. *)
Definition plain_alternative (p : list Z) : bool :=
  match p with
  | [] => false
  | _ => forallb (fun c => negb (c =? 60) && negb (c =? 124) && caseless c) p
  end.

Lemma characters_plain : forallb plain_alternative characters = true.
Proof. vm_compute. reflexivity. Qed.

Lemma names_ordered : alternatives_ordered (map fst emojioneList) = true.
Proof. vm_compute. reflexivity. Qed.

(** Shortnames: not empty, and made of [:], [+], [-], [_], digits and lower case letters. *)
Definition plain_name (p : list Z) : bool :=
  match p with
  | [] => false
  | _ => forallb (fun c => (c =? 58) || (c =? 43) || (c =? 45) || (c =? 95) ||
                           ((48 <=? c) && (c <=? 57)) || ((97 <=? c) && (c <=? 122))) p
  end.

Lemma names_plain : forallb (fun e => plain_name (fst e)) emojioneList = true.
Proof. vm_compute. reflexivity. Qed.

(** ** Conversions of whole texts *)

Lemma never_ok {A} (a b : A) : never a b = true -> a = b.
Proof. easy. Qed.

Lemma entries_functional : functional emojioneList.
Proof. exact (builds_functional never never_ok _ names_once). Qed.

Lemma get_entry e : In e emojioneList -> get (fst e) emojioneList = Some (snd e).
Proof. intros H. apply functional_get; [apply entries_functional|]. now destruct e. Qed.

Lemma fold_left_flat_map {A B C} (f : C -> B -> C) (g : A -> list B) l c :
  fold_left f (flat_map g l) c = fold_left (fun c a => fold_left f (g a) c) l c.
Proof. revert c. induction l as [|a l IH]; intros c; [easy|]. cbn. now rewrite fold_left_app, IH. Qed.

Lemma fold_left_map' {A B C} (f : C -> B -> C) (g : A -> B) l c :
  fold_left f (map g l) c = fold_left (fun c a => f c (g a)) l c.
Proof. revert c. induction l as [|a l IH]; intros c; [easy|]. cbn. apply IH. Qed.

(** The loops of [mapEmojioneList] visit [code_pairs]. *)
Lemma mapEmojioneList_fold {S} (f : list Z -> list Z -> S -> S) s :
  mapEmojioneList f s = fold_left (fun s p => f (fst p) (snd p) s) code_pairs s.
Proof.
  unfold mapEmojioneList, code_pairs. rewrite fold_left_flat_map. 
  generalize emojioneList. intros l. revert s. induction l as [|e l IH]; intros s; [easy|]. cbn.
  rewrite IH. f_equal. now rewrite fold_left_map'.
Qed.

(** Whether a shortname stands for its codes, as the loop asks. *)
Definition canonical_name (n : list Z) : bool :=
  match get n emojioneList with Some e => isCanonical e | None => false end.

(** The two results of the loop: the assignments and the pushed texts. *)
Lemma memoize_fold l o t :
  fold_left (fun s p => addReplacement (fst p) (snd p) s) l (o, t) =
  (fold_left (fun o e => set (fst e) (snd e) o)
     (map (fun p => (convert (fst p), snd p)) (filter (fun p => canonical_name (snd p)) l)) o,
   t ++ map (fun p => convert (fst p)) l).
Proof.
  revert o t. induction l as [|p l IH]; intros o t; cbn [fold_left map filter].
  - now rewrite app_nil_r.
  - unfold addReplacement at 2. fold (canonical_name (snd p)). cbv zeta.
    rewrite IH, <- app_assoc. destruct (canonical_name (snd p)); reflexivity.
Qed.

Lemma filter_canonical : filter (fun p => canonical_name (snd p)) code_pairs = canonical_codes.
Proof.
  unfold code_pairs, canonical_codes.
  assert (H : incl emojioneList emojioneList) by apply incl_refl. revert H.
  generalize emojioneList at 1 3 4. intros l. induction l as [|e l IH]; intros H; [easy|].
  cbn [flat_map]. rewrite filter_app, IH by (intros x Hx; apply H; now right). f_equal.
  pose proof (get_entry e (H e (or_introl eq_refl))) as G.
  induction (unicode (snd e)) as [|u us IHu].
  - now destruct (isCanonical (snd e)).
  - cbn [map filter snd]. unfold canonical_name at 1. rewrite G, IHu. now destruct (isCanonical (snd e)).
Qed.

#[local] Opaque emojioneList code_pairs canonical_codes characters.

Lemma memoize_first : memoizeReplacement no_memo =
  Memo None (Some (object canonical_characters)) (Some (join (js "|") characters)).
Proof.
  unfold memoizeReplacement. cbn [no_memo unicodeReplacementRegEx is_true negb orb memMapShortToUnicode].
  rewrite mapEmojioneList_fold, memoize_fold, filter_canonical. reflexivity.
Qed.

(** ** Unicode text to shortnames *)

Lemma plain_alternative_spec p : plain_alternative p = true ->
  p <> [] /\ forall x, In x p -> canonicalize x = x /\ x <> 60 /\ x <> 124.
Proof.
  intros H. destruct p as [|c p]; [easy|]. split; [easy|]. intros x Hx. unfold plain_alternative in H.
  rewrite forallb_forall in H. specialize (H x Hx). unfold caseless in H.
  rewrite !andb_true_iff, !negb_true_iff, !Z.eqb_neq, Z.eqb_eq in H. tauto.
Qed.

Lemma plain_alternatives_ok l : l <> [] -> alternatives_ordered l = true ->
  forallb plain_alternative l = true -> pattern_ok l.
Proof.
  intros Hl Ho Hp. rewrite forallb_forall in Hp.
  assert (H : forall p, In p l -> p <> [] /\ forall x, In x p -> canonicalize x = x /\ x <> 60).
  { intros p Hi. apply Hp, plain_alternative_spec in Hi as [H0 H]. split; [easy|]. intros x Hx. now apply H in Hx. }
  split; [easy| | |].
  - intros p q x y Hpl Hql Hx Hy. apply H in Hpl, Hql.
    now rewrite (proj1 (proj2 Hpl x Hx)), (proj1 (proj2 Hql y Hy)).
  - apply Forall_forall. intros p Hi. apply H in Hi as [H0 Hi]. destruct p as [|c p]; [easy|].
    apply (Hi c). now left.
  - apply Forall_forall. intros p Hi. now apply H.
Qed.

Lemma plain_no_bar l : forallb plain_alternative l = true -> Forall (Forall (fun c => c <> 124)) l.
Proof.
  rewrite forallb_forall. intros H. apply Forall_forall. intros p Hp.
  apply H, plain_alternative_spec in Hp as [_ Hp]. apply Forall_forall. intros x Hx. now apply Hp in Hx.
Qed.

(** Escaping a joined list for [RegExp] and reading the pattern gives the list back. *)
Lemma escapeRegExp_join l : l <> [] -> Forall (Forall (fun c => c <> 124)) l ->
  parse_alternatives (escapeRegExp (join (js "|") l)) = l.
Proof.
  intros Hl H. change (escapeRegExp (join (js "|") l)) with (quote regexp_special (join [124] l)).
  rewrite quote_join by reflexivity. now apply parse_join.
Qed.

Lemma characters_nonempty : characters <> [].
Proof. intros H. apply (f_equal (@List.length _)) in H. vm_compute in H. discriminate H. Qed.

Lemma characters_ok : pattern_ok characters.
Proof. apply plain_alternatives_ok; [apply characters_nonempty|exact characters_ordered|exact characters_plain]. Qed.

(** What [toShort] computes, without the memo. *)
Definition short_text (str : list Z) : list Z :=
  replaceAll str (join (js "|") characters) (object canonical_characters).

Lemma characters_joined : join (js "|") characters <> [].
Proof.
  pose proof characters_plain as H. pose proof characters_nonempty as H0.
  destruct characters as [|[|c p] [|q l]]; easy.
Qed.

(** A filled memo is kept. *)
Lemma memoize_again a o s : s <> [] -> memoizeReplacement (Memo a (Some o) (Some s)) = Memo a (Some o) (Some s).
Proof. now destruct s. Qed.

Lemma toShort_memo a o s str : s <> [] ->
  toShort (Memo a (Some o) (Some s)) str = (Memo a (Some o) (Some s), replaceAll str s o).
Proof.
  intros H. unfold toShort, getUnicodeReplacementRegEx, mapUnicodeCharactersToShort.
  now rewrite !memoize_again.
Qed.

(** What [memoizeReplacement] leaves: the memo as it was, or freshly filled. *)
Lemma memoize_cases m : memoizeReplacement m = m \/
  memoizeReplacement m =
    Memo (memMapShortToUnicode m) (Some (object canonical_characters)) (Some (join (js "|") characters)).
Proof.
  unfold memoizeReplacement. destruct (negb _ || _); [right|now left].
  rewrite mapEmojioneList_fold, memoize_fold, filter_canonical. reflexivity.
Qed.

Lemma memoize_idempotent m : memoizeReplacement (memoizeReplacement m) = memoizeReplacement m.
Proof.
  destruct (memoize_cases m) as [E|E]; rewrite E; [exact E|]. apply memoize_again, characters_joined.
Qed.

Lemma toShort_filled m str : toShort m str = toShort (memoizeReplacement m) str.
Proof. unfold toShort, getUnicodeReplacementRegEx. now rewrite memoize_idempotent. Qed.

Lemma toShort_first str : snd (toShort no_memo str) = short_text str.
Proof. rewrite toShort_filled, memoize_first, toShort_memo by apply characters_joined. reflexivity. Qed.

#[local] Transparent code_pairs canonical_codes characters.

Lemma code_pair_in e u : In e emojioneList -> In u (unicode (snd e)) -> In (u, fst e) code_pairs.
Proof.
  intros He Hu. unfold code_pairs. apply in_flat_map. exists e. split; [easy|].
  apply in_map_iff. now exists u.
Qed.

Lemma canonical_code_in e u : In e emojioneList -> isCanonical (snd e) = true -> In u (unicode (snd e)) ->
  In (u, fst e) canonical_codes.
Proof.
  intros He Hc Hu. unfold canonical_codes. apply in_flat_map. exists e. split; [easy|].
  rewrite Hc. apply in_map_iff. now exists u.
Qed.

Lemma canonical_code_inv u n : In (u, n) canonical_codes ->
  exists e, In e emojioneList /\ isCanonical (snd e) = true /\ In u (unicode (snd e)) /\ fst e = n.
Proof.
  intros H. apply in_flat_map in H as (e & He & H). exists e. destruct (isCanonical (snd e)); [|easy].
  apply in_map_iff in H as (u' & E & Hu). injection E as -> <-. now splits.
Qed.

(** Every code of the list belongs to one canonical entry. *)
Lemma canonical_entry u n : In (u, n) code_pairs ->
  exists e, In e emojioneList /\ isCanonical (snd e) = true /\ In u (unicode (snd e)).
Proof.
  intros H. pose proof every_code_has_canonical_name as T. unfold all_found in T.
  rewrite forallb_forall in T. specialize (T _ H). cbn [fst] in T.
  destruct (lookup u (build never canonical_codes)) as [m|] eqn:E; [|easy].
  apply (lookup_in never never_ok) in E. apply canonical_code_inv in E as (e & He & Hc & Hu & _).
  now exists e.
Qed.

Lemma canonical_entry_unique u e e' : In e emojioneList -> In e' emojioneList ->
  isCanonical (snd e) = true -> isCanonical (snd e') = true ->
  In u (unicode (snd e)) -> In u (unicode (snd e')) -> e = e'.
Proof.
  intros He He' Hc Hc' Hu Hu'.
  assert (E : fst e = fst e').
  { apply (builds_functional never never_ok _ canonical_codes_once u); now apply canonical_code_in. }
  pose proof (get_entry e He) as G. rewrite E, (get_entry e' He') in G.
  destruct e, e'. cbn in *. congruence.
Qed.

(** The text of a code is one of the alternatives; [toShort] gives it the name of the
    canonical entry. *)
Lemma short_text_code e u : In e emojioneList -> isCanonical (snd e) = true -> In u (unicode (snd e)) ->
  short_text (convert u) = fst e.
Proof.
  intros He Hc Hu. unfold short_text, replaceAll.
  rewrite escapeRegExp_join by (apply characters_nonempty || apply plain_no_bar, characters_plain).
  assert (Ha : In (convert u) characters)
    by (unfold characters; apply (in_map (fun p => convert (fst p)) _ (u, fst e)), code_pair_in; easy).
  rewrite (replace_whole characters); [|apply characters_ok|exact Ha].
  cbn [capture Nat.eqb]. destruct (convert u) as [|c t] eqn:E.
  - destruct characters_ok as [_ _ _ Hn]. rewrite Forall_forall in Hn. now destruct (Hn [] Ha).
  - cbn [missing is_true negb as_text]. rewrite <- E.
    rewrite (functional_object canonical_characters (convert u) (fst e)); [easy| |].
    + exact (builds_functional never never_ok _ canonical_characters_once).
    + apply (in_map (fun p => (convert (fst p), snd p)) _ (u, fst e)). now apply canonical_code_in.
Qed.

(** ** Shortnames to Unicode text *)

Lemma plain_name_char p c : plain_name p = true -> In c p ->
  c = 58 \/ c = 43 \/ c = 45 \/ c = 95 \/ 48 <= c <= 57 \/ 97 <= c <= 122.
Proof.
  intros H Hc. unfold plain_name in H. destruct p as [|d p]; [easy|]. rewrite forallb_forall in H.
  specialize (H c Hc). rewrite !orb_true_iff, !andb_true_iff, !Z.eqb_eq, !Z.leb_le in H. lia.
Qed.

Lemma canonicalize_name c : c = 58 \/ c = 43 \/ c = 45 \/ c = 95 \/ 48 <= c <= 57 \/ 97 <= c <= 122 ->
  canonicalize c = if 97 <=? c then c - 32 else c.
Proof.
  intros H. unfold canonicalize. destruct (Z.leb_spec 97 c).
  - rewrite (proj2 (Z.leb_le c 122)) by lia. easy.
  - cbn [andb]. rewrite (proj2 (Z.eqb_neq c 0x24DC)) by lia. easy.
Qed.

Definition names : list (list Z) := map fst emojioneList.

Lemma names_plain' : Forall (fun p => plain_name p = true) names.
Proof.
  apply Forall_forall. intros p Hp. apply in_map_iff in Hp as (e & <- & He).
  pose proof names_plain as T. rewrite forallb_forall in T. now apply T.
Qed.

Lemma names_ok : pattern_ok names.
Proof.
  pose proof names_plain' as T. rewrite Forall_forall in T. split.
  - exact names_ordered.
  - intros p q x y Hp Hq Hx Hy. apply T in Hp, Hq.
    pose proof (plain_name_char p x Hp Hx) as Cx. pose proof (plain_name_char q y Hq Hy) as Cy.
    rewrite !canonicalize_name by easy. destruct (Z.leb_spec 97 x), (Z.leb_spec 97 y); lia.
  - apply Forall_forall. intros p Hp. apply T in Hp. destruct p as [|c p]; [easy|].
    pose proof (plain_name_char _ c Hp (or_introl eq_refl)). unfold not_lt. cbn. lia.
  - apply Forall_forall. intros p Hp. apply T in Hp. now destruct p.
Qed.

Lemma escape_plus_quote p : plain_name p = true ->
  escape_plus p = quote (fun c => (c =? 43) || (c =? 92)) p.
Proof.
  intros H. unfold escape_plus, quote. rewrite !flat_map_concat_map. f_equal. apply map_ext_in.
  intros c Hc. apply (plain_name_char p c H) in Hc.
  destruct (Z.eqb_spec c 43) as [->|N]; [easy|]. now rewrite (proj2 (Z.eqb_neq c 92)) by lia.
Qed.

Lemma names_nonempty : names <> [].
Proof. intros H. apply (f_equal (@List.length _)) in H. vm_compute in H. discriminate H. Qed.

Lemma parse_shortnames : parse_alternatives shortnames = names.
Proof.
  unfold shortnames. rewrite <- (map_map fst escape_plus). fold names.
  pose proof names_plain' as T.
  rewrite (map_ext_in _ (quote (fun c => (c =? 43) || (c =? 92)))).
  - apply parse_join; [easy|easy|apply names_nonempty|].
    revert T. apply Forall_impl. intros p Hp. apply Forall_forall. intros c Hc.
    apply (plain_name_char p c Hp) in Hc. lia.
  - rewrite Forall_forall in T. intros p Hp. now apply escape_plus_quote, T.
Qed.

(** What the callbacks of the pattern of shortnames do to a shortname of the list. *)
Lemma replace_shortname f e : In e emojioneList ->
  replace_all true regShortNames f (fst e) = f (fst e) [(1%nat, fst e)].
Proof.
  intros He. unfold regShortNames. rewrite parse_shortnames.
  apply replace_whole; [apply names_ok|]. now apply in_map.
Qed.

Definition smileys : list (list Z) := parse_alternatives asciiRegexp.

(** Nowhere in a text does a smiley or a tag start. *)
Fixpoint no_smiley (s : list Z) : bool :=
  match s with
  | [] => true
  | c :: s' =>
      ((256 <=? c) || negb (c =? 60) && match strip_first false smileys s with None => true | Some _ => false end)
      && negb (is_space c) && no_smiley s'
  end.

Lemma smileys_low : forallb (fun p => match p with c :: _ => c <? 256 | [] => false end) smileys = true.
Proof. vm_compute. reflexivity. Qed.

Lemma emoji_no_smiley :
  forallb (fun e => no_smiley (convert (hd undefined_text (unicode (snd e))))) emojioneList = true.
Proof. vm_compute. reflexivity. Qed.

Lemma smiley_high c s : 256 <= c -> strip_first false smileys (c :: s) = None.
Proof.
  intros Hc. apply strip_first_none. intros p Hp. pose proof smileys_low as T. rewrite forallb_forall in T.
  apply T in Hp. destruct p as [|x p]; [easy|]. apply Z.ltb_lt in Hp. cbn [strip same_char].
  now rewrite (proj2 (Z.eqb_neq x c)) by lia.
Qed.

Lemma no_smiley_head s : no_smiley s = true -> not_lt s /\ strip_first false smileys s = None.
Proof.
  destruct s as [|c s].
  - intros _. split; [easy|]. apply strip_first_none. intros p Hp. pose proof smileys_low as T.
    rewrite forallb_forall in T. apply T in Hp. now destruct p.
  - cbn [no_smiley]. rewrite !andb_true_iff, orb_true_iff, andb_true_iff, Z.leb_le. intros [[[H|[H1 H2]] _] _].
    + split; [unfold not_lt; cbn; lia|now apply smiley_high].
    + split.
      * unfold not_lt. cbn. intros ->. easy.
      * now destruct (strip_first false smileys (c :: s)).
Qed.

Lemma smileys_nonempty : smileys <> [] /\ Forall (fun p => p <> []) smileys.
Proof.
  split.
  - intros H. apply (f_equal (@List.length _)) in H. vm_compute in H. discriminate H.
  - apply Forall_forall. intros p Hp. pose proof smileys_low as T. rewrite forallb_forall in T.
    apply T in Hp. now destruct p.
Qed.

Lemma regAscii_eq : regAscii = after_tags (Group 1 (sequence [
    Group 2 (Alt (Atom Space) Begin); Group 3 (alternatives smileys);
    Look (Alt (Atom Space) (Alt End (Atom (OneOf [33; 44; 46; 63]))))])).
Proof. unfold regAscii, smileys. reflexivity. Qed.

#[local] Opaque smileys.

(** Where no smiley follows, [regAscii] does not match. *)
Lemma regAscii_fails b s : not_lt s -> strip_first false smileys s = None -> is_space (hd 0 s) = false ->
  matches_at false regAscii b s = None.
Proof.
  intros Hlt Hs Hsp. unfold matches_at. rewrite regAscii_eq, after_tags_other by easy.
  rewrite run_group. cbn [sequence]. rewrite run_seq, run_group, run_alt.
  assert (H3 : forall st k r, rest st = s -> run false (Seq (Group 3 (alternatives smileys)) r) k st = None).
  { intros st k r E. rewrite run_seq, run_group. apply run_alternatives_none; [apply smileys_nonempty|]. now rewrite E. }
  assert (H1 : forall k, run false (Atom Space) k {| at_start := b; rest := s; captures := [] |} = None).
  { intros k. cbn [run rest atom_matches]. destruct s as [|c s]; [easy|]. cbn [hd] in Hsp. now rewrite Hsp. }
  rewrite H1, run_begin. cbn [orelse at_start]. destruct b; [|easy]. now apply H3.
Qed.

Lemma no_smiley_suffix a s : no_smiley (a ++ s) = true -> no_smiley s = true.
Proof.
  induction a as [|c a IH]; [easy|]. cbn [app no_smiley]. rewrite !andb_true_iff. intros [_ H]. now apply IH.
Qed.

Lemma replace_no_smiley f s : no_smiley s = true -> replace_all false regAscii f s = s.
Proof.
  intros H. apply replace_none. intros b a t -> _. apply no_smiley_suffix in H.
  destruct (no_smiley_head t H). apply regAscii_fails; try easy.
  destruct t as [|c t]; [easy|]. cbn [no_smiley] in H. rewrite !andb_true_iff in H.
  cbn [hd]. destruct H as [[_ H] _]. now destruct (is_space c).
Qed.

(** A shortname becomes the text of its first code. *)
Lemma shortname_text ns e : In e emojioneList ->
  shortnameToUnicode ns (fst e) = convert (hd undefined_text (unicode (snd e))).
Proof.
  intros He. unfold shortnameToUnicode. rewrite replace_shortname, get_entry, convert_upper by easy.
  destruct (ascii ns); [|easy]. apply replace_no_smiley.
  pose proof emoji_no_smiley as T. rewrite forallb_forall in T. now apply T.
Qed.

(** ** UTF-16 *)

(** Decoding of UTF-16: a high surrogate followed by a low one is one code point. *)
Fixpoint utf16_decode (s : list Z) : list Z :=
  match s with
  | [] => []
  | c :: s' =>
      match s' with
      | d :: s'' =>
          if (0xD800 <=? c) && (c <? 0xDC00) && ((0xDC00 <=? d) && (d <? 0xE000))
          then (0x10000 + (c - 0xD800) * 0x400 + (d - 0xDC00)) :: utf16_decode s''
          else c :: utf16_decode s'
      | [] => [c]
      end
  end.

(** A code point that is not a surrogate. *)
Definition scalar (c : Z) : Prop := 0 <= c < 0xD800 \/ 0xE000 <= c <= 0x10FFFF.

Lemma decode_part c s : scalar c -> utf16_decode (convert_part (Some c) ++ s) = c :: utf16_decode s.
Proof.
  intros H. unfold convert_part, fromCharCode. destruct ((0x10000 <=? c) && (c <=? 0x10FFFF)) eqn:E.
  - apply andb_prop in E as [E1 E2]. apply Z.leb_le in E1, E2. cbn [app].
    assert (0 <= (c - 0x10000) / 0x400 < 0x400) by (split; [apply Z.div_pos; lia|apply Z.div_lt_upper_bound; lia]).
    pose proof (Z.mod_pos_bound (c - 0x10000) 0x400 ltac:(lia)).
    rewrite !Z.mod_small by lia. cbn [utf16_decode].
    rewrite (proj2 (Z.leb_le 0xD800 _)), (proj2 (Z.ltb_lt _ 0xDC00)), (proj2 (Z.leb_le 0xDC00 _)),
      (proj2 (Z.ltb_lt _ 0xE000)) by lia.
    cbn [andb]. f_equal. pose proof (Z.div_mod (c - 0x10000) 0x400). lia.
  - assert (Hc : c < 0x10000) by (apply andb_false_iff in E; unfold scalar in H; destruct E as [E|E]; apply Z.leb_gt in E; lia).
    cbn [app]. unfold scalar in H. rewrite Z.mod_small by lia. cbn [utf16_decode].
    replace ((0xD800 <=? c) && (c <? 0xDC00)) with false
      by (symmetry; apply andb_false_iff; rewrite Z.leb_gt, Z.ltb_ge; lia).
    cbn [andb]. now destruct s.
Qed.

Lemma decode_parts l s : Forall scalar l ->
  utf16_decode (List.concat (map (fun c => convert_part (Some c)) l) ++ s) = l ++ utf16_decode s.
Proof.
  intros H. induction H as [|c l Hc H IH]; [easy|]. cbn [map List.concat]. rewrite <- app_assoc, decode_part by easy.
  cbn [app]. f_equal. exact IH.
Qed.

Lemma split_no_sep c cur s : existsb (Z.eqb c) s = false -> split_from c cur s = [rev cur ++ s].
Proof.
  revert cur. induction s as [|x s IH]; intros cur H; cbn [split_from]; [now rewrite app_nil_r|].
  cbn [existsb] in H. apply orb_false_iff in H as [H1 H2]. rewrite Z.eqb_sym, H1, IH by easy.
  cbn. now rewrite <- app_assoc.
Qed.

(** [convert], whichever branch it takes. *)
Lemma convert_split u : convert u = List.concat (map (fun p => convert_part (parseInt16 p)) (split 45 u)).
Proof.
  unfold convert. destruct (existsb (Z.eqb 45) u) eqn:E; [easy|].
  unfold split. rewrite split_no_sep by easy. cbn. now rewrite app_nil_r.
Qed.

(** C21: [convert] is UTF-16: where every part of a code between dashes is the hexadecimal
    number of a code point other than a surrogate, decoding the text that [convert] returns
    gives these code points back, in their order; so codes of different code points have
    different texts. *)
Theorem convert_is_utf16 u cps : map parseInt16 (split 45 u) = map Some cps -> Forall scalar cps ->
  utf16_decode (convert u) = cps.
Proof.
  intros H Hs. rewrite convert_split, <- (map_map parseInt16 convert_part), H, map_map.
  pose proof (decode_parts cps [] Hs) as D. rewrite !app_nil_r in D. exact D.
Qed.

Lemma convert_is_utf16_witness :
  utf16_decode (convert (js "1f468-200d-2764")) = [0x1f468; 0x200d; 0x2764].
Proof.
  refine (@convert_is_utf16 (js "1f468-200d-2764") [0x1f468; 0x200d; 0x2764] eq_refl _).
  unfold scalar. repeat constructor; lia.
Defined.

(** ** Round trips *)

Lemma codes_nonempty : forallb (fun e => match unicode (snd e) with [] => false | _ => true end) emojioneList = true.
Proof. vm_compute. reflexivity. Qed.

Lemma first_code_in e : In e emojioneList -> In (hd undefined_text (unicode (snd e))) (unicode (snd e)).
Proof.
  intros H. pose proof codes_nonempty as T. rewrite forallb_forall in T. specialize (T e H).
  destruct (unicode (snd e)); [easy|]. now left.
Qed.

(** C19: Every code sequence of [emojioneList] has exactly one canonical entry, and [toShort]
    turns its text into the shortname of that entry: no alternative of the generated
    pattern hides a longer one, and escaping the pattern keeps the texts apart. *)
Theorem toShort_canonical e u : In e emojioneList -> In u (unicode (snd e)) ->
  exists c, In c emojioneList /\ isCanonical (snd c) = true /\ In u (unicode (snd c)) /\
    (forall c', In c' emojioneList -> isCanonical (snd c') = true -> In u (unicode (snd c')) -> c' = c) /\
    snd (toShort no_memo (convert u)) = fst c.
Proof.
  intros He Hu. destruct (canonical_entry u (fst e)) as (c & Hc & Hcan & Huc); [now apply code_pair_in|].
  exists c. splits; try easy.
  - intros c' Hc' Hcan' Hu'. now apply (canonical_entry_unique u).
  - rewrite toShort_first. now apply short_text_code.
Qed.

(** C20: Shortnames and Unicode text are inverse on the list: [shortnameToUnicode] turns the
    shortname of an entry into the text of its first code under every setting, and
    [toShort] turns that text into the canonical shortname of the code, which is the
    shortname itself for a canonical entry. *)
Theorem shortname_roundtrip ns e : In e emojioneList ->
  shortnameToUnicode ns (fst e) = convert (hd undefined_text (unicode (snd e))) /\
  exists c, In c emojioneList /\ isCanonical (snd c) = true /\
    In (hd undefined_text (unicode (snd e))) (unicode (snd c)) /\
    snd (toShort no_memo (shortnameToUnicode ns (fst e))) = fst c /\
    (isCanonical (snd e) = true -> c = e).
Proof.
  intros He. rewrite shortname_text by easy. split; [easy|]. pose proof (first_code_in e He) as Hu.
  destruct (canonical_entry _ (fst e) (code_pair_in e _ He Hu)) as (c & Hc & Hcan & Huc).
  exists c. splits; try easy.
  - rewrite toShort_first. now apply short_text_code.
  - intros Hce. now apply (canonical_entry_unique _ c e Hc He Hcan Hce Huc).
Qed.

Lemma kiss_entry : nth_error emojioneList 0 = Some (entry ":kiss_ww:"
  ["1f469-200d-2764-fe0f-200d-1f48b-200d-1f469"; "1f469-2764-1f48b-1f469"] true)%string.
Proof. reflexivity. Qed.

Lemma toShort_canonical_witness :
  exists c, In c emojioneList /\ isCanonical (snd c) = true /\ In (js "1f469-2764-1f48b-1f469") (unicode (snd c)) /\
    (forall c', In c' emojioneList -> isCanonical (snd c') = true ->
       In (js "1f469-2764-1f48b-1f469") (unicode (snd c')) -> c' = c) /\
    snd (toShort no_memo (convert (js "1f469-2764-1f48b-1f469"))) = fst c.
Proof.
  refine (@toShort_canonical _ (js "1f469-2764-1f48b-1f469") (nth_error_In _ _ kiss_entry) _).
  right. left. reflexivity.
Defined.

Lemma shortname_roundtrip_witness :
  exists c, In c emojioneList /\ snd (toShort no_memo (shortnameToUnicode default_settings (js ":kiss_ww:"))) = fst c.
Proof.
  destruct (@shortname_roundtrip default_settings _ (nth_error_In _ _ kiss_entry))
    as (_ & c & Hc & _ & _ & E & _).
  exists c. exact (conj Hc E).
Defined.

(** ** HTML escapes *)

(** What [escapeHTML] makes of a character. *)
Definition escape_char (c : Z) : list Z :=
  if existsb (Z.eqb c) [38; 60; 62; 34; 39] then as_text (get [c] escaped) else [c].

Lemma escapeHTML_chars s : escapeHTML s = flat_map escape_char s.
Proof.
  unfold escapeHTML, replace_all. generalize true at 1. induction s as [|c s IH]; intros b; [reflexivity|].
  cbn [flat_map]. rewrite <- (IH false).
  assert (E : forall l, existsb (fun x => same_char false x c) l = existsb (Z.eqb c) l)
    by (induction l as [|x l IHl]; [easy|]; cbn [existsb]; rewrite IHl; unfold same_char; now rewrite Z.eqb_sym).
  unfold escape_char. destruct (existsb (Z.eqb c) [38; 60; 62; 34; 39]) eqn:H.
  - change (c :: s) with ([c] ++ s).
    now rewrite (replace_match _ _ _ _ [c] s {| at_start := false; rest := s; captures := [] |})
      by (easy || (unfold matches_at; cbn [run rest app atom_matches]; now rewrite E, H)).
  - rewrite replace_step by (unfold matches_at; cbn [run rest atom_matches]; now rewrite E, H). reflexivity.
Qed.

(** A character that does not start an entity is passed. *)
Lemma unescape_other b f c s : c <> 38 ->
  replace_from true entity_pattern f b 0 (c :: s) = c :: replace_from true entity_pattern f false 0 s.
Proof.
  intros H. apply replace_step. unfold matches_at, entity_pattern. cbn [sequence].
  change (js "&") with [38]. rewrite run_seq, run_text. cbn [rest strip].
  assert (E : same_char true 38 c = false).
  { unfold same_char. change (canonicalize 38) with 38. unfold canonicalize.
    destruct ((97 <=? c) && (c <=? 122)) eqn:E; [apply andb_prop in E as [E1 E2]; apply Z.leb_le in E1, E2|];
      [apply Z.eqb_neq; lia|]. destruct (Z.eqb_spec c 0x24DC); apply Z.eqb_neq; lia. }
  now rewrite E.
Qed.

(** [unescapeHTML] undoes [escapeHTML] except for the apostrophe, which [escapeHTML]
    writes [&#039;] and [unescapeHTML] only knows as [&#39;], [&#x27;] and [&apos;]: a text is
    recovered up to its apostrophes, which stay escaped. *)
Theorem unescape_escape s :
  unescapeHTML (escapeHTML s) = flat_map (fun c => if c =? 39 then js "&#039;" else [c]) s.
Proof.
  rewrite escapeHTML_chars. unfold unescapeHTML, replace_all. generalize true at 2.
  induction s as [|c s IH]; intros b; [reflexivity|]. cbn [flat_map]. rewrite <- (IH false).
  unfold escape_char. destruct (existsb (Z.eqb c) [38; 60; 62; 34; 39]) eqn:H.
  - apply existsb_exists in H as (d & Hd & E). apply Z.eqb_eq in E. subst d.
    destruct Hd as [<-|[<-|[<-|[<-|[<-|[]]]]]].
    1-4: match goal with |- replace_from _ _ _ _ _ (?m ++ ?t) = _ =>
           rewrite (replace_match _ _ _ _ m t {| at_start := false; rest := t; captures := [] |}); try easy end.
    change (as_text (get [39] escaped)) with [38; 35; 48; 51; 57; 59]. cbn [app].
    rewrite replace_step by reflexivity. rewrite !unescape_other by easy. reflexivity.
  - assert (H39 : c =? 39 = false /\ c <> 38).
    { rewrite <- not_true_iff_false, existsb_exists in H. split; [apply Z.eqb_neq|];
        intros ->; apply H; eexists; (split; [|apply Z.eqb_refl]); cbn; tauto. }
    destruct H39 as [-> H38]. cbn [app]. now rewrite unescape_other.
Qed.

(** ** What replacement leaves alone *)

Section Tags.

Variable l : list (list Z).
Hypothesis l_nonempty : l <> [].
Hypothesis l_plain : forallb plain_alternative l = true.

Let r : regex := after_tags (Group 1 (alternatives l)).

Lemma l_alternative p : In p l -> p <> [] /\ forall x, In x p -> canonicalize x = x /\ x <> 60 /\ x <> 124.
Proof. intros H. rewrite forallb_forall in l_plain. apply plain_alternative_spec. now apply l_plain. Qed.

Lemma l_nonempty_each : Forall (fun p => p <> []) l.
Proof. apply Forall_forall. intros p H. now apply l_alternative in H. Qed.

Lemma same_char_not_lt x : canonicalize x = x -> x <> 60 -> same_char true x 60 = false.
Proof. intros E N. unfold same_char. rewrite E. now apply Z.eqb_neq. Qed.

(** An alternative is read inside a text or not at all: it does not reach into a tag. *)
Lemma strip_before_tag p s u : (forall x, In x p -> canonicalize x = x /\ x <> 60) ->
  (u = [] \/ hd 0 u = 60) ->
  strip true p (s ++ u) = option_map (fun t => t ++ u) (strip true p s).
Proof.
  intros Hp Hu. revert s. induction p as [|x p IH]; intros s; [reflexivity|].
  destruct s as [|y s].
  - destruct Hu as [->|Hu]; [reflexivity|]. destruct u as [|y u]; [easy|]. cbn in Hu. subst y.
    cbn [app strip]. destruct (Hp x (or_introl eq_refl)). now rewrite same_char_not_lt.
  - cbn [app strip]. destruct (same_char true x y); [|easy]. apply IH. intros z Hz. apply Hp. now right.
Qed.

Lemma strip_first_before_tag s u : (u = [] \/ hd 0 u = 60) ->
  strip_first true l (s ++ u) = option_map (fun t => t ++ u) (strip_first true l s).
Proof.
  intros Hu. generalize l_alternative. clear l_nonempty l_plain r. induction l as [|p l' IH]; intros H; [reflexivity|].
  cbn [strip_first]. rewrite strip_before_tag; [|intros x Hx; destruct (H p (or_introl eq_refl)) as [_ K]; now apply K in Hx|easy].
  destruct (strip true p s); [reflexivity|]. apply IH. intros q Hq. apply H. now right.
Qed.

Lemma matches_plain b s : not_lt s ->
  matches_at true r b s =
  option_map (fun t => {| at_start := false; rest := t; captures := [(1%nat, consumed s t)] |}) (strip_first true l s).
Proof. intros H. unfold r. rewrite alternatives_at by (easy || apply l_nonempty_each). now destruct (strip_first true l s). Qed.

(** Whether something precedes the text makes no difference. *)
Lemma matches_start b s : matches_at true r b s = matches_at true r false s.
Proof.
  destruct (Z.eq_dec (hd 0 s) 60) as [H|H]; [|now rewrite !matches_plain].
  unfold matches_at, r, after_tags. rewrite !run_alt. cbn [sequence].
  change (js "<object") with (60 :: js "object"). change (js "<span") with (60 :: js "span").
  change (js "<") with [60]. rewrite !run_seq, !run_text. cbn [rest after_text captures].
  rewrite !run_group, !run_alternatives by (easy || apply l_nonempty_each). reflexivity.
Qed.

Lemma replace_start f b s : replace_from true r f b 0 s = replace_from true r f false 0 s.
Proof. destruct s as [|c s]; cbn [replace_from]; now rewrite (matches_start b). Qed.

Lemma no_match_at_end b : matches_at true r b [] = None.
Proof.
  rewrite matches_plain by easy. rewrite strip_first_none; [easy|].
  intros p Hp. apply l_alternative in Hp as [Hp _]. now destruct p.
Qed.

Lemma strip_first_shorter s t : strip_first true l s = Some t ->
  exists p : list Z, p <> [] /\ List.length s = (List.length p + List.length t)%nat.
Proof.
  intros H. apply strip_first_some in H as (p & Hp & H). exists p. split; [now apply l_alternative in Hp|].
  now apply strip_length in H.
Qed.

Lemma consumed_before s t u : (List.length t <= List.length s)%nat -> consumed (s ++ u) (t ++ u) = consumed s t.
Proof.
  intros H. unfold consumed. rewrite !List.length_app.
  replace (List.length s + List.length u - (List.length t + List.length u))%nat with (List.length s - List.length t)%nat by lia.
  rewrite firstn_app. replace (List.length s - List.length t - List.length s)%nat with 0%nat by lia. cbn. apply app_nil_r.
Qed.

(** Replacement in front of a tag does not depend on what follows. *)
Lemma replace_before_tag f s u b skip : (forall c, In c s -> c <> 60) -> (u = [] \/ hd 0 u = 60) ->
  (skip <= List.length s)%nat ->
  replace_from true r f b skip (s ++ u) = replace_from true r f b skip s ++ replace_from true r f false 0 u.
Proof.
  intros Hs Hu. revert b skip. induction s as [|c s IH]; intros b skip Hskip.
  - cbn in Hskip. assert (skip = 0)%nat as -> by lia. cbn [app].
    rewrite replace_start. cbn [replace_from]. now rewrite no_match_at_end.
  - assert (Hs' : forall c, In c s -> c <> 60) by (intros; apply Hs; now right). specialize (IH Hs').
    assert (Hc : not_lt (c :: s)) by (unfold not_lt; cbn; apply Hs; now left).
    cbn [app replace_from]. destruct skip as [|k]; [|apply IH; cbn in Hskip; lia].
    change (c :: s ++ u) with ((c :: s) ++ u). rewrite !matches_plain by easy.
    rewrite strip_first_before_tag by easy.
    destruct (strip_first true l (c :: s)) as [t|] eqn:E; cbn [option_map rest captures].
    + destruct (strip_first_shorter _ _ E) as (p & Hp & Hlen). rewrite consumed_before by lia.
      rewrite <- app_assoc. f_equal.
      assert (Hm : List.length (consumed (c :: s) t) = List.length p) by (unfold consumed; rewrite length_firstn; lia).
      destruct (consumed (c :: s) t) as [|d m]; [destruct p; [easy|discriminate Hm]|].
      apply IH. cbn [List.length] in *. lia.
    + cbn [app]. f_equal. apply IH. lia.
Qed.

(** An [object] element without line ends and inner tags. *)
Definition object_element (attrs body : list Z) : list Z :=
  js "<object" ++ attrs ++ 62 :: body ++ js "</object>".

Lemma object_element_run attrs body t : (forall c, In c attrs -> c <> 62) ->
  (forall c, In c body -> c <> 60 /\ is_line_end c = false) ->
  run true (sequence [text (js "<object"); Star (NoneOf [62]); text [62]; LazyStar Dot; text (js "</object>")]) Some
    {| at_start := false; rest := object_element attrs body ++ t; captures := [] |} =
  Some {| at_start := false; rest := t; captures := [] |}.
Proof.
  intros Ha Hb. cbn [sequence]. unfold object_element.
  rewrite <- app_assoc, run_seq, run_text_prefix, run_seq, run_star by easy. cbn [rest at_start captures].
  rewrite <- app_assoc. cbn [app]. apply star_through.
  - apply forallb_forall. intros c Hc. cbn [atom_matches existsb]. rewrite same_char_gt, orb_false_r.
    apply Ha in Hc. now rewrite (proj2 (Z.eqb_neq 62 c)) by lia.
  - reflexivity.
  - change (62 :: (body ++ js "</object>") ++ t) with ([62] ++ (body ++ js "</object>") ++ t).
    rewrite run_seq, run_text_prefix, run_seq, run_lazy_star, <- app_assoc by easy. cbn [rest at_start captures].
    apply lazy_star_through.
    + apply forallb_forall. intros c Hc. cbn [atom_matches]. now rewrite (proj2 (Hb c Hc)).
    + intros b' y s1 s2 E. apply (tag_text_fails true (js "/object>")). unfold not_lt. cbn [rest hd].
      apply Hb. rewrite E. apply in_app_iff. right. now left.
    + now rewrite run_text_prefix.
Qed.

Lemma object_element_matches b attrs body t : (forall c, In c attrs -> c <> 62) ->
  (forall c, In c body -> c <> 60 /\ is_line_end c = false) ->
  matches_at true r b (object_element attrs body ++ t) =
  Some {| at_start := false; rest := t; captures := [] |}.
Proof.
  intros Ha Hb. rewrite matches_start. unfold matches_at, r, after_tags. rewrite run_alt.
  change (js ">") with [62]. now rewrite object_element_run.
Qed.

(** A callback that returns a match without capture as it is. *)
Lemma replace_around_object f pre attrs body post : (forall m, f m [] = m) ->
  (forall c, In c pre -> c <> 60) -> (forall c, In c attrs -> c <> 62) ->
  (forall c, In c body -> c <> 60 /\ is_line_end c = false) ->
  replace_all true r f (pre ++ object_element attrs body ++ post) =
  replace_all true r f pre ++ object_element attrs body ++ replace_all true r f post.
Proof.
  intros Hf Hp Ha Hb. unfold replace_all.
  rewrite (replace_before_tag _ pre) by (easy || lia || now right). f_equal.
  rewrite (replace_match _ _ _ _ _ post {| at_start := false; rest := post; captures := [] |});
    [|easy|now apply object_element_matches|easy].
  cbn [captures]. rewrite Hf. f_equal. symmetry. apply replace_start.
Qed.

End Tags.

(** [toShort] does not touch an [object] element: around one whose body has no tag and
    no line end, the text in front (without tags) and the text behind are converted as if
    they stood alone, whatever emoji the attributes and the body contain. *)
Theorem toShort_around_object pre attrs body post : (forall c, In c pre -> c <> 60) ->
  (forall c, In c attrs -> c <> 62) -> (forall c, In c body -> c <> 60 /\ is_line_end c = false) ->
  snd (toShort no_memo (pre ++ object_element attrs body ++ post)) =
  snd (toShort no_memo pre) ++ object_element attrs body ++ snd (toShort no_memo post).
Proof.
  intros Hp Ha Hb. rewrite !toShort_first. unfold short_text, replaceAll.
  rewrite escapeRegExp_join by (apply characters_nonempty || apply plain_no_bar, characters_plain).
  apply (replace_around_object characters characters_nonempty characters_plain); easy.
Qed.

Lemma toShort_around_object_witness :
  snd (toShort no_memo (js "a" ++ object_element (js " x") (js ":)") ++ js "b")) =
  snd (toShort no_memo (js "a")) ++ object_element (js " x") (js ":)") ++ snd (toShort no_memo (js "b")).
Proof.
  refine (@toShort_around_object (js "a") (js " x") (js ":)") (js "b") _ _ _); cbn; intros c H; repeat destruct H as [<-|H]; try easy.
Defined.

(** ** Unicode text to images *)

Lemma jsEscapeMap_functional : builds str_eqb jsEscapeMap_literal = true.
Proof. vm_compute. reflexivity. Qed.

Lemma jsEscapeMap_converts : forallb (fun e => str_eqb (convert (snd e)) (fst e)) jsEscapeMap_literal = true.
Proof. vm_compute. reflexivity. Qed.

Definition unicode_alternatives : list (list Z) := parse_alternatives unicodeRegexp.

Lemma unicode_ordered : alternatives_ordered unicode_alternatives = true.
Proof. vm_compute. reflexivity. Qed.

Lemma unicode_plain : forallb plain_alternative unicode_alternatives = true.
Proof. vm_compute. reflexivity. Qed.

(** A text with a zero width joiner or a variation selector. *)
Definition joined (s : list Z) : bool := existsb (fun c => (c =? 0x200D) || (c =? 0xFE0F)) s.

(** The alternatives that a map knows are those without joiner and selector. *)
Definition known_unless_joined (m : option (@index (list Z))) (l : list (list Z)) : bool :=
  forallb (fun a => match lookup a m with Some _ => negb (joined a) | None => joined a end) l.

Lemma known_unless_joined_spec m l a : known_unless_joined m l = true -> In a l ->
  match lookup a m with Some _ => negb (joined a) | None => joined a end = true.
Proof. unfold known_unless_joined. rewrite forallb_forall. intros H Ha. exact (H a Ha). Qed.

Lemma unicode_alternatives_known :
  known_unless_joined (build str_eqb jsEscapeMap_literal) unicode_alternatives = true.
Proof. vm_compute. reflexivity. Qed.

Lemma get_jsEscapeMap k v : In (k, v) jsEscapeMap_literal -> get k jsEscapeMap = Some v.
Proof.
  unfold jsEscapeMap. intros H.
  exact (functional_object _ _ _ (builds_functional str_eqb str_eqb_true _ jsEscapeMap_functional) H).
Qed.

Lemma jsEscapeMap_in k v : get k jsEscapeMap = Some v -> In (k, v) jsEscapeMap_literal.
Proof. exact (get_object_in k v jsEscapeMap_literal). Qed.

Lemma jsEscapeMap_none k : ~ In k (map fst jsEscapeMap_literal) -> get k jsEscapeMap = None.
Proof. exact (proj2 (get_object_none k jsEscapeMap_literal)). Qed.

Lemma jsEscapeMap_lookup a : lookup a (build str_eqb jsEscapeMap_literal) = None -> get a jsEscapeMap = None.
Proof.
  intros E. apply jsEscapeMap_none. exact (lookup_none str_eqb str_eqb_true a _ jsEscapeMap_functional E).
Qed.

#[local] Opaque jsEscapeMap.

(** Every entry of [jsEscapeMap] is right: the key is the text that [convert] makes of
    the value.  So where the map knows a character, the code it gives is the one whose
    text was read. *)
Theorem jsEscapeMap_correct k v : get k jsEscapeMap = Some v -> k = convert v.
Proof.
  intros H. apply jsEscapeMap_in in H. pose proof jsEscapeMap_converts as T. rewrite forallb_forall in T.
  apply T, str_eqb_true in H. now symmetry.
Qed.

Lemma jsEscapeMap_correct_witness : js_lit "\uD83D\uDE04" = convert (js "1f604").
Proof.
  refine (@jsEscapeMap_correct _ _ _). apply get_jsEscapeMap.
  refine (nth_error_In jsEscapeMap_literal 1494 _). reflexivity.
Defined.

(** The markup of an emoji under the default kind of image. *)
Definition svg_image (ns : settings) (text code : list Z) : list Z :=
  js_lit "<img class=\u0022emojione\u0022 alt=\u0022" ++ text ++ js_lit "\u0022 src=\u0022" ++ imagePathSVG ns
    ++ code ++ js ".svg" ++ cacheBustParam ns ++ js_lit "\u0022/>".

Lemma unicode_alternatives_ok : pattern_ok unicode_alternatives.
Proof.
  apply plain_alternatives_ok; [|exact unicode_ordered|exact unicode_plain].
  intros H. apply (f_equal (@List.length _)) in H. vm_compute in H. discriminate H.
Qed.

Lemma regUnicode_eq : regUnicode = after_tags (Group 1 (alternatives unicode_alternatives)).
Proof. unfold regUnicode, unicode_alternatives. reflexivity. Qed.

Lemma unicodeToImage_alternative ns m a : In a unicode_alternatives ->
  snd (unicodeToImage ns m a) =
  unicode_image ns (snd (if negb (unicodeAlt ns) || sprites ns then mapUnicodeToShort m else (m, []))) a.
Proof.
  intros Ha. unfold unicodeToImage. cbv zeta. cbn [snd]. rewrite regUnicode_eq.
  rewrite replace_whole by (apply unicode_alternatives_ok || exact Ha). exact eq_refl.
Qed.

Lemma unicode_image_known ns mapped a code : get a jsEscapeMap = Some code ->
  is_png ns = false -> sprites ns = false -> unicodeAlt ns = true ->
  unicode_image ns mapped a = svg_image ns (convert code) code.
Proof.
  intros G Hp Hs Hu. rewrite <- (convert_upper code). unfold unicode_image. rewrite G, Hu, Hs, Hp.
  cbv beta iota zeta. unfold svg_image. exact eq_refl.
Qed.

Lemma unicode_image_unknown ns mapped a : get a jsEscapeMap = None -> unicode_image ns mapped a = a.
Proof. intros G. unfold unicode_image. now rewrite G. Qed.

Lemma jsEscapeMap_value a code : In (a, code) jsEscapeMap_literal -> convert code = a.
Proof.
  intros H. pose proof jsEscapeMap_converts as C. rewrite forallb_forall in C.
  exact (str_eqb_true _ _ (C _ H)).
Qed.

Lemma unicode_alternative_cases a : In a unicode_alternatives ->
  (joined a = true /\ get a jsEscapeMap = None) \/
  (joined a = false /\ exists code, get a jsEscapeMap = Some code /\ convert code = a).
Proof.
  intros Ha. pose proof (known_unless_joined_spec _ _ a unicode_alternatives_known Ha) as T.
  destruct (lookup a (build str_eqb jsEscapeMap_literal)) as [code|] eqn:E.
  - right. apply negb_true_iff in T. split; [exact T|]. exists code.
    apply (lookup_in str_eqb str_eqb_true) in E.
    exact (conj (get_jsEscapeMap a code E) (jsEscapeMap_value a code E)).
  - left. exact (conj T (jsEscapeMap_lookup a E)).
Qed.

(** C22: What [unicodeToImage] does with the texts its own pattern lists, when it writes SVG
    images with the character as alternative text.  A text without joiner and variation
    selector becomes the image of the code of this text.  A text with one, as [toShort]
    knows it, is matched as a whole and returned as it is, because [jsEscapeMap] has no
    such key. *)
Theorem unicodeToImage_listed ns m a : In a unicode_alternatives ->
  is_png ns = false -> sprites ns = false -> unicodeAlt ns = true ->
  (joined a = true -> snd (unicodeToImage ns m a) = a) /\
  (joined a = false -> exists code, convert code = a /\ snd (unicodeToImage ns m a) = svg_image ns a code).
Proof.
  intros Ha Hp Hs Hu. rewrite (unicodeToImage_alternative ns m a Ha).
  generalize (snd (if negb (unicodeAlt ns) || sprites ns then mapUnicodeToShort m else (m, []))). intros mapped.
  destruct (unicode_alternative_cases a Ha) as [[J G]|(J & code & G & E)]; rewrite J; split; intros K; try discriminate K.
  - exact (unicode_image_unknown ns mapped a G).
  - exists code. split; [exact E|]. rewrite (unicode_image_known ns mapped a code G Hp Hs Hu), E. exact eq_refl.
Qed.

Lemma unicodeToImage_listed_witness :
  snd (unicodeToImage default_settings no_memo (js_lit "\u0031\uFE0F\u20E3")) = js_lit "\u0031\uFE0F\u20E3".
Proof.
  refine (proj1 (@unicodeToImage_listed default_settings no_memo (js_lit "\u0031\uFE0F\u20E3") _ eq_refl eq_refl eq_refl) eq_refl).
  refine (nth_error_In unicode_alternatives 700 _). reflexivity.
Defined.
