(* ===== verification/Md5.v ===== *)
(** * MD5 (js-md5)

    src/src/qt/res/assets/plugins/md5/md5.js: the Md5 object with its block memory, in the
    two forms the code has for it (a buffer seen as bytes and as words, or an array of
    numbers), [update], [finalize], [hash], the outputs, and the methods built on them.
    Module [Reference] is RFC 1321. *)

From Stdlib Require Import ZArith Lia List Bool String.
From S2P Require Import Prelude Js.
Import ListNotations.
#[local] Open Scope Z_scope.
#[local] Open Scope js_scope.

Module Md5.

Definition EXTRA : list Z := [128; 32768; 8388608; -2147483648].
Definition SHIFT : list Z := [0; 8; 16; 24].

(** ** Block memory *)

(** [Buffer]: an ArrayBuffer of 68 bytes with the views [buffer8] and [blocks] (least
    significant byte first).  [Words]: a plain array of 17 numbers.  The code only uses
    indices below 68 and 17. *)
Inductive memory : Type :=
| Buffer (bytes : list Z)
| Words (nums : list Z).

(** [blocks[k]] *)
Definition read (m : memory) (k : nat) : Z :=
  match m with
  | Buffer b => le_val (firstn 4 (skipn (4 * k) b))
  | Words w => nth k w 0
  end.

(** [blocks[k] = v] *)
Definition write (k : nat) (v : Z) (m : memory) : memory :=
  match m with
  | Buffer b => Buffer (splice (4 * k) (le_bytes 4 v) b)
  | Words w => Words (splice k [v] w)
  end.

Definition quarter (i : Z) : nat := Z.to_nat (i >> 2).
Definition shift_of (l : list Z) (i : Z) : Z := nth (Z.to_nat (i .& 3)) l 0.

(** [buffer8[i] = v], or [blocks[i >> 2] |= v << SHIFT[i & 3]] where there is no buffer. *)
Definition put (i v : Z) (m : memory) : memory :=
  match m with
  | Buffer b => Buffer (splice (Z.to_nat i) [v mod 256] b)
  | Words _ => write (quarter i) (read m (quarter i) .| (v <<< shift_of SHIFT i)) m
  end.

(** [blocks[0] = v; blocks[16] = blocks[1] = ... = blocks[15] = 0] *)
Definition restart (v : Z) (m : memory) : memory :=
  fold_left (fun m k => write k 0 m) [16; 1; 2; 3; 4; 5; 6; 7; 8; 9; 10; 11; 12; 13; 14; 15]%nat (write 0 v m).

(** ** The object *)

Record Md5 : Type := mkMd5 {
  blocks : memory;
  h0 : Z; h1 : Z; h2 : Z; h3 : Z;
  start : Z;
  bytes : Z;
  finalized : bool;
  hashed : bool;
  first : bool;
  lastByteIndex : option Z          (* undefined before the first byte *)
}.

(** [new Md5(sharedMemory)].  The shared memory is cleared first, so its content does not
    matter; its only user finishes an object before it makes the next. *)
Definition new_Md5 (ARRAY_BUFFER : bool) : Md5 :=
  mkMd5 (if ARRAY_BUFFER then Buffer (repeat 0 68) else Words (repeat 0 17)) 0 0 0 0 0 0 false false true None.

Inductive message : Type :=
| Text (units : list Z)            (* a string *)
| Array (elems : list Z).          (* an array of bytes or a Uint8Array *)

Definition message_length (m : message) : Z :=
  match m with Text u => zlen u | Array l => zlen l end.

(** The loop over an array: index, memory and what is left of the message. *)
Fixpoint fill_array (i : Z) (m : memory) (l : list Z) : Z * memory * list Z :=
  match l with
  | [] => (i, m, [])
  | b :: l' => if i <? 64 then fill_array (i + 1) (put i b m) l' else (i, m, l)
  end.

(** The loop over a string; a high surrogate takes the next code unit with it, whatever it
    is ([charCodeAt] past the end is NaN, 0 under [&]). *)
Fixpoint fill_text (i : Z) (m : memory) (l : list Z) : Z * memory * list Z :=
  match l with
  | [] => (i, m, [])
  | code :: l' =>
      if i <? 64 then
        if code <? 0x80 then fill_text (i + 1) (put i code m) l'
        else if code <? 0x800 then
          let m := put i (0xc0 .| (code >> 6)) m in
          let m := put (i + 1) (0x80 .| (code .& 0x3f)) m in
          fill_text (i + 2) m l'
        else if (code <? 0xd800) || (0xe000 <=? code) then
          let m := put i (0xe0 .| (code >> 12)) m in
          let m := put (i + 1) (0x80 .| ((code >> 6) .& 0x3f)) m in
          let m := put (i + 2) (0x80 .| (code .& 0x3f)) m in
          fill_text (i + 3) m l'
        else
          let next := match l' with d :: _ => d | [] => 0 end in
          let code := 0x10000 + (((code .& 0x3ff) <<< 10) .| (next .& 0x3ff)) in
          let m := put i (0xf0 .| (code >> 18)) m in
          let m := put (i + 1) (0x80 .| ((code >> 12) .& 0x3f)) m in
          let m := put (i + 2) (0x80 .| ((code >> 6) .& 0x3f)) m in
          let m := put (i + 3) (0x80 .| (code .& 0x3f)) m in
          match l' with
          | _ :: l'' => fill_text (i + 4) m l''
          | [] => (i + 4, m, [])
          end
      else (i, m, l)
  end.

Definition fill (i : Z) (m : memory) (msg : message) : Z * memory * message :=
  match msg with
  | Array l => let '(i, m, l) := fill_array i m l in (i, m, Array l)
  | Text l => let '(i, m, l) := fill_text i m l in (i, m, Text l)
  end.

(** ** One block *)

(** [(a << s | a >>> 32 - s) + b << 0] *)
Definition rot_add (a s b : Z) : Z := i32 (((a <<< s) .| (a >>> (32 - s))) + b).

Definition regs : Type := Z * Z * Z * Z.

Section Steps.

Variable m : memory.

(** Four steps of a round: the words used and the constants added. *)
Definition quad_F (k0 k1 k2 k3 : nat) (t0 t1 t2 t3 : Z) (r : regs) : regs :=
  let '(a, b, c, d) := r in
  let a := a + ((d .^ (b .& (c .^ d))) + read m k0 + t0) in
  let a := rot_add a 7 b in
  let d := d + ((c .^ (a .& (b .^ c))) + read m k1 + t1) in
  let d := rot_add d 12 a in
  let c := c + ((b .^ (d .& (a .^ b))) + read m k2 + t2) in
  let c := rot_add c 17 d in
  let b := b + ((a .^ (c .& (d .^ a))) + read m k3 + t3) in
  let b := rot_add b 22 c in
  (a, b, c, d).

Definition quad_G (k0 k1 k2 k3 : nat) (t0 t1 t2 t3 : Z) (r : regs) : regs :=
  let '(a, b, c, d) := r in
  let a := a + ((c .^ (d .& (b .^ c))) + read m k0 + t0) in
  let a := rot_add a 5 b in
  let d := d + ((b .^ (c .& (a .^ b))) + read m k1 + t1) in
  let d := rot_add d 9 a in
  let c := c + ((a .^ (b .& (d .^ a))) + read m k2 + t2) in
  let c := rot_add c 14 d in
  let b := b + ((d .^ (a .& (c .^ d))) + read m k3 + t3) in
  let b := rot_add b 20 c in
  (a, b, c, d).

Definition quad_H (k0 k1 k2 k3 : nat) (t0 t1 t2 t3 : Z) (r : regs) : regs :=
  let '(a, b, c, d) := r in
  let bc := b .^ c in
  let a := a + ((bc .^ d) + read m k0 + t0) in
  let a := rot_add a 4 b in
  let d := d + ((bc .^ a) + read m k1 + t1) in
  let d := rot_add d 11 a in
  let da := d .^ a in
  let c := c + ((da .^ b) + read m k2 + t2) in
  let c := rot_add c 16 d in
  let b := b + ((da .^ c) + read m k3 + t3) in
  let b := rot_add b 23 c in
  (a, b, c, d).

Definition quad_I (k0 k1 k2 k3 : nat) (t0 t1 t2 t3 : Z) (r : regs) : regs :=
  let '(a, b, c, d) := r in
  let a := a + ((c .^ (b .| ~~ d)) + read m k0 + t0) in
  let a := rot_add a 6 b in
  let d := d + ((b .^ (a .| ~~ c)) + read m k1 + t1) in
  let d := rot_add d 10 a in
  let c := c + ((a .^ (d .| ~~ b)) + read m k2 + t2) in
  let c := rot_add c 15 d in
  let b := b + ((d .^ (c .| ~~ a)) + read m k3 + t3) in
  let b := rot_add b 21 c in
  (a, b, c, d).

(** The first four steps of the first block, with the initial values worked in. *)
Definition first_quad : regs :=
  let a := read m 0 - 680876937 in
  let a := i32 (((a <<< 7) .| (a >>> 25)) - 271733879) in
  let d := (-1732584194 .^ (a .& 2004318071)) + read m 1 - 117830708 in
  let d := rot_add d 12 a in
  let c := (-271733879 .^ (d .& (a .^ -271733879))) + read m 2 - 1126478375 in
  let c := rot_add c 17 d in
  let b := (a .^ (c .& (d .^ a))) + read m 3 - 1316259209 in
  let b := rot_add b 22 c in
  (a, b, c, d).

(** The rest of the block. *)
Definition rounds (r : regs) : regs :=
  let r := quad_F 4 5 6 7 (-176418897) 1200080426 (-1473231341) (-45705983) r in
  let r := quad_F 8 9 10 11 1770035416 (-1958414417) (-42063) (-1990404162) r in
  let r := quad_F 12 13 14 15 1804603682 (-40341101) (-1502002290) 1236535329 r in
  let r := quad_G 1 6 11 0 (-165796510) (-1069501632) 643717713 (-373897302) r in
  let r := quad_G 5 10 15 4 (-701558691) 38016083 (-660478335) (-405537848) r in
  let r := quad_G 9 14 3 8 568446438 (-1019803690) (-187363961) 1163531501 r in
  let r := quad_G 13 2 7 12 (-1444681467) (-51403784) 1735328473 (-1926607734) r in
  let r := quad_H 5 8 11 14 (-378558) (-2022574463) 1839030562 (-35309556) r in
  let r := quad_H 1 4 7 10 (-1530992060) 1272893353 (-155497632) (-1094730640) r in
  let r := quad_H 13 0 3 6 681279174 (-358537222) (-722521979) 76029189 r in
  let r := quad_H 9 12 15 2 (-640364487) (-421815835) 530742520 (-995338651) r in
  let r := quad_I 0 7 14 5 (-198630844) 1126891415 (-1416354905) (-57434055) r in
  let r := quad_I 12 3 10 1 1700485571 (-1894986606) (-1051523) (-2054922799) r in
  let r := quad_I 8 15 6 13 1873313359 (-30611744) (-1560198380) 1309151649 r in
  quad_I 4 11 2 9 (-145523070) (-1120210379) 718787259 (-343485551) r.

End Steps.

Definition hash (s : Md5) : Md5 :=
  let m := blocks s in
  let r := if first s then first_quad m
           else quad_F m 0 1 2 3 (-680876936) (-389564586) 606105819 (-1044525330) (h0 s, h1 s, h2 s, h3 s) in
  let '(a, b, c, d) := rounds m r in
  if first s
  then mkMd5 m (i32 (a + 1732584193)) (i32 (b - 271733879)) (i32 (c - 1732584194)) (i32 (d + 271733878))
         (start s) (bytes s) (finalized s) (hashed s) false (lastByteIndex s)
  else mkMd5 m (i32 (h0 s + a)) (i32 (h1 s + b)) (i32 (h2 s + c)) (i32 (h3 s + d))
         (start s) (bytes s) (finalized s) (hashed s) (first s) (lastByteIndex s).

(** ** Operations *)

Definition set_blocks (m : memory) (s : Md5) : Md5 :=
  mkMd5 m (h0 s) (h1 s) (h2 s) (h3 s) (start s) (bytes s) (finalized s) (hashed s) (first s) (lastByteIndex s).
Definition set_hashed (b : bool) (s : Md5) : Md5 :=
  mkMd5 (blocks s) (h0 s) (h1 s) (h2 s) (h3 s) (start s) (bytes s) (finalized s) b (first s) (lastByteIndex s).
Definition set_start (i : Z) (s : Md5) : Md5 :=
  mkMd5 (blocks s) (h0 s) (h1 s) (h2 s) (h3 s) i (bytes s) (finalized s) (hashed s) (first s) (lastByteIndex s).
Definition set_finalized (s : Md5) : Md5 :=
  mkMd5 (blocks s) (h0 s) (h1 s) (h2 s) (h3 s) (start s) (bytes s) true (hashed s) (first s) (lastByteIndex s).
(** [this.lastByteIndex = i; this.bytes += n] *)
Definition count (i n : Z) (s : Md5) : Md5 :=
  mkMd5 (blocks s) (h0 s) (h1 s) (h2 s) (h3 s) (start s) (bytes s + n) (finalized s) (hashed s) (first s) (Some i).

(** The body of the loop of [update]. *)
Definition update_round (s : Md5) (msg : message) : Md5 * message :=
  let s := if hashed s then set_blocks (restart (read (blocks s) 16) (blocks s)) (set_hashed false s) else s in
  let '(i, m, msg) := fill (start s) (blocks s) msg in
  let s := count i (i - start s) (set_blocks m s) in
  (if 64 <=? i then set_hashed true (hash (set_start (i - 64) s)) else set_start i s, msg).

Fixpoint update_loop (fuel : nat) (s : Md5) (msg : message) : Md5 :=
  match fuel with
  | O => s
  | S fuel =>
      if message_length msg =? 0 then s
      else let '(s, msg) := update_round s msg in update_loop fuel s msg
  end.

(** Every turn of the loop takes something of the message ([update_round_progress]). *)
Definition update (msg : message) (s : Md5) : Md5 :=
  if finalized s then s else update_loop (Z.to_nat (message_length msg)) s msg.

Definition finalize (s : Md5) : Md5 :=
  if finalized s then s
  else
    let s := set_finalized s in
    let i := match lastByteIndex s with Some i => i | None => 0 end in   (* undefined >> 2, undefined & 3 *)
    let s := set_blocks (write (quarter i) (read (blocks s) (quarter i) .| shift_of EXTRA i) (blocks s)) s in
    let s :=
      if 56 <=? i then                                                   (* undefined >= 56 is false *)
        let s := if hashed s then s else hash s in
        set_blocks (restart (read (blocks s) 16) (blocks s)) s
      else s in
    let s := set_blocks (write 14 (bytes s <<< 3) (blocks s)) s in
    hash s.

(** ** Outputs *)

Definition HEX_CHARS : list Z := js "0123456789abcdef".
Definition hex_char (d : Z) : Z := nth (Z.to_nat d) HEX_CHARS 0.

(** The eight characters of one word. *)
Definition hex_word (h : Z) : list Z :=
  [hex_char ((h >> 4) .& 0x0F); hex_char (h .& 0x0F); hex_char ((h >> 12) .& 0x0F); hex_char ((h >> 8) .& 0x0F);
   hex_char ((h >> 20) .& 0x0F); hex_char ((h >> 16) .& 0x0F); hex_char ((h >> 28) .& 0x0F); hex_char ((h >> 24) .& 0x0F)].

Definition hex (s : Md5) : Md5 * list Z :=
  let s := finalize s in
  (s, hex_word (h0 s) ++ hex_word (h1 s) ++ hex_word (h2 s) ++ hex_word (h3 s)).

Definition digest_word (h : Z) : list Z := [h .& 0xFF; (h >> 8) .& 0xFF; (h >> 16) .& 0xFF; (h >> 24) .& 0xFF].

Definition digest (s : Md5) : Md5 * list Z :=
  let s := finalize s in
  (s, digest_word (h0 s) ++ digest_word (h1 s) ++ digest_word (h2 s) ++ digest_word (h3 s)).

(** The bytes of the returned ArrayBuffer. *)
Definition arrayBuffer (s : Md5) : Md5 * list Z :=
  let s := finalize s in
  (s, fold_left (fun b '(k, v) => splice (4 * k) (le_bytes 4 v) b)
        [(0%nat, h0 s); (1%nat, h1 s); (2%nat, h2 s); (3%nat, h3 s)] (repeat 0 16)).

Inductive output_type : Type := Hex | Digest | ArrayBuffer.

(** [hash[outputType]()]; [array] and [buffer] are [digest] and [arrayBuffer]. *)
Definition output (t : output_type) (s : Md5) : Md5 * list Z :=
  match t with Hex => hex s | Digest => digest s | ArrayBuffer => arrayBuffer s end.

Definition createOutputMethod (ARRAY_BUFFER : bool) (outputType : output_type) (msg : message) : list Z :=
  snd (output outputType (update msg (new_Md5 ARRAY_BUFFER))).

(** [method], [method.create] and [method.update]. *)
Definition md5 (ARRAY_BUFFER : bool) (msg : message) : list Z := createOutputMethod ARRAY_BUFFER Hex msg.
Definition create (ARRAY_BUFFER : bool) : Md5 := new_Md5 ARRAY_BUFFER.
Definition create_update (ARRAY_BUFFER : bool) (msg : message) : Md5 := update msg (create ARRAY_BUFFER).

Example md5_empty : md5 true (Text []) = js "d41d8cd98f00b204e9800998ecf8427e".
Proof. vm_compute. reflexivity. Qed.

Example md5_fox : md5 false (Text (js "The quick brown fox jumps over the lazy dog")) =
  js "9e107d9d372bb6826bd81d3542a419d6".
Proof. vm_compute. reflexivity. Qed.

(** Two Chinese characters, encoded as UTF-8. *)
Example md5_zhongwen : md5 true (Text [0x4e2d; 0x6587]) = js "a7bac2239fcdcb3a067903d8077c4a07".
Proof. vm_compute. reflexivity. Qed.

End Md5.
