(* ===== verification/Md5Theory.v ===== *)
(** * MD5: the object computes RFC 1321

    The digest of an Md5 object (Md5.v) after any sequence of updates is the MD5 of the bytes
    of the messages put together, for both kinds of block memory, as long as the messages
    have fewer than 2^29 bytes; the hexadecimal output is the digest in hexadecimal. *)

From Stdlib Require Import ZArith Lia List Bool String.
From S2P Require Import Prelude Js Md5.
Import ListNotations Md5.
#[local] Open Scope Z_scope.
#[local] Open Scope js_scope.

(** ** RFC 1321 *)

Module Reference.

(** The table of section 3.4: the integer part of 4294967296 times abs(sin(i)). *)
Definition T : list Z := [
   0xd76aa478; 0xe8c7b756; 0x242070db; 0xc1bdceee;
   0xf57c0faf; 0x4787c62a; 0xa8304613; 0xfd469501;
   0x698098d8; 0x8b44f7af; 0xffff5bb1; 0x895cd7be;
   0x6b901122; 0xfd987193; 0xa679438e; 0x49b40821;
   0xf61e2562; 0xc040b340; 0x265e5a51; 0xe9b6c7aa;
   0xd62f105d; 0x02441453; 0xd8a1e681; 0xe7d3fbc8;
   0x21e1cde6; 0xc33707d6; 0xf4d50d87; 0x455a14ed;
   0xa9e3e905; 0xfcefa3f8; 0x676f02d9; 0x8d2a4c8a;
   0xfffa3942; 0x8771f681; 0x6d9d6122; 0xfde5380c;
   0xa4beea44; 0x4bdecfa9; 0xf6bb4b60; 0xbebfbc70;
   0x289b7ec6; 0xeaa127fa; 0xd4ef3085; 0x04881d05;
   0xd9d4d039; 0xe6db99e5; 0x1fa27cf8; 0xc4ac5665;
   0xf4292244; 0x432aff97; 0xab9423a7; 0xfc93a039;
   0x655b59c3; 0x8f0ccc92; 0xffeff47d; 0x85845dd1;
   0x6fa87e4f; 0xfe2ce6e0; 0xa3014314; 0x4e0811a1;
   0xf7537e82; 0xbd3af235; 0x2ad7d2bb; 0xeb86d391].

Definition neg (x : Z) : Z := Z.lxor x (2 ^ 32 - 1).
Definition F (x y z : Z) : Z := Z.lor (Z.land x y) (Z.land (neg x) z).
Definition G (x y z : Z) : Z := Z.lor (Z.land x z) (Z.land y (neg z)).
Definition H (x y z : Z) : Z := Z.lxor (Z.lxor x y) z.
Definition I (x y z : Z) : Z := Z.lxor y (Z.lor x (neg z)).

(** Rotation of a word. *)
Definition rotl (x s : Z) : Z := Z.lor (u32 (Z.shiftl x s)) (Z.shiftr x (32 - s)).

(** [a = b + ((a + f(b,c,d) + x + t) <<< s)], then the registers change places. *)
Definition op (f : Z -> Z -> Z -> Z) (x t s : Z) (r : regs) : regs :=
  let '(a, b, c, d) := r in (d, u32 (b + rotl (u32 (a + f b c d + x + t)) s), b, c).

(** Step [i] of the 64: the function, the word and the shift of its round. *)
Definition step (X : list Z) (r : regs) (i : nat) : regs :=
  let word (k : nat) := nth (k mod 16)%nat X 0 in
  let shift (l : list Z) := nth (i mod 4)%nat l 0 in
  let t := nth i T 0 in
  match (i / 16)%nat with
  | 0%nat => op F (word i) t (shift [7; 12; 17; 22]) r
  | 1%nat => op G (word (5 * i + 1)%nat) t (shift [5; 9; 14; 20]) r
  | 2%nat => op H (word (3 * i + 5)%nat) t (shift [4; 11; 16; 23]) r
  | _ => op I (word (7 * i)%nat) t (shift [6; 10; 15; 21]) r
  end.

Definition add4 (r r' : regs) : regs :=
  let '(a, b, c, d) := r in let '(a', b', c', d') := r' in
  (u32 (a + a'), u32 (b + b'), u32 (c + c'), u32 (d + d')).

Definition compress (h : regs) (X : list Z) : regs := add4 h (fold_left (step X) (seq 0 64) h).

Definition IV : regs := (0x67452301, 0xefcdab89, 0x98badcfe, 0x10325476).

(** The sixteen words of a block, least significant byte first. *)
Definition words (block : list Z) : list Z := map (fun k => le_val (List.firstn 4 (skipn (4 * k) block))) (seq 0 16).

Fixpoint chunks (n : nat) (l : list Z) : list (list Z) :=
  match n with
  | O => []
  | S n => List.firstn 64 l :: chunks n (skipn 64 l)
  end.

(** The registers after the whole blocks of a text. *)
Definition absorb (h : regs) (l : list Z) : regs :=
  fold_left (fun h c => compress h (words c)) (chunks (List.length l / 64) l) h.

Definition padding (len : Z) : list Z :=
  128 :: repeat 0 (Z.to_nat ((55 - len) mod 64)) ++ le_bytes 8 (8 * len).

Definition md5 (l : list Z) : list Z :=
  let '(a, b, c, d) := absorb IV (l ++ padding (zlen l)) in
  le_bytes 4 a ++ le_bytes 4 b ++ le_bytes 4 c ++ le_bytes 4 d.

(** The test suite of the RFC. *)
Example md5_abc : md5 [97; 98; 99] =
  [0x90; 0x01; 0x50; 0x98; 0x3c; 0xd2; 0x4f; 0xb0; 0xd6; 0x96; 0x3f; 0x7d; 0x28; 0xe1; 0x7f; 0x72].
Proof. vm_compute. reflexivity. Qed.

End Reference.

(** ** One block *)

Definition u32_regs (r : regs) : regs := let '(a, b, c, d) := r in (u32 a, u32 b, u32 c, u32 d).

(** Identities of words, bit by bit. *)
Ltac bits32 :=
  apply Z.bits_inj'; let i := fresh "i" in let Hi := fresh "Hi" in intros i Hi;
  unfold Reference.F, Reference.G, Reference.H, Reference.I, Reference.neg;
  replace (2 ^ 32 - 1) with (Z.ones 32) by reflexivity;
  repeat first [rewrite u32_xor|rewrite u32_and|rewrite u32_or|rewrite u32_not];
  replace (2 ^ 32 - 1) with (Z.ones 32) by reflexivity;
  repeat first [rewrite Z.lxor_spec|rewrite Z.land_spec|rewrite Z.lor_spec|rewrite wrapu_testbit by lia];
  let b := fresh "b" in
  assert (b : Z.testbit (Z.ones 32) i = (i <? 32))
    by (destruct (Z.ltb_spec i 32); [now rewrite Z.ones_spec_low by lia|now rewrite Z.ones_spec_high by lia]);
  rewrite ?b;
  repeat match goal with |- context [Z.testbit ?x i] => destruct (Z.testbit x i) end;
  now destruct (i <? 32).

Lemma F_word b c d : u32 (d .^ (b .& (c .^ d))) = Reference.F (u32 b) (u32 c) (u32 d).
Proof. bits32. Qed.

Lemma G_word b c d : u32 (c .^ (d .& (b .^ c))) = Reference.G (u32 b) (u32 c) (u32 d).
Proof. bits32. Qed.

Lemma H_word b c d : u32 ((b .^ c) .^ d) = Reference.H (u32 b) (u32 c) (u32 d).
Proof. bits32. Qed.

Lemma H_word' b c d : u32 ((c .^ d) .^ b) = Reference.H (u32 b) (u32 c) (u32 d).
Proof. bits32. Qed.

Lemma I_word b c d : u32 (c .^ (b .| ~~ d)) = Reference.I (u32 b) (u32 c) (u32 d).
Proof. bits32. Qed.

(** [(a << s | a >>> 32 - s) + b << 0] rotates and adds. *)
Lemma rot_add_word a s b : 0 < s < 32 -> u32 (rot_add a s b) = u32 (u32 b + Reference.rotl (u32 a) s).
Proof.
  intros Hs. unfold rot_add. rewrite u32_of_i32, u32_add, u32_or, u32_shl, u32_shr by lia.
  unfold Reference.rotl. rewrite (Z.add_comm _ (u32 b)). reflexivity.
Qed.

(** One step of the code: [a += f + x + t; a = (a << s | a >>> 32 - s) + b << 0]. *)
Lemma step_word a f x t s b F' X' T' : 0 < s < 32 -> u32 f = F' -> u32 x = X' -> u32 t = T' ->
  u32 (rot_add (a + (f + x + t)) s b) = u32 (u32 b + Reference.rotl (u32 (u32 a + F' + X' + T')) s).
Proof.
  intros Hs <- <- <-. rewrite rot_add_word by easy. do 3 f_equal.
  unfold wrapu. set (M := 2 ^ 32). assert (HM : M <> 0) by easy.
  assert (E : forall z, z = z mod M + (z / M) * M) by (intros z; pose proof (Z.div_mod z M HM); lia).
  rewrite (E a), (E f), (E x), (E t) at 1.
  match goal with |- ?l mod M = ?r mod M =>
    replace l with (r + (a / M + f / M + x / M + t / M) * M) by ring end.
  now apply Z_mod_plus_full.
Qed.

(** One step of a quad: names the new register and what it is as a word. *)
Ltac step_as x' E a f x t s b lem :=
  pose proof (step_word a f x t s b _ _ _ ltac:(lia) lem eq_refl eq_refl) as E;
  set (x' := rot_add (a + (f + x + t)) s b) in *; clearbody x'.

(** The four steps of the reference that a quad performs. *)
Definition quad_ref (f : Z -> Z -> Z -> Z) (s0 s1 s2 s3 x0 x1 x2 x3 t0 t1 t2 t3 : Z) (r : regs) : regs :=
  Reference.op f x3 t3 s3 (Reference.op f x2 t2 s2 (Reference.op f x1 t1 s1 (Reference.op f x0 t0 s0 r))).

Section Quads.

Variable m : memory.
Variables k0 k1 k2 k3 : nat.
Variables t0 t1 t2 t3 : Z.
Let x0 := u32 (read m k0).
Let x1 := u32 (read m k1).
Let x2 := u32 (read m k2).
Let x3 := u32 (read m k3).

Lemma quad_F_word r : u32_regs (quad_F m k0 k1 k2 k3 t0 t1 t2 t3 r) =
  quad_ref Reference.F 7 12 17 22 x0 x1 x2 x3 (u32 t0) (u32 t1) (u32 t2) (u32 t3) (u32_regs r).
Proof.
  destruct r as [[[a b] c] d]. unfold quad_F. cbv zeta.
  step_as a' Ea a (d .^ (b .& (c .^ d))) (read m k0) t0 7 b (F_word b c d).
  step_as d' Ed d (c .^ (a' .& (b .^ c))) (read m k1) t1 12 a' (F_word a' b c).
  step_as c' Ec c (b .^ (d' .& (a' .^ b))) (read m k2) t2 17 d' (F_word d' a' b).
  step_as b' Eb b (a' .^ (c' .& (d' .^ a'))) (read m k3) t3 22 c' (F_word c' d' a').
  unfold quad_ref, Reference.op, u32_regs, x0, x1, x2, x3. now rewrite <- Ea, <- Ed, <- Ec, <- Eb.
Qed.

Lemma quad_G_word r : u32_regs (quad_G m k0 k1 k2 k3 t0 t1 t2 t3 r) =
  quad_ref Reference.G 5 9 14 20 x0 x1 x2 x3 (u32 t0) (u32 t1) (u32 t2) (u32 t3) (u32_regs r).
Proof.
  destruct r as [[[a b] c] d]. unfold quad_G. cbv zeta.
  step_as a' Ea a (c .^ (d .& (b .^ c))) (read m k0) t0 5 b (G_word b c d).
  step_as d' Ed d (b .^ (c .& (a' .^ b))) (read m k1) t1 9 a' (G_word a' b c).
  step_as c' Ec c (a' .^ (b .& (d' .^ a'))) (read m k2) t2 14 d' (G_word d' a' b).
  step_as b' Eb b (d' .^ (a' .& (c' .^ d'))) (read m k3) t3 20 c' (G_word c' d' a').
  unfold quad_ref, Reference.op, u32_regs, x0, x1, x2, x3. now rewrite <- Ea, <- Ed, <- Ec, <- Eb.
Qed.

Lemma quad_H_word r : u32_regs (quad_H m k0 k1 k2 k3 t0 t1 t2 t3 r) =
  quad_ref Reference.H 4 11 16 23 x0 x1 x2 x3 (u32 t0) (u32 t1) (u32 t2) (u32 t3) (u32_regs r).
Proof.
  destruct r as [[[a b] c] d]. unfold quad_H. cbv zeta.
  step_as a' Ea a ((b .^ c) .^ d) (read m k0) t0 4 b (H_word b c d).
  step_as d' Ed d ((b .^ c) .^ a') (read m k1) t1 11 a' (H_word' a' b c).
  step_as c' Ec c ((d' .^ a') .^ b) (read m k2) t2 16 d' (H_word d' a' b).
  step_as b' Eb b ((d' .^ a') .^ c') (read m k3) t3 23 c' (H_word' c' d' a').
  unfold quad_ref, Reference.op, u32_regs, x0, x1, x2, x3. now rewrite <- Ea, <- Ed, <- Ec, <- Eb.
Qed.

Lemma quad_I_word r : u32_regs (quad_I m k0 k1 k2 k3 t0 t1 t2 t3 r) =
  quad_ref Reference.I 6 10 15 21 x0 x1 x2 x3 (u32 t0) (u32 t1) (u32 t2) (u32 t3) (u32_regs r).
Proof.
  destruct r as [[[a b] c] d]. unfold quad_I. cbv zeta.
  step_as a' Ea a (c .^ (b .| ~~ d)) (read m k0) t0 6 b (I_word b c d).
  step_as d' Ed d (b .^ (a' .| ~~ c)) (read m k1) t1 10 a' (I_word a' b c).
  step_as c' Ec c (a' .^ (d' .| ~~ b)) (read m k2) t2 15 d' (I_word d' a' b).
  step_as b' Eb b (d' .^ (c' .| ~~ a')) (read m k3) t3 21 c' (I_word c' d' a').
  unfold quad_ref, Reference.op, u32_regs, x0, x1, x2, x3. now rewrite <- Ea, <- Ed, <- Ec, <- Eb.
Qed.

End Quads.

Definition initial : regs := (1732584193, -271733879, -1732584194, 271733878).

Lemma rot7_sub x b : i32 (((x <<< 7) .| (x >>> 25)) - b) = rot_add x 7 (- b).
Proof. unfold rot_add. rewrite <- Z.add_opp_r. reflexivity. Qed.

Lemma initial_constants :
  271733878 .^ (-271733879 .& (-1732584194 .^ 271733878)) = -1732584194 /\
  -271733879 .^ -1732584194 = 2004318071.
Proof. now split. Qed.

#[local] Opaque js_and js_xor rot_add.

(** The folded start of the first block is the general one on the initial registers. *)
Lemma first_quad_general m :
  first_quad m = quad_F m 0 1 2 3 (-680876936) (-389564586) 606105819 (-1044525330) initial.
Proof.
  unfold first_quad, quad_F, initial. cbv zeta. destruct initial_constants as [-> ->]. rewrite rot7_sub.
  assert (Ea : read m 0 - 680876937 = 1732584193 + (-1732584194 + read m 0 + -680876936)) by ring.
  rewrite <- Ea. change (- (271733879)) with (-271733879). generalize (rot_add (read m 0 - 680876937) 7 (-271733879)). intros a.
  assert (Ed : forall x, x + read m 1 - 117830708 = 271733878 + (x + read m 1 + -389564586)) by (intros; ring).
  rewrite <- Ed. generalize (rot_add ((-1732584194 .^ (a .& 2004318071)) + read m 1 - 117830708) 12 a). intros d.
  assert (Ec : forall x, x + read m 2 - 1126478375 = -1732584194 + (x + read m 2 + 606105819)) by (intros; ring).
  rewrite <- Ec. generalize (rot_add ((-271733879 .^ (d .& (a .^ -271733879))) + read m 2 - 1126478375) 17 d). intros c.
  assert (Eb : forall x, x + read m 3 - 1316259209 = -271733879 + (x + read m 3 + -1044525330)) by (intros; ring).
  rewrite <- Eb. reflexivity.
Qed.

#[local] Transparent js_and js_xor rot_add.

(** The words of the block that a memory holds. *)
Definition block_words (m : memory) : list Z := map (fun k => u32 (read m k)) (seq 0 16).

(** The sixty steps after the first four. *)
Lemma rounds_word m r : u32_regs (rounds m r) = fold_left (Reference.step (block_words m)) (seq 4 60) (u32_regs r).
Proof.
  unfold rounds. cbv zeta.
  rewrite !quad_I_word, !quad_H_word, !quad_G_word, !quad_F_word. reflexivity.
Qed.

Lemma first_steps_word m r :
  u32_regs (quad_F m 0 1 2 3 (-680876936) (-389564586) 606105819 (-1044525330) r) =
  fold_left (Reference.step (block_words m)) (seq 0 4) (u32_regs r).
Proof. rewrite quad_F_word. reflexivity. Qed.

Definition u32_add4 (r r' : regs) : regs := Reference.add4 (u32_regs r) (u32_regs r').

(** The registers of an object: the initial ones until a block is done. *)
Definition registers (s : Md5) : regs :=
  if first s then Reference.IV else (u32 (h0 s), u32 (h1 s), u32 (h2 s), u32 (h3 s)).

Lemma hash_registers s : registers (hash s) = Reference.compress (registers s) (block_words (blocks s)).
Proof.
  unfold hash, Reference.compress. change (seq 0 64) with (seq 0 4 ++ seq 4 60). rewrite fold_left_app.
  assert (Hr : u32_regs (rounds (blocks s) (if first s then first_quad (blocks s) else
      quad_F (blocks s) 0 1 2 3 (-680876936) (-389564586) 606105819 (-1044525330) (h0 s, h1 s, h2 s, h3 s))) =
    fold_left (Reference.step (block_words (blocks s))) (seq 4 60)
      (fold_left (Reference.step (block_words (blocks s))) (seq 0 4) (registers s))).
  { rewrite rounds_word. f_equal. unfold registers. destruct (first s).
    - rewrite first_quad_general, first_steps_word. reflexivity.
    - apply first_steps_word. }
  destruct (rounds _ _) as [[[a b] c] d]. rewrite <- Hr.
  unfold registers. destruct (first s); cbn [first h0 h1 h2 h3 Reference.add4 u32_regs Reference.IV].
  - change 0x67452301 with (u32 1732584193). change 0xefcdab89 with (u32 (-271733879)).
    change 0x98badcfe with (u32 (-1732584194)). change 0x10325476 with (u32 271733878).
    rewrite !u32_of_i32, <- !u32_add, (Z.add_comm 1732584193), (Z.add_comm (-271733879)),
      (Z.add_comm (-1732584194)), (Z.add_comm 271733878). reflexivity.
  - now rewrite !u32_of_i32, <- !u32_add.
Qed.

(** ** Block memory as bytes *)

Definition mem_bytes (m : memory) : list Z :=
  match m with Buffer b => b | Words w => flat_map (le_bytes 4) w end.

(** 68 bytes. *)
Definition mem_ok (m : memory) : Prop :=
  match m with Buffer b => List.length b = 68%nat /\ bytes_ok b | Words w => List.length w = 17%nat end.

Lemma flat_map_words_length w : List.length (flat_map (le_bytes 4) w) = (4 * List.length w)%nat.
Proof. induction w as [|x w IH]; [easy|]. cbn [flat_map]. rewrite length_app, length_le_bytes, IH. cbn. lia. Qed.

Lemma flat_map_words_split w k : (k < List.length w)%nat ->
  exists a x c, w = a ++ x :: c /\ List.length a = k /\ nth k w 0 = x.
Proof.
  intros H. exists (firstn k w), (nth k w 0), (skipn (S k) w). splits; [|rewrite length_firstn; lia|easy].
  rewrite <- (firstn_skipn k w) at 1. f_equal.
  revert w H. induction k as [|k IH]; intros [|y w] H; cbn in *; try lia; [easy|]. apply IH. lia.
Qed.

Lemma mem_length m : mem_ok m -> List.length (mem_bytes m) = 68%nat.
Proof. destruct m as [b|w]; cbn; intros H; [easy|]. rewrite flat_map_words_length, H. reflexivity. Qed.

Lemma mem_bytes_ok m : mem_ok m -> bytes_ok (mem_bytes m).
Proof.
  destruct m as [b|w]; intros H; [apply H|]. unfold mem_bytes. clear H. induction w as [|x w IH]; [constructor|].
  cbn [flat_map]. apply bytes_app. split; [apply le_bytes_ok|easy].
Qed.

(** Reading a word. *)
Lemma read_word m k : mem_ok m -> (k < 17)%nat ->
  u32 (read m k) = le_val (firstn 4 (skipn (4 * k) (mem_bytes m))).
Proof.
  intros Hm Hk. destruct m as [b|w]; cbn [read mem_bytes mem_ok] in *.
  - destruct Hm as [Hl Hb]. apply wrapu_id. unfold in_u.
    assert (B : bytes_ok (firstn 4 (skipn (4 * k) b))) by (now apply Forall_firstn_n, Forall_skipn_n).
    pose proof (le_val_range _ B) as R. rewrite length_firstn, length_skipn, Hl in R.
    replace (Nat.min 4 (68 - 4 * k)) with 4%nat in R by lia. exact R.
  - destruct (flat_map_words_split w k) as (a & x & c & E & Ha & En); [lia|]. rewrite En, E, flat_map_app.
    rewrite skipn_app, skipn_all2, flat_map_words_length by (rewrite flat_map_words_length; lia).
    rewrite Ha, Nat.sub_diag. cbn [app skipn flat_map].
    rewrite firstn_app, length_le_bytes, Nat.sub_diag, firstn_all2 by (now rewrite length_le_bytes).
    cbn [firstn]. now rewrite app_nil_r, le_val_u32.
Qed.

(** Writing a word. *)
Lemma write_ok m k v : mem_ok m -> (k < 17)%nat ->
  mem_ok (write k v m) /\ mem_bytes (write k v m) = splice (4 * k) (le_bytes 4 v) (mem_bytes m).
Proof.
  intros Hm Hk. destruct m as [b|w]; cbn [write mem_bytes mem_ok] in *.
  - destruct Hm as [Hl Hb]. splits; [rewrite length_splice; [easy|rewrite length_le_bytes; lia]| |easy].
    unfold splice. apply bytes_app. split; [now apply Forall_firstn_n|]. apply bytes_app.
    split; [apply le_bytes_ok|now apply Forall_skipn_n].
  - split; [rewrite length_splice; cbn; lia|].
    destruct (flat_map_words_split w k) as (a & x & c & E & Ha & _); [lia|]. subst w.
    change (a ++ x :: c) with (a ++ [x] ++ c). rewrite (splice_at k) by easy.
    rewrite !flat_map_app. cbn [flat_map]. rewrite !app_nil_r.
    rewrite (splice_at (4 * k)); [easy| |now rewrite !length_le_bytes].
    rewrite flat_map_words_length. lia.
Qed.

(** ** Memory that holds a text *)

(** The memory holds [content] from its first byte, and zeros behind it. *)
Record holds (m : memory) (content : list Z) : Prop := {
  holds_ok : mem_ok m;
  holds_room : (List.length content <= 68)%nat;
  holds_bytes : mem_bytes m = content ++ repeat 0 (68 - List.length content)
}.

Lemma index_table : forallb (fun n =>
    Nat.eqb (quarter (Z.of_nat n)) (n / 4) && (shift_of SHIFT (Z.of_nat n) =? 8 * Z.of_nat (n mod 4)) &&
    (u32 (shift_of EXTRA (Z.of_nat n)) =? 128 * 2 ^ (8 * Z.of_nat (n mod 4)))) (seq 0 68) = true.
Proof. vm_compute. reflexivity. Qed.

(** [i >> 2], [SHIFT[i & 3]] and [EXTRA[i & 3]]. *)
Lemma index_spec n : (n < 68)%nat ->
  quarter (Z.of_nat n) = (n / 4)%nat /\ shift_of SHIFT (Z.of_nat n) = 8 * Z.of_nat (n mod 4) /\
  u32 (shift_of EXTRA (Z.of_nat n)) = 128 * 2 ^ (8 * Z.of_nat (n mod 4)).
Proof.
  intros H. pose proof index_table as T. rewrite forallb_forall in T.
  specialize (T n (proj2 (in_seq 68 0 n) (conj (Nat.le_0_l n) H))).
  rewrite !andb_true_iff, Nat.eqb_eq, !Z.eqb_eq in T. tauto.
Qed.

Lemma le_val_zeros a n : le_val (a ++ repeat 0 n) = le_val a.
Proof.
  rewrite le_val_app. replace (le_val (repeat 0 n)) with 0; [lia|].
  induction n as [|n IH]; [easy|]. cbn [repeat le_val]. lia.
Qed.

Lemma zeros_ok n : bytes_ok (repeat 0 n).
Proof. apply Forall_forall. intros y Hy. apply repeat_spec in Hy. subst y. unfold byte_ok. lia. Qed.

(** Adding a byte with [|=] where the memory is still zero. *)
Lemma or_byte m content v x : holds m content -> bytes_ok content -> byte_ok v -> (List.length content < 68)%nat ->
  u32 x = v * 2 ^ (8 * Z.of_nat (List.length content mod 4)) ->
  holds (write (List.length content / 4) (read m (List.length content / 4) .| x) m) (content ++ [v]).
Proof.
  intros [Ho Hr Hb] Hc Hv Hn Hx. set (n := List.length content) in *.
  set (k := (n / 4)%nat) in *. set (j := (n mod 4)%nat) in *.
  assert (Hj : (j < 4)%nat) by (apply Nat.mod_upper_bound; lia).
  assert (Hnk : n = (4 * k + j)%nat) by (apply Nat.div_mod_eq).
  assert (Hk : (k < 17)%nat) by lia.
  set (pre := firstn (4 * k) content). set (part := skipn (4 * k) content).
  assert (Ec : content = pre ++ part) by (symmetry; apply firstn_skipn).
  assert (Lp : List.length pre = (4 * k)%nat) by (unfold pre; rewrite length_firstn; lia).
  assert (Lq : List.length part = j) by (unfold part; rewrite length_skipn; lia).
  assert (Bq : bytes_ok part) by (now apply Forall_skipn_n).
  assert (Em : mem_bytes m = pre ++ (part ++ repeat 0 (4 - j)) ++ repeat 0 (68 - 4 * k - 4)).
  { rewrite Hb, Ec, <- !app_assoc, <- repeat_app. do 3 f_equal. lia. }
  assert (Rd : u32 (read m k) = le_val part).
  { rewrite read_word, Em, skipn_app, skipn_all2, Lp, Nat.sub_diag by (easy || lia). cbn [app skipn].
    rewrite firstn_app, firstn_all2 by (rewrite length_app, repeat_length; lia).
    rewrite length_app, repeat_length, Lq. replace (4 - (j + (4 - j)))%nat with 0%nat by lia.
    cbn [firstn]. now rewrite app_nil_r, le_val_zeros. }
  destruct (write_ok m k (read m k .| x) Ho Hk) as [Wo Wb]. split; [exact Wo|rewrite length_app; cbn; lia|].
  rewrite Wb, Em, (splice_at (4 * k)); [|exact Lp|rewrite length_app, repeat_length, length_le_bytes; lia].
  rewrite Ec, <- !app_assoc. f_equal.
  assert (Val : u32 (read m k .| x) = le_val (part ++ [v] ++ repeat 0 (3 - j))).
  { rewrite u32_or, Rd, Hx, app_assoc, le_val_zeros, le_val_app, Lq. cbn [le_val].
    rewrite Z.lor_comm. replace (v * 2 ^ (8 * Z.of_nat j)) with (Z.shiftl v (8 * Z.of_nat j)) by
      (rewrite Z.shiftl_mul_pow2; lia).
    rewrite lor_shiftl_add.
    - lia.
    - lia.
    - pose proof (le_val_range part Bq) as R. now rewrite Lq in R. }
  rewrite <- le_bytes_u32, Val.
  assert (L4 : List.length (part ++ [v] ++ repeat 0 (3 - j)) = 4%nat)
    by (rewrite !length_app, repeat_length, Lq; cbn [List.length]; lia).
  assert (B4 : bytes_ok (part ++ [v] ++ repeat 0 (3 - j))).
  { apply bytes_app. split; [easy|]. apply bytes_app. split; [constructor; [exact Hv|constructor]|]. apply zeros_ok. }
  pose proof (le_bytes_val _ B4) as E4. rewrite L4 in E4. rewrite E4, <- !app_assoc, <- repeat_app.
  do 3 f_equal. rewrite !length_app, Lp, Lq. cbn [List.length]. lia.
Qed.

(** [put] adds a byte, in either memory. *)
Lemma put_byte m content v : holds m content -> bytes_ok content -> byte_ok v -> (List.length content < 68)%nat ->
  holds (put (Z.of_nat (List.length content)) v m) (content ++ [v]).
Proof.
  intros H Hc Hv Hn. destruct (index_spec _ Hn) as (Eq & Es & _). destruct m as [b|w].
  - destruct H as [[Hl Hb] Hr Hm]. cbn [put mem_bytes mem_ok] in *. rewrite Nat2Z.id.
    rewrite Z.mod_small by (exact Hv).
    assert (E : b = content ++ [0] ++ repeat 0 (67 - List.length content)).
    { rewrite Hm. f_equal. change [0] with (repeat 0 1). rewrite <- repeat_app. f_equal. lia. }
    rewrite E, (splice_at (List.length content)) by easy. split.
    + cbn [mem_ok]. split; [rewrite <- Hl, E, !length_app; cbn; lia|].
      rewrite E in Hb. apply bytes_app in Hb as [B1 B2]. apply bytes_app in B2 as [_ B2].
      apply bytes_app. split; [easy|]. apply bytes_app. split; [constructor; [exact Hv|constructor]|easy].
    + rewrite length_app. cbn. lia.
    + cbn [mem_bytes]. rewrite <- app_assoc. do 2 f_equal. rewrite length_app. cbn [List.length]. f_equal. lia.
  - cbn [put]. rewrite Eq. apply or_byte; try easy. rewrite Es, u32_shl.
    + rewrite Z.shiftl_mul_pow2 by lia. rewrite (wrapu_id 32 v) by (unfold in_u, byte_ok in *; lia).
      apply wrapu_id. unfold in_u, byte_ok in *.
      assert (List.length content mod 4 < 4)%nat by (apply Nat.mod_upper_bound; lia).
      assert (0 < 2 ^ (8 * Z.of_nat (List.length content mod 4)) <= 2 ^ 24)
        by (split; [apply Z.pow_pos_nonneg; lia|apply Z.pow_le_mono_r; lia]).
      change (2 ^ 32) with (256 * 2 ^ 24). nia.
    + assert (List.length content mod 4 < 4)%nat by (apply Nat.mod_upper_bound; lia). lia.
Qed.

(** ** Messages as bytes *)

(** UTF-8 of code units; the unit after a surrogate is taken as its pair. *)
Fixpoint utf8 (l : list Z) : list Z :=
  match l with
  | [] => []
  | c :: l' =>
      if c <? 0x80 then c :: utf8 l'
      else if c <? 0x800 then [0xc0 + c / 64; 0x80 + c mod 64] ++ utf8 l'
      else if (c <? 0xd800) || (0xe000 <=? c)
      then [0xe0 + c / 4096; 0x80 + c / 64 mod 64; 0x80 + c mod 64] ++ utf8 l'
      else
        let d := match l' with d :: _ => d | [] => 0 end in
        let p := 0x10000 + (c mod 1024 * 1024 + d mod 1024) in
        [0xf0 + p / 262144; 0x80 + p / 4096 mod 64; 0x80 + p / 64 mod 64; 0x80 + p mod 64] ++
        match l' with _ :: l'' => utf8 l'' | [] => [] end
  end.

Definition units_ok (l : list Z) : Prop := Forall (fun c => 0 <= c < 65536) l.

Lemma tail_byte x : 0 <= x < 64 -> 0x80 .| x = 0x80 + x.
Proof. intros H. exact (or_add 2 6 x ltac:(lia) ltac:(lia) ltac:(lia) ltac:(lia)). Qed.

Lemma lead2 x : 0 <= x < 32 -> 0xc0 .| x = 0xc0 + x.
Proof. intros H. exact (or_add 6 5 x ltac:(lia) ltac:(lia) ltac:(lia) ltac:(lia)). Qed.

Lemma lead3 x : 0 <= x < 16 -> 0xe0 .| x = 0xe0 + x.
Proof. intros H. exact (or_add 14 4 x ltac:(lia) ltac:(lia) ltac:(lia) ltac:(lia)). Qed.

Lemma lead4 x : 0 <= x < 8 -> 0xf0 .| x = 0xf0 + x.
Proof. intros H. exact (or_add 30 3 x ltac:(lia) ltac:(lia) ltac:(lia) ltac:(lia)). Qed.

(** The bytes that the code computes of a code point. *)
Lemma code_bytes c : 0 <= c < 2 ^ 31 ->
  c >> 6 = c / 64 /\ c >> 12 = c / 4096 /\ c >> 18 = c / 262144 /\
  0x80 .| (c .& 0x3f) = 0x80 + c mod 64 /\
  0x80 .| ((c >> 6) .& 0x3f) = 0x80 + c / 64 mod 64 /\
  0x80 .| ((c >> 12) .& 0x3f) = 0x80 + c / 4096 mod 64.
Proof.
  intros H. rewrite !sar_small by lia. change (2 ^ 6) with 64. change (2 ^ 12) with 4096. change (2 ^ 18) with 262144.
  change 0x3f with (2 ^ 6 - 1).
  assert (0 <= c / 64 < 2 ^ 31 /\ 0 <= c / 4096 < 2 ^ 31)
    by (split; (split; [apply Z.div_pos; lia|apply Z.div_lt_upper_bound; lia])).
  rewrite !and_mask by lia. change (2 ^ 6) with 64.
  pose proof (Z.mod_pos_bound c 64 ltac:(lia)). pose proof (Z.mod_pos_bound (c / 64) 64 ltac:(lia)).
  pose proof (Z.mod_pos_bound (c / 4096) 64 ltac:(lia)). rewrite !tail_byte by lia. now splits.
Qed.

(** The code point of a pair. *)
Lemma pair_point c d : 0 <= c < 65536 -> 0 <= d < 65536 ->
  ((c .& 0x3ff) <<< 10) .| (d .& 0x3ff) = c mod 1024 * 1024 + d mod 1024.
Proof.
  intros Hc Hd. change 0x3ff with (2 ^ 10 - 1). rewrite !and_mask by lia. change (2 ^ 10) with 1024.
  pose proof (Z.mod_pos_bound c 1024 ltac:(lia)). pose proof (Z.mod_pos_bound d 1024 ltac:(lia)).
  unfold js_shl. rewrite (i32_small (c mod 1024)) by lia. change (10 mod 32) with 10.
  rewrite Z.shiftl_mul_pow2, i32_small by lia. apply (or_add _ 10); lia.
Qed.

(** ** Filling the memory *)

Definition has (m : memory) (content : list Z) : Prop := holds m content /\ bytes_ok content.

Lemma has_put m content i v : has m content -> i = zlen content -> byte_ok v -> i < 68 ->
  has (put i v m) (content ++ [v]).
Proof.
  intros [H B] -> Hv Hi. unfold zlen in *. split; [apply put_byte; easy || lia|].
  apply bytes_app. split; [easy|]. constructor; [exact Hv|constructor].
Qed.

(** Bytes put one after the other. *)
Fixpoint puts (i : Z) (l : list Z) (m : memory) : memory :=
  match l with
  | [] => m
  | v :: l => puts (i + 1) l (put i v m)
  end.

Lemma has_puts l m content i : has m content -> i = zlen content -> bytes_ok l -> i + zlen l <= 68 ->
  has (puts i l m) (content ++ l).
Proof.
  revert m content i. induction l as [|v l IH]; intros m content i H Hi Hl Hr; cbn [puts].
  - now rewrite app_nil_r.
  - inversion Hl as [|? ? Hv Hl']; subst. rewrite zlen_cons in Hr. pose proof (zlen_nonneg l).
    change (v :: l) with ([v] ++ l). rewrite app_assoc. apply IH; try easy.
    + apply has_put; easy || lia.
    + rewrite zlen_app. reflexivity.
    + lia.
Qed.

(** What a loop over a part of the message leaves. *)
Record filled (m : memory) (content front : list Z) (i : Z) (m' : memory) : Prop := {
  filled_has : has m' (content ++ front);
  filled_index : i = zlen (content ++ front);
  filled_room : i <= 67
}.

Lemma fill_array_spec l m content : has m content -> zlen content <= 64 -> bytes_ok l ->
  exists i m' (front rest : list Z), fill_array (zlen content) m l = (i, m', rest) /\ l = front ++ rest /\
  filled m content front i m' /\ (rest = [] \/ 64 <= i) /\ (zlen content < 64 -> l <> [] -> front <> []).
Proof.
  revert m content. induction l as [|b l IH]; intros m content H Hc Hl.
  - exists (zlen content), m, [], []. splits; try easy; [|now left]. split; rewrite ?app_nil_r; easy || lia.
  - cbn [fill_array]. inversion Hl as [|? ? Hb Hl']; subst. destruct (Z.ltb_spec (zlen content) 64).
    + assert (H' : has (put (zlen content) b m) (content ++ [b])) by (apply has_put; easy || lia).
      assert (E : zlen content + 1 = zlen (content ++ [b])) by (rewrite zlen_app; reflexivity).
      destruct (IH _ _ H' ltac:(lia) Hl') as (i & m' & front & rest & Ef & El & Hf & Hr & _).
      exists i, m', (b :: front), rest. rewrite E. splits; try easy; [now rewrite El|].
      destruct Hf as [F1 F2 F3]. rewrite <- app_assoc in F1, F2. now split.
    + exists (zlen content), m, [], (b :: l). splits; try easy; try lia. split; rewrite ?app_nil_r; easy || lia.
Qed.

(** The bytes of the first character of a text, and the text behind it. *)
Definition first_char (c : Z) (l : list Z) : list Z * list Z :=
  if c <? 0x80 then ([c], l)
  else if c <? 0x800 then ([0xc0 + c / 64; 0x80 + c mod 64], l)
  else if (c <? 0xd800) || (0xe000 <=? c)
  then ([0xe0 + c / 4096; 0x80 + c / 64 mod 64; 0x80 + c mod 64], l)
  else
    let d := match l with d :: _ => d | [] => 0 end in
    let p := 0x10000 + (c mod 1024 * 1024 + d mod 1024) in
    ([0xf0 + p / 262144; 0x80 + p / 4096 mod 64; 0x80 + p / 64 mod 64; 0x80 + p mod 64], tl l).

Lemma utf8_step c l : utf8 (c :: l) = fst (first_char c l) ++ utf8 (snd (first_char c l)).
Proof.
  cbn [utf8]. unfold first_char. destruct (c <? 0x80); [reflexivity|]. destruct (c <? 0x800); [reflexivity|].
  destruct ((c <? 0xd800) || (0xe000 <=? c)); [reflexivity|]. now destruct l.
Qed.

Lemma first_char_ok c l : 0 <= c < 65536 -> units_ok l ->
  bytes_ok (fst (first_char c l)) /\ 1 <= zlen (fst (first_char c l)) <= 4 /\ units_ok (snd (first_char c l)) /\
  (List.length (snd (first_char c l)) <= List.length l)%nat.
Proof.
  intros Hc Hl. unfold first_char.
  assert (B : forall x, 0x80 <= 0x80 + x mod 64 < 256) by (intros x; pose proof (Z.mod_pos_bound x 64 ltac:(lia)); lia).
  destruct (Z.ltb_spec c 0x80); [|destruct (Z.ltb_spec c 0x800);
    [|destruct ((c <? 0xd800) || (0xe000 <=? c))]]; cbn [fst snd]; splits; try easy; try (cbn; lia).
  - repeat constructor; unfold byte_ok; lia.
  - assert (c / 64 < 32) by (apply Z.div_lt_upper_bound; lia). assert (0 <= c / 64) by (apply Z.div_pos; lia).
    repeat apply Forall_cons; try apply Forall_nil; unfold byte_ok; specialize (B c); lia.
  - assert (c / 4096 < 16) by (apply Z.div_lt_upper_bound; lia). assert (0 <= c / 4096) by (apply Z.div_pos; lia).
    pose proof (B c). pose proof (B (c / 64)).
    repeat apply Forall_cons; try apply Forall_nil; unfold byte_ok; lia.
  - set (p := 0x10000 + _).
    assert (Hp : 0 <= p < 2 ^ 21).
    { unfold p. pose proof (Z.mod_pos_bound c 1024 ltac:(lia)).
      pose proof (Z.mod_pos_bound (match l with d :: _ => d | [] => 0 end) 1024 ltac:(lia)). lia. }
    assert (p / 262144 < 8) by (apply Z.div_lt_upper_bound; lia). assert (0 <= p / 262144) by (apply Z.div_pos; lia).
    pose proof (B p). pose proof (B (p / 64)). pose proof (B (p / 4096)).
    repeat apply Forall_cons; try apply Forall_nil; unfold byte_ok; lia.
  - destruct l; [easy|]. now inversion Hl.
  - destruct l; cbn; lia.
Qed.

(** One turn of the loop over a text. *)
Lemma fill_text_step i m c l : 0 <= c < 65536 -> units_ok l -> i < 64 ->
  fill_text i m (c :: l) =
  fill_text (i + zlen (fst (first_char c l))) (puts i (fst (first_char c l)) m) (snd (first_char c l)).
Proof.
  intros Hc Hl Hi. cbn [fill_text]. rewrite (proj2 (Z.ltb_lt i 64) Hi). unfold first_char.
  pose proof (code_bytes c ltac:(lia)) as (S6 & S12 & _ & T0 & T6 & _).
  destruct (Z.ltb_spec c 0x80); [reflexivity|]. rewrite T0, T6, S6, S12.
  destruct (Z.ltb_spec c 0x800).
  - rewrite lead2 by (split; [apply Z.div_pos; lia|apply Z.div_lt_upper_bound; lia]). reflexivity.
  - destruct ((c <? 0xd800) || (0xe000 <=? c)).
    + rewrite lead3 by (split; [apply Z.div_pos; lia|apply Z.div_lt_upper_bound; lia]).
      cbn [puts fst snd]. replace (i + 1 + 1) with (i + 2) by lia. reflexivity.
    + set (d := match l with d :: _ => d | [] => 0 end).
      assert (Hd : 0 <= d < 65536) by (unfold d; destruct l as [|d' l']; [lia|]; now inversion Hl).
      cbv zeta. rewrite pair_point by easy. set (p := 0x10000 + (c mod 1024 * 1024 + d mod 1024)).
      assert (Hp : 0 <= p < 2 ^ 21).
      { unfold p. pose proof (Z.mod_pos_bound c 1024 ltac:(lia)). pose proof (Z.mod_pos_bound d 1024 ltac:(lia)). lia. }
      destruct (code_bytes p ltac:(lia)) as (_ & _ & S18 & T0' & T6' & T12').
      rewrite T0', T6', T12', S18, lead4 by (split; [apply Z.div_pos; lia|apply Z.div_lt_upper_bound; lia]).
      cbn [puts fst snd]. replace (i + 1 + 1) with (i + 2) by lia. replace (i + 2 + 1) with (i + 3) by lia.
      now destruct l.
Qed.

Lemma fill_text_spec l m content : has m content -> zlen content <= 67 -> units_ok l ->
  exists i m' (front rest : list Z), fill_text (zlen content) m l = (i, m', rest) /\ utf8 l = front ++ utf8 rest /\
  units_ok rest /\ (List.length rest <= List.length l)%nat /\
  filled m content front i m' /\ (rest = [] \/ 64 <= i) /\
  (zlen content < 64 -> l <> [] -> (List.length rest < List.length l)%nat).
Proof.
  remember (List.length l) as n eqn:En. assert (Hn : (List.length l <= n)%nat) by lia.
  revert l m content En Hn. induction n as [n IH] using lt_wf_ind. intros l m content En Hn H Hc Hl.
  assert (Stop : (l = [] \/ 64 <= zlen content) -> fill_text (zlen content) m l = (zlen content, m, l)).
  { intros [->|H64]; [reflexivity|]. destruct l as [|c l]; [reflexivity|]. cbn [fill_text].
    now rewrite (proj2 (Z.ltb_ge (zlen content) 64)). }
  destruct l as [|c l]; [|destruct (Z.lt_ge_cases (zlen content) 64) as [H64|H64]].
  - exists (zlen content), m, [], []. rewrite Stop by now left. splits; try easy; try lia; [|now left].
    split; rewrite ?app_nil_r; easy || lia.
  - inversion Hl as [|? ? Hcu Hl']; subst. destruct (first_char_ok c l Hcu Hl') as (B & Hz & Hu & Hlen).
    rewrite fill_text_step, utf8_step by easy.
    set (f := fst (first_char c l)) in *. set (r := snd (first_char c l)) in *.
    assert (H' : has (puts (zlen content) f m) (content ++ f)) by (apply has_puts; easy || lia).
    assert (E : zlen content + zlen f = zlen (content ++ f)) by (now rewrite zlen_app).
    rewrite E. assert (Hr67 : zlen (content ++ f) <= 67) by lia.
    destruct (IH (List.length r) ltac:(cbn; lia) r _ _ eq_refl (Nat.le_refl _) H' Hr67 Hu)
      as (i & m' & front & rest & Ef & Eu & Hur & Hlr & Hf & Hs & _).
    exists i, m', (f ++ front), rest. rewrite <- app_assoc, <- Eu. splits; try easy; cbn [List.length]; try lia.
    destruct Hf as [F1 F2 F3]. rewrite <- app_assoc in F1, F2. now split.
  - exists (zlen content), m, [], (c :: l). rewrite Stop by now right. splits; try easy; try lia.
    split; rewrite ?app_nil_r; easy || lia.
Qed.

(** ** Blocks *)

Definition message_bytes (msg : message) : list Z := match msg with Text u => utf8 u | Array l => l end.
Definition message_ok (msg : message) : Prop := match msg with Text u => units_ok u | Array l => bytes_ok l end.

Lemma message_length_nonneg msg : 0 <= message_length msg.
Proof. destruct msg; apply zlen_nonneg. Qed.

Lemma message_done msg : message_length msg = 0 -> message_bytes msg = [].
Proof. destruct msg as [[|c u]|[|b l]]; try easy; unfold message_length; rewrite zlen_cons; pose proof (zlen_nonneg u) || pose proof (zlen_nonneg l); lia. Qed.

(** One turn over a message of any kind: it takes a part of the message and leaves the rest. *)
Lemma fill_spec msg m content : has m content -> zlen content < 64 -> message_ok msg -> message_length msg <> 0 ->
  exists i m' (front : list Z) (rest : message), fill (zlen content) m msg = (i, m', rest) /\
    message_bytes msg = front ++ message_bytes rest /\ message_ok rest /\
    message_length rest < message_length msg /\ filled m content front i m' /\
    (message_length rest = 0 \/ 64 <= i).
Proof.
  intros H Hc Hm Hn. destruct msg as [u|l]; cbn [fill message_length message_ok message_bytes] in *.
  - destruct (fill_text_spec u m content H ltac:(lia) Hm) as (i & m' & front & rest & E & Eb & Ho & _ & Hf & Hr & Hd).
    rewrite E. exists i, m', front, (Text rest). splits; try easy.
    + cbn [message_length]. assert (u <> []) by (now intros ->). unfold zlen. specialize (Hd ltac:(lia) ltac:(easy)). lia.
    + cbn [message_length]. destruct Hr as [->|Hr]; [now left|now right].
  - destruct (fill_array_spec l m content H ltac:(lia) Hm) as (i & m' & front & rest & E & -> & Hf & Hr & Hd).
    rewrite E. apply bytes_app in Hm as [_ Ho]. exists i, m', front, (Array rest). splits; try easy.
    + cbn [message_length]. rewrite zlen_app. assert (front <> []) by (apply Hd; [lia|now intros E0; rewrite E0 in Hn]).
      destruct front as [|b front]; [easy|]. rewrite zlen_cons. pose proof (zlen_nonneg front). lia.
    + cbn [message_length]. destruct Hr as [->|Hr]; [now left|now right].
Qed.

Lemma block_words_bytes m : mem_ok m -> block_words m = Reference.words (firstn 64 (mem_bytes m)).
Proof.
  intros Hm. unfold block_words, Reference.words. apply map_ext_in. intros k Hk. apply in_seq in Hk.
  rewrite read_word, skipn_firstn_comm, firstn_firstn by (easy || lia). now rewrite Nat.min_l by lia.
Qed.

(** The block that a full memory holds. *)
Lemma block_words_has m block more : holds m (block ++ more) -> List.length block = 64%nat ->
  block_words m = Reference.words block.
Proof.
  intros [Ho _ Hb] Hl. rewrite block_words_bytes, Hb, <- app_assoc, firstn_app by easy.
  now rewrite <- Hl, Nat.sub_diag, firstn_O, app_nil_r, firstn_all.
Qed.

Lemma chunks_app n done more : List.length done = (64 * n)%nat -> List.length more = 64%nat ->
  Reference.chunks (S n) (done ++ more) = Reference.chunks n done ++ [more].
Proof.
  revert done. induction n as [|n IH]; intros done Hd Hm.
  - destruct done; [|easy]. cbn [app Reference.chunks]. now rewrite <- Hm, firstn_all.
  - change (Reference.chunks (S (S n)) (done ++ more)) with
      (firstn 64 (done ++ more) :: Reference.chunks (S n) (skipn 64 (done ++ more))).
    change (Reference.chunks (S n) done) with (firstn 64 done :: Reference.chunks n (skipn 64 done)).
    rewrite firstn_app, skipn_app. replace (64 - List.length done)%nat with 0%nat by lia.
    rewrite firstn_O, skipn_O, app_nil_r, IH; [easy| |easy]. rewrite length_skipn. lia.
Qed.

(** Whole blocks. *)
Definition whole (l : list Z) : Prop := exists n, List.length l = (64 * n)%nat.

Lemma whole_app a b : whole a -> List.length b = 64%nat -> whole (a ++ b).
Proof. intros [n Hn] Hb. exists (S n). rewrite length_app. lia. Qed.

Lemma absorb_block h done block : whole done -> List.length block = 64%nat ->
  Reference.absorb h (done ++ block) = Reference.compress (Reference.absorb h done) (Reference.words block).
Proof.
  intros [n Hn] Hb. unfold Reference.absorb. rewrite length_app, Hn, Hb.
  replace ((64 * n + 64) / 64)%nat with (S n) by (apply (Nat.div_unique _ _ _ 0); lia).
  replace (64 * n / 64)%nat with n by (apply (Nat.div_unique _ _ _ 0); lia).
  now rewrite chunks_app, fold_left_app.
Qed.

(** [hash] on a full memory. *)
Lemma hash_block s done block more : registers s = Reference.absorb Reference.IV done -> whole done ->
  holds (blocks s) (block ++ more) -> List.length block = 64%nat ->
  registers (hash s) = Reference.absorb Reference.IV (done ++ block).
Proof.
  intros Hr Hw Hh Hl. now rewrite hash_registers, (block_words_has _ _ _ Hh Hl), absorb_block, Hr.
Qed.

(** ** A new block *)

Lemma fold_writes l : forall m, mem_ok m -> Forall (fun k => (k < 17)%nat) l ->
  let m' := fold_left (fun m k => write k 0 m) l m in
  mem_ok m' /\ mem_bytes m' = fold_left (fun b k => splice (4 * k) [0; 0; 0; 0] b) l (mem_bytes m).
Proof.
  induction l as [|k l IH]; intros m Hm Hl; [easy|]. inversion Hl as [|? ? Hk Hl']; subst.
  destruct (write_ok m k 0 Hm Hk) as [Ho Hb]. cbn [fold_left]. destruct (IH _ Ho Hl') as [Ho' Hb'].
  split; [exact Ho'|]. rewrite Hb', Hb. reflexivity.
Qed.

Lemma cleared a b c d (l : list Z) : List.length l = 68%nat ->
  fold_left (fun b k => splice (4 * k) [0; 0; 0; 0] b) [16; 1; 2; 3; 4; 5; 6; 7; 8; 9; 10; 11; 12; 13; 14; 15]%nat
    (splice 0 [a; b; c; d] l) = [a; b; c; d] ++ repeat 0 64.
Proof. intros H. do 68 (destruct l as [|? l]; [discriminate H|]). destruct l; [reflexivity|discriminate H]. Qed.

(** The bytes past the block come to the front of the next one. *)
Lemma restart_holds m block tail : holds m (block ++ tail) -> List.length block = 64%nat -> (List.length tail <= 4)%nat ->
  bytes_ok tail -> holds (restart (read m 16) m) tail.
Proof.
  intros [Ho Hr Hb] Hl Ht Hv. rewrite length_app in Hr, Hb. unfold restart.
  destruct (write_ok m 0 (read m 16) Ho ltac:(lia)) as [O1 B1].
  destruct (fold_writes [16; 1; 2; 3; 4; 5; 6; 7; 8; 9; 10; 11; 12; 13; 14; 15]%nat _ O1 ltac:(repeat constructor)) as [O2 B2].
  assert (E : le_bytes 4 (read m 16) = tail ++ repeat 0 (4 - List.length tail)).
  { rewrite <- le_bytes_u32, read_word, Hb by (easy || lia). change (4 * 16)%nat with 64%nat.
    rewrite <- Hl, <- app_assoc, skipn_app, Nat.sub_diag, skipn_all, skipn_O, app_nil_l, Hl.
    replace (68 - (64 + List.length tail))%nat with (4 - List.length tail)%nat by lia.
    assert (L : List.length (tail ++ repeat 0 (4 - List.length tail)) = 4%nat) by (rewrite length_app, repeat_length; lia).
    rewrite firstn_all2 by lia. rewrite <- (le_bytes_val (tail ++ _)) at 2 by (apply bytes_app; split; [easy|apply zeros_ok]).
    now rewrite L. }
  split; [exact O2|lia|]. rewrite B2, B1. cbn [Nat.mul]. pose proof (length_le_bytes 4 (read m 16)) as L4.
  rewrite E in *. destruct (tail ++ repeat 0 (4 - List.length tail)) as [|a [|b [|c [|d [|]]]]] eqn:E4; try discriminate L4.
  rewrite cleared by (now apply mem_length). rewrite <- E4, <- app_assoc, <- repeat_app. do 2 f_equal. lia.
Qed.

(** ** Updates *)

(** The object after the bytes [done ++ tail]: [done] went through [hash], [tail] waits. *)
Record pending (s : Md5) (done tail : list Z) : Prop := {
  pending_whole : whole done;
  pending_registers : registers s = Reference.absorb Reference.IV done;
  pending_tail : zlen tail < 64;
  pending_bytes : bytes_ok tail;
  pending_start : start s = zlen tail;
  pending_memory :
    if hashed s
    then exists block, List.length block = 64%nat /\ holds (blocks s) (block ++ tail) /\ zlen tail <= 3 /\
      lastByteIndex s = Some (64 + zlen tail)
    else holds (blocks s) tail /\ match lastByteIndex s with Some i => i = zlen tail | None => tail = [] end
}.

Definition Inv (s : Md5) (total : list Z) : Prop :=
  finalized s = false /\ bytes s = zlen total /\ exists done tail, total = done ++ tail /\ pending s done tail.

Lemma hash_keeps s : blocks (hash s) = blocks s /\ start (hash s) = start s /\ bytes (hash s) = bytes s /\
  finalized (hash s) = finalized s /\ lastByteIndex (hash s) = lastByteIndex s /\ hashed (hash s) = hashed s.
Proof.
  unfold hash. destruct (rounds _ _) as [[[a b] c] d]. now destruct (first s).
Qed.

Lemma new_holds ab : holds (blocks (new_Md5 ab)) [].
Proof. destruct ab; (split; [|cbn; lia|reflexivity]); [split; [reflexivity|exact (zeros_ok 68)]|reflexivity]. Qed.

Lemma new_Inv ab : Inv (new_Md5 ab) [].
Proof.
  unfold Inv. splits; try easy. exists [], []. split; [easy|]. split; try easy; [now exists 0%nat|constructor|].
  cbn [hashed new_Md5 lastByteIndex]. split; [apply new_holds|easy].
Qed.

(** What [update] does before it fills the memory. *)
Definition prepared (s : Md5) : Md5 :=
  if hashed s then set_blocks (restart (read (blocks s) 16) (blocks s)) (set_hashed false s) else s.

Lemma prepared_ok s done tail : pending s done tail ->
  registers (prepared s) = registers s /\ start (prepared s) = start s /\ bytes (prepared s) = bytes s /\
  finalized (prepared s) = finalized s /\ hashed (prepared s) = false /\ has (blocks (prepared s)) tail.
Proof.
  intros [_ _ _ Hb _ Hm]. unfold prepared. destruct (hashed s) eqn:Eh.
  - destruct Hm as (block & Hl & Hh & Ht & _). splits; try easy. split; [|easy].
    cbn [blocks set_blocks set_hashed]. apply (restart_holds _ block); try easy. unfold zlen in Ht. lia.
  - destruct Hm as [Hh _]. now splits.
Qed.

(** A memory filled to the end is a block and at most three bytes. *)
Lemma filled_block (content : list Z) : 64 <= zlen content <= 67 ->
  content = firstn 64 content ++ skipn 64 content /\ List.length (firstn 64 content) = 64%nat /\
  zlen (skipn 64 content) = zlen content - 64.
Proof.
  intros H. splits; [now rewrite firstn_skipn| |unfold zlen in *; rewrite length_skipn; lia].
  rewrite length_firstn. unfold zlen in H. lia.
Qed.

(** One turn of the loop of [update]. *)
Lemma update_round_spec s total msg : Inv s total -> message_ok msg -> message_length msg <> 0 ->
  exists front, Inv (fst (update_round s msg)) (total ++ front) /\
    message_bytes msg = front ++ message_bytes (snd (update_round s msg)) /\
    message_ok (snd (update_round s msg)) /\ message_length (snd (update_round s msg)) < message_length msg.
Proof.
  intros (Hf & Hn & done & tail & -> & P) Ho Hl. unfold update_round. fold (prepared s).
  destruct (prepared_ok s done tail P) as (R1 & R2 & R3 & R4 & R5 & R6).
  destruct P as [P1 P2 P3 P4 P5 _]. set (s1 := prepared s) in *. clearbody s1. rewrite P5 in R2. rewrite R2.
  destruct (fill_spec msg (blocks s1) tail R6 P3 Ho Hl) as (i & m' & front & rest & E & Eb & Hr & Hlt & [[F0 F0'] F1 F2] & _).
  rewrite E. cbn [fst snd]. exists front. split; [|now splits].
  assert (Hc : bytes s1 + (i - zlen tail) = zlen ((done ++ tail) ++ front)).
  { rewrite R3, Hn, F1, !zlen_app. lia. }
  assert (Hreg : registers s1 = Reference.absorb Reference.IV done) by (now rewrite R1).
  rewrite <- app_assoc in *. destruct (Z.leb_spec 64 i) as [H64|H64].
  - destruct (filled_block (tail ++ front) ltac:(lia)) as (Ec & L64 & L3). rewrite Ec in F0.
    set (t := set_start (i - 64) (count i (i - zlen tail) (set_blocks m' s1))).
    destruct (hash_keeps t) as (K1 & K2 & K3 & K4 & K5 & _).
    unfold Inv. splits; cbn [set_hashed finalized bytes]; [now rewrite K4; cbn; rewrite R4|now rewrite K3|].
    exists (done ++ firstn 64 (tail ++ front)), (skipn 64 (tail ++ front)).
    split; [now rewrite <- app_assoc, <- Ec|]. split.
    + now apply whole_app.
    + change (registers (set_hashed true (hash t))) with (registers (hash t)).
      now apply (hash_block t _ _ (skipn 64 (tail ++ front))).
    + lia.
    + now apply Forall_skipn_n.
    + cbn [set_hashed start]. rewrite K2. change (start t) with (i - 64). lia.
    + cbn [set_hashed hashed blocks lastByteIndex]. exists (firstn 64 (tail ++ front)). rewrite K1, K5.
      splits; [easy|exact F0|lia|]. change (lastByteIndex t) with (Some i). f_equal. lia.
  - unfold Inv. splits; cbn [set_start count set_blocks finalized bytes]; [congruence|easy|].
    exists done, (tail ++ front). split; [easy|]. split; try easy; [lia|].
    cbn [set_start count set_blocks hashed blocks lastByteIndex]. now rewrite R5.
Qed.

(** The loop takes the whole message within as many turns as the message is long. *)
Lemma update_loop_spec fuel : forall s total msg, Inv s total -> message_ok msg ->
  message_length msg <= Z.of_nat fuel -> Inv (update_loop fuel s msg) (total ++ message_bytes msg).
Proof.
  induction fuel as [|fuel IH]; intros s total msg Hi Ho Hl; cbn [update_loop].
  - pose proof (message_length_nonneg msg). rewrite message_done by lia. now rewrite app_nil_r.
  - destruct (Z.eqb_spec (message_length msg) 0) as [Hz|Hz]; [rewrite message_done by easy; now rewrite app_nil_r|].
    destruct (update_round_spec s total msg Hi Ho Hz) as (front & Hi' & Eb & Ho' & Hlt).
    destruct (update_round s msg) as [s' rest]. cbn [fst snd] in *. rewrite Eb, app_assoc. apply IH; try easy. lia.
Qed.

Lemma update_Inv s total msg : Inv s total -> message_ok msg -> Inv (update msg s) (total ++ message_bytes msg).
Proof.
  intros Hi Ho. unfold update. rewrite (proj1 Hi). apply update_loop_spec; try easy.
  rewrite Z2Nat.id; [easy|apply message_length_nonneg].
Qed.

Definition updates (msgs : list message) (s : Md5) : Md5 := fold_left (fun s msg => update msg s) msgs s.

Lemma updates_Inv msgs : forall s total, Inv s total -> Forall message_ok msgs ->
  Inv (updates msgs s) (total ++ flat_map message_bytes msgs).
Proof.
  induction msgs as [|msg msgs IH]; intros s total Hi Ho; cbn [updates fold_left flat_map].
  - now rewrite app_nil_r.
  - inversion Ho as [|? ? Ho1 Ho2]; subst. rewrite app_assoc. apply (IH (update msg s)); [now apply update_Inv|easy].
Qed.

(** ** The last blocks *)

(** The padding that [finalize] writes: [blocks[15]] stays 0, so only the low word of the
    length in bits is there. *)
Definition padding (len : Z) : list Z :=
  128 :: repeat 0 (Z.to_nat ((55 - len) mod 64)) ++ le_bytes 4 (8 * len) ++ repeat 0 4.

Lemma mark m content i : has m content -> i = zlen content -> (List.length content < 68)%nat ->
  holds (write (quarter i) (read m (quarter i) .| shift_of EXTRA i) m) (content ++ [128]).
Proof.
  intros [H B] -> Hl. destruct (index_spec _ Hl) as (Eq & _ & Ee). unfold zlen. rewrite Eq.
  now apply or_byte.
Qed.

Lemma bits_word n : le_bytes 4 (n <<< 3) = le_bytes 4 (8 * n).
Proof.
  rewrite <- (le_bytes_u32 (n <<< 3)), <- (le_bytes_u32 (8 * n)), u32_shl, Z.shiftl_mul_pow2 by lia.
  f_equal. unfold wrapu. rewrite Zmult_mod_idemp_l. f_equal. lia.
Qed.

(** The last block: [c], zeros, and the length. *)
Lemma last_block s done c v : registers s = Reference.absorb Reference.IV done -> whole done ->
  holds (blocks s) c -> (List.length c <= 56)%nat ->
  registers (hash (set_blocks (write 14 v (blocks s)) s)) =
  Reference.absorb Reference.IV (done ++ c ++ repeat 0 (56 - List.length c) ++ le_bytes 4 v ++ repeat 0 4).
Proof.
  intros Hr Hw [Ho _ Hb] Hc. set (z := repeat 0 (56 - List.length c)).
  assert (Lz : List.length z = (56 - List.length c)%nat) by apply repeat_length.
  apply (hash_block _ done _ []); try easy; [|rewrite !length_app, length_le_bytes, repeat_length; lia].
  cbn [blocks set_blocks]. destruct (write_ok (blocks s) 14 v Ho ltac:(lia)) as [Ho' Hb']. rewrite app_nil_r.
  assert (L : List.length (c ++ z ++ le_bytes 4 v ++ repeat 0 4) = 64%nat)
    by (rewrite !length_app, length_le_bytes, repeat_length; lia).
  split; [easy|lia|]. rewrite L, Hb', Hb.
  assert (E : repeat 0 (68 - List.length c) = z ++ [0; 0; 0; 0] ++ repeat 0 8).
  { unfold z. change [0; 0; 0; 0] with (repeat 0 4). rewrite <- !repeat_app. f_equal. lia. }
  rewrite E, app_assoc, splice_at; [|rewrite length_app; lia|now rewrite length_le_bytes].
  rewrite <- !app_assoc. reflexivity.
Qed.

Lemma holds_bytes_ok m content : holds m content -> bytes_ok content.
Proof. intros [Ho _ Hb]. apply mem_bytes_ok in Ho. rewrite Hb in Ho. now apply bytes_app in Ho. Qed.

(** Where the padding of [done ++ tail] ends. *)
Lemma padding_length done tail : whole done -> zlen tail < 64 ->
  Z.to_nat ((55 - zlen (done ++ tail)) mod 64) =
  if (zlen tail <? 56) then (55 - List.length tail)%nat else (119 - List.length tail)%nat.
Proof.
  intros [n Hn] Ht. rewrite zlen_app. unfold zlen in *. rewrite Hn.
  set (t := List.length tail) in *.
  destruct (Z.ltb_spec (Z.of_nat t) 56).
  - rewrite <- (Z.mod_unique_pos _ 64 (- Z.of_nat n) (Z.of_nat (55 - t))); lia.
  - rewrite <- (Z.mod_unique_pos _ 64 (- Z.of_nat n - 1) (Z.of_nat (119 - t))); lia.
Qed.

(** A block that ends in the mark and zeros. *)
Lemma marked_block s done tail : registers s = Reference.absorb Reference.IV done -> whole done ->
  holds (blocks s) (tail ++ [128]) -> (56 <= List.length tail < 64)%nat ->
  let block := tail ++ [128] ++ repeat 0 (63 - List.length tail) in
  registers (hash s) = Reference.absorb Reference.IV (done ++ block) /\
  whole (done ++ block) /\ holds (blocks s) block.
Proof.
  intros Hr Hw H Ht block.
  assert (L : List.length block = 64%nat) by (unfold block; rewrite !length_app, repeat_length; cbn [List.length]; lia).
  assert (Hb : holds (blocks s) block).
  { destruct H as [Ho _ Hb]. split; [easy|lia|]. rewrite Hb, L. unfold block. rewrite !length_app. cbn [List.length].
    rewrite <- !app_assoc, <- repeat_app. do 3 f_equal. lia. }
  splits; [|now apply whole_app|easy]. apply (hash_block s done block []); try easy. now rewrite app_nil_r.
Qed.

Definition marked (s : Md5) (i : Z) : Md5 :=
  set_blocks (write (quarter i) (read (blocks s) (quarter i) .| shift_of EXTRA i) (blocks s)) (set_finalized s).

Definition length_block (s : Md5) : Md5 := hash (set_blocks (write 14 (bytes s <<< 3) (blocks s)) s).

Lemma finalize_steps s : finalized s = false ->
  let i := match lastByteIndex s with Some i => i | None => 0 end in
  finalize s = length_block
    (if 56 <=? i then
       let s := if hashed s then marked s i else hash (marked s i) in
       set_blocks (restart (read (blocks s) 16) (blocks s)) s
     else marked s i).
Proof.
  intros Hf i. unfold finalize. rewrite Hf. cbv zeta. change (lastByteIndex (set_finalized s)) with (lastByteIndex s).
  fold i. change (set_blocks _ (set_finalized s)) with (marked s i).
  change (hashed (marked s i)) with (hashed s). reflexivity.
Qed.

(** The marked text fits in the block. *)
Lemma finish_short s done tail : registers s = Reference.absorb Reference.IV done -> whole done ->
  holds (blocks s) (tail ++ [128]) -> zlen tail < 56 ->
  registers (length_block s) = Reference.absorb Reference.IV
    (done ++ tail ++ 128 :: repeat 0 (Z.to_nat ((55 - zlen (done ++ tail)) mod 64)) ++ le_bytes 4 (8 * bytes s) ++ repeat 0 4).
Proof.
  intros Hr Hw Hh Ht. unfold length_block. rewrite (last_block s done (tail ++ [128])), bits_word; try easy.
  - f_equal. rewrite <- app_assoc, length_app, padding_length by (easy || lia).
    rewrite (proj2 (Z.ltb_lt (zlen tail) 56) Ht). cbn [List.length app]. do 5 f_equal. lia.
  - rewrite length_app. unfold zlen in Ht. cbn [List.length]. lia.
Qed.

(** It does not: the length goes into another block. *)
Lemma finish_long s done tail : registers s = Reference.absorb Reference.IV done -> whole done ->
  holds (blocks s) (tail ++ [128]) -> 56 <= zlen tail < 64 ->
  registers (length_block (set_blocks (restart (read (blocks (hash s)) 16) (blocks (hash s))) (hash s))) =
  Reference.absorb Reference.IV
    (done ++ tail ++ 128 :: repeat 0 (Z.to_nat ((55 - zlen (done ++ tail)) mod 64)) ++ le_bytes 4 (8 * bytes s) ++ repeat 0 4).
Proof.
  intros Hr Hw Hh Ht.
  destruct (marked_block s done tail Hr Hw Hh) as (Hr' & Hw' & Hb); [unfold zlen in Ht; lia|].
  set (block := tail ++ [128] ++ repeat 0 (63 - List.length tail)) in *.
  destruct (hash_keeps s) as (K1 & _ & K3 & _). unfold length_block.
  rewrite (last_block _ (done ++ block) []), bits_word; [|exact Hr'|exact Hw'| |cbn [List.length]; lia].
  - cbn [set_blocks bytes]. rewrite K3. f_equal. rewrite padding_length by (easy || lia).
    rewrite (proj2 (Z.ltb_ge (zlen tail) 56)) by lia. unfold block. cbn [List.length app].
    rewrite <- !app_assoc. cbn [app]. do 3 f_equal. rewrite app_assoc, <- repeat_app. do 2 f_equal.
    unfold zlen in Ht. lia.
  - cbn [set_blocks blocks]. rewrite K1. apply (restart_holds _ block); try easy; [now rewrite app_nil_r| |cbn [List.length]; lia|constructor].
    unfold block. rewrite !length_app, repeat_length. unfold zlen in Ht. cbn [List.length]. lia.
Qed.

(** The registers after [finalize]. *)
Lemma finalize_registers s total : Inv s total ->
  registers (finalize s) = Reference.absorb Reference.IV (total ++ padding (zlen total)).
Proof.
  intros (Hf & Hn & done & tail & -> & [P1 P2 P3 P4 _ Hm]). unfold padding. rewrite <- app_assoc.
  replace (8 * zlen (done ++ tail)) with (8 * bytes s) by (now rewrite Hn).
  rewrite finalize_steps by easy. cbv zeta. destruct (hashed s).
  - destruct Hm as (block & Hl & Hh & Ht & ->). rewrite (proj2 (Z.leb_le 56 (64 + zlen tail))) by (pose proof (zlen_nonneg tail); lia).
    set (i := 64 + zlen tail). set (s1 := marked s i).
    assert (Hi : i = zlen (block ++ tail)) by (rewrite zlen_app; unfold zlen at 1; now rewrite Hl).
    assert (H1 : holds (blocks s1) (block ++ tail ++ [128])).
    { rewrite app_assoc. apply mark; [split; [easy|]|easy|rewrite length_app; unfold zlen in Ht; lia].
      now apply (holds_bytes_ok (blocks s)). }
    set (s2 := set_blocks (restart (read (blocks s1) 16) (blocks s1)) s1).
    change (bytes s) with (bytes s2). apply finish_short; try easy; [|lia].
    apply (restart_holds _ block); try easy; [rewrite length_app; unfold zlen in Ht; cbn; lia|].
    apply bytes_app. split; [easy|]. repeat constructor; easy.
  - destruct Hm as [Hh Hi].
    assert (E : match lastByteIndex s with Some i => i | None => 0 end = zlen tail)
      by (destruct (lastByteIndex s); [easy|now subst tail]).
    rewrite E. set (s1 := marked s (zlen tail)).
    assert (H1 : holds (blocks s1) (tail ++ [128])) by (apply mark; [now split|easy|unfold zlen in P3; lia]).
    change (bytes s) with (bytes s1). destruct (Z.leb_spec 56 (zlen tail)); [now apply finish_long|now apply finish_short].
Qed.

(** ** Outputs *)

Lemma digest_word_bytes h : digest_word h = le_bytes 4 h.
Proof.
  unfold digest_word. change 0xFF with (2 ^ 8 - 1). rewrite low_field, !word_field, <- le_bytes_u32 by lia.
  cbn [le_bytes]. rewrite !Z.div_div by lia. reflexivity.
Qed.

(** Two hexadecimal digits of a byte. *)
Definition hex2 (b : Z) : list Z := [hex_digit (b / 16); hex_digit (b mod 16)].

Lemma hex_char_digit d : 0 <= d < 16 -> hex_char d = hex_digit d.
Proof.
  intros H. assert (E : forallb (fun n => hex_char (Z.of_nat n) =? hex_digit (Z.of_nat n)) (seq 0 16) = true)
    by reflexivity.
  rewrite forallb_forall in E. specialize (E (Z.to_nat d)). rewrite Z2Nat.id, Z.eqb_eq in E by lia.
  apply E, in_seq. lia.
Qed.

(** A byte of a word as two nibbles. *)
Lemma word_nibbles u k : 0 <= k -> u / 2 ^ k mod 256 / 16 = u / 2 ^ (k + 4) mod 16 /\ u / 2 ^ k mod 256 mod 16 = u / 2 ^ k mod 16.
Proof.
  intros Hk. rewrite Z.pow_add_r, <- Z.div_div by lia. change (2 ^ 4) with 16. set (x := u / 2 ^ k).
  change 256 with (16 * 16). rewrite Z.rem_mul_r by lia. split.
  - rewrite Z.mul_comm, Z.div_add by lia. rewrite (Z.div_small (x mod 16)) by (apply Z.mod_pos_bound; lia). lia.
  - rewrite Z.mul_comm, Z.mod_add, Z.mod_mod by lia. reflexivity.
Qed.

Lemma hex_word_bytes h : hex_word h = flat_map hex2 (le_bytes 4 h).
Proof.
  unfold hex_word. change 0x0F with (2 ^ 4 - 1). rewrite !word_field, low_field, <- le_bytes_u32 by lia.
  set (u := u32 h). cbn [le_bytes flat_map hex2 app]. rewrite !Z.div_div by lia.
  destruct (word_nibbles u 0 ltac:(lia)) as [A0 B0]. destruct (word_nibbles u 8 ltac:(lia)) as [A1 B1].
  destruct (word_nibbles u 16 ltac:(lia)) as [A2 B2]. destruct (word_nibbles u 24 ltac:(lia)) as [A3 B3].
  rewrite Z.div_1_r in A0, B0. change (256 * 256 * 256) with (2 ^ 24). change (256 * 256) with (2 ^ 16).
  rewrite A0, B0. change 256 with (2 ^ 8) in A1, B1, A2, B2, A3, B3 |- *. unfold hex2.
  rewrite A1, B1, A2, B2, A3, B3. change (2 ^ 4) with 16. cbn [Z.add Pos.add Pos.succ].
  rewrite !hex_char_digit by (apply Z.mod_pos_bound; lia). reflexivity.
Qed.

(** ** The properties *)

Lemma hash_first s : first (hash s) = false.
Proof. unfold hash. destruct (rounds _ _) as [[[a b] c] d]. destruct (first s); reflexivity. Qed.

Lemma first_after_finalize s : finalized s = false -> first (finalize s) = false.
Proof. intros E. rewrite finalize_steps by exact E. unfold length_block. apply hash_first. Qed.

Lemma digest_registers s : first s = false -> finalized s = true ->
  snd (digest s) = (let '(a, b, c, d) := registers s in le_bytes 4 a ++ le_bytes 4 b ++ le_bytes 4 c ++ le_bytes 4 d).
Proof.
  intros Hf Hz. unfold digest, finalize, registers. rewrite Hz, Hf. cbn [snd].
  now rewrite !digest_word_bytes, !le_bytes_u32.
Qed.

Lemma finalized_after s : finalized (finalize s) = true.
Proof.
  destruct (finalized s) eqn:E; [unfold finalize; now rewrite E|]. rewrite finalize_steps by easy. unfold length_block.
  match goal with |- finalized (hash ?t) = _ => destruct (hash_keeps t) as (_ & _ & _ & -> & _) end.
  cbn [set_blocks finalized].
  match goal with |- context [56 <=? ?i] => destruct (56 <=? i) end; [|reflexivity].
  destruct (hashed s); cbn [set_blocks finalized]; [reflexivity|].
  match goal with |- finalized (hash ?t) = _ => destruct (hash_keeps t) as (_ & _ & _ & -> & _) end. reflexivity.
Qed.

Lemma finalize_twice s : finalize (finalize s) = finalize s.
Proof. unfold finalize at 1. now rewrite finalized_after. Qed.

Lemma digest_finalized s : snd (digest s) = snd (digest (finalize s)).
Proof. unfold digest. now rewrite finalize_twice. Qed.

(** The digest of any object, by the bytes it has been given. *)
Lemma digest_Inv s total : Inv s total ->
  snd (digest s) = (let '(a, b, c, d) := Reference.absorb Reference.IV (total ++ padding (zlen total)) in
    le_bytes 4 a ++ le_bytes 4 b ++ le_bytes 4 c ++ le_bytes 4 d).
Proof.
  intros Hi. rewrite digest_finalized, digest_registers.
  - now rewrite (finalize_registers s total).
  - apply first_after_finalize, Hi.
  - apply finalized_after.
Qed.

Lemma padding_spec len : 0 <= len < 2 ^ 61 -> padding len = Reference.padding len <-> len < 2 ^ 29.
Proof.
  intros Hl. unfold padding, Reference.padding.
  assert (E : le_bytes 8 (8 * len) = le_bytes 4 (8 * len) ++ le_bytes 4 (len / 2 ^ 29)).
  { replace (len / 2 ^ 29) with (8 * len / 256 / 256 / 256 / 256); [reflexivity|].
    rewrite !Z.div_div by lia. match goal with |- _ / ?d = _ => replace d with (8 * 2 ^ 29) by reflexivity end.
    now rewrite Z.div_mul_cancel_l by lia. }
  rewrite E. assert (0 <= len / 2 ^ 29 < 2 ^ 32) by (split; [apply Z.div_pos; lia|apply Z.div_lt_upper_bound; lia]).
  split; intros H'.
  - apply (app_inv_head [128]) in H'. apply app_inv_head, app_inv_head in H'. apply (f_equal le_val) in H'.
    rewrite le_val_bytes in H'. change (le_val (repeat 0 4)) with 0 in H'.
    change (2 ^ (8 * Z.of_nat 4)) with (2 ^ 32) in H'. rewrite Z.mod_small in H' by easy.
    symmetry in H'. apply Z.div_small_iff in H'; lia.
  - rewrite (Z.div_small len (2 ^ 29)) by lia. reflexivity.
Qed.

(** C1: the object computes MD5.  After any sequence of [update]s with texts and byte arrays,
    with either kind of block memory, [digest] returns the RFC 1321 digest of the bytes of the
    messages put together (the UTF-8 bytes of a text), if they are fewer than 2^29. *)
Theorem digest_is_md5 ab msgs : Forall message_ok msgs -> zlen (flat_map message_bytes msgs) < 2 ^ 29 ->
  snd (digest (updates msgs (new_Md5 ab))) = Reference.md5 (flat_map message_bytes msgs).
Proof.
  intros Ho Hl. pose proof (updates_Inv msgs _ _ (new_Inv ab) Ho) as Hi. rewrite app_nil_l in Hi.
  rewrite (digest_Inv _ _ Hi). unfold Reference.md5. pose proof (zlen_nonneg (flat_map message_bytes msgs)).
  rewrite (proj2 (padding_spec (zlen (flat_map message_bytes msgs)) ltac:(lia)) Hl). reflexivity.
Qed.

Lemma digest_is_md5_witness : let msgs := [Text [0x4e2d; 0x6587]; Array (repeat 7 70)] in
  snd (digest (updates msgs (new_Md5 false))) = Reference.md5 (flat_map message_bytes msgs).
Proof.
  refine (digest_is_md5 false [Text [0x4e2d; 0x6587]; Array (repeat 7 70)] _ _).
  - repeat constructor; easy.
  - vm_compute. reflexivity.
Defined.

(** The three outputs say the same.  For an object in any state, [hex] is the lower case
    hexadecimal of [digest] and the bytes of [arrayBuffer] are those of [digest]. *)
Theorem outputs_agree s :
  snd (hex s) = flat_map hex2 (snd (digest s)) /\ snd (arrayBuffer s) = snd (digest s).
Proof.
  unfold hex, digest, arrayBuffer. cbv zeta. set (f := finalize s). clearbody f. cbn [snd].
  rewrite !hex_word_bytes, !digest_word_bytes, !flat_map_app. split; [reflexivity|].
  cbn [fold_left]. set (a := le_bytes 4 (h0 f)). set (b := le_bytes 4 (h1 f)).
  set (c := le_bytes 4 (h2 f)). set (d := le_bytes 4 (h3 f)). cbn [Nat.mul].
  change (repeat 0 16) with (@nil Z ++ repeat 0 4 ++ repeat 0 12). rewrite (splice_at 0) by reflexivity.
  rewrite app_nil_l. change (repeat 0 12) with (repeat 0 4 ++ repeat 0 8). rewrite (splice_at 4) by reflexivity.
  change (repeat 0 8) with (repeat 0 4 ++ repeat 0 4). rewrite (app_assoc a), (splice_at 8) by reflexivity.
  rewrite (app_assoc (a ++ b)), <- (app_nil_r (repeat 0 4)), (splice_at 12) by reflexivity.
  now rewrite app_nil_r, <- !app_assoc.
Qed.

(** An output ends the object.  What was asked for first changes neither what later outputs
    return nor the object: updates after an output are ignored. *)
Theorem output_is_final t t' msg s :
  update msg (fst (output t s)) = fst (output t s) /\
  snd (output t' (update msg (fst (output t s)))) = snd (output t' s).
Proof.
  assert (F : forall t s, fst (output t s) = finalize s) by (intros []; reflexivity).
  assert (S : forall t s, snd (output t (finalize s)) = snd (output t s)).
  { intros u x. destruct u; cbn [output]; unfold hex, digest, arrayBuffer; now rewrite finalize_twice. }
  rewrite F. assert (U : update msg (finalize s) = finalize s) by (unfold update; now rewrite finalized_after).
  rewrite U. split; [reflexivity|apply S].
Qed.

(** C18: [update] ends.  On every object that was made by [new Md5] and [update]s (the invariant
    [Inv], with the bytes given so far), each turn of the loop takes a part of the message, and the
    loop stops, with the whole message taken, within as many turns as the message is long:
    more fuel changes nothing. *)
Theorem update_terminates s total msg fuel : Inv s total -> message_ok msg ->
  message_length msg <= Z.of_nat fuel ->
  update_loop fuel s msg = update msg s /\ Inv (update msg s) (total ++ message_bytes msg).
Proof.
  intros Hi Ho Hl. split; [|now apply update_Inv]. unfold update. rewrite (proj1 Hi).
  pose proof (message_length_nonneg msg) as H0. remember (Z.to_nat (message_length msg)) as n eqn:En.
  assert (Hn : message_length msg <= Z.of_nat n) by lia. clear En H0.
  revert s total msg n Hi Ho Hl Hn. induction fuel as [|fuel IH]; intros s total msg n Hi Ho Hl Hn.
  - pose proof (message_length_nonneg msg). destruct n as [|n]; [reflexivity|]. cbn [update_loop].
    now rewrite (proj2 (Z.eqb_eq (message_length msg) 0)) by lia.
  - destruct n as [|n]; cbn [update_loop].
    + pose proof (message_length_nonneg msg). now rewrite (proj2 (Z.eqb_eq (message_length msg) 0)) by lia.
    + destruct (Z.eqb_spec (message_length msg) 0) as [|Hz]; [reflexivity|].
      destruct (update_round_spec s total msg Hi Ho Hz) as (front & Hi' & _ & Ho' & Hlt).
      destruct (update_round s msg) as [s' rest]. cbn [fst snd] in *. apply (IH _ (total ++ front)); easy || lia.
Qed.

Lemma update_terminates_witness :
  update_loop 100 (new_Md5 true) (Text (js "abc")) = update (Text (js "abc")) (new_Md5 true) /\
  Inv (update (Text (js "abc")) (new_Md5 true)) ([] ++ message_bytes (Text (js "abc"))).
Proof.
  refine (update_terminates (new_Md5 true) [] (Text (js "abc")) 100 (new_Inv true) _ _).
  - repeat constructor; easy.
  - vm_compute. discriminate.
Defined.

(** The bound on the length.  [finalize] processes the messages followed by a padding with
    the low 32 bits of their length in bits only; this is the padding of RFC 1321 exactly if
    they have fewer than 2^29 bytes. *)
Theorem finalize_padding s total : Inv s total -> zlen total < 2 ^ 61 ->
  registers (finalize s) = Reference.absorb Reference.IV (total ++ padding (zlen total)) /\
  (padding (zlen total) = Reference.padding (zlen total) <-> zlen total < 2 ^ 29).
Proof.
  intros Hi Hl. split; [now apply finalize_registers|]. apply padding_spec. split; [apply zlen_nonneg|exact Hl].
Qed.

Lemma finalize_padding_witness :
  registers (finalize (new_Md5 true)) = Reference.absorb Reference.IV ([] ++ padding (zlen (@nil Z))) /\
  (padding (zlen (@nil Z)) = Reference.padding (zlen (@nil Z)) <-> zlen (@nil Z) < 2 ^ 29).
Proof. refine (finalize_padding (new_Md5 true) [] (new_Inv true) _). vm_compute. reflexivity. Defined.
