(* ===== verification/Num.v ===== *)
(** * Numbers

    JavaScript numbers as the sources of this development use them: a class of the operations,
    the IEEE 754 double precision numbers (computed exactly, with the rounding of the
    standard) as the instance that runs, and rational numbers as the instance in which
    statements about geometry hold without rounding. *)

From Stdlib Require Import String ZArith Lia List Bool SpecFloat QArith Qcanon Qround.
From S2P Require Import Prelude Js.
Import ListNotations.
#[local] Open Scope Z_scope.

(** ** The interface *)

Class Num (A : Type) : Type := {
  add : A -> A -> A;
  sub : A -> A -> A;
  mul : A -> A -> A;
  div : A -> A -> A;
  rem : A -> A -> A;                (* the operator %, the sign of the left operand *)
  of_Z : Z -> A;                    (* an integer literal *)
  dec : Z -> Z -> A;                (* [dec m k]: the literal with the value m / 10^k *)
  ltb : A -> A -> bool;
  eqb : A -> A -> bool;
  trunc : A -> Z;                   (* towards zero; 0 for what is not finite *)
  floor : A -> Z                    (* Math.floor, for finite numbers *)
}.

Declare Scope num_scope.
Delimit Scope num_scope with num.
Infix "+" := add : num_scope.
Infix "-" := sub : num_scope.
Infix "*" := mul : num_scope.
Infix "/" := div : num_scope.
Infix "<?" := ltb : num_scope.

(** [0 | x] *)
Definition to_int32 {A} `{Num A} (x : A) : Z := i32 (trunc x).

(** ** Doubles *)

Module F64.

Definition t : Type := spec_float.

Definition prec : Z := 53.
Definition emax : Z := 1024.

Definition add (x y : t) : t := SFadd prec emax x y.
Definition sub (x y : t) : t := SFsub prec emax x y.
Definition mul (x y : t) : t := SFmul prec emax x y.
Definition div (x y : t) : t := SFdiv prec emax x y.
Definition of_Z (n : Z) : t := binary_normalize prec emax n 0 false.

(** A finite number as [n * 2 ^ e]. *)
Definition parts (x : t) : option (Z * Z) :=
  match x with
  | S754_zero _ => Some (0, 0)
  | S754_finite s m e => Some (if s then Zneg m else Zpos m, e)
  | _ => None
  end.

Definition rem (x y : t) : t :=
  match x, y with
  | S754_finite s m e, S754_finite _ m' e' =>
      let e0 := Z.min e e' in
      let r := Z.rem (Zpos m * 2 ^ (e - e0)) (Zpos m' * 2 ^ (e' - e0)) in
      binary_normalize prec emax (if s then - r else r) e0 s
  | S754_finite _ _ _, S754_infinity _ => x
  | S754_zero _, S754_finite _ _ _ | S754_zero _, S754_infinity _ => x
  | _, _ => S754_nan
  end.

Definition trunc (x : t) : Z :=
  match parts x with
  | Some (n, e) => if 0 <=? e then n * 2 ^ e else Z.quot n (2 ^ (- e))
  | None => 0
  end.

Definition floor (x : t) : Z :=
  match parts x with
  | Some (n, e) => if 0 <=? e then n * 2 ^ e else n / 2 ^ (- e)
  | None => 0
  end.

(** The double nearest to [m * 10 ^ p]. *)
Definition of_decimal (m p : Z) : t :=
  if m <=? 0 then S754_zero false
  else if 0 <=? p then binary_normalize prec emax (m * 10 ^ p) 0 false
  else SFdiv prec emax (S754_finite false (Z.to_pos m) 0) (S754_finite false (Z.to_pos (10 ^ (- p))) 0).

(** The double nearest to [m / 10 ^ k]. *)
Definition dec (m k : Z) : t := if m <? 0 then SFopp (of_decimal (- m) (- k)) else of_decimal m (- k).

(** The digits of a natural number. *)
Fixpoint digits_from (fuel : nat) (n : Z) (acc : list Z) : list Z :=
  match fuel with
  | O => acc
  | S fuel =>
      let acc := (48 + n mod 10) :: acc in
      if n <? 10 then acc else digits_from fuel (n / 10) acc
  end.
Definition digits (n : Z) : list Z := digits_from (S (Z.to_nat (Z.log2 n))) n [].

(** The number [n] with [10 ^ (n - 1) <= num / den < 10 ^ n]. *)
Fixpoint magnitude (fuel : nat) (num den n : Z) : Z :=
  match fuel with
  | O => n
  | S fuel =>
      if den * 10 ^ Z.max n 0 <=? num * 10 ^ Z.max (- n) 0 then magnitude fuel num den (n + 1)
      else if num * 10 ^ Z.max (1 - n) 0 <? den * 10 ^ Z.max (n - 1) 0 then magnitude fuel num den (n - 1)
      else n
  end.

(** The shortest decimal of [k] digits or more that rounds to [x], the nearest of them: its
    digits, their number and the magnitude. *)
Fixpoint shortest (fuel : nat) (x : t) (num den n k : Z) : Z * Z * Z :=
  let p := n - k in
  let s := (num * 10 ^ Z.max (- p) 0) / (den * 10 ^ Z.max p 0) in
  let low := SFeqb (of_decimal s p) x in
  let high := SFeqb (of_decimal (s + 1) p) x in
  let rest := 2 * (num * 10 ^ Z.max (- p) 0 - s * (den * 10 ^ Z.max p 0)) in
  match fuel with
  | O => (s, k, n)
  | S fuel =>
      if low && (negb high || (rest <=? den * 10 ^ Z.max p 0)) then (s, k, n)
      else if high then (if s + 1 =? 10 ^ k then (1, 1, n + 1) else (s + 1, k, n))
      else shortest fuel x num den n (k + 1)
  end.

(** Number.prototype.toString of a positive number [num / den]. *)
Definition show_positive (x : t) (num den : Z) : list Z :=
  let n := magnitude 700 num den 1 in
  let '(s, k, n) := shortest 17 x num den n 1 in
  let ds := digits s in
  let zeros i := repeat 48 (Z.to_nat i) in
  if (k <=? n) && (n <=? 21) then ds ++ zeros (n - k)
  else if (0 <? n) && (n <=? 21) then firstn (Z.to_nat n) ds ++ js "." ++ skipn (Z.to_nat n) ds
  else if (-6 <? n) && (n <=? 0) then js "0." ++ zeros (- n) ++ ds
  else
    let e := n - 1 in
    firstn 1 ds ++ (if k =? 1 then [] else js "." ++ skipn 1 ds) ++ js "e" ++ (if 0 <? e then js "+" else js "-") ++ digits (Z.abs e).

(** [String(x)] *)
Definition show (x : t) : list Z :=
  match x with
  | S754_zero _ => js "0"
  | S754_infinity s => (if s then js "-" else []) ++ js "Infinity"
  | S754_nan => js "NaN"
  | S754_finite s m e =>
      (if s then js "-" else []) ++
      show_positive (S754_finite false m e) (Zpos m * 2 ^ Z.max e 0) (2 ^ Z.max (- e) 0)
  end.

End F64.

#[export] Instance Num_f64 : Num F64.t := {
  add := F64.add; sub := F64.sub; mul := F64.mul; div := F64.div; rem := F64.rem;
  of_Z := F64.of_Z; dec := F64.dec; ltb := SFltb; eqb := SFeqb; trunc := F64.trunc; floor := F64.floor
}.

(** ** parseInt *)

Definition is_space (c : Z) : bool :=
  existsb (Z.eqb c) [9; 10; 11; 12; 13; 32; 160; 5760; 8192; 8193; 8194; 8195; 8196; 8197; 8198; 8199; 8200; 8201; 8202;
    8232; 8233; 8239; 8287; 12288; 65279].

Fixpoint drop_spaces (s : list Z) : list Z :=
  match s with
  | c :: s' => if is_space c then drop_spaces s' else s
  | [] => []
  end.

(** The value of the hexadecimal digits in front; [None] where there are none (NaN). *)
Fixpoint hex_prefix (s : list Z) (acc : option Z) : option Z :=
  match s with
  | c :: s =>
      match hex_value c with
      | Some v => hex_prefix s (Some (match acc with Some a => 16 * a + v | None => v end))
      | None => acc
      end
  | [] => acc
  end.

(** [parseInt(s, 16)] *)
Definition parse_hex (s : list Z) : option Z :=
  let s := drop_spaces s in
  let '(neg, s) := match s with
    | c :: s' => if c =? 45 then (true, s') else if c =? 43 then (false, s') else (false, s)
    | [] => (false, s)
    end in
  let s := match s with
    | c :: x :: s' => if (c =? 48) && ((x =? 120) || (x =? 88)) then s' else s
    | _ => s
    end in
  option_map (fun v => if neg then - v else v) (hex_prefix s None).

(** A number in decimal. *)
Definition show_Z (n : Z) : list Z := (if n <? 0 then js "-" else []) ++ F64.digits (Z.abs n).

(** ** Rational numbers *)

Definition Qc_trunc (x : Qc) : Z := Z.quot (Qnum x) (Zpos (Qden x)).
Definition Qc_of_Z (n : Z) : Qc := Q2Qc (inject_Z n).

#[export] Instance Num_Qc : Num Qc := {
  add := Qcplus; sub := Qcminus; mul := Qcmult; div := Qcdiv;
  rem x y := Qcminus x (Qcmult y (Qc_of_Z (Qc_trunc (Qcdiv x y))));
  of_Z := Qc_of_Z; dec m k := Qcdiv (Qc_of_Z m) (Qc_of_Z (10 ^ k));
  ltb x y := negb (Qle_bool y x); eqb x y := Qeq_bool x y;
  trunc := Qc_trunc; floor x := Qfloor x
}.

Example show_tenth : F64.show (F64.add (F64.dec 1 1) (F64.dec 2 1)) = js "0.30000000000000004".
Proof. vm_compute. reflexivity. Qed.

Example show_integer : F64.show (F64.of_Z (-1200)) = js "-1200".
Proof. vm_compute. reflexivity. Qed.
