(* ===== verification/Png.v ===== *)
(** * Images in the PNG format (pnglib)

    src/src/qt/res/assets/plugins/pnglib/pnglib.js: an image as an array of one-character
    strings that is laid out as a PNG file from the start; [color] fills the palette, users
    store palette indices at [index], [getDump] adds the checksums.  A character is its
    code; [hole] stands for an element that was never written. *)

From Stdlib Require Import ZArith Lia List Bool String.
From S2P Require Import Prelude Js.
Import ListNotations.
#[local] Open Scope Z_scope.
#[local] Open Scope js_scope.

Module PNG.

(** ** The buffer *)

Definition hole : Z := -1.

(** [buffer[i] = c]: past the end the array grows; a negative index makes a property that is
    no element. *)
Definition store (i c : Z) (b : list Z) : list Z :=
  if i <? 0 then b
  else if i <? zlen b then splice (Z.to_nat i) [c] b
  else b ++ repeat hole (Z.to_nat (i - zlen b)) ++ [c].

Fixpoint write_chars (b : list Z) (offs : Z) (s : list Z) : list Z :=
  match s with
  | [] => b
  | c :: s => write_chars (store offs c b) (offs + 1) s
  end.

Fixpoint write (b : list Z) (offs : Z) (args : list (list Z)) : list Z :=
  match args with
  | [] => b
  | s :: args => write (write_chars b offs s) (offs + zlen s) args
  end.

Definition byte2 (w : Z) : list Z := [(w >> 8) .& 255; w .& 255].
Definition byte4 (w : Z) : list Z := [(w >> 24) .& 255; (w >> 16) .& 255; (w >> 8) .& 255; w .& 255].
Definition byte2lsb (w : Z) : list Z := [w .& 255; (w >> 8) .& 255].

(** ** Sizes and offsets of the chunks *)

Definition pix_size (width height : Z) : Z := height * (width + 1).
Definition data_size (width height : Z) : Z :=
  2 + pix_size width height + 5 * ((0xfffe + pix_size width height) / 0xffff) + 4.
Definition ihdr_offs : Z := 0.
Definition ihdr_size : Z := 4 + 4 + 13 + 4.
Definition plte_offs : Z := ihdr_offs + ihdr_size.
Definition plte_size (depth : Z) : Z := 4 + 4 + 3 * depth + 4.
Definition trns_offs (depth : Z) : Z := plte_offs + plte_size depth.
Definition trns_size (depth : Z) : Z := 4 + 4 + depth + 4.
Definition idat_offs (depth : Z) : Z := trns_offs depth + trns_size depth.
Definition idat_size (width height : Z) : Z := 4 + 4 + data_size width height + 4.
Definition iend_offs (width height depth : Z) : Z := idat_offs depth + idat_size width height.
Definition iend_size : Z := 4 + 4 + 4.
Definition buffer_size (width height depth : Z) : Z := iend_offs width height depth + iend_size.

(** ** The object *)

Record PNGlib : Type := mkPNG {
  width : Z;
  height : Z;
  depth : Z;
  buffer : list Z;
  palette : list (Z * Z);            (* from the number of a color to the character of its index *)
  pindex : Z
}.

Definition set_buffer (b : list Z) (p : PNGlib) : PNGlib :=
  mkPNG (width p) (height p) (depth p) b (palette p) (pindex p).

(** [((8 + (7 << 4)) << 8) | (3 << 6)], and what makes it a multiple of 31. *)
Definition deflate_header : Z :=
  let header := ((8 + (7 <<< 4)) <<< 8) .| (3 <<< 6) in header + (31 - Z.rem header 31).

(** The size and the first byte of deflate block [i]. *)
Definition block_size (pix i : Z) : Z := if i + 0xffff <? pix then 0xffff else pix - (i <<< 16) - i.
Definition block_bits (pix i : Z) : Z := if i + 0xffff <? pix then 0 else 1.

(** The loop over the block headers; [None] when the fuel is spent. *)
Fixpoint block_headers (fuel : nat) (pix offs i : Z) (b : list Z) : option (list Z) :=
  if (i <<< 16) - 1 <? pix then
    match fuel with
    | O => None
    | S fuel =>
        let size := block_size pix i in
        block_headers fuel pix offs (i + 1)
          (write b (offs + 8 + 2 + (i <<< 16) + (i <<< 2)) [[block_bits pix i]; byte2lsb size; byte2lsb (~~ size)])
    end
  else Some b.

(** [new PNGlib(width, height, depth)] *)
Definition new_PNGlib (fuel : nat) (width height depth : Z) : option PNGlib :=
  let b := repeat 0 (Z.to_nat (buffer_size width height depth)) in
  let b := write b ihdr_offs [byte4 (ihdr_size - 12); js "IHDR"; byte4 width; byte4 height; [8; 3]] in
  let b := write b plte_offs [byte4 (plte_size depth - 12); js "PLTE"] in
  let b := write b (trns_offs depth) [byte4 (trns_size depth - 12); js "tRNS"] in
  let b := write b (idat_offs depth) [byte4 (idat_size width height - 12); js "IDAT"] in
  let b := write b (iend_offs width height depth) [byte4 (iend_size - 12); js "IEND"] in
  let b := write b (idat_offs depth + 8) [byte2 deflate_header] in
  match block_headers fuel (pix_size width height) (idat_offs depth) 0 b with
  | Some b => Some (mkPNG width height depth b [] 0)
  | None => None
  end.

(** ** The table of CRC-32 *)

Definition crc_step (c : Z) : Z :=
  if negb (c .& 1 =? 0) then -306674912 .^ ((c >> 1) .& 0x7fffffff) else (c >> 1) .& 0x7fffffff.

Definition crc_entry (i : Z) : Z := Nat.iter 8 crc_step i.

Definition _crc32 : list Z := map (fun i => crc_entry (Z.of_nat i)) (seq 0 256).

(** ** Pixels and colors *)

(** The place of a pixel in the buffer. *)
Definition index (p : PNGlib) (x y : Z) : Z :=
  let i := y * (width p + 1) + x + 1 in
  idat_offs (depth p) + 8 + 2 + 5 * (i / 0xffff + 1) + i.

(** [image.buffer[image.index(x, y)] = c], the way the users of an image set a pixel. *)
Definition set_pixel (x y c : Z) (p : PNGlib) : PNGlib := set_buffer (store (index p x y) c (buffer p)) p.

Fixpoint find_color (color : Z) (l : list (Z * Z)) : option Z :=
  match l with
  | [] => None
  | (k, c) :: l => if k =? color then Some c else find_color color l
  end.

Definition color_number (red green blue alpha : Z) : Z :=
  (((((alpha <<< 8) .| red) <<< 8) .| green) <<< 8) .| blue.

(** Returns the character for the color; [alpha] may be undefined. *)
Definition color (red green blue : Z) (alpha : option Z) (p : PNGlib) : PNGlib * Z :=
  let alpha := match alpha with Some a => if 0 <=? a then a else 255 | None => 255 end in
  let color := color_number red green blue alpha in
  match find_color color (palette p) with
  | Some c => (p, c)
  | None =>
      if pindex p =? depth p then (p, 0)
      else
        let ndx := plte_offs + 8 + 3 * pindex p in
        let b := store (ndx + 0) (red mod 65536) (buffer p) in
        let b := store (ndx + 1) (green mod 65536) b in
        let b := store (ndx + 2) (blue mod 65536) b in
        let b := store (trns_offs (depth p) + 8 + pindex p) (alpha mod 65536) b in
        let c := pindex p mod 65536 in
        (mkPNG (width p) (height p) (depth p) b ((color, c) :: palette p) (pindex p + 1), c)
  end.

(** ** The file *)

Definition BASE : Z := 65521.
Definition NMAX : Z := 5552.

(** [this.buffer[i].charCodeAt(0)] *)
Definition char_code (b : list Z) (i : Z) : Z := nth (Z.to_nat i) b 0.

Definition zseq (from : Z) (n : nat) : list Z := map (fun k => from + Z.of_nat k) (seq 0 n).

Definition adler_step (c : Z) (st : Z * Z * Z) : Z * Z * Z :=
  let '(s1, s2, n) := st in
  let s1 := s1 + c in
  let s2 := s2 + s1 in
  let n := n - 1 in
  if n =? 0 then (Z.rem s1 BASE, Z.rem s2 BASE, NMAX) else (s1, s2, n).

(** The Adler-32 checksum of pixels and row filters. *)
Definition adler32 (p : PNGlib) : Z :=
  let '(s1, s2, _) :=
    fold_left (fun st y =>
        fold_left (fun st x => adler_step (char_code (buffer p) (index p x y)) st)
          (zseq (-1) (Z.to_nat (width p + 1))) st)
      (zseq 0 (Z.to_nat (height p))) (1, 0, NMAX) in
  ((Z.rem s2 BASE) <<< 16) .| (Z.rem s1 BASE).

Definition crc_update (crc c : Z) : Z :=
  nth (Z.to_nat ((crc .^ c) .& 0xff)) _crc32 0 .^ ((crc >> 8) .& 0x00ffffff).

(** The local function [crc32] of [getDump]: the checksum of a chunk, written at its end. *)
Definition crc32 (png : list Z) (offs size : Z) : list Z :=
  let crc := fold_left (fun crc i => crc_update crc (char_code png (offs + i))) (zseq 4 (Z.to_nat (size - 8))) (-1) in
  write png (offs + size - 4) [byte4 (crc .^ -1)].

Definition signature : list Z := [137; 80; 78; 71; 13; 10; 26; 10].

(** [this.buffer.join('')]: elements that were never written are empty. *)
Definition join (b : list Z) : list Z := filter (fun c => negb (c =? hole)) b.

Definition getDump (p : PNGlib) : PNGlib * list Z :=
  let '(w, h, d) := (width p, height p, depth p) in
  let b := write (buffer p) (idat_offs d + idat_size w h - 8) [byte4 (adler32 p)] in
  let b := crc32 b ihdr_offs ihdr_size in
  let b := crc32 b plte_offs (plte_size d) in
  let b := crc32 b (trns_offs d) (trns_size d) in
  let b := crc32 b (idat_offs d) (idat_size w h) in
  let b := crc32 b (iend_offs w h d) iend_size in
  (set_buffer b p, signature ++ join b).

(** ** Base64 *)

Definition ch : list Z := js "ABCDEFGHIJKLMNOPQRSTUVWXYZabcdefghijklmnopqrstuvwxyz0123456789+/=".
Definition ch_at (e : Z) : list Z := char_at ch e.

(** [s.charCodeAt(i)], NaN past the end; NaN counts as 0 in bit operations. *)
Definition code_at (s : list Z) (i : Z) : Z := nth (Z.to_nat i) s 0.

(** The loop of [getBase64]; it runs at least once. *)
Fixpoint base64_loop (fuel : nat) (s : list Z) (i : Z) (r : list Z) : option (list Z) :=
  match fuel with
  | O => None
  | S fuel =>
      let l := zlen s in
      let c1 := code_at s i in
      let e1 := c1 >> 2 in
      let c2 := code_at s (i + 1) in
      let e2 := ((c1 .& 3) <<< 4) .| (c2 >> 4) in
      let c3 := code_at s (i + 2) in
      let e3 := if l <? i + 2 then 64 else ((c2 .& 0xf) <<< 2) .| (c3 >> 6) in
      let e4 := if l <? i + 3 then 64 else c3 .& 0x3f in
      let r := r ++ ch_at e1 ++ ch_at e2 ++ ch_at e3 ++ ch_at e4 in
      if i + 3 <? l then base64_loop fuel s (i + 3) r else Some r
  end.

(** [getBase64]; [btoa] is the browser's function where it has one. *)
Definition getBase64 (btoa : option (list Z -> list Z)) (p : PNGlib) : PNGlib * option (list Z) :=
  let '(p, s) := getDump p in
  match btoa with
  | Some f => (p, Some (f s))
  | None => (p, base64_loop (S (List.length s)) s 0 [])
  end.

End PNG.
