(* ===== verification/PngTheory.v ===== *)
(** * Images in the PNG format: what is written is a PNG file

    Module [Format] reads PNG files the way the PNG specification (and RFC 1950 and 1951
    behind it) says, for images with a palette whose data is stored uncompressed.  Reading
    the dump of an image (Png.v) gives its size, its palette and its pixels back. *)

From Stdlib Require Import String ZArith Lia List Bool.
From S2P Require Import Prelude Js Png.
Import ListNotations PNG.
#[local] Open Scope Z_scope.
#[local] Open Scope js_scope.

(** ** The formats *)

Module Format.

(** CRC-32: the division by the polynomial, bit by bit, the register reflected. *)
Definition crc_bit (c : Z) : Z := if Z.odd c then Z.lxor 0xedb88320 (Z.shiftr c 1) else Z.shiftr c 1.
Definition crc_byte (c b : Z) : Z := Nat.iter 8 crc_bit (Z.lxor c b).
Definition crc (l : list Z) : Z := Z.lxor (fold_left crc_byte l 0xffffffff) 0xffffffff.

(** Adler-32 (RFC 1950). *)
Definition adler_byte (s : Z * Z) (b : Z) : Z * Z :=
  let s1 := (fst s + b) mod 65521 in (s1, (snd s + s1) mod 65521).
Definition adler (l : list Z) : Z := let '(s1, s2) := fold_left adler_byte l (1, 0) in s2 * 65536 + s1.

(** [n] bytes and the rest. *)
Definition take (n : nat) (l : list Z) : option (list Z * list Z) :=
  if Nat.leb n (List.length l) then Some (firstn n l, skipn n l) else None.

(** A chunk: length, type, data and the checksum of type and data. *)
Definition chunk (l : list Z) : option (list Z * list Z * list Z) :=
  match take 4 l with
  | Some (len, l) =>
      match take 4 l with
      | Some (ty, l) =>
          match take (Z.to_nat (be_val len)) l with
          | Some (data, l) =>
              match take 4 l with
              | Some (c, l) => if be_val c =? crc (ty ++ data) then Some (ty, data, l) else None
              | None => None
              end
          | None => None
          end
      | None => None
      end
  | None => None
  end.

(** Stored blocks (RFC 1951, 3.2.4): the bytes of all blocks and what follows the last one. *)
Fixpoint stored_blocks (fuel : nat) (l : list Z) : option (list Z * list Z) :=
  match fuel with
  | O => None
  | S fuel =>
      match l with
      | bits :: n0 :: n1 :: m0 :: m1 :: l =>
          let len := le_val [n0; n1] in
          if (bits <=? 1) && (le_val [m0; m1] =? 65535 - len) then
            match take (Z.to_nat len) l with
            | Some (data, l) =>
                if bits =? 1 then Some (data, l)
                else match stored_blocks fuel l with
                     | Some (more, l) => Some (data ++ more, l)
                     | None => None
                     end
            | None => None
            end
          else None
      | _ => None
      end
  end.

(** The zlib format (RFC 1950): method 8, no dictionary, the checksum of the data at the end. *)
Definition zlib (l : list Z) : option (list Z) :=
  match l with
  | cmf :: flg :: l =>
      if (cmf mod 16 =? 8) && ((cmf * 256 + flg) mod 31 =? 0) && (flg / 32 mod 2 =? 0) then
        match stored_blocks (List.length l) l with
        | Some (data, rest) => if (be_val rest =? adler data) && (zlen rest =? 4) then Some data else None
        | None => None
        end
      else None
  | _ => None
  end.

Record image : Type := mkImage {
  columns : Z;
  rows : Z;
  colors : list (Z * Z * Z * Z);         (* red, green, blue, alpha *)
  lines : list (list Z)                  (* palette indices, row by row *)
}.

(** Rows of [w] bytes behind their filter type, which must be 0 (none). *)
Fixpoint scanlines (h w : nat) (l : list Z) : option (list (list Z)) :=
  match h with
  | O => match l with [] => Some [] | _ => None end
  | S h =>
      match l with
      | 0 :: l =>
          match take w l with
          | Some (row, l) => option_map (cons row) (scanlines h w l)
          | None => None
          end
      | _ => None
      end
  end.

Fixpoint palette_entries (plte trns : list Z) : option (list (Z * Z * Z * Z)) :=
  match plte, trns with
  | [], [] => Some []
  | r :: g :: b :: plte, a :: trns => option_map (cons (r, g, b, a)) (palette_entries plte trns)
  | _, _ => None
  end.

(** A file of the five chunks IHDR, PLTE, tRNS, IDAT and IEND: 8 bits for a palette index,
    no interlace. *)
Definition decode (l : list Z) : option image :=
  match take 8 l with
  | Some (sig, l) =>
      if str_eqb sig [137; 80; 78; 71; 13; 10; 26; 10] then
        match chunk l with
        | Some (t1, ihdr, l) =>
            match chunk l with
            | Some (t2, plte, l) =>
                match chunk l with
                | Some (t3, trns, l) =>
                    match chunk l with
                    | Some (t4, idat, l) =>
                        match chunk l with
                        | Some (t5, iend, []) =>
                            if str_eqb (t1 ++ t2 ++ t3 ++ t4 ++ t5) (js "IHDRPLTEtRNSIDATIEND") &&
                               str_eqb (skipn 8 ihdr) [8; 3; 0; 0; 0] && str_eqb iend [] &&
                               (1 <=? zlen plte / 3) && (zlen plte / 3 <=? 256) then
                              let w := be_val (firstn 4 ihdr) in
                              let h := be_val (firstn 4 (skipn 4 ihdr)) in
                              match zlib idat, palette_entries plte trns with
                              | Some data, Some entries =>
                                  option_map (mkImage w h entries) (scanlines (Z.to_nat h) (Z.to_nat w) data)
                              | _, _ => None
                              end
                            else None
                        | _ => None
                        end
                    | None => None
                    end
                | None => None
                end
            | None => None
            end
        | None => None
        end
      else None
  | None => None
  end.

End Format.

(** ** CRC-32 *)

Lemma iter_ext {A} (f g : A -> A) n x y (R : A -> A -> Prop) :
  R x y -> (forall x y, R x y -> R (f x) (g y)) -> R (Nat.iter n f x) (Nat.iter n g y).
Proof. intros H HR. induction n as [|n IH]; [exact H|]. rewrite !Nat.iter_succ. now apply HR. Qed.

Lemma shift_mask c : u32 ((c >> 1) .& 0x7fffffff) = Z.shiftr (u32 c) 1.
Proof.
  change 0x7fffffff with (2 ^ 31 - 1). rewrite word_field by lia.
  pose proof (wrapu_range 32 c ltac:(lia)) as R. unfold in_u in R.
  rewrite Z.shiftr_div_pow2 by lia. assert (0 <= u32 c / 2 ^ 1 < 2 ^ 31)
    by (split; [apply Z.div_pos; lia|apply Z.div_lt_upper_bound; lia]).
  rewrite Z.mod_small by easy. apply wrapu_id. unfold in_u. lia.
Qed.

Lemma crc_step_word c : u32 (crc_step c) = Format.crc_bit (u32 c).
Proof.
  unfold crc_step, Format.crc_bit. change 1 with (2 ^ 1 - 1) at 1. rewrite low_field by lia. change (2 ^ 1) with 2.
  rewrite Zmod_odd. destruct (Z.odd (u32 c)); cbn [Z.eqb negb]; [|apply shift_mask].
  rewrite u32_xor, shift_mask. reflexivity.
Qed.

Lemma crc_entry_word i : 0 <= i < 256 -> u32 (crc_entry i) = Nat.iter 8 Format.crc_bit i.
Proof.
  intros H. unfold crc_entry. apply (iter_ext crc_step Format.crc_bit 8 i i (fun a b => u32 a = b)).
  - apply wrapu_id. unfold in_u. lia.
  - intros x y <-. apply crc_step_word.
Qed.

(** The register is linear. *)
Lemma crc_bit_xor a b : Format.crc_bit (Z.lxor a b) = Z.lxor (Format.crc_bit a) (Format.crc_bit b).
Proof.
  unfold Format.crc_bit. rewrite <- !Z.bit0_odd, Z.lxor_spec, Z.shiftr_lxor. set (p := 0xedb88320). clearbody p.
  destruct (Z.testbit a 0), (Z.testbit b 0); cbn [xorb]; rewrite ?Z.lxor_assoc; apply Z.bits_inj'; intros n Hn;
    rewrite !Z.lxor_spec; repeat match goal with |- context [Z.testbit ?x n] => destruct (Z.testbit x n) end; reflexivity.
Qed.

Lemma crc_iter_xor n a b : Nat.iter n Format.crc_bit (Z.lxor a b) =
  Z.lxor (Nat.iter n Format.crc_bit a) (Nat.iter n Format.crc_bit b).
Proof. induction n as [|n IH]; [reflexivity|]. now rewrite !Nat.iter_succ, IH, crc_bit_xor. Qed.

Lemma crc_iter_high n y : Nat.iter n Format.crc_bit (Z.shiftl y (Z.of_nat n)) = y.
Proof.
  induction n as [|n IH]; [apply Z.shiftl_0_r|]. rewrite Nat.iter_succ_r. unfold Format.crc_bit at 2.
  rewrite Z.shiftl_mul_pow2, Nat2Z.inj_succ, Z.pow_succ_r, Z.odd_mul, Z.odd_mul by lia.
  cbn [Z.odd andb]. rewrite andb_false_r. rewrite Z.shiftr_div_pow2 by lia.
  replace (y * (2 * 2 ^ Z.of_nat n)) with (y * 2 ^ Z.of_nat n * 2 ^ 1) by ring.
  rewrite Z.div_mul by lia. rewrite <- Z.shiftl_mul_pow2 by lia. exact IH.
Qed.

(** A byte at a time. *)
Lemma crc_table_step x : 0 <= x ->
  Nat.iter 8 Format.crc_bit x = Z.lxor (Nat.iter 8 Format.crc_bit (x mod 256)) (x / 256).
Proof.
  intros Hx. pose proof (Z.div_mod x 256 ltac:(lia)) as E. pose proof (Z.mod_pos_bound x 256 ltac:(lia)) as R.
  assert (Ex : x = Z.lxor (x mod 256) (Z.shiftl (x / 256) (Z.of_nat 8))).
  { rewrite Z.lxor_comm, <- Z.add_nocarry_lxor.
    - rewrite Z.shiftl_mul_pow2 by lia. change (2 ^ Z.of_nat 8) with 256. lia.
    - rewrite <- (Z.mod_small (x mod 256) (2 ^ 8)) by (change (2 ^ 8) with 256; lia). rewrite <- Z.land_ones by lia.
      apply Z.bits_inj'. intros n Hn. rewrite !Z.land_spec, Z.bits_0, Z.shiftl_spec by lia.
      destruct (Z.ltb_spec n 8); [rewrite (Z.testbit_neg_r _ (n - Z.of_nat 8)) by lia; reflexivity|].
      rewrite (Z.ones_spec_high 8 n) by lia. now rewrite !andb_false_r. }
  rewrite Ex at 1. now rewrite crc_iter_xor, crc_iter_high.
Qed.

Lemma crc_update_word c b : byte_ok b -> u32 (crc_update c b) = Format.crc_byte (u32 c) b.
Proof.
  intros Hb. unfold crc_update, Format.crc_byte. change 0xff with (2 ^ 8 - 1). change 0x00ffffff with (2 ^ 24 - 1).
  rewrite low_field, word_field, (u32_xor c b) by lia. unfold byte_ok in Hb. rewrite (wrapu_id 32 b) by (unfold in_u; lia).
  pose proof (wrapu_range 32 c ltac:(lia)) as R. unfold in_u in R. set (x := Z.lxor (u32 c) b).
  assert (Hx : 0 <= x) by (apply Z.lxor_nonneg; lia).
  assert (Hh : u32 c / 2 ^ 8 = x / 256).
  { unfold x. change 256 with (2 ^ 8). rewrite <- !Z.shiftr_div_pow2, Z.shiftr_lxor by lia.
    rewrite (Z.shiftr_div_pow2 b) by lia. rewrite (Z.div_small b) by lia. now rewrite Z.lxor_0_r. }
  pose proof (Z.mod_pos_bound x 256 ltac:(lia)) as M. change (2 ^ 8) with 256.
  unfold _crc32. rewrite (nth_indep _ _ (crc_entry (Z.of_nat 0))) by (rewrite length_map, length_seq; lia).
  rewrite (map_nth (fun i => crc_entry (Z.of_nat i))), seq_nth by lia. cbn [Nat.add]. rewrite Z2Nat.id by lia.
  rewrite u32_xor, crc_entry_word, (crc_table_step x Hx) by easy. f_equal. change 256 with (2 ^ 8) in Hh |- *. rewrite Hh.
  assert (0 <= x / 2 ^ 8 < 2 ^ 24) by (rewrite <- Hh; split; [apply Z.div_pos; lia|apply Z.div_lt_upper_bound; lia]).
  rewrite Z.mod_small by easy. apply wrapu_id. unfold in_u. lia.
Qed.

Lemma crc_fold_word l : bytes_ok l -> forall c, u32 (fold_left crc_update l c) = fold_left Format.crc_byte l (u32 c).
Proof.
  intros H. induction H as [|b l Hb _ IH]; intros c; [reflexivity|]. cbn [fold_left]. now rewrite IH, crc_update_word.
Qed.

(** ** Adler-32 *)

Lemma adler_step_mod b s1 s2 n : 0 <= b -> 0 <= s1 -> 0 <= s2 ->
  let '(t1, t2, _) := adler_step b (s1, s2, n) in
  0 <= t1 /\ 0 <= t2 /\ (t1 mod BASE, t2 mod BASE) = Format.adler_byte (s1 mod BASE, s2 mod BASE) b.
Proof.
  intros Hb H1 H2. unfold adler_step, Format.adler_byte, BASE. cbn [fst snd].
  assert (E : (s1 + b) mod 65521 = (s1 mod 65521 + b) mod 65521) by (now rewrite Zplus_mod_idemp_l).
  assert (E2 : (s2 + (s1 + b)) mod 65521 = (s2 mod 65521 + (s1 mod 65521 + b) mod 65521) mod 65521)
    by (rewrite <- E; apply Zplus_mod).
  destruct (n - 1 =? 0).
  - rewrite !Z.rem_mod_nonneg by lia. pose proof (Z.mod_pos_bound (s1 + b) 65521). pose proof (Z.mod_pos_bound (s2 + (s1 + b)) 65521).
    splits; try lia. rewrite !Zmod_mod. now rewrite E2, E.
  - splits; try lia. now rewrite E2, E.
Qed.

Lemma adler_fold l : bytes_ok l -> forall s1 s2 n, 0 <= s1 -> 0 <= s2 ->
  let '(t1, t2, _) := fold_left (fun st b => adler_step b st) l (s1, s2, n) in
  0 <= t1 /\ 0 <= t2 /\ (t1 mod BASE, t2 mod BASE) = fold_left Format.adler_byte l (s1 mod BASE, s2 mod BASE).
Proof.
  intros H. induction H as [|b l Hb _ IH]; intros s1 s2 n H1 H2; [easy|]. cbn [fold_left].
  assert (0 <= b) by (unfold byte_ok in Hb; lia). pose proof (adler_step_mod b s1 s2 n ltac:(easy) H1 H2) as A.
  destruct (adler_step b (s1, s2, n)) as [[t1 t2] k]. destruct A as (A1 & A2 & <-). now apply IH.
Qed.

(** ** Canvas: what an image stands for *)

Definition rgba : Type := Z * Z * Z * Z.

Definition rgba_ok (c : rgba) : Prop := let '(r, g, b, a) := c in byte_ok r /\ byte_ok g /\ byte_ok b /\ byte_ok a.

Definition rgba_eqb (c c' : rgba) : bool :=
  let '(r, g, b, a) := c in let '(r', g', b', a') := c' in (r =? r') && (g =? g') && (b =? b') && (a =? a').

Lemma rgba_eqb_spec c c' : reflect (c = c') (rgba_eqb c c').
Proof.
  destruct c as [[[r g] b] a], c' as [[[r' g'] b'] a']. cbn. apply iff_reflect.
  rewrite !andb_true_iff, !Z.eqb_eq. split; [intros [= -> -> -> ->]; tauto|intros [[[-> ->] ->] ->]; reflexivity].
Qed.

(** The colors in the order of their first use, and rows of palette indices. *)
Record canvas : Type := mkCanvas { cv_colors : list rgba; cv_rows : list (list Z) }.

Definition new_canvas (w h : Z) : canvas := mkCanvas [] (repeat (repeat 0 (Z.to_nat w)) (Z.to_nat h)).

Fixpoint position (c : rgba) (l : list rgba) (i : Z) : option Z :=
  match l with
  | [] => None
  | x :: l => if rgba_eqb x c then Some i else position c l (i + 1)
  end.

(** A color is in the palette or joins it; a full palette gives index 0. *)
Definition add_color (d : Z) (c : rgba) (cv : canvas) : canvas * Z :=
  match position c (cv_colors cv) 0 with
  | Some i => (cv, i)
  | None => if zlen (cv_colors cv) =? d then (cv, 0)
            else (mkCanvas (cv_colors cv ++ [c]) (cv_rows cv), zlen (cv_colors cv))
  end.

Definition put_pixel (x y c : Z) (cv : canvas) : canvas :=
  let row := nth (Z.to_nat y) (cv_rows cv) [] in
  mkCanvas (cv_colors cv) (splice (Z.to_nat y) [splice (Z.to_nat x) [c] row] (cv_rows cv)).

(** ** Numbers of colors *)

Lemma shl_or_byte x y : 0 <= u32 x < 2 ^ 24 -> byte_ok y -> u32 ((x <<< 8) .| y) = u32 x * 256 + y.
Proof.
  intros Hx Hy. unfold byte_ok in Hy. rewrite u32_or, u32_shl by lia. rewrite (wrapu_id 32 y) by (unfold in_u; lia).
  rewrite Z.shiftl_mul_pow2 by lia. change (2 ^ 8) with 256.
  rewrite (wrapu_id 32 (u32 x * 256)) by (unfold in_u; lia).
  replace (u32 x * 256) with (Z.shiftl (u32 x) 8) by (rewrite Z.shiftl_mul_pow2; lia).
  rewrite lor_shiftl_add by (change (2 ^ 8) with 256; lia). rewrite Z.shiftl_mul_pow2 by lia. reflexivity.
Qed.

Lemma color_number_word r g b a : rgba_ok (r, g, b, a) -> u32 (color_number r g b a) = ((a * 256 + r) * 256 + g) * 256 + b.
Proof.
  intros (Hr & Hg & Hb & Ha). unfold color_number. assert (Ea : u32 a = a) by (apply wrapu_id; unfold in_u, byte_ok in *; lia).
  assert (Ra : 0 <= a < 256 /\ 0 <= r < 256 /\ 0 <= g < 256) by easy.
  assert (E1 : u32 ((a <<< 8) .| r) = a * 256 + r) by (rewrite shl_or_byte, Ea; [reflexivity|rewrite Ea; lia|exact Hr]).
  assert (E2 : u32 ((((a <<< 8) .| r) <<< 8) .| g) = (a * 256 + r) * 256 + g) by (rewrite shl_or_byte, E1; [reflexivity|rewrite E1; lia|exact Hg]).
  rewrite shl_or_byte, E2; [reflexivity|rewrite E2; lia|exact Hb].
Qed.

Definition number (c : rgba) : Z := let '(r, g, b, a) := c in color_number r g b a.

Lemma number_eq r g b a : number (r, g, b, a) = color_number r g b a.
Proof. reflexivity. Qed.

#[local] Opaque color_number.

Lemma bytes4_inj r g b a r' g' b' a' : rgba_ok (r, g, b, a) -> rgba_ok (r', g', b', a') ->
  ((a * 256 + r) * 256 + g) * 256 + b = ((a' * 256 + r') * 256 + g') * 256 + b' -> (r, g, b, a) = (r', g', b', a').
Proof.
  intros (Hr & Hg & Hb & Ha) (Hr' & Hg' & Hb' & Ha') E. unfold byte_ok in *.
  assert (a = a' /\ r = r' /\ g = g' /\ b = b') as (-> & -> & -> & ->) by lia. reflexivity.
Qed.

Lemma number_inj c c' : rgba_ok c -> rgba_ok c' -> number c = number c' -> c = c'.
Proof.
  destruct c as [[[r g] b] a], c' as [[[r' g'] b'] a']. intros H H' E. apply bytes4_inj; [exact H|exact H'|].
  pose proof (color_number_word r g b a H) as W. pose proof (color_number_word r' g' b' a' H') as W'.
  revert W W' E. unfold number. generalize (color_number r g b a) (color_number r' g' b' a').
  intros x y <- <- ->. reflexivity.
Qed.

(** The palette object after the colors [l]. *)
Definition palette_of (l : list rgba) : list (Z * Z) := rev (combine (map number l) (zseq 0 (List.length l))).

Lemma position_app c l l' i : position c (l ++ l') i =
  match position c l i with Some k => Some k | None => position c l' (i + zlen l) end.
Proof.
  revert i. induction l as [|x l IH]; intros i; cbn [app position]; [now rewrite Z.add_0_r|].
  destruct (rgba_eqb x c); [reflexivity|]. rewrite IH, zlen_cons. now replace (i + 1 + zlen l) with (i + (1 + zlen l)) by lia.
Qed.

Lemma position_in c l i : In c l -> position c l i <> None.
Proof.
  revert i. induction l as [|x l IH]; intros i H; [easy|]. cbn [position].
  destruct (rgba_eqb_spec x c) as [E|E]; [easy|]. apply IH. now destruct H.
Qed.

Lemma position_none c l i : position c l i = None -> ~ In c l.
Proof. intros E H. now apply (position_in c l i) in H. Qed.

Lemma position_bound c l i k : position c l i = Some k -> i <= k < i + zlen l.
Proof.
  revert i. induction l as [|x l IH]; intros i; cbn [position]; [easy|]. rewrite zlen_cons. pose proof (zlen_nonneg l).
  destruct (rgba_eqb x c); [intros [= <-]; lia|intros H'; apply IH in H'; lia].
Qed.

(** ** A file as a list of fields *)

Definition off (fs : list (list Z)) (k : nat) : nat := List.length (concat (firstn k fs)).

Lemma splice_mid {A} (a f b new : list A) j : (j + List.length new <= List.length f)%nat ->
  splice (List.length a + j) new (a ++ f ++ b) = a ++ splice j new f ++ b.
Proof.
  intros H. unfold splice. rewrite <- !app_assoc, firstn_app_2, <- app_assoc. f_equal.
  rewrite firstn_app. replace (j - List.length f)%nat with 0%nat by lia. rewrite firstn_O, app_nil_r. do 2 f_equal.
  rewrite <- Nat.add_assoc, skipn_app, skipn_all2, app_nil_l by lia.
  rewrite skipn_app, (Nat.add_comm (List.length a)), Nat.add_sub.
  now replace (j + List.length new - List.length f)%nat with 0%nat by lia.
Qed.

Lemma fields_split (fs : list (list Z)) k : (k < List.length fs)%nat ->
  fs = firstn k fs ++ nth k fs [] :: skipn (S k) fs.
Proof.
  revert fs. induction k as [|k IH]; intros [|f fs] H; cbn in *; try lia; [easy|]. f_equal. apply IH. lia.
Qed.

Lemma concat_at (fs : list (list Z)) k : (k < List.length fs)%nat ->
  concat fs = concat (firstn k fs) ++ nth k fs [] ++ concat (skipn (S k) fs).
Proof. intros H. rewrite (fields_split fs k H) at 1. now rewrite concat_app. Qed.

(** Replacing a part of one field. *)
Lemma splice_field (fs : list (list Z)) k j new : (k < List.length fs)%nat -> (j + List.length new <= List.length (nth k fs []))%nat ->
  splice (off fs k + j) new (concat fs) = concat (splice k [splice j new (nth k fs [])] fs).
Proof.
  intros Hk Hj. rewrite (concat_at fs k Hk). unfold off. rewrite splice_mid by easy. unfold splice at 2. cbn [List.length].
  replace (k + 1)%nat with (S k) by lia. now rewrite !concat_app; cbn [concat]; rewrite app_nil_r.
Qed.

Lemma nth_field (fs : list (list Z)) k j e : (k < List.length fs)%nat -> (j < List.length (nth k fs []))%nat ->
  nth (off fs k + j) (concat fs) e = nth j (nth k fs []) e.
Proof.
  intros Hk Hj. rewrite (concat_at fs k Hk). unfold off. rewrite app_nth2_plus. now rewrite app_nth1.
Qed.

Lemma segment (fs : list (list Z)) k m : firstn (List.length (concat (firstn m (skipn k fs)))) (skipn (off fs k) (concat fs)) =
  concat (firstn m (skipn k fs)).
Proof.
  assert (E : concat fs = concat (firstn k fs) ++ concat (firstn m (skipn k fs)) ++ concat (skipn m (skipn k fs)))
    by (rewrite <- !concat_app, !firstn_skipn; reflexivity).
  rewrite E. unfold off. rewrite skipn_app, skipn_all, Nat.sub_diag, skipn_O, app_nil_l.
  now rewrite firstn_app, Nat.sub_diag, firstn_all, firstn_O, app_nil_r.
Qed.

(** ** Writing and reading inside the buffer *)

Lemma splice_nil {A} i (l : list A) : splice i [] l = l.
Proof. unfold splice. cbn. now rewrite Nat.add_0_r, firstn_skipn. Qed.

Lemma splice_all {A} (new l : list A) : List.length new = List.length l -> splice 0 new l = new.
Proof. intros H. unfold splice. cbn [firstn app Nat.add]. now rewrite H, skipn_all, app_nil_r. Qed.

Lemma splice_cons {A} i (c : A) s l : (i + List.length (c :: s) <= List.length l)%nat ->
  splice (S i) s (splice i [c] l) = splice i (c :: s) l.
Proof.
  intros H. cbn [List.length] in H. unfold splice. cbn [List.length].
  set (u := firstn i l ++ [c]). set (v := skipn (i + 1) l).
  assert (L : List.length u = S i) by (unfold u; rewrite length_app, length_firstn; cbn; lia).
  replace (firstn i l ++ [c] ++ v) with (u ++ v) by (unfold u; now rewrite <- app_assoc).
  rewrite firstn_app, L, Nat.sub_diag, firstn_O, app_nil_r, firstn_all2 by lia.
  rewrite skipn_app, L, skipn_all2, app_nil_l by lia. unfold u, v. rewrite <- app_assoc, skipn_skipn.
  apply app_inv_head_iff. cbn [app]. apply f_equal, app_inv_head_iff. f_equal. lia.
Qed.

Lemma write_chars_in s : forall b offs, 0 <= offs -> offs + zlen s <= zlen b ->
  write_chars b offs s = splice (Z.to_nat offs) s b.
Proof.
  induction s as [|c s IH]; intros b offs H0 H; cbn [write_chars]; [now rewrite splice_nil|].
  rewrite zlen_cons in H. pose proof (zlen_nonneg s).
  assert (E : store offs c b = splice (Z.to_nat offs) [c] b).
  { unfold store. rewrite (proj2 (Z.ltb_ge offs 0)), (proj2 (Z.ltb_lt offs (zlen b))) by lia. reflexivity. }
  assert (L : List.length (splice (Z.to_nat offs) [c] b) = List.length b)
    by (apply length_splice; unfold zlen in *; cbn; lia).
  rewrite E, IH; [|lia|unfold zlen in *; lia]. replace (Z.to_nat (offs + 1)) with (S (Z.to_nat offs)) by lia.
  apply splice_cons. unfold zlen in *. cbn [List.length]. lia.
Qed.

Lemma write_part fs k j s offs : (k < List.length fs)%nat -> offs = Z.of_nat (off fs k + j) ->
  (j + List.length s <= List.length (nth k fs []))%nat ->
  write_chars (concat fs) offs s = concat (splice k [splice j s (nth k fs [])] fs).
Proof.
  intros Hk -> Hj. rewrite write_chars_in, Nat2Z.id, splice_field; try easy; [lia|].
  rewrite (concat_at fs k Hk), !zlen_app. unfold zlen, off. lia.
Qed.

(** Writing a whole field. *)
Lemma write_field fs k s offs : (k < List.length fs)%nat -> offs = Z.of_nat (off fs k) ->
  List.length s = List.length (nth k fs []) -> write_chars (concat fs) offs s = concat (splice k [s] fs).
Proof.
  intros Hk -> Hl. rewrite (write_part fs k 0 s); [|easy|lia|lia]. now rewrite splice_all.
Qed.

Lemma zseq_nth a n i : (i < n)%nat -> nth i (zseq a n) 0 = a + Z.of_nat i.
Proof.
  intros H. unfold zseq. rewrite (nth_indep _ 0 (a + Z.of_nat 0)) by (now rewrite length_map, length_seq).
  rewrite (map_nth (fun k => a + Z.of_nat k)), seq_nth by easy. reflexivity.
Qed.

Lemma zseq_app a n m : zseq a (n + m) = zseq a n ++ zseq (a + Z.of_nat n) m.
Proof.
  unfold zseq. rewrite seq_app, map_app. f_equal. cbn [Nat.add].
  rewrite <- (Nat.add_0_r n) at 1. clear. generalize 0%nat. intros k. revert k. induction m as [|m IH]; intros k; [reflexivity|].
  cbn [seq map]. f_equal; [lia|]. rewrite <- IH. do 2 f_equal. lia.
Qed.

Lemma map_char_code b a n : 0 <= a -> (Z.to_nat a + n <= List.length b)%nat ->
  map (char_code b) (zseq a n) = firstn n (skipn (Z.to_nat a) b).
Proof.
  intros Ha H. apply (nth_ext _ _ 0 0).
  - unfold zseq. rewrite !length_map, length_seq, length_firstn, length_skipn. lia.
  - intros i Hi. unfold zseq in Hi. rewrite !length_map, length_seq in Hi.
    rewrite (nth_indep _ 0 (char_code b 0)) by (unfold zseq; now rewrite !length_map, length_seq).
    rewrite map_nth, nth_firstn, nth_skipn, (proj2 (Nat.ltb_lt i n)) by easy.
    unfold char_code. f_equal. rewrite zseq_nth by easy. lia.
Qed.

(** ** The layout *)

Lemma byte4_be n : byte4 n = rev (le_bytes 4 n).
Proof.
  unfold byte4. change 255 with (2 ^ 8 - 1). rewrite !word_field, low_field, <- (le_bytes_wrap 4 n) by lia.
  cbn [le_bytes rev app]. rewrite !Z.div_div by lia. reflexivity.
Qed.

Lemma be_byte4 n : be_val (byte4 n) = u32 n.
Proof. rewrite byte4_be. unfold be_val. rewrite rev_involutive. apply le_val_bytes. Qed.

Lemma byte2lsb_le n : byte2lsb n = le_bytes 2 n.
Proof.
  unfold byte2lsb. change 255 with (2 ^ 8 - 1). rewrite word_field, low_field by lia. cbn [le_bytes].
  change (2 ^ 8) with 256. unfold wrapu. f_equal; [now rewrite Z.mod_mod_divide by (exists (2 ^ 24); reflexivity)|].
  f_equal. change (2 ^ 32) with (256 * 2 ^ 24). rewrite Z.rem_mul_r by lia.
  rewrite (Z.mul_comm 256), Z.div_add by lia. rewrite (Z.div_small (n mod 256)) by (apply Z.mod_pos_bound; lia).
  rewrite Z.add_0_l. now rewrite Z.mod_mod_divide by (exists (2 ^ 16); reflexivity).
Qed.

Record parts : Type := mkParts {
  f_plte : list Z;
  f_trns : list Z;
  f_raw : list Z;
  f_adler : list Z;
  f_c1 : list Z; f_c2 : list Z; f_c3 : list Z; f_c4 : list Z; f_c5 : list Z
}.

Section Layout.

Variables w h d : Z.

Record parts_ok (x : parts) : Prop := {
  ok_plte : zlen (f_plte x) = 3 * d;
  ok_trns : zlen (f_trns x) = d;
  ok_raw : zlen (f_raw x) = pix_size w h;
  ok_adler : zlen (f_adler x) = 4;
  ok_c1 : zlen (f_c1 x) = 4; ok_c2 : zlen (f_c2 x) = 4; ok_c3 : zlen (f_c3 x) = 4;
  ok_c4 : zlen (f_c4 x) = 4; ok_c5 : zlen (f_c5 x) = 4
}.

Definition layout (x : parts) : list (list Z) := [
  byte4 13; js "IHDR"; byte4 w; byte4 h; [8; 3]; [0; 0; 0]; f_c1 x;
  byte4 (3 * d); js "PLTE"; f_plte x; f_c2 x;
  byte4 d; js "tRNS"; f_trns x; f_c3 x;
  byte4 (data_size w h); js "IDAT"; byte2 deflate_header; [1]; byte2lsb (pix_size w h);
    byte2lsb (~~ (pix_size w h)); f_raw x; f_adler x; f_c4 x;
  byte4 0; js "IEND"; f_c5 x].

(** The lengths of the fields. *)
Definition lens : list Z :=
  [4; 4; 4; 4; 2; 3; 4; 4; 4; 3 * d; 4; 4; 4; d; 4; 4; 4; 2; 1; 2; 2; pix_size w h; 4; 4; 4; 4; 4].

Definition shaped (fs : list (list Z)) : Prop := map (@zlen Z) fs = lens.

Lemma layout_shaped x : parts_ok x -> shaped (layout x).
Proof.
  intros [O1 O2 O3 O4 O5 O6 O7 O8 O9]. unfold shaped. cbn [map layout]. now rewrite O1, O2, O3, O4, O5, O6, O7, O8, O9.
Qed.

Definition sumz (l : list Z) : Z := fold_right Z.add 0 l.

Lemma zlen_concat (fs : list (list Z)) : zlen (concat fs) = sumz (map (@zlen Z) fs).
Proof. induction fs as [|f fs IH]; [reflexivity|]. cbn [concat map sumz fold_right]. now rewrite zlen_app, IH. Qed.

Lemma shaped_off fs k : shaped fs -> Z.of_nat (off fs k) = sumz (firstn k lens).
Proof.
  intros <-. unfold off. change (Z.of_nat (List.length ?l)) with (zlen l). now rewrite zlen_concat, firstn_map.
Qed.

Lemma shaped_length fs : shaped fs -> List.length fs = 27%nat.
Proof. intros H. apply (f_equal (@List.length Z)) in H. now rewrite length_map in H. Qed.

Lemma shaped_field fs k : shaped fs -> (k < 27)%nat -> zlen (nth k fs []) = nth k lens 0.
Proof.
  intros H Hk. rewrite <- H, (nth_indep _ 0 (zlen (@nil Z))); [now rewrite map_nth|].
  now rewrite length_map, (shaped_length fs).
Qed.

Lemma splice_same {A} (l : list A) k e : (k < List.length l)%nat -> splice k [nth k l e] l = l.
Proof.
  revert k. induction l as [|x l IH]; intros [|k] H; cbn in *; try lia; [reflexivity|].
  unfold splice in *. cbn [firstn skipn List.length app Nat.add] in *. f_equal. apply IH. lia.
Qed.

Lemma shaped_splice fs k s : shaped fs -> (k < 27)%nat -> zlen s = nth k lens 0 -> shaped (splice k [s] fs).
Proof.
  intros H Hk Hs. unfold shaped, splice in *. rewrite !map_app, <- firstn_map, <- skipn_map, H. cbn [map List.length].
  rewrite Hs. apply (splice_same lens). exact Hk.
Qed.

(** Writing fields [k], [k + 1], ... *)
Lemma write_fields args : forall fs k offs, shaped fs -> offs = sumz (firstn k lens) -> (k + List.length args <= 27)%nat ->
  map (@zlen Z) args = firstn (List.length args) (skipn k lens) ->
  write (concat fs) offs args = concat (splice k args fs) /\ shaped (splice k args fs).
Proof.
  induction args as [|s args IH]; intros fs k offs H Ho Hk Hl; cbn [write]; [now rewrite splice_nil|].
  cbn [List.length] in Hk. assert (K : (k < 27)%nat) by lia. pose proof (shaped_length fs H) as L.
  cbn [map List.length] in Hl. destruct (skipn k lens) as [|n ns] eqn:Es; [discriminate|]. cbn [firstn] in Hl.
  injection Hl as Hn Hl.
  assert (En : nth k lens 0 = n) by (rewrite <- (firstn_skipn k lens), app_nth2, length_firstn, Es;
    rewrite ?length_firstn; [|cbn [List.length lens]; lia]; rewrite Nat.min_l, Nat.sub_diag by (cbn [List.length lens]; lia); reflexivity).
  assert (Ens : ns = skipn (S k) lens) by (change (S k) with (1 + k)%nat; rewrite <- skipn_skipn, Es; reflexivity).
  rewrite (write_field fs k s offs); [|lia|now rewrite (shaped_off fs k H)|pose proof (shaped_field fs k H K); unfold zlen in *; lia].
  assert (H' : shaped (splice k [s] fs)) by (apply shaped_splice; [easy|easy|now rewrite En]).
  rewrite <- (splice_cons k s args fs) by (cbn [List.length]; lia). apply IH; try easy; try lia.
  - rewrite Ho, <- (shaped_off (splice k [s] fs) (S k) H'), <- (shaped_off fs k H). unfold off, splice, zlen.
    rewrite (firstn_app (S k)), length_firstn, L, Nat.min_l, (firstn_all2 (n := S k)) by (rewrite ?length_firstn; lia).
    replace (S k - k)%nat with 1%nat by lia. cbn [firstn app]. rewrite concat_app, length_app. cbn [concat].
    rewrite app_nil_r. lia.
  - now rewrite <- Ens.
Qed.

(** Storing one character in field [k]. *)
Lemma store_field fs k j c offs : shaped fs -> (k < 27)%nat -> offs = sumz (firstn k lens) + j -> 0 <= j < nth k lens 0 ->
  store offs c (concat fs) = concat (splice k [splice (Z.to_nat j) [c] (nth k fs [])] fs) /\
  shaped (splice k [splice (Z.to_nat j) [c] (nth k fs [])] fs).
Proof.
  intros H Hk Ho Hj. pose proof (shaped_field fs k H Hk) as Hl. pose proof (shaped_length fs H) as L.
  split.
  - rewrite <- (shaped_off fs k H) in Ho.
    rewrite <- (write_part fs k (Z.to_nat j) [c] offs); [reflexivity|lia|lia|].
    unfold zlen in Hl. cbn [List.length]. lia.
  - apply shaped_splice; [easy|easy|]. unfold zlen in *. rewrite length_splice; [easy|]. cbn [List.length]. lia.
Qed.

(** The sizes for which one deflate block is enough. *)
Hypothesis Hw : 0 < w.
Hypothesis Hh : 0 < h.
Hypothesis Hpix : pix_size w h <= 65535.
Hypothesis Hd : 1 <= d <= 256.

Lemma pix_pos : 2 <= pix_size w h.
Proof using Hw Hh. clear - Hw Hh. unfold pix_size. nia. Qed.

Lemma data_size_one : data_size w h = pix_size w h + 11.
Proof using Hw Hh Hpix.
  clear Hd. unfold data_size. pose proof pix_pos. replace ((0xfffe + pix_size w h) / 0xffff) with 1; [lia|].
  apply (Z.div_unique_pos _ _ _ (pix_size w h - 1)); lia.
Qed.

(** ** The constructor *)

Definition zeros : list (list Z) := map (fun n => repeat 0 (Z.to_nat n)) lens.

Lemma zeros_shaped : shaped zeros.
Proof using Hw Hh Hd.
  unfold shaped, zeros. rewrite map_map. clear Hpix. pose proof pix_pos.
  transitivity (map (fun n => n) lens); [|apply map_id]. apply map_ext_in. intros n Hn. rewrite zlen_repeat.
  apply Z2Nat.id. unfold lens in Hn. cbn [In] in Hn. intuition lia.
Qed.

Lemma repeat_concat (x : Z) ns : repeat x (list_sum ns) = concat (map (repeat x) ns).
Proof using. induction ns as [|n ns IH]; [reflexivity|]. cbn [map concat list_sum fold_right]. now rewrite repeat_app, <- IH. Qed.

Lemma zeros_buffer : repeat 0 (Z.to_nat (buffer_size w h d)) = concat zeros.
Proof using Hw Hh Hpix Hd.
  unfold zeros. rewrite <- map_map with (f := Z.to_nat), <- repeat_concat. f_equal.
  apply Nat2Z.inj. assert (E : forall l, Forall (fun n => 0 <= n) l -> Z.of_nat (list_sum (map Z.to_nat l)) = sumz l).
  { intros l Hl. induction Hl as [|n l Hn _ IH]; [reflexivity|]. cbn [map list_sum fold_right sumz] in *.
    fold (list_sum (map Z.to_nat l)). rewrite Nat2Z.inj_add, Z2Nat.id by easy. now rewrite IH. }
  pose proof pix_pos. rewrite E by (unfold lens; repeat (apply Forall_cons; [lia|]); apply Forall_nil).
  unfold buffer_size, iend_offs, iend_size, idat_offs, idat_size, trns_offs, trns_size, plte_offs, plte_size, ihdr_offs, ihdr_size.
  rewrite data_size_one. rewrite Z2Nat.id by lia. unfold lens. cbn [sumz fold_right]. lia.
Qed.

(** A new image: everything but the size, the chunk heads and the block head is zero. *)
Definition new_parts : parts := mkParts (repeat 0 (Z.to_nat (3 * d))) (repeat 0 (Z.to_nat d))
  (repeat 0 (Z.to_nat (pix_size w h))) [0; 0; 0; 0] [0; 0; 0; 0] [0; 0; 0; 0] [0; 0; 0; 0] [0; 0; 0; 0] [0; 0; 0; 0].

Lemma new_parts_ok : parts_ok new_parts.
Proof using Hw Hh Hd.
  clear Hpix. pose proof pix_pos. split; cbn [new_parts f_plte f_trns f_raw f_adler f_c1 f_c2 f_c3 f_c4 f_c5];
    rewrite ?zlen_repeat, ?Z2Nat.id by lia; reflexivity.
Qed.

Lemma block_headers_one fuel offs b : block_headers (S fuel) (pix_size w h) offs 0 b =
  Some (write b (offs + 8 + 2) [[1]; byte2lsb (pix_size w h); byte2lsb (~~ (pix_size w h))]).
Proof using Hw Hh Hpix.
  pose proof pix_pos. cbn [block_headers]. change (0 <<< 16) with 0. change (0 <<< 2) with 0.
  rewrite (proj2 (Z.ltb_lt (0 - 1) (pix_size w h))) by lia. unfold block_size, block_bits.
  change (0 + 0xffff) with 65535. rewrite (proj2 (Z.ltb_ge 65535 (pix_size w h))) by lia.
  change (0 <<< 16) with 0. rewrite !Z.sub_0_r, !Z.add_0_r. change (0 + 1) with 1.
  destruct fuel; cbn [block_headers]; change ((1 <<< 16) - 1) with 65535;
    now rewrite (proj2 (Z.ltb_ge 65535 (pix_size w h))) by lia.
Qed.

Lemma new_layout fuel : new_PNGlib (S fuel) w h d = Some (mkPNG w h d (concat (layout new_parts)) [] 0).
Proof using Hw Hh Hpix Hd.
  unfold new_PNGlib. rewrite zeros_buffer, block_headers_one. pose proof pix_pos as Hp. pose proof data_size_one as Hs.
  replace (plte_size d - 12) with (3 * d) by (unfold plte_size; lia).
  replace (trns_size d - 12) with d by (unfold trns_size; lia).
  replace (idat_size w h - 12) with (data_size w h) by (unfold idat_size; lia).
  change (ihdr_size - 12) with 13. change (iend_size - 12) with 0.
  assert (Z0 : shaped zeros) by apply zeros_shaped.
  destruct (write_fields [byte4 13; js "IHDR"; byte4 w; byte4 h; [8; 3]] zeros 0 ihdr_offs Z0) as [-> Z1]; [reflexivity|cbn; lia|reflexivity|].
  destruct (write_fields [byte4 (3 * d); js "PLTE"] _ 7 plte_offs Z1) as [-> Z2]; [reflexivity|cbn; lia|reflexivity|].
  assert (O3 : trns_offs d = sumz (firstn 11 lens)) by (unfold trns_offs, plte_offs, plte_size, ihdr_offs, ihdr_size; cbn [sumz fold_right firstn lens]; lia).
  destruct (write_fields [byte4 d; js "tRNS"] _ 11 _ Z2 O3) as [-> Z3]; [cbn; lia|reflexivity|].
  assert (O4 : idat_offs d = sumz (firstn 15 lens)) by (unfold idat_offs, trns_size; rewrite O3; cbn [sumz fold_right firstn lens]; lia).
  destruct (write_fields [byte4 (data_size w h); js "IDAT"] _ 15 _ Z3 O4) as [-> Z4]; [cbn; lia|reflexivity|].
  assert (O5 : iend_offs w h d = sumz (firstn 24 lens)) by (unfold iend_offs, idat_size; rewrite O4, Hs; cbn [sumz fold_right firstn lens]; lia).
  destruct (write_fields [byte4 0; js "IEND"] _ 24 _ Z4 O5) as [-> Z5]; [cbn; lia|reflexivity|].
  assert (O6 : idat_offs d + 8 = sumz (firstn 17 lens)) by (rewrite O4; cbn [sumz fold_right firstn lens]; lia).
  destruct (write_fields [byte2 deflate_header] _ 17 _ Z5 O6) as [-> Z6]; [cbn; lia|reflexivity|].
  assert (O7 : idat_offs d + 8 + 2 = sumz (firstn 18 lens)) by (rewrite O6; cbn [sumz fold_right firstn lens]; lia).
  destruct (write_fields [[1]; byte2lsb (pix_size w h); byte2lsb (~~ pix_size w h)] _ 18 _ Z6 O7) as [-> _]; [cbn; lia|reflexivity|].
  reflexivity.
Qed.

(** ** Colors *)

Lemma zseq_snoc a n : zseq a (S n) = zseq a n ++ [a + Z.of_nat n].
Proof using. unfold zseq. now rewrite seq_S, map_app. Qed.

Lemma combine_snoc {A B} (l : list A) (m : list B) x y : List.length l = List.length m ->
  combine (l ++ [x]) (m ++ [y]) = combine l m ++ [(x, y)].
Proof using.
  revert m. induction l as [|u l IH]; intros [|v m] H; try discriminate; [reflexivity|].
  cbn [app combine]. f_equal. apply IH. now injection H.
Qed.

Lemma palette_snoc l c : palette_of (l ++ [c]) = (number c, zlen l) :: palette_of l.
Proof using.
  unfold palette_of. rewrite length_app, Nat.add_1_r, zseq_snoc, map_app. cbn [map]. rewrite combine_snoc, rev_app_distr; [reflexivity|].
  unfold zseq. now rewrite !length_map, length_seq.
Qed.

Lemma find_color_position c l : rgba_ok c -> Forall rgba_ok l -> NoDup l ->
  find_color (number c) (palette_of l) = position c l 0.
Proof using. clear Hd Hpix Hw Hh.
  intros Hc. induction l as [|x l IH] using rev_ind; intros Ho Hn; [reflexivity|].
  apply Forall_app in Ho as [Ho Hx]. inversion Hx as [|? ? Hx' _]; subst. rewrite palette_snoc. cbn [find_color].
  assert (Hn' : ~ In x l /\ NoDup l) by (apply NoDup_remove with (l' := []) in Hn; now rewrite app_nil_r in Hn).
  rewrite position_app, IH by easy. cbn [position]. destruct (rgba_eqb_spec x c) as [->|Hne].
  - rewrite Z.eqb_refl. destruct (position c l 0) eqn:E; [|reflexivity].
    exfalso. apply (proj1 Hn'). clear - E. revert E. generalize 0. induction l as [|y l IH]; intros i; cbn [position]; [easy|].
    destruct (rgba_eqb_spec y c) as [->|]; [now left|]. intros E. right. now apply (IH (i + 1)).
  - destruct (Z.eqb_spec (number x) (number c)) as [E|_]; [now apply number_inj in E|]. now destruct (position c l 0).
Qed.

Definition rgb_bytes (c : rgba) : list Z := let '(r, g, b, a) := c in [r; g; b].
Definition alpha_byte (c : rgba) : Z := snd c.

Definition parts_bytes (x : parts) : Prop :=
  Forall bytes_ok [f_plte x; f_trns x; f_raw x; f_adler x; f_c1 x; f_c2 x; f_c3 x; f_c4 x; f_c5 x].

Lemma byte4_ok n : bytes_ok (byte4 n).
Proof using. rewrite byte4_be. apply Forall_rev, le_bytes_ok. Qed.

Lemma layout_bytes x : parts_bytes x -> Forall bytes_ok (layout x).
Proof using.
  unfold parts_bytes. rewrite !Forall_cons_iff. intros (H1 & H2 & H3 & H4 & H5 & H6 & H7 & H8 & H9 & _).
  assert (J : forall s : list Z, forallb (fun c => (0 <=? c) && (c <? 256)) s = true -> bytes_ok s).
  { intros s Hs. apply Forall_forall. intros c Hc. rewrite forallb_forall in Hs. specialize (Hs c Hc).
    rewrite andb_true_iff, Z.leb_le, Z.ltb_lt in Hs. exact Hs. }
  unfold layout. rewrite !byte2lsb_le.
  repeat (apply Forall_cons; [lazymatch goal with
    | |- bytes_ok (byte4 _) => apply byte4_ok
    | |- bytes_ok (le_bytes _ _) => apply le_bytes_ok
    | |- bytes_ok (_ x) => assumption
    | _ => apply J; vm_compute; reflexivity
    end|]). apply Forall_nil.
Qed.

(** [p] shows the canvas [cv]. *)
Record shows (p : PNGlib) (cv : canvas) : Prop := {
  sh_width : width p = w;
  sh_height : height p = h;
  sh_depth : depth p = d;
  sh_colors : Forall rgba_ok (cv_colors cv);
  sh_distinct : NoDup (cv_colors cv);
  sh_room : zlen (cv_colors cv) <= d;
  sh_palette : palette p = palette_of (cv_colors cv);
  sh_pindex : pindex p = zlen (cv_colors cv);
  sh_rows : zlen (cv_rows cv) = h;
  sh_row : Forall (fun r => zlen r = w /\ bytes_ok r) (cv_rows cv);
  sh_buffer : exists x, parts_ok x /\ buffer p = concat (layout x) /\
    f_plte x = flat_map rgb_bytes (cv_colors cv) ++ repeat 0 (Z.to_nat (3 * (d - zlen (cv_colors cv)))) /\
    f_trns x = map alpha_byte (cv_colors cv) ++ repeat 0 (Z.to_nat (d - zlen (cv_colors cv))) /\
    f_raw x = concat (map (cons 0) (cv_rows cv)) /\ parts_bytes x
}.

Lemma zlen_rgb l : zlen (flat_map rgb_bytes l) = 3 * zlen l.
Proof using.
  induction l as [|[[[r g] b] a] l IH]; [reflexivity|]. cbn [flat_map rgb_bytes]. rewrite zlen_app, IH, (zlen_cons _ l).
  change (zlen [r; g; b]) with 3. lia.
Qed.

Lemma splice_first {A} (a b : list A) new n : List.length a = n -> (List.length new <= List.length b)%nat ->
  splice n new (a ++ b) = a ++ new ++ skipn (List.length new) b.
Proof using.
  intros <- H. rewrite <- (Nat.add_0_r (List.length a)) at 1. rewrite <- (app_nil_r b) at 1. rewrite splice_mid by lia.
  unfold splice. cbn [firstn app Nat.add]. now rewrite app_nil_r.
Qed.

Lemma skipn_repeat {A} (x : A) k n : skipn k (repeat x n) = repeat x (n - k).
Proof using. revert n. induction k as [|k IH]; intros [|n]; cbn [skipn repeat Nat.sub]; auto. Qed.

Lemma concat_repeat {A} (l : list A) n x : l = repeat x (List.length l) ->
  concat (repeat l n) = repeat x (n * List.length l).
Proof using.
  intros E. induction n as [|n IH]; [reflexivity|]. cbn [repeat concat Nat.mul]. rewrite IH, repeat_app. now rewrite <- E.
Qed.

Lemma new_shows : shows (mkPNG w h d (concat (layout new_parts)) [] 0) (new_canvas w h).
Proof using Hw Hh Hpix Hd.
  split; cbn [width height depth palette pindex buffer new_canvas cv_colors cv_rows]; try reflexivity; try constructor.
  - rewrite zlen_nil. lia.
  - rewrite zlen_repeat. lia.
  - apply Forall_forall. intros r Hr. apply repeat_spec in Hr. subst r. rewrite zlen_repeat. split; [lia|].
    apply Forall_forall. intros c Hc. apply repeat_spec in Hc. subst c. unfold byte_ok. lia.
  - exists new_parts. assert (Z0 : forall n, bytes_ok (repeat 0 n)).
    { intros n. apply Forall_forall. intros c Hc. apply repeat_spec in Hc. subst c. unfold byte_ok. lia. }
    splits; cbn [new_parts f_plte f_trns f_raw flat_map map app]; rewrite ?zlen_nil, ?Z.sub_0_r; try reflexivity; [apply new_parts_ok| |].
    + rewrite map_repeat. change (0 :: repeat 0 (Z.to_nat w)) with (repeat 0 (S (Z.to_nat w))).
      rewrite (concat_repeat _ _ 0) by (now rewrite repeat_length). rewrite repeat_length. f_equal. unfold pix_size. nia.
    + unfold parts_bytes. cbn [new_parts f_plte f_trns f_raw f_adler f_c1 f_c2 f_c3 f_c4 f_c5].
      repeat (apply Forall_cons; [first [apply Z0|exact (Z0 4%nat)]|]). apply Forall_nil.
Qed.

(** Three colors into the palette and one into the transparencies. *)
Lemma pad_plte (u : list Z) r g b m : splice (List.length u) [r; g; b] (u ++ repeat 0 (3 + m)) = (u ++ [r; g; b]) ++ repeat 0 m.
Proof using. rewrite splice_first by (reflexivity || (cbn; lia)). rewrite <- app_assoc. reflexivity. Qed.

Lemma pad_trns (u : list Z) a m : splice (List.length u) [a] (u ++ repeat 0 (1 + m)) = (u ++ [a]) ++ repeat 0 m.
Proof using. rewrite splice_first by (reflexivity || (cbn; lia)). rewrite <- app_assoc. reflexivity. Qed.

(** Storing a new color. *)
Lemma store_color x n r g b a : parts_ok x -> 0 <= n < d -> rgba_ok (r, g, b, a) ->
  let b1 := store (plte_offs + 8 + 3 * n + 0) (r mod 65536) (concat (layout x)) in
  let b2 := store (plte_offs + 8 + 3 * n + 1) (g mod 65536) b1 in
  let b3 := store (plte_offs + 8 + 3 * n + 2) (b mod 65536) b2 in
  store (trns_offs d + 8 + n) (a mod 65536) b3 = concat (layout (mkParts
    (splice (Z.to_nat (3 * n)) [r; g; b] (f_plte x)) (splice (Z.to_nat n) [a] (f_trns x))
    (f_raw x) (f_adler x) (f_c1 x) (f_c2 x) (f_c3 x) (f_c4 x) (f_c5 x))).
Proof using.
  clear Hw Hh Hpix Hd. intros Hx Hn (Hr & Hg & Hb & Ha). unfold byte_ok in *. rewrite !Z.mod_small by lia. cbv zeta.
  pose proof (layout_shaped x Hx) as S0.
  destruct (store_field (layout x) 9 (3 * n) r (plte_offs + 8 + 3 * n + 0) S0) as [E1 S1]; [lia|cbn [sumz fold_right firstn lens]; unfold plte_offs, ihdr_offs, ihdr_size; lia|cbn [nth lens]; lia|].
  rewrite E1. destruct (store_field _ 9 (3 * n + 1) g (plte_offs + 8 + 3 * n + 1) S1) as [E2 S2]; [lia|cbn [sumz fold_right firstn lens]; unfold plte_offs, ihdr_offs, ihdr_size; lia|cbn [nth lens]; lia|].
  rewrite E2. destruct (store_field _ 9 (3 * n + 2) b (plte_offs + 8 + 3 * n + 2) S2) as [E3 S3]; [lia|cbn [sumz fold_right firstn lens]; unfold plte_offs, ihdr_offs, ihdr_size; lia|cbn [nth lens]; lia|].
  rewrite E3. destruct (store_field _ 13 n a (trns_offs d + 8 + n) S3) as [E4 _]; [lia|cbn [sumz fold_right firstn lens]; unfold trns_offs, plte_size, plte_offs, ihdr_offs, ihdr_size; lia|cbn [nth lens]; lia|].
  rewrite E4. f_equal. clear - Hx Hn.
  pose proof (ok_plte x Hx) as Lp. unfold zlen in Lp.
  rewrite <- (splice_cons (Z.to_nat (3 * n)) r [g; b] (f_plte x)) by (cbn [List.length]; lia).
  rewrite <- (splice_cons (S (Z.to_nat (3 * n))) g [b] (splice (Z.to_nat (3 * n)) [r] (f_plte x)))
    by (rewrite length_splice; cbn [List.length]; lia).
  replace (S (Z.to_nat (3 * n))) with (Z.to_nat (3 * n + 1)) by lia.
  replace (S (Z.to_nat (3 * n + 1))) with (Z.to_nat (3 * n + 2)) by lia. reflexivity.
Qed.

Lemma color_new p r g b a : byte_ok a -> find_color (color_number r g b a) (palette p) = None -> pindex p <> depth p ->
  color r g b (Some a) p = (let ndx := plte_offs + 8 + 3 * pindex p in
    let b0 := store (ndx + 0) (r mod 65536) (buffer p) in
    let b0 := store (ndx + 1) (g mod 65536) b0 in
    let b0 := store (ndx + 2) (b mod 65536) b0 in
    let b0 := store (trns_offs (depth p) + 8 + pindex p) (a mod 65536) b0 in
    (mkPNG (width p) (height p) (depth p) b0 ((color_number r g b a, pindex p mod 65536) :: palette p) (pindex p + 1),
     pindex p mod 65536)).
Proof using.
  intros Ha Hf Hn. unfold color. unfold byte_ok in Ha.
  rewrite (proj2 (Z.leb_le 0 a)) by apply Ha. rewrite Hf, (proj2 (Z.eqb_neq _ _) Hn). reflexivity.
Qed.

Lemma color_old p r g b a : byte_ok a ->
  color r g b (Some a) p = match find_color (color_number r g b a) (palette p) with
    | Some c => (p, c)
    | None => if pindex p =? depth p then (p, 0) else color r g b (Some a) p
    end.
Proof using.
  intros Ha. unfold color. unfold byte_ok in Ha. rewrite (proj2 (Z.leb_le 0 a)) by apply Ha.
  destruct (find_color _ _); [reflexivity|]. now destruct (pindex p =? depth p).
Qed.

Definition palette_plte (l : list rgba) : list Z := flat_map rgb_bytes l ++ repeat 0 (Z.to_nat (3 * (d - zlen l))).
Definition palette_trns (l : list rgba) : list Z := map alpha_byte l ++ repeat 0 (Z.to_nat (d - zlen l)).

Lemma plte_snoc l r g b a : zlen l < d ->
  splice (Z.to_nat (3 * zlen l)) [r; g; b] (palette_plte l) = palette_plte (l ++ [(r, g, b, a)]).
Proof using.
  clear Hw Hh Hpix Hd. intros Hl. unfold palette_plte. rewrite flat_map_app, zlen_app. change (zlen [(r, g, b, a)]) with 1.
  replace (Z.to_nat (3 * (d - zlen l))) with (3 + Z.to_nat (3 * (d - (zlen l + 1))))%nat by lia.
  pose proof (zlen_rgb l) as L. replace (Z.to_nat (3 * zlen l)) with (List.length (flat_map rgb_bytes l)) by (unfold zlen in *; lia).
  apply pad_plte.
Qed.

Lemma trns_snoc l r g b a : zlen l < d ->
  splice (Z.to_nat (zlen l)) [a] (palette_trns l) = palette_trns (l ++ [(r, g, b, a)]).
Proof using.
  clear Hw Hh Hpix Hd. intros Hl. unfold palette_trns. rewrite map_app, zlen_app. change (zlen [(r, g, b, a)]) with 1.
  replace (Z.to_nat (d - zlen l)) with (1 + Z.to_nat (d - (zlen l + 1)))%nat by lia.
  replace (Z.to_nat (zlen l)) with (List.length (map alpha_byte l)) by (rewrite length_map; unfold zlen; lia).
  apply pad_trns.
Qed.

Lemma palette_lengths l : zlen l <= d -> zlen (palette_plte l) = 3 * d /\ zlen (palette_trns l) = d.
Proof using.
  clear Hw Hh Hpix Hd. intros Hl. unfold palette_plte, palette_trns. rewrite !zlen_app, !zlen_repeat, zlen_rgb.
  unfold zlen at 3. rewrite length_map. fold (zlen l). pose proof (zlen_nonneg l). lia.
Qed.

Lemma palette_bytes l : Forall rgba_ok l -> bytes_ok (palette_plte l) /\ bytes_ok (palette_trns l).
Proof using.
  clear Hw Hh Hpix Hd. intros H. assert (Z0 : forall n, bytes_ok (repeat 0 n)).
  { intros n. apply Forall_forall. intros c Hc. apply repeat_spec in Hc. subst c. unfold byte_ok. lia. }
  unfold palette_plte, palette_trns. rewrite !bytes_app.
  enough (bytes_ok (flat_map rgb_bytes l) /\ bytes_ok (map alpha_byte l)) by (splits; easy).
  induction H as [|[[[r g] b] a] l (Hr & Hg & Hb & Ha) _ [IH1 IH2]]; [split; constructor|].
  cbn [flat_map map rgb_bytes]. split; [apply bytes_app; split; [|exact IH1]; repeat (apply Forall_cons; [assumption|]); apply Forall_nil|].
  apply Forall_cons; [exact Ha|exact IH2].
Qed.

(** [color] adds to the palette of the canvas and returns the index. *)
Lemma color_shows p cv r g b a : shows p cv -> rgba_ok (r, g, b, a) ->
  snd (color r g b (Some a) p) = snd (add_color d (r, g, b, a) cv) /\
  shows (fst (color r g b (Some a) p)) (fst (add_color d (r, g, b, a) cv)).
Proof using Hd.
  clear Hw Hh Hpix. intros Hs Hc. pose proof Hc as (_ & _ & _ & Ha). set (c := ((r, g, b, a) : rgba)) in *.
  pose proof Hs as [S1 S2 S3 S4 S5 S6 S7 S8 S9 S10 S11].
  assert (Hf : find_color (color_number r g b a) (palette p) = position c (cv_colors cv) 0)
    by (rewrite S7, <- number_eq; exact (find_color_position c _ Hc S4 S5)).
  unfold add_color. destruct (position c (cv_colors cv) 0) as [i|] eqn:Ep.
  { rewrite color_old, Hf by exact Ha. split; [reflexivity|exact Hs]. }
  destruct (Z.eqb_spec (zlen (cv_colors cv)) d) as [Efull|Hroom].
  { rewrite color_old, Hf, S8, S3, (proj2 (Z.eqb_eq _ _) Efull) by exact Ha. split; [reflexivity|exact Hs]. }
  pose proof (zlen_nonneg (cv_colors cv)) as Hn. rewrite color_new; [|exact Ha|exact Hf|now rewrite S8, S3].
  cbv zeta. cbn [fst snd]. rewrite S8, S3, Z.mod_small by lia. split; [reflexivity|].
  destruct S11 as (x & X1 & X2 & X3 & X4 & X5 & X6). rewrite X2, store_color; [|exact X1|lia|exact Hc].
  change (flat_map _ _ ++ _) with (palette_plte (cv_colors cv)) in X3. change (map _ _ ++ _) with (palette_trns (cv_colors cv)) in X4.
  rewrite X3, X4, (plte_snoc _ r g b a), (trns_snoc _ r g b a) by lia. fold c.
  assert (Hsnoc : zlen (A := rgba) (cv_colors cv ++ [c]) = zlen (cv_colors cv) + 1) by (rewrite zlen_app; reflexivity).
  assert (Hok : Forall rgba_ok (cv_colors cv ++ [c])) by (apply Forall_app; split; [exact S4|constructor; [exact Hc|constructor]]).
  destruct (palette_lengths (cv_colors cv ++ [c]) ltac:(lia)) as [L1 L2]. destruct (palette_bytes _ Hok) as [B1 B2].
  split; cbn [width height depth palette pindex buffer cv_colors cv_rows]; try assumption; rewrite ?Hsnoc; try lia.
  - apply NoDup_app; [exact S5|repeat constructor; easy|]. intros y Hy [<-|[]]. now apply position_none in Ep.
  - rewrite palette_snoc, S7. reflexivity.
  - eexists. splits; [|reflexivity|..]; cbn [f_plte f_trns f_raw]; [|now rewrite <- Hsnoc|now rewrite <- Hsnoc|exact X5|].
    + destruct X1 as [O1 O2 O3 O4 O5 O6 O7 O8 O9]. now split.
    + unfold parts_bytes in *. cbn [f_plte f_trns f_raw f_adler f_c1 f_c2 f_c3 f_c4 f_c5].
      apply Forall_cons; [exact B1|]. apply Forall_cons; [exact B2|]. now apply Forall_inv_tail, Forall_inv_tail in X6.
Qed.

(** ** Pixels *)

Definition pixel_number (x y : Z) : Z := y * (w + 1) + x + 1.

Lemma pixel_number_bound x y : -1 <= x < w -> 0 <= y < h -> 0 <= pixel_number x y < pix_size w h.
Proof using Hw Hh. clear Hpix Hd. intros Hx Hy. unfold pixel_number, pix_size. nia. Qed.

Definition raw_offs : Z := sumz (firstn 21 lens).

Lemma index_place p x y : width p = w -> depth p = d -> -1 <= x < w -> 0 <= y < h ->
  index p x y = raw_offs + pixel_number x y.
Proof using Hw Hh Hpix.
  clear Hd. intros Ew Ed Hx Hy. pose proof (pixel_number_bound x y Hx Hy) as B. unfold index. rewrite Ew, Ed.
  fold (pixel_number x y). rewrite (Z.div_small (pixel_number x y)) by lia.
  unfold raw_offs, idat_offs, trns_offs, trns_size, plte_offs, plte_size, ihdr_offs, ihdr_size.
  cbn [sumz fold_right firstn lens]. lia.
Qed.

Lemma concat_const (fs : list (list Z)) n k : Forall (fun f => zlen f = n) fs -> (k <= List.length fs)%nat ->
  Z.of_nat (off fs k) = Z.of_nat k * n.
Proof using.
  clear Hw Hh Hpix Hd. intros H. revert k. induction H as [|f fs Hf _ IH]; intros k Hk.
  - destruct k; [reflexivity|cbn in Hk; lia].
  - destruct k as [|k]; [reflexivity|]. cbn [List.length] in Hk. unfold off in *. cbn [firstn concat].
    rewrite length_app, Nat2Z.inj_add, IH by lia. unfold zlen in Hf. lia.
Qed.

Lemma rows_fields rows : Forall (fun r => zlen r = w /\ bytes_ok r) rows -> Forall (fun f => zlen f = w + 1) (map (cons 0) rows).
Proof using.
  clear Hw Hh Hpix Hd. intros H. induction H as [|r rows [Hr _] _ IH]; [constructor|]. constructor; [rewrite zlen_cons; lia|exact IH].
Qed.

Lemma splice_row rows x y c : zlen rows = h -> Forall (fun r => zlen r = w /\ bytes_ok r) rows -> 0 <= x < w -> 0 <= y < h ->
  splice (Z.to_nat (pixel_number x y)) [c] (concat (map (cons 0) rows)) =
  concat (map (cons 0) (splice (Z.to_nat y) [splice (Z.to_nat x) [c] (nth (Z.to_nat y) rows [])] rows)).
Proof using.
  clear Hw Hh Hpix Hd. intros Hl Hr Hx Hy. pose proof (rows_fields rows Hr) as F. unfold zlen in Hl.
  assert (Ny : (Z.to_nat y < List.length rows)%nat) by lia.
  assert (O : Z.to_nat (pixel_number x y) = (off (map (cons 0%Z) rows) (Z.to_nat y) + S (Z.to_nat x))%nat).
  { pose proof (concat_const _ _ (Z.to_nat y) F) as C. rewrite length_map in C. unfold pixel_number.
    assert (C' := C ltac:(lia)). clear C. nia. }
  assert (En : nth (Z.to_nat y) (map (cons 0) rows) [] = 0 :: nth (Z.to_nat y) rows []).
  { rewrite (nth_indep _ [] (0 :: [])) by (now rewrite length_map). now rewrite map_nth. }
  pose proof (proj1 (Forall_forall _ _) Hr (nth (Z.to_nat y) rows []) (nth_In _ _ Ny)) as [Lr _]. unfold zlen in Lr.
  rewrite O, splice_field; [|now rewrite length_map|rewrite En; cbn [List.length]; lia]. rewrite En. f_equal.
  unfold splice at 1 3. rewrite !map_app, firstn_map, skipn_map. reflexivity.
Qed.

Lemma Forall_splice {A} (P : A -> Prop) k new l : Forall P l -> Forall P new -> Forall P (splice k new l).
Proof using.
  intros Hl Hn. unfold splice. apply Forall_app. split; [now apply Forall_firstn_n|].
  apply Forall_app. split; [exact Hn|now apply Forall_skipn_n].
Qed.

(** Setting a pixel. *)
Lemma pixel_shows p cv x y c : shows p cv -> 0 <= x < w -> 0 <= y < h -> byte_ok c ->
  shows (set_pixel x y c p) (put_pixel x y c cv).
Proof using Hw Hh Hpix.
  clear Hd. intros [S1 S2 S3 S4 S5 S6 S7 S8 S9 S10 (q & X1 & X2 & X3 & X4 & X5 & X6)] Hx Hy Hc.
  pose proof (pixel_number_bound x y ltac:(lia) Hy) as B.
  pose proof (splice_row (cv_rows cv) x y c S9 S10 Hx Hy) as E.
  assert (Ny : (Z.to_nat y < List.length (cv_rows cv))%nat) by (unfold zlen in S9; lia).
  pose proof (proj1 (Forall_forall _ _) S10 (nth (Z.to_nat y) (cv_rows cv) []) (nth_In _ _ Ny)) as [Lr Br].
  split; cbn [set_pixel set_buffer put_pixel width height depth palette pindex buffer cv_colors cv_rows]; try assumption.
  - unfold zlen in *. rewrite length_splice; [exact S9|]. cbn [List.length]. lia.
  - apply Forall_splice; [exact S10|]. constructor; [|constructor]. split.
    + unfold zlen in *. rewrite length_splice; [exact Lr|]. cbn [List.length]. lia.
    + apply Forall_splice; [exact Br|]. constructor; [exact Hc|constructor].
  - exists (mkParts (f_plte q) (f_trns q) (splice (Z.to_nat (pixel_number x y)) [c] (f_raw q)) (f_adler q)
      (f_c1 q) (f_c2 q) (f_c3 q) (f_c4 q) (f_c5 q)).
    splits; cbn [f_plte f_trns f_raw]; try assumption.
    + destruct X1 as [O1 O2 O3 O4 O5 O6 O7 O8 O9]. split; try assumption. cbn [f_raw]. unfold zlen in *.
      rewrite length_splice; [exact O3|]. cbn [List.length]. lia.
    + rewrite X2, (index_place p x y) by (easy || lia).
      destruct (store_field (layout q) 21 (pixel_number x y) c (raw_offs + pixel_number x y) (layout_shaped q X1)) as [-> _];
        [lia|reflexivity|exact B|]. reflexivity.
    + now rewrite X5.
    + unfold parts_bytes in *. cbn [f_plte f_trns f_raw f_adler f_c1 f_c2 f_c3 f_c4 f_c5].
      rewrite !Forall_cons_iff in *. splits; try apply X6. apply Forall_splice; [apply X6|]. constructor; [exact Hc|constructor].
Qed.

(** ** Checksums *)

Lemma fold_nested {A B C S} (f : C -> S -> S) (g : A -> B -> C) (xs : list A) (ys : list B) (st : S) :
  fold_left (fun st y => fold_left (fun st x => f (g x y) st) xs st) ys st =
  fold_left (fun st c => f c st) (flat_map (fun y => map (fun x => g x y) xs) ys) st.
Proof using.
  revert st. induction ys as [|y ys IH]; intros st; [reflexivity|]. cbn [fold_left flat_map]. rewrite fold_left_app, IH. f_equal.
  clear IH. revert st. induction xs as [|x xs IH]; intros st; [reflexivity|]. cbn [fold_left map]. apply IH.
Qed.

Lemma map_zseq_shift {A} (g : Z -> A) a b n : map (fun i => g (a + i)) (zseq b n) = map g (zseq (a + b) n).
Proof using. unfold zseq. rewrite !map_map. apply map_ext. intros i. f_equal. lia. Qed.

Lemma flat_zseq {A} (g : Z -> A) a m n : flat_map (fun y => map g (zseq (a + y * Z.of_nat m) m)) (zseq 0 n) = map g (zseq a (n * m)).
Proof using.
  clear Hw Hh Hpix Hd. induction n as [|n IH]; [reflexivity|]. rewrite zseq_snoc, flat_map_app, IH. cbn [flat_map]. rewrite app_nil_r.
  replace (S n * m)%nat with (n * m + m)%nat by lia. rewrite zseq_app, map_app. do 2 f_equal. f_equal. lia.
Qed.

Lemma raw_segment q : parts_ok q ->
  map (char_code (concat (layout q))) (zseq raw_offs (Z.to_nat (pix_size w h))) = f_raw q.
Proof using Hw Hh.
  clear Hpix Hd. intros X. pose proof (layout_shaped q X) as S0. pose proof (shaped_off (layout q) 21 S0) as O. fold raw_offs in O.
  pose proof (segment (layout q) 21 1) as G. cbn [firstn skipn layout concat] in G. fold (layout q) in G. rewrite app_nil_r in G.
  assert (L : List.length (f_raw q) = Z.to_nat (pix_size w h)) by (pose proof (ok_raw q X); unfold zlen in *; lia).
  rewrite L in G. rewrite map_char_code; [|lia|].
  - replace (Z.to_nat raw_offs) with (off (layout q) 21) by lia. exact G.
  - rewrite (concat_at (layout q) 21) by (rewrite (shaped_length _ S0); lia). rewrite !length_app.
    replace (Z.to_nat raw_offs) with (off (layout q) 21) by lia. unfold off. rewrite <- L. cbn [nth layout]. lia.
Qed.

Lemma adler_value p q : width p = w -> height p = h -> depth p = d -> buffer p = concat (layout q) -> parts_ok q ->
  bytes_ok (f_raw q) -> u32 (adler32 p) = Format.adler (f_raw q).
Proof using Hw Hh Hpix.
  clear Hd. intros Ew Eh Ed Eb X Hb. unfold adler32. rewrite fold_nested, Ew, Eh, Eb.
  assert (E : flat_map (fun y => map (fun x => char_code (concat (layout q)) (index p x y)) (zseq (-1) (Z.to_nat (w + 1)))) (zseq 0 (Z.to_nat h)) = f_raw q).
  { rewrite <- (raw_segment q X). replace (Z.to_nat (pix_size w h)) with (Z.to_nat h * Z.to_nat (w + 1))%nat by (unfold pix_size; nia).
    rewrite <- flat_zseq. rewrite !flat_map_concat_map. f_equal. apply map_ext_in. intros y Hy.
    unfold zseq in Hy. apply in_map_iff in Hy as (k & <- & Hk). apply in_seq in Hk.
    set (y := 0 + Z.of_nat k). replace (raw_offs + y * Z.of_nat (Z.to_nat (w + 1))) with (raw_offs + y * (w + 1) + 1 + -1) by lia.
    rewrite <- map_zseq_shift. apply map_ext_in. intros x Hx. unfold zseq in Hx. apply in_map_iff in Hx as (i & <- & Hi).
    apply in_seq in Hi. rewrite index_place by (easy || lia). unfold pixel_number. f_equal. lia. }
  rewrite E. pose proof (adler_fold (f_raw q) Hb 1 0 NMAX ltac:(lia) ltac:(lia)) as A.
  destruct (fold_left (fun st c => adler_step c st) (f_raw q) (1, 0, NMAX)) as [[s1 s2] n]. destruct A as (A1 & A2 & A3).
  change (1 mod BASE, 0 mod BASE) with (1, 0) in A3. unfold Format.adler. rewrite <- A3.
  rewrite !Z.rem_mod_nonneg by (unfold BASE; lia). set (t1 := s1 mod BASE). set (t2 := s2 mod BASE).
  assert (T1 : 0 <= t1 < 65536) by (unfold t1, BASE; pose proof (Z.mod_pos_bound s1 65521); lia).
  assert (T2 : 0 <= t2 < 65536) by (unfold t2, BASE; pose proof (Z.mod_pos_bound s2 65521); lia).
  clearbody t1 t2. rewrite u32_or, u32_shl, Z.shiftl_mul_pow2, (wrapu_id 32 t1), (wrapu_id 32 t2) by (unfold in_u; lia).
  change (2 ^ 16) with 65536. rewrite (wrapu_id 32 (t2 * 65536)) by (unfold in_u; lia).
  replace (t2 * 65536) with (Z.shiftl t2 16) by (rewrite Z.shiftl_mul_pow2; lia).
  rewrite lor_shiftl_add, Z.shiftl_mul_pow2 by (change (2 ^ 16) with 65536; lia). reflexivity.
Qed.

(** The checksum of the chunk that starts at field [k]: its type and data are the [m] fields
    behind the length. *)
Lemma crc_field fs k m offs size : shaped fs -> Forall bytes_ok fs -> (S k + m < 27)%nat ->
  offs = sumz (firstn k lens) -> sumz (firstn (S k) lens) = offs + 4 ->
  sumz (firstn m (skipn (S k) lens)) = size - 8 -> sumz (firstn (S k + m) lens) = offs + size - 4 ->
  nth (S k + m) lens 0 = 4 ->
  exists c, crc32 (concat fs) offs size = concat (splice (S k + m) [byte4 c] fs) /\
    shaped (splice (S k + m) [byte4 c] fs) /\ u32 c = Format.crc (concat (firstn m (skipn (S k) fs))).
Proof using.
  clear Hw Hh Hpix Hd. intros S0 B Hk Ho H4 Hm Hc L4. set (data := concat (firstn m (skipn (S k) fs))).
  pose proof (shaped_off fs k S0) as O. pose proof (shaped_off fs (S k) S0) as O1. rewrite H4 in O1.
  assert (Ld : Z.of_nat (List.length data) = size - 8).
  { unfold data. change (Z.of_nat (List.length ?l)) with (zlen l). now rewrite zlen_concat, <- firstn_map, <- skipn_map, S0. }
  assert (Bd : bytes_ok data).
  { apply Forall_concat, Forall_firstn_n, Forall_skipn_n, B. }
  assert (Rd : map (fun i => char_code (concat fs) (offs + i)) (zseq 4 (Z.to_nat (size - 8))) = data).
  { rewrite map_zseq_shift. replace (Z.to_nat (size - 8)) with (List.length data) by lia.
    rewrite map_char_code; [|lia|].
    - replace (Z.to_nat (offs + 4)) with (off fs (S k)) by lia. apply segment.
    - replace (Z.to_nat (offs + 4)) with (off fs (S k)) by lia. unfold off, data.
      rewrite <- length_app, <- concat_app. rewrite <- (firstn_skipn (S k) fs) at 3. rewrite !concat_app, !length_app.
      rewrite <- (firstn_skipn m (skipn (S k) fs)) at 2. rewrite concat_app, length_app. lia. }
  set (crc := fold_left crc_update data (-1)). exists (crc .^ -1).
  assert (Ec : crc32 (concat fs) offs size = write (concat fs) (offs + size - 4) [byte4 (crc .^ -1)]).
  { unfold crc32, crc. rewrite <- Rd. generalize (-1). generalize (zseq 4 (Z.to_nat (size - 8))).
    assert (F : forall l x, fold_left (fun c i => crc_update c (char_code (concat fs) (offs + i))) l x =
      fold_left crc_update (map (fun i => char_code (concat fs) (offs + i)) l) x).
    { induction l as [|i l IH]; intros x; [reflexivity|]. cbn [fold_left map]. apply IH. }
    intros l x. now rewrite F. }
  rewrite Ec. destruct (write_fields [byte4 (crc .^ -1)] fs (S k + m) (offs + size - 4) S0) as [E1 E2];
    [now rewrite Hc|cbn [List.length]; lia| |].
  { cbn [map List.length]. change (zlen (byte4 (crc .^ -1))) with 4.
    assert (N : (S k + m < List.length lens)%nat) by exact Hk.
    destruct (skipn (S k + m) lens) as [|n ns] eqn:Es.
    - apply (f_equal (@List.length Z)) in Es. rewrite length_skipn in Es. cbn [List.length] in Es. lia.
    - cbn [firstn]. pose proof (nth_skipn (S k + m) lens 0 0) as K. rewrite Nat.add_0_r, L4, Es in K. cbn [nth] in K. now rewrite K. }
  splits; [exact E1|exact E2|]. rewrite u32_xor. unfold crc. rewrite crc_fold_word by exact Bd. reflexivity.
Qed.

(** ** The dump *)

(** The checksums are in place. *)
Record sealed (q : parts) : Prop := {
  se_adler : exists c, f_adler q = byte4 c /\ u32 c = Format.adler (f_raw q);
  se_c1 : exists c, f_c1 q = byte4 c /\ u32 c = Format.crc (js "IHDR" ++ byte4 w ++ byte4 h ++ [8; 3; 0; 0; 0]);
  se_c2 : exists c, f_c2 q = byte4 c /\ u32 c = Format.crc (js "PLTE" ++ f_plte q);
  se_c3 : exists c, f_c3 q = byte4 c /\ u32 c = Format.crc (js "tRNS" ++ f_trns q);
  se_c4 : exists c, f_c4 q = byte4 c /\ u32 c = Format.crc (js "IDAT" ++ byte2 deflate_header ++ [1] ++
    byte2lsb (pix_size w h) ++ byte2lsb (~~ (pix_size w h)) ++ f_raw q ++ f_adler q);
  se_c5 : exists c, f_c5 q = byte4 c /\ u32 c = Format.crc (js "IEND")
}.

Lemma Forall_field (fs : list (list Z)) k s : Forall bytes_ok fs -> bytes_ok s -> Forall bytes_ok (splice k [s] fs).
Proof using. intros H Hs. apply Forall_splice; [exact H|]. constructor; [exact Hs|constructor]. Qed.

Ltac offsets :=
  unfold iend_offs, iend_size, idat_offs, idat_size, trns_offs, trns_size, plte_offs, plte_size, ihdr_offs, ihdr_size;
  rewrite ?data_size_one; cbn [sumz fold_right firstn skipn lens Nat.add]; lia.

(** The buffer after [getDump]. *)
Lemma dump_buffer p q : width p = w -> height p = h -> depth p = d -> buffer p = concat (layout q) -> parts_ok q ->
  parts_bytes q -> exists q', buffer (fst (getDump p)) = concat (layout q') /\ parts_ok q' /\ parts_bytes q' /\ sealed q' /\
    f_plte q' = f_plte q /\ f_trns q' = f_trns q /\ f_raw q' = f_raw q.
Proof using Hw Hh Hpix.
  clear Hd. intros Ew Eh Ed Eb X B. pose proof (layout_bytes q B) as B0. pose proof (layout_shaped q X) as S0.
  assert (Br : bytes_ok (f_raw q)) by (unfold parts_bytes in B; rewrite !Forall_cons_iff in B; apply B).
  pose proof (adler_value p q Ew Eh Ed Eb X Br) as Ha. unfold getDump. cbn [fst set_buffer buffer]. rewrite Ew, Eh, Ed, Eb.
  destruct (write_fields [byte4 (adler32 p)] (layout q) 22 (idat_offs d + idat_size w h - 8) S0) as [-> S1];
    [offsets|cbn [List.length]; lia|reflexivity|].
  pose proof (Forall_field _ 22 _ B0 (byte4_ok (adler32 p))) as B1.
  destruct (crc_field _ 0 5 ihdr_offs ihdr_size S1 B1) as (c1 & -> & S2 & V1); [lia|offsets..|reflexivity|].
  pose proof (Forall_field _ 6 _ B1 (byte4_ok c1)) as B2.
  destruct (crc_field _ 7 2 plte_offs (plte_size d) S2 B2) as (c2 & -> & S3 & V2); [lia|offsets..|reflexivity|].
  pose proof (Forall_field _ 10 _ B2 (byte4_ok c2)) as B3.
  destruct (crc_field _ 11 2 (trns_offs d) (trns_size d) S3 B3) as (c3 & -> & S4 & V3); [lia|offsets..|reflexivity|].
  pose proof (Forall_field _ 14 _ B3 (byte4_ok c3)) as B4.
  destruct (crc_field _ 15 7 (idat_offs d) (idat_size w h) S4 B4) as (c4 & -> & S5 & V4); [lia|offsets..|reflexivity|].
  pose proof (Forall_field _ 23 _ B4 (byte4_ok c4)) as B5.
  destruct (crc_field _ 24 1 (iend_offs w h d) iend_size S5 B5) as (c5 & -> & _ & V5); [lia|offsets..|reflexivity|].
  exists (mkParts (f_plte q) (f_trns q) (f_raw q) (byte4 (adler32 p)) (byte4 c1) (byte4 c2) (byte4 c3) (byte4 c4) (byte4 c5)).
  splits; try reflexivity.
  - destruct X as [O1 O2 O3 O4 O5 O6 O7 O8 O9]. split; try assumption; reflexivity.
  - unfold parts_bytes in *. rewrite !Forall_cons_iff in *. cbn [f_plte f_trns f_raw f_adler f_c1 f_c2 f_c3 f_c4 f_c5].
    splits; try apply byte4_ok; try apply B.
  - split; cbn [f_plte f_trns f_raw f_adler f_c1 f_c2 f_c3 f_c4 f_c5]; eexists; (split; [reflexivity|]).
    + exact Ha.
    + rewrite V1. reflexivity.
    + rewrite V2. cbn [splice firstn skipn app concat layout Nat.add List.length]. now rewrite app_nil_r.
    + rewrite V3. cbn [splice firstn skipn app concat layout Nat.add List.length]. now rewrite app_nil_r.
    + rewrite V4. cbn [splice firstn skipn app concat layout Nat.add List.length]. now rewrite app_nil_r.
    + rewrite V5. reflexivity.
Qed.

(** ** Reading the dump *)

Lemma take_app a b : Format.take (List.length a) (a ++ b) = Some (a, b).
Proof using.
  unfold Format.take. rewrite length_app, (proj2 (Nat.leb_le _ _)) by lia.
  now rewrite firstn_app, skipn_app, Nat.sub_diag, firstn_all, skipn_all, app_nil_r.
Qed.

Lemma take_exact n a b : List.length a = n -> Format.take n (a ++ b) = Some (a, b).
Proof using. intros <-. apply take_app. Qed.

Lemma chunk_written n ty data c rest : List.length ty = 4%nat -> zlen data = n -> n < 2 ^ 32 ->
  u32 c = Format.crc (ty ++ data) ->
  Format.chunk (byte4 n ++ ty ++ data ++ byte4 c ++ rest) = Some (ty, data, rest).
Proof using.
  intros Ht Hn Hb Hc. pose proof (zlen_nonneg data). unfold Format.chunk. rewrite (take_exact 4 (byte4 n)) by reflexivity.
  rewrite (take_exact 4 ty) by exact Ht. rewrite be_byte4, (wrapu_id 32 n) by (unfold in_u; lia).
  rewrite (take_exact _ data) by (unfold zlen in *; lia). rewrite (take_exact 4 (byte4 c)) by reflexivity.
  rewrite be_byte4, Hc, Z.eqb_refl. reflexivity.
Qed.

Lemma palette_read l : zlen l <= d ->
  Format.palette_entries (palette_plte l) (palette_trns l) = Some (l ++ repeat (0, 0, 0, 0) (Z.to_nat (d - zlen l))).
Proof using.
  clear Hw Hh Hpix Hd. intros Hl. unfold palette_plte, palette_trns.
  replace (Z.to_nat (3 * (d - zlen l))) with (3 * Z.to_nat (d - zlen l))%nat by lia.
  generalize (Z.to_nat (d - zlen l)). clear Hl. intros n. induction l as [|[[[r g] b] a] l IH].
  - cbn [flat_map map app]. induction n as [|n IH]; [reflexivity|]. replace (3 * S n)%nat with (S (S (S (3 * n)))) by lia.
    cbn [repeat Format.palette_entries]. now rewrite IH.
  - cbn [flat_map map rgb_bytes app Format.palette_entries]. rewrite IH. reflexivity.
Qed.

Lemma rows_read rows : Forall (fun r => zlen r = w /\ bytes_ok r) rows ->
  Format.scanlines (List.length rows) (Z.to_nat w) (concat (map (cons 0) rows)) = Some rows.
Proof using.
  clear Hw Hh Hpix Hd. intros H. induction H as [|r rows [Hr _] _ IH]; [reflexivity|].
  cbn [List.length map concat app Format.scanlines]. rewrite (take_exact _ r) by (unfold zlen in Hr; lia). now rewrite IH.
Qed.

Lemma le2_value n : le_val (byte2lsb n) = n mod 65536.
Proof using. rewrite byte2lsb_le, le_val_bytes. reflexivity. Qed.

Lemma not_word n : 0 <= n < 65536 -> (~~ n) mod 65536 = 65535 - n.
Proof using.
  intros Hn. unfold js_not. rewrite i32_small by lia. unfold Z.lnot.
  rewrite <- (Z.mod_unique_pos (Z.pred (- n)) 65536 (-1) (65535 - n)); lia.
Qed.

(** The compressed data: one stored block. *)
Lemma zlib_read raw c : zlen raw = pix_size w h -> u32 c = Format.adler raw ->
  Format.zlib (byte2 deflate_header ++ [1] ++ byte2lsb (pix_size w h) ++ byte2lsb (~~ (pix_size w h)) ++ raw ++ byte4 c) = Some raw.
Proof using Hw Hh Hpix.
  clear Hd. intros Hl Hc. pose proof pix_pos as Hp. set (n := pix_size w h) in *.
  change (byte2 deflate_header) with [120; 218]. cbn [app]. unfold Format.zlib.
  change ((120 mod 16 =? 8) && ((120 * 256 + 218) mod 31 =? 0) && (218 / 32 mod 2 =? 0)) with true. cbv iota.
  set (n0 := n .& 255). set (n1 := (n >> 8) .& 255). set (m0 := (~~ n) .& 255). set (m1 := ((~~ n) >> 8) .& 255).
  change (byte2lsb n) with [n0; n1]. change (byte2lsb (~~ n)) with [m0; m1]. cbn [app List.length Format.stored_blocks].
  change [n0; n1] with (byte2lsb n). change [m0; m1] with (byte2lsb (~~ n)).
  rewrite !le2_value, not_word, (Z.mod_small n) by lia. rewrite Z.eqb_refl.
  change ((1 <=? 1) && true) with true. cbv iota. rewrite (take_exact _ raw) by (unfold zlen in Hl; lia).
  change (1 =? 1) with true. cbv iota. rewrite be_byte4, Hc, Z.eqb_refl. reflexivity.
Qed.

(** What the canvas looks like in the file: unused palette entries are transparent black. *)
Definition picture (cv : canvas) : Format.image :=
  Format.mkImage w h (cv_colors cv ++ repeat (0, 0, 0, 0) (Z.to_nat (d - zlen (cv_colors cv)))) (cv_rows cv).

Lemma join_bytes l : bytes_ok l -> join l = l.
Proof using.
  intros H. induction H as [|c l Hc _ IH]; [reflexivity|]. unfold join in *. cbn [filter].
  unfold hole, byte_ok in *. rewrite (proj2 (Z.eqb_neq c (-1))) by lia. cbn [negb]. now rewrite IH.
Qed.

Lemma layout_chunks q c1 c2 c3 c4 c5 : f_c1 q = byte4 c1 -> f_c2 q = byte4 c2 -> f_c3 q = byte4 c3 -> f_c4 q = byte4 c4 ->
  f_c5 q = byte4 c5 ->
  concat (layout q) =
  byte4 13 ++ js "IHDR" ++ (byte4 w ++ byte4 h ++ [8; 3; 0; 0; 0]) ++ byte4 c1 ++
  byte4 (3 * d) ++ js "PLTE" ++ f_plte q ++ byte4 c2 ++
  byte4 d ++ js "tRNS" ++ f_trns q ++ byte4 c3 ++
  byte4 (data_size w h) ++ js "IDAT" ++ (byte2 deflate_header ++ [1] ++ byte2lsb (pix_size w h) ++
    byte2lsb (~~ (pix_size w h)) ++ f_raw q ++ f_adler q) ++ byte4 c4 ++
  byte4 0 ++ js "IEND" ++ [] ++ byte4 c5 ++ [].
Proof using. intros E1 E2 E3 E4 E5. unfold layout. rewrite E1, E2, E3, E4, E5. cbn [concat]. rewrite <- !app_assoc. reflexivity. Qed.

Lemma layout_read q cv : parts_ok q -> sealed q -> zlen (cv_colors cv) <= d -> zlen (cv_rows cv) = h ->
  Forall (fun r => zlen r = w /\ bytes_ok r) (cv_rows cv) ->
  f_plte q = palette_plte (cv_colors cv) -> f_trns q = palette_trns (cv_colors cv) -> f_raw q = concat (map (cons 0) (cv_rows cv)) ->
  Format.decode (signature ++ concat (layout q)) = Some (picture cv).
Proof using Hw Hh Hpix Hd.
  intros X [(a & Ea & Va) (c1 & E1 & V1) (c2 & E2 & V2) (c3 & E3 & V3) (c4 & E4 & V4) (c5 & E5 & V5)] Hc Hr Hrow Ep Et Er.
  pose proof pix_pos as Hp. pose proof data_size_one as Hs. unfold pix_size in Hpix, Hp.
  assert (Hw' : w < 65536) by nia. assert (Hh' : h < 65536) by nia. destruct (palette_lengths _ Hc) as [L1 L2].
  rewrite (layout_chunks q c1 c2 c3 c4 c5 E1 E2 E3 E4 E5). unfold Format.decode.
  rewrite (take_exact 8 signature) by reflexivity. change (str_eqb signature [137; 80; 78; 71; 13; 10; 26; 10]) with true. cbv iota.
  rewrite (chunk_written 13 (js "IHDR")); [|reflexivity|reflexivity|lia|exact V1].
  rewrite (chunk_written (3 * d) (js "PLTE")); [|reflexivity|now rewrite Ep|lia|exact V2].
  rewrite (chunk_written d (js "tRNS")); [|reflexivity|now rewrite Et|lia|exact V3].
  rewrite (chunk_written (data_size w h) (js "IDAT")); [|reflexivity| |unfold pix_size in Hs; lia|exact V4];
    [|rewrite !zlen_app, (ok_raw q X), (ok_adler q X); change (zlen (byte2 deflate_header)) with 2; change (zlen [1]) with 1;
      change (zlen (byte2lsb ?n)) with 2; lia].
  rewrite (chunk_written 0 (js "IEND") []); [|reflexivity|reflexivity|lia|exact V5].
  change (str_eqb (js "IHDR" ++ js "PLTE" ++ js "tRNS" ++ js "IDAT" ++ js "IEND") (js "IHDRPLTEtRNSIDATIEND")) with true.
  change (str_eqb (skipn 8 (byte4 w ++ byte4 h ++ [8; 3; 0; 0; 0])) [8; 3; 0; 0; 0]) with true. change (str_eqb [] []) with true.
  rewrite Ep, L1, (Z.mul_comm 3), Z.div_mul by lia. rewrite (proj2 (Z.leb_le 1 d)), (proj2 (Z.leb_le d 256)) by lia.
  cbv beta zeta iota delta [andb]. change (firstn 4 (byte4 w ++ byte4 h ++ [8; 3; 0; 0; 0])) with (byte4 w).
  change (firstn 4 (skipn 4 (byte4 w ++ byte4 h ++ [8; 3; 0; 0; 0]))) with (byte4 h).
  rewrite Ea, zlib_read by (apply X || exact Va). rewrite Et, palette_read, !be_byte4, !wrapu_id by (unfold in_u; lia || exact Hc).
  replace (Z.to_nat h) with (List.length (cv_rows cv)) by (unfold zlen in Hr; lia). rewrite Er, rows_read by exact Hrow. reflexivity.
Qed.

(** The dump of an image is a PNG file of the canvas, and the image still shows it. *)
Lemma dump_shows p cv : shows p cv ->
  Format.decode (snd (getDump p)) = Some (picture cv) /\ shows (fst (getDump p)) cv.
Proof using Hw Hh Hpix Hd.
  intros [S1 S2 S3 S4 S5 S6 S7 S8 S9 S10 (q & X1 & X2 & X3 & X4 & X5 & X6)].
  destruct (dump_buffer p q S1 S2 S3 X2 X1 X6) as (q' & D1 & D2 & D3 & D4 & D5 & D6 & D7).
  assert (Ed : snd (getDump p) = signature ++ join (buffer (fst (getDump p)))) by reflexivity.
  rewrite Ed, D1, join_bytes by (apply Forall_concat, layout_bytes, D3). split.
  - apply layout_read; try assumption; [rewrite D5; exact X3|rewrite D6; exact X4|now rewrite D7].
  - split; try assumption. exists q'. splits; try assumption; [now rewrite D5|now rewrite D6|now rewrite D7].
Qed.

End Layout.

(** ** The properties *)

(** What a program does with an image. *)
Inductive op : Type :=
| Color (c : rgba)
| Pixel (x y c : Z)
| Dump.

Definition op_ok (w h : Z) (o : op) : Prop :=
  match o with
  | Color c => rgba_ok c
  | Pixel x y c => 0 <= x < w /\ 0 <= y < h /\ byte_ok c
  | Dump => True
  end.

Definition do_op (p : PNGlib) (o : op) : PNGlib :=
  match o with
  | Color (r, g, b, a) => fst (color r g b (Some a) p)
  | Pixel x y c => set_pixel x y c p
  | Dump => fst (getDump p)
  end.

Definition draw_op (d : Z) (cv : canvas) (o : op) : canvas :=
  match o with
  | Color c => fst (add_color d c cv)
  | Pixel x y c => put_pixel x y c cv
  | Dump => cv
  end.

Definition size_ok (w h d : Z) : Prop := 0 < w /\ 0 < h /\ pix_size w h <= 65535 /\ 1 <= d <= 256.

Lemma do_ops_shows w h d ops : size_ok w h d -> Forall (op_ok w h) ops -> forall p cv, shows w h d p cv ->
  shows w h d (fold_left do_op ops p) (fold_left (draw_op d) ops cv).
Proof.
  intros (Hw & Hh & Hp & Hd) H. induction H as [|o ops Ho _ IH]; intros p cv S; [exact S|]. cbn [fold_left]. apply IH.
  destruct o as [[[[r g] b] a]|x y c|]; cbn [do_op draw_op op_ok] in *.
  - apply (color_shows w h d Hd p cv r g b a S Ho).
  - apply pixel_shows; easy.
  - apply (dump_shows w h d Hw Hh Hp Hd p cv S).
Qed.

(** C24: what is written is a PNG file.  For an image whose rows have at most 65535 bytes with
    their filters, and a palette of up to 256 entries: after any sequence of colors, pixels
    and dumps, reading the dump by the PNG, zlib and deflate formats, all checksums
    verified, gives the size, the palette and the pixels of the canvas drawn on. *)
Theorem dump_is_png w h d fuel ops : size_ok w h d -> Forall (op_ok w h) ops ->
  exists p, new_PNGlib (S fuel) w h d = Some p /\
    Format.decode (snd (getDump (fold_left do_op ops p))) =
      Some (picture w h d (fold_left (draw_op d) ops (new_canvas w h))).
Proof.
  intros Hs Ho. pose proof Hs as (Hw & Hh & Hp & Hd). eexists. split; [now apply new_layout|].
  apply (dump_shows w h d Hw Hh Hp Hd). apply do_ops_shows; [exact Hs|exact Ho|]. now apply new_shows.
Qed.

Lemma dump_is_png_witness : let ops := [Color (10, 20, 30, 255); Pixel 1 1 1; Dump; Color (1, 2, 3, 4); Pixel 2 0 1] in
  exists p, new_PNGlib 1 3 2 4 = Some p /\
    Format.decode (snd (getDump (fold_left do_op ops p))) =
      Some (picture 3 2 4 (fold_left (draw_op 4) ops (new_canvas 3 2))).
Proof.
  refine (dump_is_png 3 2 4 0 [Color (10, 20, 30, 255); Pixel 1 1 1; Dump; Color (1, 2, 3, 4); Pixel 2 0 1] _ _).
  - unfold size_ok, pix_size. lia.
  - repeat constructor; unfold byte_ok; lia.
Defined.

Lemma draw_keeps d ops : forall cv, exists more, cv_colors (fold_left (draw_op d) ops cv) = cv_colors cv ++ more.
Proof.
  induction ops as [|o ops IH]; intros cv; [exists []; now rewrite app_nil_r|]. cbn [fold_left].
  assert (H : exists m, cv_colors (draw_op d cv o) = cv_colors cv ++ m).
  { destruct o as [c|x y c|]; cbn [draw_op]; [|exists []; symmetry; apply app_nil_r..].
    unfold add_color. destruct (position _ _ _); [exists []; symmetry; apply app_nil_r|].
    destruct (_ =? d); [exists []; symmetry; apply app_nil_r|now exists [c]]. }
  destruct H as [m Em], (IH (draw_op d cv o)) as [m' Em']. exists (m ++ m'). now rewrite Em', Em, app_assoc.
Qed.

Lemma position_nth c l i k : position c l i = Some k -> nth_error l (Z.to_nat (k - i)) = Some c.
Proof.
  revert i. induction l as [|x l IH]; intros i; cbn [position]; [easy|]. destruct (rgba_eqb_spec x c) as [->|].
  - intros [= <-]. now rewrite Z.sub_diag.
  - intros E. pose proof (position_bound _ _ _ _ E). replace (Z.to_nat (k - i)) with (S (Z.to_nat (k - (i + 1)))) by lia.
    cbn [nth_error]. now apply IH.
Qed.

(** C30: a color keeps its index.  For an image whose rows have at most 65535 bytes with their filters and a palette of up to
    256 entries, after any colors, pixels and dumps: when the palette has room for a color, or has it already (full or not), the
    index that [color] returns is the place of that color in the palette of every file written from then on, whatever is drawn
    after it; when the palette is full and does not have the color, [color] returns 0. *)
Theorem color_index_stable w h d fuel ops c ops' : size_ok w h d -> Forall (op_ok w h) (ops ++ Color c :: ops') ->
  exists p im, new_PNGlib (S fuel) w h d = Some p /\
    Format.decode (snd (getDump (fold_left do_op (ops ++ Color c :: ops') p))) = Some im /\
    let used := cv_colors (fold_left (draw_op d) ops (new_canvas w h)) in
    let '(r, g, b, a) := c in
    let index := snd (color r g b (Some a) (fold_left do_op ops p)) in
    (In c used \/ zlen used < d -> nth_error (Format.colors im) (Z.to_nat index) = Some c) /\
    (~ In c used -> zlen used = d -> index = 0).
Proof.
  intros Hs Ho. pose proof Hs as (Hw & Hh & Hx & Hd).
  eexists. eexists. split; [apply (new_layout w h d Hw Hh Hx Hd)|].
  pose proof (new_shows w h d Hw Hh Hx Hd) as S0. set (p0 := mkPNG w h d _ _ _) in *. clearbody p0.
  pose proof (do_ops_shows w h d _ Hs Ho p0 _ S0) as S1.
  destruct (dump_shows w h d Hw Hh Hx Hd _ _ S1) as [E _]. split; [exact E|]. clear E.
  apply Forall_app in Ho as [Ho1 Ho2]. inversion Ho2 as [|? ? Hc _]; subst.
  pose proof (do_ops_shows w h d _ Hs Ho1 p0 _ S0) as S2. rewrite fold_left_app. cbn [fold_left].
  set (cv := fold_left (draw_op d) ops (new_canvas w h)) in *. destruct c as [[[r g] b] a].
  destruct (color_shows w h d Hd _ cv r g b a S2 Hc) as [-> _]. cbn [picture Format.colors].
  destruct (draw_keeps d ops' (draw_op d cv (Color (r, g, b, a)))) as [more ->]. rewrite <- app_assoc.
  assert (N : forall l, nth_error (cv_colors (draw_op d cv (Color (r, g, b, a)))) (Z.to_nat (snd (add_color d (r, g, b, a) cv))) = Some (r, g, b, a) ->
    nth_error (cv_colors (draw_op d cv (Color (r, g, b, a))) ++ l) (Z.to_nat (snd (add_color d (r, g, b, a) cv))) = Some (r, g, b, a)).
  { intros l E1. rewrite nth_error_app1; [exact E1|]. apply nth_error_Some. now rewrite E1. }
  cbv zeta. unfold add_color in *. cbn [draw_op] in *. unfold add_color in *. destruct (position (r, g, b, a) (cv_colors cv) 0) as [k|] eqn:Ek.
  - split; [intros _; apply N; cbn [fst snd]; pose proof (position_nth _ _ _ _ Ek) as P; now rewrite Z.sub_0_r in P|].
    intros C. destruct C. apply (nth_error_In _ (Z.to_nat (k - 0))), (position_nth _ _ _ _ Ek).
  - split; [|intros _ F; now rewrite F, Z.eqb_refl]. intros [I|Hroom]; [now apply position_none in Ek|]. apply N.
    rewrite (proj2 (Z.eqb_neq _ _)) by lia. cbn [fst snd cv_colors]. rewrite nth_error_app2, zlen_to_nat by (rewrite zlen_to_nat; lia).
    now rewrite Nat.sub_diag.
Qed.

Lemma color_index_stable_witness :
  exists p im, new_PNGlib 1 3 2 4 = Some p /\
    Format.decode (snd (getDump (fold_left do_op ([Color (9, 9, 9, 9)] ++ Color (10, 20, 30, 255) :: [Pixel 1 1 1; Dump]) p))) = Some im /\
    nth_error (Format.colors im) (Z.to_nat (snd (color 10 20 30 (Some 255) (fold_left do_op [Color (9, 9, 9, 9)] p)))) = Some (10, 20, 30, 255).
Proof.
  destruct (color_index_stable 3 2 4 0 [Color (9, 9, 9, 9)] (10, 20, 30, 255) [Pixel 1 1 1; Dump]) as (p & im & E1 & E2 & H & _).
  - unfold size_ok, pix_size. lia.
  - repeat constructor; unfold byte_ok; lia.
  - exists p, im. split; [exact E1|]. split; [exact E2|]. apply H. right. vm_compute. reflexivity.
Defined.

(** ** Large images *)

(** The bound on the size.  The header of the deflate block that holds the last byte of the
    rows says the number of bytes left and is marked final exactly if one block is enough:
    the rows of an image with more than 65535 bytes have no correct last block. *)
Theorem last_block_correct pix : 1 <= pix ->
  let last := (pix - 1) / 65535 in
  (block_bits pix last = 1 /\ block_size pix last = pix - 65535 * last) <-> pix <= 65535.
Proof.
  intros Hp last. pose proof (Z.div_mod (pix - 1) 65535 ltac:(lia)) as E. pose proof (Z.mod_pos_bound (pix - 1) 65535 ltac:(lia)) as R.
  fold last in E. unfold block_bits, block_size. split.
  - intros [H1 H2]. destruct (Z.ltb_spec (last + 65535) pix) as [|Hl]; [discriminate|].
    assert (K : last = 0 \/ last = 1) by lia. destruct K as [K|K]; [lia|]. rewrite K in H2. change (1 <<< 16) with 65536 in H2. lia.
  - intros H. assert (K : last = 0) by lia. rewrite K. change (0 + 65535) with 65535.
    rewrite (proj2 (Z.ltb_ge 65535 pix)) by lia. change (0 <<< 16) with 0. lia.
Qed.

Lemma last_block_correct_witness : let last := (65792 - 1) / 65535 in
  (block_bits 65792 last = 1 /\ block_size 65792 last = 65792 - 65535 * last) <-> 65792 <= 65535.
Proof. refine (last_block_correct 65792 _). lia. Defined.

Lemma shl16 i : 0 <= i < 32768 -> i <<< 16 = i * 65536.
Proof.
  intros H. unfold js_shl. rewrite (i32_small i) by lia. change (16 mod 32) with 16.
  rewrite Z.shiftl_mul_pow2 by lia. apply i32_small. change (2 ^ 16) with 65536. lia.
Qed.

Lemma block_headers_end fuel : forall pix offs i b, 0 <= i < 32768 -> pix < 2 ^ 31 - 65536 ->
  pix < (i + Z.of_nat fuel) * 65536 -> block_headers fuel pix offs i b <> None.
Proof.
  induction fuel as [|fuel IH]; intros pix offs i b Hi Hp Hf; cbn [block_headers]; rewrite shl16 by lia.
  - rewrite (proj2 (Z.ltb_ge (i * 65536 - 1) pix)) by lia. discriminate.
  - destruct (Z.ltb_spec (i * 65536 - 1) pix); [|discriminate]. destruct (Z.eq_dec i 32767) as [->|]; [lia|]. apply IH; lia.
Qed.

(** [new PNGlib] ends.  The loop over the block headers stops for every image of fewer
    than 2^31 - 2^16 bytes, after at most one turn for 65536 bytes and one more. *)
Theorem new_ends fuel w h d : pix_size w h < 2 ^ 31 - 65536 -> pix_size w h / 65536 < Z.of_nat fuel ->
  exists p, new_PNGlib fuel w h d = Some p.
Proof.
  intros Hp Hf. unfold new_PNGlib.
  match goal with |- context [block_headers ?f ?x ?o ?i ?b] => destruct (block_headers f x o i b) eqn:E end; [now eexists|].
  exfalso. revert E. apply block_headers_end; [lia|exact Hp|].
  pose proof (Z.div_mod (pix_size w h) 65536 ltac:(lia)). pose proof (Z.mod_pos_bound (pix_size w h) 65536 ltac:(lia)). lia.
Qed.

Lemma new_ends_witness : exists p, new_PNGlib 2 256 256 2 = Some p.
Proof. refine (new_ends 2 256 256 2 _ _); vm_compute; reflexivity. Defined.

(** ** Base64 *)

Module Base64.

Definition sym (v : Z) : Z := nth (Z.to_nat v) ch 0.

(** RFC 4648, section 4; 61 is the padding character. *)
Fixpoint encode (l : list Z) : list Z :=
  match l with
  | [] => []
  | [a] => [sym (a / 4); sym (a mod 4 * 16); 61; 61]
  | [a; b] => [sym (a / 4); sym (a mod 4 * 16 + b / 16); sym (b mod 16 * 4); 61]
  | a :: b :: c :: l =>
      [sym (a / 4); sym (a mod 4 * 16 + b / 16); sym (b mod 16 * 4 + c / 64); sym (c mod 64)] ++ encode l
  end.

End Base64.

Lemma ch_at_sym e : 0 <= e <= 64 -> ch_at e = [Base64.sym e].
Proof.
  intros H. assert (T : forallb (fun n => str_eqb (ch_at (Z.of_nat n)) [Base64.sym (Z.of_nat n)]) (seq 0 65) = true)
    by (vm_compute; reflexivity).
  rewrite forallb_forall in T. specialize (T (Z.to_nat e)). rewrite Z2Nat.id in T by lia.
  destruct (str_eqb_spec (ch_at e) [Base64.sym e]) as [E|_]; [exact E|]. discriminate T. apply in_seq. lia.
Qed.

Lemma group_values a b c : byte_ok a -> byte_ok b -> byte_ok c ->
  a >> 2 = a / 4 /\ ((a .& 3) <<< 4) .| (b >> 4) = a mod 4 * 16 + b / 16 /\
  ((b .& 0xf) <<< 2) .| (c >> 6) = b mod 16 * 4 + c / 64 /\ c .& 0x3f = c mod 64.
Proof.
  unfold byte_ok. intros Ha Hb Hc.
  change 3 with (2 ^ 2 - 1). change 0xf with (2 ^ 4 - 1). change 0x3f with (2 ^ 6 - 1).
  rewrite !sar_small, !and_mask by lia. change (2 ^ 2) with 4. change (2 ^ 4) with 16. change (2 ^ 6) with 64.
  pose proof (Z.mod_pos_bound a 4 ltac:(lia)). pose proof (Z.mod_pos_bound b 16 ltac:(lia)).
  assert (0 <= b / 16 < 16) by (split; [apply Z.div_pos; lia|apply Z.div_lt_upper_bound; lia]).
  assert (0 <= c / 64 < 4) by (split; [apply Z.div_pos; lia|apply Z.div_lt_upper_bound; lia]).
  unfold js_shl. rewrite !(i32_small (_ mod _)) by lia. change (4 mod 32) with 4. change (2 mod 32) with 2.
  rewrite !Z.shiftl_mul_pow2, !i32_small by (change (2 ^ 4) with 16; change (2 ^ 2) with 4; lia).
  splits; try reflexivity; [apply (or_add _ 4); lia|apply (or_add _ 2); lia].
Qed.

(** One turn of the loop on [a], [b] and [c]. *)
Definition symbols (a b c : Z) (e3 e4 : Z) : list Z :=
  [Base64.sym (a / 4); Base64.sym (a mod 4 * 16 + b / 16); Base64.sym e3; Base64.sym e4].

Lemma base64_turn fuel s i r a b c : code_at s i = a -> code_at s (i + 1) = b -> code_at s (i + 2) = c ->
  byte_ok a -> byte_ok b -> byte_ok c ->
  base64_loop (S fuel) s i r =
    (let r' := r ++ symbols a b c (if zlen s <? i + 2 then 64 else b mod 16 * 4 + c / 64) (if zlen s <? i + 3 then 64 else c mod 64) in
     if i + 3 <? zlen s then base64_loop fuel s (i + 3) r' else Some r').
Proof.
  intros Ea Eb Ec Ha Hb Hc. cbn [base64_loop]. rewrite Ea, Eb, Ec.
  destruct (group_values a b c Ha Hb Hc) as (-> & -> & -> & ->). cbv zeta. unfold byte_ok in *.
  pose proof (Z.mod_pos_bound a 4 ltac:(lia)). pose proof (Z.mod_pos_bound b 16 ltac:(lia)). pose proof (Z.mod_pos_bound c 64 ltac:(lia)).
  assert (0 <= a / 4 < 64) by (split; [apply Z.div_pos; lia|apply Z.div_lt_upper_bound; lia]).
  assert (0 <= b / 16 < 16) by (split; [apply Z.div_pos; lia|apply Z.div_lt_upper_bound; lia]).
  assert (0 <= c / 64 < 4) by (split; [apply Z.div_pos; lia|apply Z.div_lt_upper_bound; lia]).
  rewrite !ch_at_sym by (first [lia|match goal with |- context [if ?x then _ else _] => destruct x; lia end]). reflexivity.
Qed.

Lemma code_at_app pre rest k : 0 <= k -> code_at (pre ++ rest) (zlen pre + k) = nth (Z.to_nat k) rest 0.
Proof.
  intros Hk. unfold code_at. replace (Z.to_nat (zlen pre + k)) with (List.length pre + Z.to_nat k)%nat by (unfold zlen; lia).
  apply app_nth2_plus.
Qed.

Lemma base64_rest fuel : forall pre rest r, bytes_ok rest -> rest <> [] -> (List.length rest <= fuel)%nat ->
  base64_loop fuel (pre ++ rest) (zlen pre) r = Some (r ++ Base64.encode rest).
Proof.
  induction fuel as [|fuel IH]; intros pre rest r Hb Hn Hf; [destruct rest; [easy|cbn in Hf; lia]|].
  pose proof (code_at_app pre rest 0 ltac:(lia)) as E0. rewrite Z.add_0_r in E0.
  pose proof (code_at_app pre rest 1 ltac:(lia)) as E1. pose proof (code_at_app pre rest 2 ltac:(lia)) as E2.
  rewrite (base64_turn fuel _ _ r _ _ _ E0 E1 E2) by (apply nth_byte; exact Hb). cbv zeta. rewrite zlen_app.
  change (Z.to_nat 0) with 0%nat. change (Z.to_nat 1) with 1%nat. change (Z.to_nat 2) with 2%nat.
  destruct rest as [|a [|b [|c rest]]]; [easy|..]; cbn [nth].
  - change (zlen [a]) with 1. rewrite (proj2 (Z.ltb_lt _ (zlen pre + 2))), (proj2 (Z.ltb_lt _ (zlen pre + 3))), (proj2 (Z.ltb_ge (zlen pre + 3) _)) by lia.
    unfold symbols. cbn [Base64.encode]. change (0 / 16) with 0. rewrite Z.add_0_r. reflexivity.
  - change (zlen [a; b]) with 2. rewrite (proj2 (Z.ltb_ge (zlen pre + 2) (zlen pre + 2))), (proj2 (Z.ltb_lt _ (zlen pre + 3))), (proj2 (Z.ltb_ge (zlen pre + 3) _)) by lia.
    unfold symbols. cbn [Base64.encode]. change (0 / 64) with 0. rewrite Z.add_0_r. reflexivity.
  - rewrite !zlen_cons. pose proof (zlen_nonneg rest).
    rewrite (proj2 (Z.ltb_ge _ (zlen pre + 2))), (proj2 (Z.ltb_ge _ (zlen pre + 3))) by lia.
    cbn [Base64.encode]. destruct rest as [|x rest].
    + rewrite zlen_nil, (proj2 (Z.ltb_ge _ _)) by lia. reflexivity.
    + rewrite zlen_cons in *. pose proof (zlen_nonneg rest). rewrite (proj2 (Z.ltb_lt _ _)) by lia.
      replace (zlen pre + 3) with (zlen (pre ++ [a; b; c])) by (rewrite zlen_app; reflexivity).
      change (pre ++ a :: b :: c :: x :: rest) with (pre ++ [a; b; c] ++ x :: rest). rewrite app_assoc, IH.
      * unfold symbols. now rewrite <- app_assoc.
      * do 3 apply Forall_inv_tail in Hb. exact Hb.
      * discriminate.
      * cbn [List.length] in *. lia.
Qed.

Lemma dump_text p : snd (getDump p) = signature ++ join (buffer (fst (getDump p))).
Proof. reflexivity. Qed.

Lemma shown_encodes w h d p cv : size_ok w h d -> shows w h d p cv ->
  snd (getBase64 None p) = Some (Base64.encode (snd (getDump p))).
Proof.
  intros (Hw & Hh & Hp & Hd) [S1 S2 S3 S4 S5 S6 S7 S8 S9 S10 (q & X1 & X2 & X3 & X4 & X5 & X6)].
  destruct (dump_buffer w h d Hw Hh Hp p q S1 S2 S3 X2 X1 X6) as (q' & D1 & _ & D3 & _).
  pose proof (dump_text p) as T. assert (B : bytes_ok (snd (getDump p))).
  { rewrite T, D1. assert (Bl : bytes_ok (concat (layout w h d q'))) by (apply Forall_concat, layout_bytes, D3).
    rewrite join_bytes by exact Bl. apply bytes_app. split; [repeat constructor; easy|exact Bl]. }
  unfold getBase64. destruct (getDump p) as [p' s]. cbn [fst snd] in *.
  apply (base64_rest (S (List.length s)) [] s []); [exact B| |lia]. rewrite T. discriminate.
Qed.

(** C31: Base64.  Where the browser has no [btoa], [getBase64] of an image ends and returns the RFC 4648 encoding of its dump:
    for any image of at most 65535 bytes of rows with their filters and a palette of 1 to 256 entries, after any sequence of
    colors (channels from 0 to 255), pixels inside the image (indices from 0 to 255) and dumps. *)
Theorem getBase64_encodes w h d fuel ops : size_ok w h d -> Forall (op_ok w h) ops ->
  exists p, new_PNGlib (S fuel) w h d = Some p /\
    let drawn := fold_left do_op ops p in
    snd (getBase64 None drawn) = Some (Base64.encode (snd (getDump drawn))).
Proof.
  intros Hs Ho. pose proof Hs as (Hw & Hh & Hp & Hd). eexists. split; [now apply new_layout|]. cbv zeta.
  eapply shown_encodes; [exact Hs|]. apply do_ops_shows; [exact Hs|exact Ho|]. now apply new_shows.
Qed.

Lemma getBase64_encodes_witness : let ops := [Color (10, 20, 30, 255); Pixel 1 1 1; Dump; Color (1, 2, 3, 4); Pixel 2 0 1] in
  exists p, new_PNGlib 1 3 2 4 = Some p /\
    snd (getBase64 None (fold_left do_op ops p)) = Some (Base64.encode (snd (getDump (fold_left do_op ops p)))).
Proof.
  apply (getBase64_encodes 3 2 4 0).
  - unfold size_ok, pix_size. lia.
  - repeat constructor; unfold byte_ok; lia.
Defined.
