(* ===== verification/Identicon.v ===== *)
(** * Identicons (identicon.js)

    src/src/qt/res/assets/plugins/identicon/identicon.js: five by five cells, mirrored, whose
    pixels are set in an image of Png.v.  The numbers are those of Num.v; sizes and
    coordinates are integers. *)

From Stdlib Require Import String ZArith Lia List Bool.
From S2P Require Import Prelude Js Num Png.
Import ListNotations PNG.
#[local] Open Scope Z_scope.
#[local] Open Scope js_scope.

Module Identicon.

(** ** Hashes of strings *)

Definition salt : list Z := js "identicon".

Definition hash_step (hash chr : Z) : Z := i32 (((hash <<< 5) - hash) + chr).

(** [createHashFromString(str)]: the initial ['0'] counts as the number 0. *)
Definition createHashFromString (str : list Z) : list Z :=
  match str with
  | [] => js "0"
  | _ => show_Z (fold_left hash_step (str ++ salt ++ str) 0)
  end.

Section Numbers.

Context {A : Type} {N : Num A}.

(** ** The object *)

(** What a caller may leave out: an [options] object. *)
Record options : Type := mkOptions {
  o_background : option (list Z);
  o_hash : option (list Z);
  o_margin : option A;
  o_size : option Z
}.

(** The second argument: an object, a number (the size), or nothing. *)
Inductive argument : Type :=
| Options (o : options)
| Size (n : Z)
| Nothing.

Record Identicon : Type := mkIdenticon {
  background : list Z;
  hash : list Z;
  margin : A;
  size : Z
}.

Definition truthy_number (x : A) : bool := ltb x (of_Z 0) || ltb (of_Z 0) x.

(** [a || b] *)
Definition or_text (a : option (list Z)) (b : list Z) : list Z :=
  match a with Some (c :: s) => c :: s | _ => b end.
Definition or_number (a : option A) (b : A) : A :=
  match a with Some x => if truthy_number x then x else b | None => b end.
Definition or_size (a : option Z) (b : Z) : Z :=
  match a with Some n => if n =? 0 then b else n | None => b end.
(** An array is always true. *)
Definition or_array (a : option (list Z)) (b : list Z) : list Z := match a with Some l => l | None => b end.

(** The defaults; [now] is the current time in ISO format. *)
Definition default_background : list Z := [240; 240; 240; 255].
Definition defaults (now : list Z) : options :=
  mkOptions (Some default_background) (Some (createHashFromString now)) (Some (dec 8 2)) (Some 64).

(** [new Identicon(hash, options)] and the old form [new Identicon(hash, size, margin)]. *)
Definition new_Identicon (now : list Z) (hash : option (list Z)) (arg1 : argument) (arg2 : option A) : Identicon :=
  let o := match arg1 with Options o => o | _ => defaults now end in
  let o := match arg1 with Size n => mkOptions (o_background o) (o_hash o) (o_margin o) (Some n) | _ => o end in
  let o := match arg2 with
    | Some m => if truthy_number m then mkOptions (o_background o) (o_hash o) (Some m) (o_size o) else o
    | None => o
    end in
  mkIdenticon (or_array (o_background o) default_background)
    (or_text hash (createHashFromString now))
    (or_number (o_margin o) (dec 8 2))
    (or_size (o_size o) 64).

(** ** Drawing *)

(** The colors of a hue: an element that is not there is undefined. *)
Definition hsl2rgb (h s b : A) : list (option A) :=
  let h := mul h (of_Z 6) in
  let s0 := mul s (if ltb b (dec 5 1) then b else sub (of_Z 1) b) in
  let b0 := add b s0 in
  let s1 := mul s0 (of_Z 2) in
  let b1 := sub b0 s1 in
  let part := rem h (of_Z 1) in
  let table := [b0; sub b0 (mul (mul part s0) (of_Z 2)); b1; b1; add b1 (mul part s1); add b1 s1] in
  let at_ (i : Z) := if i <? 0 then None else nth_error table (Z.to_nat i) in
  [at_ (Z.rem (to_int32 h) 6); at_ (Z.rem (to_int32 h .| 16) 6); at_ (Z.rem (to_int32 h .| 8) 6)].

(** [rgb[k] * 255] as [color] uses it. *)
Definition channel (rgb : list (option A)) (k : nat) : Z :=
  match nth k rgb None with Some v => trunc (mul v (of_Z 255)) | None => 0 end.

(** The loops of [rectangle]. *)
Definition rectangle (x y w h c : Z) (image : PNGlib) : PNGlib :=
  fold_left (fun image i => fold_left (fun image j => set_pixel i j c image) (zseq y (Z.to_nat h)) image)
    (zseq x (Z.to_nat w)) image.

(** [parseInt(hash.charAt(i), 16) % 2 ? bg : fg] *)
Definition cell_color (hash : list Z) (bg fg i : Z) : Z :=
  match parse_hex (char_at hash i) with
  | Some v => if Z.rem v 2 =? 0 then fg else bg
  | None => fg
  end.

(** The body of the loop over the 15 characters. *)
Definition draw_cell (hash : list Z) (bg fg cell margin : Z) (image : PNGlib) (i : Z) : PNGlib :=
  let c := cell_color hash bg fg i in
  if i <? 5 then rectangle (2 * cell + margin) (i * cell + margin) cell cell c image
  else if i <? 10 then
    rectangle (3 * cell + margin) ((i - 5) * cell + margin) cell cell c
      (rectangle (1 * cell + margin) ((i - 5) * cell + margin) cell cell c image)
  else if i <? 15 then
    rectangle (4 * cell + margin) ((i - 10) * cell + margin) cell cell c
      (rectangle (0 * cell + margin) ((i - 10) * cell + margin) cell cell c image)
  else image.

(** The size of a cell and of the margin in pixels. *)
Definition base_margin (s : Identicon) : Z := floor (mul (of_Z (size s)) (margin s)).
Definition cell_size (s : Identicon) : Z := floor (div (of_Z (size s - base_margin s * 2)) (of_Z 5)).
Definition margin_size (s : Identicon) : Z := floor (div (of_Z (size s - cell_size s * 5)) (of_Z 2)).

Definition element (l : list Z) (k : nat) : Z := nth k l 0.

(** [hash.substr(-7)] *)
Definition last7 (s : list Z) : list Z := skipn (List.length s - 7) s.

(** The foreground: the hue of the last seven characters. *)
Definition foreground (s : Identicon) : Z * Z * Z :=
  match parse_hex (last7 (hash s)) with
  | Some v =>
      let rgb := hsl2rgb (div (of_Z v) (of_Z 0xfffffff)) (dec 5 1) (dec 7 1) in
      (channel rgb 0, channel rgb 1, channel rgb 2)
  | None =>
      (* NaN: its integer is 0, which picks elements 0, 4 and 2 of the table; 4 is NaN *)
      let rgb := hsl2rgb (of_Z 0) (dec 5 1) (dec 7 1) in
      (channel rgb 0, 0, channel rgb 2)
  end.

(** [render] *)
Definition render (fuel : nat) (s : Identicon) : option PNGlib :=
  let cell := cell_size s in
  let m := margin_size s in
  match new_PNGlib fuel (size s) (size s) 256 with
  | None => None
  | Some image =>
      let b := background s in
      let '(image, bg) := color (element b 0) (element b 1) (element b 2) (nth_error b 3) image in
      let '(r, g, bl) := foreground s in
      let '(image, fg) := color r g bl None image in
      Some (fold_left (draw_cell (hash s) bg fg cell m) (zseq 0 15) image)
  end.

(** [toString] *)
Definition toString (fuel : nat) (btoa : option (list Z -> list Z)) (s : Identicon) : option (option (list Z)) :=
  option_map (fun image => snd (getBase64 btoa image)) (render fuel s).

End Numbers.

Arguments options : clear implicits.
Arguments argument : clear implicits.
Arguments Identicon : clear implicits.

End Identicon.
