(* ===== verification/IdenticonTheory.v ===== *)
(** * Identicons: the file that is written shows the cells

    The image that [render] returns (Identicon.v), dumped and read as a PNG file
    (PngTheory.v), has the color of every cell at each of its pixels, and the cells are
    mirrored. *)

From Stdlib Require Import String ZArith Lia List Bool QArith Qcanon Qround.
From S2P Require Import Prelude Js Num Png PngTheory Identicon.
Import ListNotations PNG Identicon.
#[local] Open Scope Z_scope.

(** ** Pixels of a canvas *)

Definition px (rows : list (list Z)) (x y : Z) : Z := nth (Z.to_nat x) (nth (Z.to_nat y) rows []) 0.

Definition shape (w h : Z) (rows : list (list Z)) : Prop := zlen rows = h /\ Forall (fun r => zlen r = w) rows.

Lemma nth_splice {A} (l : list A) k v i d : (k < List.length l)%nat ->
  nth i (splice k [v] l) d = if Nat.eqb i k then v else nth i l d.
Proof.
  intros H. unfold splice. cbn [List.length]. destruct (Nat.eqb_spec i k) as [->|Hne].
  - rewrite app_nth2; rewrite length_firstn, Nat.min_l by lia; [|lia]. now rewrite Nat.sub_diag.
  - destruct (Nat.lt_ge_cases i k) as [Hl|Hg].
    + rewrite app_nth1 by (rewrite length_firstn; lia). rewrite nth_firstn, (proj2 (Nat.ltb_lt i k)) by easy. reflexivity.
    + rewrite app_nth2; rewrite length_firstn, Nat.min_l by lia; [|lia]. cbn [app].
      replace (i - k)%nat with (S (i - k - 1)) by lia. cbn [nth]. rewrite nth_skipn. f_equal. lia.
Qed.

Lemma put_pixel_px w h x y c cv x' y' : shape w h (cv_rows cv) -> 0 <= x < w -> 0 <= y < h -> 0 <= x' -> 0 <= y' ->
  px (cv_rows (put_pixel x y c cv)) x' y' = if (x' =? x) && (y' =? y) then c else px (cv_rows cv) x' y'.
Proof.
  intros [Hh Hw] Hx Hy Hx' Hy'. unfold px, put_pixel. cbn [cv_rows].
  assert (Ny : (Z.to_nat y < List.length (cv_rows cv))%nat) by (unfold zlen in Hh; lia).
  pose proof (proj1 (Forall_forall _ _) Hw _ (nth_In _ [] Ny)) as Lr. unfold zlen in Lr.
  rewrite nth_splice by exact Ny. destruct (Z.eqb_spec y' y) as [->|Hne].
  - rewrite Nat.eqb_refl, nth_splice, andb_true_r by lia. destruct (Z.eqb_spec x' x) as [->|]; [now rewrite Nat.eqb_refl|].
    rewrite (proj2 (Nat.eqb_neq (Z.to_nat x') (Z.to_nat x))) by lia. reflexivity.
  - rewrite andb_false_r, (proj2 (Nat.eqb_neq (Z.to_nat y') (Z.to_nat y))) by lia. reflexivity.
Qed.

Lemma put_pixel_shape w h x y c cv : shape w h (cv_rows cv) -> 0 <= x < w -> 0 <= y < h ->
  shape w h (cv_rows (put_pixel x y c cv)).
Proof.
  intros [Hh Hw] Hx Hy. assert (Ny : (Z.to_nat y < List.length (cv_rows cv))%nat) by (unfold zlen in Hh; lia).
  pose proof (proj1 (Forall_forall _ _) Hw _ (nth_In _ [] Ny)) as Lr. unfold put_pixel. cbn [cv_rows]. split.
  - unfold zlen in *. rewrite length_splice; [exact Hh|]. cbn [List.length]. lia.
  - apply Forall_splice; [exact Hw|]. constructor; [|constructor]. unfold zlen in *. rewrite length_splice; [exact Lr|].
    cbn [List.length]. lia.
Qed.

(** ** Rectangles *)

Definition rect_ops (x y w h c : Z) : list op :=
  flat_map (fun i => map (fun j => Pixel i j c) (zseq y (Z.to_nat h))) (zseq x (Z.to_nat w)).

Lemma fold_map {A B S} (f : S -> B -> S) (g : A -> B) l s : fold_left f (map g l) s = fold_left (fun s a => f s (g a)) l s.
Proof. revert s. induction l as [|a l IH]; intros s; [reflexivity|]. cbn [map fold_left]. apply IH. Qed.

Lemma fold_flat_map {A B S} (f : S -> B -> S) (g : A -> list B) l s :
  fold_left f (flat_map g l) s = fold_left (fun s a => fold_left f (g a) s) l s.
Proof. revert s. induction l as [|a l IH]; intros s; [reflexivity|]. cbn [flat_map fold_left]. rewrite fold_left_app. apply IH. Qed.

Lemma fold_ext {A S} (f g : S -> A -> S) l s : (forall s a, f s a = g s a) -> fold_left f l s = fold_left g l s.
Proof. intros H. revert s. induction l as [|a l IH]; intros s; [reflexivity|]. cbn [fold_left]. rewrite H. apply IH. Qed.

Lemma rectangle_ops x y w h c image : rectangle x y w h c image = fold_left do_op (rect_ops x y w h c) image.
Proof.
  unfold rectangle, rect_ops. rewrite fold_flat_map. apply fold_ext. intros p i. now rewrite fold_map.
Qed.

(** A pixel inside or outside a list of pixels of one color. *)
Definition touches (x' y' : Z) (o : op) : bool :=
  match o with Pixel x y _ => (x' =? x) && (y' =? y) | _ => false end.

Lemma one_color_px w h d c x' y' ops : Forall (fun o => op_ok w h o /\ exists x y, o = Pixel x y c) ops -> 0 <= x' -> 0 <= y' ->
  forall cv, shape w h (cv_rows cv) ->
  shape w h (cv_rows (fold_left (draw_op d) ops cv)) /\
  px (cv_rows (fold_left (draw_op d) ops cv)) x' y' = if existsb (touches x' y') ops then c else px (cv_rows cv) x' y'.
Proof.
  intros H Hx Hy. induction H as [|o ops [Ho (x & y & ->)] _ IH]; intros cv S; [easy|].
  destruct Ho as (Ox & Oy & _). cbn [fold_left draw_op existsb touches].
  destruct (IH _ (put_pixel_shape w h x y c cv S Ox Oy)) as [S' E]. split; [exact S'|]. rewrite E.
  rewrite (put_pixel_px w h) by assumption. destruct ((x' =? x) && (y' =? y)); [|reflexivity]. now destruct (existsb _ _).
Qed.

Definition inside (x y w h x' y' : Z) : bool := (x <=? x') && (x' <? x + w) && ((y <=? y') && (y' <? y + h)).

Lemma zseq_In a n i : In i (zseq a n) <-> a <= i < a + Z.of_nat n.
Proof.
  unfold zseq. rewrite in_map_iff. split.
  - intros (k & <- & Hk). apply in_seq in Hk. lia.
  - intros H. exists (Z.to_nat (i - a)). split; [lia|]. apply in_seq. lia.
Qed.

Lemma rect_touch x y w h c x' y' : 0 <= w -> 0 <= h -> existsb (touches x' y') (rect_ops x y w h c) = inside x y w h x' y'.
Proof.
  intros Hw Hh. apply eq_true_iff_eq. rewrite existsb_exists. unfold inside. rewrite !andb_true_iff, !Z.leb_le, !Z.ltb_lt. split.
  - intros (o & Ho & Ht). apply in_flat_map in Ho as (i & Hi & Ho). apply in_map_iff in Ho as (j & <- & Hj).
    cbn [touches] in Ht. apply andb_true_iff in Ht as [E1 E2]. apply Z.eqb_eq in E1, E2. subst i j.
    apply zseq_In in Hi, Hj. lia.
  - intros [[H1 H2] [H3 H4]]. exists (Pixel x' y' c). split; [|cbn; now rewrite !Z.eqb_refl].
    apply in_flat_map. exists x'. split; [apply zseq_In; lia|]. apply in_map_iff. exists y'. split; [reflexivity|apply zseq_In; lia].
Qed.

Lemma rect_ops_ok W H x y w h c : 0 <= x -> x + w <= W -> 0 <= y -> y + h <= H -> byte_ok c ->
  Forall (fun o => op_ok W H o /\ exists i j, o = Pixel i j c) (rect_ops x y w h c).
Proof.
  intros H1 H2 H3 H4 Hc. apply Forall_forall. intros o Ho. apply in_flat_map in Ho as (i & Hi & Ho).
  apply in_map_iff in Ho as (j & <- & Hj). apply zseq_In in Hi, Hj. split; [|now exists i, j]. cbn [op_ok]. splits; try lia. exact Hc.
Qed.

(** ** The cells *)

(** The cells of character [i]: their columns and row. *)
Definition cells_of (i : Z) : list (Z * Z) :=
  if i <? 5 then [(2, i)] else if i <? 10 then [(1, i - 5); (3, i - 5)] else [(0, i - 10); (4, i - 10)].

(** The character that decides on a cell. *)
Definition char_of (cx cy : Z) : Z := 5 * Z.abs (cx - 2) + cy.

Section Draw.

Variables size cell margin d : Z.
Hypothesis Hcell : 0 <= cell.
Hypothesis Hmargin : 0 <= margin.
Hypothesis Hfit : margin + 5 * cell <= size.

Definition cell_ops (c : Z) (q : Z * Z) : list op :=
  rect_ops (fst q * cell + margin) (snd q * cell + margin) cell cell c.

Lemma draw_cell_ops hash bg fg image i : 0 <= i < 15 ->
  draw_cell hash bg fg cell margin image i =
  fold_left do_op (flat_map (cell_ops (cell_color hash bg fg i)) (cells_of i)) image.
Proof.
  intros Hi. unfold draw_cell, cells_of. destruct (Z.ltb_spec i 5).
  - cbn [flat_map]. rewrite app_nil_r. apply rectangle_ops.
  - destruct (Z.ltb_spec i 10).
    + cbn [flat_map]. rewrite app_nil_r, fold_left_app, !rectangle_ops. reflexivity.
    + rewrite (proj2 (Z.ltb_lt i 15)) by lia. cbn [flat_map]. rewrite app_nil_r, fold_left_app, !rectangle_ops. reflexivity.
Qed.

Lemma inside_cell X Y cx cy i j : 0 <= i < cell -> 0 <= j < cell ->
  inside (X * cell + margin) (Y * cell + margin) cell cell (cx * cell + margin + i) (cy * cell + margin + j) =
  (cx =? X) && (cy =? Y).
Proof.
  clear - Hcell. intros Hi Hj. apply eq_true_iff_eq. unfold inside. rewrite !andb_true_iff, !Z.leb_le, !Z.ltb_lt, !Z.eqb_eq. nia.
Qed.

Lemma inside_none X Y x y : 0 <= X < 5 -> 0 <= Y < 5 ->
  ~ (margin <= x < margin + 5 * cell /\ margin <= y < margin + 5 * cell) ->
  inside (X * cell + margin) (Y * cell + margin) cell cell x y = false.
Proof.
  clear - Hcell. intros HX HY Hn. apply not_true_is_false. unfold inside. rewrite !andb_true_iff, !Z.leb_le, !Z.ltb_lt. nia.
Qed.

(** All cells: the pixel operations and their effect on one pixel. *)
Definition all_ops (color : Z -> Z) : list op :=
  flat_map (fun i => flat_map (cell_ops (color i)) (cells_of i)) (zseq 0 15).

Definition rects (color : Z -> Z) : list (Z * Z * Z) :=
  flat_map (fun i => map (fun q => (fst q, snd q, color i)) (cells_of i)) (zseq 0 15).

Lemma all_ops_rects color : all_ops color = flat_map (fun r => let '(X, Y, c) := r in cell_ops c (X, Y)) (rects color).
Proof.
  unfold all_ops, rects. generalize (zseq 0 15). intros l. induction l as [|i l IH]; [reflexivity|].
  cbn [flat_map]. rewrite flat_map_app, <- IH. f_equal. generalize (cells_of i). intros qs.
  induction qs as [|q qs IHq]; [reflexivity|]. cbn [flat_map map]. now rewrite <- IHq.
Qed.

Lemma rects_range color : Forall (fun r => let '(X, Y, c) := r in 0 <= X < 5 /\ 0 <= Y < 5 /\ exists i, c = color i) (rects color).
Proof.
  unfold rects. cbn [zseq map seq flat_map cells_of]. repeat (apply Forall_cons; [splits; try (now eexists); vm_compute; easy|]).
  apply Forall_nil.
Qed.

Lemma rects_px rs x' y' : Forall (fun r => let '(X, Y, c) := r in 0 <= X < 5 /\ 0 <= Y < 5 /\ byte_ok c) rs -> 0 <= x' -> 0 <= y' ->
  forall cv, shape size size (cv_rows cv) ->
  let ops := flat_map (fun r => let '(X, Y, c) := r in cell_ops c (X, Y)) rs in
  Forall (op_ok size size) ops /\ shape size size (cv_rows (fold_left (draw_op d) ops cv)) /\
  px (cv_rows (fold_left (draw_op d) ops cv)) x' y' =
    fold_left (fun v r => let '(X, Y, c) := r in
      if inside (X * cell + margin) (Y * cell + margin) cell cell x' y' then c else v) rs (px (cv_rows cv) x' y').
Proof.
  intros H Hx Hy. induction H as [|[[X Y] c] rs (HX & HY & Hc) _ IH]; intros cv S; [now splits|].
  assert (K : Forall (fun o => op_ok size size o /\ exists i j, o = Pixel i j c) (cell_ops c (X, Y)))
    by (apply rect_ops_ok; cbn [fst snd]; try nia; exact Hc).
  destruct (one_color_px size size d c x' y' _ K Hx Hy cv S) as [S1 E1].
  cbn [flat_map]. rewrite fold_left_app. destruct (IH _ S1) as (O2 & S2 & E2). splits; [|exact S2|].
  - apply Forall_app. split; [|exact O2]. eapply Forall_impl; [|exact K]. now intros o [Ho _].
  - rewrite E2, E1. unfold cell_ops. cbn [fst snd fold_left]. now rewrite rect_touch by exact Hcell.
Qed.

(** The color at a pixel after the cells are drawn on one color. *)
Definition color_at (color : Z -> Z) (back x y : Z) : Z :=
  if (margin <=? x) && (x <? margin + 5 * cell) && ((margin <=? y) && (y <? margin + 5 * cell))
  then color (char_of ((x - margin) / cell) ((y - margin) / cell)) else back.

Lemma rects_inside color v cx cy i j : 0 <= cx < 5 -> 0 <= cy < 5 -> 0 <= i < cell -> 0 <= j < cell ->
  fold_left (fun v r => let '(X, Y, c) := r in
    if inside (X * cell + margin) (Y * cell + margin) cell cell (cx * cell + margin + i) (cy * cell + margin + j) then c else v)
    (rects color) v = color (char_of cx cy).
Proof.
  intros Hx Hy Hi Hj.
  rewrite (fold_ext _ (fun v r => let '(X, Y, c) := r in if (cx =? X) && (cy =? Y) then c else v)).
  - assert (Cx : cx = 0 \/ cx = 1 \/ cx = 2 \/ cx = 3 \/ cx = 4) by lia.
    assert (Cy : cy = 0 \/ cy = 1 \/ cy = 2 \/ cy = 3 \/ cy = 4) by lia.
    destruct Cx as [->|[->|[->|[->| ->]]]]; destruct Cy as [->|[->|[->|[->| ->]]]]; reflexivity.
  - intros u [[X Y] c]. now rewrite inside_cell.
Qed.

Lemma rects_outside rs v x y : Forall (fun r => let '(X, Y, c) := r in 0 <= X < 5 /\ 0 <= Y < 5 /\ byte_ok c) rs ->
  ~ (margin <= x < margin + 5 * cell /\ margin <= y < margin + 5 * cell) ->
  fold_left (fun v r => let '(X, Y, c) := r in
    if inside (X * cell + margin) (Y * cell + margin) cell cell x y then c else v) rs v = v.
Proof.
  intros H Hn. induction H as [|[[X Y] c] rs (HX & HY & _) _ IH]; [reflexivity|]. cbn [fold_left].
  now rewrite inside_none.
Qed.

Lemma all_ops_px color cv x y : (forall i, byte_ok (color i)) -> shape size size (cv_rows cv) -> 0 <= x < size -> 0 <= y < size ->
  Forall (op_ok size size) (all_ops color) /\
  px (cv_rows (fold_left (draw_op d) (all_ops color) cv)) x y = color_at color (px (cv_rows cv) x y) x y.
Proof.
  intros Hc S Hx Hy. rewrite all_ops_rects.
  assert (R : Forall (fun r => let '(X, Y, c) := r in 0 <= X < 5 /\ 0 <= Y < 5 /\ byte_ok c) (rects color)).
  { eapply Forall_impl; [|apply rects_range]. intros [[X Y] c] (H1 & H2 & i & ->). now splits. }
  destruct (rects_px (rects color) x y R ltac:(lia) ltac:(lia) cv S) as (O & _ & E). split; [exact O|].
  etransitivity; [exact E|]. unfold color_at.
  destruct (Z.leb_spec margin x), (Z.ltb_spec x (margin + 5 * cell)), (Z.leb_spec margin y), (Z.ltb_spec y (margin + 5 * cell));
    cbn [andb]; try (apply rects_outside; [exact R|lia]).
  assert (0 < cell) by lia. pose proof (Z.div_mod (x - margin) cell ltac:(lia)). pose proof (Z.div_mod (y - margin) cell ltac:(lia)).
  pose proof (Z.mod_pos_bound (x - margin) cell ltac:(lia)). pose proof (Z.mod_pos_bound (y - margin) cell ltac:(lia)).
  set (cx := (x - margin) / cell) in *. set (cy := (y - margin) / cell) in *.
  assert (Ex : cx * cell + margin + (x - margin) mod cell = x) by lia.
  assert (Ey : cy * cell + margin + (y - margin) mod cell = y) by lia.
  rewrite <- (rects_inside color (px (cv_rows cv) x y) cx cy ((x - margin) mod cell) ((y - margin) mod cell)) by nia.
  now rewrite Ex, Ey.
Qed.

End Draw.

(** ** The picture *)

Lemma fold_ext_in {A S} (f g : S -> A -> S) l s : (forall s a, In a l -> f s a = g s a) -> fold_left f l s = fold_left g l s.
Proof.
  revert s. induction l as [|a l IH]; intros s H; [reflexivity|]. cbn [fold_left].
  rewrite (H s a) by (now left). apply IH. intros u b Hb. apply H. now right.
Qed.

Lemma draw_cells size cell margin hash bg fg image :
  0 <= cell -> 0 <= margin -> margin + 5 * cell <= size ->
  fold_left (draw_cell hash bg fg cell margin) (zseq 0 15) image =
  fold_left do_op (all_ops cell margin (cell_color hash bg fg)) image.
Proof.
  intros H1 H2 H3. unfold all_ops. rewrite fold_flat_map. apply fold_ext_in. intros p i Hi. apply zseq_In in Hi.
  apply draw_cell_ops. lia.
Qed.

Lemma new_px w h x y : 0 <= w -> 0 <= h -> px (cv_rows (new_canvas w h)) x y = 0.
Proof.
  intros Hw Hh. unfold px, new_canvas. cbn [cv_rows].
  destruct (nth_in_or_default (Z.to_nat y) (repeat (repeat 0 (Z.to_nat w)) (Z.to_nat h)) []) as [H| ->].
  - apply repeat_spec in H. rewrite H. destruct (nth_in_or_default (Z.to_nat x) (repeat 0 (Z.to_nat w)) 0) as [K| ->]; [|reflexivity].
    now apply repeat_spec in K.
  - now destruct (Z.to_nat x).
Qed.

Lemma cell_color_cases hash bg fg i : cell_color hash bg fg i = bg \/ cell_color hash bg fg i = fg.
Proof. unfold cell_color. destruct (parse_hex _); [destruct (_ =? 0); tauto|tauto]. Qed.

Lemma cell_color_map {B} (f : Z -> B) hash bg fg i :
  f (cell_color hash bg fg i) = match parse_hex (char_at hash i) with
    | Some v => if Z.rem v 2 =? 0 then f fg else f bg
    | None => f fg
    end.
Proof. unfold cell_color. destruct (parse_hex _); [|reflexivity]. now destruct (_ =? 0). Qed.

(** The color of a pixel: the foreground where the character of its cell is even. *)
Definition expected (hash : list Z) (fg bg : rgba) (cell margin x y : Z) : rgba :=
  if (margin <=? x) && (x <? margin + 5 * cell) && ((margin <=? y) && (y <? margin + 5 * cell)) then
    match parse_hex (char_at hash (char_of ((x - margin) / cell) ((y - margin) / cell))) with
    | Some v => if Z.rem v 2 =? 0 then fg else bg
    | None => fg
    end
  else bg.

(** Two colors into an empty palette. *)
Lemma two_colors bg fg cv : cv_colors cv = [] ->
  let '(cv1, c1) := add_color 256 bg cv in
  let '(cv2, c2) := add_color 256 fg cv1 in
  c1 = 0 /\ cv_rows cv2 = cv_rows cv /\ 0 <= c2 <= 1 /\
  nth_error (cv_colors cv2) (Z.to_nat c1) = Some bg /\ nth_error (cv_colors cv2) (Z.to_nat c2) = Some fg.
Proof.
  intros E. unfold add_color at 1. rewrite E. cbn [position]. change (zlen (@nil rgba) =? 256) with false. cbv iota.
  unfold add_color. cbn [cv_colors app position]. destruct (rgba_eqb_spec bg fg) as [<-|Hne]; [now splits|].
  change (zlen [bg] =? 256) with false. now splits.
Qed.

Section Picture.

Context {A : Type} {N : Num A}.
Variable s : Identicon A.
Variables b0 b1 b2 b3 r g b : Z.

(** What [render] needs: colors of bytes, a positive size of at most 255, cells that fit. *)
Record drawable : Prop := {
  dr_background : background s = [b0; b1; b2; b3];
  dr_background_ok : rgba_ok (b0, b1, b2, b3);
  dr_foreground : foreground s = (r, g, b);
  dr_foreground_ok : rgba_ok (r, g, b, 255);
  dr_size : 0 < size s <= 255;
  dr_cell : 0 <= cell_size s;
  dr_margin : 0 <= margin_size s;
  dr_fits : margin_size s + 5 * cell_size s <= size s
}.

Lemma render_shows fuel : drawable -> exists image cv, render (S fuel) s = Some image /\
  shows (size s) (size s) 256 image cv /\
  forall x y, 0 <= x < size s -> 0 <= y < size s ->
    nth_error (cv_colors cv) (Z.to_nat (px (cv_rows cv) x y)) =
      Some (expected (hash s) (r, g, b, 255) (b0, b1, b2, b3) (cell_size s) (margin_size s) x y).
Proof.
  intros [D1 D2 D3 D4 D5 D6 D7 D8]. unfold render. set (w := size s) in *.
  assert (Hx : pix_size w w <= 65535) by (unfold pix_size; nia). assert (Hd : 1 <= 256 <= 256) by lia.
  rewrite (new_layout w w 256) by lia. pose proof (new_shows w w 256 ltac:(lia) ltac:(lia) Hx Hd) as S0.
  set (p0 := mkPNG w w 256 _ _ _) in *. clearbody p0. rewrite D1, D3. cbn [element nth nth_error].
  destruct (color_shows w w 256 Hd p0 _ b0 b1 b2 b3 S0 D2) as [E1 S1].
  pose proof (two_colors (b0, b1, b2, b3) (r, g, b, 255) (new_canvas w w) eq_refl) as T.
  destruct (add_color 256 (b0, b1, b2, b3) (new_canvas w w)) as [cv1 c1]. cbn [fst snd] in E1, S1.
  destruct (color b0 b1 b2 (Some b3) p0) as [p1 bg]. cbn [fst snd] in E1, S1. subst bg.
  change (color r g b None p1) with (color r g b (Some 255) p1).
  destruct (color_shows w w 256 Hd p1 cv1 r g b 255 S1 D4) as [E2 S2].
  destruct (add_color 256 (r, g, b, 255) cv1) as [cv2 c2]. destruct (color r g b (Some 255) p1) as [p2 fg]. cbn [fst snd] in E2, S2.
  subst fg. destruct T as (-> & Tr & T2 & Tb & Tf). rewrite (draw_cells w) by assumption.
  set (col := cell_color (hash s) 0 c2). assert (Bc : forall i, byte_ok (col i)).
  { intros i. destruct (cell_color_cases (hash s) 0 c2 i) as [E|E]; unfold col; rewrite E; unfold byte_ok; lia. }
  assert (Sh : shape w w (cv_rows cv2)).
  { destruct S2 as [_ _ _ _ _ _ _ _ Q1 Q2 _]. split; [exact Q1|]. eapply Forall_impl; [|exact Q2]. now intros q []. }
  pose proof (fun x y => all_ops_px w (cell_size s) (margin_size s) 256 D6 D7 D8 col cv2 x y Bc Sh) as P.
  eexists. eexists. split; [reflexivity|]. split.
  - apply (do_ops_shows w w 256); [unfold size_ok; lia|apply (P 0 0); lia|exact S2].
  - intros x y Hx' Hy'. destruct (P x y Hx' Hy') as [_ ->]. rewrite Tr, new_px by lia.
    destruct (draw_keeps 256 (all_ops (cell_size s) (margin_size s) col) cv2) as [more ->].
    assert (L : forall n c, nth_error (cv_colors cv2) n = Some c -> nth_error (cv_colors cv2 ++ more) n = Some c).
    { intros n c E. rewrite nth_error_app1; [exact E|]. apply nth_error_Some. now rewrite E. }
    unfold color_at, expected. destruct (_ && _); [|apply L, Tb]. unfold col.
    rewrite (cell_color_map (fun c => nth_error (cv_colors cv2 ++ more) (Z.to_nat c))).
    destruct (parse_hex _); [destruct (_ =? 0)|]; first [apply L, Tf|apply L, Tb].
Qed.

(** C23: the identicon as a file.  With colors of bytes, a size of 1 to 255 and cells that fit:
    [render] returns an image whose dump is a PNG file of that size in which every pixel of a
    cell has the foreground color if the character of the cell is an even digit (or no digit)
    and the background color if it is odd, and every pixel around the cells is background. *)
Theorem render_picture fuel : drawable -> exists image im, render (S fuel) s = Some image /\
  Format.decode (snd (getDump image)) = Some im /\ Format.columns im = size s /\ Format.rows im = size s /\
  forall x y, 0 <= x < size s -> 0 <= y < size s ->
    nth_error (Format.colors im) (Z.to_nat (px (Format.lines im) x y)) =
      Some (expected (hash s) (r, g, b, 255) (b0, b1, b2, b3) (cell_size s) (margin_size s) x y).
Proof.
  intros D. destruct (render_shows fuel D) as (image & cv & E & S & P). pose proof (dr_size D) as Hs.
  assert (Hx : pix_size (size s) (size s) <= 65535) by (unfold pix_size; nia).
  destruct (dump_shows (size s) (size s) 256 ltac:(lia) ltac:(lia) Hx ltac:(lia) image cv S) as [Ed _].
  exists image. eexists. splits; [exact E|exact Ed|reflexivity|reflexivity|]. intros x y Hx' Hy'.
  cbn [picture Format.colors Format.lines]. specialize (P x y Hx' Hy').
  rewrite nth_error_app1; [exact P|]. apply nth_error_Some. now rewrite P.
Qed.

(** The identicon is mirrored.  A pixel of the grid and its mirror image have the same
    color. *)
Theorem expected_mirrored hash fg bg cell margin x y : 0 < cell -> margin <= x < margin + 5 * cell ->
  expected hash fg bg cell margin (2 * margin + 5 * cell - 1 - x) y = expected hash fg bg cell margin x y.
Proof.
  intros Hc Hx. unfold expected.
  rewrite (proj2 (Z.leb_le margin x)), (proj2 (Z.ltb_lt x (margin + 5 * cell))) by lia.
  rewrite (proj2 (Z.leb_le margin (2 * margin + 5 * cell - 1 - x))), (proj2 (Z.ltb_lt (2 * margin + 5 * cell - 1 - x) (margin + 5 * cell))) by lia.
  assert (E : (2 * margin + 5 * cell - 1 - x - margin) / cell = 4 - (x - margin) / cell).
  { pose proof (Z.div_mod (x - margin) cell ltac:(lia)). pose proof (Z.mod_pos_bound (x - margin) cell ltac:(lia)).
    symmetry. apply (Z.div_unique_pos _ _ _ (cell - 1 - (x - margin) mod cell)); nia. }
  rewrite E. unfold char_of. now replace (Z.abs (4 - (x - margin) / cell - 2)) with (Z.abs ((x - margin) / cell - 2)) by lia.
Qed.

End Picture.

Lemma render_picture_witness : let s := new_Identicon (A := F64.t) (js "2017") (Some (js "d3b07384d113edec49eaa6238ad5ff00")) Nothing None in
  exists image im, render 1 s = Some image /\
  Format.decode (snd (getDump image)) = Some im /\ Format.columns im = size s /\ Format.rows im = size s /\
  forall x y, 0 <= x < size s -> 0 <= y < size s ->
    nth_error (Format.colors im) (Z.to_nat (px (Format.lines im) x y)) =
      Some (expected (hash s) (145, 140, 216, 255) (240, 240, 240, 255) (cell_size s) (margin_size s) x y).
Proof.
  refine (render_picture _ 240 240 240 255 145 140 216 0 _).
  split; try (vm_compute; reflexivity); vm_compute; easy.
Defined.

Lemma expected_mirrored_witness : expected (js "0123456789abcde") (1, 1, 1, 255) (2, 2, 2, 255) 10 7 (2 * 7 + 5 * 10 - 1 - 8) 9 =
  expected (js "0123456789abcde") (1, 1, 1, 255) (2, 2, 2, 255) 10 7 8 9.
Proof. refine (expected_mirrored (js "0123456789abcde") (1, 1, 1, 255) (2, 2, 2, 255) 10 7 8 9 _ _); lia. Defined.

(** ** Sizes *)

Definition fits (s : Identicon F64.t) : bool :=
  (0 <=? cell_size s) && (0 <=? margin_size s) &&
  (0 <=? size s - 5 * cell_size s - 2 * margin_size s) && (size s - 5 * cell_size s - 2 * margin_size s <=? 1).

Lemma default_margins : forallb (fun n => fits (mkIdenticon [] [] (dec 8 2) (Z.of_nat n))) (seq 1 255) = true.
Proof. vm_compute. reflexivity. Qed.

(** The default margin.  With the margin 0.08 and the division and rounding of doubles, for
    every size of 1 to 255 the cells and the margins are not negative, the cells fit between
    two equal margins, and at most one pixel is left over. *)
Theorem default_cells_fit (s : Identicon F64.t) : margin s = dec 8 2 -> 1 <= size s <= 255 ->
  0 <= cell_size s /\ 0 <= margin_size s /\ 0 <= size s - 5 * cell_size s - 2 * margin_size s <= 1.
Proof.
  intros Hm Hs. pose proof default_margins as T. rewrite forallb_forall in T.
  specialize (T (Z.to_nat (size s)) (proj2 (in_seq 255 1 (Z.to_nat (size s))) ltac:(lia))). rewrite Z2Nat.id in T by lia.
  assert (E : fits (mkIdenticon [] [] (dec 8 2) (size s)) = fits s) by (destruct s; cbn in Hm; subst; reflexivity).
  rewrite E in T. unfold fits in T. rewrite !andb_true_iff, !Z.leb_le in T. tauto.
Qed.

Lemma default_cells_fit_witness : let s := mkIdenticon (A := F64.t) [] [] (dec 8 2) 64 in
  0 <= cell_size s /\ 0 <= margin_size s /\ 0 <= size s - 5 * cell_size s - 2 * margin_size s <= 1.
Proof. refine (default_cells_fit (mkIdenticon [] [] (dec 8 2) 64) eq_refl _). cbn. lia. Defined.
