(* ===== verification/Jdenticon.v ===== *)
(** * Identicons as vector graphics (jdenticon)

    src/src/qt/res/assets/plugins/jdenticon/jdenticon-1.3.2.js: the graphics helpers, the
    shapes, the color theme, the icon generator, and the renderers for SVG and for a canvas.
    Everything is written over the numbers of Num.v and, where the code takes any renderer,
    over the class [Renderer].  A canvas context is the list of the calls made on it. *)

From Stdlib Require Import String ZArith Lia List Bool.
From S2P Require Import Prelude Js Num.
Import ListNotations.
#[local] Open Scope Z_scope.

Module Jdenticon.

(** ** Points and transforms *)

Record Point (A : Type) : Type := mkPoint { p_x : A; p_y : A }.
Arguments mkPoint {A}.
Arguments p_x {A}.
Arguments p_y {A}.

Record Transform (A : Type) : Type := mkTransform { t_x : A; t_y : A; t_size : A; t_rotation : Z }.
Arguments mkTransform {A}.
Arguments t_x {A}.
Arguments t_y {A}.
Arguments t_size {A}.
Arguments t_rotation {A}.

(** What [Graphics] and the icon generator need of a renderer [R]. *)
Class Renderer (A R : Type) : Type := {
  beginShape : list Z -> R -> R;
  endShape : R -> R;
  addPolygon : list (Point A) -> R -> R;
  addCircle : Point A -> A -> bool -> R -> R
}.

Section Numbers.

Context {A : Type} {N : Num A}.

#[local] Notation "a ⊕ b" := (add a b) (at level 50, left associativity).
#[local] Notation "a ⊖ b" := (sub a b) (at level 50, left associativity).
#[local] Notation "a ⊗ b" := (mul a b) (at level 40, left associativity).
#[local] Notation "a ⊘ b" := (div a b) (at level 40, left associativity).
#[local] Notation "# n" := (of_Z n) (at level 1, format "# n").

Definition leb (x y : A) : bool := ltb x y || eqb x y.

(** [w || 0] *)
Definition or0 (w : option A) : A := match w with Some v => v | None => #0 end.

Definition transformPoint (t : Transform A) (x y : A) (w h : option A) : Point A :=
  let right := t_x t ⊕ t_size t in
  let bottom := t_y t ⊕ t_size t in
  match t_rotation t with
  | 1 => mkPoint (right ⊖ y ⊖ or0 h) (t_y t ⊕ x)
  | 2 => mkPoint (right ⊖ x ⊖ or0 w) (bottom ⊖ y ⊖ or0 h)
  | 3 => mkPoint (t_x t ⊕ y) (bottom ⊖ x ⊖ or0 w)
  | _ => mkPoint (t_x t ⊕ x) (t_y t ⊕ y)
  end.

Definition noTransform : Transform A := mkTransform #0 #0 #0 0.

(** ** Graphics *)

Section Graphics.

Context {R : Type} {RR : Renderer A R}.

(** The transform and the renderer of a Graphics object. *)
Record Graphics : Type := mkGraphics { g_renderer : R; g_transform : Transform A }.

Definition new_Graphics (r : R) : Graphics := mkGraphics r noTransform.
Definition on_renderer (f : R -> R) (g : Graphics) : Graphics := mkGraphics (f (g_renderer g)) (g_transform g).

Definition coord (points : list A) (i : Z) : A := nth (Z.to_nat i) points (#0).

(** The loop of [addPolygon] over the coordinates; one turn for two of them. *)
Fixpoint polygon_loop (fuel : nat) (t : Transform A) (points : list A) (di i : Z) : list (Point A) :=
  match fuel with
  | O => []
  | S fuel =>
      if (i <? zlen points) && (0 <=? i)
      then transformPoint t (coord points i) (coord points (i + 1)) None None :: polygon_loop fuel t points di (i + di)
      else []
  end.

Definition g_addPolygon (points : list A) (invert : bool) (g : Graphics) : Graphics :=
  let di := if invert then -2 else 2 in
  let i := if invert then zlen points - 2 else 0 in
  on_renderer (addPolygon (polygon_loop (List.length points) (g_transform g) points di i)) g.

Definition g_addCircle (x y size : A) (invert : bool) (g : Graphics) : Graphics :=
  let p := transformPoint (g_transform g) x y (Some size) (Some size) in
  on_renderer (addCircle p size invert) g.

Definition g_addRectangle (x y w h : A) (invert : bool) (g : Graphics) : Graphics :=
  g_addPolygon [x; y; x ⊕ w; y; x ⊕ w; y ⊕ h; x; y ⊕ h] invert g.

(** [points.splice(((r || 0) % 4) * 2, 2)] *)
Definition without_corner (r : Z) (points : list A) : list A :=
  let i := Z.to_nat (Z.rem r 4 * 2) in firstn i points ++ skipn (i + 2) points.

Definition g_addTriangle (x y w h : A) (r : Z) (invert : bool) (g : Graphics) : Graphics :=
  g_addPolygon (without_corner r [x ⊕ w; y; x ⊕ w; y ⊕ h; x; y ⊕ h; x; y]) invert g.

Definition g_addRhombus (x y w h : A) (invert : bool) (g : Graphics) : Graphics :=
  g_addPolygon [x ⊕ w ⊘ #2; y; x ⊕ w; y ⊕ h ⊘ #2; x ⊕ w ⊘ #2; y ⊕ h; x; y ⊕ h ⊘ #2] invert g.

(** ** Shapes *)

Definition shape : Type := A -> Z -> Graphics -> Graphics.

(** [0 | x] as a number. *)
Definition int (x : A) : A := of_Z (to_int32 x).

Definition shapes_center : list shape := [
  (fun cell index g =>
     let k := cell ⊗ dec 42 2 in
     g_addPolygon [#0; #0; cell; #0; cell; cell ⊖ k ⊗ #2; cell ⊖ k; cell; #0; cell] false g);
  (fun cell index g =>
     let w := int (cell ⊗ dec 5 1) in
     let h := int (cell ⊗ dec 8 1) in
     g_addTriangle (cell ⊖ w) (#0) w h 2 false g);
  (fun cell index g =>
     let s := int (cell ⊘ #3) in
     g_addRectangle s s (cell ⊖ s) (cell ⊖ s) false g);
  (fun cell index g =>
     let inner := int (cell ⊗ dec 1 1) in
     let outer := int (cell ⊗ dec 25 2) in
     g_addRectangle outer outer (cell ⊖ inner ⊖ outer) (cell ⊖ inner ⊖ outer) false g);
  (fun cell index g =>
     let m := int (cell ⊗ dec 15 2) in
     let s := int (cell ⊗ dec 5 1) in
     g_addCircle (cell ⊖ s ⊖ m) (cell ⊖ s ⊖ m) s false g);
  (fun cell index g =>
     let inner := cell ⊗ dec 1 1 in
     let outer := inner ⊗ #4 in
     let g := g_addRectangle (#0) (#0) cell cell false g in
     g_addPolygon [outer; outer; cell ⊖ inner; outer; outer ⊕ (cell ⊖ outer ⊖ inner) ⊘ #2; cell ⊖ inner] true g);
  (fun cell index g =>
     g_addPolygon [#0; #0; cell; #0; cell; cell ⊗ dec 7 1; cell ⊗ dec 4 1; cell ⊗ dec 4 1; cell ⊗ dec 7 1; cell; #0; cell] false g);
  (fun cell index g =>
     g_addTriangle (cell ⊘ #2) (cell ⊘ #2) (cell ⊘ #2) (cell ⊘ #2) 3 false g);
  (fun cell index g =>
     let g := g_addRectangle (#0) (#0) cell (cell ⊘ #2) false g in
     let g := g_addRectangle (#0) (cell ⊘ #2) (cell ⊘ #2) (cell ⊘ #2) false g in
     g_addTriangle (cell ⊘ #2) (cell ⊘ #2) (cell ⊘ #2) (cell ⊘ #2) 1 false g);
  (fun cell index g =>
     let inner := int (cell ⊗ dec 14 2) in
     let outer := int (cell ⊗ dec 35 2) in
     let g := g_addRectangle (#0) (#0) cell cell false g in
     g_addRectangle outer outer (cell ⊖ outer ⊖ inner) (cell ⊖ outer ⊖ inner) true g);
  (fun cell index g =>
     let inner := cell ⊗ dec 12 2 in
     let outer := inner ⊗ #3 in
     let g := g_addRectangle (#0) (#0) cell cell false g in
     g_addCircle outer outer (cell ⊖ inner ⊖ outer) true g);
  (fun cell index g =>
     g_addTriangle (cell ⊘ #2) (cell ⊘ #2) (cell ⊘ #2) (cell ⊘ #2) 3 false g);
  (fun cell index g =>
     let m := cell ⊗ dec 25 2 in
     let g := g_addRectangle (#0) (#0) cell cell false g in
     g_addRhombus m m (cell ⊖ m) (cell ⊖ m) true g);
  (fun cell index g =>
     let m := cell ⊗ dec 4 1 in
     let s := cell ⊗ dec 12 1 in
     if index =? 0 then g_addCircle m m s false g else g)
].

Definition shapes_outer : list shape := [
  (fun cell index g => g_addTriangle (#0) (#0) cell cell 0 false g);
  (fun cell index g => g_addTriangle (#0) (cell ⊘ #2) cell (cell ⊘ #2) 0 false g);
  (fun cell index g => g_addRhombus (#0) (#0) cell cell false g);
  (fun cell index g =>
     let m := cell ⊘ #6 in
     g_addCircle m m (cell ⊖ #2 ⊗ m) false g)
].

End Graphics.

Arguments Graphics : clear implicits.
Arguments shape : clear implicits.

(** ** Colors *)

Definition nan : A := #0 ⊘ #0.

(** [v.toString(16)] of 0 to 255 *)
Definition hex_byte (v : Z) : list Z := if v <? 16 then [hex_digit v] else [hex_digit (v / 16); hex_digit (v mod 16)].

Definition decToHex (v : A) : list Z :=
  let v := to_int32 v in
  if v <? 0 then js "00"
  else if v <? 16 then js "0" ++ hex_byte v
  else if v <? 256 then hex_byte v
  else js "ff".

Definition hueToRgb (m1 m2 h : A) : list Z :=
  let h := if ltb h (#0) then h ⊕ #6 else if ltb (#6) h then h ⊖ #6 else h in
  decToHex (#255 ⊗
    (if ltb h (#1) then m1 ⊕ (m2 ⊖ m1) ⊗ h
     else if ltb h (#3) then m2
     else if ltb h (#4) then m1 ⊕ (m2 ⊖ m1) ⊗ (#4 ⊖ h)
     else m1)).

Definition color_rgb (r g b : A) : list Z := js "#" ++ decToHex r ++ decToHex g ++ decToHex b.

Definition color_hsl (h s l : A) : list Z :=
  if eqb s (#0) then
    let partialHex := decToHex (l ⊗ #255) in
    js "#" ++ partialHex ++ partialHex ++ partialHex
  else
    let m2 := if leb l (dec 5 1) then l ⊗ (s ⊕ #1) else l ⊕ s ⊖ l ⊗ s in
    let m1 := l ⊗ #2 ⊖ m2 in
    js "#" ++ hueToRgb m1 m2 (h ⊗ #6 ⊕ #2) ++ hueToRgb m1 m2 (h ⊗ #6) ++ hueToRgb m1 m2 (h ⊗ #6 ⊖ #2).

Definition correctors : list A := [dec 55 2; dec 5 1; dec 5 1; dec 46 2; dec 6 1; dec 55 2; dec 55 2].

Definition corrector_index (h : A) : Z := to_int32 (h ⊗ #6 ⊕ dec 5 1).

Definition color_correctedHsl (h s l : A) : list Z :=
  let i := corrector_index h in
  let corrector := if i <? 0 then nan else nth (Z.to_nat i) correctors nan in
  let l := if ltb l (dec 5 1) then l ⊗ corrector ⊗ #2 else corrector ⊕ (l ⊖ dec 5 1) ⊗ (#1 ⊖ corrector) ⊗ #2 in
  color_hsl h s l.

(** ** Configuration *)

Record config : Type := mkConfig {
  saturation : A;
  colorLightness : A -> A;
  grayscaleLightness : A -> A
}.

(** What a page can set: the fields that are there and of the right kind. *)
Record configObject : Type := mkConfigObject {
  c_saturation : option A;
  c_color : option (A * A);
  c_grayscale : option (A * A)
}.

(** [lightness(configName, defaultMin, defaultMax)]; the name is the field given. *)
Definition lightness (field : option (A * A)) (defaultMin defaultMax : A) : A -> A :=
  let range := match field with Some r => r | None => (defaultMin, defaultMax) end in
  fun value =>
    let value := fst range ⊕ value ⊗ (snd range ⊖ fst range) in
    if ltb value (#0) then #0 else if ltb (#1) value then #1 else value.

Definition getCurrentConfig (o : configObject) : config :=
  mkConfig (match c_saturation o with Some s => s | None => dec 5 1 end)
    (lightness (c_color o) (dec 4 1) (dec 8 1)) (lightness (c_grayscale o) (dec 3 1) (dec 9 1)).

Definition no_config : configObject := mkConfigObject None None None.

Definition colorTheme (hue : A) (c : config) : list (list Z) := [
  color_hsl (#0) (#0) (grayscaleLightness c (#0));
  color_correctedHsl hue (saturation c) (colorLightness c (dec 5 1));
  color_hsl (#0) (#0) (grayscaleLightness c (#1));
  color_correctedHsl hue (saturation c) (colorLightness c (#1));
  color_correctedHsl hue (saturation c) (colorLightness c (#0))
].

(** ** The icon generator *)

Definition is_hex (c : Z) : bool := match hex_value c with Some _ => true | None => false end.

(** The pattern [^[0-9a-f]{11,}$], in any case. *)
Definition valid_hash (hash : list Z) : bool := forallb is_hex hash && (11 <=? zlen hash).

(** [parseInt(hash.charAt(i), 16)] of a valid hash. *)
Definition digit_at (hash : list Z) (i : Z) : Z := match parse_hex (char_at hash i) with Some v => v | None => 0 end.

Definition includes (values : list Z) (v : Z) : bool := existsb (Z.eqb v) values.

(** [isDuplicate(values)] *)
Definition isDuplicate (index : Z) (selected values : list Z) : bool :=
  includes values index && existsb (includes selected) values.

(** The loop that selects three colors of [n]. *)
Definition select_color (hash : list Z) (n : Z) (selected : list Z) (i : Z) : list Z :=
  let index := Z.rem (digit_at hash (8 + i)) n in
  let index := if isDuplicate index selected [0; 4] || isDuplicate index selected [2; 3] then 1 else index in
  selected ++ [index].

Definition selectedColorIndexes (hash : list Z) (n : Z) : list Z := fold_left (select_color hash n) [0; 1; 2] [].

Definition positions_sides : list (Z * Z) := [(1, 0); (2, 0); (2, 3); (1, 3); (0, 1); (3, 1); (3, 2); (0, 2)].
Definition positions_corners : list (Z * Z) := [(0, 0); (3, 0); (3, 3); (0, 3)].
Definition positions_center : list (Z * Z) := [(1, 1); (2, 1); (2, 2); (1, 2)].

Section Generator.

Context {R : Type} {RR : Renderer A R}.

(** The loop of [renderShape] over the positions. *)
Fixpoint place (s : shape R) (x y : A) (cell : Z) (positions : list (Z * Z)) (i r : Z) (g : Graphics R) : Graphics R :=
  match positions with
  | [] => g
  | (px, py) :: positions =>
      let t := mkTransform (x ⊕ #px ⊗ #cell) (y ⊕ #py ⊗ #cell) (#cell) (Z.rem r 4) in
      place s x y cell positions (i + 1) (r + 1) (s (#cell) i (mkGraphics (g_renderer g) t))
  end.

Definition renderShape (hash : list Z) (color : list Z) (shapes : list (shape R)) (index : Z) (rotationIndex : option Z)
    (x y : A) (cell : Z) (positions : list (Z * Z)) (g : Graphics R) : Graphics R :=
  let r := match rotationIndex with Some i => digit_at hash i | None => 0 end in
  let s := nth (Z.to_nat (Z.rem (digit_at hash index) (zlen shapes))) shapes (fun _ _ g => g) in
  let g := on_renderer (beginShape color) g in
  let g := place s x y cell positions 0 r g in
  on_renderer endShape g.

Definition hue_of (hash : list Z) : A :=
  match parse_hex (skipn (List.length hash - 7) hash) with Some v => #v ⊘ #0xfffffff | None => nan end.

Inductive error : Type := TooSmall | InvalidHash | NoCanvas.

Definition iconGenerator (renderer : R) (hash : list Z) (x y size : A) (padding : option A) (c : config) : R + error :=
  let padding := to_int32 (size ⊗ match padding with Some p => p | None => dec 8 2 end) in
  let size := size ⊖ #padding ⊗ #2 in
  if ltb size (#30) then inr TooSmall
  else if negb (valid_hash hash) then inr InvalidHash
  else
    let cell := to_int32 (size ⊘ #4) in
    let shift := #(to_int32 (#padding ⊕ size ⊘ #2 ⊖ #cell ⊗ #2)) in
    let x := x ⊕ shift in
    let y := y ⊕ shift in
    let availableColors := colorTheme (hue_of hash) c in
    let selected := selectedColorIndexes hash (zlen availableColors) in
    let color k := nth (Z.to_nat (nth k selected 0)) availableColors [] in
    let g := new_Graphics renderer in
    let g := renderShape hash (color 0%nat) shapes_outer 2 (Some 3) x y cell positions_sides g in
    let g := renderShape hash (color 1%nat) shapes_outer 4 (Some 5) x y cell positions_corners g in
    let g := renderShape hash (color 2%nat) shapes_center 1 None x y cell positions_center g in
    inl (g_renderer g).

End Generator.

(** ** A canvas *)

Inductive command : Type :=
| ClearRect (x y w h : A)
| FillStyle (color : list Z)
| BeginPath
| Fill
| MoveTo (x y : A)
| LineTo (x y : A)
| ClosePath
| Arc (x y radius : A) (anticlockwise : bool).      (* from 0 to 2 pi *)

(** The calls in their order. *)
Definition canvas : Type := list command.

Definition new_CanvasRenderer (ctx : canvas) (width height : A) : canvas := ctx ++ [ClearRect (#0) (#0) width height].

Definition line_to (p : Point A) : command := LineTo (p_x p) (p_y p).

#[export] Instance CanvasRenderer : Renderer A canvas := {
  beginShape color ctx := ctx ++ [FillStyle color; BeginPath];
  endShape ctx := ctx ++ [Fill];
  addPolygon points ctx :=
    match points with
    | p :: points => ctx ++ [MoveTo (p_x p) (p_y p)] ++ map line_to points ++ [ClosePath]
    | [] => ctx
    end;
  addCircle p diameter counterClockwise ctx :=
    let radius := diameter ⊘ #2 in
    ctx ++ [Arc (p_x p ⊕ radius) (p_y p ⊕ radius) radius counterClockwise; ClosePath]
}.

(** ** SVG *)

Section Svg.

(** [String(x)] *)
Variable show : A -> list Z.

(** The data of a path. *)
Definition svg_point (command : list Z) (p : Point A) : list Z := command ++ show (p_x p) ++ js " " ++ show (p_y p).

Definition path_addPolygon (points : list (Point A)) (dataString : list Z) : list Z :=
  match points with
  | p :: points => dataString ++ svg_point (js "M") p ++ flat_map (svg_point (js "L")) points ++ js "Z"
  | [] => dataString
  end.

Definition neg (x : A) : A := #0 ⊖ x.

Definition path_addCircle (p : Point A) (diameter : A) (counterClockwise : bool) (dataString : list Z) : list Z :=
  let sweepFlag := if counterClockwise then js "0" else js "1" in
  let radius := diameter ⊘ #2 in
  dataString ++
  js "M" ++ show (p_x p) ++ js " " ++ show (p_y p ⊕ radius) ++
  js "a" ++ show radius ++ js "," ++ show radius ++ js " 0 1," ++ sweepFlag ++ js " " ++ show diameter ++ js ",0" ++
  js "a" ++ show radius ++ js "," ++ show radius ++ js " 0 1," ++ sweepFlag ++ js " " ++ show (neg diameter) ++ js ",0".

(** The paths by color, in the order of their first use, and the color of the current one. *)
Record SvgRenderer : Type := mkSvg {
  pathsByColor : list (list Z * list Z);
  current : list Z;
  svg_w : A;
  svg_h : A
}.

Definition new_SvgRenderer (width height : A) : SvgRenderer := mkSvg [] [] width height.

Fixpoint has_path (color : list Z) (l : list (list Z * list Z)) : bool :=
  match l with [] => false | (c, _) :: l => str_eqb c color || has_path color l end.

Fixpoint update_path (color : list Z) (f : list Z -> list Z) (l : list (list Z * list Z)) : list (list Z * list Z) :=
  match l with
  | [] => []
  | (c, d) :: l => if str_eqb c color then (c, f d) :: l else (c, d) :: update_path color f l
  end.

Definition svg_beginShape (color : list Z) (r : SvgRenderer) : SvgRenderer :=
  mkSvg (if has_path color (pathsByColor r) then pathsByColor r else pathsByColor r ++ [(color, [])]) color (svg_w r) (svg_h r).

Definition svg_path (f : list Z -> list Z) (r : SvgRenderer) : SvgRenderer :=
  mkSvg (update_path (current r) f (pathsByColor r)) (current r) (svg_w r) (svg_h r).

Definition SvgRenderer_Renderer : Renderer A SvgRenderer := {|
  beginShape := svg_beginShape;
  endShape r := r;
  addPolygon points := svg_path (path_addPolygon points);
  addCircle p diameter counterClockwise := svg_path (path_addCircle p diameter counterClockwise)
|}.

Definition quoted (s : list Z) : list Z := [34] ++ s ++ [34].

Definition svg_open (r : SvgRenderer) : list Z :=
  js "<svg xmlns=" ++ quoted (js "http://www.w3.org/2000/svg") ++ js " width=" ++ quoted (show (svg_w r)) ++
  js " height=" ++ quoted (show (svg_h r)) ++
  js " viewBox=" ++ quoted (js "0 0 " ++ show (svg_w r) ++ js " " ++ show (svg_h r)) ++
  js " preserveAspectRatio=" ++ quoted (js "xMidYMid meet") ++ js ">".

Definition svg_element (p : list Z * list Z) : list Z :=
  js "<path fill=" ++ quoted (fst p) ++ js " d=" ++ quoted (snd p) ++ js "/>".

Definition renderer_toSvg (fragment : bool) (r : SvgRenderer) : list Z :=
  let paths := flat_map svg_element (pathsByColor r) in
  if fragment then paths else svg_open r ++ paths ++ js "</svg>".

(** ** The functions of the page *)

Definition toSvg (o : configObject) (hash : list Z) (size : A) (padding : option A) : list Z + error :=
  match iconGenerator (RR := SvgRenderer_Renderer) (new_SvgRenderer size size) hash (#0) (#0) size padding (getCurrentConfig o) with
  | inl r => inl (renderer_toSvg false r)
  | inr e => inr e
  end.

(** The context after it, and what it throws; without a context ([None]) nothing is drawn. *)
Definition drawIcon (o : configObject) (ctx : option canvas) (hash : list Z) (size : A) : option canvas * option error :=
  match ctx with
  | None => (None, Some NoCanvas)
  | Some ctx =>
      let renderer := new_CanvasRenderer ctx size size in
      match iconGenerator renderer hash (#0) (#0) size (Some (#0)) (getCurrentConfig o) with
      | inl ctx => (Some ctx, None)
      | inr e => (Some renderer, Some e)
      end
  end.

(** What [update] uses of an element: its kind, its attributes and its size. *)
Inductive tag : Type := SvgTag | CanvasTag | OtherTag.

Record element : Type := mkElement {
  e_tag : tag;
  e_hash : option (list Z);             (* data-jdenticon-hash *)
  e_width : A; e_height : A;            (* the attributes as numbers, or else the client size *)
  e_getContext : bool                   (* "getContext" in el *)
}.

(** What [update] does to it: the calls on its context, or its new content. *)
Inductive outcome : Type :=
| Untouched
| SvgContent (markup : list Z) (viewBox : list Z)
| Drawn (commands : canvas)
| Raised (commands : canvas) (e : error).

Definition min_num (a b : A) : A := if ltb b a then b else a.

Definition update (o : configObject) (el : element) (hash : option (list Z)) (padding : option A) : outcome :=
  let hash := match hash with Some (c :: h) => Some (c :: h) | _ => e_hash el end in
  match hash with
  | None | Some [] => Untouched
  | Some hash =>
      let size := min_num (e_width el) (e_height el) in
      match e_tag el with
      | SvgTag =>
          match iconGenerator (RR := SvgRenderer_Renderer) (new_SvgRenderer (e_width el) (e_height el)) hash (#0) (#0) size padding (getCurrentConfig o) with
          | inl r => SvgContent (renderer_toSvg false r) (js "0 0 " ++ show (e_width el) ++ js " " ++ show (e_height el))
          | inr e => Raised [] e
          end
      | CanvasTag =>
          if e_getContext el then
            let renderer := new_CanvasRenderer [] (e_width el) (e_height el) in
            match iconGenerator renderer hash (#0) (#0) size padding (getCurrentConfig o) with
            | inl ctx => Drawn ctx
            | inr e => Raised renderer e
            end
          else Untouched
      | OtherTag => Untouched
      end
  end.

(** [update] of the elements that a selector finds: an exception ends the loop. *)
Fixpoint update_all (o : configObject) (els : list element) (hash : option (list Z)) (padding : option A) : list outcome :=
  match els with
  | [] => []
  | el :: els =>
      match update o el hash padding with
      | Raised commands e => [Raised commands e]
      | r => r :: update_all o els hash padding
      end
  end.

End Svg.

End Numbers.

End Jdenticon.
