(* ===== verification/JdenticonTheory.v ===== *)
(** * The icons of jdenticon

    What the definitions of Jdenticon.v do: every renderer draws the same figure, the figure
    is unchanged by a quarter turn, its colors are well formed and of different kinds, and
    the errors of the generator are the documented ones. *)

From Stdlib Require Import String ZArith Lia List Bool Permutation QArith Qcanon Field.
From S2P Require Import Prelude Js Num Jdenticon.
Import ListNotations.
Import Jdenticon.
#[local] Open Scope Z_scope.

(** ** Shapes and renderers *)

(** The coordinates of a polygon of three points or more. *)
Definition polygon_data {A} (points : list A) : bool := (6 <=? zlen points) && Z.even (zlen points).

Section Related.

Context {A R1 R2 : Type} {N : Num A} {RR1 : Renderer A R1} {RR2 : Renderer A R2}.

(** A relation of two Graphics objects that both kinds of drawing respect. *)
Variable related : @Graphics A R1 -> @Graphics A R2 -> Prop.
Hypothesis related_polygon : forall points invert g1 g2, polygon_data points = true -> related g1 g2 ->
  related (g_addPolygon points invert g1) (g_addPolygon points invert g2).
Hypothesis related_circle : forall x y size invert g1 g2, related g1 g2 -> related (g_addCircle x y size invert g1) (g_addCircle x y size invert g2).

Definition related_shape (s1 : @shape A R1) (s2 : @shape A R2) : Prop :=
  forall cell index g1 g2, related g1 g2 -> related (s1 cell index g1) (s2 cell index g2).

Ltac related_shape := intros cell index g1 g2 E; cbv beta zeta;
  unfold g_addRectangle, g_addTriangle, g_addRhombus; repeat ((apply related_polygon; [reflexivity|]) || apply related_circle); exact E.

Lemma outer_related : Forall2 related_shape shapes_outer shapes_outer.
Proof. unfold shapes_outer. repeat (constructor; [related_shape|]). constructor. Qed.

Lemma center_related : Forall2 related_shape shapes_center shapes_center.
Proof.
  unfold shapes_center. do 13 (constructor; [related_shape|]). constructor; [|constructor].
  intros cell index g1 g2 E. cbv beta zeta. destruct (index =? 0); [apply related_circle|]; exact E.
Qed.

End Related.

Lemma Forall2_nth {X Y} (P : X -> Y -> Prop) (l : list X) (l' : list Y) (i : nat) (d : X) (d' : Y) :
  Forall2 P l l' -> P d d' -> P (nth i l d) (nth i l' d').
Proof. intros F. revert i. induction F; intros [|i]; cbn; auto. Qed.

(** ** What is drawn *)

Section Drawings.

Context {A : Type} {N : Num A}.

(** The calls a renderer gets. *)
Inductive primitive : Type :=
| Polygon (points : list (Point A))
| Circle (p : Point A) (diameter : A) (counterClockwise : bool).

Inductive event : Type := Begin (color : list Z) | Draw (p : primitive) | End.

(** The renderer that writes them down. *)
#[local] Instance Recorder : Renderer A (list event) := {
  beginShape color l := l ++ [Begin color];
  endShape l := l ++ [End];
  addPolygon points l := l ++ [Draw (Polygon points)];
  addCircle p diameter ccw l := l ++ [Draw (Circle p diameter ccw)]
}.

Definition replay_event {R} `{Renderer A R} (r : R) (e : event) : R :=
  match e with
  | Begin color => beginShape color r
  | Draw (Polygon points) => addPolygon points r
  | Draw (Circle p diameter ccw) => addCircle p diameter ccw r
  | End => endShape r
  end.

Definition replay {R} `{Renderer A R} (l : list event) (r : R) : R := fold_left replay_event l r.

Lemma replay_app {R} `{Renderer A R} (l l' : list event) (r : R) : replay (l ++ l') r = replay l' (replay l r).
Proof. apply fold_left_app. Qed.

Section Replayed.

Context {R : Type} {RR : Renderer A R}.
Variable r0 : R.

(** The second Graphics object has drawn what the first has recorded. *)
Definition replayed (g1 : @Graphics A (list event)) (g2 : @Graphics A R) : Prop :=
  g_transform g1 = g_transform g2 /\ g_renderer g2 = replay (g_renderer g1) r0.

Lemma replayed_event (e : event) g1 g2 :
  replayed g1 g2 -> replayed (on_renderer (fun l => l ++ [e]) g1) (on_renderer (fun r => replay_event r e) g2).
Proof.
  intros [E F]. split; [exact E|]. unfold on_renderer. cbn [g_renderer]. rewrite replay_app, F. reflexivity.
Qed.

Lemma replayed_polygon points invert g1 g2 :
  polygon_data points = true -> replayed g1 g2 -> replayed (g_addPolygon points invert g1) (g_addPolygon points invert g2).
Proof.
  intros _ H. unfold g_addPolygon. destruct H as [E F]. rewrite <- E.
  apply (replayed_event (Draw (Polygon _))). split; assumption.
Qed.

Lemma replayed_circle x y size invert g1 g2 :
  replayed g1 g2 -> replayed (g_addCircle x y size invert g1) (g_addCircle x y size invert g2).
Proof.
  intros H. unfold g_addCircle. destruct H as [E F]. rewrite <- E.
  apply (replayed_event (Draw (Circle _ _ _))). split; assumption.
Qed.

Lemma replayed_place (s1 : @shape A (list event)) (s2 : @shape A R) x y cell positions i r g1 g2 :
  related_shape replayed s1 s2 -> replayed g1 g2 ->
  replayed (place s1 x y cell positions i r g1) (place s2 x y cell positions i r g2).
Proof.
  intros Hs. revert i r g1 g2. induction positions as [|[px py] positions IH]; intros i r g1 g2 H; cbn [place]; [exact H|].
  apply IH, Hs. destruct H as [_ F]. split; [reflexivity|exact F].
Qed.

Lemma replayed_renderShape hash color (ss1 : list (@shape A (list event))) (ss2 : list (@shape A R)) index rotation x y cell positions g1 g2 :
  Forall2 (related_shape replayed) ss1 ss2 -> replayed g1 g2 ->
  replayed (renderShape hash color ss1 index rotation x y cell positions g1) (renderShape hash color ss2 index rotation x y cell positions g2).
Proof.
  intros Hs H. unfold renderShape, zlen. rewrite (Forall2_length Hs).
  apply (replayed_event End), replayed_place.
  - apply Forall2_nth; [exact Hs|]. intros ? ? ? ? E. exact E.
  - apply (replayed_event (Begin color)), H.
Qed.

End Replayed.

End Drawings.

Arguments primitive : clear implicits.
Arguments event : clear implicits.
#[export] Existing Instance Recorder.

Lemma iconGenerator_replayed {A R : Type} {N : Num A} {RR : Renderer A R} (renderer : R) (hash : list Z) (x y size : A) (padding : option A) (c : config) :
  iconGenerator renderer hash x y size padding c =
  match iconGenerator ([] : list (event A)) hash x y size padding c with
  | inl events => inl (replay events renderer)
  | inr e => inr e
  end.
Proof.
  unfold iconGenerator. cbv zeta.
  destruct (ltb _ _); [reflexivity|]. destruct (valid_hash hash); [cbn [negb]|reflexivity]. f_equal.
  match goal with |- g_renderer ?g2 = replay (g_renderer ?g1) _ => assert (H : replayed renderer g1 g2); [|apply H] end.
  repeat apply replayed_renderShape; try (apply outer_related || apply center_related);
    auto using replayed_polygon, replayed_circle. split; reflexivity.
Qed.

(** Every renderer draws the same picture: for any renderer, [iconGenerator] fails as it
    does with the renderer that only records the calls it gets, and otherwise leaves the
    renderer as these calls, made one after the other, leave it.  The SVG and the canvas of an
    icon are two readings of one list of shapes. *)
Theorem renderers_draw_alike {A R : Type} {N : Num A} {RR : Renderer A R} (renderer : R) (hash : list Z) (x y size : A) (padding : option A) (c : config) :
  iconGenerator renderer hash x y size padding c =
  match iconGenerator ([] : list (event A)) hash x y size padding c with
  | inl events => inl (replay events renderer)
  | inr e => inr e
  end.
Proof. apply iconGenerator_replayed. Qed.

(** ** Polygons *)

Section Polygons.

Context {A : Type} {N : Num A}.

(** The points of a list of coordinates. *)
Fixpoint pairs (l : list A) : list (A * A) :=
  match l with
  | x :: y :: l => (x, y) :: pairs l
  | _ => []
  end.

Definition at_point (t : Transform A) (p : A * A) : Point A := transformPoint t (fst p) (snd p) None None.

Lemma even_two (x y : A) (l : list A) : Z.even (zlen (x :: y :: l)) = Z.even (zlen l).
Proof. unfold zlen. cbn [List.length]. rewrite !Nat2Z.inj_succ. apply Z.even_succ_succ. Qed.

(** Induction on the points. *)
Lemma pairs_ind (P : list A -> Prop) :
  P [] -> (forall x y l, Z.even (zlen l) = true -> P l -> P (x :: y :: l)) -> forall l, Z.even (zlen l) = true -> P l.
Proof.
  intros P0 P2. fix F 1. intros [|x [|y l]] H; [exact P0|discriminate|].
  rewrite even_two in H. apply P2; [exact H|]. apply F, H.
Qed.

Lemma pairs_length (l : list A) : Z.even (zlen l) = true -> List.length l = (2 * List.length (pairs l))%nat.
Proof. revert l. apply pairs_ind; [reflexivity|]. intros x y l _ E. cbn [List.length pairs]. lia. Qed.

Lemma nth_pairs (l : list A) (i : nat) (d : A) :
  Z.even (zlen l) = true -> nth i (pairs l) (d, d) = (nth (2 * i) l d, nth (2 * i + 1) l d).
Proof.
  intros H. revert i. revert l H. refine (pairs_ind _ _ _); [intros [|i]; cbn; repeat destruct (_ + _)%nat; reflexivity|].
  intros x y l _ IH [|i]; [reflexivity|]. replace (2 * S i)%nat with (S (S (2 * i))) by lia. apply IH.
Qed.

Lemma skipn_nth_cons {X} (i : nat) (l : list X) (d : X) : (i < List.length l)%nat -> skipn i l = nth i l d :: skipn (S i) l.
Proof. revert l. induction i as [|i IH]; intros [|x l] H; cbn in *; try lia; [reflexivity|]. apply IH. lia. Qed.

Lemma firstn_S_nth {X} (i : nat) (l : list X) (d : X) : (i < List.length l)%nat -> firstn (S i) l = firstn i l ++ [nth i l d].
Proof.
  revert l. induction i as [|i IH]; intros [|x l] H; cbn [List.length] in H; try lia; [reflexivity|].
  cbn [firstn nth app]. rewrite <- IH by lia. reflexivity.
Qed.

Lemma polygon_loop_forward (t : Transform A) (points : list A) (fuel i : nat) :
  Z.even (zlen points) = true -> (List.length (pairs points) <= i + fuel)%nat ->
  polygon_loop fuel t points 2 (2 * Z.of_nat i) = map (at_point t) (skipn i (pairs points)).
Proof.
  intros H. pose proof (pairs_length points H) as L. revert i.
  induction fuel as [|fuel IH]; intros i F; cbn [polygon_loop].
  { rewrite skipn_all2 by lia. reflexivity. }
  zcase.
  - replace (2 * Z.of_nat i + 2) with (2 * Z.of_nat (S i)) by lia. rewrite IH by lia.
    rewrite (skipn_nth_cons i (pairs points) (of_Z 0, of_Z 0)) by (unfold zlen in *; lia). cbn [map].
    f_equal. unfold at_point, coord. rewrite nth_pairs by exact H. cbn [fst snd]. do 2 f_equal; lia.
  - rewrite skipn_all2; [reflexivity|]. apply andb_false_iff in E as [E|E]; zbool; unfold zlen in *; lia.
Qed.

Lemma polygon_loop_backward (t : Transform A) (points : list A) (fuel i : nat) :
  Z.even (zlen points) = true -> (i <= List.length (pairs points))%nat -> (i < fuel)%nat ->
  polygon_loop fuel t points (-2) (2 * Z.of_nat i - 2) = map (at_point t) (rev (firstn i (pairs points))).
Proof.
  intros H. pose proof (pairs_length points H) as L. revert i.
  induction fuel as [|fuel IH]; intros i F G; [lia|]. cbn [polygon_loop].
  destruct i as [|i].
  { zcase; [lia|reflexivity]. }
  zcase; [|apply andb_false_iff in E as [E|E]; zbool; unfold zlen in *; lia].
  replace (2 * Z.of_nat (S i) - 2 + -2) with (2 * Z.of_nat i - 2) by lia. rewrite IH by lia.
  rewrite (firstn_S_nth i (pairs points) (of_Z 0, of_Z 0)) by lia.
  rewrite rev_app_distr. cbn [rev app map].
  f_equal. unfold at_point, coord. rewrite nth_pairs by exact H. cbn [fst snd]. do 2 f_equal; lia.
Qed.

End Polygons.

Lemma g_addPolygon_pairs {A R : Type} {N : Num A} {RR : Renderer A R} (points : list A) (invert : bool) (g : @Graphics A R) :
  Z.even (zlen points) = true ->
  g_addPolygon points invert g =
  on_renderer (addPolygon (map (at_point (g_transform g)) (if invert then rev (pairs points) else pairs points))) g.
Proof.
  intros H. pose proof (pairs_length points H) as L. unfold g_addPolygon. cbv zeta. f_equal. f_equal. destruct invert.
  - replace (zlen points - 2) with (2 * Z.of_nat (List.length (pairs points)) - 2) by (unfold zlen; lia).
    destruct points as [|x points]; [reflexivity|]. cbn [List.length] in *.
    rewrite polygon_loop_backward by (cbn [List.length]; lia || exact H). rewrite firstn_all. reflexivity.
  - apply (polygon_loop_forward _ points _ 0); [exact H|lia].
Qed.

(** A polygon given as [x0, y0, ..., xn, yn] reaches the renderer as the list of its
    transformed points, each of them once, in the order given, and in the reverse order when
    it is inverted (the inverted outline, run the other way round, is a hole). *)
Theorem addPolygon_order {A R : Type} {N : Num A} {RR : Renderer A R} (points : list A) (invert : bool) (g : @Graphics A R) :
  Z.even (zlen points) = true ->
  g_renderer (g_addPolygon points invert g) =
    addPolygon (map (at_point (g_transform g)) (if invert then rev (pairs points) else pairs points)) (g_renderer g) /\
  g_transform (g_addPolygon points invert g) = g_transform g /\
  (List.length points = 2 * List.length (pairs points))%nat.
Proof.
  intros H. rewrite g_addPolygon_pairs by exact H. split; [reflexivity|]. split; [reflexivity|]. apply pairs_length, H.
Qed.

Lemma addPolygon_order_witness :
  g_renderer (g_addPolygon (map F64.of_Z [0; 0; 4; 0; 4; 2]) true (mkGraphics ([] : list (event F64.t)) (mkTransform (F64.of_Z 10) (F64.of_Z 20) (F64.of_Z 4) 1))) =
  [Draw (Polygon (map (fun p => mkPoint (F64.of_Z (fst p)) (F64.of_Z (snd p))) [(12, 24); (14, 24); (14, 20)]))].
Proof.
  refine (eq_trans (proj1 (addPolygon_order (map F64.of_Z [0; 0; 4; 0; 4; 2]) true
    (mkGraphics ([] : list (event F64.t)) (mkTransform (F64.of_Z 10) (F64.of_Z 20) (F64.of_Z 4) 1)) _)) _); vm_compute; reflexivity.
Defined.

(** ** What a shape draws *)

Section Drawn.

Context {A : Type} {N : Num A}.

(** Polygons have three points or more. *)
Definition well_formed (p : primitive A) : Prop :=
  match p with
  | Polygon points => (3 <= List.length points)%nat
  | Circle _ _ _ => True
  end.

Definition drawn_by (e : event A) : list (primitive A) := match e with Draw p => [p] | _ => [] end.

(** What a shape draws in a cell. *)
Definition drawn (s : @shape A (list (event A))) (t : Transform A) (cell : A) (index : Z) : list (primitive A) :=
  flat_map drawn_by (g_renderer (s cell index (mkGraphics [] t))).

(** The second Graphics object has what the first has drawn after [l]. *)
Definition after (l : list (event A)) (g1 g2 : @Graphics A (list (event A))) : Prop :=
  g_transform g1 = g_transform g2 /\
  exists ps, Forall well_formed ps /\ g_renderer g1 = map Draw ps /\ g_renderer g2 = l ++ map Draw ps.

Lemma after_draw (l : list (event A)) (p : primitive A) g1 g2 :
  well_formed p -> after l g1 g2 ->
  after l (on_renderer (fun r => r ++ [Draw p]) g1) (on_renderer (fun r => r ++ [Draw p]) g2).
Proof.
  intros W (E & ps & F & E1 & E2). split; [exact E|]. exists (ps ++ [p]). unfold on_renderer. cbn [g_renderer].
  rewrite map_app, E1, E2, app_assoc. split; [|split; reflexivity].
  apply Forall_app. auto.
Qed.

Lemma after_polygon l points invert g1 g2 :
  polygon_data points = true -> after l g1 g2 -> after l (g_addPolygon points invert g1) (g_addPolygon points invert g2).
Proof.
  intros D H. unfold polygon_data in D. zbool. rewrite !g_addPolygon_pairs by assumption.
  destruct (H) as [E _]. rewrite <- E. apply after_draw; [|exact H]. cbn [well_formed].
  rewrite length_map. pose proof (pairs_length points ltac:(assumption)).
  destruct invert; rewrite ?length_rev; unfold zlen in *; lia.
Qed.

Lemma after_circle l x y size invert g1 g2 :
  after l g1 g2 -> after l (g_addCircle x y size invert g1) (g_addCircle x y size invert g2).
Proof. intros H. unfold g_addCircle. destruct (H) as [E _]. rewrite <- E. apply after_draw; [exact I|exact H]. Qed.

(** A shape adds what it draws, and draws well formed figures. *)
Definition draws (s : @shape A (list (event A))) : Prop :=
  forall cell index l t,
    g_renderer (s cell index (mkGraphics l t)) = l ++ map Draw (drawn s t cell index) /\
    Forall well_formed (drawn s t cell index).

Lemma drawn_map (ps : list (primitive A)) : flat_map drawn_by (map Draw ps) = ps.
Proof. induction ps as [|p ps IH]; cbn; congruence. Qed.

Lemma related_draws (s : @shape A (list (event A))) : (forall l, related_shape (after l) s s) -> draws s.
Proof.
  intros H cell index l t. destruct (H l cell index (mkGraphics [] t) (mkGraphics l t)) as (_ & ps & F & E1 & E2).
  { split; [reflexivity|]. exists []. rewrite app_nil_r. auto. }
  unfold drawn. rewrite E1, E2, drawn_map. auto.
Qed.

Lemma Forall2_diag {X} (P : X -> X -> Prop) (l : list X) : Forall2 P l l -> Forall (fun x => P x x) l.
Proof.
  intros F. remember l as l' eqn:E in F at 2. revert E. induction F; intros E; [constructor|].
  injection E as -> E. constructor; auto.
Qed.

Lemma Forall_family {X Y} (P : Y -> X -> Prop) (l : list X) : (forall y, Forall (P y) l) -> Forall (fun x => forall y, P y x) l.
Proof.
  induction l as [|x l IH]; intros H; constructor.
  - intros y. specialize (H y). inversion H; assumption.
  - apply IH. intros y. specialize (H y). inversion H; assumption.
Qed.

Lemma outer_draws : Forall draws shapes_outer.
Proof.
  eapply Forall_impl; [apply related_draws|]. apply Forall_family. intros l.
  apply Forall2_diag, outer_related; [apply after_polygon|apply after_circle].
Qed.

Lemma center_draws : Forall draws shapes_center.
Proof.
  eapply Forall_impl; [apply related_draws|]. apply Forall_family. intros l.
  apply Forall2_diag, center_related; [apply after_polygon|apply after_circle].
Qed.

(** The cells of a list of positions, with their indices. *)
Fixpoint placed (x y : A) (cell : Z) (positions : list (Z * Z)) (i r : Z) : list (Z * Transform A) :=
  match positions with
  | [] => []
  | (px, py) :: positions =>
      (i, mkTransform (add x (mul (of_Z px) (of_Z cell))) (add y (mul (of_Z py) (of_Z cell))) (of_Z cell) (Z.rem r 4)) ::
      placed x y cell positions (i + 1) (r + 1)
  end.

Definition figure (s : @shape A (list (event A))) (cell : Z) (cells : list (Z * Transform A)) : list (primitive A) :=
  flat_map (fun it => drawn s (snd it) (of_Z cell) (fst it)) cells.

Lemma place_draws s x y cell positions i r g :
  draws s ->
  g_renderer (place s x y cell positions i r g) = g_renderer g ++ map Draw (figure s cell (placed x y cell positions i r)).
Proof.
  intros D. revert i r g. induction positions as [|[px py] positions IH]; intros i r g; cbn [place placed].
  { cbn. rewrite app_nil_r. reflexivity. }
  rewrite IH. destruct (D (of_Z cell) i (g_renderer g) (mkTransform (add x (mul (of_Z px) (of_Z cell))) (add y (mul (of_Z py) (of_Z cell))) (of_Z cell) (Z.rem r 4))) as [E _].
  rewrite E. unfold figure. cbn [flat_map]. rewrite map_app, app_assoc. reflexivity.
Qed.

Lemma figure_well_formed s cell cells : draws s -> Forall well_formed (figure s cell cells).
Proof.
  intros D. unfold figure. induction cells as [|[i t] cells IH]; [constructor|].
  cbn [flat_map]. apply Forall_app. split; [apply (D _ _ [])|exact IH].
Qed.

(** A shape of one color. *)
Definition block (color : list Z) (ps : list (primitive A)) : list (event A) := Begin color :: map Draw ps ++ [End].

(** The shape that a digit of the hash selects. *)
Definition selected_shape (hash : list Z) (ss : list (@shape A (list (event A)))) (index : Z) : @shape A (list (event A)) :=
  nth (Z.to_nat (Z.rem (digit_at hash index) (zlen ss))) ss (fun _ _ g => g).

Lemma skip_draws : draws (fun _ _ g => g).
Proof. intros cell index l t. unfold drawn. cbn. rewrite app_nil_r. auto. Qed.

Lemma selected_draws hash ss index : Forall draws ss -> draws (selected_shape hash ss index).
Proof.
  intros F. unfold selected_shape. set (i := Z.to_nat _). destruct (Nat.lt_ge_cases i (List.length ss)) as [L|L].
  - apply (proj1 (Forall_forall _ _) F), nth_In, L.
  - rewrite nth_overflow by exact L. apply skip_draws.
Qed.

Definition rotation_of (hash : list Z) (rotationIndex : option Z) : Z :=
  match rotationIndex with Some i => digit_at hash i | None => 0 end.

Lemma renderShape_block hash color ss index rotationIndex x y cell positions g :
  Forall draws ss ->
  g_renderer (renderShape hash color ss index rotationIndex x y cell positions g) =
  g_renderer g ++ block color (figure (selected_shape hash ss index) cell (placed x y cell positions 0 (rotation_of hash rotationIndex))).
Proof.
  intros F. unfold renderShape. fold (selected_shape hash ss index) (rotation_of hash rotationIndex).
  unfold on_renderer at 1. cbn [g_renderer endShape Recorder]. rewrite place_draws by apply selected_draws, F.
  unfold on_renderer, block. cbn [g_renderer beginShape Recorder]. rewrite <- !app_assoc. reflexivity.
Qed.

End Drawn.

(** ** Colors *)

(** The index that the loop selects after [selected] for a digit. *)
Definition pick (selected : list Z) (d : Z) : Z :=
  let index := Z.rem d 5 in
  if isDuplicate index selected [0; 4] || isDuplicate index selected [2; 3] then 1 else index.

Lemma hex_value_range (c v : Z) : hex_value c = Some v -> 0 <= v < 16.
Proof. unfold hex_value. intros H. repeat hcase H; injection H as <-; lia. Qed.

Lemma space_not_hex (c : Z) : is_space c = true -> hex_value c = None.
Proof.
  unfold is_space. intros H. apply existsb_exists in H as (x & I & E). zbool. subst x.
  repeat (destruct I as [<-|I]; [reflexivity|]). destruct I.
Qed.

Lemma parse_hex_char (c : Z) : parse_hex [c] = hex_value c.
Proof.
  unfold parse_hex. cbn [drop_spaces]. destruct (is_space c) eqn:S; [rewrite space_not_hex by exact S; reflexivity|].
  destruct (Z.eqb_spec c 45) as [->|_]; [reflexivity|]. destruct (Z.eqb_spec c 43) as [->|_]; [reflexivity|].
  cbn. destruct (hex_value c); reflexivity.
Qed.

Lemma digit_at_range (hash : list Z) (i : Z) : 0 <= digit_at hash i < 16.
Proof.
  unfold digit_at, char_at. destruct (i <? 0); [cbn; lia|].
  destruct (skipn _ _) as [|c l]; cbn [firstn]; [cbn; lia|]. rewrite parse_hex_char.
  destruct (hex_value c) as [v|] eqn:E; [apply hex_value_range in E|]; lia.
Qed.

Lemma selectedColorIndexes_pick (hash : list Z) :
  selectedColorIndexes hash 5 =
  let a := pick [] (digit_at hash 8) in
  let b := pick [a] (digit_at hash 9) in
  [a; b; pick [a; b] (digit_at hash 10)].
Proof. reflexivity. Qed.

(** The kind of a color of the theme: dark (0 and 4), light (2 and 3). *)
Definition dark (index : Z) : bool := (index =? 0) || (index =? 4).
Definition light (index : Z) : bool := (index =? 2) || (index =? 3).

Lemma selected_apart (hash : list Z) :
  let selected := selectedColorIndexes hash 5 in
  List.length selected = 3%nat /\
  Forall (fun i => 0 <= i < 5) selected /\
  (List.length (filter dark selected) <= 1)%nat /\
  (List.length (filter light selected) <= 1)%nat /\
  hd 0 selected = digit_at hash 8 mod 5.
Proof.
  intros selected. unfold selected. rewrite selectedColorIndexes_pick.
  pose proof (digit_at_range hash 8). pose proof (digit_at_range hash 9). pose proof (digit_at_range hash 10).
  unfold pick. rewrite !Z.rem_mod_nonneg by lia.
  assert (R : forall d, In (d mod 5) [0; 1; 2; 3; 4]) by (intros d; pose proof (Z.mod_pos_bound d 5); cbn; lia).
  pose proof (R (digit_at hash 8)) as Ra. pose proof (R (digit_at hash 9)) as Rb. pose proof (R (digit_at hash 10)) as Rc.
  set (da := digit_at hash 8 mod 5) in *. set (db := digit_at hash 9 mod 5) in *. set (dc := digit_at hash 10 mod 5) in *.
  clearbody da db dc. cbn [In] in Ra, Rb, Rc.
  destruct Ra as [<-|[<-|[<-|[<-|[<-|[]]]]]], Rb as [<-|[<-|[<-|[<-|[<-|[]]]]]], Rc as [<-|[<-|[<-|[<-|[<-|[]]]]]];
    cbn; repeat split; repeat constructor; lia.
Qed.

(** Whatever the hash, three colors of the theme are selected, and among them at most one
    of the two dark ones and at most one of the two light ones: a shape never disappears next
    to one of nearly the same color.  The first color is the one its digit asks for. *)
Theorem selected_colors_apart {A : Type} {N : Num A} (hash : list Z) (hue : A) (c : config) :
  let selected := selectedColorIndexes hash (zlen (colorTheme hue c)) in
  List.length selected = 3%nat /\
  Forall (fun i => 0 <= i < zlen (colorTheme hue c)) selected /\
  (List.length (filter dark selected) <= 1)%nat /\
  (List.length (filter light selected) <= 1)%nat /\
  hd 0 selected = digit_at hash 8 mod 5.
Proof. apply selected_apart. Qed.

(** The hexadecimal digits of a color. *)
Definition is_color (s : list Z) : bool :=
  match s with
  | c :: s => (c =? 35) && (zlen s =? 6) && forallb is_hex s
  | [] => false
  end.

Definition clamp_byte (v : Z) : Z := Z.max 0 (Z.min 255 v).

Lemma hex_value_digit (d : Z) : 0 <= d < 16 -> hex_value (hex_digit d) = Some d.
Proof.
  intros H. assert (E : forallb (fun n => match hex_value (hex_digit (Z.of_nat n)) with Some v => v =? Z.of_nat n | None => false end) (seq 0 16) = true)
    by reflexivity.
  rewrite forallb_forall in E. specialize (E (Z.to_nat d) ltac:(apply in_seq; lia)). rewrite Z2Nat.id in E by lia.
  destruct (hex_value (hex_digit d)); [|discriminate]. zbool. congruence.
Qed.

Lemma decToHex_digits {A : Type} {N : Num A} (v : A) :
  decToHex v = [hex_digit (clamp_byte (to_int32 v) / 16); hex_digit (clamp_byte (to_int32 v) mod 16)].
Proof.
  unfold decToHex, clamp_byte, hex_byte. cbv zeta. set (n := to_int32 v). clearbody n.
  destruct (Z.ltb_spec n 0); [rewrite Z.max_l by lia; reflexivity|].
  destruct (Z.ltb_spec n 16).
  { rewrite Z.min_r, Z.max_r, Z.div_small, Z.mod_small by lia. reflexivity. }
  destruct (Z.ltb_spec n 256); [rewrite Z.min_r, Z.max_r by lia; reflexivity|].
  rewrite Z.min_l, Z.max_r by lia. reflexivity.
Qed.

Lemma clamp_byte_digits (v : Z) : 0 <= clamp_byte v / 16 < 16 /\ 0 <= clamp_byte v mod 16 < 16.
Proof.
  unfold clamp_byte. set (n := Z.max 0 _). assert (0 <= n < 16 * 16) by lia.
  pose proof (Z.mod_pos_bound n 16). pose proof (Z.div_lt_upper_bound n 16 16). pose proof (Z.div_pos n 16). lia.
Qed.

Lemma decToHex_hex {A : Type} {N : Num A} (v : A) : zlen (decToHex v) = 2 /\ forallb is_hex (decToHex v) = true.
Proof.
  rewrite decToHex_digits. destruct (clamp_byte_digits (to_int32 v)) as [H L]. split; [reflexivity|].
  cbn. unfold is_hex. rewrite !hex_value_digit by assumption. reflexivity.
Qed.

Lemma three_channels (a b c : list Z) :
  zlen a = 2 /\ forallb is_hex a = true -> zlen b = 2 /\ forallb is_hex b = true -> zlen c = 2 /\ forallb is_hex c = true ->
  is_color (js "#" ++ a ++ b ++ c) = true.
Proof.
  intros [La Ha] [Lb Hb] [Lc Hc]. change (js "#" ++ a ++ b ++ c) with (35 :: a ++ b ++ c).
  cbn [is_color]. unfold zlen in *. rewrite !length_app, !forallb_app, Ha, Hb, Hc.
  apply andb_true_iff. split; [|reflexivity]. apply andb_true_iff. split; [reflexivity|]. apply Z.eqb_eq. lia.
Qed.

Lemma hsl_is_color {A : Type} {N : Num A} (h s l : A) : is_color (color_hsl h s l) = true.
Proof.
  unfold color_hsl, hueToRgb. destruct (eqb s _); apply three_channels; apply decToHex_hex.
Qed.

Lemma parse_hex_two (a b : Z) : 0 <= a < 16 -> 0 <= b < 16 -> parse_hex [hex_digit a; hex_digit b] = Some (16 * a + b).
Proof.
  intros Ha Hb. unfold parse_hex. cbn [drop_spaces].
  destruct (is_space (hex_digit a)) eqn:S; [apply space_not_hex in S; rewrite hex_value_digit in S by exact Ha; discriminate|].
  destruct (Z.eqb_spec (hex_digit a) 45) as [E|_]; [unfold hex_digit in E; hcase E; lia|].
  destruct (Z.eqb_spec (hex_digit a) 43) as [E|_]; [unfold hex_digit in E; hcase E; lia|].
  replace ((hex_digit b =? 120) || (hex_digit b =? 88)) with false
    by (symmetry; apply orb_false_iff; split; apply Z.eqb_neq; unfold hex_digit; zcase; lia).
  rewrite andb_false_r. cbn [hex_prefix]. rewrite !hex_value_digit by assumption. reflexivity.
Qed.

(** C28: The channels of a color are two hexadecimal digits each, and reading them back gives
    the number itself, made a 32-bit integer by [|0] (cut and wrapped) and clamped to 0 .. 255; every color of the
    functions [rgb], [hsl] and [correctedHsl], and so of the theme, is # and six digits. *)
Theorem colors_well_formed {A : Type} {N : Num A} (r g b : A) (h s l : A) (hue : A) (c : config) (v : A) :
  zlen (decToHex v) = 2 /\ parse_hex (decToHex v) = Some (clamp_byte (to_int32 v)) /\
  is_color (color_rgb r g b) = true /\ is_color (color_hsl h s l) = true /\ is_color (color_correctedHsl h s l) = true /\
  forallb is_color (colorTheme hue c) = true.
Proof.
  split; [apply decToHex_hex|]. split.
  - rewrite decToHex_digits, parse_hex_two by apply clamp_byte_digits.
    f_equal. symmetry. apply Z.div_mod. discriminate.
  - split; [apply three_channels; apply decToHex_hex|]. split; [apply hsl_is_color|]. split; [apply hsl_is_color|].
    unfold colorTheme, color_correctedHsl. cbn [forallb]. rewrite !hsl_is_color. reflexivity.
Qed.

(** ** The picture of a hash *)

Section Picture.

Context {A : Type} {N : Num A}.
Variables (size : A) (padding : option A).

Definition padding_of : Z := to_int32 (mul size match padding with Some p => p | None => dec 8 2 end).

(** The size without the padding, the size of a cell and the place of the first one. *)
Definition inner_size : A := sub size (mul (of_Z padding_of) (of_Z 2)).
Definition cell_of : Z := to_int32 (div inner_size (of_Z 4)).
Definition offset_of : A := of_Z (to_int32 (sub (add (of_Z padding_of) (div inner_size (of_Z 2))) (mul (of_Z cell_of) (of_Z 2)))).

Definition color_of (hash : list Z) (c : config) (k : nat) : list Z :=
  nth (Z.to_nat (nth k (selectedColorIndexes hash 5) 0)) (colorTheme (hue_of hash) c) [].

(** The three shapes: sides, corners and center. *)
Definition sides (hash : list Z) (x y : A) : list (primitive A) :=
  figure (selected_shape hash shapes_outer 2) cell_of (placed x y cell_of positions_sides 0 (digit_at hash 3)).
Definition corners (hash : list Z) (x y : A) : list (primitive A) :=
  figure (selected_shape hash shapes_outer 4) cell_of (placed x y cell_of positions_corners 0 (digit_at hash 5)).
Definition center (hash : list Z) (x y : A) : list (primitive A) :=
  figure (selected_shape hash shapes_center 1) cell_of (placed x y cell_of positions_center 0 0).

Definition picture (hash : list Z) (x y : A) (c : config) : list (list Z * list (primitive A)) :=
  let x := add x offset_of in
  let y := add y offset_of in
  [(color_of hash c 0, sides hash x y); (color_of hash c 1, corners hash x y); (color_of hash c 2, center hash x y)].

Definition events_of (shapes : list (list Z * list (primitive A))) : list (event A) :=
  flat_map (fun shape => block (fst shape) (snd shape)) shapes.

Lemma iconGenerator_picture hash x y c :
  iconGenerator ([] : list (event A)) hash x y size padding c =
  if ltb inner_size (of_Z 30) then inr TooSmall
  else if valid_hash hash then inl (events_of (picture hash x y c)) else inr InvalidHash.
Proof.
  unfold iconGenerator. cbv zeta. fold padding_of. fold inner_size. fold cell_of. fold offset_of.
  destruct (ltb _ _); [reflexivity|]. destruct (valid_hash hash); [cbn [negb]|reflexivity]. f_equal.
  rewrite !renderShape_block by (apply outer_draws || apply center_draws).
  unfold events_of, picture. cbn [flat_map fst snd]. rewrite app_nil_r, <- !app_assoc. reflexivity.
Qed.

Lemma color_of_hex hash c k : is_color (color_of hash c k) = true.
Proof.
  assert (T : forallb is_color (colorTheme (hue_of hash) c) = true)
    by (unfold colorTheme, color_correctedHsl; cbn [forallb]; rewrite !hsl_is_color; reflexivity).
  rewrite forallb_forall in T. apply T. unfold color_of. apply nth_In.
  destruct (selected_apart hash) as (_ & F & _). cbv zeta in F.
  set (i := nth k _ 0). assert (B : 0 <= i < 5).
  { unfold i. destruct (Nat.lt_ge_cases k (List.length (selectedColorIndexes hash 5))) as [L|L].
    - apply (proj1 (Forall_forall _ _) F), nth_In, L.
    - rewrite nth_overflow by exact L. lia. }
  change (List.length _) with 5%nat. lia.
Qed.

Lemma picture_well_formed hash x y c :
  Forall (fun shape => is_color (fst shape) = true /\ Forall well_formed (snd shape)) (picture hash x y c).
Proof.
  unfold picture, sides, corners, center. repeat constructor; cbn [fst snd]; try apply color_of_hex;
    apply figure_well_formed, selected_draws; apply outer_draws || apply center_draws.
Qed.

End Picture.

(** ** Quarter turns *)

Section Turn.

#[local] Open Scope Qc_scope.

(** The center of the turn. *)
Variables cx cy : Qc.

(** The upper left corner of the turned square of size [d] at [p]; a point with [d = 0]. *)
Definition turn_square (d : Qc) (p : Point Qc) : Point Qc := mkPoint (cx - (p_y p - cy) - d) (cy + (p_x p - cx)).

Definition turn_point (p : Point Qc) : Point Qc := mkPoint (cx - (p_y p - cy)) (cy + (p_x p - cx)).

Definition turn (p : primitive Qc) : primitive Qc :=
  match p with
  | Polygon points => Polygon (map turn_point points)
  | Circle p d ccw => Circle (turn_square d p) d ccw
  end.

Definition turn_cell (t : Transform Qc) : Transform Qc :=
  let p := turn_square (t_size t) (mkPoint (t_x t) (t_y t)) in
  mkTransform (p_x p) (p_y p) (t_size t) ((t_rotation t + 1) mod 4)%Z.

Definition quarter (t : Transform Qc) : Prop := (0 <= t_rotation t < 4)%Z.

Lemma Qc_of_Z_0 : Qc_of_Z 0 = 0.
Proof. reflexivity. Qed.

Lemma transformPoint_turn (t : Transform Qc) (x y d : Qc) :
  quarter t -> transformPoint (turn_cell t) x y (Some d) (Some d) = turn_square d (transformPoint t x y (Some d) (Some d)).
Proof.
  destruct t as [tx ty ts r]. unfold quarter. cbn [t_rotation]. intros H.
  assert (C : (r = 0 \/ r = 1 \/ r = 2 \/ r = 3)%Z) by lia.
  destruct C as [->|[->|[->| ->]]]; unfold transformPoint, turn_cell, turn_square; cbn; f_equal; ring.
Qed.

Lemma at_point_square (t : Transform Qc) (p : Qc * Qc) : at_point t p = transformPoint t (fst p) (snd p) (Some 0) (Some 0).
Proof. reflexivity. Qed.

Lemma turn_square_0 p : turn_square 0 p = turn_point p.
Proof. unfold turn_square, turn_point. f_equal. ring. Qed.

Lemma at_point_turn (t : Transform Qc) (p : Qc * Qc) : quarter t -> at_point (turn_cell t) p = turn_point (at_point t p).
Proof. intros H. rewrite !at_point_square, transformPoint_turn, turn_square_0 by exact H. reflexivity. Qed.

Definition turn_event (e : event Qc) : event Qc := match e with Draw p => Draw (turn p) | _ => e end.

(** The second Graphics object draws what the first draws, turned. *)
Definition turned (g1 g2 : @Graphics Qc (list (event Qc))) : Prop :=
  quarter (g_transform g1) /\ g_transform g2 = turn_cell (g_transform g1) /\ g_renderer g2 = map turn_event (g_renderer g1).

Lemma turned_polygon points invert g1 g2 :
  polygon_data points = true -> turned g1 g2 -> turned (g_addPolygon points invert g1) (g_addPolygon points invert g2).
Proof.
  intros D (Q & E & F). unfold polygon_data in D. zbool. rewrite !g_addPolygon_pairs by assumption.
  split; [exact Q|]. split; [exact E|]. unfold on_renderer. cbn [g_renderer addPolygon Recorder].
  rewrite map_app, F, E. cbn [map turn_event turn]. do 4 f_equal. rewrite map_map.
  apply map_ext. intros p. apply at_point_turn, Q.
Qed.

Lemma turned_circle x y size invert g1 g2 :
  turned g1 g2 -> turned (g_addCircle x y size invert g1) (g_addCircle x y size invert g2).
Proof.
  intros (Q & E & F). split; [exact Q|]. split; [exact E|]. unfold g_addCircle, on_renderer. cbn [g_renderer addCircle Recorder].
  rewrite map_app, F, E, transformPoint_turn by exact Q. reflexivity.
Qed.

(** A shape in a turned cell is the shape, turned. *)
Definition turns (s : @shape Qc (list (event Qc))) : Prop :=
  forall cell index t, quarter t -> drawn s (turn_cell t) cell index = map turn (drawn s t cell index).

Lemma related_turns s : related_shape turned s s -> turns s.
Proof.
  intros H cell index t Q.
  destruct (H cell index (mkGraphics [] t) (mkGraphics [] (turn_cell t))) as (_ & _ & E); [split; [exact Q|split; reflexivity]|].
  unfold drawn. rewrite E. generalize (g_renderer (s cell index (mkGraphics [] t))). intros l.
  induction l as [|[] l IH]; cbn; congruence.
Qed.

Lemma outer_turns : Forall turns shapes_outer.
Proof. eapply Forall_impl; [apply related_turns|]. apply Forall2_diag, outer_related; [apply turned_polygon|apply turned_circle]. Qed.

Lemma center_turns : Forall turns shapes_center.
Proof. eapply Forall_impl; [apply related_turns|]. apply Forall2_diag, center_related; [apply turned_polygon|apply turned_circle]. Qed.

End Turn.

(** ** Cells as positions in the grid *)

(** Column, row and quarter turns. *)
Definition code : Type := Z * Z * Z.

Fixpoint codes (positions : list (Z * Z)) (r : Z) : list code :=
  match positions with
  | [] => []
  | (px, py) :: positions => (px, py, Z.rem r 4) :: codes positions (r + 1)
  end.

Definition turn_code (c : code) : code := let '(px, py, r) := c in (3 - py, px, (r + 1) mod 4).

Definition code_eqb (a b : code) : bool :=
  let '(px, py, r) := a in let '(px', py', r') := b in (px =? px') && (py =? py') && (r =? r').

Lemma code_eqb_eq (a b : code) : code_eqb a b = true -> a = b.
Proof. destruct a as [[? ?] ?], b as [[? ?] ?]. cbn. intros H. zbool. subst. reflexivity. Qed.

Fixpoint remove_code (a : code) (l : list code) : option (list code) :=
  match l with
  | [] => None
  | b :: l => if code_eqb a b then Some l else option_map (cons b) (remove_code a l)
  end.

Lemma remove_code_permutation (a : code) (l l' : list code) : remove_code a l = Some l' -> Permutation (a :: l') l.
Proof.
  revert l'. induction l as [|b l IH]; intros l' H; cbn in H; [discriminate|].
  destruct (code_eqb a b) eqn:E; [apply code_eqb_eq in E; injection H as <-; subst; reflexivity|].
  destruct (remove_code a l) as [m|]; [|discriminate]. injection H as <-.
  rewrite perm_swap. constructor. apply IH. reflexivity.
Qed.

Fixpoint permuted (l l' : list code) : bool :=
  match l with
  | [] => match l' with [] => true | _ => false end
  | a :: l => match remove_code a l' with Some l' => permuted l l' | None => false end
  end.

Lemma permuted_permutation (l l' : list code) : permuted l l' = true -> Permutation l l'.
Proof.
  revert l'. induction l as [|a l IH]; intros l' H; cbn in H; [destruct l'; [constructor|discriminate]|].
  destruct (remove_code a l') as [m|] eqn:E; [|discriminate].
  rewrite (IH m H). apply remove_code_permutation, E.
Qed.

(** The positions of each of the three shapes go round with a turn, whatever the rotation of
    the first of them. *)
Lemma turned_codes (positions : list (Z * Z)) (r : Z) :
  In positions [positions_sides; positions_corners; positions_center] -> 0 <= r < 16 ->
  Permutation (map turn_code (codes positions r)) (codes positions r).
Proof.
  intros I H.
  assert (T : forallb (fun ps => forallb (fun n => permuted (map turn_code (codes ps (Z.of_nat n))) (codes ps (Z.of_nat n))) (seq 0 16))
    [positions_sides; positions_corners; positions_center] = true) by reflexivity.
  rewrite forallb_forall in T. specialize (T positions I). rewrite forallb_forall in T.
  specialize (T (Z.to_nat r) ltac:(apply in_seq; lia)). rewrite Z2Nat.id in T by lia. apply permuted_permutation, T.
Qed.

Section Symmetric.

#[local] Open Scope Qc_scope.

Variables (x y : Qc) (cell : Z).

Definition cell_at (c : code) : Transform Qc :=
  let '(px, py, r) := c in mkTransform (x + Qc_of_Z px * Qc_of_Z cell) (y + Qc_of_Z py * Qc_of_Z cell) (Qc_of_Z cell) r.

Definition icon_cx : Qc := x + Qc_of_Z 2 * Qc_of_Z cell.
Definition icon_cy : Qc := y + Qc_of_Z 2 * Qc_of_Z cell.

Lemma placed_codes positions i r : map snd (placed x y cell positions i r) = map cell_at (codes positions r).
Proof.
  revert i r. induction positions as [|[px py] positions IH]; intros i r; [reflexivity|].
  cbn [placed codes map snd cell_at]. rewrite IH. reflexivity.
Qed.

Lemma Qc_of_Z_sub a b : Qc_of_Z (a - b) = Qc_of_Z a - Qc_of_Z b.
Proof.
  apply Qc_is_canon. unfold Qcminus, Qcplus, Qcopp, Qc_of_Z, Q2Qc. cbn [this]. rewrite !Qred_correct.
  unfold Qeq, Qplus, Qopp, inject_Z. cbn. lia.
Qed.

Lemma turn_cell_at (c : code) : turn_cell icon_cx icon_cy (cell_at c) = cell_at (turn_code c).
Proof.
  destruct c as [[px py] r]. unfold turn_cell, turn_square, icon_cx, icon_cy. cbn [cell_at turn_code t_x t_y t_size t_rotation p_x p_y].
  rewrite Qc_of_Z_sub. change (Qc_of_Z 3) with (1 + 1 + 1). change (Qc_of_Z 2) with (1 + 1). f_equal; ring.
Qed.

(** A shape that does not look at the index of the position. *)
Definition uniform (s : @shape Qc (list (event Qc))) : Prop := forall t c i, drawn s t c i = drawn s t c 0%Z.

Lemma figure_uniform s cells : uniform s -> figure s cell cells = flat_map (fun t => drawn s t (Qc_of_Z cell) 0%Z) (map snd cells).
Proof.
  intros U. unfold figure. rewrite !flat_map_concat_map, map_map. f_equal. apply map_ext. intros [i t]. apply U.
Qed.

Lemma codes_quarter positions r c : (0 <= r)%Z -> In c (codes positions r) -> quarter (cell_at c).
Proof.
  revert r. induction positions as [|[px py] positions IH]; intros r H I; [destruct I|].
  destruct I as [<-|I]; [|apply (IH (r + 1)%Z); [lia|exact I]].
  unfold quarter. cbn [cell_at t_rotation]. apply Z.rem_bound_pos; lia.
Qed.

Lemma figure_symmetric s positions r :
  turns icon_cx icon_cy s -> uniform s ->
  In positions [positions_sides; positions_corners; positions_center] -> (0 <= r < 16)%Z ->
  let drawing := figure s cell (placed x y cell positions 0 r) in
  Permutation (map (turn icon_cx icon_cy) drawing) drawing.
Proof.
  intros T U I H drawing. unfold drawing. rewrite figure_uniform, placed_codes by exact U.
  set (f t := drawn s t (Qc_of_Z cell) 0%Z).
  replace (map (turn icon_cx icon_cy) (flat_map f (map cell_at (codes positions r))))
    with (flat_map f (map cell_at (map turn_code (codes positions r)))).
  - apply Permutation_flat_map, Permutation_map, turned_codes; assumption.
  - rewrite !flat_map_concat_map, concat_map, !map_map. f_equal. apply map_ext_in. intros c K.
    unfold f. rewrite <- turn_cell_at. apply T. eapply codes_quarter; [|exact K]. lia.
Qed.

End Symmetric.

Lemma outer_uniform : Forall uniform shapes_outer.
Proof. repeat constructor. Qed.

(** All but the last of the shapes of the center are uniform ... *)
Lemma center_uniform : Forall uniform (firstn 13 shapes_center).
Proof. cbn [firstn shapes_center]. repeat constructor. Qed.

(** ... and the last is one circle around the center of the icon. *)
Lemma center_circle (x y : Qc) (cell : Z) :
  let drawing := figure (nth 13 shapes_center (fun _ _ g => g)) cell (placed x y cell positions_center 0 0) in
  map (turn (icon_cx x cell) (icon_cy y cell)) drawing = drawing.
Proof.
  intros drawing.
  set (m := (Qc_of_Z cell * Qcdiv (Qc_of_Z 4) (Qc_of_Z 10))%Qc). set (s := (Qc_of_Z cell * Qcdiv (Qc_of_Z 12) (Qc_of_Z 10))%Qc).
  assert (E : drawing = [Circle (mkPoint (x + Qc_of_Z 1 * Qc_of_Z cell + m)%Qc (y + Qc_of_Z 1 * Qc_of_Z cell + m)%Qc) s false]) by reflexivity.
  rewrite E. cbn [map turn]. unfold turn_square, icon_cx, icon_cy. cbn [p_x p_y].
  assert (S : (Qc_of_Z 2 * Qc_of_Z cell = m + m + s)%Qc).
  { unfold m, s. rewrite <- !Qcmult_plus_distr_r, Qcmult_comm. f_equal. apply Qc_is_canon. reflexivity. }
  change (Qc_of_Z 1) with 1%Qc in *. change (Qc_of_Z 2) with (1 + 1)%Qc in *.
  assert (C : s = ((1 + 1) * Qc_of_Z cell - m - m)%Qc) by (rewrite S; ring).
  rewrite C. do 3 f_equal; ring.
Qed.

Lemma rem_range (a n : Z) : 0 <= a -> 0 < n -> (Z.to_nat (Z.rem a n) < Z.to_nat n)%nat.
Proof. intros H L. pose proof (Z.rem_bound_pos a n H L). lia. Qed.

Lemma outer_symmetric hash index x y cell positions r :
  In positions [positions_sides; positions_corners; positions_center] -> 0 <= r < 16 ->
  let drawing := figure (selected_shape hash shapes_outer index) cell (placed x y cell positions 0 r) in
  Permutation (map (turn (icon_cx x cell) (icon_cy y cell)) drawing) drawing.
Proof.
  intros I H. pose proof (rem_range (digit_at hash index) 4 (proj1 (digit_at_range hash index)) ltac:(lia)) as L.
  assert (K : In (selected_shape hash shapes_outer index) shapes_outer) by apply nth_In, L.
  apply figure_symmetric; [| |exact I|exact H].
  - apply (proj1 (Forall_forall _ _) (outer_turns _ _)), K.
  - apply (proj1 (Forall_forall _ _) outer_uniform), K.
Qed.

Lemma center_symmetric hash index x y cell :
  let drawing := figure (selected_shape hash shapes_center index) cell (placed x y cell positions_center 0 0) in
  Permutation (map (turn (icon_cx x cell) (icon_cy y cell)) drawing) drawing.
Proof.
  pose proof (rem_range (digit_at hash index) 14 (proj1 (digit_at_range hash index)) ltac:(lia)) as L.
  unfold selected_shape. change (zlen shapes_center) with 14. set (i := Z.to_nat _) in *.
  assert (K : (i < 13 \/ i = 13)%nat) by lia. destruct K as [K| ->].
  2: { cbv zeta. rewrite center_circle. reflexivity. }
  apply figure_symmetric; [| |cbn; auto|lia].
  - apply (proj1 (Forall_forall _ _) (center_turns _ _)), nth_In. exact L.
  - rewrite <- (firstn_skipn 13 shapes_center), app_nth1 by (cbn; lia).
    apply (proj1 (Forall_forall _ _) center_uniform), nth_In. exact K.
Qed.

(** C25: An icon looks the same after a quarter turn.  Computed without rounding, each of the
    three shapes that [iconGenerator] draws is, as a collection of polygons and circles, equal
    to itself turned by 90 degrees around the center of the icon, for every hash, every
    position, size and padding. *)
Theorem icon_symmetric (hash : list Z) (x y size : Qc) (padding : option Qc) (c : config) (events : list (event Qc)) :
  iconGenerator ([] : list (event Qc)) hash x y size padding c = inl events ->
  exists shapes,
    events = events_of shapes /\ List.length shapes = 3%nat /\
    Forall (fun shape =>
      Permutation
        (map (turn (icon_cx (x + offset_of size padding)%Qc (cell_of size padding))
                   (icon_cy (y + offset_of size padding)%Qc (cell_of size padding))) (snd shape))
        (snd shape)) shapes.
Proof.
  rewrite iconGenerator_picture. destruct (ltb _ _); [discriminate|]. destruct (valid_hash hash); [|discriminate].
  intros [= <-]. exists (picture size padding hash x y c). split; [reflexivity|]. split; [reflexivity|].
  unfold picture. cbv zeta. constructor; [|constructor; [|constructor; [|constructor]]]; cbn [snd].
  - apply (outer_symmetric hash 2); [cbn; auto|apply digit_at_range].
  - apply (outer_symmetric hash 4); [cbn; auto|apply digit_at_range].
  - apply (center_symmetric hash 1).
Qed.

(** An MD5 sum as the page passes it. *)
Definition sample_hash : list Z := js "d41d8cd98f00b204e9800998ecf8427e".

Lemma sample_generated :
  iconGenerator ([] : list (event Qc)) sample_hash (of_Z 0) (of_Z 0) (of_Z 80) None (getCurrentConfig no_config) =
  inl (events_of (picture (of_Z 80) None sample_hash (of_Z 0) (of_Z 0) (getCurrentConfig no_config))).
Proof.
  rewrite iconGenerator_picture.
  replace (ltb (inner_size (of_Z 80) None) (of_Z 30 : Qc)) with false by (vm_compute; reflexivity).
  replace (valid_hash sample_hash) with true by (vm_compute; reflexivity). reflexivity.
Qed.

Lemma icon_symmetric_witness :
  exists shapes,
    events_of (picture (of_Z 80) None sample_hash (of_Z 0) (of_Z 0) (getCurrentConfig no_config)) = events_of shapes /\
    List.length shapes = 3%nat /\
    Forall (fun shape =>
      Permutation
        (map (turn (icon_cx (of_Z 0 + offset_of (of_Z 80) None)%Qc (cell_of (of_Z 80) None))
                   (icon_cy (of_Z 0 + offset_of (of_Z 80) None)%Qc (cell_of (of_Z 80) None))) (snd shape))
        (snd shape)) shapes.
Proof. refine (@icon_symmetric _ _ _ _ _ _ _ sample_generated). Defined.

(** ** Errors *)

Section Errors.

Context {A R : Type} {N : Num A} {RR : Renderer A R}.

Lemma iconGenerator_cases (renderer : R) (hash : list Z) (x y size : A) (padding : option A) (c : config) :
  iconGenerator renderer hash x y size padding c =
  if ltb (inner_size size padding) (of_Z 30) then inr TooSmall
  else if valid_hash hash then inl (replay (events_of (picture size padding hash x y c)) renderer)
  else inr InvalidHash.
Proof.
  rewrite iconGenerator_replayed, iconGenerator_picture.
  destruct (ltb _ _); [reflexivity|]. destruct (valid_hash hash); reflexivity.
Qed.

End Errors.

(** C29: The errors of the generator, whatever the renderer: an icon of less than 30 pixels
    between its padding is refused first, then a hash that is not 11 or more hexadecimal
    digits; with both in order an icon is drawn.  [drawIcon] refuses a missing context; when
    the generator throws, the canvas has been cleared and nothing drawn, and [toSvg] throws
    the same error. *)
Theorem icon_errors {A R : Type} {N : Num A} {RR : Renderer A R} (show : A -> list Z) (renderer : R) (hash : list Z) (x y size : A)
    (padding : option A) (c : config) (o : configObject) (ctx : canvas) :
  let small := ltb (inner_size size padding) (of_Z 30) in
  (iconGenerator renderer hash x y size padding c = inr TooSmall <-> small = true) /\
  (iconGenerator renderer hash x y size padding c = inr InvalidHash <-> small = false /\ valid_hash hash = false) /\
  ((exists r, iconGenerator renderer hash x y size padding c = inl r) <-> small = false /\ valid_hash hash = true) /\
  (valid_hash hash = true <-> 11 <= zlen hash /\ Forall (fun d => is_hex d = true) hash) /\
  drawIcon o None hash size = (None, Some NoCanvas) /\
  (forall e, snd (drawIcon o (Some ctx) hash size) = Some e <-> toSvg show o hash size (Some (of_Z 0)) = inr e) /\
  (forall e, snd (drawIcon o (Some ctx) hash size) = Some e ->
    fst (drawIcon o (Some ctx) hash size) = Some (ctx ++ [ClearRect (of_Z 0) (of_Z 0) size size])).
Proof.
  unfold drawIcon, toSvg. rewrite !iconGenerator_cases. cbv zeta.
  assert (V : valid_hash hash = true <-> 11 <= zlen hash /\ Forall (fun d => is_hex d = true) hash).
  { unfold valid_hash. rewrite andb_true_iff, forallb_forall, Forall_forall, Z.leb_le. tauto. }
  destruct (ltb (inner_size size padding) _), (ltb (inner_size size (Some (of_Z 0))) _), (valid_hash hash); cbn [fst snd];
    splits; try exact V; intros; try reflexivity;
    try (split; intros; split_hyps; auto; try discriminate; try congruence; eauto); try congruence.
Qed.

(** ** Canvas and SVG *)

Section Outputs.

Context {A : Type} {N : Num A}.

(** The calls that draw a primitive, and those that draw a shape. *)
Definition canvas_primitive (p : primitive A) : list command :=
  match p with
  | Polygon (p :: points) => MoveTo (p_x p) (p_y p) :: map line_to points ++ [ClosePath]
  | Polygon [] => []
  | Circle p d ccw =>
      let radius := div d (of_Z 2) in
      [Arc (add (p_x p) radius) (add (p_y p) radius) radius ccw; ClosePath]
  end.

Definition canvas_shape (shape : list Z * list (primitive A)) : list command :=
  FillStyle (fst shape) :: BeginPath :: flat_map canvas_primitive (snd shape) ++ [Fill].

Lemma replay_cons {R} `{Renderer A R} (e : event A) (l : list (event A)) (r : R) : replay (e :: l) r = replay l (replay_event r e).
Proof. reflexivity. Qed.

Lemma replay_canvas_primitives (ps : list (primitive A)) (ctx : canvas) : replay (map Draw ps) ctx = ctx ++ flat_map canvas_primitive ps.
Proof.
  revert ctx. induction ps as [|p ps IH]; intros ctx; [cbn; rewrite app_nil_r; reflexivity|].
  cbn [map flat_map]. rewrite replay_cons, IH, app_assoc. f_equal. destruct p as [[|p points]|]; cbn; rewrite ?app_nil_r; reflexivity.
Qed.

Lemma replay_canvas (shapes : list (list Z * list (primitive A))) (ctx : canvas) :
  replay (events_of shapes) ctx = ctx ++ flat_map canvas_shape shapes.
Proof.
  revert ctx. induction shapes as [|[color ps] shapes IH]; intros ctx; [cbn; rewrite app_nil_r; reflexivity|].
  unfold events_of in *. cbn [flat_map fst snd]. rewrite replay_app, IH, app_assoc. f_equal.
  unfold block, canvas_shape. cbn [fst snd]. change (Begin color :: map Draw ps ++ [End]) with ([Begin color] ++ map Draw ps ++ [End]).
  rewrite !replay_app, replay_canvas_primitives. cbn. rewrite <- !app_assoc. reflexivity.
Qed.

Variable show : A -> list Z.

Definition svg_primitive (p : primitive A) : list Z :=
  match p with
  | Polygon points => path_addPolygon show points []
  | Circle p d ccw => path_addCircle show p d ccw []
  end.

(** The paths after a shape more: its data goes behind that of the same color. *)
Definition add_shape (paths : list (list Z * list Z)) (shape : list Z * list (primitive A)) : list (list Z * list Z) :=
  let '(color, ps) := shape in
  update_path color (fun d => d ++ flat_map svg_primitive ps) (if has_path color paths then paths else paths ++ [(color, [])]).

Definition svg_paths (shapes : list (list Z * list (primitive A))) : list (list Z * list Z) := fold_left add_shape shapes [].

Lemma update_path_ext (color : list Z) (f g : list Z -> list Z) (l : list (list Z * list Z)) :
  (forall d, f d = g d) -> update_path color f l = update_path color g l.
Proof. intros E. induction l as [|[c d] l IH]; [reflexivity|]. cbn. destruct (str_eqb c color); rewrite ?E, ?IH; reflexivity. Qed.

Lemma update_path_compose (color : list Z) (f g : list Z -> list Z) (l : list (list Z * list Z)) :
  update_path color g (update_path color f l) = update_path color (fun d => g (f d)) l.
Proof.
  induction l as [|[c d] l IH]; [reflexivity|]. cbn. destruct (str_eqb c color) eqn:E; cbn; rewrite E, ?IH; reflexivity.
Qed.

Lemma update_path_id (color : list Z) (l : list (list Z * list Z)) : update_path color (fun d => d) l = l.
Proof. induction l as [|[c d] l IH]; [reflexivity|]. cbn. destruct (str_eqb c color); rewrite ?IH; reflexivity. Qed.

#[local] Instance Svg : Renderer A (@SvgRenderer A) := SvgRenderer_Renderer show.

Lemma replay_event_svg (r : @SvgRenderer A) (p : primitive A) : replay_event r (Draw p) = svg_path (fun d => d ++ svg_primitive p) r.
Proof.
  destruct p as [[|p points]|p d ccw]; cbn; unfold svg_path; f_equal; apply update_path_ext; intros s; cbn [path_addPolygon];
    rewrite ?app_nil_r; reflexivity.
Qed.

Lemma replay_svg_primitives (ps : list (primitive A)) (r : @SvgRenderer A) :
  replay (map Draw ps) r = svg_path (fun d => d ++ flat_map svg_primitive ps) r.
Proof.
  revert r. induction ps as [|p ps IH]; intros r.
  - unfold svg_path. rewrite (update_path_ext _ _ (fun d => d)), update_path_id by (intros; apply app_nil_r). destruct r; reflexivity.
  - cbn [map flat_map]. rewrite replay_cons, IH, replay_event_svg. unfold svg_path. cbn [pathsByColor current svg_w svg_h].
    rewrite update_path_compose. f_equal. apply update_path_ext. intros d. rewrite app_assoc. reflexivity.
Qed.

Lemma replay_svg (shapes : list (list Z * list (primitive A))) (r : @SvgRenderer A) :
  pathsByColor (replay (events_of shapes) r) = fold_left add_shape shapes (pathsByColor r) /\
  svg_w (replay (events_of shapes) r) = svg_w r /\ svg_h (replay (events_of shapes) r) = svg_h r.
Proof.
  revert r. induction shapes as [|[color ps] shapes IH]; intros r; [auto|].
  unfold events_of in *. cbn [flat_map fst snd fold_left]. rewrite replay_app.
  assert (E : replay (block color ps) r = svg_path (fun d => d ++ flat_map svg_primitive ps) (svg_beginShape color r)).
  { unfold block. rewrite replay_cons, replay_app, replay_svg_primitives. reflexivity. }
  rewrite E. destruct (IH (svg_path (fun d => d ++ flat_map svg_primitive ps) (svg_beginShape color r))) as (Ep & Ew & Eh).
  rewrite Ep, Ew, Eh. auto.
Qed.

(** The text of an SVG file with these paths. *)
Definition svg_text (width height : A) (paths : list (list Z * list Z)) : list Z :=
  svg_open show (mkSvg [] [] width height) ++ flat_map svg_element paths ++ js "</svg>".

Lemma renderer_toSvg_text (r : @SvgRenderer A) : renderer_toSvg show false r = svg_text (svg_w r) (svg_h r) (pathsByColor r).
Proof. reflexivity. Qed.

Lemma toSvg_text o hash size padding :
  toSvg show o hash size padding =
  if ltb (inner_size size padding) (of_Z 30) then inr TooSmall
  else if valid_hash hash
  then inl (svg_text size size (svg_paths (picture size padding hash (of_Z 0) (of_Z 0) (getCurrentConfig o))))
  else inr InvalidHash.
Proof.
  unfold toSvg. rewrite iconGenerator_cases. destruct (ltb _ _); [reflexivity|]. destruct (valid_hash hash); [|reflexivity].
  rewrite renderer_toSvg_text. destruct (replay_svg (picture size padding hash (of_Z 0) (of_Z 0) (getCurrentConfig o)) (new_SvgRenderer size size)) as (Ep & Ew & Eh).
  unfold Svg in *. rewrite Ep, Ew, Eh. reflexivity.
Qed.

End Outputs.

(** C26: [drawIcon] and [toSvg] render one picture.  An icon drawn on a canvas is a clearing of
    the square followed by three shapes, each its fill style, a new path, its outlines (move,
    lines, close; arc, close) and one fill; with no padding [toSvg] gives the SVG file whose
    paths carry the same three lists of outlines.  Every polygon has three points or more and
    every color is # and six hexadecimal digits. *)
Theorem canvas_svg_agree {A : Type} {N : Num A} (show : A -> list Z) (o : configObject) (ctx ctx' : canvas) (hash : list Z) (size : A) :
  drawIcon o (Some ctx) hash size = (Some ctx', None) ->
  exists shapes,
    List.length shapes = 3%nat /\
    Forall (fun shape => is_color (fst shape) = true /\ Forall well_formed (snd shape)) shapes /\
    ctx' = ctx ++ ClearRect (of_Z 0) (of_Z 0) size size :: flat_map canvas_shape shapes /\
    toSvg show o hash size (Some (of_Z 0)) = inl (svg_text show size size (svg_paths show shapes)).
Proof.
  unfold drawIcon. rewrite iconGenerator_cases, toSvg_text.
  destruct (ltb _ _); [discriminate|]. destruct (valid_hash hash); [|discriminate].
  pose proof (picture_well_formed size (Some (of_Z 0)) hash (of_Z 0) (of_Z 0) (getCurrentConfig o)) as W.
  assert (L : List.length (picture size (Some (of_Z 0)) hash (of_Z 0) (of_Z 0) (getCurrentConfig o)) = 3%nat) by reflexivity.
  revert W L. generalize (picture size (Some (of_Z 0)) hash (of_Z 0) (of_Z 0) (getCurrentConfig o)). intros shapes W L E.
  exists shapes. split; [exact L|]. split; [exact W|]. split; [|reflexivity].
  rewrite replay_canvas in E. injection E as <-. unfold new_CanvasRenderer. rewrite <- app_assoc. reflexivity.
Qed.

Definition sample_drawing : option (@canvas F64.t) * option error := drawIcon no_config (Some []) sample_hash (F64.of_Z 80).

Lemma canvas_svg_agree_witness :
  exists ctx', sample_drawing = (Some ctx', None) /\
  exists shapes,
    List.length shapes = 3%nat /\
    Forall (fun shape => is_color (fst shape) = true /\ Forall well_formed (snd shape)) shapes /\
    ctx' = [] ++ ClearRect (of_Z 0) (of_Z 0) (F64.of_Z 80) (F64.of_Z 80) :: flat_map canvas_shape shapes /\
    toSvg F64.show no_config sample_hash (F64.of_Z 80) (Some (of_Z 0)) = inl (svg_text F64.show (F64.of_Z 80) (F64.of_Z 80) (svg_paths F64.show shapes)).
Proof.
  assert (E : snd sample_drawing = None) by (vm_compute; reflexivity).
  unfold sample_drawing in *. destruct (drawIcon no_config (Some []) sample_hash (F64.of_Z 80)) as [[ctx'|] e] eqn:D.
  - cbn in E. subst e. exists ctx'. split; [reflexivity|]. refine (@canvas_svg_agree _ _ F64.show _ _ _ _ _ D).
  - exfalso. unfold drawIcon in D. destruct (iconGenerator _ _ _ _ _ _ _); discriminate D.
Defined.

(** ** The text of an SVG file *)

(** A character that may stand in the value of an attribute. *)
Definition attribute_char (c : Z) : bool := negb (existsb (Z.eqb c) [34; 38; 60; 62]).

Lemma digits_from_safe (fuel : nat) (n : Z) (acc : list Z) :
  forallb attribute_char acc = true -> forallb attribute_char (F64.digits_from fuel n acc) = true.
Proof.
  revert n acc. induction fuel as [|fuel IH]; intros n acc H; [exact H|]. cbn [F64.digits_from].
  assert (D : attribute_char (48 + n mod 10) = true).
  { pose proof (Z.mod_pos_bound n 10 eq_refl). unfold attribute_char. cbn [existsb].
    repeat match goal with |- context [?a =? ?b] => replace (a =? b) with false by (symmetry; apply Z.eqb_neq; lia) end. reflexivity. }
  destruct (n <? 10); [|apply IH]; cbn [forallb]; rewrite D, H; reflexivity.
Qed.

Lemma digits_safe (n : Z) : forallb attribute_char (F64.digits n) = true.
Proof. apply digits_from_safe. reflexivity. Qed.

Lemma firstn_safe (n : nat) (l : list Z) : forallb attribute_char l = true -> forallb attribute_char (firstn n l) = true.
Proof. rewrite !forallb_forall. intros H x I. apply H. rewrite <- (firstn_skipn n l). apply in_or_app. auto. Qed.

Lemma skipn_safe (n : nat) (l : list Z) : forallb attribute_char l = true -> forallb attribute_char (skipn n l) = true.
Proof. rewrite !forallb_forall. intros H x I. apply H. rewrite <- (firstn_skipn n l). apply in_or_app. auto. Qed.

Lemma zeros_safe (n : nat) : forallb attribute_char (repeat 48 n) = true.
Proof. induction n; [reflexivity|assumption]. Qed.

#[local] Hint Resolve digits_safe firstn_safe skipn_safe zeros_safe : core.

Ltac safe := rewrite ?forallb_app; repeat (apply andb_true_iff; split); auto.

Lemma show_positive_safe (x : F64.t) (num den : Z) : forallb attribute_char (F64.show_positive x num den) = true.
Proof.
  unfold F64.show_positive. destruct (F64.shortest _ _ _ _ _ _) as [[s k] n].
  destruct (_ && _); [safe|]. destruct (_ && _); [safe|]. destruct (_ && _); [safe|].
  cbv zeta. destruct (k =? 1), (0 <? n - 1); safe.
Qed.

Lemma show_safe (x : F64.t) : forallb attribute_char (F64.show x) = true.
Proof.
  destruct x as [s|[]| |[] m e]; try reflexivity; unfold F64.show; safe; apply show_positive_safe.
Qed.

Section Paths.

Context {A : Type} {N : Num A}.
Variable show : A -> list Z.
Hypothesis show_ok : forall x, forallb attribute_char (show x) = true.

Lemma svg_primitive_safe (p : primitive A) : forallb attribute_char (svg_primitive show p) = true.
Proof.
  destruct p as [[|p points]|p d ccw]; [reflexivity| |].
  - cbn [svg_primitive path_addPolygon]. unfold svg_point at 1. safe. rewrite flat_map_concat_map.
    induction points as [|q points IH]; [reflexivity|]. cbn [map concat]. unfold svg_point at 1. safe.
  - cbn [svg_primitive]. unfold path_addCircle. cbv zeta. destruct ccw; safe.
Qed.

Lemma flat_map_safe {X} (f : X -> list Z) (l : list X) :
  (forall x, forallb attribute_char (f x) = true) -> forallb attribute_char (flat_map f l) = true.
Proof. intros H. induction l as [|x l IH]; [reflexivity|]. cbn. safe. Qed.

(** The data of a color among the paths. *)
Fixpoint data_of (color : list Z) (paths : list (list Z * list Z)) : list Z :=
  match paths with
  | [] => []
  | (c, d) :: paths => if str_eqb c color then d else data_of color paths
  end.

Lemma has_path_in (color : list Z) (l : list (list Z * list Z)) : has_path color l = true <-> In color (map fst l).
Proof.
  induction l as [|[c d] l IH]; cbn; [split; [discriminate|tauto]|].
  rewrite orb_true_iff, IH, str_eqb_eq. reflexivity.
Qed.

Lemma update_path_keys (color : list Z) f (l : list (list Z * list Z)) : map fst (update_path color f l) = map fst l.
Proof. induction l as [|[c d] l IH]; [reflexivity|]. cbn. destruct (str_eqb c color); cbn; rewrite ?IH; reflexivity. Qed.

Lemma data_of_update (color k : list Z) f (l : list (list Z * list Z)) :
  has_path color l = true -> data_of k (update_path color f l) = if str_eqb color k then f (data_of k l) else data_of k l.
Proof.
  induction l as [|[c d] l IH]; [discriminate|]. cbn [has_path update_path data_of]. intros H.
  destruct (str_eqb c color) eqn:E; cbn [data_of].
  - apply str_eqb_eq in E. subst c. destruct (str_eqb color k); reflexivity.
  - cbn [orb] in H. rewrite (IH H). destruct (str_eqb c k) eqn:F; [|reflexivity].
    apply str_eqb_eq in F. subst k. destruct (str_eqb color c) eqn:G; [|reflexivity].
    apply str_eqb_eq in G. subst c. rewrite str_eqb_refl in E. discriminate.
Qed.

Lemma data_of_new (color k : list Z) (l : list (list Z * list Z)) : data_of k (l ++ [(color, [])]) = data_of k l.
Proof.
  induction l as [|[c d] l IH]; cbn; [destruct (str_eqb color k); reflexivity|]. destruct (str_eqb c k); auto.
Qed.

(** What a list of paths must be. *)
Record paths_ok (paths : list (list Z * list Z)) (shapes : list (list Z * list (primitive A))) : Prop := {
  ok_distinct : NoDup (map fst paths);
  ok_colors : forall color, In color (map fst paths) <-> In color (map fst shapes);
  ok_data : forall color, data_of color paths = flat_map (fun shape => if str_eqb (fst shape) color then flat_map (svg_primitive show) (snd shape) else []) shapes
}.

Lemma add_shape_ok paths shapes shape : paths_ok paths shapes -> paths_ok (add_shape show paths shape) (shapes ++ [shape]).
Proof.
  intros [D C K]. destruct shape as [color ps]. unfold add_shape.
  assert (H : exists l, (if has_path color paths then paths else paths ++ [(color, [])]) = l /\
    has_path color l = true /\ NoDup (map fst l) /\ (forall c, In c (map fst l) <-> In c (map fst paths) \/ c = color) /\ (forall c, data_of c l = data_of c paths)).
  { destruct (has_path color paths) eqn:E.
    - exists paths. repeat split; auto. intros [I| ->]; [exact I|]. apply has_path_in, E.
    - exists (paths ++ [(color, [])]). split; [reflexivity|]. rewrite map_app. cbn [map fst].
      split; [apply has_path_in; rewrite map_app; apply in_or_app; cbn; auto|].
      split; [|split; [|intros c; apply data_of_new]].
      + apply NoDup_app; [exact D|repeat constructor; cbn; tauto|].
        intros c I [<-|[]]. apply has_path_in in I. congruence.
      + intros c. rewrite in_app_iff. cbn. intuition congruence. }
  destruct H as (l & -> & Hp & Hd & Hc & Hk). constructor.
  - rewrite update_path_keys. exact Hd.
  - intros c. rewrite update_path_keys, Hc, C, map_app, in_app_iff. cbn. intuition congruence.
  - intros c. rewrite data_of_update, Hk, K, flat_map_app by exact Hp. cbn [flat_map fst snd]. rewrite app_nil_r.
    destruct (str_eqb color c); [reflexivity|]. rewrite app_nil_r. reflexivity.
Qed.

Lemma add_shapes_ok done paths shapes : paths_ok paths done -> paths_ok (fold_left (add_shape show) shapes paths) (done ++ shapes).
Proof.
  revert done paths. induction shapes as [|shape shapes IH]; intros done paths H; [rewrite app_nil_r; exact H|].
  cbn [fold_left]. change (shape :: shapes) with ([shape] ++ shapes). rewrite app_assoc. apply IH, add_shape_ok, H.
Qed.

Lemma svg_paths_ok shapes : paths_ok (svg_paths show shapes) shapes.
Proof. apply (add_shapes_ok [] []). constructor; [constructor|reflexivity|reflexivity]. Qed.

Lemma data_safe paths shapes color : paths_ok paths shapes -> forallb attribute_char (data_of color paths) = true.
Proof.
  intros [_ _ K]. rewrite K. apply flat_map_safe. intros shape. destruct (str_eqb _ _); [|reflexivity].
  apply flat_map_safe, svg_primitive_safe.
Qed.

Lemma data_of_in paths color d : NoDup (map fst paths) -> In (color, d) paths -> data_of color paths = d.
Proof.
  induction paths as [|[c e] paths IH]; [intros _ []|]. cbn. intros D [[= -> ->]|I]; [rewrite str_eqb_refl; reflexivity|].
  inversion D as [|? ? N1 N2]; subst. destruct (str_eqb c color) eqn:E; [|auto].
  apply str_eqb_eq in E. subst c. destruct N1. apply (in_map fst) in I. exact I.
Qed.

End Paths.

(** C27: The SVG file of an icon has one path for each color that occurs, no color twice, and
    the data of a path is that of all shapes of its color, in their order.  Colors are # and
    six hexadecimal digits and the data has no quote, ampersand or angle bracket, so nothing
    in the hash or in the numbers can end an attribute or an element of the file. *)
Theorem svg_file_paths (o : configObject) (hash : list Z) (size : F64.t) (padding : option F64.t) (text : list Z) :
  toSvg F64.show o hash size padding = inl text ->
  exists shapes paths,
    iconGenerator ([] : list (event F64.t)) hash (of_Z 0) (of_Z 0) size padding (getCurrentConfig o) = inl (events_of shapes) /\
    text = svg_text F64.show size size paths /\
    NoDup (map fst paths) /\
    (forall color, In color (map fst paths) <-> In color (map fst shapes)) /\
    Forall (fun path =>
      is_color (fst path) = true /\ forallb attribute_char (snd path) = true /\
      snd path = flat_map (fun shape => if str_eqb (fst shape) (fst path) then flat_map (svg_primitive F64.show) (snd shape) else []) shapes) paths.
Proof.
  rewrite toSvg_text, iconGenerator_picture. destruct (ltb _ _); [discriminate|]. destruct (valid_hash hash); [|discriminate].
  pose proof (picture_well_formed size padding hash (of_Z 0) (of_Z 0) (getCurrentConfig o)) as W. revert W.
  generalize (picture size padding hash (of_Z 0) (of_Z 0) (getCurrentConfig o)). intros shapes W [= <-].
  pose proof (svg_paths_ok F64.show shapes) as P.
  exists shapes, (svg_paths F64.show shapes). split; [reflexivity|]. split; [reflexivity|].
  split; [apply P|]. split; [apply P|]. apply Forall_forall. intros [color d] I. cbn [fst snd].
  pose proof (data_of_in _ _ _ (ok_distinct _ _ _ P) I) as E. split; [|split].
  - assert (J : In color (map fst shapes)) by (apply P; apply (in_map fst) in I; exact I).
    apply in_map_iff in J as (shape & <- & J). apply (proj1 (Forall_forall _ _) W _ J).
  - rewrite <- E. apply (data_safe _ show_safe _ _ _ P).
  - rewrite <- E. apply P.
Qed.

Lemma svg_file_paths_witness :
  exists text, toSvg F64.show no_config sample_hash (F64.of_Z 80) None = inl text /\
  exists shapes paths,
    iconGenerator ([] : list (event F64.t)) sample_hash (of_Z 0) (of_Z 0) (F64.of_Z 80) None (getCurrentConfig no_config) = inl (events_of shapes) /\
    text = svg_text F64.show (F64.of_Z 80) (F64.of_Z 80) paths /\
    NoDup (map fst paths) /\
    (forall color, In color (map fst paths) <-> In color (map fst shapes)) /\
    Forall (fun path =>
      is_color (fst path) = true /\ forallb attribute_char (snd path) = true /\
      snd path = flat_map (fun shape => if str_eqb (fst shape) (fst path) then flat_map (svg_primitive F64.show) (snd shape) else []) shapes) paths.
Proof.
  destruct (toSvg F64.show no_config sample_hash (F64.of_Z 80) None) as [text|e] eqn:E.
  - exists text. split; [reflexivity|]. refine (@svg_file_paths _ _ _ _ _ E).
  - exfalso. assert (K : match toSvg F64.show no_config sample_hash (F64.of_Z 80) None with inl _ => true | inr _ => false end = true) by (vm_compute; reflexivity).
    rewrite E in K. discriminate K.
Defined.
