(* ===== verification/Value.v ===== *)
(** * Values

    The values of JavaScript that the pages hand to the scripts as data: comparison, truth and
    conversion to numbers, and the functions on strings that the scripts use.  Numbers are
    those of Num.v; conversion to lower and upper case, for which the standard refers to the
    Unicode tables, is a parameter where it is used. *)

From Stdlib Require Import String ZArith Lia List Bool.
From S2P Require Import Prelude Js Num.
Import ListNotations.
#[local] Open Scope Z_scope.

(** ** Strings *)

(** [String.prototype.trim], and [$.trim] *)
Definition trim (s : list Z) : list Z := rev (drop_spaces (rev (drop_spaces s))).

(** [s.split(c)] of one character *)
Fixpoint split_on (c : Z) (s : list Z) : list (list Z) :=
  match s with
  | [] => [[]]
  | d :: s =>
      match split_on c s with
      | w :: ws => if d =? c then [] :: w :: ws else (d :: w) :: ws
      | [] => [[d]]
      end
  end.

Fixpoint starts_with (s t : list Z) : bool :=
  match s, t with
  | [], _ => true
  | x :: s, y :: t => (x =? y) && starts_with s t
  | _ :: _, [] => false
  end.

(** [t.indexOf(s) >= 0] *)
Fixpoint contains (s t : list Z) : bool :=
  starts_with s t || match t with [] => false | _ :: t => contains s t end.

(** [s < t] of strings: by their code units *)
Fixpoint str_ltb (s t : list Z) : bool :=
  match s, t with
  | _, [] => false
  | [], _ :: _ => true
  | x :: s, y :: t => (x <? y) || ((x =? y) && str_ltb s t)
  end.

(** ** Numbers in strings *)

Definition is_digit (c : Z) : bool := (48 <=? c) && (c <=? 57).

(** The value of the digits in front after [acc], their number and the rest. *)
Fixpoint take_digits (s : list Z) (acc n : Z) : Z * Z * list Z :=
  match s with
  | c :: s' => if is_digit c then take_digits s' (10 * acc + (c - 48)) (n + 1) else (acc, n, s)
  | [] => (acc, n, [])
  end.

Definition take_sign (s : list Z) : bool * list Z :=
  match s with
  | c :: s' => if c =? 45 then (true, s') else if c =? 43 then (false, s') else (false, s)
  | [] => (false, s)
  end.

Definition take_exponent (s : list Z) : Z * list Z :=
  match s with
  | c :: s' =>
      if (c =? 101) || (c =? 69) then
        let '(neg, s'') := take_sign s' in
        let '(e, n, rest) := take_digits s'' 0 0 in
        if n =? 0 then (0, s) else (if neg then - e else e, rest)
      else (0, s)
  | [] => (0, s)
  end.

(** The decimal literal in front: its digits, its power of ten and the rest. *)
Definition take_decimal (s : list Z) : option (Z * Z * list Z) :=
  let '(i, ni, r) := take_digits s 0 0 in
  let '(m, nf, r) :=
    match r with
    | c :: r' => if c =? 46 then take_digits r' i 0 else (i, 0, r)
    | [] => (i, 0, r)
    end in
  if ni + nf =? 0 then None
  else let '(e, r) := take_exponent r in Some (m, e - nf, r).

Section Values.

Context {A : Type} {N : Num A}.

Definition NaN : A := div (of_Z 0) (of_Z 0).
Definition Infinity : A := div (of_Z 1) (of_Z 0).
Definition isNaN (x : A) : bool := negb (eqb x x).

(** [m * 10 ^ p] *)
Definition of_power (m p : Z) : A := if 0 <=? p then of_Z (m * 10 ^ p) else dec m (- p).

(** The number in front of a string without spaces in front, and the rest. *)
Definition take_number (s : list Z) : option (A * list Z) :=
  let '(neg, s) := take_sign s in
  let signed x := if neg then sub (of_Z 0) x else x in
  if starts_with (js "Infinity") s then Some (signed Infinity, skipn 8 s)
  else match take_decimal s with
       | Some (m, p, rest) => Some (signed (of_power m p), rest)
       | None => None
       end.

Definition parseFloat (s : list Z) : A := match take_number (drop_spaces s) with Some (x, _) => x | None => NaN end.

(** [Number(s)] of a string *)
Definition string_to_number (s : list Z) : A :=
  match trim s with
  | [] => of_Z 0
  | [c; x] => match take_number [c; x] with Some (v, []) => v | _ => NaN end
  | c :: x :: h =>
      if (c =? 48) && ((x =? 120) || (x =? 88)) then
        if forallb (fun d => match hex_value d with Some _ => true | None => false end) h
        then match hex_prefix h None with Some v => of_Z v | None => NaN end
        else NaN
      else match take_number (c :: x :: h) with Some (v, []) => v | _ => NaN end
  | s => match take_number s with Some (v, []) => v | _ => NaN end
  end.

(** ** Values *)

Inductive value : Type := Undefined | Null | Boolean (b : bool) | Number (x : A) | Text (s : list Z).

(** [if (v)] *)
Definition truthy (v : value) : bool :=
  match v with
  | Undefined | Null => false
  | Boolean b => b
  | Number x => negb (eqb x (of_Z 0)) && negb (isNaN x)
  | Text s => match s with [] => false | _ => true end
  end.

Definition to_number (v : value) : A :=
  match v with
  | Undefined => NaN
  | Null => of_Z 0
  | Boolean b => of_Z (if b then 1 else 0)
  | Number x => x
  | Text s => string_to_number s
  end.

(** [a === b] *)
Definition strict_eq (a b : value) : bool :=
  match a, b with
  | Undefined, Undefined | Null, Null => true
  | Boolean a, Boolean b => Bool.eqb a b
  | Number a, Number b => eqb a b
  | Text a, Text b => str_eqb a b
  | _, _ => false
  end.

(** [a < b] *)
Definition less (a b : value) : bool :=
  match a, b with
  | Text a, Text b => str_ltb a b
  | _, _ => ltb (to_number a) (to_number b)
  end.

Section Show.

Variable show : A -> list Z.

(** [String(v)] *)
Definition to_string (v : value) : list Z :=
  match v with
  | Undefined => js "undefined"
  | Null => js "null"
  | Boolean b => if b then js "true" else js "false"
  | Number x => show x
  | Text s => s
  end.

End Show.

End Values.

Arguments value : clear implicits.

Example parse_price : F64.show (parseFloat (js " -12.50 ALIAS")) = js "-12.5".
Proof. vm_compute. reflexivity. Qed.

Example parse_exponent : F64.show (string_to_number (js "25e-2")) = js "0.25".
Proof. vm_compute. reflexivity. Qed.

Example split_words : split_on 32 (js "a bc ") = [js "a"; js "bc"; []].
Proof. reflexivity. Qed.

(** ** The order of strings *)

Lemma str_ltb_irrefl (s : list Z) : str_ltb s s = false.
Proof. induction s as [|x s IH]; [reflexivity|]. cbn. rewrite Z.ltb_irrefl, Z.eqb_refl, IH. reflexivity. Qed.

Lemma str_ltb_trans (s t u : list Z) : str_ltb s t = true -> str_ltb t u = true -> str_ltb s u = true.
Proof.
  revert t u. induction s as [|x s IH]; intros [|y t] [|z u] H K; try discriminate; try reflexivity. cbn in *.
  apply orb_true_iff in H. apply orb_true_iff in K. apply orb_true_iff.
  destruct H as [H|H], K as [K|K]; zbool; subst; try (left; apply Z.ltb_lt; lia).
  right. rewrite Z.eqb_refl. eapply IH; eassumption.
Qed.

Lemma str_ltb_total (s t : list Z) : str_ltb s t = false -> str_ltb t s = false -> s = t.
Proof.
  revert t. induction s as [|x s IH]; intros [|y t] H K; try discriminate; [reflexivity|]. cbn in *.
  apply orb_false_iff in H as [H H'], K as [K K']. apply Z.ltb_ge in H, K. assert (x = y) by lia. subst.
  rewrite Z.eqb_refl in *. f_equal. apply IH; assumption.
Qed.

(** ** Numbers written in digits *)

Definition digits_number (l : list Z) : Z := fold_left (fun a c => 10 * a + (c - 48)) l 0.

Lemma digits_from_number fuel n acc : 0 <= n < 10 ^ Z.of_nat fuel ->
  exists ds, F64.digits_from fuel n acc = ds ++ acc /\ (fuel <> O -> ds <> [] /\ digits_number ds = n) /\ forallb is_digit ds = true.
Proof.
  revert n acc. induction fuel as [|fuel IH]; intros n acc H; [exists []; repeat split; easy|].
  assert (B : 0 <= n mod 10 < 10) by (apply Z.mod_pos_bound; lia).
  assert (D : is_digit (48 + n mod 10) = true) by (apply andb_true_intro; split; apply Z.leb_le; lia). cbn [F64.digits_from].
  destruct (Z.ltb_spec n 10) as [L|L].
  - exists [48 + n mod 10]. split; [reflexivity|]. split; [|cbn [forallb]; now rewrite D].
    intros _. split; [discriminate|]. rewrite Z.mod_small by lia. unfold digits_number. cbn [fold_left]. lia.
  - rewrite Nat2Z.inj_succ, Z.pow_succ_r in H by lia. destruct (IH (n / 10) (48 + n mod 10 :: acc)) as (ds & E & V & F).
    + split; [apply Z.div_pos; lia|apply Z.div_lt_upper_bound; lia].
    + exists (ds ++ [48 + n mod 10]). rewrite E, <- app_assoc. split; [reflexivity|]. split.
      * intros _. split; [now destruct ds|]. unfold digits_number in *. rewrite fold_left_app, (proj2 (V ltac:(intros ->; rewrite Z.pow_0_r in H; lia))).
        cbn [fold_left]. pose proof (Z.div_mod n 10). lia.
      * rewrite forallb_app, F. cbn [forallb andb]. now rewrite D.
Qed.

Lemma digits_value n : 0 <= n -> forallb is_digit (F64.digits n) = true /\ F64.digits n <> [] /\ digits_number (F64.digits n) = n.
Proof.
  intros H. unfold F64.digits. destruct (digits_from_number (S (Z.to_nat (Z.log2 n))) n []) as (ds & E & V & F).
  - split; [exact H|]. rewrite Nat2Z.inj_succ, Z2Nat.id by apply Z.log2_nonneg. pose proof (Z.log2_nonneg n).
    destruct (Z.eq_dec n 0) as [->|N]; [reflexivity|]. apply Z.lt_le_trans with (2 ^ Z.succ (Z.log2 n)); [apply Z.log2_spec; lia|].
    apply Z.pow_le_mono_l. lia.
  - rewrite E, app_nil_r. split; [exact F|]. now apply V.
Qed.

Lemma digits_inj m n : 0 <= m -> 0 <= n -> F64.digits m = F64.digits n -> m = n.
Proof. intros Hm Hn E. rewrite <- (proj2 (proj2 (digits_value m Hm))), E. now apply digits_value. Qed.

(** Reading the digits in front. *)
Lemma take_digits_all s acc k : forallb is_digit s = true ->
  take_digits s acc k = (fold_left (fun a c => 10 * a + (c - 48)) s acc, k + Z.of_nat (length s), []).
Proof.
  revert acc k. induction s as [|c s IH]; intros acc k H; cbn [take_digits]; [now rewrite Z.add_0_r|].
  cbn [forallb] in H. apply andb_prop in H as [Hc H]. rewrite Hc, IH by exact H. cbn [fold_left length]. do 2 f_equal. lia.
Qed.
