(* ===== verification/FooTable.v ===== *)
(** * Tables (footable)

    src/src/qt/res/assets/plugins/footable/footable.js: the columns of a table, the breakpoints
    that hide columns, the detail rows that show what is hidden, and the timers.  A table is
    the list of the rows of its body with the classes, the data and the visibility that the
    scripts read and write; what jQuery does to an element is written out on it.  The plugins
    that sort, filter and paginate are in FooPlugins.v. *)

From Stdlib Require Import String ZArith Lia List Bool.
From S2P Require Import Prelude Js Num Value.
Import ListNotations.
#[local] Open Scope Z_scope.
#[local] Open Scope se_scope.

Module FooTable.

Section Tables.

Context {A : Type} {N : Num A}.

(** ** Cells and their values *)

(** A cell: its text, [$(cell).data('value')], and whether it is shown. *)
Record cell : Type := mkCell { c_text : list Z; c_value : value A; c_shown : bool }.

Definition parse_alpha (c : option cell) : value A :=
  match c with
  | Some c => if truthy (c_value c) then c_value c else Text (trim (c_text c))
  | None => Text []
  end.

(** The characters that the pattern [[^0-9.\-]] leaves. *)
Definition number_chars (s : list Z) : list Z := filter (fun c => is_digit c || (c =? 46) || (c =? 45)) s.

Definition parse_numeric (c : option cell) : value A :=
  let v := match c with
           | Some c => if truthy (c_value c) then c_value c else Text (number_chars (c_text c))
           | None => Text []
           end in
  let x := match v with
           | Number x => x                       (* parseFloat of the text of a number *)
           | Text s => parseFloat s
           | _ => NaN
           end in
  Number (if isNaN x then of_Z 0 else x).

(** ** Columns *)

(** What is read of a header cell; [th_colspan] is 0 where it is not set. *)
Record th : Type := mkTh {
  th_text : list Z;
  th_hide : list Z;
  th_type : option (list Z);
  th_name : option (list Z);
  th_ignore : bool;
  th_toggle : bool;
  th_group : option (list Z);
  th_colspan : Z;
  th_names : list Z;
  th_sort_initial : option (list Z);
  th_sort_ignore : bool;
  th_sort_match : Z
}.

Record column : Type := mkColumn {
  index : Z;
  hide : list (list Z * bool);
  type : list Z;
  name : list Z;
  ignore : bool;
  toggle : bool;
  matches : list Z;
  names : list (Z * list Z);
  group : option (list Z);
  groupName : option (value A);
  hasBreakpoint : bool;
  sort_initial : option (list Z);
  sort_ignore : bool;
  sort_match : Z
}.

Fixpoint lookup {V} (k : list Z) (l : list (list Z * V)) : option V :=
  match l with
  | [] => None
  | (k', v) :: l => if str_eqb k' k then Some v else lookup k l
  end.

Fixpoint lookup_index {V} (k : Z) (l : list (Z * V)) : option V :=
  match l with
  | [] => None
  | (k', v) :: l => if k' =? k then Some v else lookup_index k l
  end.

Definition or_text (s : option (list Z)) (d : list Z) : list Z := match s with Some (c :: s) => c :: s | _ => d end.

Definition in_texts (s : list Z) (l : list (list Z)) : bool := existsb (str_eqb s) l.

Definition numbers_from (first : Z) (n : nat) : list Z := map (fun i => first + Z.of_nat i) (seq 0 n).

Definition parse (type : list Z) (c : option cell) : value A := if str_eqb type (js "numeric") then parse_numeric c else parse_alpha c.

Section Columns.

(** The breakpoints of the options and the cells of the group row. *)
Variable breakpoints : list (list Z * A).
Variable groups : list (list Z * cell).

(** [getColumnData(th)]: the column and the new [indexOffset].  The class of a column and
    whether it can be edited are left out; the data of the sorting plugin are added, as its
    handler of the event does. *)
Definition getColumnData (prev : option th) (t : th) (i : Z) (indexOffset : Z) : column * Z :=
  let hides := map trim (split_on 44 (th_hide t)) in
  let pcolspan := match prev with Some p => th_colspan p | None => 0 end in
  let indexOffset := indexOffset + (if 1 <? pcolspan then pcolspan - 1 else 0) in
  let colspan := th_colspan t in
  let curindex := i + indexOffset in
  let matches := if 1 <? colspan then numbers_from curindex (Z.to_nat colspan) else [curindex] in
  let names := if 1 <? colspan then firstn (Z.to_nat colspan) (combine (numbers_from curindex (Z.to_nat colspan)) (split_on 44 (th_names t))) else [] in
  let hidden n := str_eqb (th_hide t) (js "all") || in_texts n hides in
  let hide := (js "default", hidden (js "default")) :: map (fun b => (fst b, hidden (fst b))) breakpoints in
  let group := match th_group t with Some (c :: s) => Some (c :: s) | _ => None end in
  let m := if zlen matches <=? th_sort_match t then 0 else th_sort_match t in
  (mkColumn i hide (or_text (th_type t) (js "alpha")) (or_text (th_name t) (trim (th_text t))) (th_ignore t) (th_toggle t)
     matches names group
     (match group with Some g => Some (parse_alpha (lookup g groups)) | None => None end)
     (existsb (fun b => hidden (fst b)) breakpoints)
     (match th_sort_initial t with Some (c :: s) => Some (c :: s) | _ => None end)
     (th_sort_ignore t) (nth (Z.to_nat m) matches 0),
   indexOffset).

(** The loop over the header cells, in their order. *)
Fixpoint columns_from (prev : option th) (ths : list th) (i indexOffset : Z) : list column :=
  match ths with
  | [] => []
  | t :: ths => let '(c, indexOffset) := getColumnData prev t i indexOffset in c :: columns_from (Some t) ths (i + 1) indexOffset
  end.

Definition get_columns (ths : list th) : list column := columns_from None ths 0 0.

End Columns.

Definition getColumnFromTdIndex (i : Z) (columns : list column) : option column :=
  find (fun c => existsb (Z.eqb i) (matches c)) columns.

(** ** Rows *)

(** What a detail row shows. *)
Inductive line : Type :=
| GroupTitle (name : value A)
| Line (name : list Z) (display : list Z).

(** A row of the body: who it is, its cells, its classes, its data and its visibility. *)
Record row : Type := mkRow {
  r_id : Z;
  r_cells : list cell;
  r_detail : bool;                  (* class footable-row-detail *)
  r_filtered : bool;                (* class footable-filtered *)
  r_detailShow : bool;              (* class footable-detail-show *)
  r_detail_created : bool;          (* data('detail_created') *)
  r_bound : bool;                   (* its toggle event is bound *)
  r_visible : bool;
  r_lines : list line
}.

Definition set_visible (b : bool) (r : row) : row :=
  mkRow (r_id r) (r_cells r) (r_detail r) (r_filtered r) (r_detailShow r) (r_detail_created r) (r_bound r) b (r_lines r).
Definition set_filtered (b : bool) (r : row) : row :=
  mkRow (r_id r) (r_cells r) (r_detail r) b (r_detailShow r) (r_detail_created r) (r_bound r) (r_visible r) (r_lines r).
Definition set_detailShow (b : bool) (r : row) : row :=
  mkRow (r_id r) (r_cells r) (r_detail r) (r_filtered r) b (r_detail_created r) (r_bound r) (r_visible r) (r_lines r).
Definition set_created (b : bool) (r : row) : row :=
  mkRow (r_id r) (r_cells r) (r_detail r) (r_filtered r) (r_detailShow r) b (r_bound r) (r_visible r) (r_lines r).
Definition set_bound (b : bool) (r : row) : row :=
  mkRow (r_id r) (r_cells r) (r_detail r) (r_filtered r) (r_detailShow r) (r_detail_created r) b (r_visible r) (r_lines r).
Definition set_cells (l : list cell) (r : row) : row :=
  mkRow (r_id r) l (r_detail r) (r_filtered r) (r_detailShow r) (r_detail_created r) (r_bound r) (r_visible r) (r_lines r).
Definition set_lines (l : list line) (r : row) : row :=
  mkRow (r_id r) (r_cells r) (r_detail r) (r_filtered r) (r_detailShow r) (r_detail_created r) (r_bound r) (r_visible r) l.

Definition has_id (id : Z) (r : row) : bool := r_id r =? id.
Definition update_row (id : Z) (f : row -> row) (rows : list row) : list row := map (fun r => if has_id id r then f r else r) rows.

(** [$(row)] and [$(row).next()] *)
Definition find_row (id : Z) (rows : list row) : option row := find (has_id id) rows.

Fixpoint next_row (id : Z) (rows : list row) : option row :=
  match rows with
  | [] => None
  | r :: rows => if has_id id r then hd_error rows else next_row id rows
  end.

Fixpoint insert_after (id : Z) (new : row) (rows : list row) : list row :=
  match rows with
  | [] => []
  | r :: rows => if has_id id r then r :: new :: rows else r :: insert_after id new rows
  end.

Definition is_detail (r : option row) : bool := match r with Some r => r_detail r | None => false end.

(** ** Details *)

Record entry : Type := mkEntry { e_name : list Z; e_value : value A; e_display : list Z; e_group : option (list Z); e_groupName : option (value A) }.

(** The names that every object inherits. *)
Definition inherited : list (list Z) := map js
  ["constructor"; "__proto__"; "__defineGetter__"; "__defineSetter__"; "__lookupGetter__"; "__lookupSetter__"; "hasOwnProperty";
   "isPrototypeOf"; "propertyIsEnumerable"; "toLocaleString"; "toString"; "valueOf"]%string.

Definition groups_of : Type := list (list Z * (value A * list entry)).

Fixpoint push_entry (g : list Z) (e : entry) (l : groups_of) : groups_of :=
  match l with
  | [] => []
  | (k, (n, es)) :: l => if str_eqb k g then (k, (n, es ++ [e])) :: l else (k, (n, es)) :: push_entry g e l
  end.

(** The body of the loop; [None] is the TypeError for a group that is named like an inherited
    property. *)
Definition group_entry (l : option groups_of) (e : entry) : option groups_of :=
  match l with
  | None => None
  | Some l =>
      match e_group e with
      | Some g =>
          match lookup g l with
          | Some _ => Some (push_entry g e l)
          | None =>
              if in_texts g inherited then None
              else
                let n := match e_groupName e with Some n => if truthy n then n else Text g | None => Text g end in
                Some (l ++ [(g, (n, [e]))])
          end
      | None => Some (push_entry (js "_none") e l)
      end
  end.

Definition createGroupedDetail (data : list entry) : option groups_of :=
  fold_left group_entry data (Some [(js "_none", (Null, []))]).

(** A key of digits is visited before the others, in numeric order. *)
Definition index_key (k : list Z) : option Z :=
  match take_digits k 0 0 with
  | (v, n, []) => if (0 <? n) && (v <? 2 ^ 32 - 1) && (str_eqb (F64.digits v) k) then Some v else None
  | _ => None
  end.

Fixpoint insert_key (v : Z) (k : list Z * (value A * list entry)) (l : list (Z * (list Z * (value A * list entry)))) : list (Z * (list Z * (value A * list entry))) :=
  match l with
  | [] => [(v, k)]
  | (v', k') :: l => if v <? v' then (v, k) :: (v', k') :: l else (v', k') :: insert_key v k l
  end.

(** The order of [for (var group in groups)]. *)
Definition for_in (l : groups_of) : groups_of :=
  map snd (fold_left (fun acc k => match index_key (fst k) with Some v => insert_key v k acc | None => acc end) l []) ++
  filter (fun k => match index_key (fst k) with Some _ => false | None => true end) l.

Definition entry_line (separator : list Z) (e : entry) : line :=
  Line (e_name e ++ match e_name e with [] => [] | _ => separator end) (e_display e).

Definition group_lines (separator : list Z) (g : list Z * (value A * list entry)) : list line :=
  let '(key, (n, es)) := g in
  match es with
  | [] => []
  | _ => (if str_eqb key (js "_none") then [] else [GroupTitle n]) ++ map (entry_line separator) es
  end.

Definition createDetail (data : list entry) (separator : list Z) : option (list line) :=
  option_map (fun l => flat_map (group_lines separator) (for_in l)) (createGroupedDetail data).

(** ** The table *)

Record header : Type := mkHeader { h_sorted : bool; h_descending : bool; h_shown : bool }.

(** The navigation of a table with pages. *)
Inductive button : Type := First | Prev | LimitPrev | PageButton (page : Z) | LimitNext | LimitLast | Next | Last.

Record item : Type := mkItem { i_button : button; i_active : bool; i_disabled : bool; i_none : bool; i_shown : bool }.

Record pageInfo : Type := mkPageInfo {
  pageSize : Z;
  limitNavigation : Z;
  currentPage : Z;
  pages : list (list Z);             (* the rows by who they are *)
  control : option (list item);
  manual : bool
}.

(** The settings: the data of the table, or else the options; and the answers that the
    listeners of the page give to the events that ask. *)
Record settings : Type := mkSettings {
  s_breakpoints : list (list Z * A);
  s_separator : list Z;
  s_sort : bool; s_filter : bool; s_page : bool;        (* the plugin is on *)
  s_pageSize : Z;
  s_limitNavigation : Z;
  s_manual : bool;
  s_navigation : bool;                                  (* the control is found *)
  s_minimum : Z;
  s_text_only : bool;
  allow_sorting : Z -> bool -> bool;
  allow_paging : Z -> bool;
  allow_filtering : list Z -> bool
}.

Record table : Type := mkTable {
  t_rows : list row;
  t_columns : list column;
  t_headers : list header;
  t_breakpoint : list Z;             (* data('breakpoint') *)
  t_class_breakpoint : bool;         (* class breakpoint *)
  t_info : option A;                 (* the width in data('footable_info') *)
  t_visible : bool;
  t_sorted : option Z;               (* data('sorted') *)
  t_filter_string : option (list Z);
  t_currentPage : option Z;          (* data('currentPage') *)
  t_pageInfo : pageInfo;
  t_no_paging : bool;
  t_fresh : Z                        (* no element has this number or a larger one *)
}.

Definition set_rows (rows : list row) (t : table) : table :=
  mkTable rows (t_columns t) (t_headers t) (t_breakpoint t) (t_class_breakpoint t) (t_info t) (t_visible t) (t_sorted t) (t_filter_string t) (t_currentPage t) (t_pageInfo t) (t_no_paging t) (t_fresh t).
Definition set_headers (headers : list header) (t : table) : table :=
  mkTable (t_rows t) (t_columns t) headers (t_breakpoint t) (t_class_breakpoint t) (t_info t) (t_visible t) (t_sorted t) (t_filter_string t) (t_currentPage t) (t_pageInfo t) (t_no_paging t) (t_fresh t).
Definition set_breakpoint (n : list Z) (c : bool) (t : table) : table :=
  mkTable (t_rows t) (t_columns t) (t_headers t) n c (t_info t) (t_visible t) (t_sorted t) (t_filter_string t) (t_currentPage t) (t_pageInfo t) (t_no_paging t) (t_fresh t).
Definition set_info (w : option A) (t : table) : table :=
  mkTable (t_rows t) (t_columns t) (t_headers t) (t_breakpoint t) (t_class_breakpoint t) w (t_visible t) (t_sorted t) (t_filter_string t) (t_currentPage t) (t_pageInfo t) (t_no_paging t) (t_fresh t).
Definition set_sorted (c : Z) (t : table) : table :=
  mkTable (t_rows t) (t_columns t) (t_headers t) (t_breakpoint t) (t_class_breakpoint t) (t_info t) (t_visible t) (Some c) (t_filter_string t) (t_currentPage t) (t_pageInfo t) (t_no_paging t) (t_fresh t).
Definition set_filter_string (s : option (list Z)) (t : table) : table :=
  mkTable (t_rows t) (t_columns t) (t_headers t) (t_breakpoint t) (t_class_breakpoint t) (t_info t) (t_visible t) (t_sorted t) s (t_currentPage t) (t_pageInfo t) (t_no_paging t) (t_fresh t).
Definition set_currentPage (p : Z) (t : table) : table :=
  mkTable (t_rows t) (t_columns t) (t_headers t) (t_breakpoint t) (t_class_breakpoint t) (t_info t) (t_visible t) (t_sorted t) (t_filter_string t) (Some p) (t_pageInfo t) (t_no_paging t) (t_fresh t).
Definition set_pageInfo (i : pageInfo) (t : table) : table :=
  mkTable (t_rows t) (t_columns t) (t_headers t) (t_breakpoint t) (t_class_breakpoint t) (t_info t) (t_visible t) (t_sorted t) (t_filter_string t) (t_currentPage t) i (t_no_paging t) (t_fresh t).
Definition set_no_paging (b : bool) (t : table) : table :=
  mkTable (t_rows t) (t_columns t) (t_headers t) (t_breakpoint t) (t_class_breakpoint t) (t_info t) (t_visible t) (t_sorted t) (t_filter_string t) (t_currentPage t) (t_pageInfo t) b (t_fresh t).
Definition set_fresh (n : Z) (t : table) : table :=
  mkTable (t_rows t) (t_columns t) (t_headers t) (t_breakpoint t) (t_class_breakpoint t) (t_info t) (t_visible t) (t_sorted t) (t_filter_string t) (t_currentPage t) (t_pageInfo t) (t_no_paging t) n.

(** Code that changes the table, and may throw. *)
Definition action : Type := SE table unit.

Definition get : SE table table := fun t => (Ret t, t).
Definition modify (f : table -> table) : action := fun t => (Ret tt, f t).
Definition modify_rows (f : list row -> list row) : action := modify (fun t => set_rows (f (t_rows t)) t).
Definition when (b : bool) (c : action) : action := if b then c else se_ret tt.

Fixpoint each {X} (c : X -> action) (l : list X) : action :=
  match l with
  | [] => se_ret tt
  | x :: l => c x ;! each c l
  end.

Definition show_row (id : Z) : action := modify_rows (update_row id (set_visible true)).

Variable opt : settings.

(** The hidden cells of a row for the detail; [None] is the TypeError where no column has the
    index of the cell. *)
Fixpoint hidden_values (columns : list column) (cells : list cell) (i : Z) : option (list entry) :=
  match cells with
  | [] => Some []
  | c :: cells =>
      match hidden_values columns cells (i + 1) with
      | None => None
      | Some rest =>
          if c_shown c then Some rest
          else
            match getColumnFromTdIndex i columns with
            | None => None
            | Some col =>
                if ignore col then Some rest
                else
                  let n := match lookup_index i (names col) with Some n => n | None => name col end in
                  Some (mkEntry n (parse (type col) (Some c)) (c_text c) (group col) (groupName col) :: rest)
            end
      end
  end.

(** [createOrUpdateDetailRow(row)], for cells that can not be edited: the contents of the
    others move between the cell and the detail, which is not modelled. *)
Definition createOrUpdateDetailRow (id : Z) : SE table bool :=
  let! t := get in
  match find_row id (t_rows t) with
  | None => se_ret false
  | Some r =>
      if r_detail_created r then se_ret true
      else if negb (t_visible t && r_visible r) then se_ret false
      else
        match hidden_values (t_columns t) (r_cells r) 0 with
        | None => se_throw "column is null"
        | Some [] => se_ret false
        | Some values =>
            let exists_ := is_detail (next_row id (t_rows t)) in
            let id' := match next_row id (t_rows t) with Some n => if exists_ then r_id n else t_fresh t | None => t_fresh t end in
            when (negb exists_)
              (modify (fun t => set_fresh (t_fresh t + 1) (set_rows (insert_after id (mkRow (t_fresh t) [] true false false false false true []) (t_rows t)) t))) ;!
            modify_rows (update_row id' (set_lines [])) ;!
            match createDetail values (s_separator opt) with
            | None => se_throw "data is undefined"
            | Some lines =>
                modify_rows (update_row id' (set_lines lines)) ;!
                modify_rows (update_row id (set_created true)) ;!
                se_ret (negb exists_)
            end
        end
  end.

(** ** Breakpoints *)

Section Breakpoints.

Context {sorter : forall T, (T -> T -> A) -> list T -> list T}.

(** The breakpoints, the smallest first. *)
Definition breakpoints : list (list Z * A) := sorter _ (fun a b => sub (snd a) (snd b)) (s_breakpoints opt).

(** The loop of [resize]: the first breakpoint that is as wide as the table. *)
Fixpoint current_breakpoint (width : A) (l : list (list Z * A)) : option (list Z) :=
  match l with
  | [] => None
  | (n, w) :: l => if truthy (Number w) && (ltb width w || eqb width w) then Some n else current_breakpoint width l
  end.

Definition hidden_at (breakpoint : list Z) (c : column) : bool := match lookup breakpoint (hide c) with Some b => b | None => false end.

Definition hasBreakpointColumn (breakpoint : list Z) (t : table) : bool :=
  existsb (fun c => hidden_at breakpoint c && negb (ignore c)) (t_columns t).

Definition hasAnyBreakpointColumn (t : table) : bool := existsb hasBreakpoint (t_columns t).

(** [calculateWidth] of the widths of the table, the viewport and the parent. *)
Definition calculateWidth (width viewportWidth parentWidth : A) : A :=
  let width := if ltb viewportWidth width then viewportWidth else width in
  if ltb parentWidth width then parentWidth else width.

(** ** Drawing *)

(** The toggle events: bound to all rows that are no details. *)
Definition bindToggleSelectors : action :=
  let! t := get in
  when (hasAnyBreakpointColumn t) (modify_rows (map (fun r => if r_detail r then r else set_bound true r))).

Fixpoint show_cells (shown : bool) (indices : list Z) (cells : list cell) (i : Z) : list cell :=
  match cells with
  | [] => []
  | c :: cells => (if existsb (Z.eqb i) indices then mkCell (c_text c) (c_value c) shown else c) :: show_cells shown indices cells (i + 1)
  end.

(** A column shown or hidden: its header and its cells. *)
Definition show_column (breakpoint : list Z) (c : column) : action :=
  when (negb (str_eqb breakpoint []))
    (let shown := match lookup breakpoint (hide c) with Some false => true | _ => false end in
     modify_rows (map (fun r => if r_detail r then r else set_cells (show_cells shown (matches c) (r_cells r) 0) r)) ;!
     modify (fun t => set_headers (map (fun ih => if Z.of_nat (fst ih) =? index c then mkHeader (h_sorted (snd ih)) (h_descending (snd ih)) shown else snd ih)
                                     (combine (seq 0 (List.length (t_headers t))) (t_headers t))) t)).

Definition ids_of (p : row -> bool) (t : table) : list Z := map r_id (filter p (t_rows t)).

Definition toggle_detail_visibility (fired : bool) (id : Z) : action :=
  let! t := get in
  match next_row id (t_rows t) with
  | Some n => when (r_detail n) (modify_rows (update_row (r_id n) (set_visible fired)))
  | None => se_ret tt
  end.

(** [redraw] up to its event, for a table without a row of column groups.  The marks that it
    puts on cells for the style sheet (toggles, classes of columns, first and last column) are
    left out: no script reads them. *)
Definition redraw_rows : action :=
  bindToggleSelectors ;!
  let! t := get in
  let fired := hasBreakpointColumn (t_breakpoint t) t in
  modify_rows (map (fun r => if r_detail r then r else set_created false r)) ;!
  each (show_column (t_breakpoint t)) (t_columns t) ;!
  let! t := get in
  each (fun id => createOrUpdateDetailRow id ;! se_ret tt) (ids_of r_detailShow t) ;!
  let! t := get in
  each (toggle_detail_visibility fired) (ids_of (fun r => r_detailShow r && t_visible t && r_visible r) t).

Section Events.

(** What the plugins do when the table has been redrawn, and when a row has been removed. *)
Variables redrawn row_removed : action.

Definition redraw : action := redraw_rows ;! redrawn.

Definition resize (width viewportWidth parentWidth : A) : action :=
  let! t := get in
  if negb (t_visible t) then se_ret tt
  else if negb (hasAnyBreakpointColumn t) then redraw
  else
    let w := calculateWidth width viewportWidth parentWidth in
    modify (set_info (Some w)) ;!
    let changed := match t_info t with Some p => truthy (Number p) && negb (eqb p w) | None => true end in
    when changed
      (let name := match current_breakpoint w breakpoints with Some n => n | None => js "default" end in
       let fired := hasBreakpointColumn name t in
       modify (set_breakpoint name fired) ;!
       when (negb (str_eqb name (t_breakpoint t))) redraw).

Definition toggleDetail (id : Z) : action :=
  let! t := get in
  match find_row id (t_rows t) with
  | None => se_ret tt
  | Some r =>
      if r_detailShow r then
        modify_rows (update_row id (set_detailShow false)) ;!
        match next_row id (t_rows t) with
        | Some n => when (r_detail n) (modify_rows (update_row (r_id n) (set_visible false)))
        | None => se_ret tt
        end
      else
        createOrUpdateDetailRow id ;!
        modify_rows (update_row id (set_detailShow true)) ;!
        let! t := get in
        match next_row id (t_rows t) with
        | Some n => show_row (r_id n)
        | None => se_ret tt
        end
  end.

(** The event that toggles a row, where it is bound. *)
Definition trigger_toggleRow (id : Z) : action :=
  let! t := get in
  match find_row id (t_rows t) with
  | Some r => when (r_bound r) (toggleDetail id)
  | None => se_ret tt
  end.

Definition expandFirstRow : action :=
  let! t := get in
  match filter (fun r => negb (r_detail r)) (t_rows t) with
  | r :: _ => when (negb (r_detailShow r)) (trigger_toggleRow (r_id r))
  | [] => se_ret tt
  end.

Definition expandAll : action :=
  let! t := get in each trigger_toggleRow (ids_of (fun r => negb (r_detail r) && negb (r_detailShow r)) t).

Definition collapseAll : action :=
  let! t := get in each trigger_toggleRow (ids_of r_detailShow t).

Fixpoint previous_row (id : Z) (before : option row) (rows : list row) : option row :=
  match rows with
  | [] => None
  | r :: rows => if has_id id r then before else previous_row id (Some r) rows
  end.

Definition remove_id (id : Z) (rows : list row) : list row := filter (fun r => negb (has_id id r)) rows.

Definition removeRow (id : Z) : action :=
  let! t := get in
  let r := match find_row id (t_rows t) with
           | Some r => if r_detail r then previous_row id None (t_rows t) else Some r
           | None => None
           end in
  match r with
  | Some r =>
      match next_row (r_id r) (t_rows t) with
      | Some n => when (r_detail_created r) (modify_rows (remove_id (r_id n)))
      | None => se_ret tt
      end ;!
      modify_rows (remove_id (r_id r)) ;!
      row_removed
  | None => row_removed
  end.

(** A row that is new to the table. *)
Definition appendRow (cells : list cell) : action :=
  modify (fun t => set_fresh (t_fresh t + 1) (set_rows (t_rows t ++ [mkRow (t_fresh t) cells false false false false false true []]) t)) ;!
  redraw.

Definition reset : action :=
  modify (set_info None) ;!
  modify (fun t => set_breakpoint [] (t_class_breakpoint t) t) ;!
  modify_rows (map (fun r => if r_detail r then r else set_bound false r)) ;!
  modify_rows (map (set_detailShow false)) ;!
  modify_rows (filter (fun r => negb (r_detail r))).

End Events.

End Breakpoints.

End Tables.

End FooTable.
