(* ===== verification/FooPlugins.v ===== *)
(** * Sorting, filtering and paging of tables (footable plugins)

    footable.sort.js, footable.filter.js and footable.paginate.js on the tables of FooTable.v,
    and the composition: index.html loads the three plugins in this order, so that their
    handlers run in this order, and the sorted, filtered and redrawn events end in a new
    division into pages. *)

From Stdlib Require Import String ZArith Lia List Bool Permutation Sorted.
From S2P Require Import Prelude Js Num Value FooTable.
Import ListNotations.
Import FooTable.
#[local] Open Scope Z_scope.
#[local] Open Scope se_scope.

(** ** Array.prototype.sort *)

(** The order that a comparison function gives on a list is an order. *)
Record consistent {A T} {N : Num A} (cmp : T -> T -> A) (l : list T) : Prop := {
  cmp_opposite : forall a b, In a l -> In b l -> ltb (of_Z 0) (cmp a b) = ltb (cmp b a) (of_Z 0);
  cmp_total : forall a b, In a l -> In b l -> ltb (of_Z 0) (cmp a b) = true -> ltb (of_Z 0) (cmp b a) = false;
  cmp_trans : forall a b c, In a l -> In b l -> In c l ->
    ltb (of_Z 0) (cmp a b) = false -> ltb (of_Z 0) (cmp b c) = false -> ltb (of_Z 0) (cmp a c) = false
}.

(** What the standard promises: the elements of the list, and, where the comparison is
    consistent, in order.  The order of equal elements is left to the browser. *)
Class ArraySort (A : Type) {N : Num A} : Type := {
  array_sort : forall T, (T -> T -> A) -> list T -> list T;
  array_sort_permutation : forall T cmp (l : list T), Permutation (array_sort T cmp l) l;
  array_sort_sorted : forall T cmp (l : list T), consistent cmp l ->
    StronglySorted (fun a b => ltb (of_Z 0) (cmp a b) = false) (array_sort T cmp l)
}.
Arguments array_sort {A N _ T}.

Module FooPlugins.

Section Plugins.

Context {A : Type} {N : Num A} {S : ArraySort A}.

Variables toLowerCase toUpperCase : list Z -> list Z.
Variable show : A -> list Z.
Variable opt : @settings A.

#[local] Notation row := (@row A).
#[local] Notation table := (@table A).
#[local] Notation action := (@action A).
#[local] Notation column := (@column A).

(** ** Sorting *)

Definition lower (v : value A) : value A := match v with Text s => Text (toLowerCase s) | v => v end.

Definition sorter_alpha (a b : value A) : A :=
  let a := lower a in
  let b := lower b in
  if strict_eq a b then of_Z 0 else if less a b then sub (of_Z 0) (of_Z 1) else of_Z 1.

Definition sorter_numeric (a b : value A) : A := sub (to_number a) (to_number b).

Definition sorter (type : list Z) : value A -> value A -> A :=
  if str_eqb type (js "numeric") then sorter_numeric else sorter_alpha.

Record block : Type := mkBlock { b_row : row; b_detail : option row; b_value : value A }.

(** [p.rows]: a row with its detail row; detail rows that follow no row are left out. *)
Fixpoint rows_of (column : column) (rows : list row) : list block :=
  match rows with
  | [] => []
  | r :: rows =>
      if r_detail r then rows_of column rows
      else
        let next := if is_detail (hd_error rows) then hd_error rows else None in
        mkBlock r next (parse (type column) (nth_error (r_cells r) (Z.to_nat (sort_match column)))) :: rows_of column rows
  end.

Definition block_rows (b : block) : list row := b_row b :: match b_detail b with Some d => [d] | None => [] end.

Definition compare_rows (column : column) (ascending : bool) (a b : block) : A :=
  if ascending then sorter (type column) (b_value a) (b_value b) else sorter (type column) (b_value b) (b_value a).

Definition sort (column : column) (ascending : bool) (rows : list row) : list row :=
  flat_map block_rows (array_sort (compare_rows column ascending) (rows_of column rows)).

(** The third argument of [doSort]: left out, 'toggle' or given. *)
Inductive direction : Type := NoDirection | Toggle | Direction (ascending : bool).

Definition has_sorted (i : Z) (t : table) : bool := match nth_error (t_headers t) (Z.to_nat i) with Some h => h_sorted h | None => false end.

(** The classes of the headers: only the sorted column has one. *)
Definition mark_headers (i : Z) (ascending : bool) (headers : list header) : list header :=
  map (fun jh => if Z.of_nat (fst jh) =? i then mkHeader ascending (negb ascending) (h_shown (snd jh)) else mkHeader false false (h_shown (snd jh)))
    (combine (seq 0 (List.length headers)) headers).

(** [doSort(columnIndex, ascending)]; [sorted] is what the other plugins do at its end. *)
Definition doSort (sorted : action) (i : Z) (d : direction) : action :=
  let! t := get in
  if negb (s_sort opt) then se_ret tt
  else
    let ascending := match d with NoDirection => has_sorted i t | Toggle => negb (has_sorted i t) | Direction b => b end in
    match (if i <? 0 then None else nth_error (t_columns t) (Z.to_nat i)) with
    | None => se_throw "column is undefined"
    | Some column =>
        if sort_ignore column then se_ret tt
        else if negb (allow_sorting opt i ascending) then se_ret tt
        else
          modify (set_sorted (index column)) ;!
          modify (fun t => set_headers (mark_headers i ascending (t_headers t)) t) ;!
          modify_rows (sort column ascending) ;!
          bindToggleSelectors ;!
          sorted
    end.

(** A click on a header that can be sorted. *)
Definition click_header (sorted : action) (i : Z) : action :=
  let! t := get in doSort sorted i (Direction (negb (has_sorted i t))).

Fixpoint initial_sort (columns : list column) : option (Z * bool) :=
  match columns with
  | [] => None
  | c :: columns =>
      match sort_initial c with
      | Some d => Some (index c, negb (str_eqb d (js "descending")))
      | None => initial_sort columns
      end
  end.

Definition sort_initialized (sorted : action) : action :=
  let! t := get in
  when (s_sort opt)
    match initial_sort (t_columns t) with
    | Some (i, ascending) => doSort sorted i (Direction ascending)
    | None => se_ret tt
    end.

Definition sort_redrawn (sorted : action) : action :=
  let! t := get in
  when (match t_sorted t with Some c => 0 <=? c | None => false end)
    (each (fun i => let! t := get in
       when (match nth_error (t_headers t) i with Some h => h_sorted h || h_descending h | None => false end)
         (doSort sorted (Z.of_nat i) NoDirection)) (seq 0 (List.length (t_headers t)))).

(** ** Rows shown *)

(** [showRow] of the plugins: a row with an open detail is shown with it. *)
Definition show_with_detail (id : Z) : action :=
  let! t := get in
  match find_row id (t_rows t) with
  | None => se_ret tt
  | Some r =>
      match next_row id (t_rows t) with
      | Some n =>
          if t_class_breakpoint t && r_detailShow r && r_detail n then
            show_row id ;! show_row (r_id n) ;! createOrUpdateDetailRow opt id ;! se_ret tt
          else show_row id
      | None => show_row id
      end
  end.

(** ** Pages *)

(** The loop of [createPages] over the rows, the [i]th first; [count] is [pages], [n] the number
    of all rows. *)
Fixpoint create_pages_loop (size n : Z) (rows : list Z) (i count : Z) (page lastPage : list Z) (done : list (list Z)) : list (list Z) * list Z :=
  match rows with
  | [] => (done, lastPage)
  | r :: rows =>
      let page := page ++ [r] in
      if i =? count * size - 1 then create_pages_loop size n rows (i + 1) (count + 1) [] lastPage (done ++ [page])
      else if n - Z.rem n size <=? i then create_pages_loop size n rows (i + 1) count page (lastPage ++ [r]) done
      else create_pages_loop size n rows (i + 1) count page lastPage done
  end.

Definition create_pages (size : Z) (rows : list Z) : list (list Z) :=
  let '(done, lastPage) := create_pages_loop size (zlen rows) rows 0 1 [] [] [] in
  match lastPage with [] => done | _ => done ++ [lastPage] end.

(** The rows that are divided into pages. *)
Definition paged_rows (rows : list row) : list Z := map r_id (filter (fun r => negb (r_filtered r) && negb (r_detail r)) rows).

Definition clamp_page (current count : Z) : Z :=
  let current := if count <=? current then count - 1 else current in
  if current <? 0 then 0 else current.

Definition set_control (c : option (list item)) (i : pageInfo) : pageInfo :=
  mkPageInfo (pageSize i) (limitNavigation i) (currentPage i) (pages i) c (manual i).
Definition set_page (p : Z) (i : pageInfo) : pageInfo :=
  mkPageInfo (pageSize i) (limitNavigation i) p (pages i) (control i) (manual i).

(** [new pageInfo(ft)] *)
Definition new_pageInfo (t : table) : pageInfo :=
  mkPageInfo (s_pageSize opt) (s_limitNavigation opt) (match t_currentPage t with Some p => p | None => 0 end) [] None (s_manual opt).

Definition createPages : action :=
  modify (fun t =>
    let info := t_pageInfo t in
    let pages := create_pages (pageSize info) (paged_rows (t_rows t)) in
    let info := mkPageInfo (pageSize info) (limitNavigation info) (clamp_page (currentPage info) (zlen pages)) pages (control info) (manual info) in
    set_no_paging (zlen pages =? 1) (set_pageInfo info t)).

Definition limit (info : pageInfo) : bool := 0 <? limitNavigation info.

Definition plain (b : button) : item := mkItem b false false false true.

Definition is_page (b : button) : bool := match b with PageButton _ => true | _ => false end.
Definition is_limit_next (b : button) : bool := match b with LimitNext | LimitLast => true | _ => false end.
Definition is_limit_prev (b : button) : bool := match b with LimitPrev => true | _ => false end.

(** The numbers of the pages, the last first. *)
Definition page_numbers (info : pageInfo) : list Z := rev (map Z.of_nat (seq 0 (List.length (pages info)))).

Definition insert_after_prev (new : item) (l : list item) : list item :=
  flat_map (fun i => if is_limit_prev (i_button i) then [i; new] else [i]) l.

Definition show_item (p : button -> bool) (b : bool) (i : item) : item :=
  if p (i_button i) then mkItem (i_button i) (i_active i) (i_disabled i) (i_none i) b else i.

(** [createLimited(nav, info, start)] *)
Definition createLimited (info : pageInfo) (start : Z) (nav : list item) : list item :=
  let nav := filter (fun i => negb (is_page (i_button i))) nav in
  let nav := fold_left (fun nav i =>
    if (start <=? i) && (i <? start + limitNavigation info) && (0 <? zlen (nth (Z.to_nat i) (pages info) []))
    then insert_after_prev (plain (PageButton i)) nav else nav) (page_numbers info) nav in
  let nav := map (show_item is_limit_prev (negb (start =? 0))) nav in
  map (show_item is_limit_next (negb (zlen (pages info) <=? start + limitNavigation info))) nav.

Definition add_class (p : button -> bool) (active disabled none : bool) (i : item) : item :=
  if p (i_button i) then mkItem (i_button i) (active || i_active i) (disabled || i_disabled i) (none || i_none i) (i_shown i) else i.

Definition setPagingClasses (current count : Z) (nav : list item) : list item :=
  let nav := map (add_class (fun b => match b with PageButton i => i =? current | _ => false end) true false false) nav in
  let nav := if count - 1 <=? current
             then map (add_class (fun b => match b with LimitLast => true | _ => false end) false false true)
                    (map (add_class (fun b => match b with Next | Last => true | _ => false end) false true false) nav)
             else nav in
  if current <? 1 then map (add_class (fun b => match b with First | Prev => true | _ => false end) false true false) nav else nav.

(** The buttons that [createNavigation] writes. *)
Definition new_navigation (info : pageInfo) : list item :=
  if 0 <? zlen (pages info) then
    [plain First; plain Prev] ++
    (if limit info then createLimited info 0 [plain LimitPrev; plain LimitNext; plain LimitLast]
     else map (fun i => plain (PageButton i)) (filter (fun i => 0 <? zlen (nth (Z.to_nat i) (pages info) [])) (rev (page_numbers info)))) ++
    [plain Next; plain Last]
  else [].

Definition createNavigation : action :=
  modify (fun t =>
    if s_navigation opt then
      let info := t_pageInfo t in
      set_pageInfo (set_control (Some (setPagingClasses (currentPage info) (zlen (pages info)) (new_navigation info))) info) t
    else t).

Definition hide_rows : action := modify_rows (map (set_visible false)).

(** [fillPage] *)
Definition fillPage (p : Z) : action :=
  modify (fun t => set_pageInfo (set_page p (t_pageInfo t)) t) ;!
  modify (set_currentPage p) ;!
  hide_rows ;!
  let! t := get in
  each show_with_detail (if p <? 0 then [] else nth (Z.to_nat p) (pages (t_pageInfo t)) []).

Definition clear_classes (i : item) : item := mkItem (i_button i) false false false (i_shown i).

(** [paginate]: without a control the last lines throw. *)
Definition paginate (newPage : Z) : action :=
  let! t := get in
  let info := t_pageInfo t in
  when (manual info || negb (currentPage info =? newPage) || negb (t_visible t && existsb r_visible (t_rows t)))
    (if negb (allow_paging opt newPage) then se_ret tt
     else
       fillPage newPage ;!
       let! t := get in
       let info := t_pageInfo t in
       match control info with
       | None => se_throw "info.control.find is not a function"
       | Some nav => modify (set_pageInfo (set_control (Some (setPagingClasses (currentPage info) (zlen (pages info)) (map clear_classes nav))) info))
       end).

Definition setupPaging : action :=
  modify (fun t => set_pageInfo (new_pageInfo t) t) ;!
  createPages ;!
  createNavigation ;!
  let! t := get in
  paginate (currentPage (t_pageInfo t)) ;!
  let! t := get in
  fillPage (currentPage (t_pageInfo t)).

(** The loop that looks for the first page of a group of pages. *)
Fixpoint group_start (fuel : nat) (limit start : Z) : option Z :=
  if Z.rem start limit =? 0 then Some start
  else match fuel with O => None | Datatypes.S fuel => group_start fuel limit (start - 1) end.

Definition pages_shown (nav : list item) : list Z :=
  flat_map (fun i => match i_button i with PageButton p => [p] | _ => [] end) nav.

(** [start || 0] for [first - info.limitNavigation] and [last + 1]; there may be no page. *)
Definition or_zero (start : option Z) : Z := match start with Some s => s | None => 0 end.

Definition redo_limited (start : Z) (info : pageInfo) (nav : list item) : action :=
  modify (set_pageInfo (set_control (Some (setPagingClasses (currentPage info) (zlen (pages info)) (createLimited info start nav))) info)).

(** The page that a button leads to; [None] for those that only move the list of pages. *)
Definition new_page (b : button) (info : pageInfo) : option Z :=
  let current := currentPage info in
  let count := zlen (pages info) in
  match b with
  | First => Some 0
  | Prev => Some (if 0 <? current then current - 1 else current)
  | Next => Some (if current <? count - 1 then current + 1 else current)
  | Last | LimitLast => Some (count - 1)
  | PageButton p => Some p
  | LimitPrev | LimitNext => None
  end.

(** A click on a button of the navigation. *)
Definition click (b : button) : action :=
  let! t := get in
  let info := t_pageInfo t in
  match control info with
  | None => se_ret tt
  | Some nav =>
      match new_page b info with
      | None =>
          let start := match b with
                       | LimitPrev => option_map (fun first => first - limitNavigation info) (hd_error (pages_shown nav))
                       | _ => option_map (fun last => last + 1) (hd_error (rev (pages_shown nav)))
                       end in
          redo_limited (or_zero start) info nav
      | Some p =>
          when (0 <=? p)
            (when (limit info && negb (currentPage info =? p))
               (match group_start (Z.to_nat (limitNavigation info)) (limitNavigation info) p with
                | Some start => modify (set_pageInfo (set_control (Some (createLimited info start nav)) info))
                | None => se_ret tt
                end) ;!
             paginate p)
      end
  end.

(** ** Filtering *)

(** The text of a row that is searched. *)
Definition row_text (r : row) : list Z :=
  flat_map c_text (r_cells r) ++
  (if s_text_only opt then []
   else flat_map (fun c => match c_value c with Undefined => [] | v => to_string show v end) (r_cells r)).

(** [filterFunction] with the current filter [f] *)
Definition filterFunction (f : list Z) (r : row) : bool := contains (toUpperCase f) (toUpperCase (row_text r)).

(** [showRow] of the filter: only for rows that are hidden. *)
Definition filter_showRow (id : Z) : action :=
  let! t := get in
  match find_row id (t_rows t) with
  | Some r => when (negb (t_visible t && r_visible r)) (show_with_detail id)
  | None => se_ret tt
  end.

Definition clearFilter (filtered : action) : action :=
  modify_rows (map (fun r => if r_detail r then r else set_filtered false r)) ;!
  let! t := get in
  each filter_showRow (ids_of (fun r => negb (r_detail r)) t) ;!
  modify (set_filter_string None) ;!
  filtered.

(** The rows that have all words of the filter. *)
Definition matching (s : list Z) (rows : list row) : list row :=
  fold_left (fun rows f => match f with [] => rows | _ => filter (filterFunction f) rows end) (split_on 32 s) (filter (fun r => negb (r_detail r)) rows).

Definition filter_rows (s : list Z) (filtered : action) : action :=
  let! t := get in
  if negb (allow_filtering opt s) then se_ret tt
  else if (0 <? zlen s) && (zlen s <? s_minimum opt) then se_ret tt
  else
    match s with
    | [] => clearFilter filtered
    | _ =>
        modify_rows (map (fun r => set_filtered true (set_visible false r))) ;!
        each (fun id => filter_showRow id ;! modify_rows (update_row id (set_filtered false))) (map r_id (matching s (t_rows t))) ;!
        modify (set_filter_string (Some s)) ;!
        filtered
    end.

Definition filter_redrawn (filtered : action) : action :=
  let! t := get in
  match t_filter_string t with
  | Some (c :: s) => filter_rows (c :: s) filtered
  | _ => se_ret tt
  end.

(** ** The plugins together *)

(** The handler of the paging plugin. *)
Definition on_paging : action := when (s_page opt) setupPaging.

Definition on_redrawn : action :=
  when (s_sort opt) (sort_redrawn on_paging) ;! when (s_filter opt) (filter_redrawn on_paging) ;! on_paging.

Definition on_initialized : action := when (s_sort opt) (sort_initialized on_paging) ;! on_paging.

(** The trigger 'footable_initialize'. *)
Definition initialize (width viewportWidth parentWidth : A) : action :=
  modify (set_info None) ;!
  modify (fun t => set_breakpoint [] (t_class_breakpoint t) t) ;!
  resize opt (sorter := @array_sort A N S) on_redrawn width viewportWidth parentWidth ;!
  on_initialized.

(** The operations of a page on its table. *)
Inductive operation : Type :=
| SortColumn (i : Z)
| Filter (s : list Z)
| ClearFilter
| Click (b : button)
| Redraw
| ToggleRow (id : Z)
| RemoveRow (id : Z)
| AppendRow (cells : list (@cell A)).

Definition run (o : operation) : action :=
  match o with
  | SortColumn i => click_header on_paging i
  | Filter s => filter_rows s on_paging
  | ClearFilter => clearFilter on_paging
  | Click b => click b
  | Redraw => redraw opt on_redrawn
  | ToggleRow id => trigger_toggleRow opt id
  | RemoveRow id => removeRow on_paging id
  | AppendRow cells => appendRow opt on_redrawn cells
  end.

End Plugins.

End FooPlugins.
