(* ===== verification/FooTheory.v ===== *)
(** * Tables: columns, order, pages, filters

    What the definitions of FooTable.v and FooPlugins.v do: the columns of a header with
    spans, the choice of a breakpoint, sorting, the division into pages and the navigation
    between them, filtering and its composition with paging. *)

From Stdlib Require Import String ZArith Lia List Bool Permutation Sorted QArith Qcanon.
From S2P Require Import Prelude Js Num Value FooTable FooPlugins.
Import ListNotations.
Import FooTable.
Import FooPlugins.
#[local] Open Scope Z_scope.

(** ** Pages *)

Section Pages.

Variable size : Z.
Hypothesis size_pos : 1 <= size.

(** The last page, begun at [i] behind all full pages. *)
Lemma loop_last n rows : forall i count page lastPage done,
  size * (n / size) <= i -> count = n / size + 1 -> i + zlen rows = n -> 0 <= i ->
  create_pages_loop size n rows i count page lastPage done = (done, lastPage ++ rows).
Proof.
  induction rows as [|r rows IH]; intros i count page lastPage done Hi Hc Hn H0; cbn [create_pages_loop]; [rewrite app_nil_r; reflexivity|].
  rewrite zlen_cons in Hn. pose proof (zlen_nonneg rows). pose proof (Z.div_mod n size ltac:(lia)). pose proof (Z.mod_pos_bound n size ltac:(lia)).
  rewrite (proj2 (Z.eqb_neq _ _)) by nia. rewrite Z.rem_mod_nonneg, (proj2 (Z.leb_le _ _)) by lia.
  rewrite IH by lia. rewrite <- app_assoc. reflexivity.
Qed.

(** The rest [a] of a full page. *)
Lemma loop_page n a : forall rest i count page lastPage done,
  zlen page + zlen a = size -> a <> [] -> i = (count - 1) * size + zlen page -> 1 <= count -> count <= n / size ->
  0 <= n ->
  create_pages_loop size n (a ++ rest) i count page lastPage done =
  create_pages_loop size n rest (i + zlen a) (count + 1) [] lastPage (done ++ [page ++ a]).
Proof.
  induction a as [|r a IH]; intros rest i count page lastPage done Hs Ha Hi H1 Hc Hn; [congruence|].
  cbn [app create_pages_loop]. rewrite zlen_cons in *. pose proof (zlen_nonneg a).
  destruct a as [|r' a].
  - rewrite zlen_nil in *. rewrite (proj2 (Z.eqb_eq _ _)) by lia. reflexivity.
  - rewrite zlen_cons in *. pose proof (zlen_nonneg a). rewrite (proj2 (Z.eqb_neq _ _)) by nia.
    pose proof (Z.div_mod n size ltac:(lia)). pose proof (Z.mod_pos_bound n size ltac:(lia)).
    rewrite Z.rem_mod_nonneg, (proj2 (Z.leb_gt _ _)) by nia.
    rewrite (IH rest (i + 1) count (page ++ [r])); rewrite ?zlen_app, ?zlen_cons, ?zlen_nil; try lia; try discriminate.
    rewrite <- app_assoc. f_equal. lia.
Qed.

(** The [k]th page. *)
Definition page_at (rows : list Z) (k : nat) : list Z := firstn (Z.to_nat size) (skipn (k * Z.to_nat size) rows).

Lemma loop_pages n (q : nat) : forall rows i count done,
  i = (count - 1) * size -> 1 <= count -> i + zlen rows = n -> n / size = count - 1 + Z.of_nat q ->
  create_pages_loop size n rows i count [] [] done =
  (done ++ map (page_at rows) (seq 0 q), skipn (q * Z.to_nat size) rows).
Proof.
  induction q as [|q IH]; intros rows i count done Hi Hc Hn Hq.
  - rewrite loop_last by nia. cbn. rewrite app_nil_r. reflexivity.
  - pose proof (zlen_nonneg rows). pose proof (Z.div_mod n size ltac:(lia)). pose proof (Z.mod_pos_bound n size ltac:(lia)).
    assert (L : (Z.to_nat size <= List.length rows)%nat) by (unfold zlen in *; nia).
    rewrite <- (firstn_skipn (Z.to_nat size) rows) at 1.
    assert (F : zlen (firstn (Z.to_nat size) rows) = size) by (unfold zlen in *; rewrite length_firstn; lia).
    rewrite loop_page; rewrite ?F, ?zlen_nil; try lia.
    2: { intros E. rewrite E, zlen_nil in F. lia. }
    rewrite IH; try lia.
    2: { unfold zlen in *. rewrite length_skipn. lia. }
    rewrite skipn_skipn. cbn [app seq map]. rewrite <- app_assoc. cbn [app]. f_equal; [|f_equal; lia].
    do 2 f_equal. rewrite <- seq_shift, map_map. apply map_ext. intros k. unfold page_at. rewrite skipn_skipn. do 2 f_equal. lia.
Qed.

Definition page_count (n : Z) : Z := (n + size - 1) / size.

Lemma page_count_exact q r : 0 <= r < size -> page_count (size * q + r) = if r =? 0 then q else q + 1.
Proof.
  intros H. unfold page_count. destruct (Z.eqb_spec r 0) as [->|Hr].
  - symmetry. apply (Z.div_unique _ _ _ (size - 1)); lia.
  - symmetry. apply (Z.div_unique _ _ _ (r - 1)); lia.
Qed.

Lemma create_pages_chunks rows : create_pages size rows = map (page_at rows) (seq 0 (Z.to_nat (page_count (zlen rows)))).
Proof.
  unfold create_pages. pose proof (zlen_nonneg rows). set (n := zlen rows) in *.
  pose proof (Z.div_mod n size ltac:(lia)) as E. pose proof (Z.mod_pos_bound n size ltac:(lia)) as R. pose proof (Z.div_pos n size ltac:(lia) ltac:(lia)).
  rewrite (loop_pages n (Z.to_nat (n / size))) by lia. cbn [app].
  replace (page_count n) with (page_count (size * (n / size) + n mod size)) by (f_equal; lia). rewrite (page_count_exact _ _ R).
  assert (K : (Z.to_nat (n / size) * Z.to_nat size)%nat = Z.to_nat (n - n mod size)) by nia.
  rewrite K. destruct (Z.eqb_spec (n mod size) 0) as [Z0|Z0].
  - rewrite Z0, skipn_all2 by (unfold n, zlen; lia). reflexivity.
  - destruct (skipn _ rows) as [|x rest] eqn:Er.
    { exfalso. apply (f_equal (@List.length Z)) in Er. rewrite length_skipn in Er. cbn in Er. unfold n, zlen in *. lia. }
    replace (Z.to_nat (n / size + 1)) with (Datatypes.S (Z.to_nat (n / size))) by lia.
    rewrite seq_S, map_app. cbn [map plus]. do 2 f_equal. unfold page_at. rewrite K, Er, firstn_all2; [reflexivity|].
    rewrite <- Er, length_skipn. unfold n, zlen in *. lia.
Qed.

Lemma page_at_length rows k : zlen (page_at rows k) = Z.max 0 (Z.min size (zlen rows - Z.of_nat k * size)).
Proof. unfold page_at, zlen. rewrite length_firstn, length_skipn. nia. Qed.

Lemma concat_pages rows (q : nat) : concat (map (page_at rows) (seq 0 q)) = firstn (q * Z.to_nat size) rows.
Proof.
  induction q as [|q IH]; [reflexivity|]. rewrite seq_S, map_app, concat_app, IH. cbn [map concat plus]. rewrite app_nil_r.
  unfold page_at. replace (Datatypes.S q * Z.to_nat size)%nat with (q * Z.to_nat size + Z.to_nat size)%nat by lia.
  rewrite <- (firstn_skipn (q * Z.to_nat size) (firstn (q * Z.to_nat size + Z.to_nat size) rows)).
  rewrite firstn_firstn, Nat.min_l by lia. f_equal. rewrite skipn_firstn_comm. f_equal. lia.
Qed.

End Pages.

(** C35: A page holds [pageSize] rows.  The loop of [createPages] divides the rows into pages
    without losing, doubling or moving one: the pages put together are the rows, each page
    has at least one row and at most [pageSize], every page but the last is full, and there
    are as many as the number of rows divided by [pageSize], rounded up. *)
Theorem pages_divide (size : Z) (rows : list Z) :
  1 <= size ->
  concat (create_pages size rows) = rows /\
  Forall (fun page => 1 <= zlen page <= size) (create_pages size rows) /\
  (forall k, 0 <= k < zlen (create_pages size rows) - 1 -> zlen (nth (Z.to_nat k) (create_pages size rows) []) = size) /\
  zlen (create_pages size rows) = (zlen rows + size - 1) / size.
Proof.
  intros H. rewrite create_pages_chunks by exact H. pose proof (zlen_nonneg rows) as L. fold (page_count size (zlen rows)).
  pose proof (Z.div_mod (zlen rows + size - 1) size ltac:(lia)) as E. pose proof (Z.mod_pos_bound (zlen rows + size - 1) size ltac:(lia)) as R.
  fold (page_count size (zlen rows)) in E. set (q := page_count size (zlen rows)) in *.
  assert (Q : 0 <= q) by nia.
  assert (Lq : zlen (map (page_at size rows) (seq 0 (Z.to_nat q))) = q) by (unfold zlen; rewrite length_map, length_seq; lia).
  split; [|split; [|split; [|exact Lq]]].
  - rewrite concat_pages by exact H. apply firstn_all2. unfold zlen in *. nia.
  - apply Forall_map, Forall_forall. intros k I. apply in_seq in I. rewrite page_at_length by exact H. nia.
  - intros k Hk. rewrite Lq in Hk.
    rewrite (nth_indep _ [] (page_at size rows 0)) by (rewrite length_map, length_seq; lia).
    rewrite map_nth, seq_nth, page_at_length by lia. nia.
Qed.

Lemma pages_divide_witness : 1 <= 10 /\ concat (create_pages 10 (map Z.of_nat (seq 0 23))) = map Z.of_nat (seq 0 23) /\
  zlen (create_pages 10 (map Z.of_nat (seq 0 23))) = 3.
Proof.
  split; [lia|]. destruct (pages_divide 10 (map Z.of_nat (seq 0 23)) ltac:(lia)) as (E & _ & _ & L).
  split; [exact E|]. rewrite L. reflexivity.
Defined.

(** ** Actions that return *)

Section Specs.

Context {A : Type} {N : Num A}.

#[local] Notation table := (@table A).
#[local] Notation action := (@action A).
#[local] Notation row := (@row A).

(** From [P] the action returns, and then [Q] holds. *)
Definition spec (P : table -> Prop) (c : action) (Q : table -> Prop) : Prop :=
  forall t, P t -> exists t', c t = (Ret tt, t') /\ Q t'.







Lemma spec_weaken (P P' Q Q' : table -> Prop) c : spec P c Q -> (forall t, P' t -> P t) -> (forall t, Q t -> Q' t) -> spec P' c Q'.
Proof. intros H HP HQ t Pt. destruct (H t (HP t Pt)) as (t' & E & Qt). exists t'. auto. Qed.


Definition mem (id : Z) (l : list Z) : bool := existsb (Z.eqb id) l.

Lemma mem_in id l : mem id l = true <-> In id l.
Proof.
  unfold mem. rewrite existsb_exists. split; [intros (x & I & E); apply Z.eqb_eq in E; subst; exact I|].
  intros I. exists id. split; [exact I|apply Z.eqb_refl].
Qed.




Lemma set_visible_twice b (r : row) : set_visible b (set_visible b r) = set_visible b r.
Proof. reflexivity. Qed.




End Specs.

(** ** The navigation *)











(** ** What the table shows *)

Section View.

Context {A : Type} {N : Num A}.

#[local] Notation table := (@table A).
#[local] Notation action := (@action A).
#[local] Notation row := (@row A).

Variable opt : @settings A.





















Hypothesis navigation_found : s_navigation opt = true.





(** ** Actions that leave the table calm *)







Hypothesis paging_on : s_page opt = true.





(** ** The operations *)

Context {S : ArraySort A}.

Variables toLowerCase toUpperCase : list Z -> list Z.
Variable show : A -> list Z.






















End View.


(** ** Sorting by insertion *)

Section Insertion.

Context {A : Type} {N : Num A}.

Fixpoint insert {T} (cmp : T -> T -> A) (x : T) (l : list T) : list T :=
  match l with
  | [] => [x]
  | y :: l => if ltb (of_Z 0) (cmp x y) then y :: insert cmp x l else x :: y :: l
  end.

Definition insertion_sort T (cmp : T -> T -> A) (l : list T) : list T := fold_right (insert cmp) [] l.

Lemma insert_permutation {T} cmp (x : T) l : Permutation (insert cmp x l) (x :: l).
Proof.
  induction l as [|y l IH]; [reflexivity|]. cbn. destruct (ltb _ _); [|reflexivity]. rewrite IH. apply perm_swap.
Qed.

Lemma insertion_permutation T cmp (l : list T) : Permutation (insertion_sort T cmp l) l.
Proof. induction l as [|x l IH]; [reflexivity|]. cbn. rewrite insert_permutation, IH. reflexivity. Qed.

Lemma insert_sorted {T} cmp (x : T) l all :
  consistent cmp all -> In x all -> (forall y, In y l -> In y all) ->
  StronglySorted (fun a b => ltb (of_Z 0) (cmp a b) = false) l ->
  StronglySorted (fun a b => ltb (of_Z 0) (cmp a b) = false) (insert cmp x l).
Proof.
  intros C Ix. induction l as [|y l IH]; intros Il H; cbn; [repeat constructor|].
  inversion H as [|? ? H1 H2]; subst. destruct (ltb (of_Z 0) (cmp x y)) eqn:E.
  - constructor; [apply IH; [intros z I; apply Il; right; exact I|exact H1]|].
    apply Forall_forall. intros z I. apply (Permutation_in _ (insert_permutation cmp x l)) in I as [<-|I].
    + apply (cmp_total _ _ C x y); auto. apply Il. left. reflexivity.
    + apply (proj1 (Forall_forall _ _) H2), I.
  - constructor; [exact H|]. constructor; [exact E|]. apply Forall_forall. intros z I.
    apply (cmp_trans _ _ C x y z); auto; [apply Il; left; reflexivity|apply Il; right; exact I|].
    apply (proj1 (Forall_forall _ _) H2), I.
Qed.

Lemma insertion_sorted T cmp (l : list T) : consistent cmp l ->
  StronglySorted (fun a b => ltb (of_Z 0) (cmp a b) = false) (insertion_sort T cmp l).
Proof.
  intros C. assert (G : forall m, (forall x, In x m -> In x l) -> StronglySorted (fun a b => ltb (of_Z 0) (cmp a b) = false) (insertion_sort T cmp m)).
  { induction m as [|x m IH]; intros I; cbn; [constructor|].
    eapply insert_sorted; [exact C|apply I; left; reflexivity| |apply IH; intros y J; apply I; right; exact J].
    intros y J. apply I. right. apply (Permutation_in _ (insertion_permutation _ _ _)) in J. exact J. }
  apply G. auto.
Qed.

Definition InsertionSort : ArraySort A :=
  {| array_sort := insertion_sort; array_sort_permutation := insertion_permutation; array_sort_sorted := insertion_sorted |}.

End Insertion.

(** ** A table *)

Definition ascii_lower (s : list Z) : list Z := map (fun c => if (65 <=? c) && (c <=? 90) then c + 32 else c) s.
Definition ascii_upper (s : list Z) : list Z := map (fun c => if (97 <=? c) && (c <=? 122) then c - 32 else c) s.

Definition sample_settings (limit : Z) : @settings F64.t :=
  mkSettings [(js "phone", F64.of_Z 480); (js "tablet", F64.of_Z 1024)] (js ":") true true true 2 limit false true 2 false
    (fun _ _ => true) (fun _ => true) (fun _ => true).

Definition sample_th (name : string) (type : string) : th :=
  mkTh (js name) [] (Some (js type)) None false false None 0 [] None false 0.

Definition sample_row (id : Z) (name amount : string) : @row F64.t :=
  mkRow id [mkCell (js name) Undefined true; mkCell (js amount) Undefined true] false false false false false true [].

Definition sample_table : @table F64.t :=
  mkTable [sample_row 1 "Bob" "12.5"; sample_row 2 "alice" "-3"; sample_row 3 "Carol" "100 ALIAS"; sample_row 4 "dave" "7"; sample_row 5 "Eve" "0.5"]
    (get_columns [] [] [sample_th "Name" "alpha"; sample_th "Amount" "numeric"]) [mkHeader false false true; mkHeader false false true]
    [] false None true None None None (mkPageInfo 0 0 0 [] None false) false 6.


#[local] Existing Instance InsertionSort.

Definition sample_view (t : @table F64.t) : list Z * list Z := (map r_id (t_rows t), map r_id (filter r_visible (t_rows t))).

Example sample_sorted :
  sample_view (snd (run ascii_lower ascii_upper F64.show (sample_settings 0) (SortColumn 1) (snd (setupPaging (sample_settings 0) sample_table)))) =
  ([2; 5; 4; 1; 3], [2; 5]).
Proof. vm_compute. reflexivity. Qed.


(** ** Filtering *)

Section Filtered.

Context {A : Type} {N : Num A} {S : ArraySort A}.

#[local] Notation table := (@table A).
#[local] Notation row := (@row A).

Variable toUpperCase : list Z -> list Z.
Variable show : A -> list Z.
Variable opt : @settings A.












Hypothesis navigation_found : s_navigation opt = true.
Hypothesis paging_on : s_page opt = true.




End Filtered.


(** Without an element for the navigation, a filter that no row has throws. *)
Example no_navigation_throws :
  let opt := mkSettings (s_breakpoints (sample_settings 0)) (js ":") true true true 2 0 false false 2 false (fun _ _ => true) (fun _ => true) (fun _ => true) in
  s_navigation opt = false /\
  fst (setupPaging opt sample_table) = Ret tt /\
  fst (filter_rows ascii_upper F64.show opt (js "nobody") (on_paging opt) (snd (setupPaging opt sample_table))) = Throw "info.control.find is not a function".
Proof. vm_compute. repeat split. Qed.

Example sample_filtered :
  sample_view (snd (run ascii_lower ascii_upper F64.show (sample_settings 0) (Filter (js "a e")) (snd (setupPaging (sample_settings 0) sample_table)))) =
  ([1; 2; 3; 4; 5], [2; 4]).
Proof. vm_compute. reflexivity. Qed.

(** ** The order of the rows *)

Section Order.

#[local] Open Scope Z_scope.

Context {S : ArraySort Qc}.

Variable toLowerCase : list Z -> list Z.

Lemma ltb_lt (x y : Qc) : ltb x y = true <-> (x < y)%Qc.
Proof.
  cbn. rewrite negb_true_iff. split.
  - intros H. apply Qcnot_le_lt. intros L. apply Qle_bool_iff in L. congruence.
  - intros H. destruct (Qle_bool y x) eqn:E; [|reflexivity]. apply Qle_bool_iff in E. destruct (Qclt_not_le _ _ H E).
Qed.


Lemma positive_difference (x y : Qc) : ltb (of_Z 0) (sub x y) = true <-> (y < x)%Qc.
Proof. rewrite ltb_lt. rewrite (Qclt_minus_iff y x). reflexivity. Qed.

Lemma negative_difference (x y : Qc) : ltb (sub y x) (of_Z 0) = true <-> (y < x)%Qc.
Proof.
  rewrite ltb_lt, (Qclt_minus_iff y x), (Qclt_minus_iff (sub y x) (of_Z 0)).
  replace (of_Z 0 + - sub y x)%Qc with (x + - y)%Qc; [reflexivity|]. cbn. change (Qc_of_Z 0) with 0%Qc. ring.
Qed.

Lemma numeric_opposite (a b : value Qc) : ltb (of_Z 0) (sorter_numeric a b) = ltb (sorter_numeric b a) (of_Z 0).
Proof. apply eq_true_iff_eq. unfold sorter_numeric. rewrite positive_difference, negative_difference. reflexivity. Qed.

(** The sign of a comparison of texts. *)
Lemma alpha_positive (s t : list Z) : ltb (of_Z 0) (sorter_alpha toLowerCase (Text s) (Text t) : Qc) = str_ltb (toLowerCase t) (toLowerCase s).
Proof.
  unfold sorter_alpha. cbn [lower strict_eq less]. destruct (str_eqb_spec (toLowerCase s) (toLowerCase t)) as [->|E].
  - rewrite str_ltb_irrefl. reflexivity.
  - destruct (str_ltb (toLowerCase s) (toLowerCase t)) eqn:L.
    + destruct (str_ltb (toLowerCase t) (toLowerCase s)) eqn:K; [|reflexivity].
      pose proof (str_ltb_trans _ _ _ L K) as F. rewrite str_ltb_irrefl in F. discriminate.
    + destruct (str_ltb (toLowerCase t) (toLowerCase s)) eqn:K; [reflexivity|]. destruct E. apply str_ltb_total; assumption.
Qed.

Lemma alpha_negative (s t : list Z) : ltb (sorter_alpha toLowerCase (Text s) (Text t) : Qc) (of_Z 0) = str_ltb (toLowerCase s) (toLowerCase t).
Proof.
  unfold sorter_alpha. cbn [lower strict_eq less]. destruct (str_eqb_spec (toLowerCase s) (toLowerCase t)) as [->|E].
  - rewrite str_ltb_irrefl. reflexivity.
  - destruct (str_ltb (toLowerCase s) (toLowerCase t)); reflexivity.
Qed.

Definition numeric (type : list Z) : bool := str_eqb type (js "numeric").

(** The values of a column that are compared with each other: numbers, or texts. *)
Definition comparable (type : list Z) (v : value Qc) : Prop :=
  match v with
  | Number _ => numeric type = true
  | Text _ => numeric type = false
  | _ => False
  end.

(** The order of the values of a column. *)
Definition not_after (v w : value Qc) : Prop :=
  match v, w with
  | Number x, Number y => (x <= y)%Qc
  | Text s, Text t => str_ltb (toLowerCase t) (toLowerCase s) = false
  | _, _ => False
  end.

Lemma sorter_not_after type v w : comparable type v -> comparable type w -> ltb (of_Z 0) (sorter toLowerCase type v w) = false <-> not_after v w.
Proof.
  unfold comparable, sorter, numeric. destruct v as [| | |x|s], w as [| | |y|t]; cbn [not_after]; try tauto; intros V W; rewrite V in *; try discriminate.
  - rewrite <- not_true_iff_false. unfold sorter_numeric. rewrite positive_difference. cbn [to_number]. split; [apply Qcnot_lt_le|].
    intros H K. exact (Qclt_not_le _ _ K H).
  - rewrite alpha_positive. reflexivity.
Qed.

Lemma sorter_opposite type v w : comparable type v -> comparable type w ->
  ltb (of_Z 0) (sorter toLowerCase type v w) = ltb (sorter toLowerCase type w v) (of_Z 0).
Proof.
  unfold comparable, sorter, numeric. destruct v as [| | |x|s], w as [| | |y|t]; try tauto; intros V W; rewrite V in *; try discriminate.
  - apply numeric_opposite.
  - rewrite alpha_positive, alpha_negative. reflexivity.
Qed.

Lemma not_after_trans u v w : not_after u v -> not_after v w -> not_after u w.
Proof.
  destruct u, v, w; cbn; try tauto; [apply Qcle_trans|]. intros H K.
  destruct (str_ltb (toLowerCase s1) (toLowerCase s)) eqn:E; [|reflexivity].
  destruct (str_ltb (toLowerCase s) (toLowerCase s0)) eqn:F.
  - rewrite (str_ltb_trans _ _ _ E F) in K. discriminate.
  - rewrite (str_ltb_total _ _ F H) in E. congruence.
Qed.

Lemma not_after_total u v type : comparable type u -> comparable type v -> ~ not_after u v -> not_after v u.
Proof.
  unfold comparable. destruct u, v; cbn; try tauto; try (intros; congruence).
  - intros _ _ H. apply Qclt_le_weak, Qcnot_le_lt, H.
  - intros _ _ H. destruct (str_ltb (toLowerCase s) (toLowerCase s0)) eqn:E; [|reflexivity].
    destruct (str_ltb (toLowerCase s0) (toLowerCase s)) eqn:F; [|destruct H; reflexivity].
    pose proof (str_ltb_trans _ _ _ E F) as K. rewrite str_ltb_irrefl in K. discriminate.
Qed.

Definition before (ascending : bool) (a b : @block Qc) : Prop :=
  if ascending then not_after (b_value a) (b_value b) else not_after (b_value b) (b_value a).

Lemma compare_before (column : @column Qc) ascending a b :
  comparable (type column) (b_value a) -> comparable (type column) (b_value b) ->
  ltb (of_Z 0) (compare_rows toLowerCase column ascending a b) = false <-> before ascending a b.
Proof. intros Ha Hb. unfold compare_rows, before. destruct ascending; apply sorter_not_after; assumption. Qed.

Lemma compare_consistent (column : @column Qc) ascending blocks :
  Forall (fun b => comparable (type column) (b_value b)) blocks -> consistent (compare_rows toLowerCase column ascending) blocks.
Proof.
  intros F. rewrite Forall_forall in F. constructor.
  - intros a b Ia Ib. unfold compare_rows. destruct ascending; apply sorter_opposite; auto.
  - intros a b Ia Ib H. apply compare_before; [auto|auto|].
    assert (K : ~ before ascending a b) by (rewrite <- (compare_before column) by auto; congruence).
    unfold before in *. destruct ascending; (eapply not_after_total; [| |exact K]); apply F; assumption.
  - intros a b c Ia Ib Ic. rewrite !compare_before by auto. unfold before. destruct ascending; intros H K; eapply not_after_trans; eassumption.
Qed.

(** C34: Sorting.  On a column of numbers, and on a column of texts (compared in lower case),
    sorting arranges the rows so that no value comes after a larger one (before one, if
    descending), whatever sorting method the browser has; every row takes its open detail
    along behind it; and where every detail row follows its row, no row of the table is lost
    or doubled.  Numbers are computed without rounding. *)
Theorem sort_orders (column : @column Qc) (ascending : bool) (rows : list (@row Qc)) :
  Forall (fun b => comparable (type column) (b_value b)) (rows_of column rows) ->
  exists blocks,
    sort toLowerCase column ascending rows = flat_map block_rows blocks /\
    Permutation blocks (rows_of column rows) /\
    StronglySorted (before ascending) blocks /\
    (flat_map block_rows (rows_of column rows) = rows -> Permutation (sort toLowerCase column ascending rows) rows).
Proof.
  intros F. set (blocks := array_sort (compare_rows toLowerCase column ascending) (rows_of column rows)).
  assert (P : Permutation blocks (rows_of column rows)) by apply array_sort_permutation.
  exists blocks. split; [reflexivity|]. split; [exact P|]. split.
  - pose proof (array_sort_sorted _ _ _ (compare_consistent column ascending _ F)) as H. fold blocks in H.
    assert (G : Forall (fun b => comparable (type column) (b_value b)) blocks) by (rewrite P; exact F).
    clear P. induction H as [|b l H IH K]; [constructor|]. inversion G as [|? ? G1 G2]; subst.
    constructor; [apply IH, G2|]. rewrite Forall_forall in *. intros c I. apply (compare_before column); auto.
  - intros E. unfold sort. fold blocks. rewrite P, E. reflexivity.
Qed.

End Order.

(** A table of numbers and names. *)
Definition exact_row (id : Z) (name amount : string) : @row Qc :=
  mkRow id [mkCell (js name) Undefined true; mkCell (js amount) Undefined true] false false false false false true [].

Definition exact_rows : list (@row Qc) := [exact_row 1 "Bob" "12.5"; exact_row 2 "alice" "-3"; exact_row 3 "Carol" "100 ALIAS"].

Definition exact_column : @column Qc := nth 1 (get_columns [] [] [sample_th "Name" "alpha"; sample_th "Amount" "numeric"]) (hd (mkColumn 0 [] [] [] false false [] [] None None false None false 0) []).

Lemma sort_orders_witness :
  exists blocks,
    sort (S := InsertionSort) ascii_lower exact_column true exact_rows = flat_map block_rows blocks /\
    Permutation blocks (rows_of exact_column exact_rows) /\
    StronglySorted (before ascii_lower true) blocks /\
    (flat_map block_rows (rows_of exact_column exact_rows) = exact_rows -> Permutation (sort (S := InsertionSort) ascii_lower exact_column true exact_rows) exact_rows).
Proof. refine (@sort_orders InsertionSort ascii_lower exact_column true exact_rows _). repeat constructor. Defined.

(** ** Columns *)

Section ColumnRanges.

Context {A : Type} {N : Num A}.

Variable breakpoints : list (list Z * A).
Variable groups : list (list Z * @cell A).

(** The number of columns of the body under a header cell. *)
Definition span (t : th) : Z := if 1 <? th_colspan t then th_colspan t else 1.
Definition spans (ths : list th) : Z := fold_right (fun t n => span t + n) 0 ths.

Lemma seq_plus n m : forall b, seq (n + b) m = map (Nat.add n) (seq b m).
Proof. induction m as [|m IH]; intros b; [reflexivity|]. cbn [seq map]. rewrite <- IH. do 2 f_equal. lia. Qed.

Lemma numbers_app a n m : 0 <= n -> 0 <= m -> numbers_from a (Z.to_nat n) ++ numbers_from (a + n) (Z.to_nat m) = numbers_from a (Z.to_nat (n + m)).
Proof.
  intros Hn Hm. unfold numbers_from. replace (Z.to_nat (n + m)) with (Z.to_nat n + Z.to_nat m)%nat by lia.
  rewrite seq_app, map_app. f_equal. replace (0 + Z.to_nat n)%nat with (Z.to_nat n + 0)%nat by lia. rewrite seq_plus, map_map.
  apply map_ext. intros k. lia.
Qed.

Lemma numbers_in a n i : In i (numbers_from a (Z.to_nat n)) <-> a <= i < a + n.
Proof.
  unfold numbers_from. rewrite in_map_iff. split.
  - intros (k & <- & I). apply in_seq in I. lia.
  - intros H. exists (Z.to_nat (i - a)). split; [lia|]. apply in_seq. lia.
Qed.

Definition extra (prev : option th) : Z := match prev with Some p => span p - 1 | None => 0 end.

Lemma spans_nonneg ths : 0 <= spans ths.
Proof. induction ths as [|t ths IH]; [reflexivity|]. change (spans (t :: ths)) with (span t + spans ths). unfold span. zcase; lia. Qed.

Lemma columns_matches ths : forall prev i off,
  concat (map matches (columns_from breakpoints groups prev ths i off)) = numbers_from (i + off + extra prev) (Z.to_nat (spans ths)).
Proof.
  induction ths as [|t ths IH]; intros prev i off; [reflexivity|].
  cbn [columns_from]. unfold getColumnData. cbv zeta. cbn [map concat matches].
  assert (X : (if 1 <? match prev with Some p => th_colspan p | None => 0 end then match prev with Some p => th_colspan p | None => 0 end - 1 else 0) = extra prev)
    by (destruct prev as [p|]; [unfold extra, span; cbv iota; destruct (1 <? th_colspan p); lia|reflexivity]).
  rewrite X, IH. set (s := i + (off + extra prev)).
  assert (M : (if 1 <? th_colspan t then numbers_from s (Z.to_nat (th_colspan t)) else [s]) = numbers_from s (Z.to_nat (span t))).
  { unfold span. zcase; [reflexivity|]. unfold numbers_from. change (Z.to_nat 1) with 1%nat. cbn [seq map]. change (Z.of_nat 0) with 0. rewrite Z.add_0_r. reflexivity. }
  rewrite M. change (spans (t :: ths)) with (span t + spans ths). rewrite <- numbers_app; [|unfold span; zcase; lia|apply spans_nonneg].
  f_equal; [f_equal; lia|]. f_equal. unfold extra. subst s. lia.
Qed.

Lemma columns_length ths : forall prev i off, List.length (columns_from breakpoints groups prev ths i off) = List.length ths.
Proof. induction ths as [|t ths IH]; intros prev i off; [reflexivity|]. cbn. f_equal. apply IH. Qed.

Lemma find_concat i (cols : list (@column A)) : In i (concat (map matches cols)) -> exists c, getColumnFromTdIndex i cols = Some c /\ In c cols /\ In i (matches c).
Proof.
  intros I. unfold getColumnFromTdIndex. destruct (find _ cols) as [c|] eqn:E.
  - exists c. split; [reflexivity|]. apply find_some in E as [J K]. split; [exact J|]. apply mem_in, K.
  - apply in_concat in I as (l & J & I). apply in_map_iff in J as (c & <- & J). pose proof (find_none _ _ E c J) as K.
    exfalso. apply (proj2 (mem_in i (matches c))) in I. unfold mem in I. cbn beta in K. congruence.
Qed.

(** C37: The columns of a table whose header cells span several columns: the cells of a row that
    the header cells claim are, in the order of the header, 0, 1, 2 and so on to the sum of the
    spans, each claimed once; [getColumnFromTdIndex] finds the column of every one of them,
    and none for a cell beyond. *)
Theorem columns_cover (ths : list th) (i : Z) :
  let cols := get_columns breakpoints groups ths in
  concat (map matches cols) = numbers_from 0 (Z.to_nat (spans ths)) /\
  List.length cols = List.length ths /\
  (0 <= i < spans ths -> exists c, getColumnFromTdIndex i cols = Some c /\ In c cols /\ In i (matches c)) /\
  (i < 0 \/ spans ths <= i -> getColumnFromTdIndex i cols = None).
Proof.
  intros cols. assert (E : concat (map matches cols) = numbers_from 0 (Z.to_nat (spans ths))) by apply (columns_matches ths None 0 0).
  split; [exact E|]. split.
  { apply columns_length. }
  pose proof (spans_nonneg ths). split.
  - intros H0. apply find_concat. rewrite E. apply numbers_in. lia.
  - intros H0. destruct (getColumnFromTdIndex i cols) as [c|] eqn:F; [|reflexivity]. exfalso.
    unfold getColumnFromTdIndex in F. apply find_some in F as [J K]. apply mem_in in K.
    assert (I : In i (concat (map matches cols))) by (apply in_concat; exists (matches c); split; [apply in_map, J|exact K]).
    rewrite E in I. apply numbers_in in I. lia.
Qed.

End ColumnRanges.

(** ** Breakpoints *)

Section Widths.

Context {S : ArraySort Qc}.

Variable opt : @settings Qc.
Hypothesis widths : Forall (fun b => (0 < snd b)%Qc) (s_breakpoints opt).

Definition smaller_first (a b : list Z * Qc) : Qc := sub (snd a) (snd b).

Lemma widths_consistent (l : list (list Z * Qc)) : consistent smaller_first l.
Proof.
  constructor; unfold smaller_first.
  - intros a b _ _. apply eq_true_iff_eq. rewrite positive_difference, negative_difference. reflexivity.
  - intros a b _ _ H. rewrite <- not_true_iff_false, positive_difference in *. intros K. exact (Qclt_not_le _ _ H (Qclt_le_weak _ _ K)).
  - intros a b c _ _ _ H K. rewrite <- not_true_iff_false, positive_difference in *. intros L.
    apply Qcnot_lt_le in H, K. exact (Qclt_not_le _ _ L (Qcle_trans _ _ _ H K)).
Qed.

Lemma sorted_first (w : Qc) (l : list (list Z * Qc)) :
  Forall (fun b => (0 < snd b)%Qc) l -> StronglySorted (fun a b => ltb (of_Z 0) (smaller_first a b) = false) l ->
  match current_breakpoint w l with
  | Some n => exists x, In (n, x) l /\ (w <= x)%Qc /\ forall m y, In (m, y) l -> (w <= y)%Qc -> (x <= y)%Qc
  | None => forall m y, In (m, y) l -> (y < w)%Qc
  end.
Proof.
  induction l as [|[n x] l IH]; intros P H; [intros m y []|]. inversion P as [|? ? P1 P2]; subst. inversion H as [|? ? H1 H2]; subst.
  cbn [current_breakpoint]. cbn [snd] in P1.
  assert (T : truthy (Number x) = true).
  { unfold truthy, isNaN. change (eqb x x) with (Qeq_bool x x). change (eqb x (of_Z 0)) with (Qeq_bool x (Qc_of_Z 0)).
    destruct (Qeq_bool x (Qc_of_Z 0)) eqn:E.
    - apply Qeq_bool_eq in E. exfalso. apply (Qclt_not_eq _ _ P1). symmetry. apply Qc_is_canon. exact E.
    - rewrite (proj2 (Qeq_bool_iff x x)) by reflexivity. reflexivity. }
  rewrite T. cbn [andb].
  assert (L : ltb w x || eqb w x = true <-> (w <= x)%Qc).
  { rewrite orb_true_iff, ltb_lt. cbn. rewrite Qeq_bool_iff. split.
    - intros [K|K]; [apply Qclt_le_weak, K|]. rewrite (Qc_is_canon _ _ K). apply Qcle_refl.
    - intros K. destruct (Qc_dec w x) as [[D|D]|D]; [left; exact D|destruct (Qclt_not_le _ _ D K)|right; rewrite D; reflexivity]. }
  destruct (ltb w x || eqb w x) eqn:E.
  - exists x. split; [left; reflexivity|]. split; [apply L; reflexivity|]. intros m y [[= <- <-]|I] _; [apply Qcle_refl|].
    rewrite Forall_forall in H2. specialize (H2 _ I). rewrite <- not_true_iff_false in H2. unfold smaller_first in H2. rewrite positive_difference in H2.
    apply Qcnot_lt_le, H2.
  - assert (K : (x < w)%Qc) by (apply Qcnot_le_lt; intros F; apply L in F; discriminate).
    specialize (IH P2 H1). destruct (current_breakpoint w l) as [m|].
    + destruct IH as (y & I & F & G). exists y. split; [right; exact I|]. split; [exact F|].
      intros m' y' [[= <- <-]|J] M; [destruct (Qclt_not_le _ _ K M)|exact (G _ _ J M)].
    + intros m y [[= <- <-]|I]; [exact K|eapply IH, I].
Qed.

(** Breakpoints.  Whatever the order in which the options name the widths, [resize] picks
    the smallest breakpoint that is at least as wide as the table, and none (the name
    'default') exactly when the table is wider than all of them. *)
Theorem breakpoint_smallest (w : Qc) :
  match current_breakpoint w (breakpoints opt (sorter := @array_sort Qc _ S)) with
  | Some n => exists x, In (n, x) (s_breakpoints opt) /\ (w <= x)%Qc /\ forall m y, In (m, y) (s_breakpoints opt) -> (w <= y)%Qc -> (x <= y)%Qc
  | None => forall m y, In (m, y) (s_breakpoints opt) -> (y < w)%Qc
  end.
Proof.
  pose proof (array_sort_permutation _ (fun a b => sub (snd a) (snd b)) (s_breakpoints opt)) as P.
  pose proof (array_sort_sorted _ _ _ (widths_consistent (s_breakpoints opt))) as H.
  assert (F : Forall (fun b => (0 < snd b)%Qc) (array_sort smaller_first (s_breakpoints opt))) by (fold smaller_first in P; rewrite P; exact widths).
  pose proof (sorted_first w _ F H) as K. unfold breakpoints. fold smaller_first. fold smaller_first in P.
  destruct (current_breakpoint w _) as [n|].
  - destruct K as (x & I & L & M). exists x. split; [apply (Permutation_in _ P), I|]. split; [exact L|].
    intros m y J. exact (M m y (Permutation_in _ (Permutation_sym P) J)).
  - intros m y J. exact (K m y (Permutation_in _ (Permutation_sym P) J)).
Qed.

End Widths.

Definition exact_settings : @settings Qc :=
  mkSettings [(js "tablet", of_Z 1024); (js "phone", of_Z 480)] (js ":") true true true 2 0 false true 2 false
    (fun _ _ => true) (fun _ => true) (fun _ => true).

Lemma breakpoint_smallest_witness :
  match current_breakpoint (of_Z 600) (breakpoints exact_settings (sorter := @array_sort Qc _ InsertionSort)) with
  | Some n => exists x, In (n, x) (s_breakpoints exact_settings) /\ (of_Z 600 <= x)%Qc /\
                forall m y, In (m, y) (s_breakpoints exact_settings) -> (of_Z 600 <= y)%Qc -> (x <= y)%Qc
  | None => forall m y, In (m, y) (s_breakpoints exact_settings) -> (y < of_Z 600)%Qc
  end.
Proof. refine (@breakpoint_smallest InsertionSort exact_settings _ (of_Z 600)). repeat constructor. Defined.

Lemma columns_cover_witness :
  let ths := [sample_th "Name" "alpha"; mkTh (js "Amounts") [] None None false false None 3 [] None false 0] in
  concat (map matches (get_columns ([] : list (list Z * F64.t)) [] ths)) = numbers_from 0 (Z.to_nat (spans ths)) /\
  getColumnFromTdIndex 4 (get_columns ([] : list (list Z * F64.t)) [] ths) = None.
Proof.
  intros ths. destruct (columns_cover ([] : list (list Z * F64.t)) [] ths 4) as (E & _ & _ & H).
  split; [exact E|]. apply H. right. vm_compute. discriminate.
Defined.

(** ** Details *)

Section Details.

Context {A : Type} {N : Num A}.

#[local] Notation entry := (@entry A).

Definition key_of (e : entry) : list Z := match e_group e with Some g => g | None => js "_none" end.

Definition no_inherited (data : list entry) : Prop :=
  Forall (fun e => match e_group e with Some g => in_texts g inherited = false | None => True end) data.

Lemma lookup_none_in {V} (k : list Z) (l : list (list Z * V)) : lookup k l = None <-> ~ In k (map fst l).
Proof.
  induction l as [|[k' v] l IH]; cbn; [tauto|]. destruct (str_eqb_spec k' k) as [->|E]; [split; [discriminate|intros H; destruct H; auto]|].
  rewrite IH. intuition congruence.
Qed.

Lemma push_entry_keys g (e : entry) l : map fst (push_entry g e l) = map fst l.
Proof. induction l as [|[k [n es]] l IH]; [reflexivity|]. cbn. destruct (str_eqb k g); cbn; congruence. Qed.

Lemma push_entry_permutation g (e : entry) (l : groups_of) :
  In g (map fst l) -> Permutation (flat_map (fun k => snd (snd k)) (push_entry g e l)) (e :: flat_map (fun k => snd (snd k)) l).
Proof.
  induction l as [|[k [n es]] l IH]; [intros []|]. cbn. destruct (str_eqb_spec k g) as [->|E].
  - intros _. cbn. rewrite <- app_assoc. cbn. symmetry. apply Permutation_middle.
  - intros [E'|I]; [congruence|]. cbn. rewrite IH by exact I. symmetry. apply Permutation_middle.
Qed.

(** The groups made so far. *)
Record grouped (data : list entry) (l : groups_of) : Prop := {
  grouped_none : In (js "_none") (map fst l);
  grouped_all : Permutation (flat_map (fun k => snd (snd k)) l) data
}.

Lemma group_entry_grouped data l e :
  grouped data l -> match e_group e with Some g => in_texts g inherited = false | None => True end ->
  exists l', group_entry (Some l) e = Some l' /\ grouped (data ++ [e]) l'.
Proof.
  intros [H P] I. unfold group_entry.
  assert (K : forall g, In g (map fst l) -> grouped (data ++ [e]) (push_entry g e l)).
  { intros g J. constructor; [rewrite push_entry_keys; exact H|]. rewrite push_entry_permutation, P by exact J. apply Permutation_cons_append. }
  destruct (e_group e) as [g|]; [|exists (push_entry (js "_none") e l); auto].
  destruct (lookup g l) as [v|] eqn:E.
  - exists (push_entry g e l). split; [reflexivity|]. apply K. destruct (in_dec (list_eq_dec Z.eq_dec) g (map fst l)) as [J|J]; [exact J|].
    apply lookup_none_in in J. congruence.
  - rewrite I. eexists. split; [reflexivity|]. constructor; [rewrite map_app; apply in_or_app; auto|].
    rewrite flat_map_app. cbn. rewrite P. reflexivity.
Qed.

Lemma createGroupedDetail_grouped data : no_inherited data -> exists l, createGroupedDetail data = Some l /\ grouped data l.
Proof.
  intros I. unfold createGroupedDetail.
  assert (G : forall data done l, grouped done l -> no_inherited data ->
    exists l', fold_left group_entry data (Some l) = Some l' /\ grouped (done ++ data) l').
  { clear data I. intros data. induction data as [|e data IH]; intros done l G I; [rewrite app_nil_r; exists l; split; [reflexivity|exact G]|]. apply Forall_cons_iff in I as [I1 I2].
    cbn [fold_left]. destruct (group_entry_grouped done l e G I1) as (l' & E & G'). rewrite E.
    destruct (IH (done ++ [e]) l' G' I2) as (l2 & F & K). exists l2. rewrite <- app_assoc in K. auto. }
  apply (G data [] [(js "_none", (Null, []))]); [|exact I]. constructor; [left; reflexivity|reflexivity].
Qed.

Lemma insert_key_permutation v (k : list Z * (value A * list entry)) l : Permutation (map snd (insert_key v k l)) (k :: map snd l).
Proof.
  induction l as [|[v' k'] l IH]; [reflexivity|]. cbn. destruct (v <? v'); [reflexivity|]. cbn. rewrite IH. apply perm_swap.
Qed.

Lemma for_in_permutation (l : @groups_of A) : Permutation (for_in l) l.
Proof.
  unfold for_in. set (f := fun acc (k : list Z * (value A * list entry)) => _).
  assert (G : forall l acc, Permutation (map snd (fold_left f l acc) ++ filter (fun k => match index_key (fst k) with Some _ => false | None => true end) l) (map snd acc ++ l)).
  { clear l. induction l as [|k l IH]; intros acc; [reflexivity|]. cbn [fold_left filter]. unfold f at 2.
    destruct (index_key (fst k)) as [v|].
    - rewrite IH, insert_key_permutation. cbn. apply Permutation_middle.
    - rewrite <- Permutation_middle, IH. apply Permutation_middle. }
  apply (G l []).
Qed.

Definition is_line (l : @line A) : bool := match l with Line _ _ => true | GroupTitle _ => false end.

Lemma group_lines_lines separator (g : list Z * (value A * list entry)) :
  filter is_line (group_lines separator g) = map (entry_line separator) (snd (snd g)).
Proof.
  destruct g as [k [n es]]. cbn [snd]. unfold group_lines. destruct es as [|e es]; [reflexivity|].
  rewrite filter_app. replace (filter is_line (if str_eqb k (js "_none") then [] else [GroupTitle n])) with (@nil (@line A)) by (destruct (str_eqb _ _); reflexivity).
  cbn [app]. generalize (e :: es). intros l. induction l as [|x l IH]; [reflexivity|]. cbn. rewrite IH. reflexivity.
Qed.

Lemma inherited_throws (data : list entry) (l : @groups_of A) : ~ no_inherited data -> (forall g, In g (map fst l) -> in_texts g inherited = false) ->
  fold_left (@group_entry A N) data (Some l) = None.
Proof.
  revert l. induction data as [|e data IH]; intros l H K; [destruct H; constructor|]. cbn [fold_left].
  assert (Z : forall d, fold_left (@group_entry A N) d None = None) by (induction d as [|? d IHd]; [reflexivity|exact IHd]).
  unfold group_entry at 2. destruct (e_group e) as [g|] eqn:E.
  - destruct (lookup g l) as [v|] eqn:F.
    + apply IH; [|rewrite push_entry_keys; exact K]. intros D. apply H. constructor; [|exact D]. rewrite E. apply K.
      destruct (in_dec (list_eq_dec Z.eq_dec) g (map fst l)) as [J|J]; [exact J|]. apply lookup_none_in in J. congruence.
    + destruct (in_texts g inherited) eqn:G; [apply Z|]. apply IH.
      * intros D. apply H. constructor; [rewrite E; exact G|exact D].
      * intros g' I. rewrite map_app in I. apply in_app_or in I as [I|[<-|[]]]; [apply K, I|exact G].
  - apply IH; [|rewrite push_entry_keys; exact K]. intros D. apply H. constructor; [rewrite E; exact Logic.I|exact D].
Qed.

(** C38: What a breakpoint hides, the detail shows.  However the columns are grouped,
    [createDetail] writes one line for every hidden value, no value left out and none twice,
    with its name, the separator where there is a name, and its contents - unless a group is
    named like a property that every object inherits ('constructor', say), when it throws. *)
Theorem detail_complete (data : list entry) (separator : list Z) :
  (no_inherited data ->
    exists lines, createDetail data separator = Some lines /\
      Permutation (filter is_line lines) (map (entry_line separator) data)) /\
  (~ no_inherited data -> createDetail data separator = None).
Proof.
  split.
  - intros I. destruct (createGroupedDetail_grouped data I) as (l & E & _ & P). unfold createDetail. rewrite E. eexists. split; [reflexivity|].
    transitivity (map (entry_line separator) (flat_map (fun k => snd (snd k)) (for_in l))).
    2: { apply Permutation_map. transitivity (flat_map (fun k => snd (snd k)) l); [apply Permutation_flat_map, for_in_permutation|exact P]. }
    generalize (for_in l). intros m. induction m as [|g m IH]; [reflexivity|].
    cbn [flat_map]. rewrite filter_app, group_lines_lines, map_app. apply Permutation_app_head, IH.
  - intros H. unfold createDetail, createGroupedDetail. rewrite inherited_throws; [reflexivity|exact H|].
    intros g [<-|[]]. reflexivity.
Qed.

End Details.

Lemma detail_complete_witness :
  let e g n d := mkEntry (A := F64.t) (js n) (Text []) (js d) g None in
  let data := [e (Some (js "fees")) "Network" "0.1"; e None "Label" "rent"; e (Some (js "fees")) "Total" "0.3"]%string in
  exists lines, createDetail data (js ":") = Some lines /\ Permutation (filter is_line lines) (map (entry_line (js ":")) data).
Proof. intros e data. refine (proj1 (detail_complete data (js ":")) _). repeat constructor. Defined.

(** ** Divergences *)

(** A row is expanded where nothing is hidden from it: no detail row is made, and the row that
    follows, filtered out, is shown. *)
Definition toggled_table : @table F64.t :=
  let t := snd (run ascii_lower ascii_upper F64.show (sample_settings 0) (Filter (js "bob")) (snd (setupPaging (sample_settings 0) sample_table))) in
  set_rows (map (set_bound true) (t_rows t)) t.

Example toggle_shows_filtered :
  snd (sample_view toggled_table) = [1] /\
  snd (sample_view (snd (toggleDetail (sample_settings 0) 1 toggled_table))) = [1; 2].
Proof. split; vm_compute; reflexivity. Qed.

(** A number and a text are each after the other. *)
Example mixed_alpha_order :
  F64.show (sorter_alpha ascii_lower (Text (js "abc")) (Number (F64.of_Z 5))) = js "1" /\
  F64.show (sorter_alpha ascii_lower (Number (F64.of_Z 5)) (Text (js "abc"))) = js "1".
Proof. split; vm_compute; reflexivity. Qed.

Lemma mixed_alpha_inconsistent : ~ consistent (sorter_alpha (A := F64.t) ascii_lower) [Text (js "abc"); Number (F64.of_Z 5)].
Proof.
  intros [_ T _]. specialize (T (Text (js "abc")) (Number (F64.of_Z 5)) (or_introl eq_refl) (or_intror (or_introl eq_refl))).
  vm_compute in T. specialize (T eq_refl). discriminate T.
Qed.

(** A limited navigation that is set up again shows the first pages, whatever the current one:
    the third page of a table is shown, and no button for it. *)
Definition third_page : @table F64.t :=
  let opt := sample_settings 2 in
  let t := snd (setupPaging opt sample_table) in
  let t := snd (click opt Last t) in
  snd (setupPaging opt t).

Example limited_navigation_forgets :
  currentPage (t_pageInfo third_page) = 2 /\ snd (sample_view third_page) = [5] /\
  option_map pages_shown (control (t_pageInfo third_page)) = Some [0; 1].
Proof. repeat split; vm_compute; reflexivity. Qed.

Definition last_page_clicked : @table F64.t :=
  let opt := sample_settings 2 in snd (click opt Last (snd (setupPaging opt sample_table))).

Example limited_navigation_follows :
  option_map pages_shown (control (t_pageInfo last_page_clicked)) = Some [2].
Proof. vm_compute. reflexivity. Qed.
