(* ===== verification/FooTimer.v ===== *)
(** * The timers of tables (footable)

    The Timer of footable.js and its use by the filter (footable.filter.js): the field of the
    filter starts a timer with every key and the filter runs when no key has followed for a
    while.  The timeouts of the browser are modelled as the pending calls with their times. *)

From Stdlib Require Import String ZArith Lia List Bool.
From S2P Require Import Prelude Js.
Import ListNotations.
#[local] Open Scope Z_scope.

Module FooTimer.

(** ** Timers *)

Record Timer : Type := mkTimer { id : option Z; busy : bool }.

(** The page: the time, the timeouts that are pending (their numbers and times), the next
    number, the timer of the filter, the text in its field, and the calls of the filter. *)
Record page : Type := mkPage {
  now : Z;
  pending : list (Z * Z);
  fresh : Z;
  timer : Timer;
  field : list Z;
  filters : list (list Z)
}.

Definition new_Timer : Timer := mkTimer None false.

Definition clearTimeout (i : Z) (p : page) : page :=
  mkPage (now p) (filter (fun x => negb (fst x =? i)) (pending p)) (fresh p) (timer p) (field p) (filters p).

Definition setTimeout (milliseconds : Z) (p : page) : page * Z :=
  (mkPage (now p) (pending p ++ [(fresh p, now p + milliseconds)]) (fresh p + 1) (timer p) (field p) (filters p), fresh p).

Definition set_timer (t : Timer) (p : page) : page := mkPage (now p) (pending p) (fresh p) t (field p) (filters p).

Definition stop (p : page) : page :=
  match id (timer p) with
  | Some i => set_timer (mkTimer None false) (clearTimeout i p)
  | None => p
  end.

Definition start (milliseconds : Z) (p : page) : page :=
  if busy (timer p) then p
  else
    let p := stop p in
    let '(p, i) := setTimeout milliseconds p in
    set_timer (mkTimer (Some i) true) p.

(** ** The filter *)

(** The code of the timer: the filter with the text of the field, then the timer is free. *)
Definition fire (p : page) : page :=
  mkPage (now p) (pending p) (fresh p) (mkTimer None false) (field p) (filters p ++ [field p]).

(** The handler of keyup; [escape] is the key 27. *)
Definition keyup (timeout : Z) (escape : bool) (p : page) : page :=
  let p := stop p in
  let p := if escape then mkPage (now p) (pending p) (fresh p) (timer p) [] (filters p) else p in
  start timeout p.

(** What happens: the user types a text and releases a key, or time goes by. *)
Inductive event : Type := Key (text : list Z) (escape : bool) | Wait (milliseconds : Z).

(** The pending timeouts that are due run. *)
Fixpoint fire_all (due : list (Z * Z)) (p : page) : page :=
  match due with
  | [] => p
  | _ :: due => fire_all due (fire p)
  end.

Definition wait (d : Z) (p : page) : page :=
  let t := now p + d in
  let due := filter (fun x => snd x <=? t) (pending p) in
  fire_all due (mkPage t (filter (fun x => negb (snd x <=? t)) (pending p)) (fresh p) (timer p) (field p) (filters p)).

Definition step (timeout : Z) (p : page) (e : event) : page :=
  match e with
  | Key text escape => keyup timeout escape (mkPage (now p) (pending p) (fresh p) (timer p) text (filters p))
  | Wait d => wait d p
  end.

Definition run (timeout : Z) (events : list event) (p : page) : page := fold_left (step timeout) events p.

Definition new_page : page := mkPage 0 [] 0 new_Timer [] [].

(** ** The timer and the timeouts *)

(** Either the timer is free and nothing is pending, or the timer waits for the one timeout
    that is pending. *)
Inductive ok (p : page) : Prop :=
| ok_free : timer p = mkTimer None false -> pending p = [] -> ok p
| ok_waiting i t : timer p = mkTimer (Some i) true -> pending p = [(i, t)] -> ok p.

Definition waiting (t : Z) (p : page) : Prop := exists i, timer p = mkTimer (Some i) true /\ pending p = [(i, t)].

Lemma stop_free p : ok p -> timer (stop p) = mkTimer None false /\ pending (stop p) = [] /\ now (stop p) = now p /\ field (stop p) = field p /\ filters (stop p) = filters p.
Proof.
  unfold stop. intros [E F|i t E F]; rewrite E; cbn [id]; [auto|]. cbn. rewrite F. cbn. rewrite Z.eqb_refl. auto.
Qed.

Lemma key_waits timeout p text escape : ok p ->
  let p' := step timeout p (Key text escape) in
  waiting (now p + timeout) p' /\ now p' = now p /\ field p' = (if escape then [] else text) /\ filters p' = filters p.
Proof.
  intros H p'. unfold p', step, keyup. set (p0 := mkPage (now p) (pending p) (fresh p) (timer p) text (filters p)).
  assert (H0 : ok p0) by (destruct H as [E F|i t E F]; [left|apply (ok_waiting p0 i t)]; assumption).
  destruct (stop_free p0 H0) as (E & F & G & K & L). cbv zeta.
  destruct (stop p0) as [n pe fr ti fi cs]. cbn in E, F, G, K, L. subst.
  destruct escape; cbn; (split; [exists fr; split; reflexivity|auto]).
Qed.

Lemma wait_waits p t d : waiting t p -> now p + d < t ->
  let p' := wait d p in waiting t p' /\ now p' = now p + d /\ field p' = field p /\ filters p' = filters p.
Proof.
  intros (i & E & F) H p'. unfold p', wait. rewrite F. cbn. rewrite (proj2 (Z.leb_gt _ _)) by lia. cbn.
  split; [exists i; auto|auto].
Qed.

Lemma wait_fires p t d : waiting t p -> t <= now p + d ->
  filters (wait d p) = filters p ++ [field p] /\ timer (wait d p) = mkTimer None false /\ pending (wait d p) = [].
Proof.
  intros (i & E & F) H. unfold wait. rewrite F. cbn. rewrite (proj2 (Z.leb_le _ _)) by lia. cbn. auto.
Qed.

Lemma step_ok timeout p e : ok p -> ok (step timeout p e).
Proof.
  intros H. destruct e as [text escape|d].
  - destruct (key_waits timeout p text escape H) as ((i & E & F) & _). eapply ok_waiting; eassumption.
  - cbn [step]. destruct H as [E F|i t E F].
    + left; unfold wait; rewrite F; [exact E|reflexivity].
    + destruct (Z.lt_ge_cases (now p + d) t) as [L|L].
      * destruct (wait_waits p t d) as ((j & E' & F') & _); [exists i; auto|exact L|]. eapply ok_waiting; eassumption.
      * destruct (wait_fires p t d) as (_ & E' & F'); [exists i; auto|exact L|]. left; assumption.
Qed.

Lemma run_ok timeout events p : ok p -> ok (run timeout events p).
Proof. revert p. induction events as [|e events IH]; intros p H; [exact H|]. apply IH, step_ok, H. Qed.

(** A burst of keys with less than the timeout between one and the next. *)
Fixpoint burst (keys : list (list Z * bool * Z)) : list event :=
  match keys with
  | [] => []
  | (text, escape, d) :: keys => Key text escape :: Wait d :: burst keys
  end.

Lemma burst_quiet timeout keys p : ok p -> Forall (fun k => 0 <= snd k < timeout) keys ->
  filters (run timeout (burst keys) p) = filters p /\ ok (run timeout (burst keys) p).
Proof.
  revert p. induction keys as [|[[text escape] d] keys IH]; intros p H F; [auto|].
  apply Forall_cons_iff in F as [Fd F]. cbn [burst run fold_left].
  destruct (key_waits timeout p text escape H) as (W & E1 & _ & E2). set (p1 := step timeout p (Key text escape)) in *.
  destruct (wait_waits p1 (now p + timeout) d W) as ((i & E3 & F3) & _ & _ & E4); [cbn in Fd; lia|].
  change (step timeout p1 (Wait d)) with (wait d p1). rewrite <- E2, <- E4.
  apply IH; [|exact F]. eapply ok_waiting; eassumption.
Qed.

(** C36: The filter follows the typing.  Whatever has been typed before, a burst of keys with
    pauses shorter than the timeout runs no filter, and once no key follows its last one for
    the timeout, the filter runs - exactly once, with the text that then stands in the field
    (none after the escape key) - and the timer is free again. *)
Theorem filter_follows (timeout : Z) (events : list event) (keys : list (list Z * bool * Z)) (text : list Z) (escape : bool) (d : Z) :
  Forall (fun k => 0 <= snd k < timeout) keys -> timeout <= d ->
  let before := run timeout events new_page in
  let after := run timeout (burst keys ++ [Key text escape; Wait d]) before in
  filters after = filters before ++ [if escape then [] else text] /\
  timer after = mkTimer None false /\ pending after = [].
Proof.
  intros F L before after. assert (H : ok before) by (apply run_ok; left; reflexivity).
  unfold after, run. rewrite fold_left_app. fold (run timeout (burst keys) before).
  destruct (burst_quiet timeout keys before H F) as [E K]. set (p := run timeout (burst keys) before) in *.
  cbn [fold_left]. destruct (key_waits timeout p text escape K) as (W & E1 & E2 & E3).
  set (p1 := step timeout p (Key text escape)) in *. change (step timeout p1 (Wait d)) with (wait d p1).
  destruct (wait_fires p1 (now p + timeout) d W) as (G1 & G2 & G3); [lia|]. rewrite G1, E2, E3, E. auto.
Qed.

Lemma filter_follows_witness :
  filters (run 300 (burst [(js "a", false, 100); (js "al", false, 250)] ++ [Key (js "ali") false; Wait 300]) (run 300 [Key (js "x") false] new_page)) =
  [] ++ [js "ali"].
Proof.
  refine (proj1 (@filter_follows 300 [Key (js "x") false] [(js "a", false, 100); (js "al", false, 250)] (js "ali") false 300 _ _)); [|lia].
  repeat constructor; cbn; lia.
Defined.

End FooTimer.
