(* ===== verification/FooInputs.v ===== *)
(** * Fields in tables: their way between cells and details (footable)

    src/src/qt/res/assets/plugins/footable/footable.js: the contents of a cell that can be
    edited move to the detail of the row when the cell is hidden, and back; the cell and its
    place in the detail carry one name.  The functions are those of FooTable.v, seen on the
    contents of the cells: a cell is the list of the nodes in it, and the copies that are
    shown of other cells are nodes that are marked.  [ignored] and [editable] are what the
    column of a cell says ([getColumnFromTdIndex(index).ignore] and [.isEditable]); the order
    in a detail, which groups of columns change, plays no part. *)

From Stdlib Require Import String ZArith List Bool.
From S2P Require Import Prelude Js Num.
Import ListNotations.
#[local] Open Scope Z_scope.

Module FooInputs.

(** ** Cells, details, rows *)

Record node : Type := mkNode { n_id : Z; n_input : bool; n_copy : bool }.

(** A cell: [data-bind-name], its contents, and whether its column is shown. *)
Record cell : Type := mkCell { e_bind : option (list Z); e_content : list node; e_shown : bool }.

(** A value in a detail, with [data-bind-value]. *)
Record dvalue : Type := mkValue { d_bind : option (list Z); d_content : list node }.

(** A row with its detail row, the class [detailShow] and data('detail_created'). *)
Record row : Type := mkRow {
  r_id : Z;
  r_cells : list cell;
  r_detail : option (list dvalue);
  r_open : bool;
  r_created : bool;
  r_visible : bool
}.

Definition set_bind (n : option (list Z)) (c : cell) : cell := mkCell n (e_content c) (e_shown c).
Definition set_content (l : list node) (c : cell) : cell := mkCell (e_bind c) l (e_shown c).
Definition set_shown (b : bool) (c : cell) : cell := mkCell (e_bind c) (e_content c) b.
Definition set_cells (l : list cell) (r : row) : row := mkRow (r_id r) l (r_detail r) (r_open r) (r_created r) (r_visible r).
Definition set_detail (d : option (list dvalue)) (r : row) : row := mkRow (r_id r) (r_cells r) d (r_open r) (r_created r) (r_visible r).
Definition set_open (b : bool) (r : row) : row := mkRow (r_id r) (r_cells r) (r_detail r) b (r_created r) (r_visible r).
Definition set_created (b : bool) (r : row) : row := mkRow (r_id r) (r_cells r) (r_detail r) (r_open r) b (r_visible r).
Definition set_visible (b : bool) (r : row) : row := mkRow (r_id r) (r_cells r) (r_detail r) (r_open r) (r_created r) b.

Definition details (r : row) : list dvalue := match r_detail r with Some d => d | None => [] end.

Definition find_row (id : Z) (rows : list row) : option row := find (fun r => r_id r =? id) rows.
Definition update_row (id : Z) (f : row -> row) (rows : list row) : list row := map (fun r => if r_id r =? id then f r else r) rows.

(** ** The values of a name *)

(** [$('.footable-row-detail-value[data-bind-value="..."]')]: those of any row. *)
Definition matches (n : list Z) (v : dvalue) : bool := match d_bind v with Some m => str_eqb m n | None => false end.

Definition values_of (n : list Z) (rows : list row) : list dvalue := flat_map (fun r => filter (matches n) (details r)) rows.

(** [.contents()] of them, and taking the contents out. *)
Definition contents (n : list Z) (rows : list row) : list node := flat_map d_content (values_of n rows).

Definition map_values (f : dvalue -> dvalue) (r : row) : row := set_detail (option_map (map f) (r_detail r)) r.

Definition detach (n : list Z) (rows : list row) : list row :=
  map (map_values (fun v => if matches n v then mkValue (d_bind v) [] else v)) rows.

Definition copy (x : node) : node := mkNode (n_id x) (n_input x) true.

(** [.html(l)] on them: the nodes go to the last, copies to the others.  The second result
    tells whether the nodes have found their place. *)
Fixpoint fill_values (n : list Z) (l : list node) (placed : bool) (d : list dvalue) : list dvalue * bool :=
  match d with
  | [] => ([], placed)
  | v :: d =>
      let '(d, placed) := fill_values n l placed d in
      if matches n v then (mkValue (d_bind v) (if placed then map copy l else l) :: d, true) else (v :: d, placed)
  end.

Fixpoint fill (n : list Z) (l : list node) (rows : list row) : list row * bool :=
  match rows with
  | [] => ([], false)
  | r :: rows =>
      let '(rows, placed) := fill n l rows in
      match r_detail r with
      | Some d => let '(d, placed) := fill_values n l placed d in (set_detail (Some d) r :: rows, placed)
      | None => (r :: rows, placed)
      end
  end.

Definition empty {X} (l : list X) : bool := match l with [] => true | _ => false end.

Section Columns.

Variable ignored : Z -> bool.
Variable editable : Z -> option bool.

(** ** The detail of a row *)

(** [column.isEditable !== false && (column.isEditable || $(this).find(":input").length > 0)] *)
Definition is_editable (i : Z) (l : list node) : bool :=
  match editable i with
  | Some b => b
  | None => existsb n_input l
  end.

(** ["bind-" + $.now() + "-" + index] *)
Definition bind_name (now i : Z) : list Z := js "bind-" ++ F64.digits now ++ js "-" ++ F64.digits i.

(** The loop over the hidden cells: the cells after it, the values for the detail, and the
    rows, out of whose details contents may have been taken. *)
Fixpoint collect (now : Z) (cells : list cell) (i : Z) (rows : list row) : list cell * list dvalue * list row :=
  match cells with
  | [] => ([], [], rows)
  | c :: cells =>
      if e_shown c || ignored i then
        let '(cells, values, rows) := collect now cells (i + 1) rows in (c :: cells, values, rows)
      else
        let '(c, rows) :=
          match e_bind c with
          | Some n => if empty (e_content c) then (set_content (contents n rows) c, detach n rows) else (c, rows)
          | None => (c, rows)
          end in
        let '(c, value) :=
          if is_editable i (e_content c) then
            let n := match e_bind c with Some n => n | None => bind_name now i end in
            (set_content [] (set_bind (Some n) c), mkValue (Some n) (e_content c))
          else (c, mkValue (e_bind c) (map copy (e_content c))) in
        let '(cells, values, rows) := collect now cells (i + 1) rows in (c :: cells, value :: values, rows)
  end.

(** [createOrUpdateDetailRow(row)] *)
Definition createOrUpdateDetailRow (now id : Z) (rows : list row) : list row :=
  match find_row id rows with
  | None => rows
  | Some r =>
      if r_created r || negb (r_visible r) then rows
      else
        let '(cells, values, rows) := collect now (r_cells r) 0 rows in
        let rows := update_row id (set_cells cells) rows in
        match values with
        | [] => rows
        | _ => update_row id (fun r => set_created true (set_detail (Some values) r)) rows
        end
  end.

Definition toggleDetail (now id : Z) (rows : list row) : list row :=
  match find_row id rows with
  | None => rows
  | Some r =>
      if r_open r then update_row id (set_open false) rows
      else update_row id (set_open true) (createOrUpdateDetailRow now id rows)
  end.

(** ** Redrawing *)

(** [toggleInput(column)] of a cell. *)
Definition toggleInput (id : Z) (i : nat) (rows : list row) : list row :=
  match find_row id rows with
  | None => rows
  | Some r =>
      match nth_error (r_cells r) i with
      | Some (mkCell (Some n) content shown) =>
          let put l := update_row id (fun r => set_cells (firstn i (r_cells r) ++ mkCell (Some n) l shown :: skipn (S i) (r_cells r)) r) in
          if shown && r_visible r then
            if negb (existsb (fun v => empty (d_content v)) (values_of n rows))
            then put (contents n rows) (detach n rows) else rows
          else if negb (empty content) then fst (fill n content (put [] rows))
          else rows
      | _ => rows
      end
  end.

(** [$table.find("[data-bind-name]")] *)
Definition bound_cells (rows : list row) : list (Z * nat) :=
  flat_map (fun r => flat_map (fun ic => match e_bind (snd ic) with Some _ => [(r_id r, fst ic)] | None => [] end)
    (combine (seq 0 (List.length (r_cells r))) (r_cells r))) rows.

(** The columns are shown or hidden. *)
Definition show_columns (shown : Z -> bool) (r : row) : row :=
  set_cells (map (fun ic => set_shown (shown (Z.of_nat (fst ic))) (snd ic)) (combine (seq 0 (List.length (r_cells r))) (r_cells r))) r.

(** [redraw], with the time at which the detail of each row is made. *)
Definition redraw (shown : Z -> bool) (clock : Z -> Z) (rows : list row) : list row :=
  let rows := map (set_created false) rows in
  let rows := map (show_columns shown) rows in
  let rows := fold_left (fun rows id => createOrUpdateDetailRow (clock id) id rows) (map r_id (filter r_open rows)) rows in
  fold_left (fun rows ic => toggleInput (fst ic) (snd ic) rows) (bound_cells rows) rows.

(** What happens: a row is opened or closed, the columns are drawn anew, or the plugins show
    or hide a row. *)
Inductive happening : Type :=
| Toggle (now id : Z)
| Redraw (shown : Z -> bool) (clock : Z -> Z)
| Show (id : Z) (visible : bool).

Definition happen (rows : list row) (h : happening) : list row :=
  match h with
  | Toggle now id => toggleDetail now id rows
  | Redraw shown clock => redraw shown clock rows
  | Show id b => update_row id (set_visible b) rows
  end.

End Columns.

(** The nodes of a row that are no copies. *)
Definition originals (l : list node) : list node := filter (fun x => negb (n_copy x)) l.
Definition cell_nodes (l : list cell) : list node := originals (flat_map e_content l).
Definition value_nodes (l : list dvalue) : list node := originals (flat_map d_content l).
Definition nodes (r : row) : list node := cell_nodes (r_cells r) ++ value_nodes (details r).

(** ** Tables for examples *)

Definition field (x : Z) : node := mkNode x true false.
Definition fresh_row (id : Z) (l : list (list node)) : row := mkRow id (map (fun c => mkCell None c true) l) None false false true.
Definition no_columns (i : Z) : bool := false.
Definition by_content (i : Z) : option bool := None.
Definition only (l : list Z) (i : Z) : bool := existsb (Z.eqb i) l.
Definition always (now : Z) (id : Z) : Z := now.

End FooInputs.
