(* ===== verification/FooFields.v ===== *)
(** * Fields in tables are not lost (footable)

    Theorems on FooInputs.v: where one breakpoint hides columns and no two details are made at
    the same time, every field stays in its row, in its cell or in the place of the cell in
    the detail, and is back in its cell when the columns are shown.  The invariant says this
    for a row; the searches by name in the whole table are shown to find the row alone. *)

From Stdlib Require Import String ZArith Lia List Bool Permutation.
From S2P Require Import Prelude Js Num Value FooInputs.
Import ListNotations.
#[local] Open Scope Z_scope.

Module FooFields.

Import FooInputs.

(** ** Names *)

Lemma split_at_dash a b a' b' : Forall (fun c => c <> 45) a -> Forall (fun c => c <> 45) a' -> a ++ 45 :: b = a' ++ 45 :: b' -> a = a' /\ b = b'.
Proof.
  intros Ha. revert a'. induction Ha as [|x a Hx Ha IH]; intros [|y a'] Ha' E; cbn in E.
  - now injection E.
  - injection E as <- _. inversion Ha'. congruence.
  - injection E as -> _. congruence.
  - injection E as -> E. inversion Ha'; subst. destruct (IH a' ltac:(assumption) E) as [-> ->]. now split.
Qed.

Lemma no_dash n : 0 <= n -> Forall (fun c => c <> 45) (F64.digits n).
Proof.
  intros H. pose proof (proj1 (digits_value n H)) as F. rewrite forallb_forall in F. apply Forall_forall. intros c I ->. now apply F in I.
Qed.

Lemma bind_name_inj t i t' i' : 0 <= t -> 0 <= i -> 0 <= t' -> 0 <= i' -> bind_name t i = bind_name t' i' -> t = t' /\ i = i'.
Proof.
  intros Ht Hi Ht' Hi' E. unfold bind_name in E. apply app_inv_head in E. apply split_at_dash in E as [E1 E2]; try now apply no_dash.
  split; apply digits_inj; assumption.
Qed.

Definition cname (c : cell) : list (list Z) := match e_bind c with Some n => [n] | None => [] end.
Definition cnames (l : list cell) : list (list Z) := flat_map cname l.
Definition vname (v : dvalue) : list (list Z) := match d_bind v with Some n => [n] | None => [] end.
Definition vnames (d : list dvalue) : list (list Z) := flat_map vname d.
Definition all_names (rows : list row) : list (list Z) := flat_map (fun r => cnames (r_cells r)) rows.

Lemma matches_name n v : matches n v = true <-> d_bind v = Some n.
Proof. unfold matches. destruct (d_bind v) as [m|]; [rewrite str_eqb_eq|]; split; congruence. Qed.

Lemma name_of v n d : In v d -> d_bind v = Some n -> In n (vnames d).
Proof. intros I E. apply in_flat_map. exists v. split; [exact I|]. unfold vname. rewrite E. now left. Qed.

Lemma bound_name c n l : In c l -> e_bind c = Some n -> In n (cnames l).
Proof. intros I E. apply in_flat_map. exists c. split; [exact I|]. unfold cname. rewrite E. now left. Qed.

(** No value has the name. *)
Lemma no_matches n d : ~ In n (vnames d) -> filter (matches n) d = [].
Proof.
  intros N. induction d as [|v d IH]; [reflexivity|]. cbn [filter]. destruct (matches n v) eqn:E.
  - apply matches_name in E. destruct N. apply (name_of v); [now left|exact E].
  - apply IH. intros I. apply N. cbn. apply in_or_app. now right.
Qed.

(** One value has it. *)
Lemma one_match n v d : NoDup (vnames d) -> In v d -> d_bind v = Some n -> filter (matches n) d = [v].
Proof.
  intros N I E. induction d as [|w d IH]; [destruct I|]. cbn [filter]. destruct (matches n w) eqn:M.
  - apply matches_name in M. cbn in N. unfold vname in N at 1. rewrite M in N. inversion N as [|? ? N1 N2]; subst. rewrite no_matches by exact N1.
    destruct I as [->|I]; [reflexivity|]. destruct N1. now apply (name_of v).
  - destruct I as [->|I]; [apply matches_name in E; congruence|]. apply IH; [|exact I].
    cbn in N. now apply NoDup_app_remove_l in N.
Qed.

(** ** Searching by name finds one row *)

Definition foreign (n : list Z) (rows : list row) : Prop := forall q, In q rows -> ~ In n (vnames (details q)).

Lemma foreign_values n rows : foreign n rows -> values_of n rows = [].
Proof.
  intros F. induction rows as [|q rows IH]; [reflexivity|]. cbn. rewrite no_matches by (apply F; now left).
  apply IH. intros p I. apply F. now right.
Qed.

Lemma values_app n a b : values_of n (a ++ b) = values_of n a ++ values_of n b.
Proof. apply flat_map_app. Qed.

Lemma values_local n pre r post : foreign n pre -> foreign n post -> values_of n (pre ++ r :: post) = filter (matches n) (details r).
Proof.
  intros F G. change (r :: post) with ([r] ++ post). rewrite !values_app, (foreign_values n pre F), (foreign_values n post G).
  unfold values_of. cbn [flat_map app]. now rewrite !app_nil_r.
Qed.

Definition clear (n : list Z) (v : dvalue) : dvalue := if matches n v then mkValue (d_bind v) [] else v.

Lemma map_values_id f r : (forall v, In v (details r) -> f v = v) -> map_values f r = r.
Proof.
  destruct r as [i l [d|] o c v]; [|reflexivity]. intros H. unfold map_values, set_detail. cbn. do 2 f_equal.
  rewrite <- (map_id d) at 2. apply map_ext_in, H.
Qed.

Lemma foreign_detach n rows : foreign n rows -> detach n rows = rows.
Proof.
  intros F. unfold detach. rewrite <- (map_id rows) at 2. apply map_ext_in. intros q I. apply map_values_id. intros v J.
  destruct (matches n v) eqn:M; [|reflexivity]. apply matches_name in M. destruct (F q I). now apply (name_of v).
Qed.

Lemma detach_local n pre r post : foreign n pre -> foreign n post -> detach n (pre ++ r :: post) = pre ++ map_values (clear n) r :: post.
Proof.
  intros F G. unfold detach. rewrite map_app. cbn [map]. fold (detach n pre) (detach n post). now rewrite !foreign_detach.
Qed.

Lemma details_map f r : details (map_values f r) = map f (details r).
Proof. destruct r as [i l [d|] o c v]; reflexivity. Qed.

Lemma clear_names n d : vnames (map (clear n) d) = vnames d.
Proof.
  induction d as [|v d IH]; [reflexivity|]. cbn [map vnames flat_map]. fold (vnames d) (vnames (map (clear n) d)). rewrite IH. f_equal.
  unfold clear, vname. now destruct (matches n v).
Qed.

Lemma fill_values_foreign n l b d : ~ In n (vnames d) -> fill_values n l b d = (d, b).
Proof.
  intros N. induction d as [|v d IH]; [reflexivity|]. cbn [fill_values]. rewrite IH by (intros I; apply N; apply in_or_app; now right).
  destruct (matches n v) eqn:M; [|reflexivity]. apply matches_name in M. destruct N. apply (name_of v); [now left|exact M].
Qed.

Definition put (n : list Z) (l : list node) (v : dvalue) : dvalue := if matches n v then mkValue (d_bind v) l else v.

Lemma put_foreign n l d : ~ In n (vnames d) -> map (put n l) d = d.
Proof.
  intros N. rewrite <- (map_id d) at 2. apply map_ext_in. intros v I. unfold put. destruct (matches n v) eqn:M; [|reflexivity].
  apply matches_name in M. destruct N. now apply (name_of v).
Qed.

Lemma fill_values_one n l d : NoDup (vnames d) -> In n (vnames d) -> fill_values n l false d = (map (put n l) d, true).
Proof.
  induction d as [|v d IH]; intros N I; [destruct I|]. cbn [fill_values map]. cbn in N, I. destruct (matches n v) eqn:M.
  - pose proof M as M'. apply matches_name in M'. unfold vname in N at 1. rewrite M' in N. inversion N; subst.
    rewrite fill_values_foreign, put_foreign by assumption. unfold put. now rewrite M.
  - rewrite IH; [|now apply NoDup_app_remove_l in N|].
    + unfold put at 2. now rewrite M.
    + apply in_app_or in I as [I|I]; [|exact I]. unfold vname in I. destruct (d_bind v) as [m|] eqn:E; [|destruct I].
      destruct I as [->|[]]. apply matches_name in E. congruence.
Qed.

Lemma fill_foreign n l rows : foreign n rows -> fill n l rows = (rows, false).
Proof.
  induction rows as [|q rows IH]; intros F; [reflexivity|]. cbn [fill]. rewrite IH by (intros p I; apply F; now right).
  pose proof (F q (or_introl eq_refl)) as N. unfold details in N. destruct (r_detail q) as [d|] eqn:E; [|reflexivity].
  rewrite fill_values_foreign by exact N. destruct q; cbn in *; now subst.
Qed.

Lemma fill_done n l pre rows rows' b : foreign n pre -> fill n l rows = (rows', b) -> fill n l (pre ++ rows) = (pre ++ rows', b).
Proof.
  intros F E. induction pre as [|q pre IH]; [exact E|]. cbn [app fill]. rewrite IH by (intros p I; apply F; now right).
  pose proof (F q (or_introl eq_refl)) as N. unfold details in N. destruct (r_detail q) as [d|] eqn:D; [|reflexivity].
  rewrite fill_values_foreign by exact N. destruct q; cbn in *; now subst.
Qed.

Lemma fill_row n l q post : NoDup (vnames (details q)) -> In n (vnames (details q)) -> foreign n post ->
  fill n l (q :: post) = (map_values (put n l) q :: post, true).
Proof.
  intros N I F. cbn [fill]. rewrite fill_foreign by exact F. unfold details in *. destruct q as [i c [d|] o cr v]; cbn in *; [|destruct I].
  now rewrite fill_values_one.
Qed.

(** ** Where the contents of a cell are *)

Section Fields.

Variable ignored : Z -> bool.
Variable editable : Z -> option bool.
(** The columns that the breakpoint hides. *)
Variable H : Z -> bool.

Definition shown_in (narrow : bool) (j : Z) : bool := negb (narrow && H j).
Definition away (j : Z) : bool := H j && negb (ignored j).

(** The cell [c] of the column [j], with the values [d] of its row, when [c0] is how it began:
    what was in it is in it or, if it has a name, in the value of this name. *)
Definition cell_ok (narrow : bool) (d : list dvalue) (j : Z) (c0 c : cell) : Prop :=
  e_shown c = shown_in narrow j /\
  match e_bind c with
  | None => e_content c = e_content c0
  | Some n => away j = true /\ is_editable editable j (e_content c0) = true /\
      exists v, In v d /\ d_bind v = Some n /\
        ((e_content c = e_content c0 /\ d_content v = []) \/ (e_content c = [] /\ d_content v = e_content c0))
  end.

Inductive cells_ok (narrow : bool) (d : list dvalue) : Z -> list cell -> list cell -> Prop :=
| cells_nil j : cells_ok narrow d j [] []
| cells_cons j c0 c l0 l : cell_ok narrow d j c0 c -> cells_ok narrow d (j + 1) l0 l -> cells_ok narrow d j (c0 :: l0) (c :: l).

Definition row_ok (narrow : bool) (r0 r : row) : Prop :=
  r_id r = r_id r0 /\ cells_ok narrow (details r) 0 (r_cells r0) (r_cells r) /\
  NoDup (vnames (details r)) /\ incl (vnames (details r)) (cnames (r_cells r)).

(** The names come from the times [T]. *)
Definition from (T : list Z) (n : list Z) : Prop := exists t j, In t T /\ 0 <= t /\ 0 <= j /\ n = bind_name t j.

Record rows_ok (narrow : bool) (T : list Z) (rows0 rows : list row) : Prop := {
  ok_rows : Forall2 (row_ok narrow) rows0 rows;
  ok_names : NoDup (all_names rows);
  ok_ids : NoDup (map r_id rows);
  ok_from : Forall (from T) (all_names rows)
}.

Lemma cells_mono narrow d d' j l0 l :
  (forall v n, In v d -> d_bind v = Some n -> In n (cnames l) -> In v d') -> cells_ok narrow d j l0 l -> cells_ok narrow d' j l0 l.
Proof.
  intros M K. induction K as [|j c0 c l0 l C K IH]; [constructor|]. constructor.
  - destruct C as [S C]. split; [exact S|]. destruct (e_bind c) as [n|] eqn:E; [|exact C]. destruct C as (A & B & v & I & N & P).
    split; [exact A|split; [exact B|]]. exists v. split; [|now split]. apply (M v n); [exact I|exact N|]. apply (bound_name c); [now left|exact E].
  - apply IH. intros v n I N J. apply (M v n I N). cbn. apply in_or_app. now right.
Qed.

Lemma cells_widen narrow m d j l0 l : cells_ok narrow d j l0 l ->
  cells_ok m d j l0 (map (fun ic => set_shown (shown_in m (Z.of_nat (fst ic))) (snd ic)) (combine (seq (Z.to_nat j) (List.length l)) l)) \/ j < 0.
Proof.
  intros K. induction K as [j|j c0 c l0 l C K IH]; [left; constructor|]. destruct (Z.lt_decidable j 0) as [N|N]; [now right|]. left.
  cbn [List.length seq combine map fst snd]. constructor.
  - rewrite Z2Nat.id by lia. destruct C as [S C]. split; [reflexivity|exact C].
  - replace (S (Z.to_nat j)) with (Z.to_nat (j + 1)) by lia. destruct IH as [IH|]; [exact IH|lia].
Qed.

(** ** Collecting the values of a row *)

Lemma collect_local now cells i pre r post :
  (forall n, In n (cnames cells) -> foreign n pre /\ foreign n post) ->
  exists cs vs d, collect ignored editable now cells i [r] = (cs, vs, [set_detail d r]) /\
    collect ignored editable now cells i (pre ++ r :: post) = (cs, vs, pre ++ set_detail d r :: post).
Proof.
  revert i r. induction cells as [|c cells IH]; intros i r F.
  - exists [], [], (r_detail r). replace (set_detail (r_detail r) r) with r by now destruct r. now split.
  - assert (F' : forall n, In n (cnames cells) -> foreign n pre /\ foreign n post) by (intros n I; apply F; apply in_or_app; now right).
    cbn [collect]. destruct (e_shown c || ignored i).
    + destruct (IH (i + 1) r F') as (cs & vs & d & -> & ->). exists (c :: cs), vs, d. now split.
    + destruct (e_bind c) as [n|] eqn:E; [destruct (empty (e_content c))|].
      * destruct (F n) as [F1 F2]; [apply in_or_app; left; unfold cname; rewrite E; now left|].
        assert (N : foreign n []) by (intros ? []). pose proof (values_local n [] r [] N N) as V. pose proof (detach_local n [] r [] N N) as D.
        cbn [app] in V, D. unfold contents. rewrite V, D, values_local, detach_local by assumption.
        destruct (IH (i + 1) (map_values (clear n) r) F') as (cs & vs & d & E1 & E2).
        destruct (is_editable _ _ _); rewrite E1, E2; do 3 eexists; (split; [reflexivity|]); destruct r; reflexivity.
      * destruct (IH (i + 1) r F') as (cs & vs & d & E1 & E2). destruct (is_editable _ _ _); rewrite E1, E2; do 3 eexists; now split.
      * destruct (IH (i + 1) r F') as (cs & vs & d & E1 & E2). destruct (is_editable _ _ _); rewrite E1, E2; do 3 eexists; now split.
Qed.

(** Where nothing is hidden, nothing is collected. *)
Lemma collect_shown now d cells0 cells i rows : cells_ok false d i cells0 cells -> collect ignored editable now cells i rows = (cells, [], rows).
Proof.
  intros K. induction K as [|j c0 c l0 l [S _] K IH]; [reflexivity|]. cbn [collect]. rewrite S. cbn [shown_in andb negb orb]. now rewrite IH.
Qed.

Lemma ok_unbound narrow d j c0 c : cell_ok narrow d j c0 c -> e_shown c || ignored j = true -> narrow = true -> e_bind c = None.
Proof.
  intros [S C] E ->. destruct (e_bind c); [|reflexivity]. destruct C as (A & _). unfold away in A. apply andb_prop in A as [A B].
  rewrite S in E. unfold shown_in in E. rewrite A in E. cbn in E. rewrite E in B. discriminate.
Qed.

Lemma empty_nil {X} (l : list X) : empty l = true <-> l = [].
Proof. destruct l; split; cbn; congruence. Qed.

(** The contents of a named cell, wherever they are. *)
Lemma found_contents n v c (c0 : cell) r : NoDup (vnames (details r)) -> In v (details r) -> d_bind v = Some n ->
  (e_content c = e_content c0 /\ d_content v = []) \/ (e_content c = [] /\ d_content v = e_content c0) ->
  (if empty (e_content c) then contents n [r] else e_content c) = e_content c0.
Proof.
  intros N I E P. unfold contents, values_of. cbn [flat_map]. rewrite (one_match n v) by assumption. cbn [flat_map app]. rewrite !app_nil_r.
  destruct (empty (e_content c)) eqn:M; [apply empty_nil in M|]; destruct P as [[P Q]|[P Q]]; try congruence. now rewrite P in M.
Qed.

(** The contents of a cell are taken back before they are shown. *)
Lemma taken_back narrow j c0 c r : cell_ok narrow (details r) j c0 c -> NoDup (vnames (details r)) ->
  exists r1, (match e_bind c with
              | Some n => if empty (e_content c) then (set_content (contents n [r]) c, detach n [r]) else (c, [r])
              | None => (c, [r])
              end) = (set_content (e_content c0) c, [r1]) /\
    NoDup (vnames (details r1)) /\
    (forall v m, In v (details r) -> d_bind v = Some m -> ~ In m (cname c) -> In v (details r1)).
Proof.
  intros [_ C] N. assert (Eta : forall l, e_content c = l -> c = set_content l c) by (intros l <-; now destruct c).
  destruct (e_bind c) as [n|] eqn:E; [|exists r; split; [now rewrite <- (Eta _ C)|split; [exact N|auto]]].
  destruct C as (_ & _ & v & I & D & P). pose proof (found_contents n v c c0 r N I D P) as Q. destruct (empty (e_content c)).
  - exists (map_values (clear n) r). rewrite Q. split; [reflexivity|]. rewrite details_map, clear_names. split; [exact N|].
    intros w m J Dw Nm. apply in_map_iff. exists w. split; [|exact J]. unfold clear. destruct (matches n w) eqn:W; [|reflexivity].
    apply matches_name in W. destruct Nm. unfold cname. rewrite E. left. congruence.
  - exists r. rewrite <- (Eta _ Q). split; [reflexivity|split; [exact N|auto]].
Qed.

Lemma NoDup_apart {X} (a b : list X) x : NoDup (a ++ b) -> In x a -> In x b -> False.
Proof.
  induction a as [|y a IH]; intros N I J; [destruct I|]. cbn in N. inversion N as [|? ? N1 N2]; subst. destruct I as [->|I]; [|auto].
  apply N1, in_or_app. now right.
Qed.

Lemma later_names now c l cs i : (forall n, In n (cnames cs) -> In n (cnames l) \/ exists j, i + 1 <= j /\ n = bind_name now j) ->
  forall n, In n (cnames cs) -> In n (cname c ++ cnames l) \/ exists j, i <= j /\ n = bind_name now j.
Proof. intros F n I. destruct (F n I) as [J|(j & L & J)]; [left; apply in_or_app; now right|right; exists j; split; [lia|exact J]]. Qed.

Lemma collect_ok now cells0 cells i r cs vs rs :
  cells_ok true (details r) i cells0 cells -> NoDup (vnames (details r)) -> NoDup (cnames cells) -> 0 <= i -> 0 <= now ->
  (forall j, 0 <= j -> ~ In (bind_name now j) (cnames cells)) ->
  collect ignored editable now cells i [r] = (cs, vs, rs) ->
  cells_ok true vs i cells0 cs /\ vnames vs = cnames cs /\ NoDup (cnames cs) /\
  (forall n, In n (cnames cs) -> In n (cnames cells) \/ exists j, i <= j /\ n = bind_name now j) /\
  (vs = [] -> cs = cells /\ rs = [r]).
Proof.
  revert cells0 i r cs vs rs. induction cells as [|c l IH]; intros cells0 i r cs vs rs K N M Hi Ht F E; inversion K as [|? c0 ? l0 ? C K']; subst.
  { cbn in E. injection E as <- <- <-. repeat split; [constructor..|intros n []]. }
  assert (M' : NoDup (cnames l)) by (cbn in M; now apply NoDup_app_remove_l in M).
  assert (F' : forall j, 0 <= j -> ~ In (bind_name now j) (cnames l)) by (intros j Hj J; apply (F j Hj); cbn; apply in_or_app; now right).
  assert (Hi' : 0 <= i + 1) by lia. cbn [collect] in E. destruct (e_shown c || ignored i) eqn:S.
  - pose proof (ok_unbound _ _ _ _ _ C S eq_refl) as U.
    destruct (collect ignored editable now l (i + 1) [r]) as [[cs' vs'] rs'] eqn:E'. injection E as <- <- <-.
    destruct (IH _ _ _ _ _ _ K' N M' Hi' Ht F' E') as (R1 & R2 & R3 & R4 & R5).
    replace (cnames (c :: cs')) with (cnames cs') by (cbn; unfold cname; now rewrite U).
    split; [constructor; [|exact R1]|]. { destruct C as [S' C]. split; [exact S'|]. now rewrite U in *. }
    split; [exact R2|]. split; [exact R3|]. split; [exact (later_names _ c _ _ _ R4)|].
    intros Z. destruct (R5 Z) as [-> ->]. now split.
  - apply orb_false_elim in S as [S1 S2]. assert (A : away i = true).
    { destruct C as [S _]. rewrite S1 in S. unfold away. rewrite S2. unfold shown_in in S. cbn in S. now destruct (H i). }
    destruct (taken_back _ _ _ _ _ C N) as (r1 & E1 & N1 & V1). rewrite E1 in E. clear E1. cbn [set_content e_content e_bind] in E.
    assert (K1 : cells_ok true (details r1) (i + 1) l0 l).
    { apply (cells_mono true (details r)); [|exact K']. intros v n I D J. apply (V1 v n I D). intros J'. cbn in M.
      apply (NoDup_apart (cname c) (cnames l) n M J' J). }
    destruct (collect ignored editable now l (i + 1) [r1]) as [[cs' vs'] rs'] eqn:E'.
    destruct (IH _ _ _ _ _ _ K1 N1 M' Hi' Ht F' E') as (R1 & R2 & R3 & R4 & _).
    destruct (is_editable editable i (e_content c0)) eqn:B; injection E as <- <- <-.
    + set (n := match e_bind c with Some n => n | None => bind_name now i end) in *.
      assert (Nn : ~ In n (cnames cs')).
      { intros I. unfold n in I. destruct (e_bind c) as [m|] eqn:Ec.
        - destruct (R4 m I) as [J|(j & L & J)].
          + apply (NoDup_apart (cname c) (cnames l) m M); [unfold cname; rewrite Ec; now left|exact J].
          + apply (F j); [lia|]. cbn. apply in_or_app. left. unfold cname. rewrite Ec. left. exact J.
        - destruct (R4 _ I) as [J|(j & L & J)]; [exact (F' i Hi J)|]. apply bind_name_inj in J; lia. }
      replace (cnames (set_content [] (set_bind (Some n) (set_content (e_content c0) c)) :: cs')) with (n :: cnames cs') by reflexivity.
      replace (vnames (mkValue (Some n) (e_content c0) :: vs')) with (n :: vnames vs') by reflexivity.
      split; [constructor|]; [|apply (cells_mono true vs'); [intros; now right|exact R1]|].
      { split; [exact (proj1 C)|]. cbn. split; [exact A|split; [exact B|]]. eexists. split; [now left|]. split; [reflexivity|right; now split]. }
      split; [now rewrite R2|]. split; [now constructor|]. split; [|discriminate].
      intros m [<-|I].
      * unfold n. destruct (e_bind c) as [m|] eqn:Ec; [left; apply in_or_app; left; unfold cname; rewrite Ec; now left|right; exists i; split; [lia|reflexivity]].
      * exact (later_names _ c _ _ _ R4 m I).
    + assert (U : e_bind c = None).
      { destruct C as [_ C]. destruct (e_bind c); [|reflexivity]. destruct C as (_ & B' & _). congruence. }
      replace (cnames (set_content (e_content c0) c :: cs')) with (cnames cs') by (cbn; unfold cname; cbn; now rewrite U).
      replace (vnames (mkValue (e_bind c) (map copy (e_content c0)) :: vs')) with (vnames vs') by (cbn; unfold vname; cbn; now rewrite U).
      split; [constructor|]; [|apply (cells_mono true vs'); [intros; now right|exact R1]|].
      { split; [exact (proj1 C)|]. cbn. now rewrite U. }
      split; [exact R2|]. split; [exact R3|]. split; [exact (later_names _ c _ _ _ R4)|discriminate].
Qed.

(** ** One row of a table *)

Lemma find_split id rows r : find_row id rows = Some r -> NoDup (map r_id rows) ->
  exists pre post, rows = pre ++ r :: post /\ r_id r = id /\ (forall q, In q pre \/ In q post -> r_id q <> id).
Proof.
  intros E N. unfold find_row in E. destruct (find_some _ _ E) as [I Q]. apply Z.eqb_eq in Q. apply in_split in I as (pre & post & ->).
  exists pre, post. split; [reflexivity|split; [exact Q|]]. rewrite map_app in N. cbn [map] in N. apply NoDup_remove_2 in N. rewrite Q in N.
  intros q D <-. apply N, in_or_app. destruct D as [D|D]; [left|right]; now apply in_map.
Qed.

Lemma update_local id f pre r post : r_id r = id -> (forall q, In q pre \/ In q post -> r_id q <> id) ->
  update_row id f (pre ++ r :: post) = pre ++ f r :: post.
Proof.
  intros E O. unfold update_row. rewrite map_app. cbn [map]. rewrite (proj2 (Z.eqb_eq _ _) E).
  assert (U : forall l, (forall q, In q l -> r_id q <> id) -> map (fun q => if r_id q =? id then f q else q) l = l).
  { intros l O'. rewrite <- (map_id l) at 2. apply map_ext_in. intros q I. now rewrite (proj2 (Z.eqb_neq _ _) (O' q I)). }
  rewrite !U by auto. reflexivity.
Qed.

Lemma names_split pre r post : all_names (pre ++ r :: post) = all_names pre ++ cnames (r_cells r) ++ all_names post.
Proof. unfold all_names. now rewrite flat_map_app. Qed.

Lemma Forall2_in_r {X Y} (P : X -> Y -> Prop) a b y : Forall2 P a b -> In y b -> exists x, In x a /\ P x y.
Proof.
  induction 1 as [|x y' a b K F IH]; intros I; [destruct I|]. destruct I as [->|I]; [exists x; split; [now left|exact K]|].
  destruct (IH I) as (z & J & L). exists z. split; [now right|exact L].
Qed.

Lemma ok_at narrow T rows0 pre r post : rows_ok narrow T rows0 (pre ++ r :: post) -> exists r0, row_ok narrow r0 r.
Proof. intros []. apply Forall2_app_inv_r in ok_rows0 as (a & b & _ & K & _). inversion K; subst. eauto. Qed.

(** The values of a name are in the row of the cell with this name. *)
Lemma ok_foreign narrow T rows0 pre r post n : rows_ok narrow T rows0 (pre ++ r :: post) -> In n (cnames (r_cells r)) -> foreign n pre /\ foreign n post.
Proof.
  intros [R N _ _] I. rewrite names_split in N. apply Forall2_app_inv_r in R as (a & b & Ra & Rb & _). inversion Rb as [|r0 ? b' ? _ Rc]; subst.
  assert (G : forall l0 l q, Forall2 (row_ok narrow) l0 l -> In q l -> In n (vnames (details q)) -> In n (all_names l)).
  { intros l0 l q F J V. apply in_flat_map. exists q. split; [exact J|]. destruct (Forall2_in_r _ _ _ q F J) as (q0 & _ & (_ & _ & _ & Inc)). apply Inc, V. }
  split; intros q J V.
  - apply (NoDup_apart _ _ n N); [apply (G _ _ _ Ra J V)|apply in_or_app; now left].
  - apply NoDup_app_remove_l in N. apply (NoDup_apart _ _ n N I (G _ _ _ Rc J V)).
Qed.

Lemma ok_fresh narrow T rows0 rows t j : rows_ok narrow T rows0 rows -> 0 <= t -> ~ In t T -> 0 <= j -> ~ In (bind_name t j) (all_names rows).
Proof.
  intros [_ _ _ F] Ht N Hj I. rewrite Forall_forall in F. destruct (F _ I) as (t' & j' & I' & H1 & H2 & E).
  apply bind_name_inj in E; [|assumption..]. destruct E as [-> _]. exact (N I').
Qed.

Lemma ok_grow narrow t T rows0 rows : rows_ok narrow T rows0 rows -> rows_ok narrow (t :: T) rows0 rows.
Proof.
  intros []. constructor; try assumption. revert ok_from0. apply Forall_impl. intros n (t' & j & I & K). exists t', j. split; [now right|exact K].
Qed.

(** A row changes by itself; it may get names of new times. *)
Lemma ok_replace narrow T' T rows0 pre r r' post : rows_ok narrow T rows0 (pre ++ r :: post) -> incl T T' ->
  (forall r0, row_ok narrow r0 r -> row_ok narrow r0 r') -> NoDup (cnames (r_cells r')) -> r_id r' = r_id r ->
  (forall n, In n (cnames (r_cells r')) -> In n (cnames (r_cells r)) \/ (from T' n /\ ~ In n (all_names (pre ++ r :: post)))) ->
  rows_ok narrow T' rows0 (pre ++ r' :: post).
Proof.
  intros [R0 N U W] Ht R D I F. rewrite names_split in N, W, F. constructor.
  - apply Forall2_app_inv_r in R0 as (a & b & Ra & Rb & ->). inversion Rb; subst. apply Forall2_app; [exact Ra|constructor; auto].
  - rewrite names_split. assert (G : forall n, In n (cnames (r_cells r')) -> In n (all_names pre) \/ In n (all_names post) -> False).
    { intros n J J'. destruct (F n J) as [L|[_ L]].
      - destruct J' as [J'|J']; [apply (NoDup_apart _ _ n N J'), in_or_app; now left|]. apply NoDup_app_remove_l in N. apply (NoDup_apart _ _ n N L J').
      - apply L. destruct J' as [J'|J']; apply in_or_app; [now left|right; apply in_or_app; now right]. }
    apply NoDup_app; [now apply NoDup_app_remove_r in N| |].
    + apply NoDup_app; [exact D|do 2 apply NoDup_app_remove_l in N; exact N|]. intros n J J'. apply (G n J). now right.
    + intros n J J'. apply in_app_or in J' as [J'|J']; [apply (G n J'); now left|].
      apply (NoDup_apart _ _ n N J), in_or_app. now right.
  - rewrite map_app in *. cbn [map] in *. now rewrite I.
  - rewrite names_split. rewrite !Forall_app in *. destruct W as (W1 & W2 & W3).
    assert (G : forall n, from T n -> from T' n) by (intros n (t' & j & L & K); exists t', j; split; [now apply Ht|exact K]).
    repeat split; [eapply Forall_impl; [exact G|exact W1]| |eapply Forall_impl; [exact G|exact W3]].
    apply Forall_forall. intros n J. destruct (F n J) as [L|[L _]]; [apply G; rewrite Forall_forall in W2; auto|exact L].
Qed.

(** ** The operations keep the invariant *)

Lemma set_cells_id r : set_cells (r_cells r) r = r.
Proof. now destruct r. Qed.

Lemma create_ok narrow T rows0 rows t id : rows_ok narrow T rows0 rows -> 0 <= t -> ~ In t T ->
  rows_ok narrow (t :: T) rows0 (createOrUpdateDetailRow ignored editable t id rows).
Proof.
  intros K Ht Nt. unfold createOrUpdateDetailRow. destruct (find_row id rows) as [r|] eqn:E; [|now apply ok_grow].
  destruct (r_created r || negb (r_visible r)); [now apply ok_grow|].
  destruct (find_split id rows r E (ok_ids _ _ _ _ K)) as (pre & post & -> & Ei & Eo). destruct (ok_at _ _ _ _ _ _ K) as (r0 & I & C & D & _).
  destruct narrow; [|rewrite (collect_shown _ _ _ _ _ _ C), (update_local id _ pre r post) by assumption; rewrite set_cells_id; now apply ok_grow].
  destruct (collect_local t (r_cells r) 0 pre r post (fun n J => ok_foreign _ _ _ _ _ _ n K J)) as (cs & vs & d & E1 & E2). rewrite E2.
  assert (N : NoDup (cnames (r_cells r))).
  { pose proof (ok_names _ _ _ _ K) as N. rewrite names_split in N. apply NoDup_app_remove_l in N. now apply NoDup_app_remove_r in N. }
  assert (F : forall j, 0 <= j -> ~ In (bind_name t j) (cnames (r_cells r))).
  { intros j Hj J. apply (ok_fresh _ _ _ _ t j K Ht Nt Hj). rewrite names_split. apply in_or_app. right. apply in_or_app. now left. }
  destruct (collect_ok _ _ _ _ _ _ _ _ C D N (Z.le_refl 0) Ht F E1) as (_ & _ & _ & _ & Z).
  rewrite (update_local id (set_cells cs)) by assumption. destruct vs as [|v vs].
  - destruct (Z eq_refl) as [-> Er]. injection Er as ->. rewrite set_cells_id. now apply ok_grow.
  - rewrite (update_local id) by assumption. apply (ok_replace _ _ T _ _ r); [exact K|now apply incl_tl, incl_refl| | |reflexivity|].
    + intros r1 (I1 & C1 & _). destruct (collect_ok _ _ _ _ _ _ _ _ C1 D N (Z.le_refl 0) Ht F E1) as (R1 & R2 & R3 & _ & _).
      split; [exact I1|split; [exact R1|]]. cbn [details set_created set_detail set_cells r_detail r_cells]. rewrite R2. split; [exact R3|apply incl_refl].
    + now destruct (collect_ok _ _ _ _ _ _ _ _ C D N (Z.le_refl 0) Ht F E1) as (_ & _ & R3 & _ & _).
    + destruct (collect_ok _ _ _ _ _ _ _ _ C D N (Z.le_refl 0) Ht F E1) as (_ & _ & _ & R4 & _).
      intros n J. destruct (R4 n J) as [L|(j & Hj & ->)]; [now left|right]. split; [exists t, j; split; [now left|auto]|].
      apply (ok_fresh _ _ _ _ t j K Ht Nt Hj).
Qed.

(** Changes that leave cells and details alone. *)
Lemma ok_map narrow T rows0 rows f : (forall r, r_id (f r) = r_id r /\ r_cells (f r) = r_cells r /\ r_detail (f r) = r_detail r) ->
  rows_ok narrow T rows0 rows -> rows_ok narrow T rows0 (map f rows).
Proof.
  intros F [R N I W]. assert (E : all_names (map f rows) = all_names rows).
  { unfold all_names. rewrite flat_map_concat_map, map_map, flat_map_concat_map. f_equal. apply map_ext. intros r. now destruct (F r) as (_ & -> & _). }
  constructor; [|now rewrite E| |now rewrite E].
  - clear -R F. induction R as [|r0 r l0 l K R IH]; [constructor|]. cbn [map]. constructor; [|exact IH].
    destruct (F r) as (F1 & F2 & F3). unfold row_ok, details in *. now rewrite F1, F2, F3.
  - rewrite map_map. erewrite map_ext; [exact I|]. intros r. apply F.
Qed.

Lemma ok_update narrow T rows0 rows id f : (forall r, r_id (f r) = r_id r /\ r_cells (f r) = r_cells r /\ r_detail (f r) = r_detail r) ->
  rows_ok narrow T rows0 rows -> rows_ok narrow T rows0 (update_row id f rows).
Proof. intros F. apply ok_map. intros r. destruct (r_id r =? id); auto. Qed.

Lemma toggle_ok narrow T rows0 rows t id : rows_ok narrow T rows0 rows -> 0 <= t -> ~ In t T ->
  rows_ok narrow (t :: T) rows0 (toggleDetail ignored editable t id rows).
Proof.
  intros K Ht Nt. unfold toggleDetail. destruct (find_row id rows) as [r|]; [|now apply ok_grow].
  destruct (r_open r); [apply ok_grow|]; apply ok_update; auto. now apply create_ok.
Qed.

(** The columns are shown or hidden. *)
Lemma show_ok narrow m T rows0 rows : rows_ok narrow T rows0 rows -> rows_ok m T rows0 (map (show_columns (shown_in m)) rows).
Proof.
  intros [R N I W]. assert (C : forall r, cnames (r_cells (show_columns (shown_in m) r)) = cnames (r_cells r)).
  { intros r. unfold show_columns. cbn [set_cells r_cells]. generalize 0%nat as k. induction (r_cells r) as [|c l IH]; intros k; [reflexivity|].
    cbn. f_equal. apply IH. }
  assert (E : all_names (map (show_columns (shown_in m)) rows) = all_names rows).
  { unfold all_names. rewrite flat_map_concat_map, map_map, flat_map_concat_map. f_equal. apply map_ext. intros r. apply C. }
  constructor; [|now rewrite E| |now rewrite E].
  - clear -R C. induction R as [|r0 r l0 l (K1 & K2 & K3 & K4) R IH]; [constructor|]. cbn [map]. constructor; [|exact IH].
    split; [exact K1|]. split; [|split; [exact K3|now rewrite C]]. destruct (cells_widen _ m _ _ _ _ K2) as [K|]; [exact K|lia].
  - rewrite map_map. erewrite map_ext; [exact I|]. reflexivity.
Qed.

(** ** The contents of one cell move *)

Lemma cells_nth narrow d j l0 l i c : cells_ok narrow d j l0 l -> nth_error l i = Some c ->
  exists c0, nth_error l0 i = Some c0 /\ cell_ok narrow d (j + Z.of_nat i) c0 c.
Proof.
  intros K. revert i. induction K as [|j c0 c' l0 l C K IH]; intros i E; [destruct i; discriminate|]. destruct i as [|i]; cbn in E.
  - injection E as ->. exists c0. rewrite Z.add_0_r. now split.
  - destruct (IH i E) as (c1 & E1 & C1). exists c1. split; [exact E1|]. replace (j + Z.of_nat (S i)) with (j + 1 + Z.of_nat i) by lia. exact C1.
Qed.

Definition with_cell (i : nat) (c : cell) (l : list cell) : list cell := firstn i l ++ c :: skipn (S i) l.

Lemma with_cell_names i c c' l : nth_error l i = Some c' -> e_bind c = e_bind c' -> cnames (with_cell i c l) = cnames l.
Proof.
  intros E B. revert i E. unfold with_cell. induction l as [|x l IH]; intros i E; [destruct i; discriminate|]. destruct i as [|i]; cbn in E.
  - injection E as ->. cbn. unfold cname. now rewrite B.
  - cbn. f_equal. apply IH, E.
Qed.

Lemma kept_value n l' v m d : In v d -> d_bind v = Some m -> m <> n -> In v (map (put n l') d).
Proof.
  intros I E N. apply in_map_iff. exists v. split; [|exact I]. unfold put. destruct (matches n v) eqn:M; [|reflexivity].
  apply matches_name in M. congruence.
Qed.

Lemma moved_value n l' v d : In v d -> d_bind v = Some n -> In (mkValue (Some n) l') (map (put n l') d).
Proof.
  intros I E. apply in_map_iff. exists v. split; [|exact I]. unfold put. apply matches_name in E as M. now rewrite M, E.
Qed.

Lemma cells_moved narrow d j l0 l i n x sh c0 l1 l' :
  cells_ok narrow d j l0 l -> NoDup (cnames l) -> nth_error l i = Some (mkCell (Some n) x sh) -> nth_error l0 i = Some c0 ->
  (l1 = e_content c0 /\ l' = [] \/ l1 = [] /\ l' = e_content c0) ->
  cells_ok narrow (map (put n l') d) j l0 (with_cell i (mkCell (Some n) l1 sh) l).
Proof.
  intros K. revert i. induction K as [|j c c' l0 l C K IH]; intros i N E E0 P; [destruct i; discriminate|]. cbn in N. destruct i as [|i]; cbn in E, E0.
  - injection E as ->. injection E0 as ->. constructor.
    + destruct C as [S (A & B & v & I & D & _)]. split; [exact S|]. cbn. split; [exact A|split; [exact B|]]. exists (mkValue (Some n) l').
      split; [now apply (moved_value n l' v)|]. split; [reflexivity|]. destruct P as [[-> ->]|[-> ->]]; [left|right]; now split.
    + apply (cells_mono narrow d); [|exact K]. intros v m I D J. apply (kept_value n l' v m); try assumption. intros ->.
      apply (NoDup_apart _ _ n N); [now left|exact J].
  - constructor; [|apply IH; try assumption; now apply NoDup_app_remove_l in N].
    destruct C as [S C]. split; [exact S|]. destruct (e_bind c') as [m|] eqn:M; [|exact C]. destruct C as (A & B & v & I & D & Q).
    split; [exact A|split; [exact B|]]. exists v. split; [|now split]. apply (kept_value n l' v m); try assumption. intros ->.
    apply (NoDup_apart _ _ n N); [unfold cname; rewrite M; now left|]. apply (bound_name (mkCell (Some n) x sh)); [|reflexivity].
    apply nth_error_In with (1 := E).
Qed.

Lemma put_names n l d : vnames (map (put n l) d) = vnames d.
Proof.
  induction d as [|v d IH]; [reflexivity|]. cbn [map vnames flat_map]. fold (vnames d) (vnames (map (put n l) d)). rewrite IH. f_equal.
  unfold put, vname. now destruct (matches n v).
Qed.

Lemma row_moved narrow r0 r i n x sh c0 l1 l' :
  row_ok narrow r0 r -> NoDup (cnames (r_cells r)) -> nth_error (r_cells r) i = Some (mkCell (Some n) x sh) -> nth_error (r_cells r0) i = Some c0 ->
  (l1 = e_content c0 /\ l' = [] \/ l1 = [] /\ l' = e_content c0) ->
  row_ok narrow r0 (set_cells (with_cell i (mkCell (Some n) l1 sh) (r_cells r)) (map_values (put n l') r)).
Proof.
  intros (I & C & D & Inc) N E E0 P. split; [exact I|]. change (details (set_cells ?c ?q)) with (details q). rewrite details_map, put_names.
  split; [apply (cells_moved narrow (details r) 0 _ _ i n x sh c0); assumption|]. split; [exact D|].
  cbn [set_cells r_cells]. now rewrite (with_cell_names _ _ _ _ E).
Qed.

Definition moved (i : nat) (n : list Z) (sh : bool) (l1 l' : list node) (r : row) : row :=
  set_cells (with_cell i (mkCell (Some n) l1 sh) (r_cells r)) (map_values (put n l') r).

(** What [toggleInput] does to a cell: it puts the contents where the cell is seen. *)
Lemma toggleInput_moves narrow T rows0 pre r post id i n content sh : rows_ok narrow T rows0 (pre ++ r :: post) ->
  find_row id (pre ++ r :: post) = Some r -> r_id r = id -> (forall q, In q pre \/ In q post -> r_id q <> id) ->
  nth_error (r_cells r) i = Some (mkCell (Some n) content sh) ->
  exists v, In v (details r) /\ d_bind v = Some n /\
    toggleInput id i (pre ++ r :: post) = pre ++
      (if sh && r_visible r then if empty (d_content v) then r else moved i n sh (d_content v) [] r
       else if empty content then r else moved i n sh [] content r) :: post.
Proof.
  intros K E Ei Eo Ec. destruct (ok_at _ _ _ _ _ _ K) as (r0 & _ & C & D & Inc).
  destruct (cells_nth _ _ _ _ _ _ _ C Ec) as (c0 & _ & _ & _ & _ & v & I & B & _). exists v. split; [exact I|split; [exact B|]].
  destruct (ok_foreign _ _ _ _ _ _ n K) as [F1 F2]; [apply (bound_name (mkCell (Some n) content sh)); [apply nth_error_In with (1 := Ec)|reflexivity]|].
  unfold toggleInput. rewrite E, Ec. rewrite (values_local n) by assumption. rewrite (one_match n v) by assumption. cbn [existsb]. rewrite orb_false_r.
  destruct (sh && r_visible r); [destruct (empty (d_content v)); [reflexivity|]|destruct (empty content); [reflexivity|]]; cbn [negb].
  - unfold contents. rewrite values_local, detach_local by assumption. rewrite (one_match n v) by assumption. cbn [flat_map]. rewrite app_nil_r.
    rewrite update_local by assumption. reflexivity.
  - rewrite update_local by assumption. erewrite (fill_done n _ pre _ _ true F1); [|apply fill_row; [exact D|now apply (name_of v)|exact F2]].
    reflexivity.
Qed.

Lemma toggleInput_ok narrow T rows0 rows id i : rows_ok narrow T rows0 rows -> rows_ok narrow T rows0 (toggleInput id i rows).
Proof.
  intros K. destruct (find_row id rows) as [r|] eqn:E; [|unfold toggleInput; now rewrite E].
  destruct (nth_error (r_cells r) i) as [[[n|] content shown]|] eqn:Ec; [|unfold toggleInput; now rewrite E, Ec..].
  destruct (find_split id rows r E (ok_ids _ _ _ _ K)) as (pre & post & -> & Ei & Eo).
  destruct (toggleInput_moves _ _ _ _ _ _ _ _ _ _ _ K E Ei Eo Ec) as (v & I & B & ->).
  destruct (ok_at _ _ _ _ _ _ K) as (r1 & R1). pose proof (ok_names _ _ _ _ K) as N. rewrite names_split in N.
  apply NoDup_app_remove_l, NoDup_app_remove_r in N.
  assert (M : forall l1 l', (forall c0, cell_ok narrow (details r) (Z.of_nat i) c0 (mkCell (Some n) content shown) ->
      l1 = e_content c0 /\ l' = [] \/ l1 = [] /\ l' = e_content c0) -> rows_ok narrow T rows0 (pre ++ moved i n shown l1 l' r :: post)).
  { intros l1 l' P. apply (ok_replace _ T T _ _ r); [exact K|apply incl_refl| | |reflexivity|].
    - intros r0 R0. pose proof R0 as (_ & C & _). destruct (cells_nth _ _ _ _ _ _ _ C Ec) as (c0 & E0 & C0).
      apply (row_moved narrow r0 r i n content shown c0); auto.
    - cbn [moved set_cells r_cells]. now rewrite (with_cell_names _ _ _ _ Ec).
    - cbn [moved set_cells r_cells]. rewrite (with_cell_names _ _ _ _ Ec) by reflexivity. now left. }
  assert (V : forall c0, cell_ok narrow (details r) (Z.of_nat i) c0 (mkCell (Some n) content shown) ->
      (content = e_content c0 /\ d_content v = []) \/ (content = [] /\ d_content v = e_content c0)).
  { intros c0 (_ & _ & _ & w & J & Bw & P). replace v with w; [exact P|]. destruct R1 as (_ & _ & D & _).
    pose proof (one_match n v _ D I B) as O. rewrite (one_match n w) in O by assumption. congruence. }
  destruct (shown && r_visible r); [destruct (empty (d_content v)) eqn:O|destruct (empty content) eqn:O]; try exact K; apply M; intros c0 C0.
  - destruct (V c0 C0) as [[_ Q]|[_ Q]]; [now rewrite Q in O|left; now split].
  - destruct (V c0 C0) as [[Q _]|[Q _]]; [right; now split|now rewrite Q in O].
Qed.

(** ** Redrawing *)

Lemma ok_weaken narrow T T' rows0 rows : incl T T' -> rows_ok narrow T rows0 rows -> rows_ok narrow T' rows0 rows.
Proof.
  intros S []. constructor; try assumption. revert ok_from0. apply Forall_impl. intros n (t & j & I & K). exists t, j. split; [now apply S|exact K].
Qed.

Lemma create_all_ok narrow T rows0 (clock : Z -> Z) ids rows : rows_ok narrow T rows0 rows ->
  NoDup (map clock ids ++ T) -> Forall (fun t => 0 <= t) (map clock ids) ->
  rows_ok narrow (map clock ids ++ T) rows0 (fold_left (fun rows id => createOrUpdateDetailRow ignored editable (clock id) id rows) ids rows).
Proof.
  revert T rows. induction ids as [|id ids IH]; intros T rows K N P; [exact K|]. cbn in *. inversion N as [|? ? N1 N2]; subst. inversion P; subst.
  assert (N' : NoDup (map clock ids ++ clock id :: T)) by exact (Permutation_NoDup (Permutation_middle _ _ _) N).
  apply (ok_weaken _ (map clock ids ++ clock id :: T)).
  - intros t I. apply in_app_or in I as [I|[<-|I]]; [right; apply in_or_app; now left|now left|right; apply in_or_app; now right].
  - apply IH; [|exact N'|assumption]. apply create_ok; try assumption. intros I. apply N1, in_or_app. now right.
Qed.

Lemma toggle_inputs_ok narrow T rows0 l rows : rows_ok narrow T rows0 rows ->
  rows_ok narrow T rows0 (fold_left (fun rows ic => toggleInput (fst ic) (snd ic) rows) l rows).
Proof. revert rows. induction l as [|[id i] l IH]; intros rows K; [exact K|]. apply IH, toggleInput_ok, K. Qed.

Lemma ids_of narrow T rows0 rows : rows_ok narrow T rows0 rows -> map r_id rows = map r_id rows0.
Proof. intros [R _ _ _]. induction R as [|r0 r l0 l (E & _) R IH]; [reflexivity|]. cbn. now rewrite E, IH. Qed.

(** The rows before the fields are moved. *)
Definition prepared (m : bool) (clock : Z -> Z) (rows : list row) : list row :=
  let rows := map (show_columns (shown_in m)) (map (set_created false) rows) in
  fold_left (fun rows id => createOrUpdateDetailRow ignored editable (clock id) id rows) (map r_id (filter r_open rows)) rows.

Lemma prepared_rows_ok narrow m T rows0 clock rows : rows_ok narrow T rows0 rows ->
  NoDup (map clock (map r_id rows0) ++ T) -> Forall (fun t => 0 <= t) (map clock (map r_id rows0)) ->
  rows_ok m (map clock (map r_id rows0) ++ T) rows0 (prepared m clock rows).
Proof.
  intros K N P. assert (K' : rows_ok m T rows0 (map (show_columns (shown_in m)) (map (set_created false) rows))).
  { apply (show_ok narrow), ok_map; auto. }
  unfold prepared. cbv zeta. revert K'. generalize (map (show_columns (shown_in m)) (map (set_created false) rows)) as rows'. intros rows' K'.
  rewrite <- (ids_of _ _ _ _ K') in N, P |- *.
  assert (S : forall q, incl (map clock (map r_id (filter q rows'))) (map clock (map r_id rows'))).
  { intros q t I. apply in_map_iff in I as (id & <- & I). apply in_map. apply in_map_iff in I as (r & <- & I). apply in_map. now apply filter_In in I. }
  apply (ok_weaken _ (map clock (map r_id (filter r_open rows')) ++ T)).
  - intros t I. apply in_app_or in I as [I|I]; apply in_or_app; [left; now apply (S r_open)|now right].
  - apply create_all_ok; [exact K'| |].
    + clear -N. induction rows' as [|r l IH]; [exact N|]. cbn in *. destruct (r_open r); [|inversion N; auto]. cbn. inversion N as [|? ? N1 N2]; subst.
      constructor; [|auto]. intros I. apply N1. apply in_app_or in I as [I|I]; apply in_or_app; [left|now right].
      apply in_map_iff in I as (id & <- & I). apply in_map. apply in_map_iff in I as (q & <- & I). apply in_map. now apply filter_In in I.
    + apply Forall_forall. intros t I. rewrite Forall_forall in P. apply P, (S r_open), I.
Qed.

Lemma redraw_ok narrow m T rows0 clock rows : rows_ok narrow T rows0 rows ->
  NoDup (map clock (map r_id rows0) ++ T) -> Forall (fun t => 0 <= t) (map clock (map r_id rows0)) ->
  rows_ok m (map clock (map r_id rows0) ++ T) rows0 (redraw ignored editable (shown_in m) clock rows).
Proof. intros K N P. apply toggle_inputs_ok, (prepared_rows_ok narrow m T); assumption. Qed.

(** ** Back in the cells *)

(** In a row that is seen, the cells in [S] have their contents. *)
Definition settled (S : Z -> nat -> Prop) (r0 r : row) : Prop :=
  r_visible r = true -> forall i c0 c, S (r_id r) i -> nth_error (r_cells r0) i = Some c0 -> nth_error (r_cells r) i = Some c -> e_content c = e_content c0.

Lemma with_cell_nth i j c l x : nth_error l i = Some x -> nth_error (with_cell i c l) j = if Nat.eqb j i then Some c else nth_error l j.
Proof.
  unfold with_cell. revert i j. induction l as [|y l IH]; intros i j E; [destruct i; discriminate|]. destruct i as [|i]; cbn in E.
  - destruct j; reflexivity.
  - destruct j as [|j]; [reflexivity|]. cbn. apply (IH i j E).
Qed.

Lemma Forall2_weaken {X Y} (P Q : X -> Y -> Prop) a b : (forall x y, In y b -> P x y -> Q x y) -> Forall2 P a b -> Forall2 Q a b.
Proof. intros F K. induction K as [|x y a b K L IH]; constructor; [apply F; [now left|exact K]|]. apply IH. intros u v I. apply F. now right. Qed.

(** The cell that is toggled has its contents then. *)
Lemma settle_row T rows0 pre r post S id i r0 : rows_ok false T rows0 (pre ++ r :: post) -> row_ok false r0 r -> settled S r0 r ->
  find_row id (pre ++ r :: post) = Some r -> r_id r = id -> (forall q, In q pre \/ In q post -> r_id q <> id) ->
  exists r', toggleInput id i (pre ++ r :: post) = pre ++ r' :: post /\ settled (fun a j => S a j \/ (a = id /\ j = i)) r0 r'.
Proof.
  intros K (_ & C & D & _) F E Ei Eo. destruct (nth_error (r_cells r) i) as [[[n|] content sh]|] eqn:Ec.
  - destruct (toggleInput_moves _ _ _ _ _ _ _ _ _ _ _ K E Ei Eo Ec) as (v & I & B & ->). eexists. split; [reflexivity|].
    destruct (cells_nth _ _ _ _ _ _ _ C Ec) as (c0 & E0 & Sh & _ & _ & w & J & Bw & P). cbn in Sh. subst sh.
    assert (w = v) as -> by (pose proof (one_match n v _ D I B) as O; rewrite (one_match n w) in O by assumption; congruence). cbn [e_content] in P. cbn [andb].
    intros V j c1 c Sj E1 Ej. assert (Vr : r_visible r = true) by (destruct (r_visible r) eqn:Vr; [reflexivity|]; destruct (empty content); cbn in V; congruence).
    rewrite Vr in *. destruct (empty (d_content v)) eqn:O.
    + destruct Sj as [Sj|[_ ->]]; [now apply (F Vr j)|]. rewrite Ec in Ej. rewrite E0 in E1. injection Ej as <-. injection E1 as <-. cbn.
      apply empty_nil in O. destruct P as [[P _]|[P Q]]; congruence.
    + cbn [moved set_cells r_cells] in Ej. rewrite (with_cell_nth _ _ _ _ _ Ec) in Ej. destruct (Nat.eqb_spec j i) as [->|N].
      * injection Ej as <-. rewrite E0 in E1. injection E1 as <-. cbn. destruct P as [[_ P]|[_ P]]; [now rewrite P in O|exact P].
      * destruct Sj as [Sj|[_ Sj]]; [now apply (F Vr j)|easy].
  - exists r. unfold toggleInput. rewrite E, Ec. split; [reflexivity|]. intros V j c1 c [Sj|[_ ->]] E1 Ej; [now apply (F V j)|].
    destruct (cells_nth _ _ _ _ _ _ _ C Ec) as (c0 & E0 & _ & P). rewrite Ec in Ej. rewrite E0 in E1. injection Ej as <-. injection E1 as <-. exact P.
  - exists r. unfold toggleInput. rewrite E, Ec. split; [reflexivity|]. intros V j c1 c [Sj|[_ ->]] E1 Ej; [now apply (F V j)|congruence].
Qed.

Lemma settle_step T rows0 rows S id i : rows_ok false T rows0 rows -> Forall2 (settled S) rows0 rows ->
  Forall2 (settled (fun a j => S a j \/ (a = id /\ j = i))) rows0 (toggleInput id i rows).
Proof.
  intros K F. assert (O : forall a l, (forall q, In q l -> r_id q <> id) -> Forall2 (settled S) a l -> Forall2 (settled (fun a j => S a j \/ (a = id /\ j = i))) a l).
  { intros a l N. apply Forall2_weaken. intros x y I Q V j c0 c [Sj|[Ej _]]; [now apply Q|]. destruct (N y I Ej). }
  destruct (find_row id rows) as [r|] eqn:E.
  - destruct (find_split id rows r E (ok_ids _ _ _ _ K)) as (pre & post & -> & Ei & Eo). pose proof (ok_rows _ _ _ _ K) as R.
    apply Forall2_app_inv_r in F as (a & b & Fa & Fb & ->). inversion Fb as [|r0 ? b' ? Fr Fc]; subst.
    apply Forall2_app_inv_r in R as (a' & b & Ra & Rb & Eab). inversion Rb as [|r0' ? b'' ? Rr Rc]; subst.
    assert (a = a' /\ r0 = r0') as [<- <-].
    { apply Forall2_length in Fa, Ra. assert (L : length a = length a') by congruence. clear -Eab L. revert a' L Eab. induction a as [|x a IH]; intros [|y a'] L Eab; cbn in *; try discriminate.
      - injection Eab as -> _. now split.
      - injection Eab as -> Eab. destruct (IH a' ltac:(congruence) Eab) as [-> ->]. now split. }
    destruct (settle_row _ _ _ _ _ S (r_id r) i r0 K Rr Fr E eq_refl Eo) as (r' & -> & Fr').
    apply Forall2_app; [apply O; auto|constructor; [exact Fr'|apply O; auto]].
  - unfold toggleInput. rewrite E. apply O; [|exact F]. intros q I Q. apply (find_none _ _ E) in I. now apply Z.eqb_neq in I.
Qed.

Lemma settle_all T rows0 S l rows : rows_ok false T rows0 rows -> Forall2 (settled S) rows0 rows ->
  Forall2 (settled (fun a j => S a j \/ In (a, j) l)) rows0 (fold_left (fun rows ic => toggleInput (fst ic) (snd ic) rows) l rows).
Proof.
  revert S rows. induction l as [|[id i] l IH]; intros S rows K F; cbn [fold_left fst snd].
  - revert F. apply Forall2_weaken. intros x y _ Q V j c0 c [Sj|[]]. now apply Q.
  - pose proof (IH _ _ (toggleInput_ok _ _ _ _ id i K) (settle_step _ _ _ S id i K F)) as G. revert G. apply Forall2_weaken.
    intros x y _ Q V j c0 c Sj. apply Q; [exact V|]. destruct Sj as [Sj|[[= -> ->]|Sj]]; [left; now left|left; right; now split|now right].
Qed.

Lemma in_bound_cells rows r i n : In r rows -> (exists c, nth_error (r_cells r) i = Some c /\ e_bind c = Some n) -> In (r_id r, i) (bound_cells rows).
Proof.
  intros I (c & E & B). apply in_flat_map. exists r. split; [exact I|]. apply in_flat_map. exists (i, c). cbn [fst snd]. rewrite B. split; [|now left].
  enough (G : forall k l, nth_error l i = Some c -> In ((k + i)%nat, c) (combine (seq k (List.length l)) l)) by apply (G 0%nat _ E).
  clear. induction i as [|i IH]; intros k [|x l] E; try discriminate; cbn in *; [left; now rewrite Nat.add_0_r; injection E as ->|].
  right. replace (k + S i)%nat with (S k + i)%nat by lia. now apply IH.
Qed.

(** When all columns are shown, a row that is seen has its fields in its cells. *)
Lemma redraw_settles narrow T rows0 clock rows : rows_ok narrow T rows0 rows ->
  NoDup (map clock (map r_id rows0) ++ T) -> Forall (fun t => 0 <= t) (map clock (map r_id rows0)) ->
  Forall2 (settled (fun _ _ => True)) rows0 (redraw ignored editable (shown_in false) clock rows).
Proof.
  intros K N P. pose proof (prepared_rows_ok narrow false T rows0 clock rows K N P) as K'.
  change (redraw ignored editable (shown_in false) clock rows)
    with (fold_left (fun rows ic => toggleInput (fst ic) (snd ic) rows) (bound_cells (prepared false clock rows)) (prepared false clock rows)).
  set (rows' := prepared false clock rows) in *. set (S := fun (a : Z) (j : nat) => ~ In (a, j) (bound_cells rows')).
  assert (F : Forall2 (settled S) rows0 rows').
  { refine (Forall2_weaken _ _ _ _ _ (ok_rows _ _ _ _ K')). intros r0 r I (_ & C & _) V j c0 c Sj E0 E.
    destruct (cells_nth _ _ _ _ _ _ _ C E) as (c1 & E1 & _ & Q). rewrite E0 in E1. injection E1 as <-.
    destruct (e_bind c) as [n|] eqn:B; [|exact Q]. destruct Sj. apply (in_bound_cells rows' r j n I). now exists c. }
  pose proof (settle_all _ _ S (bound_cells rows') rows' K' F) as G. revert G. apply Forall2_weaken.
  intros x y _ Q V j c0 c _. apply Q; [exact V|]. unfold S. destruct (in_dec (fun a b : Z * nat => ltac:(decide equality; [apply Nat.eq_dec|apply Z.eq_dec])) (r_id y, j) (bound_cells rows')); auto.
Qed.

(** ** Whatever happens *)

(** The times at which details are made. *)
Definition times (ids : list Z) (h : happening) : list Z :=
  match h with
  | Toggle t _ => [t]
  | Redraw _ clock => map clock ids
  | Show _ _ => []
  end.

(** The columns are drawn for one of two widths: with those of the breakpoint hidden, or all shown. *)
Definition one_breakpoint (h : happening) : Prop :=
  match h with
  | Redraw shown _ => shown = shown_in true \/ shown = shown_in false
  | _ => True
  end.

Lemma happen_ok narrow T rows0 rows h : rows_ok narrow T rows0 rows -> one_breakpoint h ->
  NoDup (times (map r_id rows0) h ++ T) -> Forall (fun t => 0 <= t) (times (map r_id rows0) h) ->
  exists m, rows_ok m (times (map r_id rows0) h ++ T) rows0 (happen ignored editable rows h).
Proof.
  intros K O N P. destruct h as [t id|shown clock|id b]; cbn [happen times] in *.
  - exists narrow. inversion N; inversion P; subst. now apply toggle_ok.
  - destruct O as [->| ->]; [exists true|exists false]; now apply (redraw_ok narrow).
  - exists narrow. apply ok_update; auto.
Qed.

Lemma fields_run_ok hs narrow T rows0 rows : rows_ok narrow T rows0 rows -> Forall one_breakpoint hs ->
  NoDup (flat_map (times (map r_id rows0)) hs ++ T) -> Forall (fun t => 0 <= t) (flat_map (times (map r_id rows0)) hs) ->
  exists m T', rows_ok m T' rows0 (fold_left (happen ignored editable) hs rows) /\ incl T' (flat_map (times (map r_id rows0)) hs ++ T).
Proof.
  revert narrow T rows. induction hs as [|h hs IH]; intros narrow T rows K O N P; [exists narrow, T; split; [exact K|apply incl_refl]|].
  inversion O; subst. cbn [flat_map] in *. apply Forall_app in P as [P1 P2]. rewrite <- app_assoc in N.
  assert (M : NoDup (flat_map (times (map r_id rows0)) hs ++ times (map r_id rows0) h ++ T)).
  { refine (Permutation_NoDup _ N). rewrite !app_assoc. apply Permutation_app_tail, Permutation_app_comm. }
  destruct (happen_ok _ _ _ _ h K ltac:(assumption) ltac:(now apply NoDup_app_remove_l in M) P1) as (m & K').
  destruct (IH _ _ _ K' ltac:(assumption) M P2) as (m' & T' & K2 & I). exists m', T'. split; [exact K2|].
  intros t J. apply I in J. rewrite <- app_assoc. apply in_app_or in J as [J|J]; [apply in_or_app; right; apply in_or_app; now left|].
  apply in_app_or in J as [J|J]; apply in_or_app; [now left|right; apply in_or_app; now right].
Qed.

(** A table as the page has it: no details, no names, all columns shown. *)
Definition beginning (rows : list row) : Prop :=
  NoDup (map r_id rows) /\ Forall (fun r => r_detail r = None /\ Forall (fun c => e_bind c = None /\ e_shown c = true) (r_cells r)) rows.

Lemma beginning_ok rows : beginning rows -> rows_ok false [] rows rows.
Proof.
  intros [N F]. assert (E : all_names rows = []).
  { clear N. induction F as [|r rows [_ C] F IH]; [reflexivity|]. cbn. fold (all_names rows). rewrite IH, app_nil_r.
    clear -C. induction C as [|c l [B _] C IH]; [reflexivity|]. cbn. unfold cname. now rewrite B. }
  constructor; [|rewrite E; constructor|exact N|rewrite E; constructor].
  clear N E. induction F as [|r rows [D C] F IH]; constructor; [|exact IH]. split; [reflexivity|]. unfold details. rewrite D.
  split; [|split; [constructor|intros n []]]. generalize 0 as j. induction C as [|c l [B S] C IHC]; intros j; constructor; [|apply IHC].
  split; [exact S|]. now rewrite B.
Qed.

(** What was in a cell is in it or in the value of its name, in the order it had. *)
Definition holds (rows : list row) (c0 c : cell) : Prop :=
  e_content c ++ match e_bind c with Some n => contents n rows | None => [] end = e_content c0.

Lemma cells_hold narrow d rows j l0 l : cells_ok narrow d j l0 l ->
  (forall v n, In v d -> d_bind v = Some n -> In n (cnames l) -> contents n rows = d_content v) -> Forall2 (holds rows) l0 l.
Proof.
  intros K F. induction K as [|j c0 c l0 l [_ C] K IH]; constructor.
  - unfold holds. destruct (e_bind c) as [n|] eqn:E; [|now rewrite app_nil_r]. destruct C as (_ & _ & v & I & B & P).
    rewrite (F v n I B) by (apply (bound_name c); [now left|exact E]). destruct P as [[-> ->]|[-> ->]]; [apply app_nil_r|reflexivity].
  - apply IH. intros v n I B J. apply F; try assumption. cbn. apply in_or_app. now right.
Qed.

Lemma rows_hold narrow T rows0 rows : rows_ok narrow T rows0 rows ->
  Forall2 (fun r0 r => r_id r = r_id r0 /\ Forall2 (holds rows) (r_cells r0) (r_cells r)) rows0 rows.
Proof.
  intros K. refine (Forall2_weaken _ _ _ _ _ (ok_rows _ _ _ _ K)). intros r0 r I (E & C & D & _). split; [exact E|].
  apply (cells_hold _ _ _ _ _ _ C). intros v n Iv B J. apply in_split in I as (pre & post & ->).
  destruct (ok_foreign _ _ _ _ _ _ n K J) as [F1 F2]. unfold contents. rewrite values_local, (one_match n v) by assumption. apply app_nil_r.
Qed.

Lemma settled_cells r0 r narrow d : cells_ok narrow d 0 (r_cells r0) (r_cells r) -> settled (fun _ _ => True) r0 r -> r_visible r = true ->
  Forall2 (fun c0 c => e_content c = e_content c0) (r_cells r0) (r_cells r).
Proof.
  intros C F V. assert (G : forall i c0 c, nth_error (r_cells r0) i = Some c0 -> nth_error (r_cells r) i = Some c -> e_content c = e_content c0)
    by (intros i c0 c; now apply F). clear F V. induction C as [|j c0 c l0 l _ C IH]; constructor; [apply (G 0%nat); reflexivity|].
  apply IH. intros i. apply (G (S i)).
Qed.

(** C3: No field of a table is lost.  Where the columns are only drawn for two widths, with those of one breakpoint hidden or all shown, and
    no two details are made at the same time: whatever rows are opened, closed, shown and hidden, and however often the columns are drawn,
    what was in a cell is in this cell or in the value of its name, in no other place; and when the columns are all shown again, every row
    that is seen has everything in its cells. *)
Theorem fields_stay (rows0 : list row) (hs : list happening) :
  beginning rows0 -> Forall one_breakpoint hs ->
  NoDup (flat_map (times (map r_id rows0)) hs) -> Forall (fun t => 0 <= t) (flat_map (times (map r_id rows0)) hs) ->
  let rows := fold_left (happen ignored editable) hs rows0 in
  NoDup (all_names rows) /\
  Forall2 (fun r0 r => r_id r = r_id r0 /\ Forall2 (holds rows) (r_cells r0) (r_cells r)) rows0 rows /\
  forall clock, NoDup (map clock (map r_id rows0) ++ flat_map (times (map r_id rows0)) hs) -> Forall (fun t => 0 <= t) (map clock (map r_id rows0)) ->
    Forall2 (fun r0 r => r_visible r = true -> Forall2 (fun c0 c => e_content c = e_content c0) (r_cells r0) (r_cells r))
      rows0 (redraw ignored editable (shown_in false) clock rows).
Proof.
  intros B O N P rows. destruct (fields_run_ok hs _ _ _ _ (beginning_ok rows0 B) O) as (m & T & K & I); [now rewrite app_nil_r|exact P|].
  fold rows in K. split; [apply (ok_names _ _ _ _ K)|]. split; [apply (rows_hold _ _ _ _ K)|]. intros clock N' P'.
  rewrite app_nil_r in I. assert (K' : rows_ok m (flat_map (times (map r_id rows0)) hs) rows0 rows) by now apply (ok_weaken _ T).
  pose proof (redraw_ok _ false _ _ clock _ K' N' P') as R. pose proof (redraw_settles _ _ _ clock _ K' N' P') as S.
  pose proof (ok_rows _ _ _ _ R) as R0. clear -S R0. revert R0. induction S as [|r0 r l0 l F S IH]; intros R0; [constructor|].
  inversion R0 as [|? ? ? ? (_ & C & _) Rl]; subst. constructor; [|now apply IH]. intros V. now apply (settled_cells r0 r false (details r)).
Qed.

End Fields.

(** Two rows with a field each, which a narrow table hides: they are opened, one after the
    other, the table gets wide again. *)
Definition two_rows : list row := [fresh_row 1 [[]; [field 10]]; fresh_row 2 [[]; [field 20]]].
Definition second (j : Z) : bool := j =? 1.
Definition narrow_and_open : list happening := [Redraw (shown_in second true) (fun id => id); Toggle 3 1; Show 2 false; Toggle 4 2; Show 2 true; Toggle 5 2].

Lemma fields_stay_witness :
  let rows := fold_left (happen no_columns by_content) narrow_and_open two_rows in
  map (fun r => map e_content (r_cells r)) rows = [[[]; []]; [[]; [field 20]]] /\
  Forall2 (fun r0 r => r_visible r = true -> Forall2 (fun c0 c => e_content c = e_content c0) (r_cells r0) (r_cells r))
    two_rows (redraw no_columns by_content (shown_in second false) (fun id => 5 + id) rows).
Proof.
  assert (B : beginning two_rows).
  { split; [repeat constructor; cbn; intuition discriminate|]. repeat constructor. }
  destruct (fields_stay no_columns by_content second two_rows narrow_and_open B) as (_ & _ & H3).
  - repeat constructor.
  - vm_compute. repeat constructor; cbn; intuition discriminate.
  - vm_compute. repeat constructor; discriminate.
  - split; [vm_compute; reflexivity|]. apply H3.
    + vm_compute. repeat constructor; cbn; intuition discriminate.
    + vm_compute. repeat constructor; discriminate.
Defined.

(** ** Contents that are lost *)

(** Two rows that are opened in one millisecond share the names: when the columns are shown
    again, the fields of the second row are in the first. *)
Example same_time_mixes :
  map (fun r => map e_content (r_cells r)) (fold_left (happen no_columns by_content)
    [Redraw (only [0]) (always 1); Toggle 2 1; Toggle 2 2; Redraw (only [0; 1]) (always 3)]
    [fresh_row 1 [[]; [field 10]]; fresh_row 2 [[]; [field 20]]]) =
  [[[]; [field 10; field 20]]; [[]; []]].
Proof. vm_compute. reflexivity. Qed.

(** An open row, two hidden fields, one of which comes back to its column: it is lost. *)
Example back_alone_lost :
  flat_map nodes (fold_left (happen no_columns by_content)
    [Redraw (only [0]) (always 1); Toggle 2 1; Redraw (only [0; 1]) (always 3)] [fresh_row 1 [[]; [field 10]; [field 11]]]) =
  [field 11].
Proof. vm_compute. reflexivity. Qed.

(** A closed row whose detail was made while the field was in its column: hiding the column
    loses it. *)
Example no_place_lost :
  flat_map nodes (fold_left (happen no_columns by_content)
    [Redraw (only [0]) (always 1); Toggle 2 1; Toggle 3 1; Redraw (only [0; 1]) (always 4); Toggle 5 1; Toggle 6 1; Redraw (only [0]) (always 7)]
    [fresh_row 1 [[]; [field 10]; [field 11]]]) =
  [field 11].
Proof. vm_compute. reflexivity. Qed.

End FooFields.
