(* ===== verification/FooSetup.v ===== *)
(** * Setting tables up (footable)

    src/src/qt/res/assets/plugins/footable/footable.js: the version, the names of classes and
    events, the merging of options, the registry of plugins, and the life of an instance on a
    table up to its first drawing.  [$.extend(true, ...)] is written out on trees of options;
    a tree has no arrays, which the options do not have.  What plugins do is code on a state
    of theirs. *)

From Stdlib Require Import String ZArith Lia List Bool.
From S2P Require Import Prelude Js Regex TableIndex Num Value.
Import ListNotations.
#[local] Open Scope Z_scope.
#[local] Open Scope se_scope.

Module FooSetup.

(** ** The version *)

Definition digit : atom := OneOf (js "0123456789").
Definition digits1 : regex := Seq (Atom digit) (Star digit).
Definition optional (r : regex) : regex := Alt r Empty.

(** [/(\d+)\.?(\d+)?\.?(\d+)?/] *)
Definition version_pattern : regex :=
  sequence [Group 1 digits1; optional (Atom (Lit 46)); optional (Group 2 digits1); optional (Atom (Lit 46)); optional (Group 3 digits1)].

(** [parseInt(s, 10)] of digits below 2^53. *)
Definition parseInt (s : list Z) : Z := fst (fst (take_digits s 0 0)).

(** [version.parse(str)]: major, minor and patch; [None] is the TypeError of a text without
    digits. *)
Definition parse (str : list Z) : option (Z * Z * Z) :=
  match search version_pattern str with
  | None => None
  | Some c =>
      let part n := match capture n c with Some t => parseInt t | None => 0 end in
      Some (part 1%nat, part 2%nat, part 3%nat)
  end.

Definition major : Z := 0.
Definition minor : Z := 5.

Definition version_toString : list Z := F64.digits major ++ js "." ++ F64.digits minor.

(** ** Options *)

Section Options.

(** Numbers, texts, functions, null. *)
Context {X : Type}.

Inductive tree : Type :=
| Undefined
| Leaf (x : X)
| Node (entries : list (list Z * tree)).

Definition entries_of (t : option tree) : list (list Z * tree) := match t with Some (Node l) => l | _ => [] end.

(** What a property becomes: [src] is the value it has, [copy] the one that is merged in. *)
Fixpoint merge (src : option tree) (copy : tree) : tree :=
  match copy with
  | Node l =>
      Node ((fix go (l : list (list Z * tree)) (target : list (list Z * tree)) : list (list Z * tree) :=
        match l with
        | [] => target
        | (n, v) :: l => go l (match v with Undefined => target | _ => set n (merge (get n target) v) target end)
        end) l (entries_of src))
  | v => v
  end.

(** [$.extend(true, target, source)] *)
Definition extend (target source : list (list Z * tree)) : list (list Z * tree) := entries_of (Some (merge (Some (Node target)) (Node source))).

(** Which of the numbers, texts and so on a condition takes for true. *)
Variable truthy : X -> bool.

(** A property as a condition: every object is true. *)
Definition holds (t : option tree) : bool := match t with Some (Node _) => true | Some (Leaf x) => truthy x | Some Undefined | None => false end.

(** The options of a call of [$.fn.footable(options)], and the defaults, which the call
    changes; [None] is a call without options. *)
Definition call_options (defaults : list (list Z * tree)) (options : option (list (list Z * tree))) : list (list Z * tree) * list (list Z * tree) :=
  let options := match options with Some l => l | None => [] end in
  let defaults := if holds (get (js "breakpoints") options) then set (js "breakpoints") (Node []) defaults else defaults in
  (extend (extend [] defaults) options, defaults).

(** The leaf at the end of a path. *)
Fixpoint leaf_at (path : list (list Z)) (t : tree) : option X :=
  match path, t with
  | [], Leaf x => Some x
  | n :: path, Node l => match get n l with Some t => leaf_at path t | None => None end
  | _, _ => None
  end.

(** The tree says something about the path: it has a leaf on the way, or a node at its end. *)
Fixpoint says (path : list (list Z)) (t : tree) : bool :=
  match t with
  | Undefined => false
  | Leaf _ => true
  | Node l => match path with
              | [] => true
              | n :: path => match get n l with Some t => says path t | None => false end
              end
  end.

End Options.

Arguments tree : clear implicits.

(** ** Plugins *)

Section Plugins.

(** What plugins change. *)
Context {W : Type}.

(** An object that [new plugin(...)] gives: whether its name is a text, and its [init]. *)
Record object : Type := mkObject { o_name_text : bool; o_init : option (Z -> SE W unit) }.

(** A plugin: [None] is a value that is no function.  The instance is given by its number;
    [_validate] gives none. *)
Definition plugin : Type := option (option Z -> SE W object).

(** [_validate(plugin)]: an exception of the constructor is not caught. *)
Definition _validate (p : plugin) : SE W bool :=
  match p with
  | None => se_ret false
  | Some make =>
      let! o := make None in
      if negb (o_name_text o) then se_ret false
      else match o_init o with Some _ => se_ret true | None => se_ret false end
  end.

(** [register(plugin, options)], on the plugins and the defaults. *)
Definition register {X} (p : plugin) (options : option (tree X)) (registered : list plugin) (defaults : list (list Z * tree X)) :
    SE W (list plugin * list (list Z * tree X)) :=
  let! valid := _validate p in
  if valid then
    se_ret (registered ++ [p], match options with Some (Node l) => extend defaults l | _ => defaults end)
  else se_ret (registered, defaults).

(** An exception is caught, and what was done before it stays. *)
Definition caught {T} (d : T) (c : SE W T) : SE W T := fun w => match c w with (Ret a, w) => (Ret a, w) | (_, w) => (Ret d, w) end.

Definition option_of {T} (c : SE W T) : SE W (option T) := let! a := c in se_ret (Some a).

(** [load(instance)] *)
Fixpoint load (instance : Z) (registered : list plugin) : SE W (list object) :=
  match registered with
  | [] => se_ret []
  | p :: registered =>
      let! o := caught None (match p with Some make => option_of (make (Some instance)) | None => se_throw "registered is not a constructor" end) in
      let! loaded := load instance registered in
      se_ret (match o with Some o => o :: loaded | None => loaded end)
  end.

(** [init(instance)] *)
Fixpoint init_plugins (instance : Z) (plugins : list object) : SE W unit :=
  match plugins with
  | [] => se_ret tt
  | o :: plugins =>
      caught tt (match o_init o with Some init => init instance | None => se_throw "init is not a function" end) ;!
      init_plugins instance plugins
  end.

Lemma caught_returns {T} (d : T) (c : SE W T) w : exists a w', caught d c w = (Ret a, w').
Proof. unfold caught. destruct (c w) as [[a| |] w']; eauto. Qed.

(** One plugin can not keep the others from being loaded and set up. *)
Lemma load_returns instance registered : forall w, exists l w', load instance registered w = (Ret l, w').
Proof.
  induction registered as [|p registered IH]; intros w; [exists [], w; reflexivity|]. cbn [load].
  edestruct (@caught_returns (option object)) as (o & w1 & E). rewrite (se_bind_ret _ _ _ _ _ E). destruct (IH w1) as (l & w2 & E2).
  rewrite (se_bind_ret _ _ _ _ _ E2). eexists. eexists. reflexivity.
Qed.

Lemma init_returns instance plugins : forall w, exists w', init_plugins instance plugins w = (Ret tt, w').
Proof.
  induction plugins as [|o plugins IH]; intros w; [exists w; reflexivity|]. cbn [init_plugins].
  edestruct (@caught_returns unit) as ([] & w1 & E). rewrite (se_bind_ret _ _ _ _ _ E). apply IH.
Qed.

End Plugins.

(** ** Instances on a table *)

(** [options.classes], [options.triggers] and [options.events]. *)
Definition table_classes : list (list Z * list Z) := map (fun p => (js (fst p), js (snd p)))
  [("main", "footable"); ("loading", "footable-loading"); ("loaded", "footable-loaded"); ("toggle", "footable-toggle");
   ("disabled", "footable-disabled"); ("detail", "footable-row-detail"); ("detailCell", "footable-row-detail-cell");
   ("detailInner", "footable-row-detail-inner"); ("detailInnerRow", "footable-row-detail-row");
   ("detailInnerGroup", "footable-row-detail-group"); ("detailInnerName", "footable-row-detail-name");
   ("detailInnerValue", "footable-row-detail-value"); ("detailShow", "footable-detail-show")]%string.

Definition table_triggers : list (list Z * list Z) := map (fun p => (js (fst p), js (snd p)))
  [("initialize", "footable_initialize"); ("resize", "footable_resize"); ("redraw", "footable_redraw"); ("toggleRow", "footable_toggle_row");
   ("expandFirstRow", "footable_expand_first_row"); ("expandAll", "footable_expand_all"); ("collapseAll", "footable_collapse_all")]%string.

Definition table_events : list (list Z * list Z) := map (fun p => (js (fst p), js (snd p)))
  [("alreadyInitialized", "footable_already_initialized"); ("initializing", "footable_initializing"); ("initialized", "footable_initialized");
   ("resizing", "footable_resizing"); ("resized", "footable_resized"); ("redrawn", "footable_redrawn"); ("breakpoint", "footable_breakpoint");
   ("columnData", "footable_column_data"); ("rowDetailUpdating", "footable_row_detail_updating"); ("rowDetailUpdated", "footable_row_detail_updated");
   ("rowCollapsed", "footable_row_collapsed"); ("rowExpanded", "footable_row_expanded"); ("rowRemoved", "footable_row_removed");
   ("reset", "footable_reset")]%string.

Definition named (l : list (list Z * list Z)) (n : string) : list Z := match get (js n) l with Some s => s | None => [] end.
Definition cls : string -> list Z := named table_classes.
Definition trg : string -> list Z := named table_triggers.
Definition evt : string -> list Z := named table_events.

(** A table on the page: its classes, the instance that each of its triggers calls, the events
    raised on it with their instance, [data('footable')] and the instances that follow the
    size of the window. *)
Record table : Type := mkTable {
  k_classes : list (list Z);
  k_triggers : list (list Z * Z);
  k_raised : list (list Z * Z);
  k_data : option Z;
  k_window : list Z
}.

Definition has (c : list Z) (t : table) : bool := existsb (str_eqb c) (k_classes t).
Definition add_class (c : list Z) (t : table) : table :=
  mkTable (if has c t then k_classes t else k_classes t ++ [c]) (k_triggers t) (k_raised t) (k_data t) (k_window t).
Definition remove_class (c : list Z) (t : table) : table :=
  mkTable (filter (fun x => negb (str_eqb c x)) (k_classes t)) (k_triggers t) (k_raised t) (k_data t) (k_window t).
Definition raise (e : list Z) (id : Z) (t : table) : table :=
  mkTable (k_classes t) (k_triggers t) (k_raised t ++ [(e, id)]) (k_data t) (k_window t).
(** [.unbind(trigger).bind(trigger, ...)] *)
Definition rebind (n : list Z) (id : Z) (t : table) : table :=
  mkTable (k_classes t) (set n id (k_triggers t)) (k_raised t) (k_data t) (k_window t).
Definition set_data (id : Z) (t : table) : table := mkTable (k_classes t) (k_triggers t) (k_raised t) (Some id) (k_window t).
Definition follow_window (id : Z) (t : table) : table := mkTable (k_classes t) (k_triggers t) (k_raised t) (k_data t) (k_window t ++ [id]).

Section Instances.

(** What the listeners of the plugins do when they are set up, and what the resize of an
    instance does to the table. *)
Variables plugins_init resize : Z -> table -> table.

(** The handler of the trigger [initialize]. *)
Definition on_initialize (id : Z) (t : table) : table :=
  let t := match get (trg "resize") (k_triggers t) with Some owner => resize owner t | None => t end in
  let t := remove_class (cls "loading") t in
  let t := add_class (cls "main") (add_class (cls "loaded") t) in
  raise (evt "initialized") id t.

(** [ft.init()]; the columns and the breakpoints, which it also reads, are in FooTable.v. *)
Definition init (id : Z) (t : table) : table :=
  let t := plugins_init id t in
  if has (cls "loaded") t then raise (evt "alreadyInitialized") id t
  else
    let t := raise (evt "initializing") id t in
    let t := add_class (cls "loading") t in
    let t := fold_left (fun t n => rebind (trg n) id t) ["initialize"; "redraw"; "resize"; "expandFirstRow"; "expandAll"; "collapseAll"]%string t in
    let t := match get (trg "initialize") (k_triggers t) with Some owner => on_initialize owner t | None => t end in
    follow_window id t.

(** [$.fn.footable] on a list of tables, each with its instance; [count] is [instanceCount]. *)
Fixpoint footable (count : Z) (tables : list table) : Z * list table :=
  match tables with
  | [] => (count, [])
  | t :: tables =>
      let id := count + 1 in
      let t := set_data id (init id t) in
      let '(count, tables) := footable id tables in
      (count, t :: tables)
  end.

(** The classes in [reset]. *)
Definition reset_classes (id : Z) (t : table) : table :=
  raise (evt "reset") id (remove_class (cls "loaded") (remove_class (cls "loading") t)).

End Instances.

(** ** The version is read back *)

Lemma digit_matches x : atom_matches false digit x = is_digit x.
Proof.
  unfold digit, is_digit. change (js "0123456789") with [48; 49; 50; 51; 52; 53; 54; 55; 56; 57]. cbn [atom_matches existsb same_char].
  apply eq_true_iff_eq. rewrite andb_true_iff, !Z.leb_le, !orb_true_iff, !Z.eqb_eq. lia.
Qed.

Definition stops (t : list Z) : Prop := match t with [] => True | x :: _ => is_digit x = false end.

Lemma star_digits c s t k r : forallb is_digit s = true -> stops t ->
  k {| at_start := false; rest := t; captures := c |} = Some r -> star false digit c false (s ++ t) k = Some r.
Proof.
  intros Hs Ht Hk. induction s as [|x s IH]; cbn [app].
  - destruct t as [|x t]; [exact Hk|]. cbn [star]. rewrite digit_matches. now rewrite Ht.
  - cbn [forallb] in Hs. apply andb_prop in Hs as [Hx Hs]. cbn [star]. now rewrite digit_matches, Hx, (IH Hs).
Qed.

Lemma group_digits g s t c b k r : forallb is_digit s = true -> s <> [] -> stops t ->
  k {| at_start := false; rest := t; captures := (g, s) :: c |} = Some r ->
  run false (Group g digits1) k {| at_start := b; rest := s ++ t; captures := c |} = Some r.
Proof.
  intros Hs Hne Ht Hk. destruct s as [|x s]; [easy|]. pose proof Hs as Hs'. cbn [forallb] in Hs. apply andb_prop in Hs as [Hx Hs].
  rewrite run_group. unfold digits1. rewrite run_seq. cbn [run rest app]. rewrite digit_matches, Hx. cbn [advance captures at_start rest].
  apply star_digits; [exact Hs|exact Ht|]. cbn [rest captures at_start]. change (x :: s ++ t) with ((x :: s) ++ t). now rewrite consumed_app.
Qed.

Lemma optional_found p k st r : run false p k st = Some r -> run false (optional p) k st = Some r.
Proof. intros E. unfold optional. rewrite run_alt, E. reflexivity. Qed.

Lemma point_found k s c b r : k {| at_start := false; rest := s; captures := c |} = Some r ->
  run false (Atom (Lit 46)) k {| at_start := b; rest := 46 :: s; captures := c |} = Some r.
Proof. intros E. exact E. Qed.

Lemma parseInt_digits n : 0 <= n -> parseInt (F64.digits n) = n.
Proof. intros H. destruct (digits_value n H) as (F & _ & V). unfold parseInt. rewrite take_digits_all by exact F. exact V. Qed.

(** Versions are read as they are written: [parse] of the three numbers of a version with points between them gives these numbers,
    and [parse] of [version.toString()] the numbers of this version. *)
Theorem version_roundtrip a b c : 0 <= a -> 0 <= b -> 0 <= c ->
  parse (F64.digits a ++ js "." ++ F64.digits b ++ js "." ++ F64.digits c) = Some (a, b, c) /\
  parse version_toString = Some (major, minor, 0).
Proof.
  intros Ha Hb Hc. split; [|vm_compute; reflexivity]. destruct (digits_value a Ha) as (Fa & Na & _), (digits_value b Hb) as (Fb & Nb & _), (digits_value c Hc) as (Fc & Nc & _).
  assert (M : matches_at false version_pattern true (F64.digits a ++ js "." ++ F64.digits b ++ js "." ++ F64.digits c) =
    Some {| at_start := false; rest := []; captures := [(3%nat, F64.digits c); (2%nat, F64.digits b); (1%nat, F64.digits a)] |}).
  { unfold matches_at, version_pattern, sequence. change (js ".") with [46]. cbn [app]. rewrite run_seq. apply group_digits; [exact Fa|exact Na|reflexivity|].
    rewrite run_seq. apply optional_found, point_found. rewrite run_seq. apply optional_found, group_digits; [exact Fb|exact Nb|reflexivity|].
    rewrite run_seq. apply optional_found, point_found. apply optional_found. rewrite <- (app_nil_r (F64.digits c)) at 1.
    apply group_digits; [exact Fc|exact Nc|exact I|reflexivity]. }
  unfold parse, search. assert (E : forall s, search_from false version_pattern true s = match matches_at false version_pattern true s with
      Some st => Some (captures st) | None => match s with [] => None | _ :: s => search_from false version_pattern false s end end) by (intros []; reflexivity).
  rewrite E, M. cbn [captures capture Nat.eqb]. now rewrite !parseInt_digits.
Qed.

Lemma version_roundtrip_witness : parse (F64.digits 12 ++ js "." ++ F64.digits 0 ++ js "." ++ F64.digits 345) = Some (12, 0, 345).
Proof. apply (version_roundtrip 12 0 345); lia. Defined.

(** ** What options win *)

Section Merging.

Context {X : Type}.

(** An object has a property once. *)
Inductive wf : tree X -> Prop :=
| wf_undefined : wf Undefined
| wf_leaf x : wf (Leaf x)
| wf_node l : NoDup (map fst l) -> (forall n t, get n l = Some t -> wf t) -> wf (Node l).

Definition present (t : option (tree X)) : option (tree X) := match t with Some Undefined => None | t => t end.

Definition go := (fix go (l : list (list Z * tree X)) (target : list (list Z * tree X)) : list (list Z * tree X) :=
        match l with
        | [] => target
        | (n, v) :: l => go l (match v with Undefined => target | _ => set n (merge (get n target) v) target end)
        end).

Lemma get_absent n (l : list (list Z * tree X)) : ~ In n (map fst l) -> get n l = None.
Proof.
  induction l as [|[m v] l IH]; intros N; [reflexivity|]. cbn in *. destruct (str_eqb_spec n m) as [->|]; [tauto|]. apply IH. tauto.
Qed.

Lemma get_go n l target : NoDup (map fst l) ->
  get n (go l target) = match present (get n l) with Some v => Some (merge (get n target) v) | None => get n target end.
Proof.
  revert target. induction l as [|[m v] l IH]; intros target N; [reflexivity|]. cbn in N. inversion N as [|? ? N1 N2]; subst. cbn [go get].
  rewrite IH by exact N2. destruct (str_eqb_spec n m) as [->|D].
  - rewrite (get_absent m l N1). cbn [present]. destruct v; [reflexivity|..]; rewrite get_set, str_eqb_refl; reflexivity.
  - assert (S : get n (match v with Undefined => target | _ => set m (merge (get m target) v) target end) = get n target).
    { destruct v; [reflexivity|..]; rewrite get_set; destruct (str_eqb_spec n m); easy. }
    now rewrite S.
Qed.

Lemma set_keys n (v : tree X) l : NoDup (map fst l) -> NoDup (map fst (set n v l)).
Proof.
  assert (I : forall m l, In m (map fst (set n v l)) -> m = n \/ In m (map fst l)).
  { intros m l0. induction l0 as [|[k w] l0 IH]; cbn; [intros [<-|[]]; now left|]. destruct (str_eqb n k); cbn; [tauto|]. intros [<-|J]; [tauto|]. apply IH in J. tauto. }
  induction l as [|[k w] l IH]; intros N; cbn; [repeat constructor; easy|]. cbn in N. inversion N as [|? ? N1 N2]; subst.
  destruct (str_eqb_spec n k) as [->|D]; cbn; constructor; auto. intros J. apply I in J as [->|J]; [easy|exact (N1 J)].
Qed.

Lemma silent p : forall t : tree X, says p t = false -> leaf_at p t = None.
Proof.
  induction p as [|n p IH]; intros [|x|l] S; try easy. cbn in *. destruct (get n l) as [t|]; [apply IH, S|reflexivity].
Qed.

(** A merged tree has the leaves of the one merged in, and where that one says nothing, the
    leaves that were there. *)
Lemma merge_leaf p : forall src t, wf t -> t <> Undefined ->
  leaf_at p (merge src t) = if says p t then leaf_at p t else leaf_at p (Node (entries_of src)).
Proof.
  induction p as [|n p IH]; intros src t W U.
  - destruct t; [easy|reflexivity|reflexivity].
  - destruct W as [|x|l N W]; [easy|reflexivity|]. cbn [says leaf_at].
    change (merge src (Node l)) with (Node (go l (entries_of src))). cbn [leaf_at]. rewrite get_go by exact N.
    destruct (get n l) as [[|y|l']|] eqn:E; cbn [present]; [destruct p; reflexivity|..|reflexivity].
    + destruct p; reflexivity.
    + rewrite IH by (try discriminate; now apply (W n)). destruct (says p (Node l')) eqn:S; [reflexivity|].
      destruct p as [|m p]; [discriminate S|]. destruct (get n (entries_of src)) as [[|y|l2]|]; reflexivity.
Qed.

(** C40: Which options a table gets.  Let no object have a property twice, and let [truthy] say which numbers, texts and so on a
    condition takes for true.  At every path into the options, the call's own option counts if the call gives one there (or at a
    part of the way), and else the default.  A call whose option breakpoints counts as true - an object, even an empty one, or any
    other value that is no false one - gets none of the default breakpoints, and takes them away from the defaults of all later
    calls; the other defaults stay as they are, and with false breakpoints, none, or no options at all, every default does. *)
Theorem options_of_call (truthy : X -> bool) (defaults : list (list Z * tree X)) (given : option (list (list Z * tree X))) :
  let options := match given with Some l => l | None => [] end in
  wf (Node defaults) -> wf (Node options) ->
  let '(o, defaults') := call_options truthy defaults given in
  (forall p, leaf_at p (Node o) = if says p (Node options) then leaf_at p (Node options) else leaf_at p (Node defaults')) /\
  (forall n p, leaf_at (n :: p) (Node defaults') =
    if holds truthy (get (js "breakpoints") options) && str_eqb n (js "breakpoints") then None else leaf_at (n :: p) (Node defaults)).
Proof.
  intros options Wd Wo. unfold call_options. fold options. set (defaults' := if holds _ _ then _ else _).
  assert (D : forall n p, leaf_at (n :: p) (Node defaults') =
    if holds truthy (get (js "breakpoints") options) && str_eqb n (js "breakpoints") then None else leaf_at (n :: p) (Node defaults)).
  { intros n p. unfold defaults'. destruct (holds truthy (get (js "breakpoints") options)); [|reflexivity]. cbn [leaf_at]. rewrite get_set.
    destruct (str_eqb n (js "breakpoints")); [destruct p; reflexivity|reflexivity]. }
  assert (Wd' : wf (Node defaults')).
  { unfold defaults'. destruct (holds truthy (get (js "breakpoints") options)); [|exact Wd]. inversion Wd as [| |l N F]; subst. constructor.
    - now apply set_keys.
    - intros n t. rewrite get_set. destruct (str_eqb n (js "breakpoints")); [|apply F]. intros [= <-]. constructor; [constructor|easy]. }
  split; [|exact D]. intros p. unfold extend.
  change (Node (entries_of (Some (merge (Some (Node ?t)) (Node ?u))))) with (merge (Some (Node t)) (Node u)).
  rewrite (merge_leaf p _ (Node options)) by (exact Wo || discriminate). destruct (says p (Node options)); [reflexivity|].
  change (entries_of (Some (Node ?l))) with l.
  change (Node (entries_of (Some (merge (Some (Node ?t)) (Node ?u))))) with (merge (Some (Node t)) (Node u)).
  rewrite (merge_leaf p _ (Node defaults')) by (exact Wd' || discriminate). destruct (says p (Node defaults')) eqn:S; [reflexivity|].
  rewrite (silent _ _ S). destruct p; reflexivity.
Qed.

End Merging.

(** The defaults of a table without breakpoints of its own, after a call with some. *)
Lemma options_of_call_witness :
  let defaults := [(js "delay", Leaf 100); (js "breakpoints", Node [(js "phone", Leaf 480); (js "tablet", Leaf 1024)])] in
  let truthy v := negb (v =? 0) in
  let '(o, defaults') := call_options truthy defaults (Some [(js "breakpoints", Node [(js "wide", Leaf 2000)])]) in
  leaf_at [js "breakpoints"; js "wide"] (Node o) = Some 2000 /\ leaf_at [js "breakpoints"; js "phone"] (Node o) = None /\
  leaf_at [js "delay"] (Node o) = Some 100 /\ leaf_at [js "breakpoints"; js "phone"] (Node (fst (call_options truthy defaults' None))) = None.
Proof.
  intros defaults truthy. set (options := [(js "breakpoints", Node [(js "wide", Leaf 2000)])]).
  assert (W : forall l : list (list Z * tree Z), forallb (fun e => match snd e with Leaf _ => true | _ => false end) l = true -> NoDup (map fst l) -> wf (Node l)).
  { intros l F N. constructor; [exact N|]. intros n t E. apply get_in in E. rewrite forallb_forall in F. specialize (F _ E). destruct t; try discriminate. constructor. }
  assert (Wd : wf (Node defaults)).
  { constructor; [repeat constructor; cbn; intuition discriminate|]. intros n t E. apply get_in in E. destruct E as [[= <- <-]|[[= <- <-]|[]]]; [constructor|].
    apply W; [reflexivity|repeat constructor; cbn; intuition discriminate]. }
  assert (Wo : wf (Node options)).
  { constructor; [repeat constructor; cbn; intuition discriminate|]. intros n t E. apply get_in in E. destruct E as [[= <- <-]|[]].
    apply W; [reflexivity|repeat constructor; cbn; intuition discriminate]. }
  pose proof (options_of_call truthy defaults (Some options) Wd Wo) as H. destruct (call_options truthy defaults (Some options)) as [o defaults'] eqn:E. destruct H as [H _].
  rewrite !H. vm_compute in E. injection E as _ <-. vm_compute. repeat split.
Defined.

(** Breakpoints that are no object: a true value takes the default ones away, and 0 does not. *)
Example breakpoints_no_object :
  let defaults := [(js "breakpoints", Node [(js "phone", Leaf 480)])] in
  let truthy v := negb (v =? 0) in
  snd (call_options truthy defaults (Some [(js "breakpoints", Leaf 7)])) = [(js "breakpoints", Node [])] /\
  snd (call_options truthy defaults (Some [(js "breakpoints", Leaf 0)])) = defaults.
Proof. split; reflexivity. Qed.

(** A second call on a table: the new instance is the one in [data('footable')], but the
    triggers call the first, and the new one was never given columns. *)
Example second_call_split :
  let plain (_ : Z) (t : table) := t in
  let '(count, tables) := footable plain plain 0 [mkTable [] [] [] None []] in
  let '(_, tables) := footable plain plain count tables in
  map (fun t => (get (trg "redraw") (k_triggers t), k_data t, k_window t, last (k_raised t) ([], 0))) tables =
  [(Some 1, Some 2, [1], (evt "alreadyInitialized", 2))].
Proof. vm_compute. reflexivity. Qed.

End FooSetup.
