(* ===== verification/FooMarks.v ===== *)
(** * Marks on the cells of tables (footable)

    src/src/qt/res/assets/plugins/footable/footable.js: what a drawing of a table marks for
    the style sheet and for the user - the element that toggles a row, the classes of columns,
    the first and the last cell that is seen.  A row is the list of its cells with these
    marks; columns are those of FooTable.v. *)

From Stdlib Require Import String ZArith Lia List Bool.
From S2P Require Import Prelude Js Num Value FooTable FooSetup.
Import ListNotations.
#[local] Open Scope Z_scope.

Module FooMarks.

(** A cell: whether it is a [th], the toggle elements in it, and its classes. *)
Record cell : Type := mkCell { c_th : bool; c_toggles : nat; c_classes : list (list Z) }.

Record row : Type := mkRow { r_detail : bool; r_disabled : bool; r_cells : list cell }.

Definition set_toggles (n : nat) (c : cell) : cell := mkCell (c_th c) n (c_classes c).
Definition set_classes (l : list (list Z)) (c : cell) : cell := mkCell (c_th c) (c_toggles c) l.
Definition set_cells (l : list cell) (r : row) : row := mkRow (r_detail r) (r_disabled r) l.

Definition has_class (k : list Z) (c : cell) : bool := existsb (str_eqb k) (c_classes c).
Definition add_class (k : list Z) (c : cell) : cell := if has_class k c then c else set_classes (c_classes c ++ [k]) c.
Definition remove_class (k : list Z) (c : cell) : cell := set_classes (filter (fun x => negb (str_eqb k x)) (c_classes c)) c.

(** A function of the cell and its place among the children of the row. *)
Definition map_cells (f : Z -> cell -> cell) (l : list cell) : list cell :=
  map (fun ic => f (Z.of_nat (fst ic)) (snd ic)) (combine (seq 0 (List.length l)) l).

Section Marks.

Context {A : Type} {N : Num A}.

(** [data('class')] of the header of a column. *)
Variable className : FooTable.column (A:=A) -> option (list Z).

(** The option [addRowToggle]. *)
Variable opt_addRowToggle : bool.

(** The column of the toggles: the first that asks for them, or else the first cell. *)
Definition toggle_index (columns : list (FooTable.column (A:=A))) : Z :=
  match find FooTable.toggle columns with Some c => FooTable.index c | None => 0 end.

(** [addRowToggle()] on the rows of the body. *)
Definition addRowToggle (columns : list (FooTable.column (A:=A))) (rows : list row) : list row :=
  if negb opt_addRowToggle then rows
  else
    let rows := map (fun r => set_cells (map (set_toggles 0) (r_cells r)) r) rows in
    map (fun r =>
      if r_detail r || r_disabled r then r
      else set_cells (map_cells (fun i c =>
        if (i =? toggle_index columns) && negb (has_class (FooSetup.cls "detailCell") c) then set_toggles (S (c_toggles c)) c else c) (r_cells r)) r) rows.

(** [setColumnClasses()] *)
Definition set_column_class (col : FooTable.column (A:=A)) (rows : list row) : list row :=
  match className col with
  | None => rows
  | Some k =>
      map (fun r =>
        if r_detail r then r
        else set_cells (map_cells (fun i c =>
          if existsb (Z.eqb i) (FooTable.matches col) && negb (c_th c) && negb (has_class (FooSetup.cls "detailCell") c) then add_class k c else c) (r_cells r)) r) rows
  end.

Definition setColumnClasses (columns : list (FooTable.column (A:=A))) (rows : list row) : list row :=
  fold_left (fun rows col => set_column_class col rows) columns rows.

(** ** The first and the last cell that is seen *)

Definition visible_class : list Z := js "footable-visible".
Definition first_class : list Z := js "footable-first-column".
Definition last_class : list Z := js "footable-last-column".

(** [.find('> th.footable-visible:first, > td.footable-visible:first').addClass(k)] in a row:
    the first of each kind; [seen] tells for which kinds it was found. *)
Fixpoint mark_first (k : list Z) (seen_th seen_td : bool) (l : list cell) : list cell :=
  match l with
  | [] => []
  | c :: l =>
      if has_class visible_class c && negb (if c_th c then seen_th else seen_td)
      then add_class k c :: mark_first k (seen_th || c_th c) (seen_td || negb (c_th c)) l
      else c :: mark_first k seen_th seen_td l
  end.

Definition mark_last (k : list Z) (l : list cell) : list cell := rev (mark_first k false false (rev l)).

(** The end of [redraw], on a row of the head ([th] loses the marks) or of the body ([td]
    does). *)
Definition mark_edges (head : bool) (r : row) : row :=
  let off k c := if Bool.eqb (c_th c) head then remove_class k c else c in
  let cells := map (off first_class) (map (off last_class) (r_cells r)) in
  set_cells (mark_first first_class false false (mark_last last_class cells)) r.

(** ** What holds *)

Lemma map_cells_nth f l i : nth_error (map_cells f l) i = option_map (f (Z.of_nat i)) (nth_error l i).
Proof.
  unfold map_cells. assert (G : forall k i, nth_error (map (fun ic => f (Z.of_nat (fst ic)) (snd ic)) (combine (seq k (List.length l)) l)) i
      = option_map (f (Z.of_nat (k + i))) (nth_error l i)); [|apply (G 0%nat)].
  induction l as [|c l IH]; intros k [|j]; try reflexivity; cbn [List.length seq combine map nth_error fst snd].
  - now rewrite Nat.add_0_r.
  - rewrite IH. now rewrite Nat.add_succ_r.
Qed.

Definition normal (r : row) : bool := negb (r_detail r || r_disabled r).

(** Every cell has one toggle or none: those in the column of the toggles of the rows that can
    be toggled have one. *)
Lemma toggles_once columns rows k r i c : opt_addRowToggle = true ->
  nth_error (addRowToggle columns rows) k = Some r -> nth_error (r_cells r) i = Some c ->
  c_toggles c = if normal r && (Z.of_nat i =? toggle_index columns) && negb (has_class (FooSetup.cls "detailCell") c) then 1%nat else 0%nat.
Proof.
  unfold addRowToggle. intros -> E Ec. cbn [negb] in E. rewrite map_map, nth_error_map in E. destruct (nth_error rows k) as [r0|]; [|discriminate].
  injection E as <-. unfold normal in *. cbn [set_cells r_detail r_disabled r_cells] in *. destruct (r_detail r0 || r_disabled r0) eqn:D; cbn [r_cells r_detail r_disabled set_cells] in *.
  - rewrite nth_error_map in Ec. destruct (nth_error (r_cells r0) i) as [c0|]; [|discriminate]. injection Ec as <-. rewrite D. reflexivity.
  - rewrite D. rewrite map_cells_nth, nth_error_map in Ec. destruct (nth_error (r_cells r0) i) as [c0|]; [|discriminate]. injection Ec as <-. cbn [negb andb].
    destruct (_ =? _); [|reflexivity]. cbn [andb]. destruct (negb (has_class (FooSetup.cls "detailCell") (set_toggles 0 c0))) eqn:Q; cbn in Q |- *;
      unfold has_class in *; cbn in *; now rewrite Q.
Qed.

End Marks.

(** A table whose first header cell spans two columns: the toggles of the second header cell
    ([index] 1) are put into the second cell of a row, which belongs to the first header. *)
Example toggle_ignores_spans :
  let th colspan toggle := FooTable.mkTh [] [] None None false toggle None colspan [] None false 0 in
  let columns := FooTable.get_columns (A:=F64.t) [] [] [th 2 false; th 1 true] in
  map FooTable.matches columns = [[0; 1]; [2]] /\ toggle_index columns = 1.
Proof. vm_compute. split; reflexivity. Qed.

End FooMarks.
