(* ===== verification/ScrollUtils.v ===== *)
(** * The helpers of the scroller (iScroll)

    src/src/qt/res/assets/plugins/iscroll/iscroll.js, the object [utils]: what the browser
    supports, the prefixed names of style properties, classes of elements, positions of
    elements, easing functions and the momentum of a gesture.  The functions of Math that
    numbers alone do not give are the class [Maths]. *)

From Stdlib Require Import String ZArith Lia List Bool QArith Qround.
From S2P Require Import Prelude Js Num Value Regex.
Import ListNotations.
#[local] Open Scope Z_scope.

(** A number literal. *)
Notation "# n" := (of_Z n%Z) (at level 1, n at level 0, format "# n").

(** ** Numbers *)

(** The functions of Math, how a number is written, and the conversion of case. *)
Class Maths (A : Type) : Type := {
  Math_sqrt : A -> A;
  Math_sin : A -> A;
  Math_pow : A -> A -> A;
  Math_PI : A;
  show : A -> list Z;
  toUpperCase : list Z -> list Z
}.

Module Utils.

Section Utils.

Context {A : Type} {N : Num A} {M : Maths A}.

Definition zero : A := of_Z 0.

Definition gtb (x y : A) : bool := ltb y x.
Definition leb (x y : A) : bool := ltb x y || eqb x y.
Definition geb (x y : A) : bool := leb y x.
Definition nonzero (x : A) : bool := truthy (Number x).
Definition neg (x : A) : A := sub zero x.

(** [x || y] *)
Definition or_number (x y : A) : A := if nonzero x then x else y.

Definition Math_abs (x : A) : A := if ltb x zero then neg x else x.

Definition Math_max (x y : A) : A := if isNaN x || isNaN y then NaN else if ltb x y then y else x.

Definition Math_min (x y : A) : A := if isNaN x || isNaN y then NaN else if ltb y x then y else x.

(** [Math.round]: the nearest integer, the larger of two. *)
Definition Math_round (x : A) : A :=
  if eqb (sub x x) zero then
    let f := floor x in
    of_Z (if ltb (sub x (of_Z f)) (dec 5 1) then f else f + 1)
  else x.

(** ** What the browser supports *)

Record browser : Type := mkBrowser {
  b_style : list (list Z);           (* the properties of a style *)
  b_ontouchstart : bool;             (* 'ontouchstart' in window *)
  b_PointerEvent : bool;
  b_MSPointerEvent : bool;
  b_onmousedown : bool;              (* window.onmousedown is defined *)
  b_appVersion : list Z
}.

Definition in_style (b : browser) (s : list Z) : bool := existsb (str_eqb s) (b_style b).

Definition drop_last (s : list Z) : list Z := firstn (length s - 1) s.

Fixpoint first_vendor (b : browser) (vendors : list (list Z)) : option (list Z) :=
  match vendors with
  | [] => None
  | v :: vendors => if in_style b (v ++ js "ransform") then Some (drop_last v) else first_vendor b vendors
  end.

(** The prefix of the browser; [None] is [false]. *)
Definition _vendor (b : browser) : option (list Z) := first_vendor b (map js ["t"; "webkitT"; "MozT"; "msT"; "OT"]%string).

(** [toUpperCase] of an ASCII letter: the names of properties and events have no others. *)
Definition upper (s : list Z) : list Z := map (fun c => if (97 <=? c) && (c <=? 122) then c - 32 else c) s.

Definition _prefixStyle (b : browser) (style : list Z) : option (list Z) :=
  match _vendor b with
  | None => None
  | Some [] => Some style
  | Some v => Some (v ++ upper (firstn 1 style) ++ skipn 1 style)
  end.

(** [name in _elementStyle], where [false] is the text 'false'. *)
Definition has_style (b : browser) (name : option (list Z)) : bool :=
  in_style b (match name with Some s => s | None => js "false" end).

Definition hasTransform (b : browser) : bool := match _prefixStyle b (js "transform") with Some _ => true | None => false end.
Definition hasPerspective (b : browser) : bool := has_style b (_prefixStyle b (js "perspective")).
Definition hasTouch (b : browser) : bool := b_ontouchstart b.
Definition hasPointer (b : browser) : bool := b_PointerEvent b || b_MSPointerEvent b.
Definition hasTransition (b : browser) : bool := has_style b (_prefixStyle b (js "transition")).

Definition style_transform (b : browser) : option (list Z) := _prefixStyle b (js "transform").
Definition style_transitionTimingFunction (b : browser) : option (list Z) := _prefixStyle b (js "transitionTimingFunction").
Definition style_transitionDuration (b : browser) : option (list Z) := _prefixStyle b (js "transitionDuration").

Definition prefixPointerEvent (b : browser) (pointerEvent : list Z) : list Z :=
  if b_MSPointerEvent b
  then js "MSPointer" ++ upper (firstn 1 (skipn 7 pointerEvent)) ++ skipn 8 pointerEvent
  else pointerEvent.

Definition digits10 : atom := OneOf [48; 49; 50; 51; 52; 53; 54; 55; 56; 57].

Definition isBadAndroid (b : browser) : bool :=
  let appVersion := b_appVersion b in
  if test (text (js "Android")) appVersion && negb (test (Seq (text (js "Chrome/")) (Atom digits10)) appVersion) then
    match search (Seq (text (js "Safari/")) (Group 1 (sequence [Atom digits10; Star digits10; Atom Dot; Atom digits10]))) appVersion with
    | Some c => match capture 1 c with Some v => ltb (parseFloat v) (dec 53519 2) | None => true end
    | None => true
    end
  else false.

(** ** Classes of elements *)

(** The pattern [(^|\s)c(\s|$)], for a name without special characters. *)
Definition class_pattern (c : list Z) : regex :=
  sequence [Group 1 (Alt Begin (Atom Space)); text c; Group 2 (Alt (Atom Space) End)].

(** On the [className] of an element. *)
Definition hasClass (className c : list Z) : bool := test (class_pattern c) className.

Definition addClass (className c : list Z) : list Z :=
  if hasClass className c then className else join [32] (split 32 className ++ [c]).

Definition removeClass (className c : list Z) : list Z :=
  if hasClass className c then replace_all false (class_pattern c) (fun _ _ => [32]) className else className.

(** ** Positions and events *)

(** [offset(el)]: the offsets of the element and of its chain of parents. *)
Definition offset (chain : list (A * A)) : A * A :=
  match chain with
  | [] => (NaN, NaN)
  | (l, t) :: parents => fold_left (fun o p => (sub (fst o) (fst p), sub (snd o) (snd p))) parents (neg l, neg t)
  end.

(** An element an event happened on: its properties as texts. *)
Definition properties : Type := list Z -> list Z.

Definition preventDefaultException (el : properties) (exceptions : list (list Z * (list Z -> bool))) : bool :=
  existsb (fun x => snd x (el (fst x))) exceptions.

(** The default: no fields and buttons. *)
Definition default_exceptions : list (list Z * (list Z -> bool)) :=
  [(js "tagName", test (sequence [Begin; Group 1 (alternatives (map js ["INPUT"; "TEXTAREA"; "BUTTON"; "SELECT"]%string)); End]))].

(** [eventType[type]]; [None] is undefined. *)
Definition eventType (type : list Z) : option Z :=
  if existsb (str_eqb type) (map js ["touchstart"; "touchmove"; "touchend"]%string) then Some 1
  else if existsb (str_eqb type) (map js ["mousedown"; "mousemove"; "mouseup"]%string) then Some 2
  else if existsb (str_eqb type) (map js ["pointerdown"; "pointermove"; "pointerup"]%string) then Some 3
  else if existsb (str_eqb type) (map js ["MSPointerDown"; "MSPointerMove"; "MSPointerUp"]%string) then Some 3
  else None.

(** The tags a click is not made on, whatever the case. *)
Definition click_exception (tagName : list Z) : bool :=
  test_ignoring_case (alternatives (map js ["SELECT"; "INPUT"; "TEXTAREA"]%string)) tagName.

(** ** Easing *)

Record easing : Type := mkEasing { ease_style : list Z; ease_fn : A -> A }.

Definition quadratic : easing :=
  mkEasing (js "cubic-bezier(0.25, 0.46, 0.45, 0.94)") (fun k => (k * (#2 - k))%num).

Definition circular : easing :=
  mkEasing (js "cubic-bezier(0.1, 0.57, 0.1, 1)") (fun k => let k := (k - #1)%num in Math_sqrt (#1 - k * k)%num).

Definition back : easing :=
  mkEasing (js "cubic-bezier(0.175, 0.885, 0.32, 1.275)")
    (fun k => let b := #4 in let k := (k - #1)%num in (k * k * ((b + #1) * k + b) + #1)%num).

Definition bounce : easing :=
  mkEasing []
    (fun k =>
       let k := (k / #1)%num in
       let d := dec 275 2 in
       let c := dec 75625 4 in
       if (k <? #1 / d)%num then (c * k * k)%num
       else if (k <? #2 / d)%num then let k := (k - dec 15 1 / d)%num in (c * k * k + dec 75 2)%num
       else if (k <? dec 25 1 / d)%num then let k := (k - dec 225 2 / d)%num in (c * k * k + dec 9375 4)%num
       else let k := (k - dec 2625 3 / d)%num in (c * k * k + dec 984375 6)%num).

Definition elastic : easing :=
  mkEasing []
    (fun k =>
       let f := dec 22 2 in
       let e := dec 4 1 in
       if eqb k #0 then #0
       else if eqb k #1 then #1
       else (e * Math_pow #2 (neg #10 * k) * Math_sin ((k - f / #4) * (#2 * Math_PI) / f) + #1)%num).

(** [ease[name]] *)
Definition ease (name : list Z) : option easing :=
  if str_eqb name (js "quadratic") then Some quadratic
  else if str_eqb name (js "circular") then Some circular
  else if str_eqb name (js "back") then Some back
  else if str_eqb name (js "bounce") then Some bounce
  else if str_eqb name (js "elastic") then Some elastic
  else None.

(** ** Momentum *)

(** Where a gesture from [start] to [current] in [time] ends, and how long that takes;
    [wrapperSize] is 0 where the scroller does not bounce. *)
Definition momentum (current start time lowerMargin wrapperSize : A) (deceleration : option A) : A * A :=
  let distance := (current - start)%num in
  let speed := (Math_abs distance / time)%num in
  let deceleration := match deceleration with Some d => d | None => dec 6 4 end in
  let destination := (current + (speed * speed) / (#2 * deceleration) * (if ltb distance #0 then #(-1) else #1))%num in
  let duration := (speed / deceleration)%num in
  let '(destination, duration) :=
    if ltb destination lowerMargin then
      let destination := if nonzero wrapperSize then (lowerMargin - (wrapperSize / dec 25 1 * (speed / #8)))%num else lowerMargin in
      let distance := Math_abs (destination - current)%num in
      (destination, (distance / speed)%num)
    else if gtb destination #0 then
      let destination := if nonzero wrapperSize then (wrapperSize / dec 25 1 * (speed / #8))%num else #0 in
      let distance := (Math_abs current + destination)%num in
      (destination, (distance / speed)%num)
    else (destination, duration) in
  (Math_round destination, duration).

End Utils.

Arguments easing : clear implicits.

End Utils.
