(* ===== verification/ScrollState.v ===== *)
(** * The scroller: its state (iScroll)

    src/src/qt/res/assets/plugins/iscroll/iscroll.js: the options, the fields of IScroll and of
    Indicator, and what the page keeps for them: the layout, the listeners, the timeouts and
    the frames.  A field that is read as a number before it is set holds NaN, which is what
    undefined is in arithmetic and comparisons.  The setters of a record are the assignments
    to its fields.  The operations are in IScroll.v. *)

From Stdlib Require Import String ZArith Lia List Bool.
From S2P Require Import Prelude Js Num Value ScrollUtils.
Import ListNotations.
#[local] Open Scope Z_scope.

Module ScrollState.

Import Utils.

Section State.

Context {A : Type} {N : Num A} {M : Maths A}.

(** ** Options *)

Inductive passthrough : Type := PassNone | PassTrue | PassVertical | PassHorizontal.
Inductive tap_option : Type := TapNone | TapTrue | TapName (s : list Z).
Inductive ease_option : Type := EaseName (s : list Z) | EaseObject (e : easing A).
Inductive shrink_option : Type := ShrinkNone | ShrinkClip | ShrinkScale.
Inductive bars_option : Type := BarsNone | BarsTrue | BarsNamed (s : list Z).

(** The pages: of the size of the wrapper, or elements, given by themselves or by a selector. *)
Inductive snap_option : Type := SnapNone | SnapTrue | SnapElements (l : list Z) | SnapSelector (s : list Z).

(** The key of a binding: its code, or its character. *)
Inductive key : Type := Code (c : Z) | Character (s : list Z).
Inductive keys_option : Type := KeysNone | KeysTrue | KeysGiven (l : list (list Z * key)).

(** Options of an indicator. *)
Record ind_options : Type := mkIndOptions {
  i_element : Z;   (* options.el, or the number of the scrollbar that is made *)
  listenX : bool;
  listenY : bool;
  interactive : bool;
  resize : bool;
  defaultScrollbars : bool;
  shrink : shrink_option;
  fade_option : bool;   (* fade *)
  fadeScrollbars : bool;   (* read by destroy, set by nothing *)
  customStyle : bool;
  ignoreBoundaries : bool;
  speedRatioX : A;
  speedRatioY : A;
  i_disableTouch : bool;
  i_disablePointer : bool;
  i_disableMouse : bool;
  i_snapSpeed : A   (* 0: not set *)
}.

(** The options of a scroller, as the page gives them and as the constructor leaves them. *)
Record options : Type := mkOptions {
  resizeScrollbars : bool;
  mouseWheelSpeed : A;
  snapThreshold : A;
  disablePointer : bool;
  disableTouch : bool;
  disableMouse : bool;
  o_startX : A;
  o_startY : A;
  scrollX : bool;
  scrollY : bool;
  directionLockThreshold : A;
  o_momentum : bool;
  o_bounce : bool;
  bounceTime : A;
  bounceEasing : ease_option;
  preventDefault : bool;
  o_preventDefaultException : list (list Z * (list Z -> bool));
  HWCompositing : bool;
  useTransition : bool;
  useTransform : bool;
  bindToWrapper : bool;
  eventPassthrough : passthrough;
  freeScroll : bool;
  resizePolling : option A;   (* None: undefined *)
  o_tap : tap_option;
  o_click : bool;
  shrinkScrollbars : shrink_option;
  fadeBars : bool;   (* fadeScrollbars *)
  interactiveScrollbars : bool;
  scrollbars : bars_option;
  o_indicators : list ind_options;
  mouseWheel : bool;
  invertWheelDirection : A;   (* 0: not set; then 1 or -1 *)
  snap : snap_option;
  snapStepX : A;   (* 0: not set *)
  snapStepY : A;   (* 0: not set *)
  snapSpeed : A;   (* 0: not set *)
  deceleration : option A;
  keyBindings : keys_option
}.

(** ** The page *)

(** An element: its offset and those of its chain of parents, and its size. *)
Record element : Type := mkElement {
  el_chain : list (A * A);
  offsetWidth : A;
  offsetHeight : A
}.

(** The sizes an indicator reads: of its wrapper and of itself. *)
Record bar : Type := mkBar {
  bar_clientWidth : A;
  bar_clientHeight : A;
  ind_clientWidth : A;
  ind_clientHeight : A
}.

(** The layout: the wrapper, the scroller inside it, and the other elements by their numbers. *)
Record layout : Type := mkLayout {
  clientWidth : A;   (* of the wrapper *)
  clientHeight : A;
  wrapper_element : element;   (* its offsets and outer size *)
  scroller_width : A;   (* scroller.offsetWidth *)
  scroller_height : A;
  element_at : Z -> element;
  query_all : list Z -> list Z;   (* querySelectorAll *)
  bar_at : Z -> bar
}.

(** How far a wheel turned, in the field of the browser. *)
Inductive wheel : Type :=
| DeltaXY (lines : bool) (x y : A)
| WheelDeltaXY (x y : A)
| WheelDelta (d : A)
| WheelDetail (d : A)
| NoWheel.

(** What the handlers read of an event. *)
Record event : Type := mkEvent {
  e_type : list Z;
  e_button : Z;
  e_which : Z;   (* 0: not set *)
  e_point : A * A;   (* pageX and pageY of the first touch, or of the event *)
  e_page : A * A;   (* pageX and pageY of the event *)
  e_target : properties;
  e_on_scroller : bool;   (* the target is the scroller *)
  e_wheel : wheel;
  e_keyCode : Z;
  e_constructed : bool
}.

(** The style of the scroller as the browser computes it. *)
Record computed : Type := mkComputed {
  c_transform : list Z;
  c_left : list Z;
  c_top : list Z
}.

Inductive target : Type := OnWrapper | OnScroller | OnWindow | OnIndicator (i : Z).

(** An entry of addEventListener; [None] is the scroller, [Some i] the i-th indicator. *)
Record listener : Type := mkListener { l_target : target; l_type : list Z; l_object : option Z; l_capture : bool }.

(** An animation: what the closure [step] of [_animate] holds. *)
Record animation : Type := mkAnimation {
  destX : A;
  destY : A;
  a_startX : A;
  a_startY : A;
  a_startTime : A;
  duration : A;
  destTime : A;
  easingFn : A -> A
}.

(** The code a frame runs, and the code a timeout runs. *)
Inductive frame : Type := Step (a : animation) | FixScroller | FixIndicator (i : Z) | FixWrapper (i : Z).
Inductive job : Type := RefreshLater | WheelEnd | FadeTo (i : Z) (visible : bool).

Inductive timer : Type := TimerUndefined | TimerNull | TimerId (i : Z).

(** What an event does to the outside. *)
Inductive effect : Type := PreventDefault | StopPropagation | DispatchTap (name : list Z) (x y : A) | DispatchClick | Attach (i : Z) | Detach (i : Z).

Definition styles : Type := list (list Z * list Z).

Fixpoint set_style (p v : list Z) (l : styles) : styles :=
  match l with
  | [] => [(p, v)]
  | (q, w) :: l => if str_eqb p q then (p, v) :: l else (q, w) :: set_style p v l
  end.

Fixpoint get_style (p : list Z) (l : styles) : list Z :=
  match l with
  | [] => []
  | (q, w) :: l => if str_eqb p q then w else get_style p l
  end.

Record world : Type := mkWorld {
  now : A;   (* Date.now *)
  the_layout : layout;
  the_computed : computed;
  listeners : list listener;
  timeouts : list (Z * A * job);   (* the number, the time it is due, the code *)
  fresh : Z;
  frames : list frame;   (* requested *)
  effects : list effect
}.

Definition set_now (v : A) (r : world) : world :=
  mkWorld v (the_layout r) (the_computed r) (listeners r) (timeouts r) (fresh r) (frames r) (effects r).
Definition set_the_layout (v : layout) (r : world) : world :=
  mkWorld (now r) v (the_computed r) (listeners r) (timeouts r) (fresh r) (frames r) (effects r).
Definition set_the_computed (v : computed) (r : world) : world :=
  mkWorld (now r) (the_layout r) v (listeners r) (timeouts r) (fresh r) (frames r) (effects r).
Definition set_listeners (v : list listener) (r : world) : world :=
  mkWorld (now r) (the_layout r) (the_computed r) v (timeouts r) (fresh r) (frames r) (effects r).
Definition set_timeouts (v : list (Z * A * job)) (r : world) : world :=
  mkWorld (now r) (the_layout r) (the_computed r) (listeners r) v (fresh r) (frames r) (effects r).
Definition set_fresh (v : Z) (r : world) : world :=
  mkWorld (now r) (the_layout r) (the_computed r) (listeners r) (timeouts r) v (frames r) (effects r).
Definition set_frames (v : list frame) (r : world) : world :=
  mkWorld (now r) (the_layout r) (the_computed r) (listeners r) (timeouts r) (fresh r) v (effects r).
Definition set_effects (v : list effect) (r : world) : world :=
  mkWorld (now r) (the_layout r) (the_computed r) (listeners r) (timeouts r) (fresh r) (frames r) v.

(** ** Indicators *)

Record indicator : Type := mkIndicator {
  i_opt : ind_options;
  i_class : list Z;   (* className of its wrapper *)
  sizeRatioX : A;
  sizeRatioY : A;
  maxPosX : A;
  maxPosY : A;
  minBoundaryX : A;
  minBoundaryY : A;
  maxBoundaryX : A;
  maxBoundaryY : A;
  indicatorWidth : option A;   (* None: undefined *)
  indicatorHeight : option A;
  i_width : option A;
  i_height : option A;
  i_wrapperWidth : A;
  i_wrapperHeight : A;
  ix : A;
  iy : A;
  i_initiated : bool;
  i_moved : bool;
  lastPointX : A;
  lastPointY : A;
  visible : bool;
  fadeTimeout : timer;
  indicatorStyle : styles;
  wrapperStyle : styles
}.

Definition set_i_class (v : list Z) (r : indicator) : indicator :=
  mkIndicator (i_opt r) v (sizeRatioX r) (sizeRatioY r) (maxPosX r) (maxPosY r) (minBoundaryX r) (minBoundaryY r) (maxBoundaryX r) (maxBoundaryY r) (indicatorWidth r) (indicatorHeight r) (i_width r) (i_height r) (i_wrapperWidth r) (i_wrapperHeight r) (ix r) (iy r) (i_initiated r) (i_moved r) (lastPointX r) (lastPointY r) (visible r) (fadeTimeout r) (indicatorStyle r) (wrapperStyle r).
Definition set_sizeRatioX (v : A) (r : indicator) : indicator :=
  mkIndicator (i_opt r) (i_class r) v (sizeRatioY r) (maxPosX r) (maxPosY r) (minBoundaryX r) (minBoundaryY r) (maxBoundaryX r) (maxBoundaryY r) (indicatorWidth r) (indicatorHeight r) (i_width r) (i_height r) (i_wrapperWidth r) (i_wrapperHeight r) (ix r) (iy r) (i_initiated r) (i_moved r) (lastPointX r) (lastPointY r) (visible r) (fadeTimeout r) (indicatorStyle r) (wrapperStyle r).
Definition set_sizeRatioY (v : A) (r : indicator) : indicator :=
  mkIndicator (i_opt r) (i_class r) (sizeRatioX r) v (maxPosX r) (maxPosY r) (minBoundaryX r) (minBoundaryY r) (maxBoundaryX r) (maxBoundaryY r) (indicatorWidth r) (indicatorHeight r) (i_width r) (i_height r) (i_wrapperWidth r) (i_wrapperHeight r) (ix r) (iy r) (i_initiated r) (i_moved r) (lastPointX r) (lastPointY r) (visible r) (fadeTimeout r) (indicatorStyle r) (wrapperStyle r).
Definition set_maxPosX (v : A) (r : indicator) : indicator :=
  mkIndicator (i_opt r) (i_class r) (sizeRatioX r) (sizeRatioY r) v (maxPosY r) (minBoundaryX r) (minBoundaryY r) (maxBoundaryX r) (maxBoundaryY r) (indicatorWidth r) (indicatorHeight r) (i_width r) (i_height r) (i_wrapperWidth r) (i_wrapperHeight r) (ix r) (iy r) (i_initiated r) (i_moved r) (lastPointX r) (lastPointY r) (visible r) (fadeTimeout r) (indicatorStyle r) (wrapperStyle r).
Definition set_maxPosY (v : A) (r : indicator) : indicator :=
  mkIndicator (i_opt r) (i_class r) (sizeRatioX r) (sizeRatioY r) (maxPosX r) v (minBoundaryX r) (minBoundaryY r) (maxBoundaryX r) (maxBoundaryY r) (indicatorWidth r) (indicatorHeight r) (i_width r) (i_height r) (i_wrapperWidth r) (i_wrapperHeight r) (ix r) (iy r) (i_initiated r) (i_moved r) (lastPointX r) (lastPointY r) (visible r) (fadeTimeout r) (indicatorStyle r) (wrapperStyle r).
Definition set_minBoundaryX (v : A) (r : indicator) : indicator :=
  mkIndicator (i_opt r) (i_class r) (sizeRatioX r) (sizeRatioY r) (maxPosX r) (maxPosY r) v (minBoundaryY r) (maxBoundaryX r) (maxBoundaryY r) (indicatorWidth r) (indicatorHeight r) (i_width r) (i_height r) (i_wrapperWidth r) (i_wrapperHeight r) (ix r) (iy r) (i_initiated r) (i_moved r) (lastPointX r) (lastPointY r) (visible r) (fadeTimeout r) (indicatorStyle r) (wrapperStyle r).
Definition set_minBoundaryY (v : A) (r : indicator) : indicator :=
  mkIndicator (i_opt r) (i_class r) (sizeRatioX r) (sizeRatioY r) (maxPosX r) (maxPosY r) (minBoundaryX r) v (maxBoundaryX r) (maxBoundaryY r) (indicatorWidth r) (indicatorHeight r) (i_width r) (i_height r) (i_wrapperWidth r) (i_wrapperHeight r) (ix r) (iy r) (i_initiated r) (i_moved r) (lastPointX r) (lastPointY r) (visible r) (fadeTimeout r) (indicatorStyle r) (wrapperStyle r).
Definition set_maxBoundaryX (v : A) (r : indicator) : indicator :=
  mkIndicator (i_opt r) (i_class r) (sizeRatioX r) (sizeRatioY r) (maxPosX r) (maxPosY r) (minBoundaryX r) (minBoundaryY r) v (maxBoundaryY r) (indicatorWidth r) (indicatorHeight r) (i_width r) (i_height r) (i_wrapperWidth r) (i_wrapperHeight r) (ix r) (iy r) (i_initiated r) (i_moved r) (lastPointX r) (lastPointY r) (visible r) (fadeTimeout r) (indicatorStyle r) (wrapperStyle r).
Definition set_maxBoundaryY (v : A) (r : indicator) : indicator :=
  mkIndicator (i_opt r) (i_class r) (sizeRatioX r) (sizeRatioY r) (maxPosX r) (maxPosY r) (minBoundaryX r) (minBoundaryY r) (maxBoundaryX r) v (indicatorWidth r) (indicatorHeight r) (i_width r) (i_height r) (i_wrapperWidth r) (i_wrapperHeight r) (ix r) (iy r) (i_initiated r) (i_moved r) (lastPointX r) (lastPointY r) (visible r) (fadeTimeout r) (indicatorStyle r) (wrapperStyle r).
Definition set_indicatorWidth (v : option A) (r : indicator) : indicator :=
  mkIndicator (i_opt r) (i_class r) (sizeRatioX r) (sizeRatioY r) (maxPosX r) (maxPosY r) (minBoundaryX r) (minBoundaryY r) (maxBoundaryX r) (maxBoundaryY r) v (indicatorHeight r) (i_width r) (i_height r) (i_wrapperWidth r) (i_wrapperHeight r) (ix r) (iy r) (i_initiated r) (i_moved r) (lastPointX r) (lastPointY r) (visible r) (fadeTimeout r) (indicatorStyle r) (wrapperStyle r).
Definition set_indicatorHeight (v : option A) (r : indicator) : indicator :=
  mkIndicator (i_opt r) (i_class r) (sizeRatioX r) (sizeRatioY r) (maxPosX r) (maxPosY r) (minBoundaryX r) (minBoundaryY r) (maxBoundaryX r) (maxBoundaryY r) (indicatorWidth r) v (i_width r) (i_height r) (i_wrapperWidth r) (i_wrapperHeight r) (ix r) (iy r) (i_initiated r) (i_moved r) (lastPointX r) (lastPointY r) (visible r) (fadeTimeout r) (indicatorStyle r) (wrapperStyle r).
Definition set_i_width (v : option A) (r : indicator) : indicator :=
  mkIndicator (i_opt r) (i_class r) (sizeRatioX r) (sizeRatioY r) (maxPosX r) (maxPosY r) (minBoundaryX r) (minBoundaryY r) (maxBoundaryX r) (maxBoundaryY r) (indicatorWidth r) (indicatorHeight r) v (i_height r) (i_wrapperWidth r) (i_wrapperHeight r) (ix r) (iy r) (i_initiated r) (i_moved r) (lastPointX r) (lastPointY r) (visible r) (fadeTimeout r) (indicatorStyle r) (wrapperStyle r).
Definition set_i_height (v : option A) (r : indicator) : indicator :=
  mkIndicator (i_opt r) (i_class r) (sizeRatioX r) (sizeRatioY r) (maxPosX r) (maxPosY r) (minBoundaryX r) (minBoundaryY r) (maxBoundaryX r) (maxBoundaryY r) (indicatorWidth r) (indicatorHeight r) (i_width r) v (i_wrapperWidth r) (i_wrapperHeight r) (ix r) (iy r) (i_initiated r) (i_moved r) (lastPointX r) (lastPointY r) (visible r) (fadeTimeout r) (indicatorStyle r) (wrapperStyle r).
Definition set_i_wrapperWidth (v : A) (r : indicator) : indicator :=
  mkIndicator (i_opt r) (i_class r) (sizeRatioX r) (sizeRatioY r) (maxPosX r) (maxPosY r) (minBoundaryX r) (minBoundaryY r) (maxBoundaryX r) (maxBoundaryY r) (indicatorWidth r) (indicatorHeight r) (i_width r) (i_height r) v (i_wrapperHeight r) (ix r) (iy r) (i_initiated r) (i_moved r) (lastPointX r) (lastPointY r) (visible r) (fadeTimeout r) (indicatorStyle r) (wrapperStyle r).
Definition set_i_wrapperHeight (v : A) (r : indicator) : indicator :=
  mkIndicator (i_opt r) (i_class r) (sizeRatioX r) (sizeRatioY r) (maxPosX r) (maxPosY r) (minBoundaryX r) (minBoundaryY r) (maxBoundaryX r) (maxBoundaryY r) (indicatorWidth r) (indicatorHeight r) (i_width r) (i_height r) (i_wrapperWidth r) v (ix r) (iy r) (i_initiated r) (i_moved r) (lastPointX r) (lastPointY r) (visible r) (fadeTimeout r) (indicatorStyle r) (wrapperStyle r).
Definition set_ix (v : A) (r : indicator) : indicator :=
  mkIndicator (i_opt r) (i_class r) (sizeRatioX r) (sizeRatioY r) (maxPosX r) (maxPosY r) (minBoundaryX r) (minBoundaryY r) (maxBoundaryX r) (maxBoundaryY r) (indicatorWidth r) (indicatorHeight r) (i_width r) (i_height r) (i_wrapperWidth r) (i_wrapperHeight r) v (iy r) (i_initiated r) (i_moved r) (lastPointX r) (lastPointY r) (visible r) (fadeTimeout r) (indicatorStyle r) (wrapperStyle r).
Definition set_iy (v : A) (r : indicator) : indicator :=
  mkIndicator (i_opt r) (i_class r) (sizeRatioX r) (sizeRatioY r) (maxPosX r) (maxPosY r) (minBoundaryX r) (minBoundaryY r) (maxBoundaryX r) (maxBoundaryY r) (indicatorWidth r) (indicatorHeight r) (i_width r) (i_height r) (i_wrapperWidth r) (i_wrapperHeight r) (ix r) v (i_initiated r) (i_moved r) (lastPointX r) (lastPointY r) (visible r) (fadeTimeout r) (indicatorStyle r) (wrapperStyle r).
Definition set_i_initiated (v : bool) (r : indicator) : indicator :=
  mkIndicator (i_opt r) (i_class r) (sizeRatioX r) (sizeRatioY r) (maxPosX r) (maxPosY r) (minBoundaryX r) (minBoundaryY r) (maxBoundaryX r) (maxBoundaryY r) (indicatorWidth r) (indicatorHeight r) (i_width r) (i_height r) (i_wrapperWidth r) (i_wrapperHeight r) (ix r) (iy r) v (i_moved r) (lastPointX r) (lastPointY r) (visible r) (fadeTimeout r) (indicatorStyle r) (wrapperStyle r).
Definition set_i_moved (v : bool) (r : indicator) : indicator :=
  mkIndicator (i_opt r) (i_class r) (sizeRatioX r) (sizeRatioY r) (maxPosX r) (maxPosY r) (minBoundaryX r) (minBoundaryY r) (maxBoundaryX r) (maxBoundaryY r) (indicatorWidth r) (indicatorHeight r) (i_width r) (i_height r) (i_wrapperWidth r) (i_wrapperHeight r) (ix r) (iy r) (i_initiated r) v (lastPointX r) (lastPointY r) (visible r) (fadeTimeout r) (indicatorStyle r) (wrapperStyle r).
Definition set_lastPointX (v : A) (r : indicator) : indicator :=
  mkIndicator (i_opt r) (i_class r) (sizeRatioX r) (sizeRatioY r) (maxPosX r) (maxPosY r) (minBoundaryX r) (minBoundaryY r) (maxBoundaryX r) (maxBoundaryY r) (indicatorWidth r) (indicatorHeight r) (i_width r) (i_height r) (i_wrapperWidth r) (i_wrapperHeight r) (ix r) (iy r) (i_initiated r) (i_moved r) v (lastPointY r) (visible r) (fadeTimeout r) (indicatorStyle r) (wrapperStyle r).
Definition set_lastPointY (v : A) (r : indicator) : indicator :=
  mkIndicator (i_opt r) (i_class r) (sizeRatioX r) (sizeRatioY r) (maxPosX r) (maxPosY r) (minBoundaryX r) (minBoundaryY r) (maxBoundaryX r) (maxBoundaryY r) (indicatorWidth r) (indicatorHeight r) (i_width r) (i_height r) (i_wrapperWidth r) (i_wrapperHeight r) (ix r) (iy r) (i_initiated r) (i_moved r) (lastPointX r) v (visible r) (fadeTimeout r) (indicatorStyle r) (wrapperStyle r).
Definition set_visible (v : bool) (r : indicator) : indicator :=
  mkIndicator (i_opt r) (i_class r) (sizeRatioX r) (sizeRatioY r) (maxPosX r) (maxPosY r) (minBoundaryX r) (minBoundaryY r) (maxBoundaryX r) (maxBoundaryY r) (indicatorWidth r) (indicatorHeight r) (i_width r) (i_height r) (i_wrapperWidth r) (i_wrapperHeight r) (ix r) (iy r) (i_initiated r) (i_moved r) (lastPointX r) (lastPointY r) v (fadeTimeout r) (indicatorStyle r) (wrapperStyle r).
Definition set_fadeTimeout (v : timer) (r : indicator) : indicator :=
  mkIndicator (i_opt r) (i_class r) (sizeRatioX r) (sizeRatioY r) (maxPosX r) (maxPosY r) (minBoundaryX r) (minBoundaryY r) (maxBoundaryX r) (maxBoundaryY r) (indicatorWidth r) (indicatorHeight r) (i_width r) (i_height r) (i_wrapperWidth r) (i_wrapperHeight r) (ix r) (iy r) (i_initiated r) (i_moved r) (lastPointX r) (lastPointY r) (visible r) v (indicatorStyle r) (wrapperStyle r).
Definition set_indicatorStyle (v : styles) (r : indicator) : indicator :=
  mkIndicator (i_opt r) (i_class r) (sizeRatioX r) (sizeRatioY r) (maxPosX r) (maxPosY r) (minBoundaryX r) (minBoundaryY r) (maxBoundaryX r) (maxBoundaryY r) (indicatorWidth r) (indicatorHeight r) (i_width r) (i_height r) (i_wrapperWidth r) (i_wrapperHeight r) (ix r) (iy r) (i_initiated r) (i_moved r) (lastPointX r) (lastPointY r) (visible r) (fadeTimeout r) v (wrapperStyle r).
Definition set_wrapperStyle (v : styles) (r : indicator) : indicator :=
  mkIndicator (i_opt r) (i_class r) (sizeRatioX r) (sizeRatioY r) (maxPosX r) (maxPosY r) (minBoundaryX r) (minBoundaryY r) (maxBoundaryX r) (maxBoundaryY r) (indicatorWidth r) (indicatorHeight r) (i_width r) (i_height r) (i_wrapperWidth r) (i_wrapperHeight r) (ix r) (iy r) (i_initiated r) (i_moved r) (lastPointX r) (lastPointY r) (visible r) (fadeTimeout r) (indicatorStyle r) v.

(** ** The scroller *)

Inductive lock : Type := Unlocked | LockH | LockV | LockN.

Record geometry : Type := mkGeometry {
  wrapperWidth : A;
  wrapperHeight : A;
  scrollerWidth : A;
  scrollerHeight : A;
  maxScrollX : A;
  maxScrollY : A;
  hasHorizontalScroll : bool;
  hasVerticalScroll : bool;
  wrapperOffset : A * A
}.

(** The gesture; [initiated] is the kind of its events, 0 for none, [None] for undefined. *)
Record gesture : Type := mkGesture {
  initiated : option Z;
  moved : bool;
  distX : A;
  distY : A;
  directionX : Z;
  directionY : Z;
  directionLocked : lock;
  startTime : A;
  startX : A;
  startY : A;
  absStartX : A;
  absStartY : A;
  pointX : A;
  pointY : A;
  endTime : A
}.

Definition set_initiated (v : option Z) (r : gesture) : gesture :=
  mkGesture v (moved r) (distX r) (distY r) (directionX r) (directionY r) (directionLocked r) (startTime r) (startX r) (startY r) (absStartX r) (absStartY r) (pointX r) (pointY r) (endTime r).
Definition set_moved (v : bool) (r : gesture) : gesture :=
  mkGesture (initiated r) v (distX r) (distY r) (directionX r) (directionY r) (directionLocked r) (startTime r) (startX r) (startY r) (absStartX r) (absStartY r) (pointX r) (pointY r) (endTime r).
Definition set_distX (v : A) (r : gesture) : gesture :=
  mkGesture (initiated r) (moved r) v (distY r) (directionX r) (directionY r) (directionLocked r) (startTime r) (startX r) (startY r) (absStartX r) (absStartY r) (pointX r) (pointY r) (endTime r).
Definition set_distY (v : A) (r : gesture) : gesture :=
  mkGesture (initiated r) (moved r) (distX r) v (directionX r) (directionY r) (directionLocked r) (startTime r) (startX r) (startY r) (absStartX r) (absStartY r) (pointX r) (pointY r) (endTime r).
Definition set_directionX (v : Z) (r : gesture) : gesture :=
  mkGesture (initiated r) (moved r) (distX r) (distY r) v (directionY r) (directionLocked r) (startTime r) (startX r) (startY r) (absStartX r) (absStartY r) (pointX r) (pointY r) (endTime r).
Definition set_directionY (v : Z) (r : gesture) : gesture :=
  mkGesture (initiated r) (moved r) (distX r) (distY r) (directionX r) v (directionLocked r) (startTime r) (startX r) (startY r) (absStartX r) (absStartY r) (pointX r) (pointY r) (endTime r).
Definition set_directionLocked (v : lock) (r : gesture) : gesture :=
  mkGesture (initiated r) (moved r) (distX r) (distY r) (directionX r) (directionY r) v (startTime r) (startX r) (startY r) (absStartX r) (absStartY r) (pointX r) (pointY r) (endTime r).
Definition set_startTime (v : A) (r : gesture) : gesture :=
  mkGesture (initiated r) (moved r) (distX r) (distY r) (directionX r) (directionY r) (directionLocked r) v (startX r) (startY r) (absStartX r) (absStartY r) (pointX r) (pointY r) (endTime r).
Definition set_startX (v : A) (r : gesture) : gesture :=
  mkGesture (initiated r) (moved r) (distX r) (distY r) (directionX r) (directionY r) (directionLocked r) (startTime r) v (startY r) (absStartX r) (absStartY r) (pointX r) (pointY r) (endTime r).
Definition set_startY (v : A) (r : gesture) : gesture :=
  mkGesture (initiated r) (moved r) (distX r) (distY r) (directionX r) (directionY r) (directionLocked r) (startTime r) (startX r) v (absStartX r) (absStartY r) (pointX r) (pointY r) (endTime r).
Definition set_absStartX (v : A) (r : gesture) : gesture :=
  mkGesture (initiated r) (moved r) (distX r) (distY r) (directionX r) (directionY r) (directionLocked r) (startTime r) (startX r) (startY r) v (absStartY r) (pointX r) (pointY r) (endTime r).
Definition set_absStartY (v : A) (r : gesture) : gesture :=
  mkGesture (initiated r) (moved r) (distX r) (distY r) (directionX r) (directionY r) (directionLocked r) (startTime r) (startX r) (startY r) (absStartX r) v (pointX r) (pointY r) (endTime r).
Definition set_pointX (v : A) (r : gesture) : gesture :=
  mkGesture (initiated r) (moved r) (distX r) (distY r) (directionX r) (directionY r) (directionLocked r) (startTime r) (startX r) (startY r) (absStartX r) (absStartY r) v (pointY r) (endTime r).
Definition set_pointY (v : A) (r : gesture) : gesture :=
  mkGesture (initiated r) (moved r) (distX r) (distY r) (directionX r) (directionY r) (directionLocked r) (startTime r) (startX r) (startY r) (absStartX r) (absStartY r) (pointX r) v (endTime r).
Definition set_endTime (v : A) (r : gesture) : gesture :=
  mkGesture (initiated r) (moved r) (distX r) (distY r) (directionX r) (directionY r) (directionLocked r) (startTime r) (startX r) (startY r) (absStartX r) (absStartY r) (pointX r) (pointY r) v.

(** A page: its position and its place; and a cell of the table of pages. *)
Record page : Type := mkPage { pg_x : A; pg_y : A; pageX : Z; pageY : Z }.
Record cell : Type := mkCell { cell_x : A; cell_y : A; cell_width : A; cell_height : A; cell_cx : A; cell_cy : A }.

(** The listeners of the scroller's own events: those of its parts, and those of the page. *)
Inductive handler : Type :=
| FadeOut | FadeIn | FadeHold | IndicatorsRefresh | IndicatorsDestroy
| WheelDestroy | SnapRefresh | SnapFlick | KeysDestroy | User (k : Z).

Record scroller : Type := mkScroller {
  geo : geometry;
  gest : gesture;
  px : A;   (* x *)
  py : A;   (* y *)
  isInTransition : bool;
  isAnimating : bool;
  scrollerStyle : styles;
  currentPage : option page;   (* None: {} *)
  pages : list (list (option cell));
  snapThresholdX : A;
  snapThresholdY : A;
  resizeTimeout : timer;
  wheelTimeout : timer;
  keyTime : A;   (* 0: not set *)
  keyAcceleration : A;
  enabled : bool;
  _events : list (list Z * list handler);
  indicators : option (list indicator);
  the_page : world
}.

Definition set_geo (v : geometry) (r : scroller) : scroller :=
  mkScroller v (gest r) (px r) (py r) (isInTransition r) (isAnimating r) (scrollerStyle r) (currentPage r) (pages r) (snapThresholdX r) (snapThresholdY r) (resizeTimeout r) (wheelTimeout r) (keyTime r) (keyAcceleration r) (enabled r) (_events r) (indicators r) (the_page r).
Definition set_gest (v : gesture) (r : scroller) : scroller :=
  mkScroller (geo r) v (px r) (py r) (isInTransition r) (isAnimating r) (scrollerStyle r) (currentPage r) (pages r) (snapThresholdX r) (snapThresholdY r) (resizeTimeout r) (wheelTimeout r) (keyTime r) (keyAcceleration r) (enabled r) (_events r) (indicators r) (the_page r).
Definition set_px (v : A) (r : scroller) : scroller :=
  mkScroller (geo r) (gest r) v (py r) (isInTransition r) (isAnimating r) (scrollerStyle r) (currentPage r) (pages r) (snapThresholdX r) (snapThresholdY r) (resizeTimeout r) (wheelTimeout r) (keyTime r) (keyAcceleration r) (enabled r) (_events r) (indicators r) (the_page r).
Definition set_py (v : A) (r : scroller) : scroller :=
  mkScroller (geo r) (gest r) (px r) v (isInTransition r) (isAnimating r) (scrollerStyle r) (currentPage r) (pages r) (snapThresholdX r) (snapThresholdY r) (resizeTimeout r) (wheelTimeout r) (keyTime r) (keyAcceleration r) (enabled r) (_events r) (indicators r) (the_page r).
Definition set_isInTransition (v : bool) (r : scroller) : scroller :=
  mkScroller (geo r) (gest r) (px r) (py r) v (isAnimating r) (scrollerStyle r) (currentPage r) (pages r) (snapThresholdX r) (snapThresholdY r) (resizeTimeout r) (wheelTimeout r) (keyTime r) (keyAcceleration r) (enabled r) (_events r) (indicators r) (the_page r).
Definition set_isAnimating (v : bool) (r : scroller) : scroller :=
  mkScroller (geo r) (gest r) (px r) (py r) (isInTransition r) v (scrollerStyle r) (currentPage r) (pages r) (snapThresholdX r) (snapThresholdY r) (resizeTimeout r) (wheelTimeout r) (keyTime r) (keyAcceleration r) (enabled r) (_events r) (indicators r) (the_page r).
Definition set_scrollerStyle (v : styles) (r : scroller) : scroller :=
  mkScroller (geo r) (gest r) (px r) (py r) (isInTransition r) (isAnimating r) v (currentPage r) (pages r) (snapThresholdX r) (snapThresholdY r) (resizeTimeout r) (wheelTimeout r) (keyTime r) (keyAcceleration r) (enabled r) (_events r) (indicators r) (the_page r).
Definition set_currentPage (v : option page) (r : scroller) : scroller :=
  mkScroller (geo r) (gest r) (px r) (py r) (isInTransition r) (isAnimating r) (scrollerStyle r) v (pages r) (snapThresholdX r) (snapThresholdY r) (resizeTimeout r) (wheelTimeout r) (keyTime r) (keyAcceleration r) (enabled r) (_events r) (indicators r) (the_page r).
Definition set_pages (v : list (list (option cell))) (r : scroller) : scroller :=
  mkScroller (geo r) (gest r) (px r) (py r) (isInTransition r) (isAnimating r) (scrollerStyle r) (currentPage r) v (snapThresholdX r) (snapThresholdY r) (resizeTimeout r) (wheelTimeout r) (keyTime r) (keyAcceleration r) (enabled r) (_events r) (indicators r) (the_page r).
Definition set_snapThresholdX (v : A) (r : scroller) : scroller :=
  mkScroller (geo r) (gest r) (px r) (py r) (isInTransition r) (isAnimating r) (scrollerStyle r) (currentPage r) (pages r) v (snapThresholdY r) (resizeTimeout r) (wheelTimeout r) (keyTime r) (keyAcceleration r) (enabled r) (_events r) (indicators r) (the_page r).
Definition set_snapThresholdY (v : A) (r : scroller) : scroller :=
  mkScroller (geo r) (gest r) (px r) (py r) (isInTransition r) (isAnimating r) (scrollerStyle r) (currentPage r) (pages r) (snapThresholdX r) v (resizeTimeout r) (wheelTimeout r) (keyTime r) (keyAcceleration r) (enabled r) (_events r) (indicators r) (the_page r).
Definition set_resizeTimeout (v : timer) (r : scroller) : scroller :=
  mkScroller (geo r) (gest r) (px r) (py r) (isInTransition r) (isAnimating r) (scrollerStyle r) (currentPage r) (pages r) (snapThresholdX r) (snapThresholdY r) v (wheelTimeout r) (keyTime r) (keyAcceleration r) (enabled r) (_events r) (indicators r) (the_page r).
Definition set_wheelTimeout (v : timer) (r : scroller) : scroller :=
  mkScroller (geo r) (gest r) (px r) (py r) (isInTransition r) (isAnimating r) (scrollerStyle r) (currentPage r) (pages r) (snapThresholdX r) (snapThresholdY r) (resizeTimeout r) v (keyTime r) (keyAcceleration r) (enabled r) (_events r) (indicators r) (the_page r).
Definition set_keyTime (v : A) (r : scroller) : scroller :=
  mkScroller (geo r) (gest r) (px r) (py r) (isInTransition r) (isAnimating r) (scrollerStyle r) (currentPage r) (pages r) (snapThresholdX r) (snapThresholdY r) (resizeTimeout r) (wheelTimeout r) v (keyAcceleration r) (enabled r) (_events r) (indicators r) (the_page r).
Definition set_keyAcceleration (v : A) (r : scroller) : scroller :=
  mkScroller (geo r) (gest r) (px r) (py r) (isInTransition r) (isAnimating r) (scrollerStyle r) (currentPage r) (pages r) (snapThresholdX r) (snapThresholdY r) (resizeTimeout r) (wheelTimeout r) (keyTime r) v (enabled r) (_events r) (indicators r) (the_page r).
Definition set_enabled (v : bool) (r : scroller) : scroller :=
  mkScroller (geo r) (gest r) (px r) (py r) (isInTransition r) (isAnimating r) (scrollerStyle r) (currentPage r) (pages r) (snapThresholdX r) (snapThresholdY r) (resizeTimeout r) (wheelTimeout r) (keyTime r) (keyAcceleration r) v (_events r) (indicators r) (the_page r).
Definition set__events (v : list (list Z * list handler)) (r : scroller) : scroller :=
  mkScroller (geo r) (gest r) (px r) (py r) (isInTransition r) (isAnimating r) (scrollerStyle r) (currentPage r) (pages r) (snapThresholdX r) (snapThresholdY r) (resizeTimeout r) (wheelTimeout r) (keyTime r) (keyAcceleration r) (enabled r) v (indicators r) (the_page r).
Definition set_indicators (v : option (list indicator)) (r : scroller) : scroller :=
  mkScroller (geo r) (gest r) (px r) (py r) (isInTransition r) (isAnimating r) (scrollerStyle r) (currentPage r) (pages r) (snapThresholdX r) (snapThresholdY r) (resizeTimeout r) (wheelTimeout r) (keyTime r) (keyAcceleration r) (enabled r) (_events r) v (the_page r).
Definition set_the_page (v : world) (r : scroller) : scroller :=
  mkScroller (geo r) (gest r) (px r) (py r) (isInTransition r) (isAnimating r) (scrollerStyle r) (currentPage r) (pages r) (snapThresholdX r) (snapThresholdY r) (resizeTimeout r) (wheelTimeout r) (keyTime r) (keyAcceleration r) (enabled r) (_events r) (indicators r) v.

End State.

Arguments ease_option : clear implicits.
Arguments ind_options : clear implicits.
Arguments options : clear implicits.
Arguments wheel : clear implicits.
Arguments event : clear implicits.
Arguments element : clear implicits.
Arguments bar : clear implicits.
Arguments layout : clear implicits.
Arguments animation : clear implicits.
Arguments frame : clear implicits.
Arguments effect : clear implicits.
Arguments world : clear implicits.
Arguments indicator : clear implicits.
Arguments geometry : clear implicits.
Arguments gesture : clear implicits.
Arguments page : clear implicits.
Arguments cell : clear implicits.
Arguments scroller : clear implicits.

End ScrollState.
