(* ===== verification/IScroll.v ===== *)
(** * The scroller (iScroll)

    src/src/qt/res/assets/plugins/iscroll/iscroll.js: the methods of IScroll and of Indicator
    on the state of ScrollState.v.  [handle] runs a listener of the scroller's own events and
    is tied to the listeners at the end of the file; [opt] are the options as the constructor
    leaves them.  The time does not pass while a handler runs. *)

From Stdlib Require Import String ZArith Lia List Bool.
From S2P Require Import Prelude Js Num Value Regex ScrollUtils ScrollState.
Import ListNotations.
#[local] Open Scope Z_scope.
#[local] Open Scope se_scope.

Module IScroll.

Import Utils ScrollState.

Section IScroll.

Context {A : Type} {N : Num A} {M : Maths A}.

Definition action (T : Type) : Type := SE (scroller A) T.

Definition get : action (scroller A) := fun s => (Ret s, s).
Definition modify (f : scroller A -> scroller A) : action unit := fun s => (Ret tt, f s).
Definition when (c : bool) (a : action unit) : action unit := if c then a else se_ret tt.

Definition in_page (f : world A -> world A) : action unit := modify (fun s => set_the_page (f (the_page s)) s).
Definition in_gesture (f : gesture A -> gesture A) : action unit := modify (fun s => set_gest (f (gest s)) s).
Definition in_style (p v : list Z) : action unit := modify (fun s => set_scrollerStyle (set_style p v (scrollerStyle s)) s).

Definition getTime (s : scroller A) : A := now (the_page s).

Definition emit (e : effect A) : action unit := in_page (fun w => set_effects (effects w ++ [e]) w).

Fixpoint each {X} (f : X -> action unit) (l : list X) : action unit :=
  match l with
  | [] => se_ret tt
  | x :: l => f x ;! each f l
  end.

(** ** The page *)

Definition rAF (f : frame A) : action unit := in_page (fun w => set_frames (frames w ++ [f]) w).

Definition setTimeout (j : job) (delay : A) : action timer :=
  let! s := get in
  let w := the_page s in
  in_page (fun w => set_fresh (fresh w + 1) (set_timeouts (timeouts w ++ [(fresh w, add (now w) delay, j)]) w)) ;!
  se_ret (TimerId (fresh w)).

Definition clearTimeout (t : timer) : action unit :=
  match t with
  | TimerId i => in_page (fun w => set_timeouts (filter (fun x => negb (fst (fst x) =? i)) (timeouts w)) w)
  | _ => se_ret tt
  end.

Definition target_eqb (a b : target) : bool :=
  match a, b with
  | OnWrapper, OnWrapper | OnScroller, OnScroller | OnWindow, OnWindow => true
  | OnIndicator i, OnIndicator j => i =? j
  | _, _ => false
  end.

Definition listener_eqb (a b : listener) : bool :=
  target_eqb (l_target a) (l_target b) && str_eqb (l_type a) (l_type b) &&
  match l_object a, l_object b with None, None => true | Some i, Some j => i =? j | _, _ => false end &&
  Bool.eqb (l_capture a) (l_capture b).

(** An element has a listener once. *)
Definition addEvent (l : listener) : action unit :=
  in_page (fun w => if existsb (listener_eqb l) (listeners w) then w else set_listeners (listeners w ++ [l]) w).

Definition removeEvent (l : listener) : action unit :=
  in_page (fun w => set_listeners (filter (fun x => negb (listener_eqb l x)) (listeners w)) w).

(** The name of a property that may be [false]. *)
Definition property (p : option (list Z)) : list Z := match p with Some s => s | None => js "false" end.

Section Browser.

Variable b : browser.
Variable opt : options A.

Definition translateZ : list Z := if HWCompositing opt && hasPerspective b then js " translateZ(0)" else [].

Definition px_text (v : A) : list Z := show v ++ js "px".
Definition ms_text (v : A) : list Z := show v ++ js "ms".
Definition translate_text (x y : A) : list Z := js "translate(" ++ px_text x ++ js "," ++ px_text y ++ js ")" ++ translateZ.

(** ** Indicators: where they are *)

Definition number_of (x : option A) : A := match x with Some x => x | None => NaN end.

(** [a != b], of numbers that may be undefined *)
Definition differ (a b : option A) : bool :=
  match a, b with None, None => false | Some a, Some b => negb (eqb a b) | _, _ => true end.

Definition set_width (w : A) (i : indicator A) : indicator A :=
  set_indicatorStyle (set_style (js "width") (px_text w) (indicatorStyle i)) (set_i_width (Some w) i).
Definition set_height (h : A) (i : indicator A) : indicator A :=
  set_indicatorStyle (set_style (js "height") (px_text h) (indicatorStyle i)) (set_i_height (Some h) i).

Definition scales (i : indicator A) : bool := match shrink (i_opt i) with ShrinkScale => true | _ => false end.
Definition clips (i : indicator A) : bool := match shrink (i_opt i) with ShrinkClip => true | _ => false end.

(** The position between the boundaries, and the indicator, which may shrink. *)
Definition bounded_x (x : A) (i : indicator A) : A * indicator A :=
  let w := number_of (indicatorWidth i) in
  if ltb x (minBoundaryX i) then
    (minBoundaryX i, if scales i then set_width (Math_max (add w x) #8) i else i)
  else if gtb x (maxBoundaryX i) then
    if scales i then
      let width := Math_max (sub w (sub x (maxPosX i))) #8 in
      (sub (add (maxPosX i) w) width, set_width width i)
    else (maxBoundaryX i, i)
  else (x, if scales i && differ (i_width i) (indicatorWidth i) then set_width w i else i).

Definition bounded_y (y : A) (i : indicator A) : A * indicator A :=
  let h := number_of (indicatorHeight i) in
  if ltb y (minBoundaryY i) then
    (minBoundaryY i, if scales i then set_height (Math_max (add h (mul y #3)) #8) i else i)
  else if gtb y (maxBoundaryY i) then
    if scales i then
      let height := Math_max (sub h (mul (sub y (maxPosY i)) #3)) #8 in
      (sub (add (maxPosY i) h) height, set_height height i)
    else (maxBoundaryY i, i)
  else (y, if scales i && differ (i_height i) (indicatorHeight i) then set_height h i else i).

Definition updatePosition (sx sy : A) (i : indicator A) : indicator A :=
  let o := i_opt i in
  let x := if listenX o then or_number (Math_round (mul (sizeRatioX i) sx)) zero else zero in
  let y := if listenY o then or_number (Math_round (mul (sizeRatioY i) sy)) zero else zero in
  let '(x, i) := if ignoreBoundaries o then (x, i) else bounded_x x i in
  let '(y, i) := if ignoreBoundaries o then (y, i) else bounded_y y i in
  let i := set_iy y (set_ix x i) in
  let st := indicatorStyle i in
  set_indicatorStyle
    (if useTransform opt then set_style (property (style_transform b)) (translate_text x y) st
     else set_style (js "top") (px_text y) (set_style (js "left") (px_text x) st)) i.

(** The numbers of the indicators, the last first, as the loops visit them. *)
Definition indices (s : scroller A) : list Z :=
  match indicators s with Some l => rev (map Z.of_nat (seq 0 (length l))) | None => [] end.

Definition nth_indicator (i : Z) (s : scroller A) : option (indicator A) :=
  match indicators s with Some l => nth_error l (Z.to_nat i) | None => None end.

Fixpoint update_nth {X} (n : nat) (f : X -> X) (l : list X) : list X :=
  match n, l with
  | _, [] => []
  | O, x :: l => f x :: l
  | S n, x :: l => x :: update_nth n f l
  end.

Definition in_indicator (i : Z) (f : indicator A -> indicator A) : action unit :=
  modify (fun s => set_indicators (option_map (update_nth (Z.to_nat i) f) (indicators s)) s).

Definition in_indicatorStyle (i : Z) (p v : list Z) : action unit :=
  in_indicator i (fun x => set_indicatorStyle (set_style p v (indicatorStyle x)) x).

Definition in_wrapperStyle (i : Z) (p v : list Z) : action unit :=
  in_indicator i (fun x => set_wrapperStyle (set_style p v (wrapperStyle x)) x).

Definition Indicator_transitionTime (time : A) (i : Z) : action unit :=
  let time := or_number time zero in
  match style_transitionDuration b with
  | None => se_ret tt
  | Some p =>
      in_indicatorStyle i p (ms_text time) ;!
      when (negb (nonzero time) && isBadAndroid b) (in_indicatorStyle i p (js "0.0001ms") ;! rAF (FixIndicator i))
  end.

Definition Indicator_transitionTimingFunction (easing : list Z) (i : Z) : action unit :=
  in_indicatorStyle i (property (style_transitionTimingFunction b)) easing.

(** ** Moving the scroller *)

Definition _transitionTime (time : A) : action unit :=
  if negb (useTransition opt) then se_ret tt
  else
    let time := or_number time zero in
    match style_transitionDuration b with
    | None => se_ret tt
    | Some p =>
        in_style p (ms_text time) ;!
        when (negb (nonzero time) && isBadAndroid b) (in_style p (js "0.0001ms") ;! rAF FixScroller) ;!
        let! s := get in each (Indicator_transitionTime time) (indices s)
    end.

Definition _transitionTimingFunction (easing : list Z) : action unit :=
  in_style (property (style_transitionTimingFunction b)) easing ;!
  let! s := get in each (Indicator_transitionTimingFunction easing) (indices s).

Definition _translate (x y : A) : action unit :=
  let rounded v := if useTransform opt then v else Math_round v in
  let x := rounded x in
  let y := rounded y in
  (if useTransform opt then in_style (property (style_transform b)) (translate_text x y)
   else in_style (js "left") (px_text x) ;! in_style (js "top") (px_text y)) ;!
  modify (set_px x) ;!
  modify (set_py y) ;!
  let! s := get in
  each (fun i => let! s := get in in_indicator i (updatePosition (px s) (py s))) (indices s).

(** ** The scroller's own events *)

Fixpoint handlers_of (type : list Z) (l : list (list Z * list handler)) : option (list handler) :=
  match l with
  | [] => None
  | (t, hs) :: l => if str_eqb t type then Some hs else handlers_of type l
  end.

Fixpoint set_handlers (type : list Z) (hs : list handler) (l : list (list Z * list handler)) : list (list Z * list handler) :=
  match l with
  | [] => [(type, hs)]
  | (t, hs') :: l => if str_eqb t type then (t, hs) :: l else (t, hs') :: set_handlers type hs l
  end.

(** [on(type, fn)]; the name of an event is not that of an inherited property. *)
Definition on (type : list Z) (fn : handler) : action unit :=
  modify (fun s =>
    let hs := match handlers_of type (_events s) with Some hs => hs | None => [] end in
    set__events (set_handlers type (hs ++ [fn]) (_events s)) s).

(** [fn === f]: the listeners of the parts of the scroller are closures that the page has no
    reference to. *)
Definition same_handler (a b : handler) : bool := match a, b with User i, User j => i =? j | _, _ => false end.

Fixpoint remove_first (fn : handler) (l : list handler) : list handler :=
  match l with
  | [] => []
  | h :: l => if same_handler h fn then l else h :: remove_first fn l
  end.

Definition off (type : list Z) (fn : handler) : action unit :=
  modify (fun s =>
    match handlers_of type (_events s) with
    | None => s
    | Some hs => set__events (set_handlers type (remove_first fn hs) (_events s)) s
    end).

Section Handlers.

Variable handle : handler -> action unit.

(** The loop over the listeners: their number is read before it, each of them when its turn
    comes. *)
Fixpoint exec_from (type : list Z) (n i : nat) : action unit :=
  match n with
  | O => se_ret tt
  | S n =>
      let! s := get in
      match nth_error (match handlers_of type (_events s) with Some hs => hs | None => [] end) i with
      | Some h => handle h ;! exec_from type n (S i)
      | None => se_throw "this._events[type][i] is undefined"
      end
  end.

Definition _execEvent (type : list Z) : action unit :=
  let! s := get in
  match handlers_of type (_events s) with
  | None => se_ret tt
  | Some hs => exec_from type (length hs) 0
  end.

(** ** Scrolling *)

Section Reset.

(** [scrollTo], for the scroller to come back into its bounds. *)
Variable scrollTo' : A -> A -> A -> option (easing A) -> action unit.

Definition bounce_easing : option (easing A) := match bounceEasing opt with EaseObject e => Some e | EaseName _ => None end.

(** Where the scroller rests. *)
Definition rest_x (s : scroller A) : A :=
  if negb (hasHorizontalScroll (geo s)) || gtb (px s) #0 then #0
  else if ltb (px s) (maxScrollX (geo s)) then maxScrollX (geo s) else px s.
Definition rest_y (s : scroller A) : A :=
  if negb (hasVerticalScroll (geo s)) || gtb (py s) #0 then #0
  else if ltb (py s) (maxScrollY (geo s)) then maxScrollY (geo s) else py s.

Definition resetPosition_by (time : A) : action bool :=
  let! s := get in
  let x := rest_x s in
  let y := rest_y s in
  let time := or_number time zero in
  if eqb x (px s) && eqb y (py s) then se_ret false
  else scrollTo' x y time bounce_easing ;! se_ret true.

(** A frame of an animation. *)
Definition step (a : animation A) : action unit :=
  let! s := get in
  let now := getTime s in
  if geb now (destTime a) then
    modify (set_isAnimating false) ;!
    _translate (destX a) (destY a) ;!
    let! back := resetPosition_by (bounceTime opt) in
    when (negb back) (_execEvent (js "scrollEnd"))
  else
    let now := div (sub now (a_startTime a)) (duration a) in
    let easing := easingFn a now in
    let newX := add (mul (sub (destX a) (a_startX a)) easing) (a_startX a) in
    let newY := add (mul (sub (destY a) (a_startY a)) easing) (a_startY a) in
    _translate newX newY ;!
    let! s := get in
    when (isAnimating s) (rAF (Step a)).

Definition _animate (destX destY duration : A) (easingFn : A -> A) : action unit :=
  let! s := get in
  let startTime := getTime s in
  let a := mkAnimation destX destY (px s) (py s) startTime duration (add startTime duration) easingFn in
  modify (set_isAnimating true) ;!
  step a.

End Reset.

(** [scrollTo(x, y, time, easing)]: a time that is not given is 0, which it is tested and
    written as.  [fuel] bounds the scrolls that a scroll ends with itself, when an animation
    is over at once. *)
Fixpoint scrollTo_fuel (fuel : nat) (x y time : A) (easing : option (easing A)) : action unit :=
  match fuel with
  | O => fun s => (Undef, s)
  | S fuel =>
      let easing := match easing with Some e => e | None => circular end in
      modify (set_isInTransition (useTransition opt && gtb time #0)) ;!
      let transitionType := useTransition opt && match ease_style easing with [] => false | _ => true end in
      if negb (nonzero time) || transitionType then
        when transitionType (_transitionTimingFunction (ease_style easing) ;! _transitionTime time) ;!
        _translate x y
      else _animate (scrollTo_fuel fuel) x y time (ease_fn easing)
  end.

Definition scroll_depth : nat := 3.

Definition scrollTo : A -> A -> A -> option (easing A) -> action unit := scrollTo_fuel scroll_depth.

Definition resetPosition : A -> action bool := resetPosition_by scrollTo.

Definition scrollBy (x y time : A) (easing : option (easing A)) : action unit :=
  let! s := get in
  let x := add (px s) x in
  let y := add (py s) y in
  let time := or_number time zero in
  scrollTo x y time easing.

(** An offset of [scrollToElement]: the number, or [true] for the middle. *)
Inductive offset_option : Type := OffsetNumber (x : A) | OffsetCenter.

Definition within (v low : A) : A := if gtb v #0 then #0 else if ltb v low then low else v.

(** [scrollToElement(el, time, offsetX, offsetY, easing)] of an element that exists; the time
    [None] is undefined, null or 'auto'. *)
Definition scrollToElement (i : Z) (time : option A) (offsetX offsetY : offset_option) (easing : option (easing A)) : action unit :=
  let! s := get in
  let el := element_at (the_layout (the_page s)) i in
  let wrapper := wrapper_element (the_layout (the_page s)) in
  let pos := offset (el_chain el) in
  let l := sub (fst pos) (fst (wrapperOffset (geo s))) in
  let t := sub (snd pos) (snd (wrapperOffset (geo s))) in
  let offsetX := match offsetX with
    | OffsetCenter => Math_round (sub (div (offsetWidth el) #2) (div (offsetWidth wrapper) #2))
    | OffsetNumber x => x
    end in
  let offsetY := match offsetY with
    | OffsetCenter => Math_round (sub (div (offsetHeight el) #2) (div (offsetHeight wrapper) #2))
    | OffsetNumber y => y
    end in
  let l := within (sub l (or_number offsetX zero)) (maxScrollX (geo s)) in
  let t := within (sub t (or_number offsetY zero)) (maxScrollY (geo s)) in
  let time := match time with
    | None => Math_max (Math_abs (sub (px s) l)) (Math_abs (sub (py s) t))
    | Some time => time
    end in
  scrollTo l t time easing.

Definition disable : action unit := modify (set_enabled false).
Definition enable : action unit := modify (set_enabled true).

(** The geometry of a layout. *)
Definition measured (l : layout A) : geometry A :=
  let maxX := sub (clientWidth l) (scroller_width l) in
  let maxY := sub (clientHeight l) (scroller_height l) in
  let horizontal := scrollX opt && ltb maxX #0 in
  let vertical := scrollY opt && ltb maxY #0 in
  mkGeometry (clientWidth l) (clientHeight l)
    (if horizontal then scroller_width l else clientWidth l)
    (if vertical then scroller_height l else clientHeight l)
    (if horizontal then maxX else #0) (if vertical then maxY else #0)
    horizontal vertical (offset (el_chain (wrapper_element l))).

Definition refresh : action unit :=
  modify (fun s => set_geo (measured (the_layout (the_page s))) s) ;!
  in_gesture (set_endTime #0) ;!
  in_gesture (set_directionX 0) ;!
  in_gesture (set_directionY 0) ;!
  _execEvent (js "refresh") ;!
  resetPosition #0 ;!
  se_ret tt.

(** ** Pages *)

Definition cell_at (x y : Z) (pages : list (list (option (cell A)))) : option (cell A) :=
  if (x <? 0) || (y <? 0) then None
  else match nth_error pages (Z.to_nat x) with
       | Some column => match nth_error column (Z.to_nat y) with Some c => c | None => None end
       | None => None
       end.

(** How long a scroll to a position takes. *)
Definition snap_time (speed x y : A) (s : scroller A) : A :=
  or_number speed
    (Math_max (Math_max (Math_min (Math_abs (sub x (px s))) #1000) (Math_min (Math_abs (sub y (py s))) #1000)) #300).

(** [goToPage(x, y, time, easing)]; the number of a page is [None] where it is NaN or
    undefined. *)
Definition goToPage (x y : option Z) (time : option A) (easing : option (easing A)) : action unit :=
  let easing := match easing with Some e => Some e | None => bounce_easing end in
  let! s := get in
  match x with
  | None => se_throw "this.pages[x] is undefined"
  | Some x =>
      let x := if zlen (pages s) <=? x then zlen (pages s) - 1 else if x <? 0 then 0 else x in
      match (if x <? 0 then None else nth_error (pages s) (Z.to_nat x)) with
      | None => se_throw "this.pages[x] is undefined"
      | Some column =>
          match y with
          | None => se_throw "this.pages[x][y] is undefined"
          | Some y =>
              let y := if zlen column <=? y then zlen column - 1 else if y <? 0 then 0 else y in
              match cell_at x y (pages s) with
              | None => se_throw "this.pages[x][y] is undefined"
              | Some c =>
                  let posX := cell_x c in
                  let posY := cell_y c in
                  let time := match time with Some t => t | None => snap_time (snapSpeed opt) posX posY s end in
                  modify (set_currentPage (Some (mkPage posX posY x y))) ;!
                  scrollTo posX posY time easing
              end
          end
      end
  end.

Definition current_x (s : scroller A) : option Z := option_map pageX (currentPage s).
Definition current_y (s : scroller A) : option Z := option_map pageY (currentPage s).

Definition next (time : option A) (easing : option (easing A)) : action unit :=
  let! s := get in
  let x := option_map (Z.add 1) (current_x s) in
  let y := current_y s in
  match x with
  | Some x =>
      if (zlen (pages s) <=? x) && hasVerticalScroll (geo s)
      then goToPage (Some 0) (option_map (Z.add 1) y) time easing
      else goToPage (Some x) y time easing
  | None => goToPage None y time easing
  end.

Definition prev (time : option A) (easing : option (easing A)) : action unit :=
  let! s := get in
  let x := option_map (Z.add (-1)) (current_x s) in
  let y := current_y s in
  match x with
  | Some x =>
      if (x <? 0) && hasVerticalScroll (geo s)
      then goToPage (Some 0) (option_map (Z.add (-1)) y) time easing
      else goToPage (Some x) y time easing
  | None => goToPage None y time easing
  end.

(** The loops over the table of pages, with fuel for the ones they make. *)
Definition loop_fuel (size step : A) : nat := Z.to_nat (trunc (div size step)) + 2.

Fixpoint page_column (fuel : nat) (g : geometry A) (x cx y cy stepX stepY : A) : option (list (option (cell A))) :=
  match fuel with
  | O => None
  | S fuel =>
      if gtb y (neg (scrollerHeight g)) then
        option_map (cons (Some (mkCell (Math_max x (maxScrollX g)) (Math_max y (maxScrollY g)) stepX stepY (sub x cx) (sub y cy))))
          (page_column fuel g x cx (sub y stepY) cy stepX stepY)
      else Some []
  end.

Fixpoint page_table (fuel : nat) (g : geometry A) (x cx cy stepX stepY : A) : option (list (list (option (cell A)))) :=
  match fuel with
  | O => None
  | S fuel =>
      if gtb x (neg (scrollerWidth g)) then
        match page_column (loop_fuel (scrollerHeight g) stepY) g x cx #0 cy stepX stepY with
        | None => None
        | Some column => option_map (cons column) (page_table fuel g (sub x stepX) cx cy stepX stepY)
        end
      else Some []
  end.

Definition offsetLeft (e : element A) : A := match el_chain e with (l, _) :: _ => l | [] => NaN end.
Definition offsetTop (e : element A) : A := match el_chain e with (_, t) :: _ => t | [] => NaN end.

(** [row[n] = v], with the holes before it. *)
Definition put_at {X} (n : nat) (v : X) (l : list (option X)) : list (option X) :=
  if (n <? length l)%nat then firstn n l ++ [Some v] ++ skipn (S n) l
  else l ++ repeat None (n - length l) ++ [Some v].

(** The loop over the elements: the table, [m], [n + 1] and the element before. *)
Definition place_element (g : geometry A) (st : list (list (option (cell A))) * nat * nat * option (element A)) (e : element A)
    : list (list (option (cell A))) * nat * nat * option (element A) :=
  let '(pages, m, n1, before) := st in
  let first := match before with None => true | Some p => leb (offsetLeft e) (offsetLeft p) end in
  let m := if first then O else m in
  let n1 := if first then S n1 else n1 in
  let pages := if (m <? length pages)%nat then pages else pages ++ [[]] in
  let x := Math_max (neg (offsetLeft e)) (maxScrollX g) in
  let y := Math_max (neg (offsetTop e)) (maxScrollY g) in
  let cx := sub x (Math_round (div (offsetWidth e) #2)) in
  let cy := sub y (Math_round (div (offsetHeight e) #2)) in
  (update_nth m (put_at (n1 - 1) (mkCell x y (offsetWidth e) (offsetHeight e) cx cy)) pages,
   if gtb x (maxScrollX g) then S m else m, n1, Some e).

(** The table of the pages of a geometry; [None] where the loop does not end. *)
Definition table_of_pages (s : scroller A) : option (list (list (option (cell A)))) :=
  let g := geo s in
  let stepX := or_number (snapStepX opt) (wrapperWidth g) in
  let stepY := or_number (snapStepY opt) (wrapperHeight g) in
  match snap opt with
  | SnapElements l =>
      let els := map (element_at (the_layout (the_page s))) l in
      Some (fst (fst (fst (fold_left (place_element g) els ([], O, O, None)))))
  | _ =>
      page_table (loop_fuel (scrollerWidth g) stepX) g #0 (Math_round (div stepX #2)) (Math_round (div stepY #2)) stepX stepY
  end.

(** The listener of [refresh]. *)
Definition snap_refresh : action unit :=
  modify (set_pages []) ;!
  let! s := get in
  let g := geo s in
  if negb (nonzero (wrapperWidth g)) || negb (nonzero (wrapperHeight g)) || negb (nonzero (scrollerWidth g)) || negb (nonzero (scrollerHeight g))
  then se_ret tt
  else
    match table_of_pages s with
    | None => fun s => (Undef, s)
    | Some t =>
        modify (set_pages t) ;!
        let number p := Some (match p with Some n => n | None => 0 end) in
        goToPage (number (current_x s)) (number (current_y s)) (Some #0) None ;!
        let! s := get in
        if eqb (rem (snapThreshold opt) #1) #0 then
          modify (set_snapThresholdX (snapThreshold opt)) ;!
          modify (set_snapThresholdY (snapThreshold opt))
        else
          match currentPage s with
          | Some p =>
              match cell_at (pageX p) (pageY p) (pages s) with
              | Some c =>
                  modify (set_snapThresholdX (Math_round (mul (cell_width c) (snapThreshold opt)))) ;!
                  modify (set_snapThresholdY (Math_round (mul (cell_height c) (snapThreshold opt))))
              | None => se_throw "this.pages[...][...] is undefined"
              end
          | None => se_throw "this.pages[undefined] is undefined"
          end
    end.

(** The listener of [flick]. *)
Definition snap_flick : action unit :=
  let! s := get in
  let time := snap_time (snapSpeed opt) (startX (gest s)) (startY (gest s)) s in
  goToPage (option_map (fun p => p + directionX (gest s)) (current_x s))
           (option_map (fun p => p + directionY (gest s)) (current_y s)) (Some time) None.

(** The first of the cells that a position has reached, and its position; the number past them
    and the position itself where it has reached none; [None] is the TypeError of a hole. *)
Fixpoint first_reached (center position : cell A -> A) (v : A) (l : list (option (cell A))) (i : Z) : option (Z * A) :=
  match l with
  | [] => Some (i, v)
  | None :: _ => None
  | Some c :: l => if geb v (center c) then Some (i, position c) else first_reached center position v l (i + 1)
  end.

(** The page next to the current one in the direction of the gesture. *)
Definition moved_page (i direction count : Z) : Z :=
  let i := i + direction in
  if i <? 0 then 0 else if count <=? i then count - 1 else i.

(** [_nearestSnap(x, y)]; the page is [None] where the current page is [{}]. *)
Definition _nearestSnap (x y : A) : action (option (page A)) :=
  let! s := get in
  let ps := pages s in
  let g := gest s in
  match ps with
  | [] => se_ret (Some (mkPage #0 #0 0 0))
  | first :: _ =>
      if ltb (Math_abs (sub x (absStartX g))) (snapThresholdX s) && ltb (Math_abs (sub y (absStartY g))) (snapThresholdY s)
      then se_ret (currentPage s)
      else
        let x := within x (maxScrollX (geo s)) in
        let y := within y (maxScrollY (geo s)) in
        match first_reached cell_cx cell_x x (map (fun c => match c with c :: _ => c | [] => None end) ps) 0 with
        | None => se_throw "this.pages[i][0] is undefined"
        | Some (i, x) =>
            match nth_error ps (Z.to_nat i) with
            | None => se_throw "this.pages[i] is undefined"
            | Some column =>
                match first_reached cell_cy cell_y y (map (fun m => cell_at 0 (Z.of_nat m) ps) (seq 0 (length column))) 0 with
                | None => se_throw "this.pages[0][m] is undefined"
                | Some (m, y) =>
                    let same c n := match c with Some c => c =? n | None => false end in
                    let i' := if same (current_x s) i then moved_page i (directionX g) (zlen ps) else i in
                    let m' := if same (current_y s) m then moved_page m (directionY g) (zlen first) else m in
                    match (if same (current_x s) i then option_map cell_x (cell_at i' 0 ps) else Some x),
                          (if same (current_y s) m then option_map cell_y (cell_at 0 m' ps) else Some y) with
                    | Some x, Some y => se_ret (Some (mkPage x y i' m'))
                    | _, _ => se_throw "this.pages[...][...] is undefined"
                    end
                end
            end
        end
  end.

(** ** Gestures *)

(** [handle_transitionEnd]: the end of a transition of the style, of the scroller or of another
    element. *)
Definition _transitionEnd (e : event A) : action unit :=
  let! s := get in
  if negb (e_on_scroller e) || negb (isInTransition s) then se_ret tt
  else
    _transitionTime #0 ;!
    let! back := resetPosition (bounceTime opt) in
    when (negb back) (modify (set_isInTransition false) ;! _execEvent (js "scrollEnd")).

(** [s.split(sep)] for the separator ', '. *)
Fixpoint split_comma (cur s : list Z) : list (list Z) :=
  match s with
  | [] => [rev cur]
  | c :: s' =>
      match s' with
      | d :: s'' => if (c =? 44) && (d =? 32) then rev cur :: split_comma [] s'' else split_comma (c :: cur) s'
      | [] => [rev (c :: cur)]
      end
  end.

(** The number in the n-th text, or else in the m-th. *)
Definition number_in (l : list (list Z)) (n m : nat) : A :=
  match nth_error l n with
  | Some (c :: s) => string_to_number (c :: s)
  | _ => match nth_error l m with Some s => string_to_number s | None => NaN end
  end.

(** The characters that the pattern [[^-\d.]] leaves. *)
Definition coordinate (s : list Z) : A := string_to_number (filter (fun c => is_digit c || (c =? 45) || (c =? 46)) s).

Definition getComputedPosition (s : scroller A) : A * A :=
  let c := the_computed (the_page s) in
  if useTransform opt then
    let matrix := split_comma [] (hd [] (split 41 (c_transform c))) in
    (number_in matrix 12 4, number_in matrix 13 5)
  else (coordinate (c_left c), coordinate (c_top c)).

Definition same_kind (k i : option Z) : bool :=
  match k, i with None, None => true | Some k, Some i => k =? i | _, _ => false end.

(** [button] of an event that is no touch. *)
Definition button (e : event A) : Z :=
  if e_which e =? 0 then if e_button e <? 2 then 0 else if e_button e =? 4 then 1 else 2 else e_button e.

Definition _start (e : event A) : action unit :=
  let kind := eventType (e_type e) in
  let! s := get in
  if negb (same_kind kind (Some 1)) && negb (button e =? 0) then se_ret tt
  else if negb (enabled s) ||
          (match initiated (gest s) with Some i => negb (i =? 0) | None => false end && negb (same_kind kind (initiated (gest s))))
  then se_ret tt
  else
    when (preventDefault opt && negb (isBadAndroid b) && negb (preventDefaultException (e_target e) (o_preventDefaultException opt)))
      (emit PreventDefault) ;!
    in_gesture (set_initiated kind) ;!
    in_gesture (set_moved false) ;!
    in_gesture (set_distX #0) ;!
    in_gesture (set_distY #0) ;!
    in_gesture (set_directionX 0) ;!
    in_gesture (set_directionY 0) ;!
    in_gesture (set_directionLocked Unlocked) ;!
    in_gesture (set_startTime (getTime s)) ;!
    (if useTransition opt && isInTransition s then
       _transitionTime #0 ;!
       modify (set_isInTransition false) ;!
       let! s := get in
       let pos := getComputedPosition s in
       _translate (Math_round (fst pos)) (Math_round (snd pos)) ;!
       _execEvent (js "scrollEnd")
     else when (negb (useTransition opt) && isAnimating s)
       (modify (set_isAnimating false) ;! _execEvent (js "scrollEnd"))) ;!
    let! s := get in
    in_gesture (set_startX (px s)) ;!
    in_gesture (set_startY (py s)) ;!
    in_gesture (set_absStartX (px s)) ;!
    in_gesture (set_absStartY (py s)) ;!
    in_gesture (set_pointX (fst (e_point e))) ;!
    in_gesture (set_pointY (snd (e_point e))) ;!
    _execEvent (js "beforeScrollStart").

Definition is_locked (l lock : lock) : bool :=
  match l, lock with LockH, LockH | LockV, LockV | LockN, LockN | Unlocked, Unlocked => true | _, _ => false end.

Definition is_pass (p q : passthrough) : bool :=
  match p, q with PassVertical, PassVertical | PassHorizontal, PassHorizontal => true | _, _ => false end.

(** The axis that a gesture is locked to. *)
Definition locked (absDistX absDistY : A) : lock :=
  if gtb absDistX (add absDistY (directionLockThreshold opt)) then LockH
  else if geb absDistY (add absDistX (directionLockThreshold opt)) then LockV
  else LockN.

(** A coordinate after a move: slower outside of the boundaries, or not outside. *)
Definition dragged (p delta low : A) : A :=
  let v := add p delta in
  if gtb v #0 || ltb v low then
    if o_bounce opt then add p (div delta #3) else if gtb v #0 then #0 else low
  else v.

Definition direction_of (delta : A) : Z := if gtb delta #0 then -1 else if ltb delta #0 then 1 else 0.

Definition _move (e : event A) : action unit :=
  let! s := get in
  if negb (enabled s) || negb (same_kind (eventType (e_type e)) (initiated (gest s))) then se_ret tt
  else
    when (preventDefault opt) (emit PreventDefault) ;!
    let g := gest s in
    let deltaX := sub (fst (e_point e)) (pointX g) in
    let deltaY := sub (snd (e_point e)) (pointY g) in
    let timestamp := getTime s in
    let distX := add (distX g) deltaX in
    let distY := add (distY g) deltaY in
    in_gesture (set_pointX (fst (e_point e))) ;!
    in_gesture (set_pointY (snd (e_point e))) ;!
    in_gesture (set_distX distX) ;!
    in_gesture (set_distY distY) ;!
    let absDistX := Math_abs distX in
    let absDistY := Math_abs distY in
    if gtb (sub timestamp (endTime g)) #300 && (ltb absDistX #10 && ltb absDistY #10) then se_ret tt
    else
      when (is_locked (directionLocked g) Unlocked && negb (freeScroll opt))
        (in_gesture (set_directionLocked (locked absDistX absDistY))) ;!
      let! s := get in
      let lock := directionLocked (gest s) in
      let across := if is_locked lock LockH then PassHorizontal else PassVertical in
      let along := if is_locked lock LockH then PassVertical else PassHorizontal in
      let axis := is_locked lock LockH || is_locked lock LockV in
      when (axis && is_pass (eventPassthrough opt) along) (emit PreventDefault) ;!
      if axis && is_pass (eventPassthrough opt) across then in_gesture (set_initiated (Some 0))
      else
        let deltaX := if is_locked lock LockV then #0 else deltaX in
        let deltaY := if is_locked lock LockH then #0 else deltaY in
        let deltaX := if hasHorizontalScroll (geo s) then deltaX else #0 in
        let deltaY := if hasVerticalScroll (geo s) then deltaY else #0 in
        let newX := dragged (px s) deltaX (maxScrollX (geo s)) in
        let newY := dragged (py s) deltaY (maxScrollY (geo s)) in
        in_gesture (set_directionX (direction_of deltaX)) ;!
        in_gesture (set_directionY (direction_of deltaY)) ;!
        when (negb (moved (gest s))) (_execEvent (js "scrollStart")) ;!
        in_gesture (set_moved true) ;!
        _translate newX newY ;!
        let! s := get in
        when (gtb (sub timestamp (startTime (gest s))) #300)
          (in_gesture (set_startTime timestamp) ;!
           in_gesture (set_startX (px s)) ;!
           in_gesture (set_startY (py s))).

(** Where momentum takes one axis, and in what time. *)
Definition carried (has : bool) (current start duration low size new : A) : A * A :=
  if has then momentum current start duration low (if o_bounce opt then size else #0) (deceleration opt) else (new, #0).

Definition page_x (p : option (page A)) : A := match p with Some p => pg_x p | None => NaN end.
Definition page_y (p : option (page A)) : A := match p with Some p => pg_y p | None => NaN end.

Definition snaps : bool := match snap opt with SnapNone => false | _ => true end.

(** The rest of [_end], from the momentum on. *)
Definition end_scroll (newX newY duration : A) : action unit :=
  let! s := get in
  let g := geo s in
  let momentum := o_momentum opt && ltb duration #300 in
  let momentumX := carried (hasHorizontalScroll g) (px s) (startX (gest s)) duration (maxScrollX g) (wrapperWidth g) newX in
  let momentumY := carried (hasVerticalScroll g) (py s) (startY (gest s)) duration (maxScrollY g) (wrapperHeight g) newY in
  when momentum (modify (set_isInTransition true)) ;!
  let newX := if momentum then fst momentumX else newX in
  let newY := if momentum then fst momentumY else newY in
  let time := if momentum then Math_max (snd momentumX) (snd momentumY) else #0 in
  let! target :=
    (if snaps then
       let! snap := _nearestSnap newX newY in
       modify (set_currentPage snap) ;!
       in_gesture (set_directionX 0) ;!
       in_gesture (set_directionY 0) ;!
       let time := or_number (snapSpeed opt)
         (Math_max (Math_max (Math_min (Math_abs (sub newX (page_x snap))) #1000) (Math_min (Math_abs (sub newY (page_y snap))) #1000)) #300) in
       se_ret (page_x snap, page_y snap, time, bounce_easing)
     else se_ret (newX, newY, time, None)) in
  let '(newX, newY, time, easing) := target in
  let! s := get in
  if negb (eqb newX (px s)) || negb (eqb newY (py s)) then
    let outside := gtb newX #0 || ltb newX (maxScrollX g) || gtb newY #0 || ltb newY (maxScrollY g) in
    scrollTo newX newY time (if outside then Some quadratic else easing)
  else _execEvent (js "scrollEnd").

Definition _end (e : event A) : action unit :=
  let! s := get in
  if negb (enabled s) || negb (same_kind (eventType (e_type e)) (initiated (gest s))) then se_ret tt
  else
    when (preventDefault opt && negb (preventDefaultException (e_target e) (o_preventDefaultException opt))) (emit PreventDefault) ;!
    let duration := sub (getTime s) (startTime (gest s)) in
    let newX := Math_round (px s) in
    let newY := Math_round (py s) in
    let distanceX := Math_abs (sub newX (startX (gest s))) in
    let distanceY := Math_abs (sub newY (startY (gest s))) in
    modify (set_isInTransition false) ;!
    in_gesture (set_initiated (Some 0)) ;!
    in_gesture (set_endTime (getTime s)) ;!
    let! back := resetPosition (bounceTime opt) in
    if back then se_ret tt
    else
      scrollTo newX newY #0 None ;!
      let! s := get in
      if negb (moved (gest s)) then
        match o_tap opt with
        | TapName name => emit (DispatchTap name (fst (e_page e)) (snd (e_page e)))
        | _ => se_ret tt
        end ;!
        when (o_click opt && negb (click_exception (e_target e (js "tagName")))) (emit DispatchClick) ;!
        _execEvent (js "scrollCancel")
      else if match handlers_of (js "flick") (_events s) with Some _ => true | None => false end
           && ltb duration #200 && ltb distanceX #100 && ltb distanceY #100
      then _execEvent (js "flick")
      else end_scroll newX newY duration.

Definition _resize : action unit :=
  let! s := get in
  clearTimeout (resizeTimeout s) ;!
  let! t := setTimeout RefreshLater (match resizePolling opt with Some d => d | None => NaN end) in
  modify (set_resizeTimeout t).

(** ** The wheel and the keys *)

(** How far the wheel scrolls; [None] where the event does not say. *)
Definition wheel_deltas (w : wheel A) : option (A * A) :=
  let speed := mouseWheelSpeed opt in
  match w with
  | DeltaXY true x y => Some (mul (neg x) speed, mul (neg y) speed)
  | DeltaXY false x y => Some (neg x, neg y)
  | WheelDeltaXY x y => Some (mul (div x #120) speed, mul (div y #120) speed)
  | WheelDelta d => let v := mul (div d #120) speed in Some (v, v)
  | WheelDetail d => let v := mul (div (neg d) #3) speed in Some (v, v)
  | NoWheel => None
  end.

(** The page before or after, by the sign of a delta. *)
Definition wheel_page (p : option Z) (delta : A) : option Z :=
  option_map (fun n => if gtb delta #0 then n - 1 else if ltb delta #0 then n + 1 else n) p.

Definition _wheel (e : event A) : action unit :=
  let! s := get in
  if negb (enabled s) then se_ret tt
  else
    emit PreventDefault ;!
    when (match wheelTimeout s with TimerUndefined => true | _ => false end) (_execEvent (js "scrollStart")) ;!
    let! s := get in
    clearTimeout (wheelTimeout s) ;!
    let! t := setTimeout WheelEnd #400 in
    modify (set_wheelTimeout t) ;!
    match wheel_deltas (e_wheel e) with
    | None => se_ret tt
    | Some (dx, dy) =>
        let dx := mul dx (invertWheelDirection opt) in
        let dy := mul dy (invertWheelDirection opt) in
        let! s := get in
        let vertical := hasVerticalScroll (geo s) in
        let dx := if vertical then dx else dy in
        let dy := if vertical then dy else #0 in
        if snaps then goToPage (wheel_page (current_x s) dx) (wheel_page (current_y s) dy) None None
        else
          let newX := add (px s) (Math_round (if hasHorizontalScroll (geo s) then dx else #0)) in
          let newY := add (py s) (Math_round (if vertical then dy else #0)) in
          in_gesture (set_directionX (direction_of dx)) ;!
          in_gesture (set_directionY (direction_of dy)) ;!
          scrollTo (within newX (maxScrollX (geo s))) (within newY (maxScrollY (geo s))) #0 None
    end.

(** The code of the timeout of the wheel. *)
Definition wheel_end : action unit :=
  when (negb snaps) (_execEvent (js "scrollEnd")) ;!
  modify (set_wheelTimeout TimerUndefined).

(** The keys with their default codes. *)
Definition default_keys : list (list Z * Z) :=
  map (fun k => (js (fst k), snd k))
    [("pageUp", 33); ("pageDown", 34); ("end", 35); ("home", 36); ("left", 37); ("up", 38); ("right", 39); ("down", 40)]%string.

Fixpoint lookup_key {X} (k : list Z) (l : list (list Z * X)) : option X :=
  match l with
  | [] => None
  | (n, c) :: l => if str_eqb n k then Some c else lookup_key k l
  end.

(** The bindings [_initKeys] leaves: a code that is given, unless it is 0 or NaN, or the
    default. *)
Definition key_code (k : key) : option Z :=
  match k with
  | Code c => if c =? 0 then None else Some c
  | Character s => match toUpperCase s with c :: _ => if c =? 0 then None else Some c | [] => None end
  end.

Definition bound_keys : list (list Z * Z) :=
  let given := match keyBindings opt with KeysGiven l => l | _ => [] end in
  map (fun d => (fst d, match lookup_key (fst d) given with
                        | Some k => match key_code k with Some c => c | None => snd d end
                        | None => snd d
                        end)) default_keys.

(** The name a key is bound to: the first case of the switch. *)
Definition key_name (code : Z) : option (list Z) := option_map fst (find (fun k => snd k =? code) bound_keys).

Definition is_name (n : list Z) (s : string) : bool := str_eqb n (js s).

(** The pages the keys go to, with pages. *)
Definition key_pages (name : list Z) (s : scroller A) (x y : option Z) : res (option Z * option Z) :=
  let plus d (n : option Z) := option_map (fun n => n + d) n in
  let sideways := hasHorizontalScroll (geo s) && negb (hasVerticalScroll (geo s)) in
  if is_name name "pageUp" then Ret (if sideways then (plus 1 x, y) else (x, plus 1 y))
  else if is_name name "pageDown" then Ret (if sideways then (plus (-1) x, y) else (x, plus (-1) y))
  else if is_name name "end" then
    match pages s with
    | [] => Throw "this.pages[0] is undefined"
    | first :: _ => Ret (Some (zlen (pages s) - 1), Some (zlen first - 1))
    end
  else if is_name name "home" then Ret (Some 0, Some 0)
  else if is_name name "left" then Ret (plus (-1) x, y)
  else if is_name name "up" then Ret (x, plus 1 y)
  else if is_name name "right" then Ret (plus 1 x, y)
  else Ret (x, plus (-1) y).

(** Where the keys go without pages. *)
Definition key_position (name : list Z) (s : scroller A) (x y : A) : A * A :=
  let g := geo s in
  let sideways := hasHorizontalScroll g && negb (hasVerticalScroll g) in
  let faster := of_Z (to_int32 (add #5 (keyAcceleration s))) in
  if is_name name "pageUp" then if sideways then (add x (wrapperWidth g), y) else (x, add y (wrapperHeight g))
  else if is_name name "pageDown" then if sideways then (sub x (wrapperWidth g), y) else (x, sub y (wrapperHeight g))
  else if is_name name "end" then (maxScrollX g, maxScrollY g)
  else if is_name name "home" then (#0, #0)
  else if is_name name "left" then (add x faster, y)
  else if is_name name "up" then (x, add y faster)
  else if is_name name "right" then (sub x faster, y)
  else (x, sub y faster).

Definition _key (e : event A) : action unit :=
  let! s := get in
  if negb (enabled s) then se_ret tt
  else
    let newX := px s in
    let newY := py s in
    let pageX := current_x s in
    let pageY := current_y s in
    let now := getTime s in
    let prevTime := keyTime s in
    when (useTransition opt && isInTransition s)
      (let pos := getComputedPosition s in
       _translate (Math_round (fst pos)) (Math_round (snd pos)) ;!
       modify (set_isInTransition false)) ;!
    modify (set_keyAcceleration
      (if ltb (sub now prevTime) #200 then Math_min (add (keyAcceleration s) (dec 25 2)) #50 else #0)) ;!
    let! s := get in
    match key_name (e_keyCode e) with
    | None => se_ret tt
    | Some name =>
        if snaps then
          match key_pages name s pageX pageY with
          | Ret (x, y) => goToPage x y None None
          | Throw m => se_throw m
          | Undef => fun s => (Undef, s)
          end
        else
          let '(newX, newY) := key_position name s newX newY in
          let outside v low := gtb v #0 || ltb v low in
          when (outside newX (maxScrollX (geo s)) || outside newY (maxScrollY (geo s))) (modify (set_keyAcceleration #0)) ;!
          scrollTo (within newX (maxScrollX (geo s))) (within newY (maxScrollY (geo s))) #0 None ;!
          modify (set_keyTime now)
    end.

(** ** Indicators: their sizes, gestures and fading *)

(** The width or height of an indicator: as much of its wrapper as the wrapper is of what it
    scrolls, 8 at least. *)
Definition bar_size (wrapper size : A) : A :=
  Math_max (Math_round (div (mul wrapper wrapper) (or_number size (or_number wrapper #1)))) #8.

(** [speedRatio || (maxScroll && maxPos / maxScroll)] *)
Definition size_ratio (speed maxPos maxScroll : A) : A :=
  or_number speed (if nonzero maxScroll then div maxPos maxScroll else maxScroll).

Definition refresh_x (s : scroller A) (i : indicator A) : indicator A :=
  let o := i_opt i in
  let r := bar_at (the_layout (the_page s)) (i_element o) in
  let width := bar_clientWidth r in
  let w := if resize o then bar_size width (scrollerWidth (geo s)) else ind_clientWidth r in
  let maxPos := sub width w in
  let i := set_indicatorWidth (Some w) (set_i_wrapperWidth width i) in
  let i := if resize o then set_indicatorStyle (set_style (js "width") (px_text w) (indicatorStyle i)) i else i in
  set_sizeRatioX (size_ratio (speedRatioX o) maxPos (maxScrollX (geo s)))
    (set_maxBoundaryX (if clips i then sub width #8 else maxPos)
      (set_minBoundaryX (if clips i then add (neg w) #8 else #0) (set_maxPosX maxPos i))).

Definition refresh_y (s : scroller A) (i : indicator A) : indicator A :=
  let o := i_opt i in
  let r := bar_at (the_layout (the_page s)) (i_element o) in
  let height := bar_clientHeight r in
  let h := if resize o then bar_size height (scrollerHeight (geo s)) else ind_clientHeight r in
  let maxPos := sub height h in
  let i := set_indicatorHeight (Some h) (set_i_wrapperHeight height i) in
  let i := if resize o then set_indicatorStyle (set_style (js "height") (px_text h) (indicatorStyle i)) i else i in
  set_sizeRatioY (size_ratio (speedRatioY o) maxPos (maxScrollY (geo s)))
    (set_maxBoundaryY (if clips i then sub height #8 else maxPos)
      (set_minBoundaryY (if clips i then add (neg h) #8 else #0) (set_maxPosY maxPos i))).

(** The display, the class and the place of an indicator. *)
Definition refresh_look (s : scroller A) (i : indicator A) : indicator A :=
  let o := i_opt i in
  let horizontal := hasHorizontalScroll (geo s) in
  let vertical := hasVerticalScroll (geo s) in
  let shown := if listenX o && negb (listenY o) then horizontal
               else if listenY o && negb (listenX o) then vertical
               else horizontal || vertical in
  let both := horizontal && vertical in
  let add_name := if both then js "iScrollBothScrollbars" else js "iScrollLoneScrollbar" in
  let remove_name := if both then js "iScrollLoneScrollbar" else js "iScrollBothScrollbars" in
  let i := set_indicatorStyle (set_style (js "display") (if shown then js "block" else js "none") (indicatorStyle i)) i in
  let i := set_i_class (if both then removeClass (addClass (i_class i) add_name) remove_name
                        else addClass (removeClass (i_class i) remove_name) add_name) i in
  if defaultScrollbars o && customStyle o
  then set_wrapperStyle (set_style (if listenX o then js "right" else js "bottom") (if both then js "8px" else js "2px") (wrapperStyle i)) i
  else i.

Definition Indicator_refresh (i : Z) : action unit :=
  Indicator_transitionTime #0 i ;!
  let! s := get in
  in_indicator i (fun x =>
    let x := refresh_look s x in
    let x := if listenX (i_opt x) then refresh_x s x else x in
    let x := if listenY (i_opt x) then refresh_y s x else x in
    updatePosition (px s) (py s) x).

(** [fade(val, hold)] *)
Definition fade (val hold : bool) (i : Z) : action unit :=
  let! s := get in
  match nth_indicator i s with
  | None => se_ret tt
  | Some x =>
      if hold && negb (visible x) then se_ret tt
      else
        clearTimeout (fadeTimeout x) ;!
        in_indicator i (set_fadeTimeout TimerNull) ;!
        in_wrapperStyle i (property (style_transitionDuration b)) (ms_text (if val then #250 else #500)) ;!
        let! t := setTimeout (FadeTo i val) (if val then #0 else #300) in
        in_indicator i (set_fadeTimeout t)
  end.

(** The code of the timeout of [fade]. *)
Definition fade_to (i : Z) (val : bool) : action unit :=
  in_wrapperStyle i (js "opacity") (if val then js "1" else js "0") ;!
  in_indicator i (set_visible val).

Definition Indicator_start (i : Z) (e : event A) : action unit :=
  emit PreventDefault ;!
  emit StopPropagation ;!
  Indicator_transitionTime #0 i ;!
  in_indicator i (fun x => set_lastPointY (snd (e_point e)) (set_lastPointX (fst (e_point e)) (set_i_moved false (set_i_initiated true x)))) ;!
  let! s := get in
  match nth_indicator i s with
  | None => se_ret tt
  | Some x =>
      let listen type := addEvent (mkListener OnWindow type (Some i) false) in
      when (negb (i_disableTouch (i_opt x))) (listen (js "touchmove")) ;!
      when (negb (i_disablePointer (i_opt x))) (listen (prefixPointerEvent b (js "pointermove"))) ;!
      when (negb (i_disableMouse (i_opt x))) (listen (js "mousemove"))
  end ;!
  _execEvent (js "beforeScrollStart").

(** [_pos(x, y)] *)
Definition Indicator_pos (i : Z) (x y : A) : action unit :=
  let! s := get in
  match nth_indicator i s with
  | None => se_ret tt
  | Some ind =>
      let between v high := if ltb v #0 then #0 else if gtb v high then high else v in
      let x := between x (maxPosX ind) in
      let y := between y (maxPosY ind) in
      let x := if listenX (i_opt ind) then Math_round (div x (sizeRatioX ind)) else px s in
      let y := if listenY (i_opt ind) then Math_round (div y (sizeRatioY ind)) else py s in
      scrollTo x y #0 None
  end.

Definition Indicator_move (i : Z) (e : event A) : action unit :=
  let! s := get in
  match nth_indicator i s with
  | None => se_ret tt
  | Some x =>
      when (negb (i_moved x)) (_execEvent (js "scrollStart")) ;!
      in_indicator i (set_i_moved true) ;!
      let deltaX := sub (fst (e_point e)) (lastPointX x) in
      let deltaY := sub (snd (e_point e)) (lastPointY x) in
      in_indicator i (fun x => set_lastPointY (snd (e_point e)) (set_lastPointX (fst (e_point e)) x)) ;!
      let! s := get in
      match nth_indicator i s with
      | None => se_ret tt
      | Some x => Indicator_pos i (add (ix x) deltaX) (add (iy x) deltaY)
      end ;!
      emit PreventDefault ;!
      emit StopPropagation
  end.

Definition Indicator_end (i : Z) (e : event A) : action unit :=
  let! s := get in
  match nth_indicator i s with
  | None => se_ret tt
  | Some x =>
      if negb (i_initiated x) then se_ret tt
      else
        in_indicator i (set_i_initiated false) ;!
        emit PreventDefault ;!
        emit StopPropagation ;!
        let stop type := removeEvent (mkListener OnWindow type (Some i) false) in
        stop (js "touchmove") ;!
        stop (prefixPointerEvent b (js "pointermove")) ;!
        stop (js "mousemove") ;!
        when snaps
          (let! snap := _nearestSnap (px s) (py s) in
           let time := snap_time (i_snapSpeed (i_opt x)) (page_x snap) (page_y snap) s in
           when (negb (eqb (px s) (page_x snap)) || negb (eqb (py s) (page_y snap)))
             (in_gesture (set_directionX 0) ;!
              in_gesture (set_directionY 0) ;!
              modify (set_currentPage snap) ;!
              scrollTo (page_x snap) (page_y snap) time bounce_easing)) ;!
        when (i_moved x) (_execEvent (js "scrollEnd"))
  end.

Definition one_of (type : list Z) (l : list string) : bool := existsb (fun s => str_eqb (js s) type) l.

Definition is_start (t : list Z) : bool := one_of t ["touchstart"; "pointerdown"; "MSPointerDown"; "mousedown"]%string.
Definition is_move (t : list Z) : bool := one_of t ["touchmove"; "pointermove"; "MSPointerMove"; "mousemove"]%string.
Definition is_end (t : list Z) : bool :=
  one_of t ["touchend"; "pointerup"; "MSPointerUp"; "mouseup"; "touchcancel"; "pointercancel"; "MSPointerCancel"; "mousecancel"]%string.

Definition Indicator_handleEvent (i : Z) (e : event A) : action unit :=
  if is_start (e_type e) then Indicator_start i e
  else if is_move (e_type e) then Indicator_move i e
  else when (is_end (e_type e)) (Indicator_end i e).

(** ** Listeners *)

(** The listeners of [_initEvents]. *)
Definition own_listeners : list listener :=
  let on_ t type := mkListener t (js type) None false in
  let target := if bindToWrapper opt then OnWrapper else OnWindow in
  let pointer t type := mkListener t (prefixPointerEvent b (js type)) None false in
  [on_ OnWindow "orientationchange"%string; on_ OnWindow "resize"%string] ++
  (if o_click opt then [mkListener OnWrapper (js "click") None true] else []) ++
  (if negb (disableMouse opt) then
     [on_ OnWrapper "mousedown"%string; on_ target "mousemove"%string; on_ target "mousecancel"%string; on_ target "mouseup"%string] else []) ++
  (if hasPointer b && negb (disablePointer opt) then
     [pointer OnWrapper "pointerdown"%string; pointer target "pointermove"%string; pointer target "pointercancel"%string; pointer target "pointerup"%string] else []) ++
  (if hasTouch b && negb (disableTouch opt) then
     [on_ OnWrapper "touchstart"%string; on_ target "touchmove"%string; on_ target "touchcancel"%string; on_ target "touchend"%string] else []) ++
  map (on_ OnScroller) ["transitionend"; "webkitTransitionEnd"; "oTransitionEnd"; "MSTransitionEnd"]%string.

Definition _initEvents (remove : bool) : action unit := each (if remove then removeEvent else addEvent) own_listeners.

Definition wheel_listeners : list listener :=
  map (fun t => mkListener OnWrapper (js t) None false) ["wheel"; "mousewheel"; "DOMMouseScroll"]%string.

Definition _initWheel : action unit := each addEvent wheel_listeners ;! on (js "destroy") WheelDestroy.

Definition wheel_destroy : action unit :=
  let! s := get in
  clearTimeout (wheelTimeout s) ;!
  modify (set_wheelTimeout TimerNull) ;!
  each removeEvent wheel_listeners.

Definition _initSnap : action unit :=
  modify (set_currentPage None) ;!
  on (js "refresh") SnapRefresh ;!
  on (js "flick") SnapFlick.

Definition key_listener : listener := mkListener OnWindow (js "keydown") None false.

Definition _initKeys : action unit := addEvent key_listener ;! on (js "destroy") KeysDestroy.

(** ** Indicators: making and destroying *)

(** What [createDefaultScrollbar(direction, interactive, type)] makes: the class and the style
    of the scrollbar and the style of its indicator, of the class iScrollIndicator. *)
Definition createDefaultScrollbar (horizontal interactive : bool) (type : bars_option) : list Z * styles * styles :=
  let default := match type with BarsTrue => true | _ => false end in
  let css s := (js "cssText", js s) in
  let bar :=
    ((if default then js "position:absolute;z-index:9999" else []) ++
     (if default then if horizontal then js ";height:7px;left:2px;right:2px;bottom:0" else js ";width:7px;bottom:2px;top:2px;right:1px" else []) ++
     js ";overflow:hidden")%list in
  (if horizontal then js "iScrollHorizontalScrollbar" else js "iScrollVerticalScrollbar",
   (js "cssText", bar) :: (if interactive then [] else [(js "pointerEvents", js "none")]),
   if default then
     [css "-webkit-box-sizing:border-box;-moz-box-sizing:border-box;box-sizing:border-box;position:absolute;background:rgba(0,0,0,0.5);border:1px solid rgba(255,255,255,0.9);border-radius:3px"%string;
      (if horizontal then js "height" else js "width", js "100%")]
   else []).

(** The scrollbars the scroller makes, as elements. *)
Definition vertical_bar : Z := -1.
Definition horizontal_bar : Z := -2.

Definition scrollbar_options (horizontal : bool) : ind_options A :=
  mkIndOptions (if horizontal then horizontal_bar else vertical_bar) horizontal (negb horizontal)
    (interactiveScrollbars opt) (resizeScrollbars opt) true (shrinkScrollbars opt) (fadeBars opt) false
    (match scrollbars opt with BarsNamed _ => false | _ => true end) false zero zero false false false zero.

(** [new Indicator(scroller, options)] of an element with the class and the styles given, as
    the [i]-th indicator: its listeners, and its style when it fades. *)
Definition new_indicator (o : ind_options A) (cls : list Z) (wrapper_style style : styles) : indicator A :=
  mkIndicator o cls #1 #1 #0 #0 NaN NaN NaN NaN None None None None NaN NaN NaN NaN
    false false NaN NaN false TimerUndefined style wrapper_style.

Definition Indicator_new (o : ind_options A) (cls : list Z) (wrapper_style style : styles) : action unit :=
  let! s := get in
  let i := match indicators s with Some l => zlen l | None => 0 end in
  modify (fun s => set_indicators (option_map (fun l => l ++ [new_indicator o cls wrapper_style style]) (indicators s)) s) ;!
  let listen t type := addEvent (mkListener t type (Some i) false) in
  when (interactive o)
    (when (negb (i_disableTouch o)) (listen (OnIndicator i) (js "touchstart") ;! listen OnWindow (js "touchend")) ;!
     when (negb (i_disablePointer o))
       (listen (OnIndicator i) (prefixPointerEvent b (js "pointerdown")) ;! listen OnWindow (prefixPointerEvent b (js "pointerup"))) ;!
     when (negb (i_disableMouse o)) (listen (OnIndicator i) (js "mousedown") ;! listen OnWindow (js "mouseup"))) ;!
  when (fade_option o)
    (in_wrapperStyle i (property (style_transform b)) (translateZ) ;!
     match style_transitionDuration b with
     | None => se_ret tt
     | Some p =>
         in_wrapperStyle i p (if isBadAndroid b then js "0.0001ms" else js "0ms") ;!
         when (isBadAndroid b) (rAF (FixWrapper i)) ;!
         in_wrapperStyle i (js "opacity") (js "0")
     end).

Definition Indicator_destroy (i : Z) : action unit :=
  let! s := get in
  match nth_indicator i s with
  | None => se_ret tt
  | Some x =>
      let o := i_opt x in
      let stop t type := removeEvent (mkListener t type (Some i) false) in
      when (fadeScrollbars o) (clearTimeout (fadeTimeout x) ;! in_indicator i (set_fadeTimeout TimerNull)) ;!
      when (interactive o)
        (each (stop (OnIndicator i)) [js "touchstart"; prefixPointerEvent b (js "pointerdown"); js "mousedown"] ;!
         each (stop OnWindow) [js "touchmove"; prefixPointerEvent b (js "pointermove"); js "mousemove"] ;!
         each (stop OnWindow) [js "touchend"; prefixPointerEvent b (js "pointerup"); js "mouseup"]) ;!
      when (defaultScrollbars o) (emit (Detach (i_element o)))
  end.

(** The scrollbars made for the options: the vertical one first. *)
Definition default_bars : list (ind_options A * (list Z * styles * styles)) :=
  match scrollbars opt with
  | BarsNone => []
  | t =>
      map (fun h => (scrollbar_options h, createDefaultScrollbar h (interactiveScrollbars opt) t))
        ((if scrollY opt then [false] else []) ++ (if scrollX opt then [true] else []))
  end.

(** [_initIndicators]; the class and style of the elements of the page are not known and stand
    empty. *)
Definition _initIndicators : action unit :=
  modify (set_indicators (Some [])) ;!
  each (fun d => emit (Attach (i_element (fst d)))) default_bars ;!
  each (fun d => let '(o, (cls, bar_style, ind_style)) := d in Indicator_new o cls bar_style ind_style)
    (rev (default_bars ++ map (fun o => (o, ([], [], []))) (o_indicators opt))) ;!
  when (fadeBars opt)
    (on (js "scrollEnd") FadeOut ;!
     on (js "scrollCancel") FadeOut ;!
     on (js "scrollStart") FadeIn ;!
     on (js "beforeScrollStart") FadeHold) ;!
  on (js "refresh") IndicatorsRefresh ;!
  on (js "destroy") IndicatorsDestroy.

Definition indicatorsMap (f : Z -> action unit) : action unit := let! s := get in each f (indices s).

(** ** The whole *)

Definition _init : action unit :=
  _initEvents false ;!
  when (match scrollbars opt, o_indicators opt with BarsNone, [] => false | _, _ => true end) _initIndicators ;!
  when (mouseWheel opt) _initWheel ;!
  when snaps _initSnap ;!
  when (match keyBindings opt with KeysNone => false | _ => true end) _initKeys.

Definition destroy : action unit :=
  _initEvents true ;!
  let! s := get in
  clearTimeout (resizeTimeout s) ;!
  modify (set_resizeTimeout TimerNull) ;!
  _execEvent (js "destroy").

(** The end of the constructor, after the options. *)
Definition construct : action unit :=
  _init ;!
  refresh ;!
  scrollTo (o_startX opt) (o_startY opt) #0 None ;!
  enable.

Definition handleEvent (e : event A) : action unit :=
  let t := e_type e in
  if is_start t then _start e
  else if is_move t then _move e
  else if is_end t then _end e
  else if one_of t ["orientationchange"; "resize"]%string then _resize
  else if one_of t ["transitionend"; "webkitTransitionEnd"; "oTransitionEnd"; "MSTransitionEnd"]%string then _transitionEnd e
  else if one_of t ["wheel"; "DOMMouseScroll"; "mousewheel"]%string then _wheel e
  else if one_of t ["keydown"]%string then _key e
  else if one_of t ["click"]%string then
    let! s := get in
    when (enabled s && negb (e_constructed e)) (emit PreventDefault ;! emit StopPropagation)
  else se_ret tt.

End Handlers.

(** ** The options *)

(** The options before the page sets its own. *)
Definition default_options : options A :=
  {| resizeScrollbars := true; mouseWheelSpeed := #20; snapThreshold := (dec 334 3); disablePointer := (negb (hasPointer b));
     disableTouch := (hasPointer b || negb (hasTouch b)); disableMouse := (hasPointer b || hasTouch b); o_startX := #0; o_startY := #0;
     scrollX := false; scrollY := true; directionLockThreshold := #5; o_momentum := true; o_bounce := true; bounceTime := #600;
     bounceEasing := (EaseName []); preventDefault := true; o_preventDefaultException := default_exceptions; HWCompositing := true;
     useTransition := true; useTransform := true; bindToWrapper := (negb (b_onmousedown b)); eventPassthrough := PassNone; freeScroll := false;
     resizePolling := None; o_tap := TapNone; o_click := false; shrinkScrollbars := ShrinkNone; fadeBars := false; interactiveScrollbars := false;
     scrollbars := BarsNone; o_indicators := []; mouseWheel := false; invertWheelDirection := zero; snap := SnapNone; snapStepX := zero;
     snapStepY := zero; snapSpeed := zero; deceleration := None; keyBindings := KeysNone |}.

(** The options as the constructor leaves them, for the ones [o] that the page has completed;
    the elements of a selector are those of the layout [l]. *)
Definition normalize (l : layout A) (o : options A) : options A :=
  let pass := match eventPassthrough o with PassTrue => PassVertical | p => p end in
  let passes := match pass with PassNone => false | _ => true end in
  let scale := match shrinkScrollbars o with ShrinkScale => true | _ => false end in
  let easing := match bounceEasing o with
    | EaseName n => match ease n with Some e => e | None => circular end
    | EaseObject e => e
    end in
  {| resizeScrollbars := resizeScrollbars o; mouseWheelSpeed := mouseWheelSpeed o; snapThreshold := snapThreshold o;
     disablePointer := disablePointer o; disableTouch := disableTouch o; disableMouse := disableMouse o; o_startX := o_startX o;
     o_startY := o_startY o; scrollX := negb (is_pass pass PassHorizontal) && scrollX o; scrollY := negb (is_pass pass PassVertical) && scrollY o;
     directionLockThreshold := if passes then #0 else directionLockThreshold o; o_momentum := o_momentum o; o_bounce := o_bounce o;
     bounceTime := bounceTime o; bounceEasing := EaseObject easing; preventDefault := negb passes && preventDefault o;
     o_preventDefaultException := o_preventDefaultException o; HWCompositing := HWCompositing o;
     useTransition := hasTransition b && useTransition o && negb scale; useTransform := hasTransform b && useTransform o;
     bindToWrapper := bindToWrapper o; eventPassthrough := pass; freeScroll := freeScroll o && negb passes;
     resizePolling := Some (match resizePolling o with Some d => d | None => #60 end);
     o_tap := match o_tap o with TapTrue => TapName (js "tap") | t => t end; o_click := o_click o; shrinkScrollbars := shrinkScrollbars o;
     fadeBars := fadeBars o; interactiveScrollbars := interactiveScrollbars o; scrollbars := scrollbars o; o_indicators := o_indicators o;
     mouseWheel := mouseWheel o; invertWheelDirection := if nonzero (invertWheelDirection o) then #(-1) else #1;
     snap := match snap o with SnapSelector q => SnapElements (query_all l q) | t => t end; snapStepX := snapStepX o; snapStepY := snapStepY o;
     snapSpeed := snapSpeed o; deceleration := deceleration o; keyBindings := keyBindings o |}.

(** The style of the scroller, which must be positioned to move without transforms. *)
Definition positioned (o : options A) (style : styles) : styles :=
  let r := alternatives (map js ["relative"; "absolute"]%string) in
  if negb (hasTransition b && useTransition o) && negb (hasTransform b && useTransform o) &&
     negb (test_ignoring_case r (get_style (js "position") style))
  then set_style (js "position") (js "relative") style else style.

(** ** Running *)

Section Run.

(** The listeners of the page. *)
Variable user : Z -> action unit.

(** A listener, with the depth to which the listeners may raise events. *)
Fixpoint handle (depth : nat) (h : handler) : action unit :=
  match depth with
  | O => fun s => (Undef, s)
  | S depth =>
      match h with
      | FadeOut => indicatorsMap (fade false false)
      | FadeIn => indicatorsMap (fade true false)
      | FadeHold => indicatorsMap (fade true true)
      | IndicatorsRefresh => indicatorsMap Indicator_refresh
      | IndicatorsDestroy => indicatorsMap Indicator_destroy ;! modify (set_indicators None)
      | WheelDestroy => wheel_destroy
      | SnapRefresh => snap_refresh (handle depth)
      | SnapFlick => snap_flick (handle depth)
      | KeysDestroy => removeEvent key_listener
      | User k => user k
      end
  end.

Definition event_depth : nat := 3.

Definition listener_code : handler -> action unit := handle event_depth.

(** The calls of the page. *)
Inductive call : Type :=
| CallOn (type : list Z) (k : Z) | CallOff (type : list Z) (k : Z)
| CallScrollTo (x y time : A) (easing : option (easing A))
| CallScrollBy (x y time : A) (easing : option (easing A))
| CallScrollToElement (i : Z) (time : option A) (offsetX offsetY : offset_option) (easing : option (easing A))
| CallGoToPage (x y : Z) (time : option A) (easing : option (easing A))
| CallNext (time : option A) (easing : option (easing A)) | CallPrev (time : option A) (easing : option (easing A))
| CallRefresh | CallReset (time : A) | CallEnable | CallDisable | CallDestroy.

(** What happens: an event of the page for the scroller or an indicator, time passing, a timeout
    or the requested frames, a new layout, a new computed style, a call. *)
Inductive happening : Type :=
| Event (e : event A)
| IndicatorEvent (i : Z) (e : event A)
| Advance (d : A)
| Timeout (i : Z)
| Frames
| NewLayout (l : layout A)
| NewComputed (c : computed)
| Call (c : call).

Definition run_frame (f : frame A) : action unit :=
  let fix_ (p : list Z) (read : scroller A -> list Z) (write : list Z -> action unit) :=
    let! s := get in when (str_eqb (read s) (js "0.0001ms")) (write (js "0s")) in
  let p := property (style_transitionDuration b) in
  let of_indicator g i s := match nth_indicator i s with Some x => get_style p (g x) | None => [] end in
  match f with
  | Step a => step listener_code (scrollTo listener_code) a
  | FixScroller => fix_ p (fun s => get_style p (scrollerStyle s)) (in_style p)
  | FixIndicator i => fix_ p (of_indicator indicatorStyle i) (in_indicatorStyle i p)
  | FixWrapper i => fix_ p (of_indicator wrapperStyle i) (in_wrapperStyle i p)
  end.

Definition run_job (j : job) : action unit :=
  match j with
  | RefreshLater => refresh listener_code
  | WheelEnd => wheel_end listener_code
  | FadeTo i v => fade_to i v
  end.

Definition run_call (c : call) : action unit :=
  match c with
  | CallOn type k => on type (User k)
  | CallOff type k => off type (User k)
  | CallScrollTo x y time easing => scrollTo listener_code x y time easing
  | CallScrollBy x y time easing => scrollBy listener_code x y time easing
  | CallScrollToElement i time ox oy easing => scrollToElement listener_code i time ox oy easing
  | CallGoToPage x y time easing => goToPage listener_code (Some x) (Some y) time easing
  | CallNext time easing => next listener_code time easing
  | CallPrev time easing => prev listener_code time easing
  | CallRefresh => refresh listener_code
  | CallReset time => resetPosition listener_code time ;! se_ret tt
  | CallEnable => enable
  | CallDisable => disable
  | CallDestroy => destroy listener_code
  end.

(** A timeout that is due is taken from the pending ones and runs. *)
Definition run_timeout (i : Z) : action unit :=
  let! s := get in
  let w := the_page s in
  match find (fun x => fst (fst x) =? i) (timeouts w) with
  | Some (_, due, j) => when (geb (now w) due) (clearTimeout (TimerId i) ;! run_job j)
  | None => se_ret tt
  end.

(** The frames that were requested run, whatever the others throw; the ones they request are
    for the next time. *)
Definition run_frames : action unit :=
  let! s := get in
  in_page (set_frames []) ;!
  fun s' => (Ret tt, fold_left (fun s f => snd (run_frame f s)) (frames (the_page s)) s').

Definition happen (h : happening) : action unit :=
  match h with
  | Event e => handleEvent listener_code e
  | IndicatorEvent i e => Indicator_handleEvent listener_code i e
  | Advance d => in_page (fun w => set_now (add (now w) d) w)
  | Timeout i => run_timeout i
  | Frames => run_frames
  | NewLayout l => in_page (set_the_layout l)
  | NewComputed c => in_page (set_the_computed c)
  | Call c => run_call c
  end.

(** An exception ends the handler; the page goes on with what it has changed. *)
Definition after (s : scroller A) (h : happening) : scroller A := snd (happen h s).

Definition run (hs : list happening) (s : scroller A) : scroller A := fold_left after hs s.

(** A page, and the fields of a scroller before the constructor sets them. *)
Definition new_world (now : A) (l : layout A) : world A := mkWorld now l (mkComputed [] [] []) [] [] 0 [] [].

Definition new_gesture : gesture A := mkGesture None false NaN NaN 0 0 Unlocked NaN NaN NaN NaN NaN NaN NaN NaN.

Definition new_scroller (style : styles) (w : world A) : scroller A :=
  mkScroller (mkGeometry NaN NaN NaN NaN NaN NaN false false (NaN, NaN)) new_gesture #0 #0 false false style
    None [] NaN NaN TimerUndefined TimerUndefined #0 NaN false [] None w.

Definition start (style : styles) (w : world A) : scroller A := snd (construct listener_code (new_scroller style w)).

End Run.

End Browser.

End IScroll.

End IScroll.
