(* ===== verification/ScrollTheory.v ===== *)
(** * The scroller keeps its bounds (iScroll)

    Theorems on ScrollUtils.v and IScroll.v: where momentum ends, that a scroller that does
    not bounce stays inside its bounds whatever happens.  Positions are rational numbers here:
    the statements hold for what the code computes without rounding. *)

From Stdlib Require Import String ZArith Lia Lqa List Bool QArith Qround Qabs.
From S2P Require Import Prelude Hoare Js Num Value Regex ScrollUtils ScrollState IScroll.
Import ListNotations.
#[local] Open Scope Z_scope.
#[local] Open Scope se_scope.
Import Utils ScrollState IScroll.

(** ** Rational numbers *)

Definition Q_trunc (x : Q) : Z := Z.quot (Qnum x) (Zpos (Qden x)).

#[export] Instance Num_Q : Num Q := {
  add := Qplus; sub := Qminus; mul := Qmult; div := Qdiv;
  rem x y := Qminus x (Qmult y (inject_Z (Q_trunc (Qdiv x y))));
  of_Z := inject_Z; dec m k := Qdiv (inject_Z m) (inject_Z (10 ^ k));
  ltb x y := negb (Qle_bool y x); eqb x y := Qeq_bool x y;
  trunc := Q_trunc; floor := Qfloor
}.

Lemma Q_ltb x y : ltb x y = true <-> (x < y)%Q.
Proof.
  cbn. rewrite negb_true_iff. split.
  - intros H. apply Qnot_le_lt. intros K. apply Qle_bool_iff in K. congruence.
  - intros H. apply not_true_iff_false. intros K. apply Qle_bool_iff in K. apply Qlt_not_le in H. contradiction.
Qed.

Lemma Q_ltb_false x y : ltb x y = false <-> (y <= x)%Q.
Proof.
  split.
  - intros H. apply Qnot_lt_le. intros K. apply Q_ltb in K. congruence.
  - intros H. apply not_true_iff_false. intros K. apply Q_ltb in K. apply Qlt_not_le in K. contradiction.
Qed.

Lemma Q_eqb x y : eqb x y = true <-> (x == y)%Q.
Proof. apply Qeq_bool_iff. Qed.

Lemma Q_eqb_false x y : eqb x y = false <-> ~ (x == y)%Q.
Proof. rewrite <- Q_eqb. symmetry. apply not_true_iff_false. Qed.

(** Case analysis on the first condition of the goal. *)
Ltac qcase :=
  unfold gtb in *;
  match goal with
  | |- context [if ?c then _ else _] =>
      let E := fresh "E" in destruct c eqn:E;
      match type of E with
      | ltb _ _ = true => apply Q_ltb in E
      | ltb _ _ = false => apply Q_ltb_false in E
      | eqb _ _ = true => apply Q_eqb in E
      | eqb _ _ = false => apply Q_eqb_false in E
      | _ => idtac
      end
  end.

(** The operations of the class are those of [Q]. *)
Ltac qops := change (@add Q Num_Q) with Qplus in *; change (@sub Q Num_Q) with Qminus in *; change (@mul Q Num_Q) with Qmult in *;
  change (@div Q Num_Q) with Qdiv in *; change (@of_Z Q Num_Q) with inject_Z in *.

(** The literals as rational numbers. *)
Ltac qliterals :=
  repeat match goal with
  | |- context [inject_Z 0] => change (inject_Z 0) with 0%Q
  | H : context [inject_Z 0] |- _ => change (inject_Z 0) with 0%Q in H
  | |- context [inject_Z (Zpos ?p)] => change (inject_Z (Zpos p)) with (Qmake (Zpos p) 1)
  | H : context [inject_Z (Zpos ?p)] |- _ => change (inject_Z (Zpos p)) with (Qmake (Zpos p) 1) in H
  | |- context [inject_Z (Zneg ?p)] => change (inject_Z (Zneg p)) with (Qmake (Zneg p) 1)
  | H : context [inject_Z (Zneg ?p)] |- _ => change (inject_Z (Zneg p)) with (Qmake (Zneg p) 1) in H
  end.

(** [lra] on numbers of the class. *)
Ltac qlra := unfold neg, zero in *; qops; qliterals; lra.

(** Between a lower bound and 0. *)
Definition in_bounds (low v : Q) : Prop := (low <= v <= 0)%Q.

Lemma within_in_bounds low v : (low <= 0)%Q -> in_bounds low (within v low).
Proof. intros H. unfold within, in_bounds. qcase; [qlra|]. qcase; qlra. Qed.

Lemma round_integer (z : Z) : Math_round (inject_Z z) = inject_Z z.
Proof.
  unfold Math_round. qcase; [|exfalso; apply E; qlra].
  cbn [floor Num_Q]. rewrite Qfloor_Z. qcase; [reflexivity|]. exfalso.
  change (dec 5 1) with (Qmake 5 10) in E0. qlra.
Qed.

Lemma round_spec (x : Q) : exists z, Math_round x = inject_Z z /\ (x - 0.5 < inject_Z z <= x + 0.5)%Q.
Proof.
  unfold Math_round. qcase; [|exfalso; apply E; qlra]. cbn [floor Num_Q].
  pose proof (Qfloor_le x). pose proof (Qlt_floor x). rewrite inject_Z_plus in H0.
  exists (if ltb (sub x (of_Z (Qfloor x))) (dec 5 1) then Qfloor x else Qfloor x + 1). split; [reflexivity|].
  change (dec 5 1) with (Qmake 5 10). qcase; [|rewrite inject_Z_plus]; qlra.
Qed.

(** Rounding stays between integers. *)
Lemma round_in_bounds (z : Z) x : in_bounds (inject_Z z) x -> in_bounds (inject_Z z) (Math_round x).
Proof.
  intros [H K]. destruct (round_spec x) as (r & -> & R1 & R2). unfold in_bounds.
  assert (z <= r < 1); [|split; [rewrite <- Zle_Qle; lia|change 0%Q with (inject_Z 0); rewrite <- Zle_Qle; lia]].
  split.
  - assert (z < r + 1); [|lia]. rewrite Zlt_Qlt, inject_Z_plus. qlra.
  - rewrite Zlt_Qlt. qlra.
Qed.

(** ** Code that returns *)

Section Returns.

Context {A : Type}.

Lemma returns_modify (f : scroller A -> scroller A) : returns (modify f).
Proof. intros s. exists tt, (f s). reflexivity. Qed.

Lemma returns_get {T} (k : scroller A -> SE (scroller A) T) : (forall s, returns (k s)) -> returns (let! s := get in k s).
Proof. intros H s. apply (H s s). Qed.

Lemma returns_when c (a : SE (scroller A) unit) : returns a -> returns (when c a).
Proof. intros H. destruct c; [exact H|apply returns_ret]. Qed.

Lemma returns_each {X} (f : X -> SE (scroller A) unit) l : (forall x, returns (f x)) -> returns (each f l).
Proof. intros H. induction l as [|x l IH]; cbn [each]; [apply returns_ret|]. apply returns_bind; [apply H|intros _; exact IH]. Qed.

Lemma keeps_reading {T} (I : scroller A -> Prop) (k : scroller A -> SE (scroller A) T) :
  (forall s0, I s0 -> keeps I (k s0)) -> keeps I (let! s := get in k s).
Proof. intros H s Hs. apply (H s Hs s Hs). Qed.

Lemma keeps_all {X} (I : scroller A -> Prop) (f : X -> SE (scroller A) unit) l : (forall x, keeps I (f x)) -> keeps I (each f l).
Proof. intros H. induction l as [|x l IH]; cbn [each]; [apply keeps_ret|]. apply keeps_bind; [apply H|intros _; exact IH]. Qed.

End Returns.

(** Takes code apart along its text. *)
Ltac rets := repeat (cbv zeta;
  lazymatch goal with
  | |- returns (se_bind get _) => apply returns_get; intros ?
  | |- returns (se_bind _ _) => apply returns_bind; [|intros ?]
  | |- returns (when _ _) => apply returns_when
  | |- returns (each _ _) => apply returns_each; intros ?
  | |- returns (if ?c then _ else _) => destruct c
  | |- returns (match ?x with _ => _ end) => destruct x
  | |- returns (se_ret _) => apply returns_ret
  | |- returns _ => apply returns_modify
  end).

(** ** Momentum *)

Section Theory.

Context {M : Maths Q}.

Lemma Q_abs (x : Q) : (Math_abs x == Qabs x)%Q.
Proof.
  unfold Math_abs. qcase; unfold neg, zero in *; qops; qliterals.
  - rewrite Qabs_neg by lra. lra.
  - rewrite Qabs_pos by lra. lra.
Qed.

Lemma abs_nonneg (x : Q) : (0 <= Math_abs x)%Q.
Proof. rewrite Q_abs. apply Qabs_nonneg. Qed.

Lemma nonzero_Q (x : Q) : nonzero x = true <-> ~ (x == 0)%Q.
Proof.
  unfold nonzero, truthy, isNaN. cbn [eqb Num_Q of_Z]. rewrite (proj2 (Qeq_bool_iff x x)) by reflexivity. cbn.
  rewrite andb_true_r, negb_true_iff, <- not_true_iff_false, Qeq_bool_iff. reflexivity.
Qed.

Lemma nonzero_false_Q (x : Q) : nonzero x = false <-> (x == 0)%Q.
Proof. rewrite <- not_true_iff_false, nonzero_Q. destruct (Qeq_dec x 0); tauto. Qed.

(** Without room to bounce, momentum ends inside the bounds. *)
Lemma momentum_in_bounds current start time (z : Z) (d : option Q) :
  (inject_Z z <= 0)%Q -> in_bounds (inject_Z z) (fst (momentum current start time (inject_Z z) #0 d)).
Proof.
  intros Hz. unfold momentum. set (destination := add current _).
  replace (nonzero #0) with false by reflexivity. clearbody destination.
  qcase; [cbn [fst]; apply round_in_bounds; unfold in_bounds; qlra|].
  qcase; cbn [fst]; apply round_in_bounds; unfold in_bounds; qlra.
Qed.

Lemma Qdiv_nonneg x y : (0 <= x)%Q -> (0 <= y)%Q -> (0 <= x / y)%Q.
Proof. intros H K. apply Qmult_le_0_compat; [exact H|apply Qinv_le_0_compat, K]. Qed.

(** The place a body comes to rest at that has the speed of the gesture and loses it evenly. *)
Definition coasting (current start time a : Q) : Q :=
  let speed := (Qabs (current - start) / time)%Q in
  (current + speed * speed / (2 * a) * (if ltb (current - start)%Q 0%Q then -1 else 1))%Q.

(** C13: Where momentum ends.  For a gesture that took time and a positive deceleration, in a scroller whose bounds are [low] (an integer) and 0: if the place where
    the body comes to rest under even deceleration lies inside the bounds, the destination is that place up to rounding and the duration
    the time that takes; without bouncing the destination never lies outside; with it, it lies outside by no more than the share of
    the wrapper that the speed allows, up to rounding; and the duration is never negative. *)
Theorem momentum_destination (current start time size : Q) (low : Z) (deceleration : option Q) :
  (0 < time)%Q -> (0 <= size)%Q -> (inject_Z low <= 0)%Q ->
  let a := match deceleration with Some d => d | None => Qmake 6 10000 end in
  (0 < a)%Q ->
  let '(destination, duration) := momentum current start time (inject_Z low) size deceleration in
  let speed := (Qabs (current - start) / time)%Q in
  let out := (size / 2.5 * (speed / 8))%Q in
  let rest := coasting current start time a in
  ((inject_Z low <= rest <= 0)%Q -> (rest - 0.5 < destination <= rest + 0.5)%Q /\ (duration == speed / a)%Q) /\
  ((size == 0)%Q -> (inject_Z low <= destination <= 0)%Q) /\
  (inject_Z low - out - 0.5 < destination <= out + 0.5)%Q /\
  (0 <= duration)%Q.
Proof.
  intros Ht Hsize Hlow a Ha. unfold momentum. cbv zeta.
  set (sp := div (Math_abs (sub current start)) time). set (speed := (Qabs (current - start) / time)%Q).
  set (d0 := add current _). set (out0 := mul (div size (dec 25 1)) (div sp #8)).
  set (out := (size / 2.5 * (speed / 8))%Q). set (rest := coasting current start time a).
  assert (Es : (sp == speed)%Q) by (unfold sp, speed; qops; rewrite Q_abs; reflexivity).
  assert (Ps : (0 <= speed)%Q) by (apply Qdiv_nonneg; [apply Qabs_nonneg|lra]).
  assert (Er : (d0 == rest)%Q).
  { unfold d0, rest, coasting. fold speed. change (match deceleration with Some d => d | None => dec 6 4 end) with a.
    qops. qliterals. rewrite Es. destruct (ltb _ _); reflexivity. }
  assert (Eo : (out0 == out)%Q) by (unfold out0, out; change (dec 25 1) with 2.5%Q; qops; qliterals; rewrite Es; reflexivity).
  assert (Po : (0 <= out)%Q) by (apply Qmult_le_0_compat; apply Qdiv_nonneg; lra).
  assert (Pa : (0 <= speed / a)%Q) by (apply Qdiv_nonneg; lra).
  clearbody d0 out0 speed out rest.
  assert (Pd : forall x, (0 <= div (Math_abs x) sp)%Q) by (intros x; apply Qdiv_nonneg; [apply abs_nonneg|lra]).
  assert (Pd' : forall x y, (0 <= y)%Q -> (0 <= div (add (Math_abs x) y) sp)%Q).
  { intros x y K. pose proof (abs_nonneg x). apply Qdiv_nonneg; qops; lra. }
  assert (Pt : (div sp a == speed / a)%Q) by (qops; rewrite Es; reflexivity).
  clearbody sp. destruct (ltb d0 (inject_Z low)) eqn:E1; [apply Q_ltb in E1|apply Q_ltb_false in E1; destruct (gtb d0 #0) eqn:E3].
  - destruct (nonzero size) eqn:E2; [apply nonzero_Q in E2|rewrite round_integer]; [destruct (round_spec (sub (inject_Z low) out0)) as (r & -> & R)|];
      qops; (split; [intros K; exfalso; lra|split; [intros K; first [contradiction | lra]|split; [lra|apply Pd]]]).
  - apply Q_ltb in E3. qops. qliterals.
    destruct (nonzero size) eqn:E2; [apply nonzero_Q in E2; destruct (round_spec out0) as (r & -> & R)|change (Math_round 0%Q) with 0%Q];
      (split; [intros K; exfalso; lra|split; [intros K; first [contradiction | lra]|split; [lra|apply Pd'; lra]]]).
  - apply Q_ltb_false in E3. qops. qliterals. pose proof (round_in_bounds low d0 (conj E1 E3)) as B. destruct (round_spec d0) as (r & Er' & R).
    rewrite Er' in *. split; [intros _; split; [lra|exact Pt]|split; [intros _; exact B|split; [lra|apply (Qle_trans _ (speed / a)); [exact Pa|rewrite <- Pt; apply Qle_refl]]]].
Qed.

(** ** The bounds of a scroller *)

Section Bounds.

Variable b : browser.
Variable opt : options Q.
Variable user : Z -> SE (scroller Q) unit.
Variable lay : layout Q.

(** The geometry that the layout has. *)
Definition geom : geometry Q := measured opt lay.
Definition in_x (v : Q) : Prop := in_bounds (maxScrollX geom) v.
Definition in_y (v : Q) : Prop := in_bounds (maxScrollY geom) v.

(** An easing function that does not overshoot. *)
Definition smooth (f : Q -> Q) : Prop := forall k, (0 <= k < 1)%Q -> (0 <= f k <= 1)%Q.
Definition easing_ok (e : option (easing Q)) : Prop := match e with Some e => smooth (ease_fn e) | None => True end.

Definition cell_ok (c : option (cell Q)) : Prop := match c with Some c => in_x (cell_x c) /\ in_y (cell_y c) | None => True end.
Definition page_ok (p : option (page Q)) : Prop := match p with Some p => in_x (pg_x p) /\ in_y (pg_y p) | None => True end.
Definition frame_ok (now : Q) (f : frame Q) : Prop :=
  match f with
  | Step a => (in_x (destX a) /\ in_y (destY a)) /\ (in_x (a_startX a) /\ in_y (a_startY a)) /\
      smooth (easingFn a) /\ (a_startTime a <= now)%Q /\ (destTime a == a_startTime a + duration a)%Q
  | _ => True
  end.
Definition computed_ok (c : computed) : Prop :=
  forall s : scroller Q, the_computed (the_page s) = c -> in_x (fst (getComputedPosition opt s)) /\ in_y (snd (getComputedPosition opt s)).

(** What stays true of a scroller at a time, from its first measure on. *)
Record ok_at (t : Q) (measured : bool) (s : scroller Q) : Prop := {
  ok_now : now (the_page s) = t;
  ok_layout : the_layout (the_page s) = lay;
  ok_geo : measured = true -> geo s = geom;
  ok_x : in_x (px s);
  ok_y : in_y (py s);
  ok_pages : Forall (Forall cell_ok) (pages s);
  ok_current : page_ok (currentPage s);
  ok_computed : computed_ok (the_computed (the_page s));
  ok_frames : Forall (frame_ok t) (frames (the_page s))
}.

(** The options: no bounce, an easing that does not overshoot, pages that are not elements; and
    sizes that are integers, as the browser gives them. *)
Hypothesis no_bounce : o_bounce opt = false.
Hypothesis bounce_easing_ok : easing_ok (bounce_easing opt).
Hypothesis no_elements : match snap opt with SnapElements _ => False | _ => True end.
Hypothesis sizes : exists w h sw sh, clientWidth lay = inject_Z w /\ clientHeight lay = inject_Z h /\
  scroller_width lay = inject_Z sw /\ scroller_height lay = inject_Z sh.
Hypothesis steps : (0 <= or_number (snapStepX opt) (wrapperWidth geom))%Q /\ (0 <= or_number (snapStepY opt) (wrapperHeight geom))%Q.
Hypothesis sqrt_ok : forall v, (0 <= v <= 1)%Q -> (0 <= Math_sqrt v <= 1)%Q.

Lemma inject_minus x y : (inject_Z x - inject_Z y)%Q = inject_Z (x - y).
Proof. unfold Qminus, Qplus, Qopp, inject_Z. cbn. f_equal. lia. Qed.

(** The lower bound of an axis. *)
Lemma axis_bound (c : bool) (w sw : Z) :
  exists z, (if c && ltb (sub (inject_Z w) (inject_Z sw)) #0 then sub (inject_Z w) (inject_Z sw) else #0) = inject_Z z /\ (inject_Z z <= 0)%Q.
Proof.
  destruct c; cbn [andb]; [|exists 0; split; [reflexivity|qlra]]. qcase; [|exists 0; split; [reflexivity|qlra]].
  exists (w - sw). rewrite <- inject_minus. split; [reflexivity|qlra].
Qed.

Lemma geom_x : exists z, maxScrollX geom = inject_Z z /\ (inject_Z z <= 0)%Q.
Proof. destruct sizes as (w & h & sw & sh & Ew & Eh & Esw & Esh). unfold geom, measured. cbn [maxScrollX]. rewrite Ew, Esw. apply axis_bound. Qed.

Lemma geom_y : exists z, maxScrollY geom = inject_Z z /\ (inject_Z z <= 0)%Q.
Proof. destruct sizes as (w & h & sw & sh & Ew & Eh & Esw & Esh). unfold geom, measured. cbn [maxScrollY]. rewrite Eh, Esh. apply axis_bound. Qed.

Lemma geom_x_le : (maxScrollX geom <= 0)%Q.
Proof. destruct geom_x as (z & E & H). rewrite E. exact H. Qed.

Lemma geom_y_le : (maxScrollY geom <= 0)%Q.
Proof. destruct geom_y as (z & E & H). rewrite E. exact H. Qed.

(** Positions the code computes. *)

Lemma zero_in_x : in_x #0.
Proof. destruct geom_x as (z & E & H). unfold in_x, in_bounds. rewrite E. qops. qliterals. lra. Qed.

Lemma zero_in_y : in_y #0.
Proof. destruct geom_y as (z & E & H). unfold in_y, in_bounds. rewrite E. qops. qliterals. lra. Qed.

Lemma within_in_x v : in_x (within v (maxScrollX geom)).
Proof. apply within_in_bounds, geom_x_le. Qed.

Lemma within_in_y v : in_y (within v (maxScrollY geom)).
Proof. apply within_in_bounds, geom_y_le. Qed.

Lemma round_in_x v : in_x v -> in_x (Math_round v).
Proof. destruct geom_x as (z & E & H). unfold in_x. rewrite E. apply round_in_bounds. Qed.

Lemma round_in_y v : in_y v -> in_y (Math_round v).
Proof. destruct geom_y as (z & E & H). unfold in_y. rewrite E. apply round_in_bounds. Qed.

Lemma max_in_bounds low v : (low <= 0)%Q -> (v <= 0)%Q -> in_bounds low (Math_max v low).
Proof.
  intros H K. unfold Math_max, isNaN. cbn [eqb Num_Q]. rewrite !(proj2 (Qeq_bool_iff _ _)) by reflexivity. cbn [negb orb].
  unfold in_bounds. qcase; qlra.
Qed.

Lemma dragged_in_bounds p d low : (low <= 0)%Q -> in_bounds low (dragged opt p d low).
Proof.
  intros H. unfold dragged, in_bounds. rewrite no_bounce. unfold gtb.
  destruct (ltb #0 (add p d)) eqn:E1; cbn [orb]; [qlra|]. apply Q_ltb_false in E1. qcase; qlra.
Qed.

Lemma dragged_in_x p d : in_x (dragged opt p d (maxScrollX geom)).
Proof. apply dragged_in_bounds, geom_x_le. Qed.

Lemma dragged_in_y p d : in_y (dragged opt p d (maxScrollY geom)).
Proof. apply dragged_in_bounds, geom_y_le. Qed.

Lemma carried_in_x has current start duration size new : in_x new -> in_x (fst (carried opt has current start duration (maxScrollX geom) size new)).
Proof.
  intros H. unfold carried. rewrite no_bounce. destruct has; [|exact H]. destruct geom_x as (z & E & K). unfold in_x. rewrite E.
  apply momentum_in_bounds, K.
Qed.

Lemma carried_in_y has current start duration size new : in_y new -> in_y (fst (carried opt has current start duration (maxScrollY geom) size new)).
Proof.
  intros H. unfold carried. rewrite no_bounce. destruct has; [|exact H]. destruct geom_y as (z & E & K). unfold in_y. rewrite E.
  apply momentum_in_bounds, K.
Qed.

(** A position between two positions inside. *)
Lemma between_in_bounds low p q k : in_bounds low p -> in_bounds low q -> (0 <= k <= 1)%Q -> in_bounds low (add (mul (sub q p) k) p).
Proof. unfold in_bounds. intros [A1 A2] [B1 B2] [C1 C2]. qops. split; nra. Qed.

Lemma rest_in_x s : geo s = geom -> in_x (rest_x s).
Proof.
  intros E. unfold rest_x. rewrite E. pose proof zero_in_x as Z0. destruct (negb _); cbn [orb]; [exact Z0|]. unfold gtb.
  destruct (ltb #0 (px s)) eqn:E1; [exact Z0|]. apply Q_ltb_false in E1. unfold in_x, in_bounds in *. qcase; qlra.
Qed.

Lemma rest_in_y s : geo s = geom -> in_y (rest_y s).
Proof.
  intros E. unfold rest_y. rewrite E. pose proof zero_in_y as Z0. destruct (negb _); cbn [orb]; [exact Z0|]. unfold gtb.
  destruct (ltb #0 (py s)) eqn:E1; [exact Z0|]. apply Q_ltb_false in E1. unfold in_y, in_bounds in *. qcase; qlra.
Qed.

Arguments ok_now {_ _ _} _.
Arguments ok_geo {_ _ _} _ _.
Arguments ok_x {_ _ _} _.
Arguments ok_y {_ _ _} _.
Arguments ok_pages {_ _ _} _.
Arguments ok_current {_ _ _} _.
Arguments ok_computed {_ _ _} _.
Arguments ok_frames {_ _ _} _.

Section At.

Variable t : Q.
Variable is_measured : bool.

#[local] Notation ok := (ok_at t is_measured).

(** ** Code that moves nothing *)

Lemma ok_gesture s v : ok s -> ok (set_gest v s).
Proof. intros []. constructor; assumption. Qed.

Lemma keeps_gesture f : keeps ok (in_gesture f).
Proof. intros s H. apply ok_gesture, H. Qed.

Lemma keeps_set (f : scroller Q -> scroller Q) : (forall s, ok s -> ok (f s)) -> keeps ok (modify f).
Proof. intros H s Hs. apply H, Hs. Qed.

Lemma keeps_get {T} (k : scroller Q -> SE (scroller Q) T) : (forall s0, ok s0 -> keeps ok (k s0)) -> keeps ok (let! s := get in k s).
Proof. apply keeps_reading. Qed.

Lemma keeps_when c a : keeps ok a -> keeps ok (when c a).
Proof. intros H. destruct c; [exact H|apply keeps_ret]. Qed.

Lemma keeps_each {X} (f : X -> SE (scroller Q) unit) l : (forall x, keeps ok (f x)) -> keeps ok (each f l).
Proof. apply keeps_all. Qed.

Lemma keeps_page f :
  (forall w, now (f w) = now w /\ the_layout (f w) = the_layout w /\ the_computed (f w) = the_computed w /\
             (Forall (frame_ok t) (frames w) -> Forall (frame_ok t) (frames (f w)))) ->
  keeps ok (in_page f).
Proof.
  intros H s [H0 H1 H2 H3 H4 H5 H6 H7 H8]. destruct (H (the_page s)) as (E0 & E1 & E2 & E3).
  constructor; cbn; [rewrite E0|rewrite E1|..|rewrite E2|]; auto.
Qed.

Lemma keeps_style p v : keeps ok (in_style p v).
Proof. apply keeps_set. intros s []. constructor; assumption. Qed.

Lemma keeps_emit e : keeps ok (emit e).
Proof. apply keeps_page. intros w. cbn. auto. Qed.

Lemma keeps_rAF f : frame_ok t f -> keeps ok (rAF f).
Proof. intros H. apply keeps_page. intros w. cbn. repeat split. intros F. apply Forall_app. split; [exact F|constructor; [exact H|constructor]]. Qed.

Lemma keeps_clearTimeout i : keeps ok (clearTimeout i).
Proof. destruct i; try apply keeps_ret. apply keeps_page. intros w. cbn. auto. Qed.

Lemma keeps_setTimeout j d : keeps ok (setTimeout j d).
Proof. apply keeps_get. intros s0 H0. apply keeps_bind; [apply keeps_page; intros w; cbn; auto|intros; apply keeps_ret]. Qed.

Lemma keeps_addEvent l : keeps ok (addEvent l).
Proof. apply keeps_page. intros w. cbv beta. destruct (existsb _ _); cbn; auto. Qed.

Lemma keeps_removeEvent l : keeps ok (removeEvent l).
Proof. apply keeps_page. intros w. cbn. auto. Qed.

Lemma keeps_indicator i f : keeps ok (in_indicator i f).
Proof. apply keeps_set. intros s []. constructor; assumption. Qed.

Lemma keeps_indicatorStyle i p v : keeps ok (in_indicatorStyle i p v).
Proof. apply keeps_indicator. Qed.

Lemma keeps_wrapperStyle i p v : keeps ok (in_wrapperStyle i p v).
Proof. apply keeps_indicator. Qed.

Lemma keeps_on type h : keeps ok (on type h).
Proof. apply keeps_set. intros s []. constructor; assumption. Qed.

Lemma keeps_off type h : keeps ok (off type h).
Proof. apply keeps_set. intros s []. destruct (handlers_of _ _); constructor; assumption. Qed.

Hint Resolve keeps_gesture keeps_style keeps_emit keeps_clearTimeout keeps_setTimeout keeps_addEvent keeps_removeEvent
  keeps_indicator keeps_indicatorStyle keeps_wrapperStyle keeps_on keeps_off : keeps.

(** Takes code apart along its text. *)
Ltac keep_step :=
  lazymatch goal with
  | |- keeps _ (se_bind get _) => apply keeps_get; intros ? ?
  | |- keeps _ (se_bind _ _) => apply keeps_bind; [|intros ?]
  | |- keeps _ (if _ then _ else _) => apply keeps_if
  | |- keeps _ (match ?x with _ => _ end) => destruct x eqn:?
  | |- keeps _ (when _ _) => apply keeps_when
  | |- keeps _ (each _ _) => apply keeps_each; intros ?
  | |- keeps _ (rAF _) => apply keeps_rAF; try exact I
  | |- keeps _ (modify _) => first [assumption | apply keeps_set; solve [intros ? []; constructor; assumption]]
  | |- keeps _ _ => solve [auto with keeps nocore]
  end.
Ltac keep := repeat (cbv zeta; keep_step).

Lemma keeps_Indicator_transitionTime time i : keeps ok (Indicator_transitionTime b time i).
Proof. unfold Indicator_transitionTime. keep. Qed.

Lemma keeps_Indicator_transitionTimingFunction e i : keeps ok (Indicator_transitionTimingFunction b e i).
Proof. unfold Indicator_transitionTimingFunction. keep. Qed.

Hint Resolve keeps_Indicator_transitionTime keeps_Indicator_transitionTimingFunction : keeps.

Lemma keeps_transitionTime time : keeps ok (_transitionTime b opt time).
Proof. unfold _transitionTime. keep. Qed.

Lemma keeps_transitionTimingFunction e : keeps ok (_transitionTimingFunction b e).
Proof. unfold _transitionTimingFunction. keep. Qed.

Hint Resolve keeps_transitionTime keeps_transitionTimingFunction : keeps.

Lemma keeps_set_px v : in_x v -> keeps ok (modify (set_px v)).
Proof. intros Hv. apply keeps_set. intros s []. constructor; assumption. Qed.

Lemma keeps_set_py v : in_y v -> keeps ok (modify (set_py v)).
Proof. intros Hv. apply keeps_set. intros s []. constructor; assumption. Qed.

Lemma keeps_translate x y : in_x x -> in_y y -> keeps ok (_translate b opt x y).
Proof.
  intros Hx Hy. unfold _translate. cbv zeta.
  apply keeps_bind; [keep|intros _].
  apply keeps_bind; [apply keeps_set_px; destruct (useTransform opt); [exact Hx|apply round_in_x, Hx]|intros _].
  apply keeps_bind; [apply keeps_set_py; destruct (useTransform opt); [exact Hy|apply round_in_y, Hy]|intros _].
  keep.
Qed.

Section Handlers.

Hypothesis done : is_measured = true.

Variable handle : handler -> SE (scroller Q) unit.
Hypothesis handle_keeps : forall h, keeps ok (handle h).

Lemma keeps_exec_from type n i : keeps ok (exec_from handle type n i).
Proof. revert i. induction n as [|n IH]; intros i; cbn [exec_from]; keep; auto. Qed.

Lemma keeps_execEvent type : keeps ok (_execEvent handle type).
Proof. unfold _execEvent. keep. apply keeps_exec_from. Qed.

Hint Resolve keeps_execEvent : keeps.

Section Reset.

Variable scrollTo' : Q -> Q -> Q -> option (easing Q) -> SE (scroller Q) unit.
Hypothesis scrollTo_keeps : forall x y time e, in_x x -> in_y y -> easing_ok e -> keeps ok (scrollTo' x y time e).

Lemma keeps_resetPosition_by time : keeps ok (resetPosition_by opt scrollTo' time).
Proof.
  unfold resetPosition_by. keep. apply scrollTo_keeps; [apply rest_in_x; eapply ok_geo; [eassumption|exact done]|apply rest_in_y; eapply ok_geo; [eassumption|exact done]|exact bounce_easing_ok].
Qed.

(** How far an animation has come. *)
Lemma progress now start duration dest : (start <= now)%Q -> (dest == start + duration)%Q -> geb now dest = false ->
  (0 <= (now - start) / duration < 1)%Q.
Proof.
  intros H E G. unfold geb, leb in G. apply orb_false_iff in G as [G1 G2]. apply Q_ltb_false in G1. apply Q_eqb_false in G2.
  assert (K : (now < dest)%Q) by (apply Qnot_le_lt; intros K; apply G2; lra).
  assert (D : (0 < duration)%Q) by lra. split.
  - apply Qle_shift_div_l; lra.
  - apply Qlt_shift_div_r; lra.
Qed.

Lemma keeps_step a : frame_ok t (Step a) -> keeps ok (step b opt handle scrollTo' a).
Proof.
  intros Ha. pose proof Ha as ((Dx & Dy) & (Sx & Sy) & Sm & T & D). unfold step. apply keeps_get. intros s0 H0. cbv zeta.
  destruct (geb (getTime s0) (destTime a)) eqn:E.
  - keep; [apply keeps_translate; assumption|apply keeps_resetPosition_by].
  - unfold getTime in E. rewrite (ok_now H0) in E. pose proof (Sm _ (progress _ _ _ _ T D E)) as P.
    apply keeps_bind; [|intros _; keep; exact Ha].
    unfold getTime. rewrite (ok_now H0). apply keeps_translate; apply between_in_bounds; assumption.
Qed.

Lemma keeps_animate x y duration f : in_x x -> in_y y -> smooth f -> keeps ok (_animate b opt handle scrollTo' x y duration f).
Proof.
  intros Hx Hy Hf. unfold _animate. apply keeps_get. intros s0 H0. cbv zeta. apply keeps_bind; [keep|intros _].
  apply keeps_step. cbn. unfold getTime. rewrite (ok_now H0). pose proof (ok_x H0). pose proof (ok_y H0).
  split; [split; assumption|]. split; [split; assumption|]. split; [exact Hf|]. split; [apply Qle_refl|reflexivity].
Qed.

End Reset.

Lemma circular_smooth : smooth (ease_fn circular).
Proof. intros k H. cbn [ease_fn circular]. cbv zeta. apply sqrt_ok. qops. qliterals. split; nra. Qed.

Lemma quadratic_smooth : smooth (ease_fn quadratic).
Proof. intros k H. cbn [ease_fn quadratic]. qops. qliterals. split; nra. Qed.

Lemma keeps_scrollTo_fuel n x y time e : in_x x -> in_y y -> easing_ok e -> keeps ok (scrollTo_fuel b opt handle n x y time e).
Proof.
  revert x y time e. induction n as [|n IH]; intros x y time e Hx Hy He; cbn [scrollTo_fuel]; [apply keeps_undef|]. cbv zeta.
  apply keeps_bind; [keep|intros _]. apply keeps_if.
  - apply keeps_bind; [keep|intros _]. apply keeps_translate; assumption.
  - apply keeps_animate; [exact IH|exact Hx|exact Hy|]. destruct e; [exact He|exact circular_smooth].
Qed.

Lemma keeps_scrollTo x y time e : in_x x -> in_y y -> easing_ok e -> keeps ok (scrollTo b opt handle x y time e).
Proof. apply keeps_scrollTo_fuel. Qed.

Lemma keeps_resetPosition time : keeps ok (resetPosition b opt handle time).
Proof. apply keeps_resetPosition_by, keeps_scrollTo. Qed.

Hint Resolve keeps_resetPosition : keeps.

Lemma keeps_scrollToElement i time ox oy e : easing_ok e -> keeps ok (scrollToElement b opt handle i time ox oy e).
Proof.
  intros He. unfold scrollToElement. apply keeps_get. intros s0 H0. cbv zeta. apply keeps_scrollTo; [| |exact He].
  - rewrite (ok_geo H0 done). apply within_in_x.
  - rewrite (ok_geo H0 done). apply within_in_y.
Qed.

Lemma keeps_refresh : keeps ok (refresh b opt handle).
Proof.
  unfold refresh. apply keeps_bind; [|intros _; keep]. apply keeps_set. intros s []. constructor; try assumption. cbn.
  rewrite ok_layout0. reflexivity.
Qed.

(** ** Pages *)

Lemma cells_found x y ps c : Forall (Forall cell_ok) ps -> cell_at x y ps = Some c -> in_x (cell_x c) /\ in_y (cell_y c).
Proof.
  intros F. unfold cell_at. destruct (_ || _); [discriminate|]. destruct (nth_error ps _) as [column|] eqn:E; [|discriminate].
  destruct (nth_error column _) as [d|] eqn:E2; [|discriminate]. intros ->.
  rewrite Forall_forall in F. specialize (F column (nth_error_In _ _ E)). rewrite Forall_forall in F. apply (F _ (nth_error_In _ _ E2)).
Qed.

Lemma keeps_goToPage x y time e : easing_ok e -> keeps ok (goToPage b opt handle x y time e).
Proof.
  intros He. unfold goToPage. cbv zeta. apply keeps_get. intros s0 H0.
  destruct x as [x|]; [|apply keeps_throw]. destruct (if _ <? 0 then None else _) as [column|] eqn:E; [|apply keeps_throw].
  destruct y as [y|]; [|apply keeps_throw]. destruct (cell_at _ _ _) as [c|] eqn:Ec; [|apply keeps_throw].
  destruct (cells_found _ _ _ _ (ok_pages H0) Ec) as [Cx Cy].
  apply keeps_bind; [apply keeps_set; intros s []; constructor; try assumption; split; assumption|intros _].
  apply keeps_scrollTo; [exact Cx|exact Cy|]. destruct e; [exact He|exact bounce_easing_ok].
Qed.

Lemma keeps_next time e : easing_ok e -> keeps ok (next b opt handle time e).
Proof.
  intros He. unfold next. apply keeps_get. intros s0 H0. cbv zeta.
  destruct (option_map _ _); [apply keeps_if|]; apply keeps_goToPage, He.
Qed.

Lemma keeps_prev time e : easing_ok e -> keeps ok (prev b opt handle time e).
Proof.
  intros He. unfold prev. apply keeps_get. intros s0 H0. cbv zeta.
  destruct (option_map (Z.add (-1)) (current_x s0)); [apply keeps_if|]; apply keeps_goToPage, He.
Qed.

(** The cells of a table lie inside. *)
Lemma page_column_ok n x cx y cy stepX stepY column : (x <= 0)%Q -> (y <= 0)%Q -> (0 <= stepY)%Q ->
  page_column n geom x cx y cy stepX stepY = Some column -> Forall cell_ok column.
Proof.
  intros Hx Hy Hs. revert y column Hy. induction n as [|n IH]; intros y column Hy E; [discriminate|]. cbn [page_column] in E.
  destruct (gtb y _); [|injection E as <-; constructor].
  destruct (page_column n geom x cx (sub y stepY) cy stepX stepY) as [rest|] eqn:R; [|discriminate]. injection E as <-.
  assert (Hy' : (sub y stepY <= 0)%Q) by qlra. constructor; [|apply (IH _ _ Hy' R)].
  split; [exact (max_in_bounds (maxScrollX geom) x geom_x_le Hx)|exact (max_in_bounds (maxScrollY geom) y geom_y_le Hy)].
Qed.

Lemma page_table_ok n x cx cy stepX stepY table : (x <= 0)%Q -> (0 <= stepX)%Q -> (0 <= stepY)%Q ->
  page_table n geom x cx cy stepX stepY = Some table -> Forall (Forall cell_ok) table.
Proof.
  intros Hx Hs Hs'. revert x table Hx. induction n as [|n IH]; intros x table Hx E; [discriminate|]. cbn [page_table] in E.
  destruct (gtb x _); [|injection E as <-; constructor].
  destruct (page_column _ geom x cx #0 cy stepX stepY) as [column|] eqn:C; [|discriminate].
  destruct (page_table n geom (sub x stepX) cx cy stepX stepY) as [rest|] eqn:R; [|discriminate]. injection E as <-.
  assert (Hx' : (sub x stepX <= 0)%Q) by qlra. constructor; [|apply (IH _ _ Hx' R)].
  apply (page_column_ok _ _ _ _ _ _ _ _ Hx (Qle_refl 0) Hs' C).
Qed.

Lemma table_of_pages_ok s table : ok s -> table_of_pages opt s = Some table -> Forall (Forall cell_ok) table.
Proof.
  intros H E. unfold table_of_pages in E. rewrite (ok_geo H done) in E. destruct steps as [SX SY].
  destruct (snap opt); [..|contradiction|]; apply (page_table_ok _ _ _ _ _ _ _ (Qle_refl 0) SX SY E).
Qed.

Lemma keeps_snap_refresh : keeps ok (snap_refresh b opt handle).
Proof.
  unfold snap_refresh. apply keeps_bind; [apply keeps_set; intros s []; constructor; try assumption; constructor|intros _].
  apply keeps_get. intros s0 H0. cbv zeta. apply keeps_if; [apply keeps_ret|].
  destruct (table_of_pages opt s0) as [table|] eqn:E; [|apply keeps_undef].
  apply keeps_bind; [apply keeps_set; intros s []; constructor; try assumption; apply (table_of_pages_ok _ _ H0 E)|intros _].
  apply keeps_bind; [apply keeps_goToPage; exact I|intros _]. keep.
Qed.

Lemma keeps_snap_flick : keeps ok (snap_flick b opt handle).
Proof. unfold snap_flick. apply keeps_get. intros s0 H0. cbv zeta. apply keeps_goToPage. exact I. Qed.

Lemma first_reached_ok (center position : cell Q -> Q) (P : Q -> Prop) v l i j w :
  P v -> Forall (fun c => match c with Some c => P (position c) | None => True end) l ->
  first_reached center position v l i = Some (j, w) -> P w.
Proof.
  intros Hv F. revert i. induction F as [|c l Hc F IH]; intros i E; cbn [first_reached] in E; [injection E as <- <-; exact Hv|].
  destruct c as [c|]; [|discriminate]. destruct (geb v (center c)); [injection E as <- <-; exact Hc|apply (IH _ E)].
Qed.

(** The cells of a column and a row, seen on one axis. *)
Lemma heads_ok ps : Forall (Forall cell_ok) ps ->
  Forall (fun c => match c with Some c => in_x (cell_x c) | None => True end) (map (fun c => match c with c :: _ => c | [] => None end) ps).
Proof.
  intros F. apply Forall_forall. intros c I. apply in_map_iff in I as (column & <- & J).
  rewrite Forall_forall in F. specialize (F _ J). destruct column as [|[c|] column]; [exact I| |exact I]. apply Forall_inv in F. apply F.
Qed.

Lemma row_ok ps l : Forall (Forall cell_ok) ps ->
  Forall (fun c => match c with Some c => in_y (cell_y c) | None => True end) (map (fun m => cell_at 0 (Z.of_nat m) ps) l).
Proof.
  intros F. apply Forall_forall. intros c I. apply in_map_iff in I as (m & E & _).
  destruct c as [c|]; [|exact I]. apply (cells_found _ _ _ _ F E).
Qed.

Lemma gives_nearestSnap x y : gives ok (_nearestSnap x y) page_ok.
Proof.
  intros s H. unfold _nearestSnap. unfold se_bind at 1. cbn [get]. cbv zeta. pose proof (ok_pages H) as F.
  destruct (pages s) as [|first rest] eqn:E; [cbn; split; [exact H|split; [apply zero_in_x|apply zero_in_y]]|].
  rewrite <- E in *. destruct (_ && _); [cbn; split; [exact H|apply (ok_current H)]|].
  rewrite (ok_geo H done).
  destruct (first_reached cell_cx _ _ _ _) as [[i x']|] eqn:Ex; [|exact H].
  destruct (nth_error _ _) as [column|]; [|exact H].
  destruct (first_reached cell_cy _ _ _ _) as [[m y']|] eqn:Ey; [|exact H].
  pose proof (first_reached_ok _ _ _ _ _ _ _ _ (within_in_x x) (heads_ok _ F) Ex) as Px.
  pose proof (first_reached_ok _ _ _ _ _ _ _ _ (within_in_y y) (row_ok _ _ F) Ey) as Py.
  destruct (match current_x s with Some c => c =? i | None => false end).
  - destruct (cell_at _ 0 _) as [c|] eqn:C; [|exact H]. pose proof (proj1 (cells_found _ _ _ _ F C)) as Cx.
    destruct (match current_y s with Some c => c =? m | None => false end).
    + destruct (cell_at 0 _ _) as [d|] eqn:D; [|exact H]. pose proof (proj2 (cells_found _ _ _ _ F D)) as Dy.
      split; [exact H|split; assumption].
    + split; [exact H|split; assumption].
  - destruct (match current_y s with Some c => c =? m | None => false end).
    + destruct (cell_at 0 _ _) as [d|] eqn:D; [|exact H]. pose proof (proj2 (cells_found _ _ _ _ F D)) as Dy.
      split; [exact H|split; assumption].
    + split; [exact H|split; assumption].
Qed.

(** ** Gestures, the wheel and the keys *)

Hint Resolve keeps_execEvent : keeps.

Lemma keeps_transitionEnd e : keeps ok (_transitionEnd b opt handle e).
Proof. unfold _transitionEnd. keep. Qed.

Lemma keeps_computed s0 : ok s0 -> keeps ok (_translate b opt (Math_round (fst (getComputedPosition opt s0))) (Math_round (snd (getComputedPosition opt s0)))).
Proof. intros H. destruct (ok_computed H s0 eq_refl) as [Cx Cy]. apply keeps_translate; [apply round_in_x, Cx|apply round_in_y, Cy]. Qed.

Hint Resolve keeps_computed : keeps.

Lemma keeps_start e : keeps ok (_start b opt handle e).
Proof. unfold _start. keep. Qed.

Lemma keeps_move e : keeps ok (_move b opt handle e).
Proof.
  unfold _move. apply keeps_get. intros s0 H0. cbv zeta. apply keeps_if; [keep|].
  do 5 (apply keeps_bind; [keep|intros _]). apply keeps_if; [keep|]. apply keeps_bind; [keep|intros _].
  apply keeps_get. intros s1 H1. cbv zeta. apply keeps_bind; [keep|intros _]. apply keeps_if; [keep|].
  do 4 (apply keeps_bind; [keep|intros _]). apply keeps_bind; [|intros _; keep].
  rewrite (ok_geo H1 done). apply keeps_translate; [apply dragged_in_x|apply dragged_in_y].
Qed.

Lemma keeps_end_scroll newX newY duration : in_x newX -> in_y newY -> keeps ok (end_scroll b opt handle newX newY duration).
Proof.
  intros Hx Hy. unfold end_scroll. apply keeps_get. intros s0 H0. cbv zeta. rewrite (ok_geo H0 done).
  apply keeps_bind; [keep|intros _].
  set (mx := fst (carried _ _ _ _ _ (maxScrollX _) _ _)). set (my := fst (carried _ _ _ _ _ (maxScrollY _) _ _)).
  assert (Mx : in_x mx) by apply carried_in_x, Hx. assert (My : in_y my) by apply carried_in_y, Hy. clearbody mx my.
  set (momentum := o_momentum opt && ltb duration #300).
  set (x' := if momentum then mx else newX). set (y' := if momentum then my else newY).
  assert (X' : in_x x') by (unfold x'; destruct momentum; assumption). assert (Y' : in_y y') by (unfold y'; destruct momentum; assumption).
  clearbody x' y'.
  apply (gives_bind _ _ (fun r : Q * Q * Q * option (easing Q) => let '(x, y, _, e) := r in in_x x /\ in_y y /\ easing_ok e)).
  - apply gives_if; intros _; [|apply gives_ret; repeat split; try apply X'; apply Y'].
    apply (gives_seq _ _ page_ok); [apply gives_nearestSnap|]. intros p Hp.
    apply gives_after; [apply keeps_set; intros s []; constructor; assumption|intros _].
    apply gives_after; [keep|intros _]. apply gives_after; [keep|intros _]. apply gives_ret. 
    destruct p as [p|]; cbn in Hp |- *; [split; [apply Hp|split; [apply Hp|exact bounce_easing_ok]]|].
    split; [apply zero_in_x|split; [apply zero_in_y|exact bounce_easing_ok]].
  - intros [[[x y] time] e] (Rx & Ry & Re). apply keeps_get. intros s1 H1. apply keeps_if; [|keep].
    apply keeps_scrollTo; [exact Rx|exact Ry|]. destruct (_ || _); [exact quadratic_smooth|exact Re].
Qed.

Lemma keeps_end e : keeps ok (_end b opt handle e).
Proof.
  unfold _end. apply keeps_get. intros s0 H0. cbv zeta. apply keeps_if; [keep|].
  pose proof (round_in_x _ (ok_x H0)) as Rx. pose proof (round_in_y _ (ok_y H0)) as Ry.
  do 5 (apply keeps_bind; [keep|intros ?]). apply keeps_if; [keep|].
  apply keeps_bind; [apply keeps_scrollTo; [exact Rx|exact Ry|exact I]|intros _]. apply keeps_get. intros s1 H1.
  apply keeps_if; [keep|]. apply keeps_if; [keep|]. apply keeps_end_scroll; assumption.
Qed.

Lemma keeps_resize : keeps ok (_resize opt).
Proof. unfold _resize. keep. Qed.

Lemma keeps_wheel e : keeps ok (_wheel b opt handle e).
Proof.
  unfold _wheel. apply keeps_get. intros s0 H0. apply keeps_if; [keep|].
  do 2 (apply keeps_bind; [keep|intros _]). apply keeps_get. intros s1 H1. do 3 (apply keeps_bind; [keep|intros ?]).
  destruct (wheel_deltas opt (e_wheel e)) as [[dx dy]|]; [|keep]. apply keeps_get. intros s2 H2. cbv zeta.
  apply keeps_if; [apply keeps_goToPage; exact I|]. do 2 (apply keeps_bind; [keep|intros _]).
  rewrite (ok_geo H2 done). apply keeps_scrollTo; [apply within_in_x|apply within_in_y|exact I].
Qed.

Lemma keeps_key e : keeps ok (_key b opt handle e).
Proof.
  unfold _key. apply keeps_get. intros s0 H0. apply keeps_if; [keep|]. do 2 (apply keeps_bind; [keep|intros _]).
  apply keeps_get. intros s1 H1. destruct (key_name _ _) as [name|]; [|keep]. apply keeps_if.
  - destruct (key_pages _ _ _ _) as [[x y]| |]; [apply keeps_goToPage; exact I|apply keeps_throw|apply keeps_undef].
  - destruct (key_position _ _ _ _) as [x y]. cbv zeta. apply keeps_bind; [keep|intros _].
    apply keeps_bind; [|intros _; keep]. rewrite (ok_geo H1 done). apply keeps_scrollTo; [apply within_in_x|apply within_in_y|exact I].
Qed.

Hint Resolve keeps_start keeps_move keeps_end keeps_resize keeps_transitionEnd keeps_wheel keeps_key : keeps.

Lemma keeps_handleEvent e : keeps ok (handleEvent b opt handle e).
Proof. unfold handleEvent. keep. Qed.

Lemma keeps_fade val hold i : keeps ok (fade b val hold i).
Proof. unfold fade. keep. Qed.

Lemma keeps_indicatorsMap f : (forall i, keeps ok (f i)) -> keeps ok (indicatorsMap f).
Proof. intros H. unfold indicatorsMap. keep. Qed.

Lemma keeps_Indicator_refresh i : keeps ok (Indicator_refresh b opt i).
Proof. unfold Indicator_refresh. keep. Qed.

Lemma keeps_Indicator_destroy i : keeps ok (Indicator_destroy b i).
Proof. unfold Indicator_destroy. keep. Qed.

Lemma keeps_destroy : keeps ok (destroy b opt handle).
Proof. unfold destroy, _initEvents. keep. Qed.

End Handlers.

(** ** The constructor *)

Lemma keeps_Indicator_new o c w s : keeps ok (Indicator_new b opt o c w s).
Proof. unfold Indicator_new. keep. Qed.

Lemma keeps_init : keeps ok (_init b opt).
Proof.
  unfold _init, _initEvents, _initIndicators, _initWheel, _initSnap, _initKeys. keep.
  - apply keeps_Indicator_new.
  - apply keeps_set. intros s []. constructor; try assumption. exact I.
Qed.

End At.

Arguments keeps_handleEvent {t is_measured}.

(** ** What happens *)

(** The listeners of the page look, but move nothing. *)
Definition still (s s' : scroller Q) : Prop :=
  geo s' = geo s /\ px s' = px s /\ py s' = py s /\ pages s' = pages s /\ currentPage s' = currentPage s /\
  the_layout (the_page s') = the_layout (the_page s) /\ the_computed (the_page s') = the_computed (the_page s) /\
  now (the_page s') = now (the_page s) /\ frames (the_page s') = frames (the_page s).

Hypothesis listeners_still : forall k s, still s (snd (user k s)).

Lemma still_ok t m s s' : still s s' -> ok_at t m s -> ok_at t m s'.
Proof.
  intros (E1 & E2 & E3 & E4 & E5 & E6 & E7 & E8 & E9) []. constructor; rewrite ?E1, ?E2, ?E3, ?E4, ?E5, ?E6, ?E7, ?E8, ?E9; assumption.
Qed.

Lemma keeps_handle t n h : keeps (ok_at t true) (handle b opt user n h).
Proof.
  revert h. induction n as [|n IH]; intros h; cbn [handle]; [apply keeps_undef|].
  destruct h; try (apply keeps_indicatorsMap; intros i).
  1-3: apply keeps_fade.
  - apply keeps_Indicator_refresh.
  - apply keeps_bind; [apply keeps_indicatorsMap; intros i; apply keeps_Indicator_destroy|intros _].
    apply keeps_set. intros s []. constructor; assumption.
  - unfold wheel_destroy. apply keeps_get. intros s0 H0. apply keeps_bind; [apply keeps_clearTimeout|intros _].
    apply keeps_bind; [apply keeps_set; intros s []; constructor; assumption|intros _]. apply keeps_each. intros x. apply keeps_removeEvent.
  - apply keeps_snap_refresh; auto.
  - apply keeps_snap_flick; auto.
  - apply keeps_removeEvent.
  - intros s H. apply (still_ok _ _ s); [apply listeners_still|exact H].
Qed.

(** A call that does not ask to go outside. *)
Definition call_ok (c : call) : Prop :=
  match c with
  | CallScrollTo x y _ e => in_x x /\ in_y y /\ easing_ok e
  | CallScrollBy _ _ _ _ => False
  | CallScrollToElement _ _ _ _ e | CallGoToPage _ _ _ e | CallNext _ e | CallPrev _ e => easing_ok e
  | _ => True
  end.

(** What may happen: no change of the layout and no dragging of indicators; time goes on, and has
    gone on when a gesture ends; where the browser has moved the scroller to is inside. *)
Inductive allowed (s : scroller Q) : happening -> Prop :=
| allow_event e : (is_end (e_type e) = true -> (startTime (gest s) < now (the_page s))%Q) -> allowed s (Event e)
| allow_advance d : (0 <= d)%Q -> allowed s (Advance d)
| allow_timeout i : allowed s (Timeout i)
| allow_frames : allowed s Frames
| allow_computed c : computed_ok c -> allowed s (NewComputed c)
| allow_call c : call_ok c -> allowed s (Call c).

Inductive reachable : scroller Q -> Prop :=
| reach_start style t : reachable (start b opt user style (new_world t lay))
| reach_step s h : reachable s -> allowed s h -> reachable (after b opt user s h).

Lemma keeps_listener t h : keeps (ok_at t true) (listener_code b opt user h).
Proof. apply keeps_handle. Qed.

Lemma keeps_run_frame t f : frame_ok t f -> keeps (ok_at t true) (run_frame b opt user f).
Proof.
  intros Hf. destruct f; cbn [run_frame]; cbv zeta.
  - apply keeps_step; [reflexivity|apply keeps_listener|apply keeps_scrollTo; [reflexivity|apply keeps_listener]|exact Hf].
  - apply keeps_get. intros s0 H0. apply keeps_when, keeps_style.
  - apply keeps_get. intros s0 H0. apply keeps_when, keeps_indicatorStyle.
  - apply keeps_get. intros s0 H0. apply keeps_when, keeps_wrapperStyle.
Qed.

Lemma keeps_run_frames t : keeps (ok_at t true) (run_frames b opt user).
Proof.
  unfold run_frames. apply keeps_get. intros s0 H0. apply keeps_bind; [apply keeps_page; intros w; cbn; auto|intros _].
  intros s Hs. cbn [snd]. revert s Hs. generalize (ok_frames H0). induction (frames (the_page s0)) as [|f l IH]; intros F s Hs; [exact Hs|].
  cbn [fold_left]. inversion F; subst. apply IH; [assumption|]. apply keeps_run_frame; assumption.
Qed.

Lemma keeps_run_job t j : keeps (ok_at t true) (run_job b opt user j).
Proof.
  pose proof (keeps_listener t) as L. destruct j; cbn [run_job].
  - apply keeps_refresh; auto.
  - unfold wheel_end. apply keeps_bind; [apply keeps_when, keeps_execEvent, L|intros _]. apply keeps_set. intros s []. constructor; assumption.
  - unfold fade_to. apply keeps_bind; [apply keeps_wrapperStyle|intros _; apply keeps_indicator].
Qed.

Lemma keeps_run_timeout t i : keeps (ok_at t true) (run_timeout b opt user i).
Proof.
  unfold run_timeout. apply keeps_get. intros s0 H0. cbv zeta. destruct (find _ _) as [[[n due] j]|]; [|apply keeps_ret].
  apply keeps_when, keeps_bind; [apply keeps_clearTimeout|intros _; apply keeps_run_job].
Qed.

Lemma keeps_run_call t c : call_ok c -> keeps (ok_at t true) (run_call b opt user c).
Proof.
  intros Hc. pose proof (keeps_listener t) as L. destruct c; cbn [run_call call_ok] in *.
  - apply keeps_on.
  - apply keeps_off.
  - apply keeps_scrollTo; auto; apply Hc.
  - contradiction.
  - apply keeps_scrollToElement; auto.
  - apply keeps_goToPage; auto.
  - apply keeps_next; auto.
  - apply keeps_prev; auto.
  - apply keeps_refresh; auto.
  - apply keeps_bind; [apply keeps_resetPosition; auto|intros _; apply keeps_ret].
  - apply keeps_set. intros s []. constructor; assumption.
  - apply keeps_set. intros s []. constructor; assumption.
  - apply keeps_destroy; auto.
Qed.

(** Time goes on. *)
Lemma ok_advance t d s : (0 <= d)%Q -> ok_at t true s -> ok_at (t + d)%Q true (after b opt user s (Advance d)).
Proof.
  intros Hd []. constructor; try assumption; cbn; [rewrite ok_now0; reflexivity|].
  eapply Forall_impl; [|exact ok_frames0]. intros f Hf. destruct f; [|exact I..]. cbn in *.
  destruct Hf as (A & B & C & D & E). split; [exact A|]. split; [exact B|]. split; [exact C|]. split; [lra|exact E].
Qed.

(** ** The start *)

Hypothesis start_inside : in_x (o_startX opt) /\ in_y (o_startY opt).

Lemma returns_init : returns (_init b opt).
Proof. unfold _init, _initEvents, _initIndicators, _initWheel, _initSnap, _initKeys, Indicator_new. rets. Qed.

Lemma new_ok style t : ok_at t false (new_scroller style (new_world t lay)).
Proof.
  constructor; try reflexivity; try (constructor; fail); try exact I.
  - discriminate.
  - exact zero_in_x.
  - exact zero_in_y.
  - intros s E. unfold getComputedPosition. rewrite E. cbn [c_transform c_left c_top]. destruct (useTransform opt).
    + split; [exact zero_in_x|exact zero_in_y].
    + split; [exact zero_in_x|exact zero_in_y].
Qed.

(** [refresh] measures the scroller. *)
Lemma refresh_measures t h s : (forall x, keeps (ok_at t true) (h x)) -> ok_at t false s -> ok_at t true (snd (refresh b opt h s)).
Proof.
  intros Hh H. unfold refresh. unfold se_bind at 1. cbn [modify].
  assert (K : ok_at t true (set_geo (measured opt (the_layout (the_page s))) s)).
  { destruct H as [N L G X Y P C CO F]. constructor; try assumption. intros _. cbn. rewrite L. reflexivity. }
  revert K. generalize (set_geo (measured opt (the_layout (the_page s))) s). change (keeps (ok_at t true)
    (in_gesture (set_endTime #0) ;! in_gesture (set_directionX 0) ;! in_gesture (set_directionY 0) ;! _execEvent h (js "refresh") ;!
     resetPosition b opt h #0 ;! se_ret tt)).
  do 3 (apply keeps_bind; [apply keeps_gesture|intros _]). apply keeps_bind; [apply keeps_execEvent, Hh|intros _].
  apply keeps_bind; [apply keeps_resetPosition; auto|intros _]. apply keeps_ret.
Qed.

Lemma start_ok style t : ok_at t true (start b opt user style (new_world t lay)).
Proof.
  unfold start, construct.
  pose proof (keeps_init t false _ (new_ok style t)) as K. destruct (returns_init (new_scroller style (new_world t lay))) as (a & s' & E).
  unfold se_bind at 1. rewrite E in *. cbn [snd] in K.
  apply establish; [apply refresh_measures; [apply keeps_listener|exact K]|intros _].
  apply keeps_bind; [|intros _; apply keeps_set; intros s []; constructor; assumption].
  apply keeps_scrollTo; [reflexivity|apply keeps_listener|apply start_inside|apply start_inside|exact I].
Qed.

Lemma ok_after t s h : ok_at t true s -> allowed s h -> exists t', ok_at t' true (after b opt user s h).
Proof.
  intros H HA. destruct HA as [e He|d Hd|i| |c Hc|c Hc].
  - exists t. apply keeps_handleEvent; [reflexivity|apply keeps_listener|exact H].
  - exists (t + d)%Q. apply ok_advance; assumption.
  - exists t. apply keeps_run_timeout, H.
  - exists t. apply keeps_run_frames, H.
  - exists t. destruct H. constructor; assumption.
  - exists t. apply keeps_run_call; assumption.
Qed.

End Bounds.

Arguments ok_geo {_ _ _ _ _} _ _.
Arguments ok_x {_ _ _ _ _} _.
Arguments ok_y {_ _ _ _ _} _.

(** The options and the layout of a scroller that does not bounce: the easing does not
    overshoot, pages are no elements, sizes are integers, and it starts inside. *)
Record tame (opt : options Q) (lay : layout Q) : Prop := {
  tame_bounce : o_bounce opt = false;
  tame_easing : easing_ok (bounce_easing opt);
  tame_snap : match snap opt with SnapElements _ => False | _ => True end;
  tame_sizes : exists w h sw sh, clientWidth lay = inject_Z w /\ clientHeight lay = inject_Z h /\
    scroller_width lay = inject_Z sw /\ scroller_height lay = inject_Z sh;
  tame_steps : (0 <= or_number (snapStepX opt) (clientWidth lay))%Q /\ (0 <= or_number (snapStepY opt) (clientHeight lay))%Q;
  tame_start : in_x opt lay (o_startX opt) /\ in_y opt lay (o_startY opt)
}.

(** C2: A scroller that does not bounce stays inside its bounds.  Assumed are: bounce is off, startX and startY are inside,
    snapStepX and snapStepY not negative, and snap is not by elements; neither the bounce easing nor the easings given in calls
    overshoot, and [Math.sqrt] keeps 0 to 1; the sizes of wrapper and scroller are integers; and the listeners of the page move
    nothing.  Then after any sequence of pointer, wheel and key events, frames, ends of transitions, timeouts, passing of time
    and calls of methods the position, computed without rounding, lies between the lower bound of the layout and 0 on both axes.
    In the sequence a gesture is released later than its start time (which [_move] renews after 300 ms; in the same millisecond
    the code divides by 0), the browser reports places inside for a scroller in motion, and calls ask for no place outside;
    [scrollBy], changes of the layout and dragging of scrollbars are left out. *)
Theorem stays_in_bounds b opt user lay s :
  tame opt lay -> (forall v, (0 <= v <= 1)%Q -> (0 <= Math_sqrt v <= 1)%Q) -> (forall k s, still s (snd (user k s))) ->
  reachable b opt user lay s ->
  (maxScrollX (geo s) <= px s <= 0)%Q /\ (maxScrollY (geo s) <= py s <= 0)%Q /\ geo s = measured opt lay.
Proof.
  intros [T1 T2 T3 T4 T5 T6] S L R.
  assert (exists t, ok_at opt lay t true s) as (t & K).
  { induction R as [style t|s h R IH A]; [exists t; apply start_ok; auto|].
    destruct IH as (t & K). apply (ok_after b opt user lay T1 T2 T3 T4 T5 S L t); assumption. }
  rewrite (ok_geo K eq_refl). split; [apply (ok_x K)|split; [apply (ok_y K)|reflexivity]].
Qed.

End Theory.

(** ** A scroller that runs *)

(** Functions for rational numbers: a square root to twenty binary places. *)
#[local] Instance Maths_Q : Maths Q := {
  Math_sqrt v := Qmake (Z.sqrt (Qnum v * 2 ^ 40 / Zpos (Qden v))) (2 ^ 20);
  Math_sin v := v; Math_pow v _ := v; Math_PI := Qmake 355 113;
  show v := F64.digits (Qfloor v); toUpperCase := upper
}.

Definition sample_browser : browser :=
  mkBrowser (map js ["transform"; "transition"; "perspective"; "transitionDuration"; "transitionTimingFunction"]%string)
    false true false true (js "5.0 (X11; Linux x86_64)").

(** A page 1000 high in a window of 200. *)
Definition sample_layout : layout Q :=
  mkLayout #100 #200 (mkElement [(#0, #0)] #100 #200) #100 #1000 (fun _ => mkElement [(#0, #0)] #1 #1) (fun _ => []) (fun _ => mkBar #5 #200 #5 #20).

(** Options of a page: whether it bounces, moves by transitions and scrolls sideways, and its
    pages. *)
Definition given_options {A} {N : Num A} {M : Maths A} (bounces transitions sideways : bool) (pages : snap_option) : options A :=
  {| resizeScrollbars := true; mouseWheelSpeed := #20; snapThreshold := dec 334 3; disablePointer := false; disableTouch := true;
     disableMouse := true; o_startX := #0; o_startY := #0; scrollX := sideways; scrollY := true; directionLockThreshold := #5; o_momentum := true;
     o_bounce := bounces; bounceTime := #600; bounceEasing := EaseName []; preventDefault := true;
     o_preventDefaultException := default_exceptions; HWCompositing := true; useTransition := transitions; useTransform := true;
     bindToWrapper := false; eventPassthrough := PassNone; freeScroll := false; resizePolling := None; o_tap := TapNone; o_click := false;
     shrinkScrollbars := ShrinkNone; fadeBars := false; interactiveScrollbars := false; scrollbars := BarsNone; o_indicators := [];
     mouseWheel := true; invertWheelDirection := zero; snap := pages; snapStepX := zero; snapStepY := zero; snapSpeed := zero;
     deceleration := None; keyBindings := KeysTrue |}.

Definition sample_options : options Q := normalize sample_browser sample_layout (given_options false false false SnapNone).

Definition no_listener (k : Z) : SE (scroller Q) unit := se_ret tt.

Definition pointer (type : string) (x y : Z) : event Q :=
  mkEvent (js type) 0 1 (#x, #y) (#x, #y) (fun _ => js "DIV") true NoWheel 0 false.

(** A quick drag to the top, and two frames of the animation after it. *)
Definition sample_drag : list happening :=
  [Event (pointer "pointerdown" 10 100); Advance #20; Event (pointer "pointermove" 10 60); Advance #10; Event (pointer "pointerup" 10 60);
   Frames; Advance #100; Frames].

Definition sample_scroller : scroller Q := run sample_browser sample_options no_listener sample_drag (start sample_browser sample_options no_listener [] (new_world #1000 sample_layout)).

Lemma sqrt_Q_range v : (0 <= v <= 1)%Q -> (0 <= Math_sqrt v <= 1)%Q.
Proof.
  destruct v as [n d]. unfold Qle. cbn. intros [H K]. 
  set (m := n * 1099511627776 / Z.pos d).
  assert (0 <= m) by (apply Z.div_pos; lia). assert (m <= 1099511627776) by (apply Z.div_le_upper_bound; lia).
  pose proof (Z.sqrt_nonneg m). pose proof (Z.sqrt_le_mono m 1099511627776 ltac:(lia)) as L. change (Z.sqrt 1099511627776) with 1048576 in L. lia.
Qed.

Lemma sample_tame : tame sample_options sample_layout.
Proof.
  constructor; try reflexivity; try exact I.
  - exact (circular_smooth sqrt_Q_range).
  - exists 100, 200, 100, 1000. repeat split.
  - split; vm_compute; discriminate.
  - split; split; vm_compute; discriminate.
Qed.

Lemma stays_in_bounds_witness :
  (maxScrollY (geo sample_scroller) <= py sample_scroller <= 0)%Q /\ (py sample_scroller < inject_Z (-400))%Q /\ isAnimating sample_scroller = true.
Proof.
  split; [|vm_compute; split; reflexivity].
  refine (proj1 (proj2 (@stays_in_bounds _ sample_browser sample_options no_listener sample_layout sample_scroller sample_tame sqrt_Q_range _ _))).
  - intros k s. repeat split.
  - unfold sample_scroller, run, sample_drag. cbn [fold_left].
    do 8 (apply reach_step; [|constructor; first [intros H; vm_compute in H; first [discriminate H | vm_compute; reflexivity] | vm_compute; discriminate]]).
    apply reach_start.
Defined.
