(* ===== verification/ScrollPages.v ===== *)
(** * Pages of a scroller (iScroll)

    Theorems on the pages of IScroll.v: the table of pages is built, and the page that a scroll
    snaps to is a page of the table.  Positions are rational numbers, as in ScrollTheory.v. *)

From Stdlib Require Import String ZArith Lia Lqa List Bool QArith Qround Qabs.
From S2P Require Import Prelude Hoare Js Num Value Regex ScrollUtils ScrollState IScroll ScrollTheory.
Import ListNotations.
#[local] Open Scope Z_scope.
#[local] Open Scope se_scope.
Import Utils ScrollState IScroll.

Section Pages.

Context {M : Maths Q}.

Lemma geb_false (v c : Q) : geb v c = false -> (v < c)%Q.
Proof.
  unfold geb, leb. intros B. apply orb_false_iff in B as [B1 B2]. apply Q_ltb_false in B1. apply Q_eqb_false in B2.
  apply Qnot_le_lt. intros K. apply B2. lra.
Qed.

(** ** The loops *)

Section Table.

Variable g : geometry Q.
Variables cx cy stepX stepY : Q.

Hypothesis sizes : (0 < scrollerWidth g)%Q /\ (0 < scrollerHeight g)%Q.
Hypothesis positive : (0 < stepX)%Q /\ (0 < stepY)%Q.

Lemma enough_fuel size step : (0 < step)%Q -> (0 <= size)%Q -> (size <= (inject_Z (Z.of_nat (loop_fuel size step)) - 1) * step)%Q.
Proof.
  intros Hs H. unfold loop_fuel. cbn [trunc Num_Q]. set (q := div size step).
  assert (Q0 : (0 <= q)%Q) by (apply Qdiv_nonneg; lra).
  assert (T : Q_trunc q = Qfloor q).
  { unfold Q_trunc, Qfloor. destruct q as [n d]. cbn. apply Z.quot_div_nonneg; [|lia]. unfold Qle in Q0. cbn in Q0. lia. }
  rewrite T. assert (0 <= Qfloor q) by (rewrite <- (Qfloor_Z 0); apply Qfloor_resp_le, Q0).
  rewrite Nat2Z.inj_add, Z2Nat.id, inject_Z_plus by assumption. pose proof (Qlt_floor q) as L. rewrite inject_Z_plus in L.
  change (inject_Z (Z.of_nat 2)) with 2%Q. change (inject_Z 1) with 1%Q in L.
  assert (E : (size == q * step)%Q) by (unfold q; qops; field; lra). rewrite E. apply Qmult_le_compat_r; lra.
Qed.

Lemma page_column_total n x y : (1 <= n)%nat -> (y + scrollerHeight g <= (inject_Z (Z.of_nat n) - 1) * stepY)%Q ->
  exists column, page_column n g x cx y cy stepX stepY = Some column.
Proof.
  revert y. induction n as [|n IH]; intros y Hn H; [lia|]. cbn [page_column].
  destruct (gtb y _) eqn:E; [|eexists; reflexivity]. apply Q_ltb in E.
  replace (Z.of_nat (S n)) with (Z.of_nat n + 1) in H by lia. rewrite inject_Z_plus in H. change (inject_Z 1) with 1%Q in H.
  destruct n as [|n]; [exfalso; change (inject_Z (Z.of_nat 0)) with 0%Q in H; qlra|].
  destruct (IH (sub y stepY) ltac:(lia)) as (column & ->); [qlra|]. eexists. reflexivity.
Qed.

Lemma page_table_total n x : (1 <= n)%nat -> (x + scrollerWidth g <= (inject_Z (Z.of_nat n) - 1) * stepX)%Q ->
  exists table, page_table n g x cx cy stepX stepY = Some table.
Proof.
  revert x. induction n as [|n IH]; intros x Hn H; [lia|]. cbn [page_table].
  destruct (gtb x _) eqn:E; [|eexists; reflexivity]. apply Q_ltb in E.
  destruct (page_column_total (loop_fuel (scrollerHeight g) stepY) x #0) as (column & ->).
  { unfold loop_fuel. lia. }
  { pose proof (enough_fuel (scrollerHeight g) stepY (proj2 positive) ltac:(lra)). qlra. }
  replace (Z.of_nat (S n)) with (Z.of_nat n + 1) in H by lia. rewrite inject_Z_plus in H. change (inject_Z 1) with 1%Q in H.
  destruct n as [|n]; [exfalso; change (inject_Z (Z.of_nat 0)) with 0%Q in H; qlra|].
  destruct (IH (sub x stepX) ltac:(lia)) as (table & ->); [qlra|]. eexists. reflexivity.
Qed.

(** A list of cells without holes. *)
Definition full {X} (l : list (option X)) : Prop := Forall (fun c => c <> None) l.

Lemma page_column_full n x y column : page_column n g x cx y cy stepX stepY = Some column -> full column.
Proof.
  revert y column. induction n as [|n IH]; intros y column E; [discriminate|]. cbn [page_column] in E.
  destruct (gtb y _); [|injection E as <-; constructor].
  destruct (page_column n _ _ _ _ _ _ _) as [rest|] eqn:R; [|discriminate]. injection E as <-. constructor; [discriminate|apply (IH _ _ R)].
Qed.

(** The columns are as long as one another. *)
Lemma page_column_length n x x' y column column' :
  page_column n g x cx y cy stepX stepY = Some column -> page_column n g x' cx y cy stepX stepY = Some column' -> length column = length column'.
Proof.
  revert y column column'. induction n as [|n IH]; intros y column column' E E'; [discriminate|]. cbn [page_column] in E, E'.
  destruct (gtb y _); [|injection E as <-; injection E' as <-; reflexivity].
  destruct (page_column n g x _ _ _ _ _) as [rest|] eqn:R; [|discriminate]. injection E as <-.
  destruct (page_column n g x' _ _ _ _ _) as [rest'|] eqn:R'; [|discriminate]. injection E' as <-. cbn. f_equal. apply (IH _ _ _ R R').
Qed.

(** Some cell of a column is reached. *)
Lemma column_reached n x y column v i : page_column n g x cx y cy stepX stepY = Some column ->
  (0 <= cy)%Q -> (stepY <= v + scrollerHeight g)%Q -> (- scrollerHeight g < y)%Q ->
  exists k c, first_reached cell_cy cell_y v column i = Some (i + Z.of_nat k, cell_y c) /\ nth_error column k = Some (Some c).
Proof.
  intros E Hc Hv. revert y column i E. induction n as [|n IH]; intros y column i E Hy; [discriminate|]. cbn [page_column] in E.
  destruct (gtb y _) eqn:G; [|exfalso; apply Q_ltb_false in G; qlra].
  destruct (page_column n _ _ _ _ _ _ _) as [rest|] eqn:R; [|discriminate]. injection E as <-. cbn [first_reached option_map].
  destruct (geb v _) eqn:B; [exists O; eexists; split; [rewrite Z.add_0_r; reflexivity|reflexivity]|].
  apply geb_false in B. cbn [cell_cy] in B.
  destruct (IH (sub y stepY) rest (i + 1) R) as (k & c & -> & Hk); [qlra|].
  exists (S k), c. split; [do 2 f_equal; lia|exact Hk].
Qed.

Lemma table_reached n x table v i : page_table n g x cx cy stepX stepY = Some table ->
  (0 <= cx)%Q -> (stepX <= v + scrollerWidth g)%Q -> (- scrollerWidth g < x)%Q ->
  exists k column c, first_reached cell_cx cell_x v (map (fun c => match c with c :: _ => c | [] => None end) table) i = Some (i + Z.of_nat k, cell_x c) /\
    nth_error table k = Some column /\ nth_error column 0 = Some (Some c).
Proof.
  intros E Hc Hv. revert x table i E. induction n as [|n IH]; intros x table i E Hx; [discriminate|]. cbn [page_table] in E.
  destruct (gtb x _) eqn:G; [|exfalso; apply Q_ltb_false in G; qlra].
  destruct (page_column _ g x _ _ _ _ _) as [column|] eqn:C; [|discriminate].
  destruct (page_table n _ _ _ _ _ _) as [rest|] eqn:R; [|discriminate]. injection E as <-. cbn [map first_reached].
  assert (H0 : exists c column', column = Some c :: column' /\ cell_cx c = sub x cx).
  { unfold loop_fuel in C. rewrite Nat.add_comm in C. cbn [Nat.add page_column] in C.
    destruct (gtb #0 _) eqn:G0; [|exfalso; apply Q_ltb_false in G0; destruct sizes; qlra].
    destruct (if gtb _ _ then _ else _); [|discriminate]. injection C as <-. eexists _, _. split; reflexivity. }
  destruct H0 as (c & column' & -> & Ec).
  destruct (geb v _) eqn:B; [exists O, (Some c :: column'), c; rewrite Z.add_0_r; repeat split|].
  apply geb_false in B. rewrite Ec in B.
  destruct (IH (sub x stepX) rest (i + 1) R) as (k & column & d & -> & Hk & Hd); [qlra|].
  exists (S k), column, d. split; [do 2 f_equal; lia|split; [exact Hk|exact Hd]].
Qed.

End Table.

(** What a table of pages is: its columns are as long as one another, not empty, and have no
    holes. *)
Record regular (table : list (list (option (cell Q)))) : Prop := {
  regular_columns : table <> [];
  regular_length : forall column, In column table -> length column = length (hd [] table) /\ column <> [] /\ full column
}.

(** How the columns of a table are built. *)
Lemma table_columns g cx cy stepX stepY n x table : page_table n g x cx cy stepX stepY = Some table ->
  forall column, In column table -> exists x', page_column (loop_fuel (scrollerHeight g) stepY) g x' cx #0 cy stepX stepY = Some column.
Proof.
  revert x table. induction n as [|n IH]; intros x table E; [discriminate|]. cbn [page_table] in E.
  destruct (gtb x _); [|injection E as <-; intros ? []].
  destruct (page_column _ g x _ _ _ _ _) as [column|] eqn:P; [|discriminate].
  destruct (page_table n _ _ _ _ _ _) as [rest|] eqn:R; [|discriminate]. injection E as <-.
  intros d [<-|I]; [exists x; exact P|apply (IH _ _ R d I)].
Qed.

Lemma hd_column g cx cy stepX stepY n x table : page_table n g x cx cy stepX stepY = Some table -> table <> [] ->
  exists x', page_column (loop_fuel (scrollerHeight g) stepY) g x' cx #0 cy stepX stepY = Some (hd [] table).
Proof. intros E Ne. apply (table_columns _ _ _ _ _ _ _ _ E). destruct table; [contradiction|left; reflexivity]. Qed.

Lemma page_table_regular g cx cy stepX stepY n x table : (0 < scrollerHeight g)%Q -> (- scrollerWidth g < x)%Q ->
  page_table n g x cx cy stepX stepY = Some table -> regular table.
Proof.
  intros Hh Hx E.
  pose proof (table_columns _ _ _ _ _ _ _ _ E) as C.
  assert (Ne : table <> []).
  { destruct n as [|n]; [discriminate|]. cbn [page_table] in E. destruct (gtb x _) eqn:G; [|exfalso; apply Q_ltb_false in G; qlra].
    destruct (page_column _ g x _ _ _ _ _); [|discriminate]. destruct (page_table n _ _ _ _ _ _); [|discriminate]. injection E as <-. discriminate. }
  constructor; [exact Ne|]. intros column I. destruct (C _ I) as (x1 & P).
  assert (I0 : In (hd [] table) table) by (destruct table; [contradiction|left; reflexivity]). destruct (C _ I0) as (x0 & P0).
  split; [apply (page_column_length _ _ _ _ _ _ _ _ _ _ _ P P0)|]. split; [|apply (page_column_full _ _ _ _ _ _ _ _ _ P)].
  unfold loop_fuel in P. rewrite Nat.add_comm in P. cbn [Nat.add page_column] in P.
  destruct (gtb #0 _) eqn:G; [|exfalso; apply Q_ltb_false in G; qlra]. destruct (if gtb _ _ then _ else _); [|discriminate]. injection P as <-. discriminate.
Qed.

Lemma regular_sizes table : regular table -> 0 < zlen table /\ 0 < zlen (hd [] table).
Proof.
  intros [R1 R2]. destruct table as [|first rest]; [contradiction|]. destruct (R2 first (or_introl eq_refl)) as (_ & N & _).
  unfold zlen. cbn [hd length]. split; [lia|]. destruct first; [contradiction|cbn; lia].
Qed.

Lemma regular_cell table x y : regular table -> 0 <= x < zlen table -> 0 <= y < zlen (hd [] table) ->
  exists c, cell_at x y table = Some c.
Proof.
  intros [R1 R2] Hx Hy. unfold cell_at, zlen in *. rewrite (proj2 (Z.ltb_ge x 0)), (proj2 (Z.ltb_ge y 0)) by lia. cbn [orb].
  destruct (nth_error table (Z.to_nat x)) as [column|] eqn:E; [|apply nth_error_None in E; lia].
  destruct (R2 column (nth_error_In _ _ E)) as (L & _ & F).
  destruct (nth_error column (Z.to_nat y)) as [c|] eqn:E2; [|apply nth_error_None in E2; lia].
  destruct c as [c|]; [eexists; reflexivity|]. exfalso. unfold full in F. rewrite Forall_forall in F. apply (F None); [apply (nth_error_In _ _ E2)|reflexivity].
Qed.

(** A page of a table: its number is one of the table and its position that of its column and
    its row. *)
Record page_of (table : list (list (option (cell Q)))) (p : page Q) : Prop := {
  page_column_in : 0 <= pageX p < zlen table;
  page_row_in : 0 <= pageY p < zlen (hd [] table);
  page_at_x : exists c, cell_at (pageX p) 0 table = Some c /\ pg_x p = cell_x c;
  page_at_y : exists c, cell_at 0 (pageY p) table = Some c /\ pg_y p = cell_y c
}.

Lemma moved_page_range i d n : 0 < n -> 0 <= moved_page i d n < n.
Proof. intros H. unfold moved_page. cbv zeta. destruct (Z.ltb_spec (i + d) 0); [lia|]. destruct (Z.leb_spec n (i + d)); lia. Qed.

(** The row of the first cells is the first column. *)
Lemma first_column (first : list (option (cell Q))) rest :
  map (fun m => cell_at 0 (Z.of_nat m) (first :: rest)) (seq 0 (length first)) = first.
Proof.
  apply nth_error_ext. intros i. rewrite nth_error_map. destruct (nth_error first i) as [c|] eqn:E.
  - assert (L : (i < length first)%nat) by (apply nth_error_Some; congruence).
    rewrite (nth_error_nth' _ 0%nat) by (rewrite length_seq; exact L). rewrite seq_nth by exact L. cbn [option_map Nat.add].
    unfold cell_at. rewrite (proj2 (Z.ltb_ge (Z.of_nat i) 0)) by lia. cbn [orb Z.ltb Z.compare Z.to_nat nth_error]. rewrite Nat2Z.id, E. reflexivity.
  - apply nth_error_None in E. rewrite (proj2 (nth_error_None _ _)) by (rewrite length_seq; exact E). reflexivity.
Qed.

(** [_nearestSnap] in a regular table in which every position is reached by some column and some
    row. *)
Lemma nearest_in_table s x y p0 :
  regular (pages s) -> currentPage s = Some p0 -> page_of (pages s) p0 ->
  (exists k column c, first_reached cell_cx cell_x (within x (maxScrollX (geo s))) (map (fun c => match c with c :: _ => c | [] => None end) (pages s)) 0 = Some (Z.of_nat k, cell_x c) /\
    nth_error (pages s) k = Some column /\ nth_error column 0 = Some (Some c)) ->
  (exists m c, first_reached cell_cy cell_y (within y (maxScrollY (geo s))) (hd [] (pages s)) 0 = Some (Z.of_nat m, cell_y c) /\
    nth_error (hd [] (pages s)) m = Some (Some c)) ->
  exists p, _nearestSnap x y s = (Ret (Some p), s) /\ page_of (pages s) p.
Proof.
  intros R C P (k & column & c & Fx & Hk & Hc) (m & d & Fy & Hd). unfold _nearestSnap. unfold se_bind at 1. cbn [get]. cbv zeta.
  destruct (pages s) as [|first rest] eqn:E; [destruct (regular_columns _ R eq_refl)|].
  destruct (_ && _); [exists p0; rewrite C; split; [reflexivity|exact P]|].
  rewrite Fx, Nat2Z.id, Hk. destruct (regular_length _ R _ (nth_error_In _ _ Hk)) as (L & _). cbn [hd] in *. rewrite L, first_column, Fy.
  assert (Rk : 0 <= Z.of_nat k < zlen (first :: rest)) by (unfold zlen; pose proof (proj1 (nth_error_Some _ _) (ltac:(rewrite Hk; discriminate) : nth_error (first :: rest) k <> None)); lia).
  assert (Rm : 0 <= Z.of_nat m < zlen first) by (unfold zlen; pose proof (proj1 (nth_error_Some _ _) (ltac:(rewrite Hd; discriminate) : nth_error first m <> None)); lia).
  assert (Ec : cell_at (Z.of_nat k) 0 (first :: rest) = Some c).
  { unfold cell_at. rewrite (proj2 (Z.ltb_ge (Z.of_nat k) 0)) by lia. cbn [orb]. rewrite Nat2Z.id, Hk. change (Z.to_nat 0) with O. cbn [Z.ltb Z.compare]. rewrite Hc. reflexivity. }
  assert (Ed : cell_at 0 (Z.of_nat m) (first :: rest) = Some d).
  { unfold cell_at. rewrite (proj2 (Z.ltb_ge (Z.of_nat m) 0)) by lia. cbn [orb Z.ltb Z.compare Z.to_nat nth_error]. rewrite Nat2Z.id, Hd. reflexivity. }
  set (same_x := match current_x s with Some c => c =? Z.of_nat k | None => false end).
  set (same_y := match current_y s with Some c => c =? Z.of_nat m | None => false end).
  set (mi := moved_page (Z.of_nat k) _ _). set (mm := moved_page (Z.of_nat m) _ _).
  assert (Ri : 0 <= mi < zlen (first :: rest)) by (apply moved_page_range; lia).
  assert (Rm' : 0 <= mm < zlen first) by (apply moved_page_range; lia).
  destruct (regular_cell _ mi 0 R Ri ltac:(cbn; lia)) as (ci & Ei). destruct (regular_cell _ 0 mm R ltac:(lia) ltac:(cbn; lia)) as (cm & Em).
  destruct same_x, same_y; rewrite ?Ei, ?Em; cbn [option_map]; eexists; (split; [reflexivity|]); constructor; cbn; eauto.
Qed.

(** The extents of a layout. *)
Lemma measured_axis (c : bool) (cw sw : Q) : (0 < cw)%Q ->
  let has := c && ltb (sub cw sw) #0 in
  (0 < (if has then sw else cw))%Q /\ ((if has then sub cw sw else #0) == cw - (if has then sw else cw))%Q /\ ((if has then sub cw sw else #0) <= 0)%Q.
Proof. intros H has. destruct has eqn:E; [apply andb_prop in E as [_ E]; apply Q_ltb in E|]; repeat split; qlra. Qed.

Lemma measured_axes (opt : options Q) (lay : layout Q) : (0 < clientWidth lay)%Q -> (0 < clientHeight lay)%Q ->
  let g := measured opt lay in
  (0 < scrollerWidth g)%Q /\ (0 < scrollerHeight g)%Q /\
  (maxScrollX g == clientWidth lay - scrollerWidth g)%Q /\ (maxScrollY g == clientHeight lay - scrollerHeight g)%Q /\
  (maxScrollX g <= 0)%Q /\ (maxScrollY g <= 0)%Q.
Proof.
  intros Hw Hh. destruct (measured_axis (scrollX opt) _ (scroller_width lay) Hw) as (A1 & A2 & A3).
  destruct (measured_axis (scrollY opt) _ (scroller_height lay) Hh) as (B1 & B2 & B3). cbn. repeat split; assumption.
Qed.

Lemma round_nonneg v : (0 <= v)%Q -> (0 <= Math_round v)%Q.
Proof.
  intros H. destruct (round_spec v) as (r & -> & R). change 0%Q with (inject_Z 0). rewrite <- Zle_Qle.
  assert (-1 < r); [|lia]. rewrite Zlt_Qlt. change (inject_Z (-1)) with (-1)%Q. lra.
Qed.

(** C14: Snapping is safe.  For a scroller whose pages have the size of its wrapper (or are smaller, but not empty), the loops that build
    the table of pages end; and with that table, whatever position a gesture ends at, when the current page is one of the table, [_nearestSnap] does not throw and gives a page of the
    table: its number is in range and its position is that of its column and its row. *)
Theorem nearest_page (opt : options Q) (lay : layout Q) (s : scroller Q) :
  snap opt = SnapTrue -> geo s = measured opt lay ->
  (0 < clientWidth lay)%Q -> (0 < clientHeight lay)%Q ->
  (0 < or_number (snapStepX opt) (clientWidth lay) <= clientWidth lay)%Q ->
  (0 < or_number (snapStepY opt) (clientHeight lay) <= clientHeight lay)%Q ->
  exists table, table_of_pages opt s = Some table /\
    forall s' x y p0, geo s' = geo s -> pages s' = table -> currentPage s' = Some p0 -> page_of table p0 ->
      exists p, _nearestSnap x y s' = (Ret (Some p), s') /\ page_of table p.
Proof.
  intros Hsnap Hg Hw Hh HX HY. pose proof (measured_axes opt lay Hw Hh) as (W & H & MX & MY & LX & LY). rewrite <- Hg in *.
  assert (E0 : table_of_pages opt s = page_table (loop_fuel (scrollerWidth (geo s)) (or_number (snapStepX opt) (clientWidth lay))) (geo s) #0
      (Math_round (div (or_number (snapStepX opt) (clientWidth lay)) #2)) (Math_round (div (or_number (snapStepY opt) (clientHeight lay)) #2))
      (or_number (snapStepX opt) (clientWidth lay)) (or_number (snapStepY opt) (clientHeight lay)))
    by (unfold table_of_pages; rewrite Hsnap, Hg; reflexivity).
  rewrite E0. clear E0. set (stepX := or_number (snapStepX opt) _) in *. set (stepY := or_number (snapStepY opt) _) in *.
  destruct (page_table_total (geo s) (Math_round (div stepX #2)) (Math_round (div stepY #2)) stepX stepY (conj W H) (conj (proj1 HX) (proj1 HY))
    (loop_fuel (scrollerWidth (geo s)) stepX) #0) as (table & T); [unfold loop_fuel; lia| |].
  { pose proof (enough_fuel (scrollerWidth (geo s)) stepX (proj1 HX) ltac:(lra)). qlra. }
  exists table. split; [exact T|]. intros s' x y p0 G <- C P. assert (X0 : (- scrollerWidth (geo s) < #0)%Q) by qlra.
  pose proof (page_table_regular _ _ _ _ _ _ _ _ H X0 T) as R.
  apply (nearest_in_table s' x y p0 R C P); rewrite G.
  - apply (table_reached _ _ _ _ _ (conj W H) _ _ _ (within x (maxScrollX (geo s))) 0 T); [apply round_nonneg, Qdiv_nonneg; qlra| |qlra].
    destruct (within_in_bounds (maxScrollX (geo s)) x LX). lra.
  - destruct (hd_column _ _ _ _ _ _ _ _ T (regular_columns _ R)) as (x' & T').
    apply (column_reached _ _ _ _ _ _ _ _ _ (within y (maxScrollY (geo s))) 0 T'); [apply round_nonneg, Qdiv_nonneg; qlra| |qlra].
    destruct (within_in_bounds (maxScrollY (geo s)) y LY). lra.
Qed.

(** ** Turning pages *)

Section Turning.

Variable b : browser.
Variable opt : options Q.
Variable handle : handler -> SE (scroller Q) unit.

(** The options of a scroller that is moved by transitions of the style. *)
Hypothesis transitions : useTransition opt = true.
Hypothesis styled : exists e, bounce_easing opt = Some e /\ ease_style e <> [].

(** Scrolling leaves the pages alone. *)
Definition at_page (ps : list (list (option (cell Q)))) (c : option (page Q)) (g : geometry Q) (s : scroller Q) : Prop :=
  pages s = ps /\ currentPage s = c /\ geo s = g.

Ltac leaves := repeat (cbv zeta;
  lazymatch goal with
  | |- keeps _ (se_bind get _) => apply keeps_reading; intros ? ?
  | |- keeps _ (se_bind _ _) => apply keeps_bind; [|intros ?]
  | |- keeps _ (when ?c _) => destruct c; cbn [when]
  | |- keeps _ (if ?c then _ else _) => destruct c
  | |- keeps _ (match ?x with _ => _ end) => destruct x
  | |- keeps _ (each _ _) => apply keeps_all; intros ?
  | |- keeps _ _ => let s := fresh in let H := fresh in intros s H; exact H
  end).

Lemma scroll_leaves ps c g x y time e : e <> None -> (forall e', e = Some e' -> ease_style e' <> []) ->
  keeps (at_page ps c g) (scrollTo b opt handle x y time e) /\ returns (scrollTo b opt handle x y time e).
Proof.
  intros He Hs. destruct e as [e|]; [|contradiction]. specialize (Hs e eq_refl). unfold scrollTo, scroll_depth. cbn [scrollTo_fuel].
  rewrite transitions. destruct (ease_style e) as [|z l] eqn:E; [contradiction|]. cbn [andb]. rewrite orb_true_r.
  unfold _transitionTimingFunction, _transitionTime, _translate, Indicator_transitionTime, Indicator_transitionTimingFunction. split.
  - leaves.
  - rets.
Qed.

Definition clamp (n v : Z) : Z := if n <=? v then n - 1 else if v <? 0 then 0 else v.

Lemma clamp_range n v : 0 < n -> 0 <= clamp n v < n.
Proof. intros H. unfold clamp. destruct (Z.leb_spec n v); [lia|]. destruct (Z.ltb_spec v 0); lia. Qed.

Lemma clamp_in n v : 0 <= v < n -> clamp n v = v.
Proof. intros H. unfold clamp. destruct (Z.leb_spec n v); [lia|]. destruct (Z.ltb_spec v 0); lia. Qed.

(** In a regular table every page can be asked for. *)
Lemma goToPage_goes s x y time : regular (pages s) ->
  let x' := clamp (zlen (pages s)) x in
  let y' := clamp (zlen (hd [] (pages s))) y in
  exists s' c, goToPage b opt handle (Some x) (Some y) time None s = (Ret tt, s') /\ cell_at x' y' (pages s) = Some c /\
    at_page (pages s) (Some (mkPage (cell_x c) (cell_y c) x' y')) (geo s) s'.
Proof.
  intros R x' y'. pose proof R as [Ne RL]. destruct (regular_sizes _ R) as [Sx Sy].
  pose proof (clamp_range (zlen (pages s)) x Sx) as Rx. pose proof (clamp_range (zlen (hd [] (pages s))) y Sy) as Ry. fold x' in Rx. fold y' in Ry.
  destruct (regular_cell (pages s) x' y' R Rx Ry) as (c & Hc).
  unfold goToPage. unfold se_bind at 1. cbn [get]. cbv zeta. fold (clamp (zlen (pages s)) x). fold x'.
  rewrite (proj2 (Z.ltb_ge x' 0)) by lia.
  destruct (nth_error (pages s) (Z.to_nat x')) as [column|] eqn:E; [|apply nth_error_None in E; unfold zlen in Rx; lia].
  destruct (RL column (nth_error_In _ _ E)) as (L & _ & _).
  replace (zlen column) with (zlen (hd [] (pages s))) by (unfold zlen; congruence). fold (clamp (zlen (hd [] (pages s))) y). fold y'. rewrite Hc.
  destruct styled as (e & He & Hs). rewrite He. unfold se_bind, modify.
  set (s1 := set_currentPage _ s).
  destruct (scroll_leaves (pages s) (Some (mkPage (cell_x c) (cell_y c) x' y')) (geo s) (cell_x c) (cell_y c)
    (match time with Some t => t | None => snap_time (snapSpeed opt) (cell_x c) (cell_y c) s end) (Some e)) as [K Rt]; [discriminate|intros e' [= <-]; exact Hs|].
  destruct (Rt s1) as ([] & s2 & E2). exists s2, c. split; [exact E2|split; [reflexivity|]].
  specialize (K s1 (conj eq_refl (conj eq_refl eq_refl))). rewrite E2 in K. exact K.
Qed.

(** The page after a page: the next column, or else, where the scroller scrolls vertically, the
    first column of the next row, if there is one. *)
Definition following (columns rows : Z) (vertical : bool) (x y : Z) : Z * Z :=
  if x + 1 <? columns then (x + 1, y)
  else if vertical then (0, if y + 1 <? rows then y + 1 else y)
  else (x, y).

(** Turning pages.  With a regular table of pages, [next] goes to the page that follows the current one, at the position of its cell,
    and, but for the end of a row, [prev] comes back to the page that [next] left. *)
Theorem next_then_prev s p : regular (pages s) -> currentPage s = Some p ->
  0 <= pageX p < zlen (pages s) -> 0 <= pageY p < zlen (hd [] (pages s)) ->
  exists s1 p1 c, next b opt handle None None s = (Ret tt, s1) /\ currentPage s1 = Some p1 /\ pages s1 = pages s /\
    (pageX p1, pageY p1) = following (zlen (pages s)) (zlen (hd [] (pages s))) (hasVerticalScroll (geo s)) (pageX p) (pageY p) /\
    cell_at (pageX p1) (pageY p1) (pages s) = Some c /\ pg_x p1 = cell_x c /\ pg_y p1 = cell_y c /\
    (pageX p + 1 < zlen (pages s) ->
     exists s2 p2, prev b opt handle None None s1 = (Ret tt, s2) /\ currentPage s2 = Some p2 /\ pageX p2 = pageX p /\ pageY p2 = pageY p).
Proof.
  intros R C Hx Hy. set (cols := zlen (pages s)) in *. set (rows := zlen (hd [] (pages s))) in *.
  set (x1 := if pageX p + 1 <? cols then pageX p + 1 else if hasVerticalScroll (geo s) then 0 else pageX p + 1).
  set (y1 := if pageX p + 1 <? cols then pageY p else if hasVerticalScroll (geo s) then pageY p + 1 else pageY p).
  assert (E : next b opt handle None None s = goToPage b opt handle (Some x1) (Some y1) None None s).
  { unfold next. unfold se_bind at 1. cbn [get]. unfold current_x, current_y. rewrite C. cbn [option_map]. fold cols.
    rewrite (Z.add_comm 1 (pageX p)), (Z.add_comm 1 (pageY p)), Z.leb_antisym. unfold x1, y1.
    destruct (pageX p + 1 <? cols), (hasVerticalScroll (geo s)); reflexivity. }
  destruct (goToPage_goes s x1 y1 None R) as (s1 & c & G & Hc & (P1 & C1 & G1)). fold cols in Hc, C1. fold rows in Hc, C1.
  exists s1, (mkPage (cell_x c) (cell_y c) (clamp cols x1) (clamp rows y1)), c. cbn [pageX pageY pg_x pg_y].
  split; [rewrite E; exact G|]. split; [exact C1|]. split; [exact P1|]. split; [|split; [exact Hc|split; [reflexivity|split; [reflexivity|]]]].
  - unfold following, x1, y1. destruct (Z.ltb_spec (pageX p + 1) cols); [rewrite !clamp_in by lia; reflexivity|].
    destruct (hasVerticalScroll (geo s)).
    + rewrite (clamp_in cols 0) by lia. f_equal. destruct (Z.ltb_spec (pageY p + 1) rows); [apply clamp_in; lia|].
      unfold clamp. destruct (Z.leb_spec rows (pageY p + 1)); lia.
    + rewrite (clamp_in rows) by lia. f_equal. unfold clamp. destruct (Z.leb_spec cols (pageX p + 1)); lia.
  - intros L. unfold x1, y1 in C1. rewrite (proj2 (Z.ltb_lt _ _) L) in C1. rewrite !clamp_in in C1 by lia.
    assert (E' : prev b opt handle None None s1 = goToPage b opt handle (Some (pageX p)) (Some (pageY p)) None None s1).
    { unfold prev. unfold se_bind at 1. cbn [get]. unfold current_x, current_y. rewrite C1. cbn [option_map pageX pageY].
      replace (-1 + (pageX p + 1)) with (pageX p) by lia. rewrite (proj2 (Z.ltb_ge (pageX p) 0)) by lia. reflexivity. }
    rewrite <- P1 in R. destruct (goToPage_goes s1 (pageX p) (pageY p) None R) as (s2 & c2 & G2 & _ & (_ & C2 & _)). rewrite P1 in C2.
    rewrite !clamp_in in C2 by (fold cols rows; lia). exists s2. eexists. split; [rewrite E'; exact G2|split; [exact C2|split; reflexivity]].
Qed.

End Turning.

End Pages.
