(* ===== verification/ScrollRest.v ===== *)
(** * Coming to rest (iScroll)

    A scroller that moves by transitions of its style comes to rest inside its bounds; the
    witnesses of the theorems on pages; and runs of the code on doubles that show what it does
    in cases it does not handle. *)

From Stdlib Require Import String ZArith Lia Lqa List Bool QArith SpecFloat.
From S2P Require Import Prelude Hoare Js Num Value Regex ScrollUtils ScrollState IScroll ScrollTheory ScrollPages.
Import ListNotations.
#[local] Open Scope Z_scope.
#[local] Open Scope se_scope.
Import Utils ScrollState IScroll.

Section Rest.

Context {M : Maths Q}.
Variable b : browser.
Variable opt : options Q.
Variable handle : handler -> SE (scroller Q) unit.

(** What a scroller does: its position, whether it is in transition, its geometry and its
    listeners. *)
Definition motion : Type := Q * Q * bool * geometry Q * list (list Z * list handler).
Definition motion_of (s : scroller Q) : motion := (px s, py s, isInTransition s, geo s, _events s).

Definition inside (s : scroller Q) : Prop := (maxScrollX (geo s) <= px s <= 0)%Q /\ (maxScrollY (geo s) <= py s <= 0)%Q.

(** The options: transitions of the style and transforms, an easing the style can name, and some
    time to come back in. *)
Hypothesis transitions : useTransition opt = true.
Hypothesis transforms : useTransform opt = true.
Hypothesis styled : exists e, bounce_easing opt = Some e /\ ease_style e <> [].
Hypothesis some_time : (0 < bounceTime opt)%Q.

(** The listeners of scrollEnd are those that fade scrollbars and those of the page, and they do
    not move the scroller. *)
Definition end_listener (h : handler) : Prop := match h with FadeOut | User _ => True | _ => False end.
Definition end_listeners (l : list (list Z * list handler)) : Prop :=
  Forall end_listener (match handlers_of (js "scrollEnd") l with Some hs => hs | None => [] end).
Hypothesis quiet : forall h s, end_listener h -> motion_of (snd (handle h s)) = motion_of s.

Definition moving_as (m : motion) (s : scroller Q) : Prop := motion_of s = m.

Ltac moves := repeat (cbv zeta;
  lazymatch goal with
  | |- keeps _ (se_bind get _) => apply keeps_reading; intros ? ?
  | |- keeps _ (se_bind _ _) => apply keeps_bind; [|intros ?]
  | |- keeps _ (when ?c _) => destruct c; cbn [when]
  | |- keeps _ (if ?c then _ else _) => destruct c
  | |- keeps _ (match ?x with _ => _ end) => destruct x
  | |- keeps _ (each _ _) => apply keeps_all; intros ?
  | |- keeps _ _ => let s := fresh in let H := fresh in intros s H; exact H
  end).

Lemma keeps_time m t : keeps (moving_as m) (_transitionTime b opt t).
Proof. unfold _transitionTime, Indicator_transitionTime. moves. Qed.

Lemma returns_time t : returns (_transitionTime b opt t).
Proof. unfold _transitionTime, Indicator_transitionTime. rets. Qed.

Lemma keeps_event m : end_listeners (snd m) -> keeps (moving_as m) (_execEvent handle (js "scrollEnd")).
Proof.
  intros L. unfold _execEvent. apply keeps_reading. intros s0 H0. destruct (handlers_of _ _) as [hs|]; [|apply keeps_ret].
  generalize (length hs), O. intros n. induction n as [|n IH]; intros i; cbn [exec_from]; [apply keeps_ret|].
  apply keeps_reading. intros s H. destruct (nth_error _ i) as [h|] eqn:E; [|apply keeps_throw].
  assert (Lh : end_listener h).
  { unfold end_listeners in L. rewrite <- H in L. cbn [snd motion_of] in L. rewrite Forall_forall in L. apply L, (nth_error_In _ _ E). }
  apply keeps_bind; [intros s1 H1; unfold moving_as; rewrite quiet by exact Lh; exact H1|intros _; apply IH].
Qed.

(** A scroll with a time, by transitions. *)
Lemma scroll_moves x y time e s : (0 < time)%Q -> ease_style e <> [] ->
  exists s', scrollTo b opt handle x y time (Some e) s = (Ret tt, s') /\ motion_of s' = (x, y, true, geo s, _events s).
Proof.
  intros Ht He. unfold scrollTo, scroll_depth. cbn [scrollTo_fuel]. rewrite transitions. destruct (ease_style e) as [|z l] eqn:E; [contradiction|].
  cbn [andb]. rewrite orb_true_r. unfold gtb. rewrite (proj2 (Q_ltb #0 time)) by exact Ht. cbn [when].
  unfold se_bind at 1. cbn [modify].
  set (s0 := set_isInTransition true s).
  assert (R : returns (_transitionTimingFunction b (z :: l) ;! _transitionTime b opt time)) by (unfold _transitionTimingFunction, _transitionTime, Indicator_transitionTime, Indicator_transitionTimingFunction; rets).
  assert (K : forall m, keeps (moving_as m) (_transitionTimingFunction b (z :: l) ;! _transitionTime b opt time))
    by (intros m; unfold _transitionTimingFunction, _transitionTime, Indicator_transitionTime, Indicator_transitionTimingFunction; moves).
  destruct (R s0) as ([] & s1 & E1). specialize (K (motion_of s0) s0 eq_refl). rewrite E1 in K.
  unfold se_bind at 1. rewrite E1. unfold _translate. cbv zeta. rewrite transforms.
  unfold se_bind at 1. unfold in_style at 1. cbn [modify]. unfold se_bind at 1. cbn [modify]. unfold se_bind at 1. cbn [modify].
  set (s2 := set_py y (set_px x _)).
  assert (R' : returns (let! s := get in each (fun i => let! s := get in in_indicator i (updatePosition b opt (px s) (py s))) (indices s))) by rets.
  assert (K' : forall m, keeps (moving_as m) (let! s := get in each (fun i => let! s := get in in_indicator i (updatePosition b opt (px s) (py s))) (indices s)))
    by (intros m; moves).
  destruct (R' s2) as ([] & s3 & E3). specialize (K' (motion_of s2) s2 eq_refl). rewrite E3 in K'. exists s3. split; [exact E3|].
  cbn [snd] in K, K'. unfold moving_as in K, K'. rewrite K'. unfold motion_of in *. injection K as K1 K2 K3 K4 K5. unfold s2. cbn. rewrite K3, K4, K5. reflexivity.
Qed.
(** Inside, the scroller is where it rests. *)
Lemma inside_rests s lay : geo s = measured opt lay ->
  inside s <-> (rest_x s == px s)%Q /\ (rest_y s == py s)%Q.
Proof.
  intros G. unfold inside, rest_x, rest_y, gtb. rewrite G. cbn [measured hasHorizontalScroll hasVerticalScroll maxScrollX maxScrollY].
  assert (A : forall has low v, (has = true -> (low < 0)%Q) ->
    let m := if has then low else #0 in
    ((m <= v <= 0)%Q <-> ((if negb has || ltb #0 v then #0 else if ltb v m then m else v) == v)%Q)).
  { intros has low v H m. unfold m. destruct has; cbn [negb orb]; [specialize (H eq_refl)|]; repeat qcase; split; intros; qlra. }
  rewrite <- (A (scrollX opt && ltb (sub (clientWidth lay) (scroller_width lay)) #0)), <- (A (scrollY opt && ltb (sub (clientHeight lay) (scroller_height lay)) #0)).
  - reflexivity.
  - intros E. apply andb_prop in E as [_ E]. apply Q_ltb in E. exact E.
  - intros E. apply andb_prop in E as [_ E]. apply Q_ltb in E. exact E.
Qed.

Lemma rest_inside s lay : geo s = measured opt lay ->
  (maxScrollX (geo s) <= rest_x s <= 0)%Q /\ (maxScrollY (geo s) <= rest_y s <= 0)%Q.
Proof.
  intros G. unfold rest_x, rest_y, gtb. rewrite G. cbn [measured hasHorizontalScroll hasVerticalScroll maxScrollX maxScrollY].
  assert (A : forall has low v, (has = true -> (low < 0)%Q) ->
    let m := if has then low else #0 in
    (m <= (if negb has || ltb #0 v then #0 else if ltb v m then m else v) <= 0)%Q).
  { intros has low v H m. unfold m. destruct has; cbn [negb orb]; [specialize (H eq_refl)|]; repeat qcase; qlra. }
  split; apply A; intros E; apply andb_prop in E as [_ E]; apply Q_ltb in E; exact E.
Qed.

Lemma reset_moves s lay : geo s = measured opt lay ->
  (inside s -> resetPosition b opt handle (bounceTime opt) s = (Ret false, s)) /\
  (~ inside s -> exists s', resetPosition b opt handle (bounceTime opt) s = (Ret true, s') /\ motion_of s' = (rest_x s, rest_y s, true, geo s, _events s)).
Proof.
  intros G. unfold resetPosition, resetPosition_by. unfold se_bind at 1 3. cbn [get]. cbv zeta. rewrite (inside_rests s lay G), <- !Q_eqb.
  destruct (eqb (rest_x s) (px s)) eqn:Ex, (eqb (rest_y s) (py s)) eqn:Ey; cbn [andb]; (split; [intros [H1 H2]; first [reflexivity | discriminate]|]);
    intros H; [exfalso; apply H; split; reflexivity|..];
    (destruct styled as (e & He & Hs); rewrite He; replace (or_number (bounceTime opt) zero) with (bounceTime opt)
       by (unfold or_number; rewrite (proj2 (nonzero_Q _)) by lra; reflexivity);
     destruct (scroll_moves (rest_x s) (rest_y s) (bounceTime opt) e s some_time Hs) as (s' & E & K); exists s'; unfold se_bind; rewrite E; split; [reflexivity|exact K]).
Qed.

(** One end of a transition. *)
Lemma transition_ends (lay : layout Q) (e : event Q) (s : scroller Q) :
  geo s = measured opt lay -> isInTransition s = true -> end_listeners (_events s) -> e_on_scroller e = true ->
  let s1 := snd (_transitionEnd b opt handle e s) in
  (inside s -> exists s0, motion_of s0 = (px s, py s, false, geo s, _events s) /\ s1 = snd (_execEvent handle (js "scrollEnd") s0) /\ motion_of s1 = motion_of s0) /\
  (~ inside s -> motion_of s1 = (rest_x s, rest_y s, true, geo s, _events s)).
Proof.
  intros G T L He s1. subst s1.
  destruct (returns_time #0 s) as ([] & s' & E). pose proof (keeps_time (motion_of s) #0 s eq_refl) as K. rewrite E in K.
  unfold moving_as, motion_of in K. cbn [snd] in K. injection K as K1 K2 K3 K4 K5.
  assert (Eq : _transitionEnd b opt handle e s = (let! back := resetPosition b opt handle (bounceTime opt) in
      when (negb back) (modify (set_isInTransition false) ;! _execEvent handle (js "scrollEnd"))) s').
  { unfold _transitionEnd. unfold se_bind at 1. cbn [get]. rewrite He, T. cbn [negb orb]. unfold se_bind at 1. rewrite E. reflexivity. }
  rewrite Eq. assert (I : inside s' <-> inside s) by (unfold inside; rewrite K1, K2, K4; reflexivity). rewrite <- I.
  destruct (reset_moves s' lay ltac:(congruence)) as [R1 R2]. split; intros H.
  - rewrite (se_bind_ret _ _ _ _ _ (R1 H)). cbn [negb when]. exists (set_isInTransition false s').
    split; [unfold motion_of; cbn; congruence|]. split; [reflexivity|].
    apply (keeps_event (motion_of (set_isInTransition false s'))); [|reflexivity]. cbn. rewrite K5. exact L.
  - destruct (R2 H) as (s2 & E2 & M2). rewrite (se_bind_ret _ _ _ _ _ E2). cbn [negb when se_ret snd]. rewrite M2.
    unfold rest_x, rest_y. rewrite K1, K2, K4, K5. reflexivity.
Qed.

(** C12: Transitions come to rest.  Let useTransition and useTransform be on, bounceTime positive, and the bounce easing one that
    a CSS style can name (not back, bounce or elastic); let the listeners of scrollEnd be the fading of scrollbars and functions
    of the page, and let these not touch the position, the transition, the geometry or the listeners.  When a transition of the
    scroller ends while it is in transition and measured, and it is inside its bounds, it is no longer in transition, keeps its
    position and tells the listeners of scrollEnd; when it is outside, it goes back inside by another transition.  So two ends of
    transitions bring it to rest inside, wherever it was, positions being computed without rounding. *)
Theorem transitions_settle (lay : layout Q) (e : event Q) (s : scroller Q) :
  geo s = measured opt lay -> isInTransition s = true -> end_listeners (_events s) -> e_on_scroller e = true ->
  let s1 := snd (_transitionEnd b opt handle e s) in
  let s2 := snd (_transitionEnd b opt handle e s1) in
  (inside s -> exists s0, motion_of s0 = (px s, py s, false, geo s, _events s) /\ s1 = snd (_execEvent handle (js "scrollEnd") s0) /\ motion_of s1 = motion_of s0) /\
  (~ inside s -> isInTransition s1 = true /\ inside s1) /\
  isInTransition s2 = false /\ inside s2.
Proof.
  intros G T L He s1 s2. destruct (transition_ends lay e s G T L He) as [In Out]. fold s1 in In, Out. split; [exact In|].
  assert (Out' : ~ inside s -> isInTransition s1 = true /\ geo s1 = measured opt lay /\ inside s1 /\ end_listeners (_events s1)).
  { intros H. specialize (Out H). injection Out as O1 O2 O3 O4 O5. split; [exact O3|]. split; [congruence|]. rewrite O5. split; [|exact L].
    unfold inside. rewrite O1, O2, O4. apply (rest_inside s lay G). }
  split; [intros H; destruct (Out' H) as (A & _ & B & _); split; assumption|].
  assert (D : inside s \/ ~ inside s) by (unfold inside; destruct (Qlt_le_dec (px s) (maxScrollX (geo s))), (Qlt_le_dec 0 (px s)), (Qlt_le_dec (py s) (maxScrollY (geo s))), (Qlt_le_dec 0 (py s)); try (right; lra); left; lra).
  destruct D as [H|H].
  - destruct (In H) as (s0 & M0 & E1 & M1). rewrite M0 in M1. injection M1 as N1 N2 N3 N4 N5.
    assert (E2 : s2 = s1) by (unfold s2, _transitionEnd; unfold se_bind at 1; cbn [get]; rewrite N3, orb_true_r; reflexivity).
    rewrite E2. split; [exact N3|]. unfold inside in *. rewrite N1, N2, N4. exact H.
  - destruct (Out' H) as (T1 & G1 & I1 & L1). destruct (transition_ends lay e s1 G1 T1 L1 He) as [In1 _]. fold s2 in In1.
    destruct (In1 I1) as (s0 & M0 & _ & M1). rewrite M0 in M1. injection M1 as N1 N2 N3 N4 N5.
    split; [exact N3|]. unfold inside in *. rewrite N1, N2, N4. exact I1.
Qed.

End Rest.

(** ** Witnesses *)

#[local] Existing Instance Maths_Q.

Lemma momentum_destination_witness :
  let '(destination, duration) := momentum (inject_Z (-100)) (inject_Z (-40)) (inject_Z 100) (inject_Z (-800)) (inject_Z 200) None in
  (-401 < destination <= -399)%Q /\ (duration == 1000)%Q.
Proof.
  assert (C : (coasting (inject_Z (-100)) (inject_Z (-40)) (inject_Z 100) 0.0006 == -400)%Q) by (vm_compute; reflexivity).
  assert (V : (Qabs.Qabs (inject_Z (-100) - inject_Z (-40)) / inject_Z 100 / 0.0006 == 1000)%Q) by (vm_compute; reflexivity).
  pose proof (@momentum_destination (inject_Z (-100)) (inject_Z (-40)) (inject_Z 100) (inject_Z 200) (-800) None
    ltac:(vm_compute; reflexivity) ltac:(vm_compute; discriminate) ltac:(vm_compute; discriminate) ltac:(vm_compute; reflexivity)) as H.
  destruct (momentum _ _ _ _ _ _) as [destination duration]. destruct H as (H & _). cbv zeta in H. rewrite C, V in H.
  destruct H as ([D1 D2] & E); [split; vm_compute; discriminate|]. split; [split; lra|exact E].
Defined.

(** A scroller of three by two pages. *)
Definition paged_layout : layout Q :=
  mkLayout #100 #200 (mkElement [(#0, #0)] #100 #200) #300 #400 (fun _ => mkElement [(#0, #0)] #1 #1) (fun _ => []) (fun _ => mkBar #5 #200 #5 #20).
Definition paged_options : options Q := normalize sample_browser paged_layout (given_options true true true SnapTrue).
Definition paged : scroller Q := start sample_browser paged_options no_listener [] (new_world #1000 paged_layout).
Definition paged_listener : handler -> SE (scroller Q) unit := listener_code sample_browser paged_options no_listener.

Lemma paged_regular : regular (pages paged).
Proof.
  constructor; [vm_compute; discriminate|]. intros column I. vm_compute in I.
  repeat (destruct I as [<-|I]; [split; [reflexivity|split; [discriminate|repeat constructor; discriminate]]|]). destruct I.
Qed.

Lemma next_then_prev_witness : exists s1 p1, next sample_browser paged_options paged_listener None None paged = (Ret tt, s1) /\
  currentPage s1 = Some p1 /\ pageX p1 = 1 /\ pageY p1 = 0.
Proof.
  destruct (@next_then_prev _ sample_browser paged_options paged_listener eq_refl ltac:(eexists; split; [reflexivity|discriminate]) paged
    (mkPage 0%Q 0%Q 0 0) paged_regular ltac:(vm_compute; reflexivity) ltac:(vm_compute; split; [discriminate|reflexivity]) ltac:(vm_compute; split; [discriminate|reflexivity]))
    as (s1 & p1 & c & H1 & H2 & _ & H3 & _).
  exists s1, p1. split; [exact H1|]. split; [exact H2|]. vm_compute in H3. injection H3 as H3 H4. split; assumption.
Defined.

Lemma nearest_page_witness : exists p, _nearestSnap (inject_Z (-120)) (inject_Z (-30)) paged = (Ret (Some p), paged) /\ 0 <= pageX p < zlen (pages paged).
Proof.
  destruct (@nearest_page paged_options paged_layout paged eq_refl ltac:(vm_compute; reflexivity) ltac:(vm_compute; reflexivity) ltac:(vm_compute; reflexivity)
    ltac:(vm_compute; split; [reflexivity|discriminate]) ltac:(vm_compute; split; [reflexivity|discriminate])) as (table & T & H).
  assert (Et : table = pages paged) by (vm_compute in T; injection T as <-; vm_compute; reflexivity). subst table.
  destruct (H paged (inject_Z (-120)) (inject_Z (-30)) (mkPage 0%Q 0%Q 0 0) eq_refl eq_refl ltac:(vm_compute; reflexivity)) as (p & E & P).
  - constructor; cbn; [vm_compute; split; [discriminate|reflexivity]..| |]; eexists; (split; [vm_compute; reflexivity|reflexivity]).
  - exists p. split; [exact E|]. apply (page_column_in _ _ P).
Defined.

(** A page 1000 high, flung over its upper end. *)
Definition bouncing_options : options Q := normalize sample_browser sample_layout (given_options true true false SnapNone).
Definition flung : scroller Q :=
  run sample_browser bouncing_options no_listener
    [Call (CallScrollTo #0 #(-50) #0 None); Event (pointer "pointerdown" 10 100); Advance #20; Event (pointer "pointermove" 10 140); Advance #10; Event (pointer "pointerup" 10 140)]
    (start sample_browser bouncing_options no_listener [] (new_world #1000 sample_layout)).

Definition transition_end : event Q := mkEvent (js "transitionend") 0 0 (#0, #0) (#0, #0) (fun _ => js "DIV") true NoWheel 0 false.

Definition flung_listener : handler -> SE (scroller Q) unit := listener_code sample_browser bouncing_options no_listener.

Lemma flung_quiet h s : end_listener h -> motion_of (snd (flung_listener h s)) = motion_of s.
Proof.
  destruct h; intros []; [|reflexivity].
  assert (K : keeps (moving_as (motion_of s)) (flung_listener FadeOut)); [|exact (K s eq_refl)].
  change (flung_listener FadeOut) with (indicatorsMap (fade sample_browser false false)). unfold indicatorsMap, fade, setTimeout.
  apply keeps_reading. intros s0 H0. apply keeps_all. intros i. apply keeps_reading. intros s1 H1. destruct (nth_indicator i s1) as [x|]; [|apply keeps_ret].
  cbn [andb]. apply keeps_bind; [destruct (fadeTimeout x); intros t H; exact H|intros _]. do 2 (apply keeps_bind; [intros t H; exact H|intros _]).
  apply keeps_bind; [|intros t; intros t' H; exact H]. apply keeps_reading. intros s2 H2. apply keeps_bind; [intros t H; exact H|intros _; apply keeps_ret].
Qed.

Lemma transitions_settle_witness :
  let s2 := snd (_transitionEnd sample_browser bouncing_options flung_listener transition_end
             (snd (_transitionEnd sample_browser bouncing_options flung_listener transition_end flung))) in
  (0 < py flung)%Q /\ isInTransition s2 = false /\ inside s2.
Proof.
  split; [vm_compute; reflexivity|].
  refine (proj2 (proj2 (@transitions_settle _ sample_browser bouncing_options flung_listener eq_refl eq_refl _ _ flung_quiet sample_layout transition_end flung _ _ _ eq_refl))).
  - eexists. split; [reflexivity|discriminate].
  - vm_compute. reflexivity.
  - vm_compute. reflexivity.
  - vm_compute. reflexivity.
  - vm_compute. constructor.
Defined.

(** ** Cases the code does not handle *)

(** Doubles. *)
#[local] Instance Maths_F64 : Maths F64.t := {
  Math_sqrt := SFsqrt F64.prec F64.emax; Math_sin v := v; Math_pow v _ := v; Math_PI := dec 3141592653589793 15; show := F64.show; toUpperCase := upper
}.

Definition double_layout (bars : list (element F64.t)) : layout F64.t :=
  mkLayout #100 #200 (mkElement [(#0, #0)] #100 #200) #300 #1000 (fun i => nth (Z.to_nat i) bars (mkElement [(#0, #0)] #1 #1)) (fun _ => []) (fun _ => mkBar #5 #200 #5 #20).
Definition doubles (transitions : bool) (pages : snap_option) : options F64.t :=
  normalize sample_browser (double_layout []) (given_options true transitions true pages).
Definition silent (k : Z) : SE (scroller F64.t) unit := se_ret tt.
Definition begin_doubles (opt : options F64.t) (l : layout F64.t) (hs : list (happening (A:=F64.t))) : scroller F64.t :=
  run sample_browser opt silent hs (start sample_browser opt silent [] (new_world #1000 l)).
Definition touch (type : string) (y : Z) : event F64.t := mkEvent (js type) 0 1 (#10, #y) (#10, #y) (fun _ => js "DIV") true NoWheel 0 false.
Definition press (code : Z) : event F64.t := mkEvent (js "keydown") 0 0 (#0, #0) (#0, #0) (fun _ => js "BODY") false NoWheel code false.

(** A gesture that begins with a rest and ends in the millisecond of its only move: the time of the
    momentum is 0 and the position is not a number any more; another gesture does not help. *)
Example same_time_release :
  let drag := [Event (touch "pointerdown" 100); Advance #350; Event (touch "pointermove" 80); Event (touch "pointerup" 80)] in
  let again := [Event (touch "pointerdown" 100); Advance #20; Event (touch "pointermove" 80); Advance #20; Event (touch "pointerup" 80)] in
  isNaN (py (begin_doubles (doubles true SnapNone) (double_layout []) drag)) = true /\
  isNaN (py (begin_doubles (doubles true SnapNone) (double_layout []) (drag ++ again))) = true.
Proof. vm_compute. split; reflexivity. Qed.

(** Two animations at once: the end of the first stops the second, which never arrives. *)
Example overlapping_animations :
  let ticks n := concat (repeat [Advance #100; Frames] n) in
  let s := begin_doubles (doubles false SnapNone) (double_layout [])
    ([Call (CallScrollTo #0 #(-100) #500 None); Advance #100; Frames; Call (CallScrollTo #0 #(-400) #1000 None)] ++ ticks 20%nat) in
  ltb #(-400) (py s) = true /\ isAnimating s = false /\ frames (the_page s) = [].
Proof. vm_compute. repeat split. Qed.

(** With pages, the key up goes down: from the first row to the second. *)
Example up_key_turns_down :
  option_map pageY (currentPage (begin_doubles (doubles true SnapTrue) (double_layout []) [Event (press 38)])) = Some 1.
Proof. vm_compute. reflexivity. Qed.

(** On the last page, [next] goes back to the first column. *)
Example next_on_last_page : following 3 2 true 2 1 = (0, 1).
Proof. reflexivity. Qed.

(** The cancellation of a touch does not end the gesture. *)
Example touchcancel_ignored :
  let s := begin_doubles (doubles true SnapNone) (double_layout []) [Event (touch "touchstart" 100); Advance #20; Event (touch "touchmove" 80); Event (touch "touchcancel" 80)] in
  initiated (gest s) = Some 1.
Proof. vm_compute. reflexivity. Qed.

(** Elements as pages, one in the first row and two in the second: the first place of the second
    column is a hole, and [next] throws. *)
Definition uneven : list (element F64.t) :=
  [mkElement [(#0, #0)] #100 #200; mkElement [(#0, #200)] #100 #200; mkElement [(#100, #200)] #100 #200].
Example uneven_rows_throw :
  let opt := doubles true (SnapElements [0; 1; 2]) in
  let s := begin_doubles opt (double_layout uneven) [] in
  fst (next sample_browser opt (listener_code sample_browser opt silent) None None s) = Throw "this.pages[x][y] is undefined".
Proof. vm_compute. reflexivity. Qed.

(** A listener that takes itself off while the listeners run: the one after it is not reached. *)
Example off_while_running :
  let user (k : Z) : SE (scroller F64.t) unit := if k =? 1 then off (js "scrollEnd") (User 1) else emit (DispatchTap [] #0 #k) in
  let s := run sample_browser (doubles true SnapNone) user [Call (CallOn (js "scrollEnd") 1); Call (CallOn (js "scrollEnd") 2)]
    (start sample_browser (doubles true SnapNone) user [] (new_world #1000 (double_layout []))) in
  fst (_execEvent (listener_code sample_browser (doubles true SnapNone) user) (js "scrollEnd") s) = Throw "this._events[type][i] is undefined" /\
  effects (the_page (snd (_execEvent (listener_code sample_browser (doubles true SnapNone) user) (js "scrollEnd") s))) = [].
Proof. vm_compute. split; reflexivity. Qed.
